(* ===== verification/_CoqProject ===== *)
-Q . S2P
Prelude.v
Errors.v
Compat.v
FileOps.v
LogFrame.v
WalFrames.v
WalBackend.v
WalDurability.v
WalProperties.v
PageFormat.v
PageBlock.v
RecordSpec.v
RecordMap.v
PageView.v
PageValidate.v
PageInsert.v
PageRebuild.v
PageImage.v
PageProperties.v
PhysLog.v
Replay.v
ReplayProperties.v
PlCodec.v
TsFile.v
Chain.v
TsChain.v
TsRead.v
TsWrite.v
TsPlan.v
TsRow.v
TsPersist.v
TsState.v
TsFlush.v
TsMutate.v
TsOpen.v
RelationLog.v
TsReplay.v
TsRecovery.v
TimeSeries.v
TsProperties.v
TsCrash.v
TsFindings.v
Snapshots.v
Versions.v
Histories.v
XLocks.v
BTree.v
TxState.v
KvStore.v
Relation.v
RelationProperties.v
RelationRuns.v
Storage.v
RelationLaws.v
StorageProperties.v
Worker.v
CommitOrder.v
WorkerRecovery.v
WorkerExamples.v
Sessions.v
SessionProperties.v
WorkerFindings.v
Tuples.v
TupleLayout.v
TupleProperties.v
TupleBuild.v
TupleOrder.v
TupleUpdate.v
DataTypes.v
DataTypeLaws.v
TupleTheorems.v
Tables.v
Deltas.v
TableProperties.v
RowProperties.v
DeltaProperties.v
RowTheorems.v
PartitionRouter.v
RouterProperties.v
RouterTheorems.v
