(* ===== verification/Prelude.v ===== *)
(** * MuduDB storage kernel: a Rocq development

    MuduDB ([src/]) is a database server whose kernel ([src/mudu_kernel])
    gives each worker its own storage.  A session of a worker runs
    transactions: their writes are staged, checked for conflicts when they
    commit, written to the log of the worker and applied to versioned rows.
    Rows of tables are stored in relations, an index in memory over two
    time-series files; such a file is a list of slotted pages, linked from the
    newest to the oldest.  A write changes page images in a cache and queues a
    record of the change in a physical log; logs are flushed in groups, pages
    later, and after a crash the logs are replayed.  This development is a
    shallow embedding of that kernel, from the bytes of a page up to the
    sessions of a worker, with the theorems that say what each layer promises
    to the one above it.

    ** How the code is modelled

    A Rust function is a Rocq function that returns [Res]: [Ok], [Err] with
    the code of the [MuduError], or [Panic] for a slice bound, an arithmetic
    check or an index that fails.  A method on [&mut self] and an operation
    on files is a function in the state monad [ST] over [Res], with the state
    of the component as a record.  Integers are [Z]; checks, wrap-around and
    saturation are written out where the code has them.  Buffers and files
    are lists of bytes, concurrent hash maps are finite maps, [BTreeMap] is a
    sorted association list ([BTree]).  Crates that are not in the repository
    are classes: [Packages] (byte order, CRC, the migration hook) with the
    laws [PackagesOk], and [Msgpack] with [MsgpackOk]; [Compat.Reference],
    [WalProperties.BinString] and [PlCodec] are instances of them, on which
    the examples are evaluated.  Where tasks interleave, the code between two
    points at which a task can be suspended is one step.

    ** Files

    - [Prelude]: results, the state monad, byte buffers, machine integers,
      stable sorting, and the tactics and hints of the development.
    - [Errors]: [mudu/src/error/ec.rs].  [Compat]: [mudu/src/compat/mod.rs]
      and [mudu/src/common/crc.rs].  [FileOps]: reads and writes of a file.
    - Log frames ([LogFrame], proofs in [WalFrames]):
      [wal/format/latest.rs], [wal/worker_log.rs] and the recovery loop of
      [wal/typed_worker_log.rs].
    - The log of a worker ([WalBackend], proofs in [WalDurability], theorems
      in [WalProperties]): [wal/worker_wal_backend/], that is chunk files,
      reservations, group commit, flush rounds, watermark and restart.
    - Slotted pages ([PageFormat], [PageBlock]): [storage/page/].
      [RecordSpec] and [RecordMap] are what a page means to its clients, a
      list of records in key order and a finite map; [PageView],
      [PageValidate], [PageInsert] and [PageRebuild] show that the methods
      implement it; the theorems are in [PageProperties].  [PageImage]:
      [time_series_file/page.rs].
    - The physical log and its replay ([PhysLog], proofs in [Replay],
      theorems in [ReplayProperties]): [wal/pl_entry.rs],
      [wal/pl_batch.rs], the deltas of [time_series_file/plan.rs] and
      [time_series_file/wal.rs].  [PlCodec] is an instance of [Msgpack] for
      its batches.
    - Time-series files ([TsFile]): [time_series_file.rs] and its modules
      [read.rs], [write.rs], [plan.rs] and [open.rs].  [Chain] is what a file
      means to its clients, a list of pages and the map it stands for.
      [TsChain] and [TsRead] treat reads, [TsWrite], [TsPlan] and [TsRow] the
      planning of a row, [TsPersist] logging and publishing, [TsState] the
      invariant of an open file, [TsFlush] the flush of dirty pages,
      [TsMutate] insertions and deletions, [TsOpen] opening, [RelationLog],
      [TsReplay] and [TsRecovery] the file together with its log.
      [TimeSeries] is the interface that relations use, with its laws and the
      proof that files obey them.  The theorems are in [TsProperties],
      [TsCrash] and [TsFindings].
    - Versions: [Snapshots] ([server/worker_snapshot.rs],
      [contract/snapshot.rs]) and [Versions] ([contract/data_row.rs],
      [version_tuple.rs], [version_delta.rs], [common/update_delta.rs]);
      [Histories] is what rows mean to readers, the list of their writes.
    - Locks: [XLocks] ([server/x_lock_mgr.rs]).
    - Transactions: [TxState] ([server/worker_tx_manager.rs], the entries of
      [wal/xl_*.rs], the assignments of [x_engine/api.rs]).
    - The key/value store: [KvStore], the part of [server/worker_storage.rs]
      that treats the rows of the worker's own key space.
    - Relations: [Relation] ([storage/relation/relation.rs] over the index of
      [index/btree/]), proofs in [RelationProperties], theorems in
      [RelationRuns].
    - The storage of a worker: [Storage] ([server/worker_storage.rs]) over the
      interface [RelationOps]; [RelationLaws] has the laws [RelationOk] of the
      interface and the proof that relations obey them, [StorageProperties]
      what the storage does in terms of histories.
    - A worker: [Worker] ([server/x_contract/kv.rs], [utils.rs], the statement
      locks of [ops.rs]).  [CommitOrder] is the step relation of a worker on
      which any number of commits, lock requests and reads interleave;
      [WorkerRecovery] treats the restart; [WorkerExamples] has the runs on
      which the theorems are instantiated.
    - Sessions: [Sessions] ([server/worker_session_manager.rs] and the session
      operations of [server/worker.rs]), theorems in [SessionProperties].
      [WorkerFindings] has runs of a worker that show limits of the code.

    - Tuples, the bytes of a row ([Tuples]): [mudu_contract/src/tuple/], over
      the interface [TypeFns] of the data types.  [TupleLayout] has the laws
      [TypeFnsOk] of the interface and the places of fields, slots and NULL
      bits, [TupleProperties] the canonical bytes of a row and that one
      builder and the readers agree with them, [TupleBuild] the other builder,
      [TupleOrder] the order of columns and the comparison, [TupleUpdate]
      updates in place.
    - Data types ([DataTypes]): [mudu_type], the binary form and the order of
      twelve families; [DataTypeLaws] shows that they obey [TypeFnsOk].  The
      theorems on tuples, and their runs with these types, are in
      [TupleTheorems].
    - Tables and rows ([Tables], [Deltas]): [contract/schema_table.rs],
      [table_info.rs], [table_desc.rs] and the row functions of
      [server/x_contract/utils.rs].  [TableProperties] treats the descriptor
      of a table, [RowProperties] and [DeltaProperties] rows and the updates
      of rows; the theorems are in [RowTheorems].
    - Partitions ([PartitionRouter]): [server/partition_router.rs]; proofs in
      [RouterProperties], theorems in [RouterTheorems].

    ** What the theorems show

    - Log: an entry survives the cut into frames; a chunk that ends in a torn
      frame is scanned up to the tear; recovery hands over exactly the
      completed entries; an acknowledged commit is recovered from the synced
      files; the watermark passes an LSN exactly when all LSNs up to it were
      reported; a restart resumes behind the valid frames.
    - Pages: the codecs are inverse to each other; a validated page can be
      read without error; insertion, update and deletion are the map updates
      or leave the page alone with an error, and they fail exactly when the
      arithmetic says that there is no room; compaction keeps the records
      when they fit in key order, and destroys the page when they do not.
    - Replay: the delta of two pages, replayed on the first, gives the second;
      a delta that a page already reflects is skipped.
    - Files: reads return what the map of the chain says; a batch is atomic
      and a row is refused exactly when it has no room; a deletion removes one
      version; flushing and reopening give the same chain; a flush does not
      lose the writes that overtake it; after a power loss a file opens again
      with what was durable; batches and deletions leave a bounded number of
      dirty pages; whatever a file contains, opening it ends, and accepts it
      only if all its pages form one ordered chain.
    - Versions: a new transaction sees exactly the ids of ended transactions
      up to its own; a row answers from its whole history although it keeps
      four versions; deltas can be undone.
    - Locks: an attempt takes all keys or none; no wakeup is lost in any
      interleaving; all waiters can be served without a time-out.
    - Transactions: the log entry is the write set.  The key/value store and
      relations answer every read from the history of the writes, and a
      relation can be rebuilt from its files.
    - Workers: however the phases of commits interleave, the log has the
      writes of every row in the order in which they are applied, and the
      commit function, called alone, is a run of these phases; of two
      conflicting commits the first wins, but for rows that a statement
      locked; the replay of the log restores the reads, or stops at a relation
      that refuses its rows.
    - Sessions: their tables stay consistent, but for the owners of sessions
      whose context could not be made, and a session sees its own writes over
      its snapshot.
    - Rows: a tuple is read back as it was built, with either builder; columns
      are put in an order that a descriptor accepts; comparison is the
      lexicographic order of the values; an update gives the tuple of the new
      values; what is inserted into a table is what is selected from it,
      updates change what they set and no more, expressions are checked
      against the range of the type, and deferred restocks of a row commute.
    - Partitions: a key is routed to the partition that encloses it, and a
      range to the partitions of all of its keys, but for one case.
    - Limits, as theorems in general: a page whose compaction loses its
      records, an unfinished entry that makes every later recovery fail, a
      refused commit that keeps its locks and its id, a range that misses the
      partition of its end, a key predicate that reads another column, updates
      of NULLs that are lost and shorter strings that make a row unreadable.
      As concrete runs: a log record that its own replay rejects, commits lost behind a data flush that
      ran ahead of the log or a write that changed nothing, a deletion that
      uncovers an old version, a damaged file on which opening panics, a
      refused batch that hides a row, single writes that are applied in another order than they
      are logged, statements that wait for each other, range reads with the
      wrong bounds of staged rows, tables that outlive their drop, updates of
      two strings that damage a row.

    ** Fuel

    Loops along the page chain take [chain_fuel], one step per page and one
    for the end; a chain visits no page twice, so the theorems about reads,
    writes and opening show that the fuel is never used up ([open_checks_chain]
    for files of any content).  The scan of a chunk and the frames of an entry take
    fuel from the length of the buffer ([scan_fuel]), the record diff the
    number of records on both pages, the flush rounds the length of the
    queue, and the builder that doubles its buffer one step per byte of the
    tuple ([growth_fuel]); the lemmas on each of them show that it is enough.
    The loop that looks for a free session id takes the list of the ids it
    tries, each with the error of making its context, if any.

    ** Assumptions of the theorems on workers

    Transactions of [CommitOrder] and [WorkerRecovery] have no deferred
    assignments ([tx_plain]); commits are faster than the time-to-live of
    their locks, and nobody else gives these back ([spares_commits]); single
    writes outside of transactions are not among the steps; the relations
    open, have room for the rows of a commit ([parts_room]) and take them.
    The step relation [sys_step] takes the commit function of [kv.rs] apart at
    the points where it waits; [commit_run] shows that a call of
    [worker_commit_tx_with_lock_owner] is a run of these steps.  In the replay
    of a restart nothing is assumed of the answers of the relations, only
    their room ([steps_room]).  The log of a worker is the list of its
    batches: that a batch survives is what the theorems on the log say.
    Whether a call into the log succeeds is taken from [wx_log_answers].

    ** Not modelled

    Of the data types, numbers of arbitrary precision (a package), arrays
    and records, and the JSON, text and MessagePack forms of values; hashing
    of tuples.  To the storage a row is a string of bytes, and the
    evaluation of assignments a parameter, which [Deltas.table_catalog]
    gives.  SQL statements and the executor over the storage, messages
    between workers and transactions over several of them, the catalog, the
    network server, the operating-system bindings, the WebAssembly runtime,
    generators, tools and examples: they are input and output, code that
    other tools generate, or layers above the one treated here.  Within the
    kernel: errors of the device (a write that fails), the tasks that poll a
    flush round, file names, caches of file handles, tracing and stage
    statistics, poisoned mutexes.  A page that is written to a data file is
    durable at once and as a whole, a file can grow without bound, and power
    is lost between two operations of a file, not within one.  A future that
    is dropped while it waits for a lock is not modelled.  The order of key
    tuples ([index/index_key/key_tuple.rs]) is a class with the laws of a
    total order, so that keys whose comparison fails, which the code takes
    for equal, are left out.  The write latch of a file makes each writer a
    single step; flushes are interleaved with writers, but readers are not
    interleaved with writers between the pages they read. *)

From Stdlib Require Export ZArith Lia Sorting.
From Stdlib Require Export Strings.Byte.
From stdpp Require Export base numbers list gmap.

#[global] Open Scope Z_scope.

(** ** Results

    A Rust function returns [Ok] or [Err]; a failed slice bound, an
    arithmetic overflow check or a failed [assert!] panics. *)

Inductive Res (E A : Type) : Type :=
| Ok (a : A)
| Err (e : E)
| Panic.
Arguments Ok {E A} a.
Arguments Err {E A} e.
Arguments Panic {E A}.

#[export] Instance res_ret {E} : MRet (Res E) := fun _ a => Ok a.
#[export] Instance res_bind {E} : MBind (Res E) := fun _ _ f m =>
  match m with Ok a => f a | Err e => Err e | Panic => Panic end.

(** The [?] operator with a [From] conversion of the error. *)
Definition map_err {E E' A} (f : E -> E') (m : Res E A) : Res E' A :=
  match m with Ok a => Ok a | Err e => Err (f e) | Panic => Panic end.

Definition is_ok {E A} (m : Res E A) : bool :=
  match m with Ok _ => true | _ => false end.

(** State passing: a method on [&mut self] maps the state before the call to
    a result and the state after it, the state after an error included. *)
Definition ST (E S A : Type) : Type := S -> Res E A * S.

#[export] Instance st_ret {E S} : MRet (ST E S) := fun _ a s => (Ok a, s).
#[export] Instance st_bind {E S} : MBind (ST E S) := fun _ _ f m s =>
  match m s with
  | (Ok a, s') => f a s'
  | (Err e, s') => (Err e, s')
  | (Panic, s') => (Panic, s')
  end.

Definition st_lift {E S A} (r : Res E A) : ST E S A := fun s => (r, s).
Definition st_get {E S} : ST E S S := fun s => (Ok s, s).
Definition st_put {E S} (s : S) : ST E S unit := fun _ => (Ok tt, s).
Definition st_modify {E S} (f : S -> S) : ST E S unit := fun s => (Ok tt, f s).
Definition st_reads {E S A} (f : S -> Res E A) : ST E S A := fun s => (f s, s).

(** A loop over a vector that threads the state. *)
Fixpoint st_iter {E S A} (f : A -> ST E S unit) (l : list A) : ST E S unit :=
  match l with
  | [] => mret tt
  | x :: l => f x ;; st_iter f l
  end.

(** A loop that collects one value per element. *)
Fixpoint st_map {E S A B} (f : A -> ST E S B) (l : list A) : ST E S (list B) :=
  match l with
  | [] => mret []
  | x :: l => y ← f x; ys ← st_map f l; mret (y :: ys)
  end.

(** ** Bytes and byte buffers

    Buffers are lists of bytes, offsets and lengths are [Z] ([usize]). *)

#[export] Instance byte_eq_dec : EqDecision byte := Byte.byte_eq_dec.

#[export] Instance byte_countable : Countable byte :=
  inj_countable Byte.to_nat Byte.of_nat Byte.of_to_nat.

Definition zlen {A} (l : list A) : Z := Z.of_nat (length l).

(** [l[off..off+n]] when in range. *)
Definition zsub {A} (off n : Z) (l : list A) : list A :=
  take (Z.to_nat n) (drop (Z.to_nat off) l).

(** [l] with [bs] written at [off]. *)
Definition zput {A} (off : Z) (bs l : list A) : list A :=
  take (Z.to_nat off) l ++ bs ++ drop (Z.to_nat off + length bs)%nat l.

Definition zeros (n : Z) : list byte := replicate (Z.to_nat n) x00.

Declare Scope mudu_scope.
Delimit Scope mudu_scope with mudu.
Notation "l .[ a , n ]" := (zsub a n l)
  (at level 1, left associativity, format "l .[ a ,  n ]") : mudu_scope.
#[global] Open Scope mudu_scope.

(** [&l[a..b]]: panics unless [a <= b <= l.len()]. *)
Definition slice {E A} (a b : Z) (l : list A) : Res E (list A) :=
  if (0 <=? a) && (a <=? b) && (b <=? zlen l) then Ok (l.[a, b - a]) else Panic.

(** [l[a..b].copy_from_slice(src)]: panics on a bad range or when the two
    lengths differ. *)
Definition copy_from_slice {E A} (a b : Z) (src : list A) : ST E (list A) unit :=
  fun l =>
    if (0 <=? a) && (a <=? b) && (b <=? zlen l) && (b - a =? zlen src)
    then (Ok tt, zput a src l) else (Panic, l).

(** [l[a..b].fill(x)]. *)
Definition fill {E A} (a b : Z) (x : A) : ST E (list A) unit :=
  fun l =>
    if (0 <=? a) && (a <=? b) && (b <=? zlen l)
    then (Ok tt, zput a (replicate (Z.to_nat (b - a)) x) l) else (Panic, l).

(** [l.copy_within(a..b, dst)]. *)
Definition copy_within {E A} (a b dst : Z) : ST E (list A) unit :=
  fun l =>
    if (0 <=? a) && (a <=? b) && (b <=? zlen l) && (0 <=? dst)
       && (dst + (b - a) <=? zlen l)
    then (Ok tt, zput dst (l.[a, b - a]) l) else (Panic, l).

(** A call that borrows [&mut l[a..b]]. *)
Definition on_slice {E A B} (a b : Z) (m : ST E (list A) B) : ST E (list A) B :=
  fun l =>
    if (0 <=? a) && (a <=? b) && (b <=? zlen l)
    then let '(r, w) := m (l.[a, b - a]) in (r, zput a w l)
    else (Panic, l).

(** ** Machine integers *)

Definition U16_MAX : Z := 65535.
Definition U32_MAX : Z := 4294967295.
Definition U64_MAX : Z := 18446744073709551615.

Definition in_u16 (z : Z) : Prop := 0 <= z <= U16_MAX.
Definition in_u32 (z : Z) : Prop := 0 <= z <= U32_MAX.
Definition in_u64 (z : Z) : Prop := 0 <= z <= U64_MAX.

(** [x as u32] from a [usize]. *)
Definition as_u32 (z : Z) : Z := z mod 4294967296.

(** [usize] subtraction with the overflow check. *)
Definition usub {E} (a b : Z) : Res E Z := if b <=? a then Ok (a - b) else Panic.

(** Addition of [u64] or [usize] with the overflow check. *)
Definition uadd {E} (a b : Z) : Res E Z := if a + b <=? U64_MAX then Ok (a + b) else Panic.

(** [u64::saturating_add]. *)
Definition saturating_add (a b : Z) : Z := Z.min (a + b) U64_MAX.

(** ** Stable sorting: [slice::sort_by] *)

Fixpoint insert_stable {A} (le : A -> A -> bool) (x : A) (l : list A) : list A :=
  match l with
  | [] => [x]
  | y :: l' => if le x y then x :: l else y :: insert_stable le x l'
  end.

Fixpoint sort_stable {A} (le : A -> A -> bool) (l : list A) : list A :=
  match l with
  | [] => []
  | x :: l' => insert_stable le x (sort_stable le l')
  end.

(** [Ordering::then_with]. *)
Definition then_with (a b : comparison) : comparison :=
  match a with Eq => b | _ => a end.

Definition cmp_le (c : comparison) : bool :=
  match c with Gt => false | _ => true end.

(** ** Automation *)

Create Rewrite HintDb zlens.

Ltac unfold_bounds :=
  unfold in_u16, in_u32, in_u64, U16_MAX, U32_MAX, U64_MAX, zlen in *.

Ltac mlia := unfold_bounds; lia.

(** Splits the boolean guard of the first [if] of the goal. *)
Ltac split_guard :=
  match goal with
  | |- context [if ?b then _ else _] =>
      let H := fresh "Hg" in destruct b eqn:H
  end.

(** ** Lemmas on buffers *)

Section buffers.
Context {A : Type}.
Implicit Types (l bs : list A).

Lemma zlen_nonneg l : 0 <= zlen l.
Proof. mlia. Qed.

Lemma zlen_nil : zlen (@nil A) = 0.
Proof. done. Qed.

Lemma zlen_cons x l : zlen (x :: l) = zlen l + 1.
Proof. unfold zlen. simpl. lia. Qed.

Lemma zlen_app l1 l2 : zlen (l1 ++ l2) = zlen l1 + zlen l2.
Proof. unfold zlen. rewrite length_app. lia. Qed.

Lemma zlen_zsub off n l :
  0 <= off -> 0 <= n -> off + n <= zlen l -> zlen (l.[off, n]) = n.
Proof. unfold zlen, zsub. intros. rewrite length_take, length_drop. mlia. Qed.

Lemma zlen_zput off bs l :
  0 <= off -> off + zlen bs <= zlen l -> zlen (zput off bs l) = zlen l.
Proof.
  intros. unfold zput, zlen in *. rewrite !length_app, length_take, length_drop. mlia.
Qed.

Lemma zlen_replicate n (x : A) : 0 <= n -> zlen (replicate (Z.to_nat n) x) = n.
Proof. unfold zlen. rewrite length_replicate. lia. Qed.

Lemma zsub_all l n : n = zlen l -> l.[0, n] = l.
Proof. intros ->. unfold zsub, zlen. rewrite Nat2Z.id. apply firstn_all. Qed.

Lemma zsub_nil_n off l : l.[off, 0] = [].
Proof. done. Qed.

Lemma zput_nil off l : zput off [] l = l.
Proof. unfold zput. simpl. rewrite Nat.add_0_r. apply take_drop. Qed.

(** Pointwise view. *)
Lemma zsub_lookup off n l i :
  0 <= off -> 0 <= n ->
  l.[off, n] !! i = if decide (Z.of_nat i < n) then l !! (Z.to_nat off + i)%nat else None.
Proof.
  intros Ho Hn. unfold zsub. case_decide.
  - rewrite lookup_take_lt by lia. by rewrite lookup_drop.
  - rewrite lookup_take_ge; [done | lia].
Qed.

Lemma zput_lookup off bs l i :
  0 <= off -> off + zlen bs <= zlen l ->
  zput off bs l !! i =
    if decide (off <= Z.of_nat i < off + zlen bs)
    then bs !! (i - Z.to_nat off)%nat else l !! i.
Proof.
  intros Ho Hn. unfold zput, zlen in *. case_decide.
  - rewrite lookup_app_r by (rewrite length_take; lia).
    rewrite length_take, lookup_app_l by lia. f_equal. lia.
  - destruct (decide (Z.of_nat i < off)).
    + rewrite lookup_app_l by (rewrite length_take; lia).
      by rewrite lookup_take_lt by lia.
    + rewrite lookup_app_r by (rewrite length_take; lia).
      rewrite lookup_app_r by (rewrite length_take; lia).
      rewrite length_take, lookup_drop. f_equal. lia.
Qed.

Lemma zsub_ext off n off' n' l l' :
  n = n' -> 0 <= off -> 0 <= off' -> 0 <= n ->
  (forall i : nat, Z.of_nat i < n ->
     l !! (Z.to_nat off + i)%nat = l' !! (Z.to_nat off' + i)%nat) ->
  l.[off, n] = l'.[off', n'].
Proof.
  intros <- ? ? ? H. apply list_eq. intros i.
  rewrite !zsub_lookup by lia. case_decide; [by apply H | done].
Qed.

Lemma zsub_zput_eq off n bs l :
  0 <= off -> n = zlen bs -> off + n <= zlen l -> (zput off bs l).[off, n] = bs.
Proof.
  intros Ho -> Hl. apply list_eq. intros i.
  pose proof (zlen_nonneg bs).
  rewrite zsub_lookup, zput_lookup by lia. case_decide.
  - rewrite decide_True by lia. f_equal. lia.
  - symmetry. apply lookup_ge_None_2. mlia.
Qed.

Lemma zsub_zput_ne off n off' bs l :
  0 <= off -> 0 <= n -> 0 <= off' -> off' + zlen bs <= zlen l ->
  off + n <= off' \/ off' + zlen bs <= off ->
  (zput off' bs l).[off, n] = l.[off, n].
Proof.
  intros. apply zsub_ext; try lia. intros i Hi.
  rewrite zput_lookup by lia. rewrite decide_False by lia. done.
Qed.

Lemma zsub_zput_in off n off' bs l :
  0 <= off' <= off -> 0 <= n -> off + n <= off' + zlen bs ->
  off' + zlen bs <= zlen l ->
  (zput off' bs l).[off, n] = bs.[off - off', n].
Proof.
  intros. apply zsub_ext; try lia. intros i Hi.
  rewrite zput_lookup by lia. rewrite decide_True by lia. f_equal. lia.
Qed.

Lemma zsub_zsub off n off' n' l :
  0 <= off -> 0 <= n -> 0 <= off' -> off + n <= n' ->
  (l.[off', n']).[off, n] = l.[off' + off, n].
Proof.
  intros. apply zsub_ext; try lia. intros i Hi.
  rewrite zsub_lookup by lia. rewrite decide_True by lia. f_equal. lia.
Qed.

Lemma zsub_app_l off n l1 l2 :
  0 <= off -> 0 <= n -> off + n <= zlen l1 -> (l1 ++ l2).[off, n] = l1.[off, n].
Proof.
  intros. apply zsub_ext; try lia. intros i Hi.
  rewrite lookup_app_l; [done | mlia].
Qed.

Lemma zsub_app_r off n l1 l2 :
  0 <= n -> zlen l1 <= off -> (l1 ++ l2).[off, n] = l2.[off - zlen l1, n].
Proof.
  intros. pose proof (zlen_nonneg l1). apply zsub_ext; try lia. intros i Hi.
  rewrite lookup_app_r by mlia. f_equal. mlia.
Qed.

(** Two adjacent writes are one write. *)
Lemma zput_adjacent off a b l :
  0 <= off -> off + zlen a + zlen b <= zlen l ->
  zput (off + zlen a) b (zput off a l) = zput off (a ++ b) l.
Proof.
  intros Ho Hl. pose proof (zlen_nonneg a). pose proof (zlen_nonneg b).
  apply list_eq. intros i.
  rewrite !zput_lookup by (rewrite ?zlen_zput, ?zlen_app; lia).
  rewrite zlen_app. repeat case_decide; try lia; try done.
  - rewrite lookup_app_r by mlia. f_equal. mlia.
  - rewrite lookup_app_l by mlia. done.
Qed.

Lemma zput_overwrite off a b l :
  0 <= off -> zlen a = zlen b -> off + zlen a <= zlen l ->
  zput off b (zput off a l) = zput off b l.
Proof.
  intros. apply list_eq. intros i.
  rewrite !zput_lookup by (rewrite ?zlen_zput; lia).
  repeat case_decide; try lia; done.
Qed.

Lemma zput_zsub_id off n l :
  0 <= off -> 0 <= n -> off + n <= zlen l -> zput off (l.[off, n]) l = l.
Proof.
  intros. apply list_eq. intros i.
  rewrite zput_lookup by (rewrite ?zlen_zsub; lia).
  rewrite zlen_zsub by lia. case_decide; [| done].
  rewrite zsub_lookup by lia. rewrite decide_True by lia. f_equal. lia.
Qed.

Lemma slice_ok {E} a b l :
  0 <= a <= b -> b <= zlen l -> slice (E := E) a b l = Ok (l.[a, b - a]).
Proof.
  intros. unfold slice. by rewrite !(proj2 (Z.leb_le _ _)) by lia.
Qed.

Lemma copy_from_slice_ok {E} a b src l :
  0 <= a <= b -> b <= zlen l -> b - a = zlen src ->
  copy_from_slice (E := E) a b src l = (Ok tt, zput a src l).
Proof.
  intros. unfold copy_from_slice.
  rewrite !(proj2 (Z.leb_le _ _)) by lia. by rewrite (proj2 (Z.eqb_eq _ _)) by lia.
Qed.

Lemma fill_ok {E} a b x l :
  0 <= a <= b -> b <= zlen l ->
  fill (E := E) a b x l = (Ok tt, zput a (replicate (Z.to_nat (b - a)) x) l).
Proof. intros. unfold fill. by rewrite !(proj2 (Z.leb_le _ _)) by lia. Qed.

Lemma copy_within_ok {E} a b dst l :
  0 <= a <= b -> b <= zlen l -> 0 <= dst -> dst + (b - a) <= zlen l ->
  copy_within (E := E) a b dst l = (Ok tt, zput dst (l.[a, b - a]) l).
Proof. intros. unfold copy_within. by rewrite !(proj2 (Z.leb_le _ _)) by lia. Qed.

Lemma on_slice_ok {E B} a b (m : ST E (list A) B) l :
  0 <= a <= b -> b <= zlen l ->
  on_slice a b m l = (let '(r, w) := m (l.[a, b - a]) in (r, zput a w l)).
Proof. intros. unfold on_slice. by rewrite !(proj2 (Z.leb_le _ _)) by lia. Qed.

End buffers.

#[export] Hint Rewrite @zlen_nil @zlen_cons @zlen_app : zlens.

Lemma usub_ok {E} a b : b <= a -> usub (E := E) a b = Ok (a - b).
Proof. intros. unfold usub. by rewrite (proj2 (Z.leb_le _ _)). Qed.

Lemma as_u32_small z : in_u32 z -> as_u32 z = z.
Proof. intros. unfold as_u32. apply Z.mod_small. mlia. Qed.

Lemma zlen_zeros n : 0 <= n -> zlen (zeros n) = n.
Proof. apply zlen_replicate. Qed.

(** ** Sorted lists *)

Lemma StronglySorted_lookup {A} (R : A -> A -> Prop) l i j a b :
  StronglySorted R l -> (i < j)%nat -> l !! i = Some a -> l !! j = Some b -> R a b.
Proof.
  intros Hs. revert i j. induction Hs as [| x l Hs IH Hx]; intros i j Hij Ha Hb; [done |].
  destruct i as [| i], j as [| j]; cbn in *; try lia.
  - injection Ha as ->. rewrite Forall_lookup in Hx. by eapply Hx.
  - apply (IH i j); [lia | done | done].
Qed.

Lemma StronglySorted_lookup_2 {A} (R : A -> A -> Prop) l :
  (forall i j a b, (i < j)%nat -> l !! i = Some a -> l !! j = Some b -> R a b) ->
  StronglySorted R l.
Proof.
  induction l as [| x l IH]; intros Hr; constructor.
  - apply IH. intros i j a b Hij. apply (Hr (S i) (S j)). lia.
  - apply Forall_lookup. intros i y Hy. apply (Hr 0%nat (S i)); [lia | done | done].
Qed.

Lemma StronglySorted_delete {A} (Q : A -> A -> Prop) l : forall i,
  StronglySorted Q l -> StronglySorted Q (delete i l).
Proof.
  intros i HS. revert i. induction HS as [| x l HS IH Hx]; intros [| i]; cbn; try done.
  - constructor.
  - constructor.
  - constructor; [apply IH | by apply Forall_delete].
Qed.

Lemma nodup_fmap_inj {A B} (g : A -> B) (l : list A) x y :
  NoDup (g <$> l) -> x ∈ l -> y ∈ l -> g x = g y -> x = y.
Proof.
  intros Hnd [i Hi]%list_elem_of_lookup [j Hj]%list_elem_of_lookup E.
  assert (i = j) as ->; [| congruence].
  eapply NoDup_lookup; [exact Hnd | |]; rewrite list_lookup_fmap, ?Hi, ?Hj; cbn; [done | by rewrite E].
Qed.

Lemma filter_fmap_compose {A B} (g : A -> B) (Q : B -> Prop) `{!forall b, Decision (Q b)} (l : list A) :
  filter Q (g <$> l) = g <$> filter (fun a => Q (g a)) l.
Proof.
  induction l as [| a l IH]; [done |]. rewrite fmap_cons, !filter_cons. by case_decide; rewrite IH.
Qed.

Lemma filter_all {A} (P : A -> Prop) `{!forall a, Decision (P a)} (l : list A) : Forall P l -> filter P l = l.
Proof. induction 1 as [| a l Ha HF IH]; [done |]. rewrite filter_cons, decide_True by done. by rewrite IH. Qed.

Lemma submseteq_nodup {A} (l k : list A) : l ⊆+ k -> NoDup k -> NoDup l.
Proof. intros (l' & Hl)%submseteq_Permutation. rewrite Hl, NoDup_app. tauto. Qed.

(** Distinct keys have one value. *)
Lemma nodup_keys_eq {K V} (l : list (K * V)) k a b : NoDup l.*1 -> (k, a) ∈ l -> (k, b) ∈ l -> a = b.
Proof. intros Hnd Ha Hb. by injection (nodup_fmap_inj fst l _ _ Hnd Ha Hb eq_refl). Qed.

Lemma StronglySorted_app_iff {A} (R : A -> A -> Prop) l1 l2 :
  StronglySorted R (l1 ++ l2) <->
  StronglySorted R l1 /\ StronglySorted R l2 /\ forall x y, x ∈ l1 -> y ∈ l2 -> R x y.
Proof.
  induction l1 as [| a l1 IH]; cbn [app].
  { split; [intros; split_and!; [constructor | done | by intros ? ? ?%elem_of_nil] | by intros (_ & ? & _)]. }
  split.
  - intros Hs. inversion Hs as [| ? ? Hs' Ha]; subst. apply IH in Hs' as (H1 & H2 & Hc).
    apply Forall_app in Ha as [Ha1 Ha2]. rewrite Forall_forall in Ha2.
    split_and!; [by constructor | done |].
    intros x y [-> | Hx]%elem_of_cons Hy; [by apply Ha2 | by apply Hc].
  - intros (H1 & H2 & Hc). inversion H1 as [| ? ? Hs Ha]; subst. constructor.
    + apply IH. split_and!; [done | done |]. intros x y Hx Hy. apply Hc; [by right | done].
    + apply Forall_app. split; [done |]. apply Forall_forall. intros y Hy. apply Hc; [by left | done].
Qed.

Lemma StronglySorted_fmap_iff {A B} (f : A -> B) (R : B -> B -> Prop) l :
  StronglySorted R (f <$> l) <-> StronglySorted (fun a b => R (f a) (f b)) l.
Proof.
  induction l as [| a l IH]; [by split; constructor |]. rewrite fmap_cons. split.
  - intros [Hs Ha]%StronglySorted_inv. constructor; [by apply IH | rewrite Forall_fmap in Ha; exact Ha].
  - intros [Hs Ha]%StronglySorted_inv. constructor; [by apply IH | rewrite Forall_fmap; exact Ha].
Qed.

Lemma strictly_sorted_nodup l : StronglySorted Z.lt l -> NoDup l.
Proof.
  induction 1 as [| x l Hs IH Hx]; constructor; [| done]. intros Hin. rewrite Forall_forall in Hx.
  specialize (Hx x Hin). lia.
Qed.

Lemma concat_elem {A} (x : A) ls : x ∈ concat ls <-> exists l, l ∈ ls /\ x ∈ l.
Proof.
  induction ls as [| l ls IH]; cbn [concat]; [set_solver |].
  rewrite elem_of_app, IH. set_solver.
Qed.

(** The list with [a] inserted at position [k]. *)
Definition insert_at {A} (k : nat) (a : A) (l : list A) : list A := take k l ++ a :: drop k l.

Lemma insert_at_lookup {A} k (a : A) l i :
  (k <= length l)%nat ->
  insert_at k a l !! i =
    if decide (i < k)%nat then l !! i
    else if decide (i = k) then Some a else l !! (i - 1)%nat.
Proof.
  intros Hk. unfold insert_at. repeat case_decide; subst.
  - rewrite lookup_app_l by (rewrite length_take; lia). by rewrite lookup_take_lt.
  - rewrite lookup_app_r by (rewrite length_take; lia).
    rewrite length_take_le by done. by rewrite Nat.sub_diag.
  - rewrite lookup_app_r by (rewrite length_take; lia). rewrite length_take_le by done.
    destruct (i - k)%nat as [| m] eqn:E; [lia |].
    change ((a :: drop k l) !! S m) with (drop k l !! m). rewrite lookup_drop. f_equal. lia.
Qed.

Lemma insert_at_length {A} k (a : A) l : zlen (insert_at k a l) = zlen l + 1.
Proof.
  unfold insert_at. rewrite zlen_app, zlen_cons.
  rewrite <- (take_drop k l) at 3. rewrite zlen_app. lia.
Qed.

Lemma Forall_insert_at {A} (P : A -> Prop) k a l :
  Forall P (insert_at k a l) <-> P a /\ Forall P l.
Proof.
  unfold insert_at. rewrite <- (take_drop k l) at 3.
  rewrite !Forall_app, Forall_cons. tauto.
Qed.

Lemma StronglySorted_insert_at {A} (R : A -> A -> Prop) k a l :
  StronglySorted R l -> (k <= length l)%nat ->
  (forall i x, (i < k)%nat -> l !! i = Some x -> R x a) ->
  (forall i x, (k <= i)%nat -> l !! i = Some x -> R a x) ->
  StronglySorted R (insert_at k a l).
Proof.
  intros Hs Hk Hl Hr. apply StronglySorted_lookup_2. intros i j x y Hij.
  rewrite !insert_at_lookup by done.
  repeat case_decide; subst; intros Hx Hy; simplify_eq; try lia.
  - eapply StronglySorted_lookup; [done | | done | done]. lia.
  - by eapply Hl.
  - eapply StronglySorted_lookup; [done | | done | done]. lia.
  - eapply Hr; [| done]. lia.
  - eapply StronglySorted_lookup; [done | | done | done]. lia.
Qed.

Section sort_stable.
Context {A : Type} (le : A -> A -> bool).
Let R (a b : A) : Prop := le a b = true.

Lemma insert_stable_perm x l : insert_stable le x l ≡ₚ x :: l.
Proof.
  induction l as [| y l IH]; cbn; [done |]. destruct (le x y); [done |].
  rewrite IH. apply Permutation_swap.
Qed.

Lemma sort_stable_perm l : sort_stable le l ≡ₚ l.
Proof.
  induction l as [| x l IH]; cbn; [done |]. by rewrite insert_stable_perm, IH.
Qed.

Lemma sort_stable_id l : StronglySorted R l -> sort_stable le l = l.
Proof.
  induction 1 as [| x l Hs IH Hx]; cbn; [done |]. rewrite IH.
  destruct Hx as [| y l Hy Hx]; cbn; [done |]. by rewrite Hy.
Qed.

Lemma sort_stable_sorted (Rtrans : Transitive R) (Rtotal : forall a b, R a b \/ R b a) l :
  StronglySorted R (sort_stable le l).
Proof.
  induction l as [| x l IH]; cbn; [constructor |].
  induction IH as [| y l' Hs IH Hy]; cbn; [repeat constructor |].
  destruct (le x y) eqn:E.
  - constructor; [by constructor |]. constructor; [done |].
    eapply Forall_impl; [exact Hy |]. intros z Hz. by transitivity y.
  - constructor; [done |]. rewrite insert_stable_perm. constructor; [| done].
    destruct (Rtotal x y) as [Hxy | Hyx]; [| done]. unfold R in Hxy. congruence.
Qed.

(** Sorting a sorted list with one new element at its end inserts that
    element behind the ones that are not greater. *)
Lemma sort_stable_snoc (Rtrans : Transitive R) l x :
  StronglySorted R l ->
  exists k, (k <= length l)%nat /\ sort_stable le (l ++ [x]) = insert_at k x l /\
    (forall i y, (i < k)%nat -> l !! i = Some y -> le y x = true) /\
    (forall i y, (k <= i)%nat -> l !! i = Some y -> le y x = false).
Proof.
  induction 1 as [| y l Hs (k & Hk & IH & Hlo & Hhi) Hy]; cbn.
  { exists 0%nat. split_and!; [lia | done | intros; lia | done]. }
  rewrite IH. destruct (le y x) eqn:Hyx.
  - exists (S k). split_and!; [lia | | |].
    2:{ intros [| i] z Hi Hz; cbn in Hz; [by simplify_eq | apply (Hlo i z); [lia | done]]. }
    2:{ intros [| i] z Hi Hz; cbn in Hz; [lia | apply (Hhi i z); [lia | done]]. }
    unfold insert_at in *. destruct k as [| k], l as [| z l]; cbn; rewrite ?Hyx; try done.
    inversion Hy as [| ? ? Hyz]; subst. by rewrite Hyz.
  - assert (forall i z, l !! i = Some z -> le z x = false) as Hgt.
    { intros i z Hz. destruct (le z x) eqn:Hzx; [| done].
      rewrite Forall_lookup in Hy. specialize (Hy i z Hz).
      assert (R y x) as Hc by (by transitivity z). unfold R in Hc. congruence. }
    assert (k = 0%nat) as ->.
    { destruct k as [| k]; [done |]. destruct l as [| z l]; [cbn in Hk; lia |].
      specialize (Hgt 0%nat z eq_refl). rewrite (Hlo 0%nat z) in Hgt; [done | lia | done]. }
    exists 0%nat. split_and!; [lia | | intros; lia |].
    2:{ intros [| i] z _ Hz; cbn in Hz; [by simplify_eq | by apply (Hgt i)]. }
    unfold insert_at. rewrite take_0, drop_0. cbn. rewrite Hyx. f_equal.
    destruct Hy as [| z l Hyz Hy]; cbn; [done |]. by rewrite Hyz.
Qed.

End sort_stable.

Lemma sort_stable_fmap {A B} (f : A -> B) (leA : A -> A -> bool) (leB : B -> B -> bool) l :
  (forall a b, leA a b = leB (f a) (f b)) ->
  sort_stable leB (f <$> l) = f <$> sort_stable leA l.
Proof.
  intros Hle. induction l as [| x l IH]; [done |]. cbn [sort_stable fmap list_fmap].
  change (list_fmap _ _ f l) with (f <$> l). rewrite IH. generalize (sort_stable leA l).
  intros k. induction k as [| y k IHk]; [done |]. cbn. rewrite Hle.
  destruct (leB (f x) (f y)); [done |]. cbn. by rewrite <- IHk.
Qed.

(** ** Lemmas on the monads *)

Lemma res_bind_ok {E A B} (m : Res E A) (f : A -> Res E B) a :
  m = Ok a -> m ≫= f = f a.
Proof. by intros ->. Qed.

Lemma res_bind_err {E A B} (m : Res E A) (f : A -> Res E B) e :
  m = Err e -> m ≫= f = Err e.
Proof. by intros ->. Qed.

Lemma res_bind_inv {E A B} (m : Res E A) (f : A -> Res E B) b :
  m ≫= f = Ok b -> exists a, m = Ok a /\ f a = Ok b.
Proof. destruct m; cbn; intros; naive_solver. Qed.

Lemma st_bind_ok {E S A B} (m : ST E S A) (f : A -> ST E S B) s a s' :
  m s = (Ok a, s') -> (m ≫= f) s = f a s'.
Proof. unfold mbind, st_bind. by intros ->. Qed.

Lemma st_bind_err {E S A B} (m : ST E S A) (f : A -> ST E S B) s e s' :
  m s = (Err e, s') -> (m ≫= f) s = (Err e, s').
Proof. unfold mbind, st_bind. by intros ->. Qed.

Lemma st_reads_ok {E S A} (f : S -> Res E A) s a :
  f s = Ok a -> st_reads f s = (Ok a, s).
Proof. unfold st_reads. by intros ->. Qed.

(** Steps through the first operation of a monadic program with an equation
    for it. *)
Tactic Notation "st_step" "by" tactic3(tac) :=
  erewrite st_bind_ok; [| solve [tac]]; cbv beta.
Tactic Notation "rs_step" "by" tactic3(tac) :=
  erewrite res_bind_ok; [| solve [tac]]; cbv beta.

(** [(0..n).map(f).collect()] over the positions of a list. *)
Lemma mapM_seqZ_from {E A B} (f : Z -> Res E B) (g : A -> B) (l : list A) : forall k,
  (forall i a, l !! i = Some a -> f (Z.of_nat (k + i)) = Ok (g a)) ->
  mapM f (Z.of_nat <$> seq k (length l)) = Ok (g <$> l).
Proof.
  induction l as [| a l IH]; intros k Hf; [done |]. cbn [length seq fmap list_fmap mapM].
  rewrite <- (Nat.add_0_r k) at 1. rewrite (Hf 0%nat a eq_refl). cbn [mbind res_bind].
  change (list_fmap _ _ Z.of_nat (seq (S k) (length l)))
    with (Z.of_nat <$> seq (S k) (length l)).
  rewrite (IH (S k)); [done |]. intros i b Hb. rewrite <- (Hf (S i) b Hb). f_equal. lia.
Qed.

Lemma mapM_seqZ {E A B} (f : Z -> Res E B) (g : A -> B) (l : list A) :
  (forall i a, l !! i = Some a -> f (Z.of_nat i) = Ok (g a)) ->
  mapM f (seqZ 0 (zlen l)) = Ok (g <$> l).
Proof.
  intros Hf. rewrite <- (mapM_seqZ_from f g l 0 Hf). unfold seqZ, zlen. rewrite Nat2Z.id.
  f_equal. apply list_fmap_ext. intros. lia.
Qed.

Lemma mapM_res_inv {E A B} (f : A -> Res E B) (l : list A) : forall k,
  mapM f l = Ok k -> Forall2 (fun a b => f a = Ok b) l k.
Proof.
  induction l as [| a l IH]; intros k Hk; [by injection Hk as <- |]. cbn [mapM] in Hk.
  apply res_bind_inv in Hk as (b & Eb & Hk). apply res_bind_inv in Hk as (k' & Ek & Hk). injection Hk as <-. by constructor; [| apply IH].
Qed.

Lemma elem_of_delete_ne {A} (l : list A) i x y : l !! i = Some x -> y <> x -> y ∈ l -> y ∈ delete i l.
Proof.
  intros Hi Hne [j Hj]%list_elem_of_lookup. apply list_elem_of_lookup.
  destruct (Nat.lt_trichotomy j i) as [Hlt | [-> | Hgt]]; [| congruence |].
  - exists j. by rewrite list_lookup_delete, decide_True by lia.
  - exists (pred j). rewrite list_lookup_delete, decide_False by lia. by replace (S (pred j)) with j by lia.
Qed.
