(* ===== verification/Errors.v ===== *)
(** * Error codes of the foundation crate

    [src/mudu/src/error/ec.rs]: the stable error codes with their numeric
    protocol representation and their severity.  A [MuduError] carries a
    code, a message and a location; the callers of the kernel only branch on
    [err.ec()], so an error of the model is its code. *)

From S2P Require Import Prelude.

Inductive Severity := User | Internal_ | Transient.

Inductive ErrorCode :=
  | PermissionDenied | NotFound | Interrupted | ArgumentListTooLong
  | BadFileDescriptor | WouldBlock | OutOfMemory | ResourceBusy
  | AlreadyExists | CrossesDevices | NotADirectory | IsADirectory
  | InvalidInput | ExecutableFileBusy | FileTooLarge | StorageFull
  | NotSeekable | ReadOnlyFilesystem | TooManyLinks | BrokenPipe | Deadlock
  | InvalidFilename | DirectoryNotEmpty | FilesystemLoop | Unsupported
  | AddrInUse | AddrNotAvailable | NetworkDown | NetworkUnreachable
  | ConnectionAborted | ConnectionReset | NotConnected | TimedOut
  | ConnectionRefused | HostUnreachable | InProgress
  | StaleNetworkFileHandle | QuotaExceeded | InvalidData | WriteZero
  | UnexpectedEof | Other | Uncategorized | Internal | Decode | Encode
  | InvalidTuple | ComparisonFailed | TypeConversionFailed | InvalidState
  | NotImplemented | Parse | EntityNotFound | InvalidType | Io
  | EntityAlreadyExists | UnsupportedOperation | IndexOutOfRange | MlParse
  | FmtWrite | DomainViolation | WasmMemoryAccess | InsufficientBufferSpace
  | Mutex | Database | Transaction | Network | Synchronization
  | FatalInternal | Thread | Tokio | External | InvalidArgument
  | InvalidUtf8 | PathContainsNul | NetworkPartition | ListenBacklogFull
  | ChannelClosed | Storage | HashFailed | UnsupportedFormatVersion
  | CorruptedData | IncompatibleProtocolVersion.

(** The [RS] alias of [src/mudu/src/common/result.rs]. *)
Notation RS := (Res ErrorCode).

(** [ErrorCode::to_u32]: the [repr(u32)] discriminant. *)
Definition to_u32 (ec : ErrorCode) : Z :=
  match ec with
  | PermissionDenied => 13
  | NotFound => 2
  | Interrupted => 4
  | ArgumentListTooLong => 7
  | BadFileDescriptor => 9
  | WouldBlock => 11
  | OutOfMemory => 12
  | ResourceBusy => 16
  | AlreadyExists => 17
  | CrossesDevices => 18
  | NotADirectory => 20
  | IsADirectory => 21
  | InvalidInput => 22
  | ExecutableFileBusy => 26
  | FileTooLarge => 27
  | StorageFull => 28
  | NotSeekable => 29
  | ReadOnlyFilesystem => 30
  | TooManyLinks => 31
  | BrokenPipe => 32
  | Deadlock => 35
  | InvalidFilename => 36
  | DirectoryNotEmpty => 39
  | FilesystemLoop => 40
  | Unsupported => 95
  | AddrInUse => 98
  | AddrNotAvailable => 99
  | NetworkDown => 100
  | NetworkUnreachable => 101
  | ConnectionAborted => 103
  | ConnectionReset => 104
  | NotConnected => 107
  | TimedOut => 110
  | ConnectionRefused => 111
  | HostUnreachable => 113
  | InProgress => 115
  | StaleNetworkFileHandle => 116
  | QuotaExceeded => 122
  | InvalidData => 1000
  | WriteZero => 1001
  | UnexpectedEof => 1002
  | Other => 1003
  | Uncategorized => 1004
  | Internal => 50000
  | Decode => 50001
  | Encode => 50002
  | InvalidTuple => 50003
  | ComparisonFailed => 50004
  | TypeConversionFailed => 50005
  | InvalidState => 50006
  | NotImplemented => 50007
  | Parse => 50008
  | EntityNotFound => 50009
  | InvalidType => 50010
  | Io => 50011
  | EntityAlreadyExists => 50012
  | UnsupportedOperation => 50013
  | IndexOutOfRange => 50014
  | MlParse => 50015
  | FmtWrite => 50016
  | DomainViolation => 50017
  | WasmMemoryAccess => 50018
  | InsufficientBufferSpace => 50019
  | Mutex => 50020
  | Database => 50021
  | Transaction => 50022
  | Network => 50023
  | Synchronization => 50024
  | FatalInternal => 50025
  | Thread => 50026
  | Tokio => 50027
  | External => 50028
  | InvalidArgument => 50029
  | InvalidUtf8 => 50030
  | PathContainsNul => 50031
  | NetworkPartition => 50032
  | ListenBacklogFull => 50033
  | ChannelClosed => 50034
  | Storage => 50035
  | HashFailed => 50036
  | UnsupportedFormatVersion => 50037
  | CorruptedData => 50038
  | IncompatibleProtocolVersion => 50039
  end.

(** [ErrorCode::iter]: the variants in declaration order. *)
Definition error_code_iter : list ErrorCode :=
  [PermissionDenied; NotFound; Interrupted; ArgumentListTooLong;
   BadFileDescriptor; WouldBlock; OutOfMemory; ResourceBusy; AlreadyExists;
   CrossesDevices; NotADirectory; IsADirectory; InvalidInput;
   ExecutableFileBusy; FileTooLarge; StorageFull; NotSeekable;
   ReadOnlyFilesystem; TooManyLinks; BrokenPipe; Deadlock; InvalidFilename;
   DirectoryNotEmpty; FilesystemLoop; Unsupported; AddrInUse;
   AddrNotAvailable; NetworkDown; NetworkUnreachable; ConnectionAborted;
   ConnectionReset; NotConnected; TimedOut; ConnectionRefused;
   HostUnreachable; InProgress; StaleNetworkFileHandle; QuotaExceeded;
   InvalidData; WriteZero; UnexpectedEof; Other; Uncategorized; Internal;
   Decode; Encode; InvalidTuple; ComparisonFailed; TypeConversionFailed;
   InvalidState; NotImplemented; Parse; EntityNotFound; InvalidType; Io;
   EntityAlreadyExists; UnsupportedOperation; IndexOutOfRange; MlParse;
   FmtWrite; DomainViolation; WasmMemoryAccess; InsufficientBufferSpace;
   Mutex; Database; Transaction; Network; Synchronization; FatalInternal;
   Thread; Tokio; External; InvalidArgument; InvalidUtf8; PathContainsNul;
   NetworkPartition; ListenBacklogFull; ChannelClosed; Storage; HashFailed;
   UnsupportedFormatVersion; CorruptedData; IncompatibleProtocolVersion].

(** [ErrorCode::from_u32]: the variant with that discriminant, if any. *)
Definition from_u32 (ec : Z) : option ErrorCode :=
  head (filter (fun c => to_u32 c = ec) error_code_iter).

(** [ErrorCode::severity]. *)
Definition severity (ec : ErrorCode) : Severity :=
  match ec with
  | PermissionDenied | NotFound | InvalidInput | InvalidData
  | InvalidFilename | ArgumentListTooLong | AlreadyExists | NotADirectory
  | IsADirectory | DirectoryNotEmpty | InvalidTuple | InvalidType
  | InvalidArgument | InvalidUtf8 | PathContainsNul | DomainViolation
  | IndexOutOfRange | UnsupportedOperation | EntityNotFound
  | EntityAlreadyExists => User
  | TimedOut | WouldBlock | Interrupted | InProgress | ConnectionRefused
  | ConnectionReset | ConnectionAborted | NotConnected | NetworkDown
  | NetworkUnreachable | HostUnreachable | AddrInUse | AddrNotAvailable
  | BrokenPipe | NetworkPartition | ListenBacklogFull | ChannelClosed
  | ResourceBusy | Deadlock | Mutex | Synchronization => Transient
  | _ => Internal_
  end.

Lemma from_u32_complete (ec : ErrorCode) : from_u32 (to_u32 ec) = Some ec.
Proof. destruct ec; reflexivity. Qed.

#[export] Instance error_code_eq_dec : EqDecision ErrorCode.
Proof.
  intros a b. destruct (decide (to_u32 a = to_u32 b)) as [E | E].
  - left. pose proof (from_u32_complete a) as Ha.
    rewrite E, from_u32_complete in Ha. congruence.
  - right. congruence.
Defined.

Lemma from_u32_sound (n : Z) (ec : ErrorCode) :
  from_u32 n = Some ec -> to_u32 ec = n.
Proof.
  unfold from_u32. intros H. apply head_Some_elem_of in H.
  by apply list_elem_of_filter in H as [-> _].
Qed.

(** [from_u32] and [to_u32] are inverse to each other: the discriminants are
    distinct, every variant is enumerated, and a number that is no
    discriminant decodes to nothing. *)
Theorem from_u32_to_u32 (n : Z) (ec : ErrorCode) :
  from_u32 n = Some ec <-> to_u32 ec = n.
Proof.
  split; [apply from_u32_sound |]. intros <-. apply from_u32_complete.
Qed.
