(* ===== verification/Compat.v ===== *)
(** * Format registry and external packages

    [src/mudu/src/compat/mod.rs]: magic values, supported version ranges and
    the checks of the decoders; [src/mudu/src/common/crc.rs]; and the
    interface to what is not code of the repository: the [byteorder] crate,
    the [crc] crate, and the migration router a process installs at startup.
    The interface is a class of operations with a class of laws, and
    [Reference] below is an instance of both. *)

From S2P Require Import Prelude Errors.

Inductive FormatKind :=
| Page | LogFrame | ProtocolFrame | MpkManifest | ServerConfig
| FileLayout | TupleBinary | SyscallPayload.

#[export] Instance format_kind_eq_dec : EqDecision FormatKind.
Proof. solve_decision. Defined.

Definition PAGE_CURRENT_VERSION : Z := 1.
Definition LOG_FRAME_CURRENT_VERSION : Z := 1.
Definition PROTOCOL_FRAME_CURRENT_VERSION : Z := 1.
Definition MPK_MANIFEST_CURRENT_VERSION : Z := 1.
Definition SERVER_CONFIG_CURRENT_VERSION : Z := 1.
Definition FILE_LAYOUT_CURRENT_VERSION : Z := 1.
Definition TUPLE_BINARY_CURRENT_VERSION : Z := 1.
Definition SYSCALL_PAYLOAD_CURRENT_VERSION : Z := 1.

Record VersionRange := mkVersionRange { vr_min : Z; vr_max : Z }.

Definition contains (r : VersionRange) (version : Z) : bool :=
  (vr_min r <=? version) && (version <=? vr_max r).

Definition magic_of (kind : FormatKind) : Z :=
  match kind with
  | Page => 0x50414745
  | LogFrame => 0x4C47464D
  | ProtocolFrame => 0x4D53464D
  | MpkManifest => 0x4D504B4D
  | ServerConfig => 0
  | FileLayout => 0
  | TupleBinary => 0
  | SyscallPayload => 0x4D535350
  end.

Definition latest_version (kind : FormatKind) : Z :=
  match kind with
  | Page => PAGE_CURRENT_VERSION
  | LogFrame => LOG_FRAME_CURRENT_VERSION
  | ProtocolFrame => PROTOCOL_FRAME_CURRENT_VERSION
  | MpkManifest => MPK_MANIFEST_CURRENT_VERSION
  | ServerConfig => SERVER_CONFIG_CURRENT_VERSION
  | FileLayout => FILE_LAYOUT_CURRENT_VERSION
  | TupleBinary => TUPLE_BINARY_CURRENT_VERSION
  | SyscallPayload => SYSCALL_PAYLOAD_CURRENT_VERSION
  end.

Definition supported_versions (kind : FormatKind) : VersionRange :=
  match kind with
  | Page => mkVersionRange 1 PAGE_CURRENT_VERSION
  | LogFrame => mkVersionRange 1 LOG_FRAME_CURRENT_VERSION
  | ProtocolFrame => mkVersionRange 1 PROTOCOL_FRAME_CURRENT_VERSION
  | MpkManifest => mkVersionRange 1 MPK_MANIFEST_CURRENT_VERSION
  | ServerConfig => mkVersionRange 1 SERVER_CONFIG_CURRENT_VERSION
  | FileLayout => mkVersionRange 1 FILE_LAYOUT_CURRENT_VERSION
  | TupleBinary => mkVersionRange 1 TUPLE_BINARY_CURRENT_VERSION
  | SyscallPayload => mkVersionRange 1 SYSCALL_PAYLOAD_CURRENT_VERSION
  end.

Definition is_supported (kind : FormatKind) (version : Z) : bool :=
  contains (supported_versions kind) version.

(** [CompatError]; the text of [Corrupted] is left out. *)
Inductive CompatError :=
| MagicMismatch (kind : FormatKind) (expected actual : Z)
| UnsupportedVersion (kind : FormatKind) (actual : Z) (supported : VersionRange)
| Corrupted (kind : FormatKind).

Definition compat_error_code (e : CompatError) : ErrorCode :=
  match e with
  | MagicMismatch _ _ _ | Corrupted _ => CorruptedData
  | UnsupportedVersion ProtocolFrame _ _ => IncompatibleProtocolVersion
  | UnsupportedVersion _ _ _ => UnsupportedFormatVersion
  end.

Definition check_magic (kind : FormatKind) (actual : Z) : Res CompatError unit :=
  let expected := magic_of kind in
  if actual =? expected then Ok tt else Err (MagicMismatch kind expected actual).

Definition check_version (kind : FormatKind) (version : Z) : Res CompatError unit :=
  let supported := supported_versions kind in
  if contains supported version then Ok tt
  else Err (UnsupportedVersion kind version supported).

(** The [?] on a [CompatError] inside a function that returns [RS]. *)
Definition compat {A} (r : Res CompatError A) : RS A := map_err compat_error_code r.

(** ** External packages *)

(** [le_write n v] are the bytes [LittleEndian::write_u{8n}] stores,
    [le_read n bs] is the value [LittleEndian::read_u{8n}] returns for the
    first [n] bytes; [upgrade_to_current] is the globally installed router. *)
Class Packages : Type := {
  le_write : nat -> Z -> list byte;
  le_read : nat -> list byte -> Z;
  CRC_16_IBM_SDLC : list byte -> Z;
  CRC_32_ISCSI : list byte -> Z;
  CRC_64_XZ : list byte -> Z;
  upgrade_to_current : FormatKind -> Z -> list byte -> RS (list byte);
}.

(** The documented behaviour the kernel relies on. *)
Class PackagesOk (P : Packages) : Prop := {
  le_write_length : forall n v, length (le_write n v) = n;
  le_read_write : forall n v, 0 <= v < 256 ^ Z.of_nat n -> le_read n (le_write n v) = v;
  le_write_read : forall n bs, length bs = n -> le_write n (le_read n bs) = bs;
  le_read_range : forall n bs, 0 <= le_read n bs < 256 ^ Z.of_nat n;
  le_read_zeros : forall n, le_read n (replicate n x00) = 0;
  crc16_range : forall bs, in_u16 (CRC_16_IBM_SDLC bs);
  crc32_range : forall bs, in_u32 (CRC_32_ISCSI bs);
  crc64_range : forall bs, in_u64 (CRC_64_XZ bs);
}.

Section crc.
Context `{Packages}.
Definition calc_crc (bs : list byte) : Z := CRC_64_XZ bs.
Definition crc64 (bs : list byte) : Z := CRC_64_XZ bs.
Definition crc32 (bs : list byte) : Z := CRC_32_ISCSI bs.
Definition crc16 (bs : list byte) : Z := CRC_16_IBM_SDLC bs.
End crc.

(** ** A reference instance

    Little-endian codecs and bitwise reflected CRCs; the migration router is
    the empty one, which fails every request. *)

Module Reference.

Definition byte_val (b : byte) : Z := Z.of_N (Byte.to_N b).
Definition byte_of (z : Z) : byte :=
  match Byte.of_N (Z.to_N (z mod 256)) with Some b => b | None => x00 end.

Fixpoint le_bytes (n : nat) (v : Z) : list byte :=
  match n with
  | O => []
  | S n => byte_of v :: le_bytes n (v / 256)
  end.

Fixpoint le_value (n : nat) (bs : list byte) : Z :=
  match n, bs with
  | S n, b :: bs => byte_val b + 256 * le_value n bs
  | _, _ => 0
  end.

(** One bit of a reflected CRC.  The effect of the low byte of the register
    is kept in a tree with a leaf for each value of the byte, so that a byte
    of input takes one walk from the root to a leaf. *)
Definition crc_bit (poly c : Z) : Z :=
  if Z.odd c then Z.lxor (Z.div2 c) poly else Z.div2 c.

Inductive CrcTree :=
| CrcLeaf (v : Z)
| CrcNode (even odd : CrcTree).

Fixpoint crc_tree (depth : nat) (poly low weight : Z) : CrcTree :=
  match depth with
  | O => CrcLeaf (Nat.iter 8 (crc_bit poly) low)
  | S depth => CrcNode (crc_tree depth poly low (2 * weight))
                 (crc_tree depth poly (low + weight) (2 * weight))
  end.

Fixpoint crc_walk (t : CrcTree) (c : Z) : Z :=
  match t with
  | CrcLeaf v => Z.lxor c v
  | CrcNode even odd => crc_walk (if Z.odd c then odd else even) (Z.div2 c)
  end.

Definition crc_reflected (mask : Z) (t : CrcTree) (bs : list byte) : Z :=
  Z.land (Z.lxor (fold_left (fun c b => crc_walk t (Z.lxor c (byte_val b))) bs mask) mask) mask.

Definition crc16_tree : CrcTree := Eval vm_compute in crc_tree 8 0x8408 0 1.
Definition crc32_tree : CrcTree := Eval vm_compute in crc_tree 8 0x82F63B78 0 1.
Definition crc64_tree : CrcTree := Eval vm_compute in crc_tree 8 0xC96C5795D7870F42 0 1.

#[export] Instance packages : Packages := {
  le_write := le_bytes;
  le_read := le_value;
  CRC_16_IBM_SDLC := crc_reflected U16_MAX crc16_tree;
  CRC_32_ISCSI := crc_reflected U32_MAX crc32_tree;
  CRC_64_XZ := crc_reflected U64_MAX crc64_tree;
  upgrade_to_current := fun _ _ _ => Err UnsupportedFormatVersion;
}.

(** The check values of the three algorithms on the text "123456789". *)
Definition check_text : list byte := [x31; x32; x33; x34; x35; x36; x37; x38; x39].

Example crc16_check : CRC_16_IBM_SDLC check_text = 0x906E.
Proof. vm_compute. reflexivity. Qed.
Example crc32_check : CRC_32_ISCSI check_text = 0xE3069283.
Proof. vm_compute. reflexivity. Qed.
Example crc64_check : CRC_64_XZ check_text = 0x995DC9BBDF1939FA.
Proof. vm_compute. reflexivity. Qed.

Lemma byte_val_range b : 0 <= byte_val b < 256.
Proof. unfold byte_val. pose proof (Byte.to_N_bounded b). lia. Qed.

Lemma byte_val_of z : byte_val (byte_of z) = z mod 256.
Proof.
  unfold byte_val, byte_of. pose proof (Z.mod_pos_bound z 256 ltac:(lia)).
  destruct (Byte.of_N (Z.to_N (z mod 256))) as [b |] eqn:E.
  - apply Byte.to_of_N in E. lia.
  - apply Byte.of_N_None_iff in E. lia.
Qed.

Lemma byte_of_val b z : z mod 256 = byte_val b -> byte_of z = b.
Proof.
  intros E. unfold byte_of. rewrite E. unfold byte_val.
  rewrite N2Z.id. by rewrite Byte.of_to_N.
Qed.

Lemma le_bytes_length n v : length (le_bytes n v) = n.
Proof. revert v. induction n; intros; simpl; auto. Qed.

Lemma pow256_succ n : 256 ^ Z.of_nat (S n) = 256 * 256 ^ Z.of_nat n.
Proof. rewrite Nat2Z.inj_succ, Z.pow_succ_r; lia. Qed.

Lemma le_value_bytes n v :
  0 <= v < 256 ^ Z.of_nat n -> le_value n (le_bytes n v) = v.
Proof.
  revert v. induction n as [| n IH]; intros v Hv.
  - simpl in *. lia.
  - rewrite pow256_succ in Hv. cbn [le_bytes le_value].
    rewrite byte_val_of, IH.
    + pose proof (Z.div_mod v 256). lia.
    + split; [apply Z.div_pos; lia | apply Z.div_lt_upper_bound; lia].
Qed.

Lemma le_value_range n bs : 0 <= le_value n bs < 256 ^ Z.of_nat n.
Proof.
  revert bs. induction n as [| n IH]; intros bs; [simpl; lia |].
  rewrite pow256_succ. pose proof (IH []) as I0.
  destruct bs as [| b bs]; cbn [le_value]; [lia |].
  pose proof (byte_val_range b). pose proof (IH bs). lia.
Qed.

Lemma le_bytes_value n bs : length bs = n -> le_bytes n (le_value n bs) = bs.
Proof.
  revert bs. induction n as [| n IH]; intros [| b bs] Hl; try done.
  cbn [le_value le_bytes]. pose proof (byte_val_range b). f_equal.
  - apply byte_of_val. rewrite Z.mul_comm, Z.mod_add by lia. by apply Z.mod_small.
  - rewrite Z.mul_comm, Z.div_add, Z.div_small by lia. apply IH. simpl in Hl. lia.
Qed.

Lemma crc_reflected_range n t bs :
  0 <= n -> 0 <= crc_reflected (Z.ones n) t bs <= Z.ones n.
Proof.
  intros Hn. unfold crc_reflected. rewrite Z.land_ones by done.
  pose proof (Z.mod_pos_bound (Z.lxor (fold_left (fun c b => crc_walk t (Z.lxor c (byte_val b))) bs (Z.ones n)) (Z.ones n))
                (2 ^ n) ltac:(lia)).
  rewrite Z.ones_equiv in *. lia.
Qed.

#[export] Instance packages_ok : PackagesOk packages.
Proof.
  constructor.
  - apply le_bytes_length.
  - apply le_value_bytes.
  - apply le_bytes_value.
  - apply le_value_range.
  - induction n as [| n IH]; [done |]. cbn [replicate le_read packages le_value] in *. by rewrite IH.
  - intros bs. apply (crc_reflected_range 16 crc16_tree bs). lia.
  - intros bs. apply (crc_reflected_range 32 crc32_tree bs). lia.
  - intros bs. apply (crc_reflected_range 64 crc64_tree bs). lia.
Qed.

End Reference.

(** ** The registry *)

Lemma check_magic_ok kind actual :
  check_magic kind actual = Ok tt <-> actual = magic_of kind.
Proof.
  unfold check_magic. destruct (Z.eqb_spec actual (magic_of kind)); naive_solver.
Qed.

(** A version passes the check exactly when it is the current one: every
    range of the registry is [[1, current]] with [current = 1], so the
    migration branch of a decoder is not taken by a page or frame that
    passes [check_version]. *)
Lemma check_version_ok (kind : FormatKind) (version : Z) :
  check_version kind version = Ok tt <-> version = latest_version kind.
Proof.
  unfold check_version, contains.
  assert (vr_min (supported_versions kind) = latest_version kind /\
          vr_max (supported_versions kind) = latest_version kind) as [-> ->]
    by (by destruct kind).
  destruct (Z.leb_spec (latest_version kind) version);
    destruct (Z.leb_spec version (latest_version kind)); simpl; split;
    intros; try done; lia.
Qed.
