(* ===== verification/FileOps.v ===== *)
(** * Files

    The operations of a file handle
    ([mudu_sys_impl/src/imp/native/fs/async_tokio/tokio_file.rs]) on a regular
    file, which is its bytes.  Failures of the device are not modelled. *)

From S2P Require Import Prelude Errors.

Definition file_len (file : list byte) : Z := zlen file.

Definition read_exact_at (offset len : Z) (file : list byte) : RS (list byte) :=
  if offset + len <=? zlen file then Ok (file.[offset, len]) else Err UnexpectedEof.

(** A write behind the end of the file leaves a hole of zeros. *)
Definition write_all_at (offset : Z) (payload : list byte) : ST ErrorCode (list byte) unit :=
  fun file =>
    let file := file ++ zeros (offset + zlen payload - zlen file) in
    (Ok tt, zput offset payload file).

(** ** Facts *)

Lemma write_all_at_ok off bs file :
  0 <= off -> off <= zlen file -> zlen bs <= zlen file - off ->
  write_all_at off bs file = (Ok tt, zput off bs file).
Proof.
  intros. unfold write_all_at, zeros.
  replace (Z.to_nat (off + zlen bs - zlen file)) with 0%nat by lia. by rewrite app_nil_r.
Qed.

(** A write at the end of the file appends. *)
Lemma write_all_at_end bs file : write_all_at (zlen file) bs file = (Ok tt, file ++ bs).
Proof.
  unfold write_all_at, zput, zeros. f_equal.
  rewrite Z.add_simpl_l. unfold zlen. rewrite !Nat2Z.id.
  rewrite take_app_length, drop_ge by (rewrite length_app, length_replicate; lia).
  by rewrite app_nil_r.
Qed.

Lemma zput_app_l {A} off (a l z : list A) :
  0 <= off -> off + zlen a <= zlen l -> zput off a (l ++ z) = zput off a l ++ z.
Proof.
  intros Ho Hl. unfold zput, zlen in *. rewrite take_app_le, drop_app_le by lia.
  by rewrite !app_assoc.
Qed.

(** Two adjacent writes are one. *)
Lemma write_all_at_app off a b file :
  0 <= off ->
  (write_all_at off (a ++ b) file).2
    = (write_all_at (off + zlen a) b (write_all_at off a file).2).2.
Proof.
  intros Hoff. pose proof (zlen_nonneg a). pose proof (zlen_nonneg b).
  pose proof (zlen_nonneg file). unfold write_all_at. cbn [snd].
  set (f1 := file ++ zeros (off + zlen a - zlen file)).
  assert (zlen f1 = Z.max (zlen file) (off + zlen a)) as Hf1
    by (unfold f1, zlen, zeros in *; rewrite length_app, length_replicate; lia).
  rewrite zlen_zput by lia. rewrite <- zput_app_l by lia.
  rewrite zput_adjacent.
  - f_equal. rewrite Hf1, zlen_app. unfold f1. rewrite <- app_assoc. f_equal.
    unfold zeros. rewrite <- replicate_add. f_equal. lia.
  - done.
  - rewrite zlen_app, Hf1. unfold zeros, zlen in *. rewrite length_replicate. lia.
Qed.
