(* ===== verification/LogFrame.v ===== *)
(** * Log frames

    [wal/format/latest.rs] (the frame format), [wal/worker_log.rs] (scanning
    a chunk) and the recovery loop of [wal/typed_worker_log.rs].  An entry is
    encoded by MessagePack, cut into parts, and each part is a frame with a
    header, a checksum and the number of parts that follow. *)

From S2P Require Import Prelude Errors Compat.

(** [rmp_serde::to_vec] and [rmp_serde::from_slice] at one entry type. *)
Class Msgpack (L : Type) : Type := {
  to_vec : L -> option (list byte);
  from_slice : list byte -> option L;
}.

(** Decoding an encoded value gives the value back, and no value has an
    empty encoding. *)
Class MsgpackOk (L : Type) `{Msgpack L} : Prop := {
  from_to_vec : forall v bs, to_vec v = Some bs -> from_slice bs = Some v;
  to_vec_nonempty : forall v, to_vec v <> Some [];
}.

(** [uN::to_be_bytes] and [uN::from_be_bytes]. *)
Definition to_be_bytes (n : nat) (v : Z) : list byte := rev (Reference.le_bytes n v).
Definition from_be_bytes (n : nat) (bs : list byte) : Z := Reference.le_value n (rev bs).

Definition LOG_FRAME_MAGIC : Z := 0x4C47464D.
Definition LOG_FRAME_VERSION : Z := LOG_FRAME_CURRENT_VERSION.
Definition LOG_FRAME_HEADER_SIZE : Z := 24.
Definition LOG_FRAME_TAILER_SIZE : Z := 8.

Record LogFrameHeader := mkLogFrameHeader {
  fh_magic : Z;
  fh_version : Z;
  fh_lsn : Z;
  fh_size : Z;
  fh_n_part : Z;
}.

Record LogFrameTailer := mkLogFrameTailer { ft_n_part : Z; ft_checksum : Z }.

Section log_frame.
Context `{Packages}.

(** [calc_crc(payload) as u32]. *)
Definition payload_checksum (payload : list byte) : Z := as_u32 (calc_crc payload).

Definition LogFrameHeader_new (lsn n_part size : Z) : LogFrameHeader :=
  mkLogFrameHeader LOG_FRAME_MAGIC LOG_FRAME_VERSION lsn (as_u32 size) n_part.

Definition LogFrameHeader_encode (h : LogFrameHeader) : list byte :=
  to_be_bytes 4 (fh_magic h) ++ to_be_bytes 4 (fh_version h) ++ to_be_bytes 8 (fh_lsn h) ++
  to_be_bytes 4 (fh_size h) ++ to_be_bytes 4 (fh_n_part h).

Definition peek_header (input : list byte) : RS LogFrameHeader :=
  if zlen input <? LOG_FRAME_HEADER_SIZE then Err Decode else
  let magic := from_be_bytes 4 (input.[0, 4]) in
  let version := from_be_bytes 4 (input.[4, 4]) in
  let lsn := from_be_bytes 8 (input.[8, 8]) in
  let size := from_be_bytes 4 (input.[16, 4]) in
  let n_part := from_be_bytes 4 (input.[20, 4]) in
  compat (check_magic LogFrame magic) ;;
  Ok (mkLogFrameHeader magic version lsn size n_part).

Definition LogFrameHeader_decode (input : list byte) : RS LogFrameHeader :=
  if zlen input <? LOG_FRAME_HEADER_SIZE then Err Decode else
  h ← peek_header input;
  compat (check_version LogFrame (fh_version h)) ;;
  Ok h.

Definition LogFrameTailer_new (n_part : Z) (payload : list byte) : LogFrameTailer :=
  mkLogFrameTailer n_part (payload_checksum payload).

Definition LogFrameTailer_encode (t : LogFrameTailer) : list byte :=
  to_be_bytes 4 (ft_n_part t) ++ to_be_bytes 4 (ft_checksum t).

Definition LogFrameTailer_decode (input : list byte) : RS LogFrameTailer :=
  if zlen input <? LOG_FRAME_TAILER_SIZE then Err Decode else
  Ok (mkLogFrameTailer (from_be_bytes 4 (input.[0, 4])) (from_be_bytes 4 (input.[4, 4]))).

(** [payload.chunks(n)]. *)
Fixpoint chunks_fuel (fuel : nat) (n : Z) (l : list byte) : list (list byte) :=
  match fuel, l with
  | S fuel, _ :: _ => take (Z.to_nat n) l :: chunks_fuel fuel n (drop (Z.to_nat n) l)
  | _, _ => []
  end.
Definition chunks (n : Z) (l : list byte) : list (list byte) := chunks_fuel (length l) n l.

Definition make_frame (lsn remaining : Z) (chunk : list byte) : list byte :=
  LogFrameHeader_encode (LogFrameHeader_new lsn remaining (zlen chunk)) ++ chunk ++
  LogFrameTailer_encode (LogFrameTailer_new remaining chunk).

(** The loop of [serialize_entry]: [left] parts remain with this one; the
    state is [next_lsn], whose [fetch_add] wraps around. *)
Fixpoint make_frames (left : Z) (parts : list (list byte)) : ST ErrorCode Z (list (list byte)) :=
  match parts with
  | [] => mret []
  | chunk :: parts =>
      lsn ← st_get;
      st_put ((lsn + 1) mod 18446744073709551616) ;;
      frames ← make_frames (left - 1) parts;
      mret (make_frame lsn (as_u32 (left - 1)) chunk :: frames)
  end.

(** [payload.len().div_ceil(max_payload_size).max(1)]. *)
Definition total_parts (len max_payload_size : Z) : Z :=
  Z.max ((len + max_payload_size - 1) / max_payload_size) 1.

Definition serialize_entry {L} `{Msgpack L} (value : L) (max_part_size : Z)
    : ST ErrorCode Z (list (list byte)) :=
  payload ← st_lift (match to_vec value with Some bs => Ok bs | None => Err Encode end);
  if max_part_size <=? LOG_FRAME_HEADER_SIZE + LOG_FRAME_TAILER_SIZE
  then st_lift (Err Parse) else
  let max_payload_size := max_part_size - LOG_FRAME_HEADER_SIZE - LOG_FRAME_TAILER_SIZE in
  make_frames (total_parts (zlen payload) max_payload_size) (chunks max_payload_size payload).

Definition frame_len (input : list byte) : RS Z :=
  if zlen input <? LOG_FRAME_HEADER_SIZE + LOG_FRAME_TAILER_SIZE then Err Decode else
  bs ← slice 0 LOG_FRAME_HEADER_SIZE input;
  h ← peek_header bs;
  let payload_end := LOG_FRAME_HEADER_SIZE + fh_size h in
  let expected_len := payload_end + LOG_FRAME_TAILER_SIZE in
  if zlen input <? expected_len then Err Decode else Ok expected_len.

Definition ensure_latest_frame (frame : list byte) : RS (list byte) :=
  bs ← slice 0 LOG_FRAME_HEADER_SIZE frame;
  h ← peek_header bs;
  compat (check_version LogFrame (fh_version h)) ;;
  if fh_version h =? LOG_FRAME_VERSION then Ok frame
  else upgrade_to_current LogFrame (fh_version h) frame.

Definition split_frame (frame : list byte) : RS (LogFrameHeader * list byte * LogFrameTailer) :=
  expected_len ← frame_len frame;
  if negb (zlen frame =? expected_len) then Err Decode else
  migrated ← ensure_latest_frame frame;
  bs ← slice 0 LOG_FRAME_HEADER_SIZE migrated;
  h ← LogFrameHeader_decode bs;
  let payload_end := LOG_FRAME_HEADER_SIZE + fh_size h in
  payload ← slice LOG_FRAME_HEADER_SIZE payload_end migrated;
  rest ← slice payload_end (zlen migrated) migrated;
  t ← LogFrameTailer_decode rest;
  if negb (fh_n_part h =? ft_n_part t) then Err Decode else
  if negb (payload_checksum payload =? ft_checksum t) then Err Decode else
  Ok (h, payload, t).

Definition frame_lsn (frame : list byte) : RS Z :=
  p ← split_frame frame; Ok (fh_lsn p.1.1).
Definition frame_lsns (frames : list (list byte)) : RS (list Z) := mapM frame_lsn frames.
Definition last_frame_lsn (frames : list (list byte)) : RS Z :=
  match last frames with
  | Some frame => frame_lsn frame
  | None => Err Decode
  end.

(** The loop of [deserialize_frames_payload] over the parts from [index] on. *)
Fixpoint join_parts (total index : Z) (frames : list (list byte)) : RS (list byte) :=
  match frames with
  | [] => Ok []
  | frame :: frames =>
      p ← split_frame frame;
      if negb (fh_n_part p.1.1 =? as_u32 (total - index - 1)) then Err Decode else
      rest ← join_parts total (index + 1) frames;
      Ok (p.1.2 ++ rest)
  end.

Definition deserialize_frames_payload (frames : list (list byte)) : RS (list byte) :=
  match frames with
  | [] => Err Decode
  | _ => join_parts (zlen frames) 0 frames
  end.

Definition deserialize_entry {L} `{Msgpack L} (parts : list (list byte)) : RS L :=
  payload ← deserialize_frames_payload parts;
  match from_slice payload with Some v => Ok v | None => Err Decode end.

(** [pending_frames] and [pending_start_lsn]. *)
Definition Pending : Type := list (list byte) * option Z.

(** The loop of [decode_entries_with_pending]. *)
Fixpoint decode_loop {L} `{Msgpack L} (frames : list (list byte))
    : ST ErrorCode Pending (list (Z * L)) :=
  match frames with
  | [] => mret []
  | frame :: frames =>
      p ← st_lift (split_frame frame);
      '(pending, start) ← st_get;
      let start := match pending with [] => Some (fh_lsn p.1.1) | _ => start end in
      let pending := pending ++ [frame] in
      st_put (pending, start) ;;
      if negb (fh_n_part p.1.1 =? 0) then decode_loop frames else
      entry ← st_lift (deserialize_entry pending);
      start_lsn ← st_lift (match start with Some l => Ok l | None => Err Internal end);
      st_put ([], None) ;;
      entries ← decode_loop frames;
      mret ((start_lsn, entry) :: entries)
  end.

Definition decode_entries_with_pending {L} `{Msgpack L} (frames : list (list byte))
    : ST ErrorCode Pending (list (Z * L)) :=
  '(pending, start) ← st_get;
  match start, pending with
  | None, frame :: _ =>
      p ← st_lift (split_frame frame);
      st_put (pending, Some (fh_lsn p.1.1))
  | _, _ => mret tt
  end ;;
  decode_loop frames.

(** ** Chunks *)

(** [decode_frames]; a frame has at least 32 bytes, so the length of the
    payload bounds the number of rounds. *)
Fixpoint decode_frames_fuel (fuel : nat) (remaining : list byte) : RS (list (list byte)) :=
  match remaining with
  | [] => Ok []
  | _ =>
      match fuel with
      | O => Panic
      | S fuel =>
          len ← frame_len remaining;
          frame ← slice 0 len remaining;
          split_frame frame ;;
          frames ← decode_frames_fuel fuel (drop (Z.to_nat len) remaining);
          Ok (frame :: frames)
      end
  end.
Definition decode_frames (payload : list byte) : RS (list (list byte)) :=
  decode_frames_fuel (length payload) payload.

(** [ValidFramePrefix]; the text of [corrupt_reason] is left out. *)
Record ValidFramePrefix := mkValidFramePrefix {
  vp_valid_len : Z;
  vp_frames : list (list byte);
  vp_max_lsn : option Z;
  vp_corrupt : bool;
}.

Definition max_lsn_with (m : option Z) (lsn : Z) : option Z :=
  Some (match m with Some current => Z.max current lsn | None => lsn end).

(** The loop of [scan_valid_frame_prefix] from [offset] on. *)
Fixpoint scan_fuel (fuel : nat) (payload : list byte) (acc : ValidFramePrefix)
    : Res ErrorCode ValidFramePrefix :=
  let offset := vp_valid_len acc in
  let corrupt := mkValidFramePrefix offset (vp_frames acc) (vp_max_lsn acc) true in
  if offset <? zlen payload then
    match fuel with
    | O => Panic
    | S fuel =>
        let remaining := drop (Z.to_nat offset) payload in
        match frame_len remaining with
        | Panic => Panic
        | Err _ => Ok corrupt
        | Ok len =>
            frame ← slice 0 len remaining;
            match split_frame frame with
            | Panic => Panic
            | Err _ => Ok corrupt
            | Ok p =>
                scan_fuel fuel payload
                  (mkValidFramePrefix (offset + len) (vp_frames acc ++ [frame])
                     (max_lsn_with (vp_max_lsn acc) (fh_lsn p.1.1)) false)
            end
        end
    end
  else Ok acc.
Definition scan_valid_frame_prefix (payload : list byte) : Res ErrorCode ValidFramePrefix :=
  scan_fuel (length payload) payload (mkValidFramePrefix 0 [] None false).

Definition decode_frames_allow_trailing (payload : list byte) : RS (list (list byte)) :=
  p ← scan_valid_frame_prefix payload; Ok (vp_frames p).

(** ** Recovery *)

(** [recover]: the chunks in order, an entry may span chunks; [handle]
    and [finish] are the recovery handler.  A rest of [pending_frames] at the end is dropped. *)
Fixpoint recover_chunks {L S} `{Msgpack L} (handle : L -> Z -> ST ErrorCode S unit)
    (pending : Pending) (chunk_bytes : list (list byte)) : ST ErrorCode S unit :=
  match chunk_bytes with
  | [] => mret tt
  | bytes :: rest =>
      match bytes with
      | [] => recover_chunks handle pending rest
      | _ =>
          prefix ← st_lift (scan_valid_frame_prefix bytes);
          let '(r, pending) := decode_entries_with_pending (vp_frames prefix) pending in
          entries ← st_lift r;
          st_iter (fun '(start_lsn, entry) => handle entry start_lsn) entries ;;
          recover_chunks handle pending rest
      end
  end.

Definition recover {L S} `{Msgpack L} (handle : L -> Z -> ST ErrorCode S unit)
    (finish : ST ErrorCode S unit) (chunk_bytes : list (list byte)) : ST ErrorCode S unit :=
  recover_chunks handle ([], None) chunk_bytes ;; finish.

(** [scan_next_lsn] of [worker_wal_backend/layout.rs]. *)
Fixpoint scan_max_lsn (m : option Z) (chunk_bytes : list (list byte)) : Res ErrorCode (option Z) :=
  match chunk_bytes with
  | [] => Ok m
  | bytes :: rest =>
      prefix ← scan_valid_frame_prefix bytes;
      scan_max_lsn (match vp_max_lsn prefix with Some l => max_lsn_with m l | None => m end) rest
  end.
Definition scan_next_lsn (chunk_bytes : list (list byte)) : RS Z :=
  m ← scan_max_lsn None chunk_bytes;
  Ok (match m with Some l => saturating_add l 1 | None => 0 end).

End log_frame.
