(* ===== verification/WalFrames.v ===== *)
(** * Log frames: round trips, torn tails, recovery

    Facts about [LogFrame]: a frame is read back as it was written, an entry
    is put together again from its frames whatever their grouping into
    chunks, and a chunk cut at any byte yields the frames before the cut. *)

From S2P Require Import Prelude Errors Compat LogFrame.

Lemma to_be_bytes_length n v : zlen (to_be_bytes n v) = Z.of_nat n.
Proof. unfold to_be_bytes, zlen. by rewrite length_rev, Reference.le_bytes_length. Qed.

Lemma from_to_be_bytes n v :
  0 <= v < 256 ^ Z.of_nat n -> from_be_bytes n (to_be_bytes n v) = v.
Proof.
  intros Hv. unfold from_be_bytes, to_be_bytes. rewrite rev_involutive.
  by apply Reference.le_value_bytes.
Qed.

(** A field at a known position of a header or tailer. *)
Lemma be_field_here n v rest :
  0 <= v < 256 ^ Z.of_nat n -> from_be_bytes n ((to_be_bytes n v ++ rest).[0, Z.of_nat n]) = v.
Proof.
  intros Hv. rewrite zsub_app_l by (rewrite ?to_be_bytes_length; lia).
  rewrite zsub_all by (by rewrite to_be_bytes_length). by apply from_to_be_bytes.
Qed.

Lemma be_field_skip m v rest a n :
  Z.of_nat m <= a -> 0 <= n ->
  (to_be_bytes m v ++ rest).[a, n] = rest.[a - Z.of_nat m, n].
Proof. intros. rewrite zsub_app_r by (rewrite ?to_be_bytes_length; lia). by rewrite to_be_bytes_length. Qed.

Lemma range_u32 v : in_u32 v -> 0 <= v < 256 ^ Z.of_nat 4.
Proof. change (256 ^ Z.of_nat 4) with 4294967296. mlia. Qed.
Lemma range_u64 v : in_u64 v -> 0 <= v < 256 ^ Z.of_nat 8.
Proof. change (256 ^ Z.of_nat 8) with 18446744073709551616. mlia. Qed.

Lemma as_u32_range z : in_u32 (as_u32 z).
Proof.
  unfold as_u32. pose proof (Z.mod_pos_bound z 4294967296 ltac:(lia)). mlia.
Qed.

Ltac be_offsets :=
  cbn [Z.of_nat Pos.of_succ_nat Pos.succ Z.sub Z.add Z.opp Z.pos_sub
       Pos.pred_double Z.succ_double Z.pred_double Z.double Pos.add].

(** Reads one field of an encoded header or tailer. *)
Ltac be_get :=
  repeat match goal with x := _ : list byte |- _ => unfold x end;
  repeat (rewrite be_field_skip by (cbn; lia); be_offsets);
  first [apply (be_field_here 4) | apply (be_field_here 8)];
  auto using range_u32, range_u64.

Section frames.
Context `{Packages}.

Lemma header_encode_length h : zlen (LogFrameHeader_encode h) = LOG_FRAME_HEADER_SIZE.
Proof. unfold LogFrameHeader_encode. rewrite !zlen_app, !to_be_bytes_length. done. Qed.

Lemma tailer_encode_length t : zlen (LogFrameTailer_encode t) = LOG_FRAME_TAILER_SIZE.
Proof. unfold LogFrameTailer_encode. rewrite !zlen_app, !to_be_bytes_length. done. Qed.

Record frame_header_ok (h : LogFrameHeader) : Prop := mk_frame_header_ok {
  fo_magic : fh_magic h = LOG_FRAME_MAGIC;
  fo_version : fh_version h = LOG_FRAME_VERSION;
  fo_lsn : in_u64 (fh_lsn h);
  fo_size : in_u32 (fh_size h);
  fo_n_part : in_u32 (fh_n_part h);
}.

Lemma peek_header_encode h :
  frame_header_ok h -> peek_header (LogFrameHeader_encode h) = Ok h.
Proof.
  intros [Hm Hv Hl Hs Hn]. unfold peek_header. rewrite header_encode_length.
  change (LOG_FRAME_HEADER_SIZE <? LOG_FRAME_HEADER_SIZE) with false. cbv iota zeta.
  unfold LogFrameHeader_encode.
  assert (in_u32 (fh_magic h)) by (rewrite Hm; unfold LOG_FRAME_MAGIC; mlia).
  assert (in_u32 (fh_version h))
    by (rewrite Hv; unfold LOG_FRAME_VERSION, LOG_FRAME_CURRENT_VERSION; mlia).
  rewrite <- (app_nil_r (to_be_bytes 4 (fh_n_part h))). set (bs := to_be_bytes 4 _ ++ _).
  assert (from_be_bytes 4 (bs.[0, 4]) = fh_magic h) as -> by be_get.
  assert (from_be_bytes 4 (bs.[4, 4]) = fh_version h) as -> by be_get.
  assert (from_be_bytes 8 (bs.[8, 8]) = fh_lsn h) as -> by be_get.
  assert (from_be_bytes 4 (bs.[16, 4]) = fh_size h) as -> by be_get.
  assert (from_be_bytes 4 (bs.[20, 4]) = fh_n_part h) as -> by be_get.
  rewrite Hm. by destruct h; cbn in *; subst.
Qed.

Lemma LogFrameHeader_decode_encode h :
  frame_header_ok h -> LogFrameHeader_decode (LogFrameHeader_encode h) = Ok h.
Proof.
  intros Hh. unfold LogFrameHeader_decode. rewrite header_encode_length.
  change (LOG_FRAME_HEADER_SIZE <? LOG_FRAME_HEADER_SIZE) with false. cbv iota.
  rewrite peek_header_encode by done. cbn [mbind res_bind]. by rewrite (fo_version _ Hh).
Qed.

Lemma LogFrameTailer_decode_encode t :
  in_u32 (ft_n_part t) -> in_u32 (ft_checksum t) ->
  LogFrameTailer_decode (LogFrameTailer_encode t) = Ok t.
Proof.
  intros Hn Hc. unfold LogFrameTailer_decode. rewrite tailer_encode_length.
  change (LOG_FRAME_TAILER_SIZE <? LOG_FRAME_TAILER_SIZE) with false. cbv iota.
  unfold LogFrameTailer_encode. rewrite <- (app_nil_r (to_be_bytes 4 (ft_checksum t))).
  set (bs := to_be_bytes 4 _ ++ _).
  assert (from_be_bytes 4 (bs.[0, 4]) = ft_n_part t) as -> by be_get.
  assert (from_be_bytes 4 (bs.[4, 4]) = ft_checksum t) as -> by be_get. by destruct t.
Qed.

(** A part as [serialize_entry] makes it. *)
Record part_ok (lsn remaining : Z) (chunk : list byte) : Prop := mk_part_ok {
  po_lsn : in_u64 lsn;
  po_remaining : in_u32 remaining;
  po_size : zlen chunk <= U32_MAX;
}.

Lemma new_header_ok lsn remaining chunk :
  part_ok lsn remaining chunk ->
  frame_header_ok (LogFrameHeader_new lsn remaining (zlen chunk)) /\
  fh_size (LogFrameHeader_new lsn remaining (zlen chunk)) = zlen chunk.
Proof.
  intros [? ? ?]. pose proof (zlen_nonneg chunk).
  split; [split; cbn; try done; apply as_u32_range |]. apply as_u32_small. mlia.
Qed.

Lemma make_frame_length lsn remaining chunk :
  zlen (make_frame lsn remaining chunk) =
    LOG_FRAME_HEADER_SIZE + zlen chunk + LOG_FRAME_TAILER_SIZE.
Proof. unfold make_frame. rewrite !zlen_app, header_encode_length, tailer_encode_length. lia. Qed.

(** The header bytes of a frame, whatever follows. *)
Lemma frame_header_slice lsn remaining chunk rest :
  slice (E := ErrorCode) 0 LOG_FRAME_HEADER_SIZE (make_frame lsn remaining chunk ++ rest)
    = Ok (LogFrameHeader_encode (LogFrameHeader_new lsn remaining (zlen chunk))).
Proof.
  pose proof (zlen_nonneg chunk). pose proof (zlen_nonneg rest).
  rewrite slice_ok by (rewrite ?zlen_app, ?make_frame_length; unfold LOG_FRAME_HEADER_SIZE,
    LOG_FRAME_TAILER_SIZE; lia).
  unfold make_frame. rewrite <- app_assoc. rewrite Z.sub_0_r.
  rewrite zsub_app_l by (rewrite ?header_encode_length; unfold LOG_FRAME_HEADER_SIZE; lia).
  by rewrite zsub_all by (by rewrite header_encode_length).
Qed.

Lemma frame_len_make lsn remaining chunk rest :
  part_ok lsn remaining chunk ->
  frame_len (make_frame lsn remaining chunk ++ rest)
    = Ok (zlen (make_frame lsn remaining chunk)).
Proof.
  intros Hp. destruct (new_header_ok _ _ _ Hp) as [Hok Hsz].
  pose proof (zlen_nonneg chunk). pose proof (zlen_nonneg rest).
  unfold frame_len. rewrite zlen_app, make_frame_length.
  rewrite (proj2 (Z.ltb_ge _ _)) by lia. rewrite frame_header_slice. cbn [mbind res_bind].
  rewrite peek_header_encode by done. cbn [mbind res_bind]. cbv zeta. rewrite Hsz.
  by rewrite (proj2 (Z.ltb_ge _ _)) by lia.
Qed.

Lemma split_make_frame lsn remaining chunk :
  part_ok lsn remaining chunk ->
  split_frame (make_frame lsn remaining chunk) =
    Ok (LogFrameHeader_new lsn remaining (zlen chunk), chunk, LogFrameTailer_new remaining chunk).
Proof.
  intros Hp. destruct (new_header_ok _ _ _ Hp) as [Hok Hsz].
  pose proof (zlen_nonneg chunk). unfold split_frame.
  pose proof (frame_len_make lsn remaining chunk [] Hp) as Hlen. rewrite app_nil_r in Hlen.
  pose proof (frame_header_slice lsn remaining chunk []) as Hsl. rewrite app_nil_r in Hsl.
  rewrite Hlen. cbn [mbind res_bind]. rewrite Z.eqb_refl. cbn [negb].
  unfold ensure_latest_frame. rewrite Hsl. cbn [mbind res_bind].
  rewrite peek_header_encode by done. cbn [mbind res_bind].
  rewrite (fo_version _ Hok). cbn [mbind res_bind compat check_version map_err].
  rewrite Z.eqb_refl. change (compat (check_version LogFrame LOG_FRAME_VERSION)) with (@Ok ErrorCode unit tt).
  cbn [mbind res_bind]. rewrite Hsl. cbn [mbind res_bind].
  rewrite LogFrameHeader_decode_encode by done. cbn [mbind res_bind]. cbv zeta. rewrite Hsz.
  rewrite !slice_ok by (rewrite ?make_frame_length; unfold LOG_FRAME_HEADER_SIZE,
    LOG_FRAME_TAILER_SIZE; lia).
  cbn [mbind res_bind]. rewrite make_frame_length, Z.add_simpl_l.
  unfold make_frame. set (hb := LogFrameHeader_encode _).
  assert (zlen hb = LOG_FRAME_HEADER_SIZE) as Hhb by apply header_encode_length.
  set (tb := LogFrameTailer_encode _).
  assert (zlen tb = LOG_FRAME_TAILER_SIZE) as Htb by apply tailer_encode_length.
  assert ((hb ++ chunk ++ tb).[LOG_FRAME_HEADER_SIZE, zlen chunk] = chunk) as ->.
  { rewrite zsub_app_r, Hhb, Z.sub_diag by lia. rewrite zsub_app_l by lia. by apply zsub_all. }
  assert ((hb ++ chunk ++ tb).[LOG_FRAME_HEADER_SIZE + zlen chunk,
            LOG_FRAME_HEADER_SIZE + zlen chunk + LOG_FRAME_TAILER_SIZE
            - (LOG_FRAME_HEADER_SIZE + zlen chunk)] = tb) as ->.
  { rewrite Z.add_simpl_l, app_assoc, zsub_app_r by (rewrite ?zlen_app, ?Htb, <- ?Htb;
      pose proof (zlen_nonneg tb); lia).
    rewrite zlen_app, Hhb, Z.sub_diag. by apply zsub_all. }
  unfold tb.
  rewrite LogFrameTailer_decode_encode; [| apply Hp | apply as_u32_range].
  cbn [mbind res_bind]. cbn [LogFrameHeader_new LogFrameTailer_new fh_n_part ft_n_part ft_checksum].
  by rewrite !Z.eqb_refl.
Qed.

(** ** Entries *)

(** The frames of consecutive parts; [left] parts remain. *)
Fixpoint frames_of (lsn left : Z) (parts : list (list byte)) : list (list byte) :=
  match parts with
  | [] => []
  | chunk :: parts =>
      make_frame lsn (as_u32 (left - 1)) chunk :: frames_of (lsn + 1) (left - 1) parts
  end.

Definition parts_ok (lsn : Z) (parts : list (list byte)) : Prop :=
  0 <= lsn /\ lsn + zlen parts <= U64_MAX /\ zlen parts <= U32_MAX /\
  Forall (fun c => zlen c <= U32_MAX) parts.

Lemma parts_ok_cons lsn c parts :
  parts_ok lsn (c :: parts) ->
  parts_ok (lsn + 1) parts /\ part_ok lsn (as_u32 (zlen (c :: parts) - 1)) c /\
  as_u32 (zlen (c :: parts) - 1) = zlen parts.
Proof.
  intros (H1 & H2 & H3 & H4). inversion H4; subst. pose proof (zlen_nonneg parts).
  rewrite zlen_cons in *. assert (as_u32 (zlen parts + 1 - 1) = zlen parts) as E.
  { rewrite Z.add_simpl_r. apply as_u32_small. mlia. }
  split_and!; [| rewrite E; split; mlia | done].
  split_and!; [lia | lia | lia | done].
Qed.

Lemma make_frames_spec parts : forall left lsn,
  0 <= lsn -> lsn + zlen parts <= U64_MAX ->
  make_frames left parts lsn = (Ok (frames_of lsn left parts), lsn + zlen parts).
Proof.
  induction parts as [| c parts IH]; intros left lsn Hl Hu.
  { cbn. by rewrite Z.add_0_r. }
  rewrite zlen_cons in *. pose proof (zlen_nonneg parts). cbn [make_frames].
  st_step by reflexivity. st_step by reflexivity.
  rewrite Z.mod_small by mlia.
  st_step by (apply IH; lia). cbn [frames_of]. unfold mret, st_ret.
  f_equal. lia.
Qed.

Lemma frames_of_length parts : forall lsn left, zlen (frames_of lsn left parts) = zlen parts.
Proof.
  induction parts as [| c parts IH]; intros lsn left; [done |].
  cbn [frames_of]. rewrite !zlen_cons. by rewrite IH.
Qed.

Lemma frames_of_snoc parts c : forall lsn left,
  frames_of lsn left (parts ++ [c]) =
    frames_of lsn left parts ++ [make_frame (lsn + zlen parts) (as_u32 (left - zlen parts - 1)) c].
Proof.
  induction parts as [| d parts IH]; intros lsn left.
  { cbn. by rewrite Z.add_0_r, Z.sub_0_r. }
  cbn [app frames_of]. rewrite IH, zlen_cons. do 2 f_equal. do 2 f_equal; [lia |]. f_equal. lia.
Qed.

Lemma join_parts_spec parts : forall lsn total index,
  parts_ok lsn parts -> total - index = zlen parts ->
  join_parts total index (frames_of lsn (zlen parts) parts) = Ok (concat parts).
Proof.
  induction parts as [| c parts IH]; intros lsn total index Hp Ht; [done |].
  destruct (parts_ok_cons _ _ _ Hp) as (Hp' & Hc & E). cbn [frames_of join_parts].
  rewrite split_make_frame by done. cbn [mbind res_bind fst snd].
  cbn [LogFrameHeader_new fh_n_part]. rewrite Ht, Z.eqb_refl. cbn [negb].
  rewrite zlen_cons, Z.add_simpl_r.
  rewrite IH; [done | done | rewrite zlen_cons in Ht; lia].
Qed.

Lemma deserialize_frames_of lsn parts :
  parts <> [] -> parts_ok lsn parts ->
  deserialize_frames_payload (frames_of lsn (zlen parts) parts) = Ok (concat parts).
Proof.
  intros Hne Hp. unfold deserialize_frames_payload.
  destruct (frames_of lsn (zlen parts) parts) eqn:E.
  { destruct parts; [done |]. cbn [frames_of] in E. done. }
  rewrite <- E, frames_of_length. apply join_parts_spec; [done | lia].
Qed.

Lemma chunks_spec fuel n : forall l,
  0 < n -> (length l <= fuel)%nat ->
  concat (chunks_fuel fuel n l) = l /\
  Forall (fun c => zlen c <= n) (chunks_fuel fuel n l) /\
  zlen (chunks_fuel fuel n l) = (zlen l + n - 1) / n.
Proof.
  induction fuel as [| fuel IH]; intros l Hn Hf.
  { destruct l; [| cbn in Hf; lia]. cbn. split_and!; [done | constructor |].
    change (zlen (@nil byte)) with 0. rewrite Z.div_small; [done | lia]. }
  destruct l as [| x l].
  { cbn. split_and!; [done | constructor |].
    change (zlen (@nil byte)) with 0. rewrite Z.div_small; [done | lia]. }
  cbn [chunks_fuel]. set (l' := x :: l) in *.
  assert (0 < length l')%nat by (cbn; lia).
  destruct (IH (drop (Z.to_nat n) l') Hn) as (IH1 & IH2 & IH3).
  { rewrite length_drop. lia. }
  split_and!.
  - cbn [concat]. rewrite IH1. apply take_drop.
  - constructor; [| done]. unfold zlen. rewrite length_take. lia.
  - rewrite zlen_cons, IH3. unfold zlen. rewrite length_drop.
    destruct (Nat.le_gt_cases (Z.to_nat n) (length l')).
    + rewrite Nat2Z.inj_sub, Z2Nat.id by lia.
      replace (Z.of_nat (length l') + n - 1) with (Z.of_nat (length l') - n + n - 1 + 1 * n) by lia.
      rewrite Z.div_add by lia. lia.
    + replace (length l' - Z.to_nat n)%nat with 0%nat by lia. rewrite Z.div_small by lia.
      replace (Z.of_nat (length l') + n - 1) with (Z.of_nat (length l') - 1 + 1 * n) by lia.
      rewrite Z.div_add, Z.div_small by lia. lia.
Qed.

End frames.

Section entries.
Context `{Packages} {L : Type} `{MsgpackOk L}.
Context (max_part_size : Z) (Hmax : LOG_FRAME_HEADER_SIZE + LOG_FRAME_TAILER_SIZE < max_part_size).

Definition max_payload : Z := max_part_size - LOG_FRAME_HEADER_SIZE - LOG_FRAME_TAILER_SIZE.

(** The parts and the frames of an entry that starts at [lsn]. *)
Definition entry_parts (v : L) : list (list byte) :=
  match to_vec v with Some bs => chunks max_payload bs | None => [] end.

Definition entry_frames (lsn : Z) (v : L) : list (list byte) :=
  frames_of lsn (zlen (entry_parts v)) (entry_parts v).

(** An encodable entry of less than 4 GiB whose frames have LSNs. *)
Definition entry_ok (lsn : Z) (v : L) : Prop :=
  exists bs, to_vec v = Some bs /\ zlen bs <= U32_MAX /\
    0 <= lsn /\ lsn + zlen (entry_parts v) <= U64_MAX.

Lemma entry_parts_ok lsn v :
  entry_ok lsn v ->
  exists bs, to_vec v = Some bs /\ concat (entry_parts v) = bs /\ bs <> [] /\
    parts_ok lsn (entry_parts v) /\ entry_parts v <> [] /\
    zlen (entry_parts v) = total_parts (zlen bs) max_payload.
Proof.
  intros (bs & E & Hs & Hl & Hu). exists bs.
  assert (0 < max_payload) as Hn
    by (unfold max_payload, LOG_FRAME_HEADER_SIZE, LOG_FRAME_TAILER_SIZE in *; lia).
  assert (bs <> []) as Hbs by (intros ->; by eapply to_vec_nonempty).
  unfold entry_parts in *. rewrite E in *. unfold chunks in *.
  destruct (chunks_spec (length bs) max_payload bs Hn ltac:(lia)) as (Hq1 & Hq2 & Hq3).
  assert (0 < zlen bs) by (destruct bs; [done | rewrite zlen_cons; pose proof (zlen_nonneg bs); lia]).
  assert (1 <= (zlen bs + max_payload - 1) / max_payload <= zlen bs) as [Hlo Hhi].
  { split; [apply Z.div_le_lower_bound; lia |].
    apply Z.div_le_upper_bound; [lia |]. nia. }
  split_and!; try done.
  - split_and!; [done | done | lia |]. apply Forall_forall. intros c Hc.
    rewrite <- Hq1 in Hs. clear -Hs Hc. induction (chunks_fuel _ _ bs) as [| d cs IH].
    + by apply elem_of_nil in Hc.
    + cbn [concat] in Hs. rewrite zlen_app in Hs. pose proof (zlen_nonneg d).
      pose proof (zlen_nonneg (concat cs)).
      apply elem_of_cons in Hc as [-> | Hc]; [lia | apply IH; [lia | done]].
  - intros E0. rewrite E0 in Hq3. change (zlen (@nil (list byte))) with 0 in Hq3. lia.
  - rewrite Hq3. unfold total_parts. lia.
Qed.

Lemma serialize_entry_ok lsn v :
  entry_ok lsn v ->
  serialize_entry v max_part_size lsn = (Ok (entry_frames lsn v), lsn + zlen (entry_frames lsn v)).
Proof.
  intros Hok. destruct (entry_parts_ok _ _ Hok) as (bs & E & Hc & Hne & Hp & _ & Hn).
  unfold serialize_entry, entry_frames. rewrite frames_of_length.
  st_step by (unfold st_lift; rewrite E; reflexivity).
  rewrite (proj2 (Z.leb_gt _ _)) by lia. cbv zeta. fold max_payload. rewrite <- Hn.
  destruct Hp as (Hq1 & Hq2 & _). unfold entry_parts in *. rewrite E in *.
  by apply make_frames_spec.
Qed.

Lemma deserialize_entry_ok lsn v : entry_ok lsn v -> deserialize_entry (entry_frames lsn v) = Ok v.
Proof.
  intros Hok. destruct (entry_parts_ok _ _ Hok) as (bs & E & Hc & Hne & Hp & Hpne & _).
  unfold deserialize_entry, entry_frames. rewrite deserialize_frames_of by done.
  cbn [mbind res_bind]. rewrite Hc. by rewrite (from_to_vec v bs E).
Qed.

(** *** Logs of entries *)

Fixpoint log_frames (lsn : Z) (vs : list L) : list (list byte) :=
  match vs with
  | [] => []
  | v :: vs => entry_frames lsn v ++ log_frames (lsn + zlen (entry_frames lsn v)) vs
  end.

Fixpoint log_entries (lsn : Z) (vs : list L) : list (Z * L) :=
  match vs with
  | [] => []
  | v :: vs => (lsn, v) :: log_entries (lsn + zlen (entry_frames lsn v)) vs
  end.

Fixpoint log_ok (lsn : Z) (vs : list L) : Prop :=
  match vs with
  | [] => True
  | v :: vs => entry_ok lsn v /\ log_ok (lsn + zlen (entry_frames lsn v)) vs
  end.

Lemma decode_loop_app a b s :
  decode_loop (L := L) (a ++ b) s =
    (x ← decode_loop a; y ← decode_loop b; mret (x ++ y)) s.
Proof.
  revert s. induction a as [| f a IH]; intros s; cbn [app decode_loop].
  { unfold mbind, st_bind, mret, st_ret. by destruct (decode_loop b s) as [[x | |] s']. }
  unfold mbind, st_bind, mret, st_ret, st_lift, st_get, st_put.
  destruct (split_frame f) as [p | |]; [| done | done]. destruct s as [pending start].
  destruct (negb (fh_n_part p.1.1 =? 0)); [apply IH |].
  destruct (deserialize_entry (pending ++ [f])) as [v | |]; [| done | done].
  destruct (match pending with [] => Some (fh_lsn p.1.1) | _ :: _ => start end) as [l |]; [| done].
  rewrite IH. unfold mbind, st_bind, mret, st_ret.
  destruct (decode_loop a ([], None)) as [[x | |] s']; [| done | done].
  by destruct (decode_loop b s') as [[y | |] s''].
Qed.

(** The last frames of an entry, with the first ones pending. *)
Lemma decode_loop_parts v lsn (p2 : list (list byte)) : forall p1 start,
  entry_parts v = p1 ++ p2 -> p2 <> [] -> entry_ok lsn v ->
  (p1 <> [] -> start = Some lsn) ->
  decode_loop (frames_of (lsn + zlen p1) (zlen p2) p2)
    (frames_of lsn (zlen (entry_parts v)) p1, start) = (Ok [(lsn, v)], ([], None)).
Proof.
  induction p2 as [| c p2 IH]; intros p1 start Hpart Hne Hok Hst; [done |].
  pose proof (entry_parts_ok _ _ Hok) as (bs & E & Hc & _ & Hp & _ & _).
  assert (zlen (entry_parts v) = zlen p1 + zlen p2 + 1) as Hlen
    by (rewrite Hpart, zlen_app, zlen_cons; lia).
  pose proof (zlen_nonneg p1). pose proof (zlen_nonneg p2).
  assert (parts_ok (lsn + zlen p1) (c :: p2)) as Hp2.
  { destruct Hp as (Hq1 & Hq2 & Hq3 & Hq4). rewrite Hpart in Hq2, Hq3, Hq4.
    rewrite zlen_app in Hq2, Hq3. apply Forall_app in Hq4 as [_ Hq4].
    split_and!; [lia | lia | lia | done]. }
  destruct (parts_ok_cons _ _ _ Hp2) as (_ & Hpc & En).
  cbn [frames_of decode_loop].
  st_step by (unfold st_lift; rewrite split_make_frame by done; reflexivity).
  st_step by reflexivity. cbn [fst LogFrameHeader_new fh_lsn fh_n_part]. rewrite En.
  assert (match frames_of lsn (zlen (entry_parts v)) p1 with
          | [] => Some (lsn + zlen p1) | _ :: _ => start end = Some lsn) as ->.
  { destruct p1 as [| d p1]; cbn [frames_of]; [by rewrite Z.add_0_r | by apply Hst]. }
  assert (frames_of lsn (zlen (entry_parts v)) p1 ++ [make_frame (lsn + zlen p1) (zlen p2) c]
          = frames_of lsn (zlen (entry_parts v)) (p1 ++ [c])) as Hsnoc.
  { rewrite frames_of_snoc, Hlen. do 3 f_equal.
    replace (zlen p1 + zlen p2 + 1 - zlen p1 - 1) with (zlen p2) by lia.
    symmetry. apply as_u32_small. destruct Hp2 as (_ & _ & Hq3 & _). rewrite zlen_cons in Hq3. mlia. }
  rewrite Hsnoc. st_step by reflexivity.
  destruct p2 as [| c' p2].
  - cbn [negb Z.eqb]. change (zlen (@nil (list byte)) =? 0) with true. cbn [negb].
    rewrite <- Hpart. fold (entry_frames lsn v).
    st_step by (unfold st_lift; rewrite (deserialize_entry_ok _ _ Hok); reflexivity).
    st_step by reflexivity. st_step by reflexivity. done.
  - rewrite (proj2 (Z.eqb_neq _ _)) by (rewrite zlen_cons; pose proof (zlen_nonneg p2); lia).
    cbn [negb].
    pose proof (IH (p1 ++ [c]) (Some lsn)) as IH'. rewrite zlen_app in IH'.
    change (zlen [c]) with 1 in IH'. rewrite Z.add_assoc in IH'.
    rewrite (zlen_cons c), Z.add_simpl_r. apply IH'; [by rewrite <- app_assoc | done | done | done].
Qed.

Lemma decode_loop_entry lsn v :
  entry_ok lsn v -> decode_loop (entry_frames lsn v) ([], None) = (Ok [(lsn, v)], ([], None)).
Proof.
  intros Hok. destruct (entry_parts_ok _ _ Hok) as (bs & _ & _ & _ & _ & Hne & _).
  pose proof (decode_loop_parts v lsn (entry_parts v) [] None eq_refl Hne Hok) as Hd.
  change (zlen (@nil (list byte))) with 0 in Hd. rewrite Z.add_0_r in Hd. by apply Hd.
Qed.

Lemma decode_loop_log vs : forall lsn,
  log_ok lsn vs -> decode_loop (log_frames lsn vs) ([], None) = (Ok (log_entries lsn vs), ([], None)).
Proof.
  induction vs as [| v vs IH]; intros lsn Hok; [done |]. destruct Hok as [Hv Hvs].
  cbn [log_frames log_entries]. rewrite decode_loop_app.
  st_step by (by apply decode_loop_entry). by st_step by (by apply IH).
Qed.

(** The first frames of an entry, without its last one, yield nothing and stay
    pending. *)
Lemma decode_loop_unfinished parts : forall lsn left pending start,
  parts_ok lsn parts -> zlen parts < left -> left <= U32_MAX ->
  exists start', decode_loop (L := L) (frames_of lsn left parts) (pending, start) =
    (Ok [], (pending ++ frames_of lsn left parts, start')).
Proof.
  induction parts as [| c parts IH]; intros lsn left pending start Hp Hl Hu; [eexists; cbn; by rewrite app_nil_r |].
  destruct (parts_ok_cons _ _ _ Hp) as (Hp' & [Hq1 Hq2 Hq3] & _). rewrite zlen_cons in Hl.
  pose proof (zlen_nonneg parts).
  assert (as_u32 (left - 1) = left - 1) as E by (apply as_u32_small; mlia).
  cbn [frames_of decode_loop]. rewrite E.
  st_step by (unfold st_lift; rewrite split_make_frame by (split; [done | mlia | done]); reflexivity).
  st_step by reflexivity. cbv beta iota zeta. st_step by reflexivity.
  cbn [fst LogFrameHeader_new fh_n_part]. rewrite (proj2 (Z.eqb_neq _ _)) by lia. cbn [negb].
  match goal with |- context [decode_loop _ (?p, ?st)] => destruct (IH (lsn + 1) (left - 1) p st) as [start' E'] end;
    [done | lia | lia |].
  exists start'. by rewrite E', <- app_assoc.
Qed.

(** What the loop leaves pending carries its start LSN, so the next call
    starts the loop at once. *)
Definition pending_ok (s : Pending) : Prop := s.1 <> [] -> s.2 <> None.

Lemma decode_loop_pending fs : forall s r s',
  pending_ok s -> decode_loop (L := L) fs s = (Ok r, s') -> pending_ok s'.
Proof.
  induction fs as [| f fs IH]; intros [pending start] r s' Hs; cbn [decode_loop];
    unfold mbind, st_bind, mret, st_ret, st_lift, st_get, st_put; [by intros [= <- <-] |].
  destruct (split_frame f) as [p | |]; [| done | done].
  set (start' := match pending with [] => _ | _ :: _ => _ end).
  assert (start' <> None) by (destruct pending; [done | by apply Hs]).
  destruct (negb (fh_n_part p.1.1 =? 0)); [apply IH; by intros _ |].
  destruct (deserialize_entry (pending ++ [f])); [| done | done].
  destruct start'; [| done].
  destruct (decode_loop fs ([], None)) as [[x | |] s''] eqn:E; [| done | done].
  intros [= <- <-]. eapply (IH ([], None)); [| exact E]. by intros [].
Qed.

Lemma decode_entries_pending_ok fs s :
  pending_ok s -> decode_entries_with_pending (L := L) fs s = decode_loop fs s.
Proof.
  destruct s as [[| f pending] [l |]]; intros Hs; try done. by destruct (Hs ltac:(done)).
Qed.

(** *** Scanning chunks *)

Definition valid_frame (f : list byte) : Prop :=
  exists lsn remaining c, f = make_frame lsn remaining c /\ part_ok lsn remaining c.

Definition lsn_of (f : list byte) : Z := match frame_lsn f with Ok l => l | _ => 0 end.

Lemma valid_frame_len f rest : valid_frame f -> frame_len (f ++ rest) = Ok (zlen f) /\ 0 < zlen f.
Proof.
  intros (lsn & r & c & -> & Hp). rewrite frame_len_make by done.
  split; [done |]. rewrite make_frame_length. pose proof (zlen_nonneg c).
  unfold LOG_FRAME_HEADER_SIZE, LOG_FRAME_TAILER_SIZE. lia.
Qed.

Lemma valid_frame_split f :
  valid_frame f -> exists p, split_frame f = Ok p /\ lsn_of f = fh_lsn p.1.1.
Proof.
  intros (lsn & r & c & -> & Hp). eexists. split; [by apply split_make_frame |].
  unfold lsn_of, frame_lsn. by rewrite split_make_frame.
Qed.

(** A frame cut short: its length check fails. *)
Lemma frame_len_torn f k : valid_frame f -> 0 <= k < zlen f -> frame_len (f.[0, k]) = Err Decode.
Proof.
  intros (lsn & r & c & -> & Hp) Hk. destruct (new_header_ok _ _ _ Hp) as [Hok Hsz].
  rewrite make_frame_length in Hk. pose proof (zlen_nonneg c).
  assert (zlen ((make_frame lsn r c).[0, k]) = k) as Hz
    by (rewrite zlen_zsub by (rewrite ?make_frame_length; lia); done).
  unfold frame_len. rewrite Hz.
  destruct (Z.ltb_spec k (LOG_FRAME_HEADER_SIZE + LOG_FRAME_TAILER_SIZE)) as [| Hge]; [done |].
  pose proof (frame_header_slice lsn r c []) as Hs. rewrite app_nil_r in Hs.
  unfold LOG_FRAME_HEADER_SIZE, LOG_FRAME_TAILER_SIZE in *.
  rewrite slice_ok in Hs by (rewrite ?make_frame_length;
    unfold LOG_FRAME_HEADER_SIZE, LOG_FRAME_TAILER_SIZE; lia).
  rewrite slice_ok by lia. rewrite zsub_zsub by lia. change (0 + 0) with 0. rewrite Hs.
  cbn [mbind res_bind]. rewrite peek_header_encode by done. cbn [mbind res_bind]. cbv zeta.
  rewrite Hsz. by rewrite (proj2 (Z.ltb_lt _ _)) by lia.
Qed.

Lemma scan_fuel_frames fs : forall fuel pre acc tail,
  Forall valid_frame fs -> (length fs < fuel)%nat -> vp_valid_len acc = zlen pre ->
  (tail = [] \/ exists e, frame_len tail = Err e) -> (tail = [] -> fs = [] -> vp_corrupt acc = false) ->
  scan_fuel fuel (pre ++ concat fs ++ tail) acc = Ok {|
    vp_valid_len := zlen (pre ++ concat fs); vp_frames := vp_frames acc ++ fs;
    vp_max_lsn := fold_left max_lsn_with (lsn_of <$> fs) (vp_max_lsn acc);
    vp_corrupt := bool_decide (tail <> []) |}.
Proof.
  induction fs as [| f fs IH]; intros fuel pre acc tail Hfs Hfuel Hacc Htail Hcor;
    destruct fuel as [| fuel]; try (cbn in Hfuel; lia).
  - cbn [concat app]. rewrite !app_nil_r.
    assert (drop (Z.to_nat (vp_valid_len acc)) (pre ++ tail) = tail) as Hd
      by (rewrite Hacc; unfold zlen; by rewrite Nat2Z.id, drop_app_length).
    cbn [scan_fuel]. rewrite Hd, zlen_app, <- Hacc.
    destruct tail as [| b tail].
    + change (zlen (@nil byte)) with 0. rewrite Z.add_0_r, Z.ltb_irrefl. cbn [fmap list_fmap fold_left].
      rewrite Hacc. destruct acc; cbn in *. by rewrite Hcor, <- Hacc.
    + pose proof (zlen_nonneg tail). rewrite zlen_cons, (proj2 (Z.ltb_lt _ _)) by lia.
      destruct Htail as [| [e ->]]; [done |]. done.
  - inversion Hfs as [| ? ? Hf Hfs']; subst.
    destruct (valid_frame_len f (concat fs ++ tail) Hf) as [Hlen Hpos].
    destruct (valid_frame_split f Hf) as (p & Hp & Hl).
    cbn [scan_fuel concat]. rewrite <- app_assoc.
    assert (drop (Z.to_nat (vp_valid_len acc)) (pre ++ f ++ concat fs ++ tail) = f ++ concat fs ++ tail) as ->
      by (rewrite Hacc; unfold zlen; by rewrite Nat2Z.id, drop_app_length).
    rewrite !zlen_app, Hacc. pose proof (zlen_nonneg (concat fs)). pose proof (zlen_nonneg tail).
    rewrite (proj2 (Z.ltb_lt _ _)) by lia. rewrite Hlen.
    rewrite slice_ok by (rewrite ?zlen_app; lia). rewrite Z.sub_0_r, zsub_app_l, zsub_all by lia.
    cbn [mbind res_bind]. rewrite Hp, app_assoc.
    rewrite IH; [| done | cbn in Hfuel; lia | cbn; by rewrite zlen_app | done | done].
    cbn [vp_frames vp_max_lsn fmap list_fmap fold_left]. by rewrite Hl, <- !app_assoc, !zlen_app.
Qed.

(** A chunk: valid frames, then nothing or a frame that was cut. *)
Definition torn (tail : list byte) : Prop := tail = [] \/ exists e, frame_len tail = Err e.

Definition chunk_bytes (g : list (list byte) * list byte) : list byte := concat g.1 ++ g.2.
Definition chunk_ok (g : list (list byte) * list byte) : Prop := Forall valid_frame g.1 /\ torn g.2.

Lemma torn_frame f k : valid_frame f -> 0 <= k < zlen f -> torn (f.[0, k]).
Proof. intros. right. eexists. by apply frame_len_torn. Qed.

Lemma frames_length fs : Forall valid_frame fs -> (length fs <= length (concat fs))%nat.
Proof.
  induction 1 as [| f fs Hf _ IH]; [done |]. destruct (valid_frame_len f [] Hf) as [_ Hpos].
  cbn [concat length]. rewrite length_app. unfold zlen in Hpos. lia.
Qed.

Lemma frames_length_lt fs :
  Forall valid_frame fs -> fs <> [] -> (length fs < length (concat fs))%nat.
Proof.
  intros Hfs Hne. destruct Hfs as [| f fs Hf Hfs]; [done |]. pose proof (frames_length fs Hfs).
  destruct Hf as (lsn & r & c & -> & _). pose proof (make_frame_length lsn r c) as Hl.
  pose proof (zlen_nonneg c). cbn [concat length]. rewrite length_app.
  unfold LOG_FRAME_HEADER_SIZE, LOG_FRAME_TAILER_SIZE, zlen in *. lia.
Qed.

Lemma scan_chunk g :
  chunk_ok g ->
  scan_valid_frame_prefix (chunk_bytes g) = Ok {|
    vp_valid_len := zlen (concat g.1); vp_frames := g.1;
    vp_max_lsn := fold_left max_lsn_with (lsn_of <$> g.1) None;
    vp_corrupt := bool_decide (g.2 <> []) |}.
Proof.
  destruct g as [fs tail]. intros [Hfs Ht]. cbn [fst snd] in *. unfold chunk_bytes. cbn [fst snd].
  destruct (decide (fs = [] /\ tail = [])) as [[-> ->] | Hne]; [done |].
  unfold scan_valid_frame_prefix.
  rewrite (scan_fuel_frames fs _ [] _ tail); [done | done | | done | done | done].
  rewrite length_app. destruct fs as [| f fs].
  - destruct tail; [by destruct Hne | cbn; lia].
  - pose proof (frames_length_lt _ Hfs ltac:(done)). lia.
Qed.

Lemma decode_frames_concat fs : Forall valid_frame fs -> decode_frames (concat fs) = Ok fs.
Proof.
  intros Hfs. unfold decode_frames. pose proof (frames_length fs Hfs) as Hl.
  generalize dependent (length (concat fs)). induction Hfs as [| f fs Hf Hfs IH]; intros n Hl.
  { by destruct n. }
  destruct n as [| n]; [cbn in Hl; lia |].
  destruct (valid_frame_len f (concat fs) Hf) as [Hlen Hpos].
  destruct (valid_frame_split f Hf) as (p & Hp & _). cbn [concat].
  assert (exists b bs, f ++ concat fs = b :: bs) as (b & bs & E).
  { destruct f; [done |]. by eexists _, _. }
  cbn [decode_frames_fuel]. rewrite E, <- E, Hlen. cbn [mbind res_bind].
  pose proof (zlen_nonneg (concat fs)).
  rewrite slice_ok by (rewrite ?zlen_app; lia). rewrite Z.sub_0_r, zsub_app_l, zsub_all by lia.
  cbn [mbind res_bind]. rewrite Hp. cbn [mbind res_bind].
  unfold zlen. rewrite Nat2Z.id, drop_app_length. rewrite IH by (cbn in Hl; lia). done.
Qed.

(** *** Recovery *)

Lemma st_iter_app {S A} (f : A -> ST ErrorCode S unit) l1 l2 s :
  st_iter f (l1 ++ l2) s = (st_iter f l1 ;; st_iter f l2) s.
Proof.
  revert s. induction l1 as [| x l1 IH]; intros s; [done |].
  cbn [app st_iter]. unfold mbind, st_bind in *. destruct (f x s) as [[[] | |] s']; [| done | done].
  apply IH.
Qed.

Definition handle_all {S} (handle : L -> Z -> ST ErrorCode S unit) (es : list (Z * L))
    : ST ErrorCode S unit :=
  st_iter (fun '(start_lsn, entry) => handle entry start_lsn) es.

Lemma chunk_empty g : chunk_ok g -> chunk_bytes g = [] -> g.1 = [].
Proof.
  intros [Hf _] Eb. unfold chunk_bytes in Eb. apply app_eq_nil in Eb as [Eb _].
  destruct g.1 as [| f fs]; [done |]. inversion Hf as [| ? ? Hf1 _]; subst.
  destruct (valid_frame_len f [] Hf1) as [_ Hpos]. by destruct f.
Qed.

(** Recovery over any cut of the frames into chunks hands over the entries
    that the frames in a row hold. *)
Lemma recover_chunks_ok {S} (handle : L -> Z -> ST ErrorCode S unit) gs : forall pending es p' s,
  Forall chunk_ok gs -> pending_ok pending ->
  decode_loop (concat (fst <$> gs)) pending = (Ok es, p') ->
  recover_chunks handle pending (chunk_bytes <$> gs) s = handle_all handle es s.
Proof.
  induction gs as [| g gs IH]; intros pending es p' s Hgs Hp Hd.
  { injection Hd as <- _. done. }
  inversion Hgs as [| ? ? Hg Hgs']; subst.
  change (concat (fst <$> g :: gs)) with (g.1 ++ concat (fst <$> gs)) in Hd.
  rewrite decode_loop_app in Hd. unfold mbind, st_bind, mret, st_ret in Hd.
  destruct (decode_loop g.1 pending) as [[x | |] p1] eqn:E1; [| done | done].
  destruct (decode_loop (concat (fst <$> gs)) p1) as [[y | |] p2] eqn:E2; [| done | done].
  injection Hd as <- <-. pose proof (decode_loop_pending _ _ _ _ Hp E1) as Hp1.
  unfold handle_all. rewrite st_iter_app. cbn [fmap list_fmap recover_chunks].
  destruct (chunk_bytes g) as [| b bs] eqn:Eb.
  - assert (g.1 = []) as E0 by (by apply chunk_empty). rewrite E0 in E1. injection E1 as <- <-. by apply (IH _ _ _ _ Hgs' Hp E2).
  - rewrite <- Eb. st_step by (unfold st_lift; rewrite scan_chunk by done; reflexivity).
    cbn [vp_frames]. rewrite decode_entries_pending_ok, E1 by done.
    st_step by reflexivity. unfold mbind, st_bind.
    destruct (st_iter _ x s) as [[[] | |] s']; [| done | done]. by apply (IH _ _ _ _ Hgs' Hp1 E2).
Qed.

Lemma recover_chunks_bad {S} (handle : L -> Z -> ST ErrorCode S unit) gs : forall pending e p',
  Forall chunk_ok gs -> pending_ok pending ->
  decode_loop (concat (fst <$> gs)) pending = (Err e, p') ->
  exists gs1 gs2 es p1, gs = gs1 ++ gs2 /\ decode_loop (concat (fst <$> gs1)) pending = (Ok es, p1) /\
    forall s, recover_chunks handle pending (chunk_bytes <$> gs) s = (handle_all handle es ;; st_lift (Err e)) s.
Proof.
  induction gs as [| g gs IH]; intros pending e p' Hgs Hp Hd; [done |].
  inversion Hgs as [| ? ? Hg Hgs']; subst.
  change (concat (fst <$> g :: gs)) with (g.1 ++ concat (fst <$> gs)) in Hd.
  rewrite decode_loop_app in Hd. unfold mbind, st_bind, mret, st_ret in Hd.
  assert (chunk_bytes g <> [] -> forall s, recover_chunks handle pending (chunk_bytes <$> g :: gs) s =
    (let '(r, pending) := decode_loop g.1 pending in
     entries ← st_lift r;
     st_iter (fun '(start_lsn, entry) => handle entry start_lsn) entries ;; recover_chunks handle pending (chunk_bytes <$> gs)) s) as Hstep.
  { intros Hne s. rewrite fmap_cons. cbn [recover_chunks]. destruct (chunk_bytes g) as [| b bs] eqn:Eb; [done |]. rewrite <- Eb.
    st_step by (unfold st_lift; rewrite scan_chunk by done; reflexivity). cbn [vp_frames].
    by rewrite decode_entries_pending_ok. }
  destruct (decode_loop g.1 pending) as [[x | e1 |] p1] eqn:E1; [| | done].
  - destruct (decode_loop (concat (fst <$> gs)) p1) as [[y | |] p2] eqn:E2; [done | | done]. injection Hd as -> <-.
    destruct (IH p1 e p2 Hgs' (decode_loop_pending _ _ _ _ Hp E1) E2) as (gs1 & gs2 & es & p3 & -> & Ed & Hrec).
    exists (g :: gs1), gs2, (x ++ es), p3. split; [done |]. split.
    + change (concat (fst <$> g :: gs1)) with (g.1 ++ concat (fst <$> gs1)). rewrite decode_loop_app. st_step by exact E1. by st_step by exact Ed.
    + intros s. destruct (decide (chunk_bytes g = [])) as [Eb | Hne].
      * assert (g.1 = []) as E0 by (by apply chunk_empty). rewrite E0 in E1. injection E1 as <- <-.
        rewrite fmap_cons, Eb. cbn [recover_chunks app]. apply Hrec.
      * rewrite (Hstep Hne). unfold handle_all. unfold mbind, st_bind. rewrite st_iter_app. unfold mbind, st_bind. cbn [st_lift].
        destruct (st_iter _ x s) as [[[] | |] s']; [| done | done]. rewrite Hrec. done.
  - injection Hd as -> <-. exists [], (g :: gs), [], pending. split_and!; [done | done |]. intros s.
    assert (chunk_bytes g <> []) as Hne.
    { intros Eb. apply chunk_empty in Eb; [| done]. by rewrite Eb in E1. }
    by rewrite (Hstep Hne).
Qed.

Lemma frames_of_prefix parts : forall lsn left pre rest,
  frames_of lsn left parts = pre ++ rest ->
  exists p1 p2, parts = p1 ++ p2 /\ pre = frames_of lsn left p1 /\ zlen p2 = zlen rest.
Proof.
  induction parts as [| c parts IH]; intros lsn left pre rest E.
  { symmetry in E. apply app_eq_nil in E as [-> ->]. by exists [], []. }
  destruct pre as [| f pre].
  - exists [], (c :: parts). split_and!; [done | done |].
    cbn [app] in E. by rewrite <- E, frames_of_length.
  - cbn [frames_of app] in E. injection E as <- E.
    destruct (IH _ _ _ _ E) as (p1 & p2 & -> & -> & Hl). by exists (c :: p1), p2.
Qed.

Lemma frames_of_valid parts : forall lsn left,
  parts_ok lsn parts -> zlen parts <= left <= U32_MAX ->
  Forall valid_frame (frames_of lsn left parts) /\
  lsn_of <$> frames_of lsn left parts = seqZ lsn (zlen parts).
Proof.
  induction parts as [| c parts IH]; intros lsn left Hp Hl; [done |].
  destruct (parts_ok_cons _ _ _ Hp) as (Hp' & [Hq1 Hq2 Hq3] & _). rewrite zlen_cons in *.
  pose proof (zlen_nonneg parts). destruct (IH (lsn + 1) (left - 1) Hp' ltac:(lia)) as [IH1 IH2].
  assert (part_ok lsn (as_u32 (left - 1)) c) as Hc by (split; [done | apply as_u32_range | done]).
  cbn [frames_of]. split.
  - constructor; [by eexists _, _, _ | done].
  - rewrite fmap_cons, IH2, (seqZ_cons lsn) by lia. rewrite Z.add_1_r, Z.sub_1_r, Z.pred_succ || idtac.
    f_equal; [| f_equal; lia].
    unfold lsn_of, frame_lsn. by rewrite split_make_frame.
Qed.

Lemma entry_frames_valid lsn v :
  entry_ok lsn v ->
  Forall valid_frame (entry_frames lsn v) /\
  lsn_of <$> entry_frames lsn v = seqZ lsn (zlen (entry_frames lsn v)).
Proof.
  intros Hok. destruct (entry_parts_ok _ _ Hok) as (bs & _ & _ & _ & Hp & _).
  unfold entry_frames. rewrite frames_of_length. apply frames_of_valid; [done |].
  destruct Hp as (_ & _ & ? & _). lia.
Qed.

Lemma log_frames_valid vs : forall lsn,
  log_ok lsn vs ->
  Forall valid_frame (log_frames lsn vs) /\
  lsn_of <$> log_frames lsn vs = seqZ lsn (zlen (log_frames lsn vs)).
Proof.
  induction vs as [| v vs IH]; intros lsn Hok; [done |]. destruct Hok as [Hv Hvs].
  destruct (entry_frames_valid _ _ Hv) as [Hq1 Hq2]. destruct (IH _ Hvs) as [Hq3 Hq4].
  cbn [log_frames]. split; [by apply Forall_app |].
  rewrite fmap_app, Hq2, Hq4, zlen_app. pose proof (zlen_nonneg (entry_frames lsn v)).
  pose proof (zlen_nonneg (log_frames (lsn + zlen (entry_frames lsn v)) vs)).
  rewrite seqZ_app by lia. done.
Qed.

(** What a crash leaves of the frames of the entry being appended. *)
Definition unfinished (lsn : Z) (v : L) (pre : list (list byte)) : Prop :=
  exists rest, rest <> [] /\ entry_frames lsn v = pre ++ rest.

Lemma decode_unfinished lsn v pre s :
  entry_ok lsn v -> unfinished lsn v pre ->
  exists start, decode_loop (L := L) pre s = (Ok [], (s.1 ++ pre, start)).
Proof.
  destruct s as [pending start]. intros Hok (rest & Hr & E). destruct (entry_parts_ok _ _ Hok) as (bs & _ & _ & _ & Hp & _).
  destruct (frames_of_prefix _ _ _ _ _ E) as (p1 & p2 & Hp12 & -> & Hl).
  assert (0 < zlen p2)
    by (rewrite Hl; destruct rest; [done | rewrite zlen_cons; pose proof (zlen_nonneg rest); lia]).
  destruct Hp as (Hq1 & Hq2 & Hq3 & Hq4). rewrite Hp12, zlen_app in Hq2, Hq3 |- *.
  rewrite Hp12 in Hq4. apply Forall_app in Hq4 as [Hq4 _].
  apply decode_loop_unfinished; [| lia | done]. split_and!; [done | lia | lia | done].
Qed.

(** Frames of an entry behind the first frames of another one. *)
Lemma decode_loop_mixed lsn v pre rest lsn' u start :
  entry_ok lsn v -> entry_frames lsn v = pre ++ rest -> pre <> [] -> entry_ok lsn' u ->
  zlen (entry_frames lsn' u) <> zlen rest ->
  exists s, decode_loop (L := L) (entry_frames lsn' u) (pre, start) = (Err Decode, s).
Proof.
  intros Hv E Hpre Hu Hne. destruct (entry_parts_ok _ _ Hv) as (_ & _ & _ & _ & (Hv1 & Hv2 & Hv3 & Hv4) & _).
  destruct (entry_parts_ok _ _ Hu) as (_ & _ & _ & _ & (Hu1 & Hu2 & Hu3 & Hu4) & Hune & _).
  destruct (frames_of_prefix _ _ _ _ _ E) as (p1 & p2 & Hp & Epre & Hl). unfold entry_frames in Hne. rewrite frames_of_length in Hne.
  destruct (exists_last Hune) as (ps & c & Eu). rewrite Hp, zlen_app in Hv2, Hv3, Epre. rewrite Hp in Hv4.
  unfold entry_frames. set (q := zlen (entry_parts u)) in *. assert (q = zlen ps + 1) as Hq by (unfold q; by rewrite Eu, zlen_app).
  pose proof (zlen_nonneg ps). pose proof (zlen_nonneg p1). pose proof (zlen_nonneg p2). rewrite Eu in Hu4. apply Forall_app in Hu4 as [Hups Huc].
  inversion Huc as [| ? ? Hc _]; subst.
  rewrite Eu, frames_of_snoc, decode_loop_app.
  destruct (decode_loop_unfinished ps lsn' q (frames_of lsn (zlen p1 + zlen p2) p1) start) as [start' E1];
    [split_and!; [done | lia | lia | done] | lia | lia |].
  st_step by exact E1. replace (as_u32 (q - zlen ps - 1)) with 0 by (rewrite as_u32_small; mlia).
  eexists. apply st_bind_err. cbn [decode_loop].
  st_step by (unfold st_lift; rewrite split_make_frame by (split; [mlia | mlia | done]); reflexivity).
  st_step by reflexivity. cbv beta iota zeta. st_step by reflexivity. cbn [fst LogFrameHeader_new fh_n_part]. cbn [negb Z.eqb].
  apply st_bind_err. unfold st_lift. f_equal. unfold deserialize_entry.
  destruct p1 as [| c1 p1]; [done |]. rewrite zlen_cons in *. inversion Hv4 as [| ? ? Hc1 _]; subst.
  cbn [frames_of app deserialize_frames_payload]. cbn [join_parts].
  rewrite split_make_frame by (split; [mlia | apply as_u32_range | done]). cbn [mbind res_bind fst LogFrameHeader_new fh_n_part].
  match goal with |- context [negb ?b] => assert (b = false) as -> end; [| done].
  apply Z.eqb_neq. rewrite zlen_cons, !zlen_app, !frames_of_length. change (zlen [make_frame (lsn' + zlen ps) 0 c]) with 1.
  pose proof (zlen_nonneg p1). rewrite as_u32_small by mlia. unfold as_u32. intros Heq. unfold U32_MAX in *.
  assert ((q - zlen p2) mod 4294967296 = 0) as Hmod.
  { replace (q - zlen p2) with ((zlen p1 + zlen ps + 1 + 1 - 0 - 1) - (zlen p1 + 1 + zlen p2 - 1)) by lia.
    rewrite Zminus_mod. rewrite (Z.mod_small (zlen p1 + 1 + zlen p2 - 1)) by lia.
    replace ((zlen p1 + zlen ps + 1 + 1 - 0 - 1) mod 4294967296) with (zlen p1 + 1 + zlen p2 - 1) by lia. by rewrite Z.sub_diag. }
  apply Z.mod_divide in Hmod as [d Hd]; [| lia]. lia.
Qed.

(** The entries that a prefix of the frames yields when they go wrong at the
    entry [u]. *)
Lemma decode_prefix X es p lsn u Z A B s es' p' :
  entry_ok lsn u -> decode_loop (L := L) X s = (Ok es, p) ->
  (exists p'', decode_loop (L := L) (entry_frames lsn u) p = (Err Decode, p'')) ->
  A ++ B = X ++ entry_frames lsn u ++ Z -> decode_loop (L := L) A s = (Ok es', p') -> es' `prefix_of` es.
Proof.
  intros Hu EX (p'' & Ebad) E EA. apply app_eq_app in E as (l & [[-> E] | [-> E]]).
  - rewrite decode_loop_app in EA. unfold mbind, st_bind in EA. rewrite EX in EA.
    apply app_eq_app in E as (l2 & [[E ->] | [-> E]]).
    + destruct l2 as [| f l2].
      * rewrite app_nil_r in E. subst l. by rewrite Ebad in EA.
      * destruct (decode_unfinished lsn u l p Hu) as [st Eun]; [by exists (f :: l2) |]. rewrite Eun in EA.
        injection EA as <- _. by rewrite app_nil_r.
    + rewrite decode_loop_app in EA. unfold mbind, st_bind in EA. by rewrite Ebad in EA.
  - rewrite decode_loop_app in EX. unfold mbind, st_bind in EX. rewrite EA in EX.
    destruct (decode_loop l p') as [[y | |] ?]; [| done | done]. injection EX as <- _. by exists y.
Qed.

Lemma max_lsn_fold l : forall m,
  match fold_left max_lsn_with l None with Some x => max_lsn_with m x | None => m end
  = fold_left max_lsn_with l m.
Proof.
  induction l as [| x l IH] using rev_ind; intros m; [done |].
  rewrite !fold_left_app. cbn [fold_left]. rewrite <- (IH m).
  destruct (fold_left max_lsn_with l None) as [y |]; [| done].
  unfold max_lsn_with. destruct m; f_equal; lia.
Qed.

Lemma scan_max_lsn_chunks gs : forall m,
  Forall chunk_ok gs ->
  scan_max_lsn m (chunk_bytes <$> gs) =
    Ok (fold_left max_lsn_with (lsn_of <$> concat (fst <$> gs)) m).
Proof.
  induction gs as [| g gs IH]; intros m Hgs; [done |].
  inversion Hgs as [| ? ? Hg Hgs']; subst.
  change (concat (fst <$> g :: gs)) with (g.1 ++ concat (fst <$> gs)).
  rewrite fmap_app, fold_left_app. cbn [fmap list_fmap scan_max_lsn]. rewrite scan_chunk by done.
  cbn [mbind res_bind vp_max_lsn]. rewrite max_lsn_fold. by apply IH.
Qed.

Lemma max_lsn_seqZ n : forall lsn m,
  0 < n -> match m with Some x => x < lsn + n | None => True end ->
  fold_left max_lsn_with (seqZ lsn n) m = Some (lsn + n - 1).
Proof.
  intros lsn m Hn. replace n with (Z.of_nat (Z.to_nat n)) in * by lia.
  revert lsn m Hn. induction (Z.to_nat n) as [| k IH]; intros lsn m Hn Hm; [lia |].
  rewrite seqZ_cons by lia. cbn [fold_left].
  replace (Z.pred (Z.of_nat (S k))) with (Z.of_nat k) by lia.
  destruct k as [| k].
  - change (seqZ (Z.succ lsn) (Z.of_nat 0)) with (@nil Z). cbn [fold_left].
    unfold max_lsn_with. destruct m; f_equal; lia.
  - rewrite IH; [f_equal; lia | lia | unfold max_lsn_with; destruct m; lia].
Qed.

Lemma frames_of_size parts : forall lsn left,
  Forall (fun c => zlen c <= max_payload) parts ->
  Forall (fun f => f <> [] /\ zlen f <= max_part_size) (frames_of lsn left parts).
Proof.
  induction parts as [| c parts IH]; intros lsn left Hp; [by constructor |].
  inversion Hp as [| ? ? Hc Hp']; subst. cbn [frames_of]. constructor; [| by apply IH].
  pose proof (make_frame_length lsn (as_u32 (left - 1)) c) as Hl. pose proof (zlen_nonneg c).
  unfold max_payload in Hc. split; [| lia].
  intros E. rewrite E in Hl. change (zlen (@nil byte)) with 0 in Hl.
  unfold LOG_FRAME_HEADER_SIZE, LOG_FRAME_TAILER_SIZE in *. lia.
Qed.

(** No frame is longer than the limit. *)
Lemma entry_frames_size lsn v :
  Forall (fun f => f <> [] /\ zlen f <= max_part_size) (entry_frames lsn v).
Proof.
  apply frames_of_size. unfold entry_parts. destruct (to_vec v) as [bs |]; [| by constructor].
  apply chunks_spec; [| done].
  unfold max_payload, LOG_FRAME_HEADER_SIZE, LOG_FRAME_TAILER_SIZE in *. lia.
Qed.

Lemma frame_lsns_valid fs :
  Forall valid_frame fs -> frame_lsns fs = Ok (lsn_of <$> fs).
Proof.
  induction 1 as [| f fs Hf _ IH]; [done |]. unfold frame_lsns in *. cbn [mapM].
  destruct (valid_frame_split f Hf) as (p & Hp & Hl).
  assert (frame_lsn f = Ok (lsn_of f)) as -> by (unfold frame_lsn; by rewrite Hp, Hl).
  cbn [mbind res_bind]. by rewrite IH.
Qed.

Lemma log_ok_app vs us : forall lsn,
  log_ok lsn (vs ++ us) ->
  log_ok lsn vs /\ log_ok (lsn + zlen (log_frames lsn vs)) us.
Proof.
  induction vs as [| v vs IH]; intros lsn Hok.
  { cbn [log_frames]. change (zlen (@nil (list byte))) with 0. by rewrite Z.add_0_r. }
  destruct Hok as [Hv Hvs]. destruct (IH _ Hvs) as [Hq1 Hq2]. cbn [log_frames log_ok].
  rewrite zlen_app, Z.add_assoc. done.
Qed.

Lemma log_frames_pos lsn vs : log_ok lsn vs -> vs <> [] -> 0 < zlen (log_frames lsn vs).
Proof.
  intros Hok Hne. destruct vs as [| v vs]; [done |]. destruct Hok as [Hv _].
  destruct (entry_parts_ok _ _ Hv) as (bs & _ & _ & _ & _ & Hp & _). cbn [log_frames].
  rewrite zlen_app. unfold entry_frames at 1. rewrite frames_of_length.
  match goal with |- context [zlen (log_frames ?l vs)] => pose proof (zlen_nonneg (log_frames l vs)) end.
  destruct (entry_parts v) as [| c cs]; [done |]. rewrite zlen_cons. pose proof (zlen_nonneg cs). lia.
Qed.

End entries.

Lemma log_frames_app {L} `{Packages} `{Msgpack L} cs (vs us : list L) : forall lsn,
  log_frames cs lsn (vs ++ us) =
    log_frames cs lsn vs ++ log_frames cs (lsn + zlen (log_frames cs lsn vs)) us /\
  log_entries cs lsn (vs ++ us) =
    log_entries cs lsn vs ++ log_entries cs (lsn + zlen (log_frames cs lsn vs)) us.
Proof.
  induction vs as [| v vs IH]; intros lsn.
  { cbn [app log_frames log_entries]. change (zlen (@nil (list byte))) with 0. by rewrite Z.add_0_r. }
  cbn [app log_frames log_entries]. destruct (IH (lsn + zlen (entry_frames cs lsn v))) as [-> ->].
  rewrite zlen_app, Z.add_assoc, app_assoc. done.
Qed.

Lemma log_ok_snoc {L} `{Packages} `{Msgpack L} cs (vs : list L) v : forall lsn,
  log_ok cs lsn vs -> entry_ok cs (lsn + zlen (log_frames cs lsn vs)) v -> log_ok cs lsn (vs ++ [v]).
Proof.
  induction vs as [| u vs IH]; intros lsn Hok Hv.
  { cbn [log_frames] in Hv. change (zlen (@nil (list byte))) with 0 in Hv. rewrite Z.add_0_r in Hv. by split. }
  destruct Hok as [Hu Hvs]. cbn [app log_ok]. split; [done |]. apply IH; [done |].
  cbn [log_frames] in Hv. by rewrite zlen_app, Z.add_assoc in Hv.
Qed.
