(* ===== verification/WalBackend.v ===== *)
(** * The worker log backend

    [wal/worker_wal_backend/]: the chunk files of a log and their tail
    ([layout.rs]), the reservation of file ranges ([state.rs]), the queue of
    group commits, the flush rounds and the durability watermark
    ([flush.rs], [backend.rs]).

    A chunk path is its sequence number; [chunk_path] is injective for the
    files of one log.  The chunk files are a map from sequence numbers to
    bytes, kept twice: as the processes see them and as the last [fsync] of
    each file left them.  Instants and durations are nanoseconds, the current
    instant is an argument.  The three ways of issuing the writes of a round
    (pwrite, io_uring, tokio) have one model; file handles are not modelled,
    and a file operation does not fail. *)

From S2P Require Import Prelude Errors Compat FileOps LogFrame.

(** ** Layout and tail *)

Record WorkerLogBatching := mkWorkerLogBatching {
  bt_trigger_bytes : Z;
  bt_trigger_frames : Z;
  bt_max_wait : Z;
  bt_max_batch_bytes : Z;
  bt_sessions_per_step : Z;
  bt_bytes_per_step : Z;
  bt_frames_per_step : Z;
  bt_max_trigger_bytes : Z;
  bt_max_trigger_frames : Z;
}.

Definition WorkerLogBatching_new (trigger_bytes trigger_frames max_wait max_batch_bytes : Z)
    : WorkerLogBatching :=
  mkWorkerLogBatching trigger_bytes trigger_frames max_wait max_batch_bytes
    8 (32 * 1024) 16 (512 * 1024) 256.

Definition WorkerLogBatching_default : WorkerLogBatching :=
  WorkerLogBatching_new (64 * 1024) 32 200000 (256 * 1024).

Inductive WalSyncPolicy := Commit | Periodic (interval : Z).

Record WorkerLogTail := mkWorkerLogTail {
  tl_current_sequence : option Z;
  tl_current_size : Z;
  tl_next_sequence : Z;
  tl_next_lsn : Z;
}.

(** [SMutex<ChunkedWorkerLog>]; the layout is its chunk size here. *)
Record ChunkedWorkerLog := mkChunkedWorkerLog {
  cl_chunk_size : Z;
  cl_current_sequence : option Z;
  cl_current_size : Z;
  cl_next_sequence : Z;
}.

Record AppendReservation := mkAppendReservation {
  ar_path : Z;
  ar_offset : Z;
  ar_flush_after_write : bool;
}.

Record EffectiveBatching := mkEffectiveBatching {
  eb_trigger_bytes : Z;
  eb_trigger_frames : Z;
  eb_max_wait : Z;
  eb_max_batch_bytes : Z;
}.

Record QueuedLogBatch := mkQueuedLogBatch {
  qb_frames : list (list byte);
  qb_lsns : list Z;
  qb_bytes : Z;
  qb_enqueued_at : Z;
  qb_force_flush : bool;
}.

Record MergedWrite := mkMergedWrite { mw_path : Z; mw_offset : Z; mw_payload : list byte }.

Record PreparedFlushBatch := mkPreparedFlushBatch {
  pf_writes : list MergedWrite;
  pf_flush_paths : list Z;
  pf_ready_lsns : list Z;
}.

(** The watermark; the heap of ready LSNs is the list of its elements in
    the order in which it pops them. *)
Record WaitLsn := mkWaitLsn { wl_next_wait_lsn : Z; wl_ready_lsns : list Z }.

(** [WorkerLogInner] and the files. *)
Record WorkerWALBackend := mkWorkerWALBackend {
  wb_log : ChunkedWorkerLog;
  wb_queue : list QueuedLogBatch;
  wb_batching : WorkerLogBatching;
  wb_sync_policy : WalSyncPolicy;
  wb_active_sessions : Z;
  wb_next_lsn : Z;
  wb_flush_waiter : WaitLsn;
  wb_flush_rounds : Z;
  wb_unsynced_paths : gset Z;
  wb_files : gmap Z (list byte);
  wb_synced : gmap Z (list byte);
}.

Definition set_log x s := mkWorkerWALBackend x (wb_queue s) (wb_batching s) (wb_sync_policy s)
  (wb_active_sessions s) (wb_next_lsn s) (wb_flush_waiter s) (wb_flush_rounds s)
  (wb_unsynced_paths s) (wb_files s) (wb_synced s).
Definition set_queue x s := mkWorkerWALBackend (wb_log s) x (wb_batching s) (wb_sync_policy s)
  (wb_active_sessions s) (wb_next_lsn s) (wb_flush_waiter s) (wb_flush_rounds s)
  (wb_unsynced_paths s) (wb_files s) (wb_synced s).
Definition set_next_lsn x s := mkWorkerWALBackend (wb_log s) (wb_queue s) (wb_batching s)
  (wb_sync_policy s) (wb_active_sessions s) x (wb_flush_waiter s) (wb_flush_rounds s)
  (wb_unsynced_paths s) (wb_files s) (wb_synced s).
Definition set_flush_waiter x s := mkWorkerWALBackend (wb_log s) (wb_queue s) (wb_batching s)
  (wb_sync_policy s) (wb_active_sessions s) (wb_next_lsn s) x (wb_flush_rounds s)
  (wb_unsynced_paths s) (wb_files s) (wb_synced s).
Definition set_flush_rounds x s := mkWorkerWALBackend (wb_log s) (wb_queue s) (wb_batching s)
  (wb_sync_policy s) (wb_active_sessions s) (wb_next_lsn s) (wb_flush_waiter s) x
  (wb_unsynced_paths s) (wb_files s) (wb_synced s).
Definition set_unsynced x s := mkWorkerWALBackend (wb_log s) (wb_queue s) (wb_batching s)
  (wb_sync_policy s) (wb_active_sessions s) (wb_next_lsn s) (wb_flush_waiter s)
  (wb_flush_rounds s) x (wb_files s) (wb_synced s).
Definition set_files x s := mkWorkerWALBackend (wb_log s) (wb_queue s) (wb_batching s)
  (wb_sync_policy s) (wb_active_sessions s) (wb_next_lsn s) (wb_flush_waiter s)
  (wb_flush_rounds s) (wb_unsynced_paths s) x (wb_synced s).
Definition set_synced x s := mkWorkerWALBackend (wb_log s) (wb_queue s) (wb_batching s)
  (wb_sync_policy s) (wb_active_sessions s) (wb_next_lsn s) (wb_flush_waiter s)
  (wb_flush_rounds s) (wb_unsynced_paths s) (wb_files s) x.

Notation WAL := (ST ErrorCode WorkerWALBackend).

(** ** Reservations *)

Definition ChunkedWorkerLog_new (chunk_size : Z) (tail : WorkerLogTail) : ChunkedWorkerLog :=
  mkChunkedWorkerLog chunk_size (tl_current_sequence tail) (tl_current_size tail)
    (tl_next_sequence tail).

Definition reserve_append (payload_len : Z) : ST ErrorCode ChunkedWorkerLog AppendReservation :=
  s ← st_get;
  if payload_len =? 0 then
    mret (mkAppendReservation (default (cl_next_sequence s) (cl_current_sequence s))
            (cl_current_size s) false)
  else if cl_chunk_size s <? payload_len then
    next ← st_lift (uadd (cl_next_sequence s) 1);
    st_put (mkChunkedWorkerLog (cl_chunk_size s) None 0 next) ;;
    mret (mkAppendReservation (cl_next_sequence s) 0 true)
  else
    fresh ← st_lift (match cl_current_sequence s with
                     | None => Ok true
                     | Some _ => sum ← uadd (cl_current_size s) payload_len;
                                 Ok (cl_chunk_size s <? sum)
                     end);
    s ← (if fresh : bool then
           next ← st_lift (uadd (cl_next_sequence s) 1);
           mret (mkChunkedWorkerLog (cl_chunk_size s) (Some (cl_next_sequence s)) 0 next)
         else mret s);
    sequence ← st_lift (match cl_current_sequence s with Some q => Ok q | None => Panic end);
    size ← st_lift (uadd (cl_current_size s) payload_len);
    st_put (if cl_chunk_size s <=? size
            then mkChunkedWorkerLog (cl_chunk_size s) None 0 (cl_next_sequence s)
            else mkChunkedWorkerLog (cl_chunk_size s) (cl_current_sequence s) size
                   (cl_next_sequence s)) ;;
    mret (mkAppendReservation sequence (cl_current_size s) false).

(** A call on the locked [state]. *)
Definition on_log {A} (m : ST ErrorCode ChunkedWorkerLog A) : WAL A :=
  fun s => let '(r, log) := m (wb_log s) in (r, set_log log s).

Definition reserve_appends (payload : list (list byte)) : WAL (list AppendReservation) :=
  on_log (st_map (fun frame => reserve_append (zlen frame)) payload).

(** ** The durability watermark *)

(** The loop of [ready] that pops the LSNs at or below the watermark. *)
Fixpoint pop_ready (heap : list Z) (next_wait_lsn : Z) : list Z * Z :=
  match heap with
  | [] => ([], next_wait_lsn)
  | top :: rest =>
      if top <? next_wait_lsn then pop_ready rest next_wait_lsn
      else if negb (top =? next_wait_lsn) then (heap, next_wait_lsn)
      else pop_ready rest (saturating_add next_wait_lsn 1)
  end.

Definition ready (lsns : list Z) (w : WaitLsn) : WaitLsn :=
  match lsns with
  | [] => w
  | _ =>
      let heap := fold_left (fun heap lsn => insert_stable Z.leb lsn heap) lsns (wl_ready_lsns w) in
      let '(heap, next) := pop_ready heap (wl_next_wait_lsn w) in
      mkWaitLsn next heap
  end.

(** Whether [wait_advanced] returns. *)
Definition advanced (target : Z) (w : WaitLsn) : bool := target <? wl_next_wait_lsn w.

Definition complete_persisted_lsns (lsns : list Z) : WAL unit :=
  st_modify (fun s => set_flush_waiter (ready lsns (wb_flush_waiter s)) s).

(** ** Batching *)

Definition effective_batching (s : WorkerWALBackend) : EffectiveBatching :=
  let cfg := wb_batching s in
  match wb_sync_policy s with
  | Periodic _ =>
      mkEffectiveBatching (bt_trigger_bytes cfg) (bt_trigger_frames cfg) 0
        (Z.max (bt_max_batch_bytes cfg) (bt_trigger_bytes cfg))
  | Commit =>
      let steps := if bt_sessions_per_step cfg =? 0 then 0
                   else wb_active_sessions s / bt_sessions_per_step cfg in
      let trigger_bytes :=
        Z.min (saturating_add (bt_trigger_bytes cfg)
                 (Z.min (steps * bt_bytes_per_step cfg) U64_MAX))
              (Z.max (bt_max_trigger_bytes cfg) (bt_trigger_bytes cfg)) in
      let trigger_frames :=
        Z.min (saturating_add (bt_trigger_frames cfg)
                 (Z.min (steps * bt_frames_per_step cfg) U64_MAX))
              (Z.max (bt_max_trigger_frames cfg) (bt_trigger_frames cfg)) in
      let max_wait :=
        Z.max (Z.min (bt_max_wait cfg * 2 ^ (Z.min steps 6 - (if 0 <? steps then 1 else 0)))
                     5000000)
              (bt_max_wait cfg) in
      mkEffectiveBatching trigger_bytes trigger_frames max_wait
        (Z.max (bt_max_batch_bytes cfg) trigger_bytes)
  end.

Definition sum_Z (l : list Z) : Z := fold_right Z.add 0 l.

Definition should_start_flush (now : Z) (queue : list QueuedLogBatch) (b : EffectiveBatching)
    : bool :=
  match queue with
  | [] => false
  | _ =>
      (eb_trigger_bytes b <=? sum_Z (qb_bytes <$> queue)) ||
      (eb_trigger_frames b <=? sum_Z ((fun q => zlen (qb_frames q)) <$> queue)) ||
      existsb (fun q => qb_force_flush q || (eb_max_wait b <=? Z.max (now - qb_enqueued_at q) 0))
        queue
  end.

(** The loop of [drain_pending_batches] that finds [split_at]. *)
Fixpoint drain_count (max_batch_bytes total_bytes split_at : Z) (queue : list QueuedLogBatch) : Z :=
  match queue with
  | [] => split_at
  | batch :: queue =>
      let total := saturating_add total_bytes (qb_bytes batch) in
      if (0 <? split_at) && (max_batch_bytes <? total) then split_at
      else drain_count max_batch_bytes total (split_at + 1) queue
  end.

Definition drain_pending_batches (b : EffectiveBatching) : WAL (list QueuedLogBatch) :=
  s ← st_get;
  match wb_queue s with
  | [] => mret []
  | queue =>
      let split_at := drain_count (eb_max_batch_bytes b) 0 0 queue in
      let split_at := if split_at =? 0 then 1 else split_at in
      st_put (set_queue (drop (Z.to_nat split_at) queue) s) ;;
      mret (take (Z.to_nat split_at) queue)
  end.

(** ** Flush rounds *)

(** One step of [merge_reserved_writes]; [merged] ends with the last write. *)
Definition merge_write (merged : list MergedWrite) (rf : AppendReservation * list byte)
    : list MergedWrite :=
  let '(r, frame) := rf in
  match last merged with
  | Some w =>
      if (mw_path w =? ar_path r) && (mw_offset w + zlen (mw_payload w) =? ar_offset r)
      then removelast merged ++ [mkMergedWrite (mw_path w) (mw_offset w) (mw_payload w ++ frame)]
      else merged ++ [mkMergedWrite (ar_path r) (ar_offset r) frame]
  | None => merged ++ [mkMergedWrite (ar_path r) (ar_offset r) frame]
  end.

Definition merge_reserved_writes (rs : list AppendReservation) (payload : list (list byte))
    : list MergedWrite :=
  fold_left merge_write (zip rs payload) [].

Definition collect_flush_paths (rs : list AppendReservation) : list Z :=
  fold_left (fun paths r => if bool_decide (ar_path r ∈ paths) then paths else paths ++ [ar_path r])
    rs [].

Definition prepare_flush_batch (pending : list QueuedLogBatch) : WAL PreparedFlushBatch :=
  let frames := concat (qb_frames <$> pending) in
  let lsns := concat (qb_lsns <$> pending) in
  reservations ← reserve_appends frames;
  mret (mkPreparedFlushBatch (merge_reserved_writes reservations frames)
          (collect_flush_paths reservations) lsns).

(** [write_all_at] of the file at a path, created when it is missing. *)
Definition write_file (path offset : Z) (payload : list byte) : WAL unit :=
  fun s =>
    let '(r, file) := write_all_at offset payload (default [] (wb_files s !! path)) in
    (r, set_files (<[path := file]> (wb_files s)) s).

Definition fsync_file (path : Z) : WAL unit :=
  st_modify (fun s =>
    let file := default [] (wb_files s !! path) in
    set_synced (<[path := file]> (wb_synced s)) (set_files (<[path := file]> (wb_files s)) s)).

(** The fsyncs of a round: the LSNs are reported after the last one. *)
Fixpoint fsync_paths (ready_lsns : list Z) (paths : list Z) : WAL unit :=
  match paths with
  | [] => mret tt
  | path :: rest =>
      fsync_file path ;;
      (match rest with [] => complete_persisted_lsns ready_lsns | _ => mret tt end) ;;
      fsync_paths ready_lsns rest
  end.

Definition execute_flush_batch (prepared : PreparedFlushBatch) : WAL unit :=
  match pf_writes prepared with
  | [] => mret tt
  | writes =>
      st_iter (fun w => write_file (mw_path w) (mw_offset w) (mw_payload w)) writes ;;
      s ← st_get;
      match wb_sync_policy s with
      | Periodic _ =>
          complete_persisted_lsns (pf_ready_lsns prepared) ;;
          st_modify (fun s =>
            set_unsynced (wb_unsynced_paths s ∪ list_to_set (pf_flush_paths prepared)) s)
      | Commit => fsync_paths (pf_ready_lsns prepared) (pf_flush_paths prepared)
      end
  end.

(** [run_flush_log]; a round drains at least one batch, so one round more
    than the queue is long is enough fuel. *)
Fixpoint run_flush_rounds (fuel : nat) : WAL unit :=
  match fuel with
  | O => st_lift Panic
  | S fuel =>
      s ← st_get;
      pending ← drain_pending_batches (effective_batching s);
      match pending with
      | [] => mret tt
      | _ =>
          prepared ← prepare_flush_batch pending;
          execute_flush_batch prepared ;;
          st_modify (fun s => set_flush_rounds
            ((wb_flush_rounds s + 1) mod 18446744073709551616) s) ;;
          run_flush_rounds fuel
      end
  end.

Definition run_flush_log : WAL unit :=
  fun s => run_flush_rounds (S (length (wb_queue s))) s.

Definition flush_pending_batches (now : Z) : WAL unit :=
  s ← st_get;
  match wb_queue s with
  | [] => mret tt
  | queue => if should_start_flush now queue (effective_batching s) then run_flush_log else mret tt
  end.

(** The paths are taken; without failures every one of them is fsynced. *)
Definition fsync_unsynced_paths : WAL unit :=
  s ← st_get;
  st_put (set_unsynced ∅ s) ;;
  st_iter fsync_file (elements (wb_unsynced_paths s)).

(** ** Appending *)

Definition enqueue_group_commit (now : Z) (frames : list (list byte)) (lsns : list Z)
    (force_flush : bool) : WAL Z :=
  match frames with
  | [] => st_lift (Err Internal)
  | _ =>
      if negb (zlen frames =? zlen lsns) then st_lift (Err Internal) else
      last_lsn ← st_lift (match last lsns with Some l => Ok l | None => Panic end);
      st_modify (fun s => set_queue (wb_queue s ++
        [mkQueuedLogBatch frames lsns (sum_Z (zlen <$> frames)) now force_flush]) s) ;;
      mret last_lsn
  end.

Section backend.
Context `{Packages}.

Definition backend_serialize_entry {L} `{Msgpack L} (entry : L) : WAL (list (list byte)) :=
  fun s =>
    let '(r, next) := serialize_entry entry (cl_chunk_size (wb_log s)) (wb_next_lsn s) in
    (r, set_next_lsn next s).

(** [append_entry_group_commit] up to the wait: what a committing task does
    before it drives the flush. *)
Definition enqueue_entry {L} `{Msgpack L} (now : Z) (entry : L) : WAL Z :=
  frames ← backend_serialize_entry entry;
  lsns ← st_lift (frame_lsns frames);
  enqueue_group_commit now frames lsns true.

Definition append_raw (payload : list byte) : WAL unit :=
  match payload with
  | [] => mret tt
  | _ =>
      r ← on_log (reserve_append (zlen payload));
      write_file (ar_path r) (ar_offset r) payload ;;
      if ar_flush_after_write r then fsync_file (ar_path r) else mret tt
  end.

Definition append_frames_async (frames : list (list byte)) : WAL unit :=
  lsns ← st_lift (frame_lsns frames);
  fun s =>
    let '(write_result, s) := st_iter append_raw frames s in
    let '(r, s) := complete_persisted_lsns lsns s in
    (r ;; write_result, s).

(** [flush] and [flush_async]. *)
Definition flush_current : WAL unit :=
  s ← st_get;
  match cl_current_sequence (wb_log s) with
  | Some path => fsync_file path
  | None => mret tt
  end.

(** ** Restart *)

(** [chunk_sequences_async]: the chunks from 0 up to the first gap; more
    rounds than there are files are not needed. *)
Fixpoint chunk_sequences (fuel : nat) (sequence : Z) (files : gmap Z (list byte)) : RS (list Z) :=
  match files !! sequence with
  | None => Ok []
  | Some _ =>
      match fuel with
      | O => Panic
      | S fuel =>
          rest ← chunk_sequences fuel (saturating_add sequence 1) files;
          Ok (sequence :: rest)
      end
  end.

Definition chunk_sequences_async (files : gmap Z (list byte)) : RS (list Z) :=
  chunk_sequences (size files) 0 files.

(** The loop of [scan_tail_async] over the chunks: it truncates a corrupt
    tail and returns the largest LSN and the size of chunk [last]. *)
Fixpoint scan_chunks (last : Z) (sequences : list Z) (max_lsn : option Z) (tail_size : Z)
    : ST ErrorCode (gmap Z (list byte)) (option Z * Z) :=
  match sequences with
  | [] => mret (max_lsn, tail_size)
  | sequence :: rest =>
      files ← st_get;
      bytes ← st_lift (match files !! sequence with Some b => Ok b | None => Err EntityNotFound end);
      prefix ← st_lift (scan_valid_frame_prefix bytes);
      (if vp_corrupt prefix
       then st_put (<[sequence := bytes.[0, vp_valid_len prefix]]> files) else mret tt) ;;
      let size := if vp_corrupt prefix then vp_valid_len prefix else zlen bytes in
      scan_chunks last rest
        (match vp_max_lsn prefix with Some l => max_lsn_with max_lsn l | None => max_lsn end)
        (if sequence =? last then size else tail_size)
  end.

Definition scan_tail_async (chunk_size : Z) : ST ErrorCode (gmap Z (list byte)) WorkerLogTail :=
  files ← st_get;
  sequences ← st_lift (chunk_sequences_async files);
  match last sequences with
  | None => mret (mkWorkerLogTail None 0 0 0)
  | Some sequence =>
      p ← scan_chunks sequence sequences None 0;
      let '(max_lsn, tail_size) := p in
      let next_lsn := match max_lsn with Some l => saturating_add l 1 | None => 0 end in
      next_sequence ← st_lift (uadd sequence 1);
      mret (if tail_size <? chunk_size
            then mkWorkerLogTail (Some sequence) tail_size next_sequence next_lsn
            else mkWorkerLogTail None 0 next_sequence next_lsn)
  end.

(** [from_tail], after a power loss: the files are what is on the disk. *)
Definition from_tail (chunk_size : Z) (batching : WorkerLogBatching) (policy : WalSyncPolicy)
    (files : gmap Z (list byte)) (tail : WorkerLogTail) : WorkerWALBackend :=
  mkWorkerWALBackend (ChunkedWorkerLog_new chunk_size tail) [] batching policy 0
    (tl_next_lsn tail) (mkWaitLsn (tl_next_lsn tail) []) 0 ∅ files files.

Definition WorkerWALBackend_new (chunk_size : Z) (batching : WorkerLogBatching)
    (policy : WalSyncPolicy) (files : gmap Z (list byte)) : RS WorkerWALBackend :=
  match scan_tail_async chunk_size files with
  | (Ok tail, files) => Ok (from_tail chunk_size batching policy files tail)
  | (Err e, _) => Err e
  | (Panic, _) => Panic
  end.

(** [chunk_paths_sorted_async]. *)
Definition chunk_paths_sorted (files : gmap Z (list byte)) : list Z :=
  sort_stable Z.leb (fst <$> map_to_list files).

(** [TypedWorkerLog::recover] on the files of the log. *)
Definition recover_files {L S} `{Msgpack L} (handle : L -> Z -> ST ErrorCode S unit)
    (finish : ST ErrorCode S unit) (files : gmap Z (list byte)) : ST ErrorCode S unit :=
  recover handle finish ((fun path => default [] (files !! path)) <$> chunk_paths_sorted files).

End backend.
