(* ===== verification/WalDurability.v ===== *)
(** * The worker log backend: order, durability, restart

    The chunk files hold the queued frames in the order of the queue, a
    frame whose LSN is reported is on the synced files, the watermark is the
    first LSN that is not reported, and a restart resumes behind the valid
    frames. *)

From stdpp Require Import sorting.
From S2P Require Import Prelude Errors Compat FileOps LogFrame WalFrames WalBackend.

(** ** The watermark *)

Lemma insert_stable_elem x y (l : list Z) :
  y ∈ insert_stable Z.leb x l <-> y = x \/ y ∈ l.
Proof.
  induction l as [| z l IH]; cbn; [set_solver |].
  destruct (x <=? z); set_solver.
Qed.

Lemma insert_stable_sorted x (l : list Z) :
  StronglySorted Z.le l -> StronglySorted Z.le (insert_stable Z.leb x l).
Proof.
  induction 1 as [| z l Hl IH Hz]; cbn [insert_stable]; [by repeat constructor |].
  destruct (Z.leb_spec x z).
  - constructor; [by constructor |]. constructor; [done |].
    eapply Forall_impl; [exact Hz |]. cbn. lia.
  - constructor; [done |]. apply Forall_forall. intros y [-> | Hy]%insert_stable_elem; [lia |].
    rewrite Forall_forall in Hz. by apply Hz.
Qed.

Definition push_all (lsns heap : list Z) : list Z :=
  fold_left (fun heap lsn => insert_stable Z.leb lsn heap) lsns heap.

Lemma push_all_spec lsns : forall heap,
  StronglySorted Z.le heap ->
  StronglySorted Z.le (push_all lsns heap) /\
  forall y, y ∈ push_all lsns heap <-> y ∈ lsns \/ y ∈ heap.
Proof.
  induction lsns as [| x lsns IH]; intros heap Hs; cbn; [split; [done | set_solver] |].
  destruct (IH _ (insert_stable_sorted x heap Hs)) as [H1 H2]. split; [done |].
  intros y. unfold push_all in H2. rewrite H2, insert_stable_elem. set_solver.
Qed.

Lemma pop_ready_spec heap : forall next heap' next',
  StronglySorted Z.le heap -> Forall (fun l => l < U64_MAX) heap ->
  pop_ready heap next = (heap', next') ->
  next <= next' /\ StronglySorted Z.le heap' /\
  (forall l, next <= l < next' -> l ∈ heap) /\
  (forall l, l ∈ heap -> l < next' \/ l ∈ heap') /\
  (forall l, l ∈ heap' -> l ∈ heap /\ next' < l).
Proof.
  induction heap as [| top rest IH]; intros next heap' next' Hs Hb; cbn [pop_ready].
  { intros [= <- <-]. split_and!; [lia | constructor | lia | set_solver | set_solver]. }
  inversion Hs as [| ? ? Hs' Htop]; subst. inversion Hb as [| ? ? Ht Hb']; subst.
  rewrite Forall_forall in Htop.
  destruct (Z.ltb_spec top next) as [Hlt | Hge].
  - intros E. destruct (IH _ _ _ Hs' Hb' E) as (H1 & H2 & H3 & H4 & H5).
    split_and!; [done | done | set_solver | | set_solver].
    intros l [-> | Hl]%elem_of_cons; [left; lia | by apply H4].
  - destruct (Z.eqb_spec top next) as [-> | Hne]; cbn [negb].
    + assert (saturating_add next 1 = next + 1) as -> by (unfold saturating_add; lia).
      intros E. destruct (IH _ _ _ Hs' Hb' E) as (H1 & H2 & H3 & H4 & H5).
      split_and!; [lia | done | | | set_solver].
      * intros l Hl. destruct (decide (l = next)) as [-> |]; [set_solver |].
        apply elem_of_cons. right. apply H3. lia.
      * intros l [-> | Hl]%elem_of_cons; [left; lia | by apply H4].
    + intros [= <- <-]. split_and!; [lia | done | lia | set_solver |].
      intros l Hl. split; [done |].
      apply elem_of_cons in Hl as [-> | Hl]; [lia | specialize (Htop _ Hl); lia].
Qed.

(** The watermark after the LSNs [R] were reported to a waiter that started
    at [base]. *)
Record wait_inv (base : Z) (R : list Z) (w : WaitLsn) : Prop := mk_wait_inv {
  wi_base : base <= wl_next_wait_lsn w;
  wi_sorted : StronglySorted Z.le (wl_ready_lsns w);
  wi_below : forall l, base <= l < wl_next_wait_lsn w -> l ∈ R;
  wi_reported : forall l, l ∈ R -> l < wl_next_wait_lsn w \/ l ∈ wl_ready_lsns w;
  wi_ready : forall l, l ∈ wl_ready_lsns w -> l ∈ R /\ wl_next_wait_lsn w < l;
}.

Lemma wait_inv_new base : wait_inv base [] (mkWaitLsn base []).
Proof. split; cbn; [lia | constructor | lia | set_solver | set_solver]. Qed.

Lemma ready_inv base R w lsns :
  wait_inv base R w -> Forall (fun l => l < U64_MAX) (R ++ lsns) ->
  wait_inv base (R ++ lsns) (ready lsns w).
Proof.
  intros [H1 H2 H3 H4 H5] Hb. destruct lsns as [| l0 lsns]; [by rewrite app_nil_r; split |].
  unfold ready. set (L := l0 :: lsns) in *.
  change (fold_left _ L _) with (push_all L (wl_ready_lsns w)).
  destruct (push_all_spec L _ H2) as [Hs He].
  destruct (pop_ready (push_all L (wl_ready_lsns w)) (wl_next_wait_lsn w)) as [heap next] eqn:E.
  assert (Forall (fun l => l < U64_MAX) (push_all L (wl_ready_lsns w))) as Hbound.
  { rewrite Forall_forall in Hb |- *. intros l Hl. apply Hb, elem_of_app.
    apply He in Hl as [Hl | Hl]; [by right | left; by apply H5]. }
  destruct (pop_ready_spec _ _ _ _ Hs Hbound E) as (P1 & P2 & P3 & P4 & P5).
  split; cbn [wl_next_wait_lsn wl_ready_lsns].
  - lia.
  - done.
  - intros l Hl. apply elem_of_app. destruct (decide (l < wl_next_wait_lsn w)).
    + left. apply H3. lia.
    + destruct (proj1 (He l) (P3 l ltac:(lia))) as [Hx | Hx]; [by right | left; by apply H5].
  - intros l [Hl | Hl]%elem_of_app.
    + destruct (H4 l Hl) as [Hx | Hx]; [left; lia | apply P4, He; by right].
    + apply P4, He. by left.
  - intros l Hl. destruct (P5 l Hl) as [Hx Hy]. split; [| done]. apply elem_of_app.
    apply He in Hx as [Hx | Hx]; [by right | left; by apply H5].
Qed.

(** The watermark passes a target exactly when every LSN from the start up
    to the target is reported. *)
Lemma wait_inv_advanced base R w target :
  wait_inv base R w -> base <= target ->
  advanced target w = true <-> (forall l, base <= l <= target -> l ∈ R).
Proof.
  intros [H1 H2 H3 H4 H5] Ht. unfold advanced. rewrite Z.ltb_lt. split.
  - intros Hlt l Hl. apply H3. lia.
  - intros Hall. destruct (Z.lt_ge_cases target (wl_next_wait_lsn w)) as [| Hge]; [done |].
    destruct (H4 (wl_next_wait_lsn w) (Hall (wl_next_wait_lsn w) ltac:(lia))) as [Hx | Hx]; [lia |].
    apply H5 in Hx as [_ Hx]. lia.
Qed.

(** ** Chunk files *)

(** The files hold the frames [gs], one group per chunk. *)
Definition file_rep (files : gmap Z (list byte)) (gs : list (list (list byte))) : Prop :=
  forall q, files !! q = if decide (0 <= q) then @concat byte <$> gs !! Z.to_nat q else None.

Record log_rep (files : gmap Z (list byte)) (log : ChunkedWorkerLog)
    (gs : list (list (list byte))) : Prop := mk_log_rep {
  lr_files : file_rep files gs;
  lr_next : cl_next_sequence log = zlen gs;
  lr_current : match cl_current_sequence log with
               | Some q => exists gs0 g, gs = gs0 ++ [g] /\ q = zlen gs0 /\
                             cl_current_size log = zlen (concat g)
               | None => True
               end;
  lr_size : 0 <= cl_current_size log <= cl_chunk_size log;
}.

(** One write of a frame. *)
Definition put_frame (files : gmap Z (list byte)) (path offset : Z) (f : list byte)
    : gmap Z (list byte) :=
  <[path := (write_all_at offset f (default [] (files !! path))).2]> files.

Lemma file_rep_lookup_new files gs : file_rep files gs -> files !! zlen gs = None.
Proof.
  intros H. rewrite H. rewrite decide_True by (pose proof (zlen_nonneg gs); lia).
  unfold zlen. by rewrite Nat2Z.id, lookup_ge_None_2.
Qed.

Lemma file_rep_snoc files gs0 gs g :
  (forall q, q <> zlen gs0 -> files !! q = if decide (0 <= q) then @concat byte <$> (gs0 ++ gs) !! Z.to_nat q else None) ->
  (length gs <= 1)%nat ->
  file_rep (<[zlen gs0 := concat g]> files) (gs0 ++ [g]).
Proof.
  intros H Hl q. destruct (decide (q = zlen gs0)) as [-> | Hne].
  - rewrite lookup_insert_eq, decide_True by (pose proof (zlen_nonneg gs0); lia).
    unfold zlen. by rewrite Nat2Z.id, list_lookup_middle.
  - rewrite lookup_insert_ne, H by done. case_decide; [| done]. f_equal.
    destruct (Nat.lt_ge_cases (Z.to_nat q) (length gs0)).
    + by rewrite !lookup_app_l by done.
    + rewrite !lookup_ge_None_2; [done | |]; rewrite length_app; unfold zlen in *; cbn; lia.
Qed.

Lemma file_rep_new files gs g : file_rep files gs -> file_rep (<[zlen gs := concat g]> files) (gs ++ [g]).
Proof.
  intros H. apply (file_rep_snoc files gs []); [| cbn; lia]. intros q _. rewrite app_nil_r. apply H.
Qed.

Lemma file_rep_last files gs0 g g' :
  file_rep files (gs0 ++ [g]) -> file_rep (<[zlen gs0 := concat g']> files) (gs0 ++ [g']).
Proof. intros H. apply (file_rep_snoc files gs0 [g]); [| cbn; lia]. intros q _. apply H. Qed.

Lemma file_rep_last_bytes files gs0 g :
  file_rep files (gs0 ++ [g]) -> files !! zlen gs0 = Some (concat g).
Proof.
  intros H. rewrite H, decide_True by (pose proof (zlen_nonneg gs0); lia).
  unfold zlen. by rewrite Nat2Z.id, list_lookup_middle.
Qed.

Lemma put_frame_new files gs f :
  file_rep files gs -> file_rep (put_frame files (zlen gs) 0 f) (gs ++ [[f]]).
Proof.
  intros H. unfold put_frame. rewrite (file_rep_lookup_new _ _ H). cbn [default].
  rewrite (write_all_at_end f [] : write_all_at 0 f [] = _). cbn [snd app].
  rewrite <- (app_nil_r f) at 1. by apply (file_rep_new files gs [f]).
Qed.

Lemma put_frame_last files gs0 g f :
  file_rep files (gs0 ++ [g]) ->
  file_rep (put_frame files (zlen gs0) (zlen (concat g)) f) (gs0 ++ [g ++ [f]]).
Proof.
  intros H. unfold put_frame. rewrite (file_rep_last_bytes _ _ _ H). cbn [default].
  unfold id. rewrite write_all_at_end. cbn [snd].
  assert (concat g ++ f = concat (g ++ [f])) as -> by (by rewrite concat_app; cbn; rewrite app_nil_r).
  by apply (file_rep_last files gs0 g).
Qed.

Lemma uadd_ok {E} a b : a + b <= U64_MAX -> uadd (E := E) a b = Ok (a + b).
Proof. intros. unfold uadd. by rewrite (proj2 (Z.leb_le _ _)). Qed.

(** The reservation of one frame and its write append the frame. *)
Lemma reserve_append_ok files log gs f :
  log_rep files log gs -> f <> [] ->
  cl_chunk_size log + zlen f <= U64_MAX -> zlen gs < U64_MAX ->
  exists r log' gs', reserve_append (zlen f) log = (Ok r, log') /\
    log_rep (put_frame files (ar_path r) (ar_offset r) f) log' gs' /\
    concat gs' = concat gs ++ [f] /\ zlen gs' <= zlen gs + 1 /\
    cl_chunk_size log' = cl_chunk_size log /\ 0 <= ar_offset r.
Proof.
  intros [Hf Hn Hc Hs] Hne Hb Hg. destruct log as [cs cur size next].
  cbn [cl_chunk_size cl_current_sequence cl_current_size cl_next_sequence] in *. subst next.
  assert (0 < zlen f) as Hpos by (destruct f; [done | rewrite zlen_cons; pose proof (zlen_nonneg f); lia]).
  unfold reserve_append. st_step by reflexivity. rewrite (proj2 (Z.eqb_neq _ _)) by lia.
  cbn [cl_chunk_size cl_current_sequence cl_current_size cl_next_sequence].
  destruct (Z.ltb_spec cs (zlen f)) as [Hbig | Hsmall].
  { st_step by (unfold st_lift; rewrite uadd_ok by lia; reflexivity). st_step by reflexivity.
    eexists _, _, (gs ++ [[f]]). split_and!; [reflexivity | split; cbn; try lia | | | done | cbn; lia].
    - by apply put_frame_new.
    - by rewrite zlen_app.
    - rewrite concat_app. done.
    - rewrite zlen_app. done. }
  set (fresh := match cur with None => true | Some _ => cs <? size + zlen f end).
  assert (match cur with
          | None => Ok true
          | Some _ => sum ← uadd size (zlen f); Ok (cs <? sum)
          end = @Ok ErrorCode _ fresh) as ->
    by (destruct cur; [by rewrite uadd_ok by lia | done]).
  st_step by reflexivity.
  destruct fresh eqn:Efresh.
  - erewrite st_bind_ok; [| st_step by (unfold st_lift; rewrite uadd_ok by lia; reflexivity); reflexivity].
    cbn [cl_chunk_size cl_current_sequence cl_current_size cl_next_sequence].
    st_step by reflexivity.
    st_step by (unfold st_lift; rewrite uadd_ok by lia; reflexivity). st_step by reflexivity.
    eexists _, _, (gs ++ [[f]]). rewrite Z.add_0_l.
    split_and!; [reflexivity | | | | | cbn; lia]; cbn [ar_path ar_offset].
    + assert (file_rep (put_frame files (zlen gs) 0 f) (gs ++ [[f]])) by (by apply put_frame_new).
      destruct (Z.leb_spec cs (zlen f)); split; cbn; try lia; try done; try (by rewrite zlen_app).
      exists gs, [f]. cbn. rewrite app_nil_r. done.
    + rewrite concat_app. done.
    + rewrite zlen_app. done.
    + by destruct (cs <=? zlen f).
  - destruct cur as [q |]; [| done]. destruct Hc as (gs0 & g & -> & -> & Hsz).
    apply Z.ltb_ge in Efresh.
    st_step by reflexivity. cbn [cl_chunk_size cl_current_sequence cl_current_size cl_next_sequence].
    st_step by reflexivity.
    st_step by (unfold st_lift; rewrite uadd_ok by lia; reflexivity). st_step by reflexivity.
    eexists _, _, (gs0 ++ [g ++ [f]]). split_and!; [reflexivity | | | | | cbn; lia]; cbn [ar_path ar_offset].
    + assert (file_rep (put_frame files (zlen gs0) size f) (gs0 ++ [g ++ [f]]))
        by (rewrite Hsz; by apply put_frame_last).
      assert (zlen (gs0 ++ [g]) = zlen (gs0 ++ [g ++ [f]])) as El by (by rewrite !zlen_app).
      assert (size + zlen f = zlen (concat (g ++ [f]))) as Ec
        by (rewrite concat_app, zlen_app, Hsz; cbn; by rewrite app_nil_r).
      destruct (Z.leb_spec cs (size + zlen f)); split; cbn; try lia; try done.
      by exists gs0, (g ++ [f]).
    + rewrite !concat_app. cbn. rewrite !app_nil_r, app_assoc. done.
    + rewrite !zlen_app. change (zlen [g]) with 1. change (zlen [g ++ [f]]) with 1. lia.
    + by destruct (cs <=? size + zlen f).
Qed.

(** ** Flush rounds *)

Definition put_reserved (files : gmap Z (list byte)) (rf : AppendReservation * list byte)
    : gmap Z (list byte) := put_frame files (ar_path rf.1) (ar_offset rf.1) rf.2.

Definition put_merged (files : gmap Z (list byte)) (w : MergedWrite) : gmap Z (list byte) :=
  put_frame files (mw_path w) (mw_offset w) (mw_payload w).

Lemma reserve_appends_ok fs : forall files log gs,
  log_rep files log gs -> Forall (fun f => f <> [] /\ cl_chunk_size log + zlen f <= U64_MAX) fs ->
  zlen gs + zlen fs <= U64_MAX ->
  exists rs log' gs', st_map (fun f => reserve_append (zlen f)) fs log = (Ok rs, log') /\
    length rs = length fs /\ Forall (fun r => 0 <= ar_offset r) rs /\
    log_rep (fold_left put_reserved (zip rs fs) files) log' gs' /\
    concat gs' = concat gs ++ fs /\ zlen gs' <= zlen gs + zlen fs /\
    cl_chunk_size log' = cl_chunk_size log.
Proof.
  induction fs as [| f fs IH]; intros files log gs Hr Hf Hg.
  { exists [], log, gs. split_and!; [done | done | done | done | by rewrite app_nil_r | | done].
    change (zlen (@nil (list byte))) with 0. lia. }
  inversion Hf as [| ? ? [Hne Hb] Hf']; subst. rewrite zlen_cons in Hg. pose proof (zlen_nonneg fs).
  destruct (reserve_append_ok files log gs f Hr Hne Hb ltac:(lia))
    as (r & log1 & gs1 & E1 & Hr1 & Hc1 & Hl1 & Hcs1 & Ho1).
  destruct (IH _ log1 gs1 Hr1 ltac:(by rewrite Hcs1) ltac:(lia))
    as (rs & log2 & gs2 & E2 & Hlen & Hoff & Hr2 & Hc2 & Hl2 & Hcs2).
  exists (r :: rs), log2, gs2. rewrite zlen_cons.
  split_and!; [| cbn; lia | by constructor | done | | lia | congruence].
  - cbn [st_map]. st_step by exact E1. by st_step by exact E2.
  - by rewrite Hc2, Hc1, <- app_assoc.
Qed.


(** Merging adjacent writes does not change what they write. *)
Lemma put_frame_app files path off a b :
  0 <= off -> put_frame files path off (a ++ b) = put_frame (put_frame files path off a) path (off + zlen a) b.
Proof.
  intros Hoff. unfold put_frame. rewrite lookup_insert_eq, insert_insert_eq. cbn [default id].
  by rewrite write_all_at_app.
Qed.

Lemma merge_write_ok files merged rf :
  Forall (fun w => 0 <= mw_offset w) merged -> 0 <= ar_offset rf.1 ->
  fold_left put_merged (merge_write merged rf) files
    = put_reserved (fold_left put_merged merged files) rf /\
  Forall (fun w => 0 <= mw_offset w) (merge_write merged rf).
Proof.
  destruct rf as [r f]. intros Hm Hr. cbn [fst] in Hr. unfold merge_write.
  destruct (last merged) as [w |] eqn:El.
  2: { rewrite fold_left_app. split; [done |]. apply Forall_app. split; [done | by constructor]. }
  destruct ((mw_path w =? ar_path r) && (mw_offset w + zlen (mw_payload w) =? ar_offset r)) eqn:E.
  2: { rewrite fold_left_app. split; [done |]. apply Forall_app. split; [done | by constructor]. }
  apply andb_prop in E as [E1%Z.eqb_eq E2%Z.eqb_eq].
  apply last_Some in El as [m' ->]. rewrite removelast_last.
  apply Forall_app in Hm as [Hm Hw]. inversion Hw as [| ? ? Hw0 _]; subst.
  rewrite !fold_left_app. split; [| apply Forall_app; split; [done | by constructor]].
  cbn [fold_left]. unfold put_reserved, put_merged at 1 3. cbn [fst snd mw_path mw_offset mw_payload].
  rewrite put_frame_app by done. by rewrite E1, E2.
Qed.

Lemma merge_reserved_writes_ok rs fs files :
  Forall (fun r => 0 <= ar_offset r) rs ->
  fold_left put_merged (merge_reserved_writes rs fs) files
    = fold_left put_reserved (zip rs fs) files.
Proof.
  intros Hr. unfold merge_reserved_writes.
  assert (Forall (fun rf => 0 <= ar_offset rf.1) (zip rs fs)) as Hz.
  { apply Forall_forall. intros [r f] Hrf. apply elem_of_zip_l in Hrf. rewrite Forall_forall in Hr.
    by apply Hr. }
  clear Hr. change files with (fold_left put_merged [] files) at 2.
  assert (Forall (fun w => 0 <= mw_offset w) []) as Hm by done. revert Hm.
  generalize (@nil MergedWrite). induction Hz as [| rf l Hrf Hl IH]; intros merged Hm; [done |].
  cbn [fold_left]. destruct (merge_write_ok files merged rf Hm Hrf) as [E Hm'].
  rewrite IH by done. by rewrite E.
Qed.

Lemma write_files_ok ws : forall s,
  st_iter (fun w => write_file (mw_path w) (mw_offset w) (mw_payload w)) ws s
    = (Ok tt, set_files (fold_left put_merged ws (wb_files s)) s).
Proof.
  induction ws as [| w ws IH]; intros s; [by destruct s |]. cbn [st_iter].
  st_step by reflexivity. by rewrite IH.
Qed.

(** *** What is synced *)

Lemma put_merged_other ws : forall files path,
  (forall w, w ∈ ws -> mw_path w <> path) -> fold_left put_merged ws files !! path = files !! path.
Proof.
  induction ws as [| w ws IH]; intros files path Hp; [done |]. cbn [fold_left].
  rewrite IH by set_solver. unfold put_merged, put_frame. rewrite lookup_insert_ne; [done |].
  apply Hp. set_solver.
Qed.

Lemma merge_write_paths merged rf w :
  w ∈ merge_write merged rf ->
  mw_path w = ar_path rf.1 \/ exists w', w' ∈ merged /\ mw_path w = mw_path w'.
Proof.
  destruct rf as [r f]. unfold merge_write. cbn [fst].
  destruct (last merged) as [w0 |] eqn:El; [| set_solver].
  destruct (_ && _); [| set_solver]. apply last_Some in El as [m' ->]. rewrite removelast_last.
  intros [Hw | Hw]%elem_of_app; [right; exists w; set_solver |].
  apply list_elem_of_singleton in Hw as ->. right. exists w0. set_solver.
Qed.

Lemma merged_paths rs fs w :
  w ∈ merge_reserved_writes rs fs -> exists r, r ∈ rs /\ mw_path w = ar_path r.
Proof.
  unfold merge_reserved_writes. intros Hw.
  assert (exists rf, rf ∈ zip rs fs /\ mw_path w = ar_path rf.1) as ([r f] & Hrf & E).
  { revert w Hw. induction (zip rs fs) as [| rf l IH] using rev_ind; intros w Hw; [by apply elem_of_nil in Hw |].
    rewrite fold_left_app in Hw. apply merge_write_paths in Hw as [E | (w' & Hw' & E)].
    - exists rf. set_solver.
    - destruct (IH w' Hw') as (rf' & Hrf' & E'). exists rf'. split; [set_solver | congruence]. }
  exists r. split; [by eapply elem_of_zip_l | done].
Qed.

Lemma collect_flush_paths_elem rs p : p ∈ collect_flush_paths rs <-> exists r, r ∈ rs /\ p = ar_path r.
Proof.
  unfold collect_flush_paths. induction rs as [| r rs IH] using rev_ind; [set_solver |].
  rewrite fold_left_app. cbn [fold_left]. case_bool_decide as Hd; [set_solver |].
  rewrite elem_of_app, IH. set_solver.
Qed.

Definition sync_all (files : gmap Z (list byte)) (paths : list Z) (synced : gmap Z (list byte))
    : gmap Z (list byte) :=
  fold_left (fun m p => <[p := default [] (files !! p)]> m) paths synced.

Lemma fsync_file_ok path s :
  is_Some (wb_files s !! path) ->
  fsync_file path s =
    (Ok tt, set_synced (<[path := default [] (wb_files s !! path)]> (wb_synced s)) s).
Proof.
  intros [b Hb]. unfold fsync_file, st_modify. do 2 f_equal. rewrite Hb. cbn [default id].
  rewrite insert_id by done. by destruct s.
Qed.

Lemma fsync_paths_ok lsns paths : forall s,
  paths <> [] -> (forall p, p ∈ paths -> is_Some (wb_files s !! p)) ->
  fsync_paths lsns paths s =
    (Ok tt, set_flush_waiter (ready lsns (wb_flush_waiter s))
              (set_synced (sync_all (wb_files s) paths (wb_synced s)) s)).
Proof.
  induction paths as [| p paths IH]; intros s Hne Hp; [done |]. cbn [fsync_paths].
  st_step by (apply fsync_file_ok, Hp; set_solver).
  destruct paths as [| p' paths].
  - st_step by reflexivity. done.
  - st_step by reflexivity. rewrite IH; [done | done |]. intros q Hq. cbn. apply Hp. set_solver.
Qed.

Lemma sync_all_lookup files paths q : forall synced,
  sync_all files paths synced !! q =
    if decide (q ∈ paths) then Some (default [] (files !! q)) else synced !! q.
Proof.
  induction paths as [| p paths IH]; intros synced; [done |].
  unfold sync_all in *. cbn [fold_left]. rewrite IH. destruct (decide (q ∈ paths)).
  - rewrite decide_True by set_solver. done.
  - destruct (decide (p = q)) as [-> | Hne].
    + rewrite lookup_insert_eq, decide_True by set_solver. done.
    + rewrite lookup_insert_ne, decide_False by set_solver. done.
Qed.

(** Every chunk of the log that is written is synced and holds frames. *)
Record wal_inv (s : WorkerWALBackend) (F : list (list byte)) : Prop := mk_wal_inv {
  wv_rep : exists gs, log_rep (wb_files s) (wb_log s) gs /\ concat gs = F;
  wv_synced : wb_synced s = wb_files s;
  wv_policy : wb_sync_policy s = Commit;
  wv_unsynced : wb_unsynced_paths s = ∅;
}.

Definition frames_fit (chunk_size : Z) (fs : list (list byte)) : Prop :=
  Forall (fun f => f <> [] /\ chunk_size + zlen f <= U64_MAX) fs.

Lemma put_reserved_some l : forall files path,
  (path ∈ (fun rf : AppendReservation * list byte => ar_path rf.1) <$> l) \/ is_Some (files !! path) ->
  is_Some (fold_left put_reserved l files !! path).
Proof.
  induction l as [| rf l IH]; intros files path Hp; cbn [fold_left].
  { destruct Hp as [Hp | Hp]; [by apply elem_of_nil in Hp | done]. }
  apply IH. unfold put_reserved, put_frame.
  destruct (decide (ar_path rf.1 = path)) as [<- | Hne]; [right; by rewrite lookup_insert_eq |].
  rewrite lookup_insert_ne by done. destruct Hp as [Hp | Hp]; [| by right].
  rewrite fmap_cons in Hp. apply elem_of_cons in Hp as [Hp | Hp]; [by destruct Hne | by left].
Qed.

Lemma merge_write_nonempty merged rf : merge_write merged rf <> [].
Proof.
  destruct rf as [r f]. unfold merge_write.
  destruct (last merged); [destruct (_ && _) |]; intros E; by apply app_eq_nil in E as [_ E].
Qed.

Lemma merge_nonempty rs fs :
  length rs = length fs -> fs <> [] -> merge_reserved_writes rs fs <> [].
Proof.
  intros Hl Hne. unfold merge_reserved_writes.
  destruct (zip rs fs) as [| rf l _] eqn:E using rev_ind.
  - destruct rs, fs; cbn in Hl; try lia; done.
  - rewrite fold_left_app. apply merge_write_nonempty.
Qed.

(** A round appends the frames of its batches, syncs them and reports
    their LSNs. *)
Lemma flush_round_ok s F pending :
  wal_inv s F ->
  let fs := concat (qb_frames <$> pending) in
  let lsns := concat (qb_lsns <$> pending) in
  fs <> [] -> frames_fit (cl_chunk_size (wb_log s)) fs ->
  cl_next_sequence (wb_log s) + zlen fs <= U64_MAX ->
  exists log files,
    (prepared ← prepare_flush_batch pending; execute_flush_batch prepared) s =
      (Ok tt, set_flush_waiter (ready lsns (wb_flush_waiter s))
                (set_synced files (set_files files (set_log log s)))) /\
    (exists gs, log_rep files log gs /\ concat gs = F ++ fs) /\
    cl_next_sequence log <= cl_next_sequence (wb_log s) + zlen fs /\
    cl_chunk_size log = cl_chunk_size (wb_log s).
Proof.
  intros [(gs & Hr & <-) Hsy Hpol _] fs lsns Hne Hfit Hroom.
  rewrite (lr_next _ _ _ Hr) in *.
  destruct (reserve_appends_ok fs _ _ gs Hr Hfit Hroom)
    as (rs & log' & gs' & E & Hlen & Hoff & Hr' & Hc & Hl & Hcs).
  pose proof (merge_nonempty rs fs Hlen Hne) as Hm.
  rewrite <- (merge_reserved_writes_ok _ _ _ Hoff) in Hr'.
  set (files := fold_left put_merged (merge_reserved_writes rs fs) (wb_files s)) in *.
  assert (forall p, p ∈ collect_flush_paths rs -> is_Some (files !! p)) as Hsome.
  { intros p (r & Hin & ->)%collect_flush_paths_elem. unfold files.
    rewrite merge_reserved_writes_ok by done. apply put_reserved_some. left.
    apply list_elem_of_fmap. apply list_elem_of_lookup in Hin as [i Hi].
    destruct (lookup_lt_is_Some_2 fs i) as [f Hf]; [rewrite <- Hlen; by eapply lookup_lt_Some |].
    exists (r, f). split; [done |]. apply list_elem_of_lookup. exists i.
    by rewrite lookup_zip_with, Hi; cbn; rewrite Hf. }
  assert (sync_all files (collect_flush_paths rs) (wb_synced s) = files) as Hall.
  { apply map_eq. intros q. rewrite sync_all_lookup. case_decide as Hq.
    - destruct (Hsome q Hq) as [b ->]. done.
    - rewrite Hsy. unfold files. rewrite put_merged_other; [done |].
      intros w Hw <-. apply Hq. destruct (merged_paths _ _ _ Hw) as (r & Hin & ->).
      apply collect_flush_paths_elem. by exists r. }
  exists log', files. split_and!; [| by exists gs' | by rewrite (lr_next _ _ _ Hr') | done].
  unfold prepare_flush_batch. fold fs lsns.
  erewrite st_bind_ok; [| st_step by (unfold reserve_appends, on_log; rewrite E; reflexivity); reflexivity].
  unfold execute_flush_batch. cbn [pf_writes pf_ready_lsns pf_flush_paths].
  destruct (merge_reserved_writes rs fs) as [| w ws] eqn:Ews; [done |]. rewrite <- Ews.
  st_step by (apply write_files_ok). st_step by reflexivity.
  change (wb_sync_policy (set_files _ _)) with (wb_sync_policy s). rewrite Hpol.
  rewrite fsync_paths_ok.
  - cbn [wb_files wb_synced wb_flush_waiter set_files set_log].
    rewrite Ews in *. fold files. by rewrite Hall.
  - destruct rs as [| r rs]; [by destruct Hm |]. intros E0.
    apply (elem_of_nil (ar_path r)). rewrite <- E0. apply collect_flush_paths_elem.
    exists r. set_solver.
  - cbn [wb_files set_files set_log]. rewrite Ews in *. exact Hsome.
Qed.

Lemma drain_count_range maxb queue : forall total split,
  0 <= split -> split <= drain_count maxb total split queue <= split + zlen queue /\
  (queue <> [] -> 0 < drain_count maxb total split queue).
Proof.
  induction queue as [| b queue IH]; intros total split Hs; cbn [drain_count].
  { change (zlen (@nil QueuedLogBatch)) with 0. split; [lia | done]. }
  rewrite zlen_cons. pose proof (zlen_nonneg queue).
  destruct (Z.ltb_spec 0 split); cbn [andb].
  - destruct (maxb <? _); [lia |].
    destruct (IH (saturating_add total (qb_bytes b)) (split + 1) ltac:(lia)). lia.
  - destruct (IH (saturating_add total (qb_bytes b)) (split + 1) ltac:(lia)). lia.
Qed.

(** A round drains a non-empty prefix of the queue. *)
Lemma drain_pending_ok b s :
  wb_queue s <> [] ->
  exists k, (0 < k <= length (wb_queue s))%nat /\
    drain_pending_batches b s = (Ok (take k (wb_queue s)), set_queue (drop k (wb_queue s)) s).
Proof.
  intros Hne. unfold drain_pending_batches. st_step by reflexivity.
  destruct (wb_queue s) as [| q queue] eqn:E; [done |]. rewrite <- E in *.
  destruct (drain_count_range (eb_max_batch_bytes b) (wb_queue s) 0 0 ltac:(lia)) as [Hr Hp].
  specialize (Hp Hne). cbv zeta. rewrite (proj2 (Z.eqb_neq _ _)) by lia.
  eexists (Z.to_nat _). split; [| by st_step by reflexivity]. unfold zlen in Hr. lia.
Qed.

Definition batches_ok (chunk_size : Z) (queue : list QueuedLogBatch) : Prop :=
  Forall (fun b => qb_frames b <> [] /\ frames_fit chunk_size (qb_frames b)) queue.

Definition queue_frames (queue : list QueuedLogBatch) : list (list byte) := concat (qb_frames <$> queue).
Definition queue_lsns (queue : list QueuedLogBatch) : list Z := concat (qb_lsns <$> queue).

Lemma batches_ok_frames cs queue : batches_ok cs queue -> frames_fit cs (queue_frames queue).
Proof.
  induction 1 as [| b queue [_ Hb] _ IH]; [by constructor |]. by apply Forall_app.
Qed.

Lemma batches_nonempty cs queue : batches_ok cs queue -> queue <> [] -> queue_frames queue <> [].
Proof.
  intros [| b q [Hb _] _]; [done |]. intros _ E. by apply app_eq_nil in E as [E _].
Qed.

Lemma queue_split {A} (f : QueuedLogBatch -> list A) k queue :
  concat (f <$> queue) = concat (f <$> take k queue) ++ concat (f <$> drop k queue).
Proof. rewrite <- concat_app, <- fmap_app, take_drop. done. Qed.

Lemma run_flush_rounds_ok fuel : forall s F base R,
  (length (wb_queue s) < fuel)%nat -> wal_inv s F ->
  batches_ok (cl_chunk_size (wb_log s)) (wb_queue s) ->
  cl_next_sequence (wb_log s) + zlen (queue_frames (wb_queue s)) <= U64_MAX ->
  wait_inv base R (wb_flush_waiter s) ->
  Forall (fun l => l < U64_MAX) (R ++ queue_lsns (wb_queue s)) ->
  exists s', run_flush_rounds fuel s = (Ok tt, s') /\
    wal_inv s' (F ++ queue_frames (wb_queue s)) /\ wb_queue s' = [] /\
    wait_inv base (R ++ queue_lsns (wb_queue s)) (wb_flush_waiter s') /\
    wb_next_lsn s' = wb_next_lsn s /\ cl_chunk_size (wb_log s') = cl_chunk_size (wb_log s) /\
    cl_next_sequence (wb_log s') <= cl_next_sequence (wb_log s) + zlen (queue_frames (wb_queue s)).
Proof.
  induction fuel as [| fuel IH]; intros s F base R Hf Hinv Hb Hroom Hw Hbound; [lia |].
  cbn [run_flush_rounds]. st_step by reflexivity.
  destruct (decide (wb_queue s = [])) as [E | Hne].
  { exists s. rewrite E. unfold queue_frames, queue_lsns. cbn [fmap list_fmap concat].
    rewrite !app_nil_r. split_and!; try done; [| change (zlen (@nil (list byte))) with 0; lia].
    erewrite st_bind_ok; [| unfold drain_pending_batches; st_step by reflexivity; rewrite E; reflexivity].
    done. }
  destruct (drain_pending_ok (effective_batching s) s Hne) as (k & Hk & Ed).
  st_step by exact Ed.
  set (s1 := set_queue (drop k (wb_queue s)) s).
  rewrite <- (take_drop k (wb_queue s)) in Hb. apply Forall_app in Hb as [Hb1 Hb2].
  unfold queue_frames, queue_lsns in *.
  rewrite (queue_split qb_frames k) in Hroom |- *. rewrite (queue_split qb_lsns k) in Hbound |- *.
  set (fs := concat (qb_frames <$> take k (wb_queue s))) in *.
  set (ls := concat (qb_lsns <$> take k (wb_queue s))) in *.
  rewrite zlen_app in Hroom. rewrite (app_assoc R) in Hbound |- *.
  pose proof (proj1 (proj1 (Forall_app _ _ _) Hbound)) as Hbound1.
  pose proof (zlen_nonneg (concat (qb_frames <$> drop k (wb_queue s)))).
  assert (take k (wb_queue s) <> []) as Ht
    by (destruct (wb_queue s), k; try done; cbn in Hk; lia).
  destruct (flush_round_ok s1 F (take k (wb_queue s))) as (log & files & Er & Hrep & Hnx & Hcs).
  { destruct Hinv as [H1 H2 H3 H4]. by split. }
  { by eapply batches_nonempty. }
  { by apply batches_ok_frames. }
  { cbn [wb_log s1 set_queue]. fold fs. lia. }
  assert (exists q0 qs, take k (wb_queue s) = q0 :: qs) as (q0 & qs & Et)
    by (destruct (take k (wb_queue s)); [done | by eexists _, _]).
  rewrite Et. cbv iota. rewrite <- Et. unfold mbind, st_bind in Er. unfold mbind at 1, st_bind at 1. fold s1.
  destruct (prepare_flush_batch (take k (wb_queue s)) s1) as [[prep | |] s2]; [| done | done].
  st_step by exact Er. st_step by reflexivity.
  match goal with |- context [run_flush_rounds fuel ?s3] => set (s3' := s3) end.
  destruct (IH s3' (F ++ fs) base (R ++ ls)) as (s' & E' & Hinv' & Hq' & Hw' & Hn' & Hc' & Hs');
    [| | | | | | exists s'; split; [exact E' |]; rewrite app_assoc; split_and!; try done];
    cbn [wb_queue wb_log wb_flush_waiter wb_next_lsn set_flush_rounds set_flush_waiter set_synced
         set_files set_log s3' s1 set_queue] in *.
  - rewrite length_drop. lia.
  - split; [exact Hrep | done | apply (wv_policy _ _ Hinv) | apply (wv_unsynced _ _ Hinv)].
  - by rewrite Hcs.
  - fold fs in Hnx. lia.
  - by apply ready_inv.
  - done.
  - by rewrite Hc'.
  - rewrite zlen_app. fold fs in Hnx. lia.
Qed.

(** ** Recovery from the files *)

Definition files_are (files : gmap Z (list byte)) (bytes : list (list byte)) : Prop :=
  forall q, files !! q = if decide (0 <= q) then bytes !! Z.to_nat q else None.

Lemma file_rep_files files gs : file_rep files gs <-> files_are files (@concat byte <$> gs).
Proof. split; intros H q; rewrite (H q); case_decide; by rewrite ?list_lookup_fmap. Qed.

Lemma files_are_Some files bytes q b :
  files_are files bytes -> files !! q = Some b <-> 0 <= q /\ bytes !! Z.to_nat q = Some b.
Proof. intros H. rewrite H. case_decide; naive_solver. Qed.

Lemma seqZ_sorted n : StronglySorted Z.le (seqZ 0 n).
Proof.
  unfold seqZ. generalize (Z.to_nat n). intros k. generalize 0%nat. 
  induction k as [| k IH]; intros i; [constructor |]. cbn [seq fmap list_fmap].
  constructor; [apply IH |]. apply Forall_forall. intros x Hx.
  apply list_elem_of_fmap in Hx as (j & -> & Hj). apply elem_of_seq in Hj. lia.
Qed.

Lemma chunk_paths_sorted_ok files bytes :
  files_are files bytes -> chunk_paths_sorted files = seqZ 0 (zlen bytes).
Proof.
  intros Hf. unfold chunk_paths_sorted.
  apply (StronglySorted_unique Z.le); [| apply seqZ_sorted |].
  - assert (Transitive (fun a b => a <=? b = true)) as Ht by (intros a b c; lia).
    pose proof (sort_stable_sorted Z.leb Ht ltac:(intros a b; cbn; rewrite !Z.leb_le; lia) (map_to_list files).*1) as Hs.
    induction Hs as [| x l Hs IH Hx]; constructor; [done |].
    eapply Forall_impl; [exact Hx |]. cbn. lia.
  - rewrite sort_stable_perm. apply NoDup_Permutation; [apply NoDup_fst_map_to_list | apply NoDup_seqZ |].
    intros q. rewrite elem_of_seqZ, list_elem_of_fmap. split.
    + intros ([q' b] & -> & Hb%elem_of_map_to_list). cbn.
      apply (files_are_Some _ _ _ _ Hf) in Hb as [Hq Hb]. apply lookup_lt_Some in Hb.
      unfold zlen. lia.
    + intros Hq. destruct (lookup_lt_is_Some_2 bytes (Z.to_nat q)) as [b Hb]; [unfold zlen in Hq; lia |].
      exists (q, b). split; [done |]. apply elem_of_map_to_list.
      apply (files_are_Some _ _ _ _ Hf). split; [lia | done].
Qed.

Lemma files_in_order files bytes :
  files_are files bytes ->
  (fun path => default [] (files !! path)) <$> chunk_paths_sorted files = bytes.
Proof.
  intros Hf. rewrite (chunk_paths_sorted_ok _ _ Hf). apply list_eq. intros i.
  rewrite list_lookup_fmap. destruct (bytes !! i) as [b |] eqn:Hb.
  - pose proof (lookup_lt_Some _ _ _ Hb). rewrite lookup_seqZ_lt by (unfold zlen; lia).
    cbn [fmap option_fmap option_map]. f_equal.
    rewrite Hf, decide_True by lia. replace (Z.to_nat (0 + Z.of_nat i)) with i by lia. by rewrite Hb.
  - apply lookup_ge_None in Hb. rewrite lookup_seqZ_ge by (unfold zlen; lia). done.
Qed.

(** ** Group commit *)

Section durability.
Context `{Packages} {L : Type} `{MsgpackOk L}.

Lemma recover_files_ok {S} (handle : L -> Z -> ST ErrorCode S unit) finish files cs es p s :
  files_are files (chunk_bytes <$> cs) -> Forall chunk_ok cs ->
  decode_loop (concat (fst <$> cs)) ([], None) = (Ok es, p) ->
  recover_files handle finish files s = (handle_all handle es ;; finish) s.
Proof.
  intros Hf Hcs Hd. unfold recover_files, recover. rewrite (files_in_order _ _ Hf).
  unfold mbind, st_bind. rewrite (recover_chunks_ok handle cs _ es p); [done | done | | done].
  by intros [].
Qed.

Definition queued (force_flush : bool) (now lsn : Z) (fs : list (list byte)) : QueuedLogBatch :=
  mkQueuedLogBatch fs (seqZ lsn (zlen fs)) (sum_Z (zlen <$> fs)) now force_flush.

Lemma enqueue_frames_ok force now lsn fs s :
  fs <> [] ->
  enqueue_group_commit now fs (seqZ lsn (zlen fs)) force s =
    (Ok (lsn + zlen fs - 1), set_queue (wb_queue s ++ [queued force now lsn fs]) s).
Proof.
  intros Hne. unfold enqueue_group_commit. destruct fs as [| f fs0] eqn:Efs; [done |]. rewrite <- Efs in *.
  assert (0 < zlen fs) as Hpos by (rewrite Efs, zlen_cons; pose proof (zlen_nonneg fs0); lia).
  assert (zlen (seqZ lsn (zlen fs)) = zlen fs) as -> by (unfold zlen; rewrite length_seqZ; lia).
  rewrite Z.eqb_refl. cbn [negb].
  assert (last (seqZ lsn (zlen fs)) = Some (lsn + zlen fs - 1)) as ->
    by (rewrite last_lookup, length_seqZ, lookup_seqZ_lt; [f_equal |]; lia).
  st_step by reflexivity. by st_step by reflexivity.
Qed.

Lemma backend_serialize_ok v s :
  let cs := cl_chunk_size (wb_log s) in
  LOG_FRAME_HEADER_SIZE + LOG_FRAME_TAILER_SIZE < cs -> entry_ok cs (wb_next_lsn s) v ->
  let fs := entry_frames cs (wb_next_lsn s) v in
  backend_serialize_entry v s = (Ok fs, set_next_lsn (wb_next_lsn s + zlen fs) s) /\
  frame_lsns fs = Ok (seqZ (wb_next_lsn s) (zlen fs)) /\ fs <> [].
Proof.
  intros cs Hcs Hok fs. destruct (entry_frames_valid cs Hcs _ _ Hok) as [Hv Hl]. split_and!.
  - unfold backend_serialize_entry. by rewrite serialize_entry_ok by done.
  - rewrite frame_lsns_valid by done. f_equal. exact Hl.
  - destruct (entry_parts_ok cs Hcs _ _ Hok) as (bs & _ & _ & _ & _ & Hp & _).
    intros E. apply (f_equal zlen) in E. unfold fs, entry_frames in E. rewrite frames_of_length in E.
    destruct (entry_parts cs v); [done | rewrite zlen_cons in E; unfold zlen in E; cbn in E; lia].
Qed.

Lemma enqueue_entry_ok now v s :
  let cs := cl_chunk_size (wb_log s) in
  LOG_FRAME_HEADER_SIZE + LOG_FRAME_TAILER_SIZE < cs -> entry_ok cs (wb_next_lsn s) v ->
  let fs := entry_frames cs (wb_next_lsn s) v in
  enqueue_entry now v s =
    (Ok (wb_next_lsn s + zlen fs - 1),
     set_queue (wb_queue s ++ [queued true now (wb_next_lsn s) fs])
       (set_next_lsn (wb_next_lsn s + zlen fs) s)) /\ fs <> [].
Proof.
  intros cs Hcs Hok fs. destruct (backend_serialize_ok v s Hcs Hok) as (E1 & E2 & Hne).
  split; [| done]. unfold enqueue_entry. st_step by exact E1.
  st_step by (unfold st_lift; rewrite E2; reflexivity). 
  exact (enqueue_frames_ok true now _ fs (set_next_lsn (wb_next_lsn s + zlen fs) s) Hne).
Qed.

Lemma enqueue_all_ok now us : forall s,
  let cs := cl_chunk_size (wb_log s) in
  LOG_FRAME_HEADER_SIZE + LOG_FRAME_TAILER_SIZE < cs -> cs + cs <= U64_MAX ->
  log_ok cs (wb_next_lsn s) us ->
  let fs := log_frames cs (wb_next_lsn s) us in
  exists lasts batches,
    st_map (enqueue_entry now) us s =
      (Ok lasts, set_queue (wb_queue s ++ batches) (set_next_lsn (wb_next_lsn s + zlen fs) s)) /\
    queue_frames batches = fs /\ queue_lsns batches = seqZ (wb_next_lsn s) (zlen fs) /\
    batches_ok cs batches /\
    Forall (fun l => wb_next_lsn s <= l < wb_next_lsn s + zlen fs) lasts /\
    length lasts = length us.
Proof.
  induction us as [| v us IH]; intros s cs Hcs Hb Hok fs.
  { exists [], []. rewrite app_nil_r. change (zlen fs) with 0. rewrite Z.add_0_r.
    destruct s. split_and!; done || constructor. }
  destruct Hok as [Hv Hus]. destruct (enqueue_entry_ok now v s Hcs Hv) as [E1 Hne].
  fold cs in E1, Hne. set (f1 := entry_frames cs (wb_next_lsn s) v) in *.
  set (s1 := set_queue (wb_queue s ++ [queued true now (wb_next_lsn s) f1])
               (set_next_lsn (wb_next_lsn s + zlen f1) s)) in *.
  destruct (IH s1 Hcs Hb Hus) as (lasts & batches & E2 & Hq1 & Hq2 & Hq3 & Hq4 & Hq5).
  change (cl_chunk_size (wb_log s1)) with cs in *.
  change (wb_next_lsn s1) with (wb_next_lsn s + zlen f1) in *.
  set (f2 := log_frames cs (wb_next_lsn s + zlen f1) us) in *.
  change fs with (f1 ++ f2) in *. pose proof (zlen_nonneg f1). pose proof (zlen_nonneg f2).
  exists (wb_next_lsn s + zlen f1 - 1 :: lasts), (queued true now (wb_next_lsn s) f1 :: batches).
  rewrite zlen_app. split_and!.
  - cbn [st_map]. st_step by exact E1. st_step by exact E2. unfold mret, st_ret, s1, set_queue.
    cbn. rewrite <- app_assoc, Z.add_assoc. done.
  - unfold queue_frames in *. cbn. by rewrite <- Hq1.
  - unfold queue_lsns in *. cbn. rewrite seqZ_app by lia. by rewrite <- Hq2.
  - constructor; [| done]. split; [done |]. cbn [qb_frames queued].
    eapply Forall_impl; [apply (entry_frames_size cs Hcs) |]. cbn. intros f [? ?]. split; [done | lia].
  - constructor.
    + assert (0 < zlen f1) by (destruct f1; [done | rewrite zlen_cons in *; pose proof (zlen_nonneg f1); lia]).
      lia.
    + eapply Forall_impl; [exact Hq4 |]. cbn. lia.
  - cbn. lia.
Qed.

Lemma file_rep_chunks files gs :
  file_rep files gs -> Forall valid_frame (concat gs) ->
  exists cs, files_are files (chunk_bytes <$> cs) /\ Forall chunk_ok cs /\ fst <$> cs = gs.
Proof.
  intros Hf Hv. exists ((fun g => (g, [])) <$> gs). split_and!.
  - apply file_rep_files in Hf. rewrite <- list_fmap_compose.
    erewrite list_fmap_ext; [exact Hf |]. intros i g _. unfold compose, chunk_bytes. cbn.
    by rewrite app_nil_r.
  - clear Hf. induction gs as [| g gs IH]; [constructor |]. apply Forall_app in Hv as [Hg Hgs].
    rewrite fmap_cons. constructor; [split; [done | by left] | by apply IH].
  - rewrite <- list_fmap_compose. clear. induction gs as [| g gs IH]; [done |].
    rewrite fmap_cons. by rewrite IH.
Qed.

Lemma run_flush_log_ok s F base R :
  wal_inv s F -> batches_ok (cl_chunk_size (wb_log s)) (wb_queue s) ->
  cl_next_sequence (wb_log s) + zlen (queue_frames (wb_queue s)) <= U64_MAX ->
  wait_inv base R (wb_flush_waiter s) ->
  Forall (fun l => l < U64_MAX) (R ++ queue_lsns (wb_queue s)) ->
  exists s', run_flush_log s = (Ok tt, s') /\
    wal_inv s' (F ++ queue_frames (wb_queue s)) /\ wb_queue s' = [] /\
    wait_inv base (R ++ queue_lsns (wb_queue s)) (wb_flush_waiter s') /\
    wb_next_lsn s' = wb_next_lsn s /\ cl_chunk_size (wb_log s') = cl_chunk_size (wb_log s) /\
    cl_next_sequence (wb_log s') <= cl_next_sequence (wb_log s) + zlen (queue_frames (wb_queue s)).
Proof. intros. apply run_flush_rounds_ok; [lia | done..]. Qed.

(** What recovery finds on the synced files of a log. *)
Lemma recover_synced {S} s F (handle : L -> Z -> ST ErrorCode S unit) finish es p st :
  wal_inv s F -> Forall valid_frame F -> decode_loop F ([], None) = (Ok es, p) ->
  recover_files handle finish (wb_synced s) st = (handle_all handle es ;; finish) st.
Proof.
  intros [(gs & Hr & <-) Hsy _ _] Hv Hd. rewrite Hsy.
  destruct (file_rep_chunks _ _ (lr_files _ _ _ Hr) Hv) as (cs & Hf & Hcs & <-).
  by eapply recover_files_ok.
Qed.

(** The committing tasks of one queue: they enqueue, one of them flushes. *)
Definition commit_entries (now : Z) (us : list L) : WAL (list Z) :=
  lasts ← st_map (enqueue_entry now) us; run_flush_log ;; mret lasts.

Lemma commit_entries_ok now us s F :
  let cs := cl_chunk_size (wb_log s) in
  let fs := log_frames cs (wb_next_lsn s) us in
  wal_inv s F -> wb_queue s = [] -> wait_inv (wb_next_lsn s) [] (wb_flush_waiter s) ->
  LOG_FRAME_HEADER_SIZE + LOG_FRAME_TAILER_SIZE < cs -> cs + cs <= U64_MAX ->
  log_ok cs (wb_next_lsn s) us -> wb_next_lsn s + zlen fs <= U64_MAX ->
  cl_next_sequence (wb_log s) + zlen fs <= U64_MAX ->
  exists lasts s', commit_entries now us s = (Ok lasts, s') /\ length lasts = length us /\
    Forall (fun l => advanced l (wb_flush_waiter s') = true) lasts /\ wal_inv s' (F ++ fs).
Proof.
  intros cs fs Hinv Hq Hw Hcs Hb Hok Hl Hn.
  destruct (enqueue_all_ok now us s Hcs Hb Hok) as (lasts & bs & E & Hf & Hls & Hbs & Hla & Hlen).
  fold cs fs in E, Hf, Hls, Hbs, Hla. rewrite Hq in E. cbn [app] in E.
  set (s1 := set_queue bs (set_next_lsn (wb_next_lsn s + zlen fs) s)) in *.
  destruct (run_flush_log_ok s1 F (wb_next_lsn s) []) as (s' & E' & Hinv' & _ & Hw' & _);
    cbn [wb_queue wb_log wb_flush_waiter s1 set_queue set_next_lsn] in *.
  - destruct Hinv as [Hv1 Hv2 Hv3]. by split.
  - done.
  - by rewrite Hf.
  - done.
  - cbn [app]. rewrite Hls. apply Forall_forall. intros l Hl'. apply elem_of_seqZ in Hl'. lia.
  - rewrite Hf in Hinv'. exists lasts, s'. split_and!; [| done | | done].
    + unfold commit_entries. st_step by exact E. by st_step by exact E'.
    + eapply Forall_impl; [exact Hla |]. cbn. intros l Hl'.
      apply (wait_inv_advanced _ _ _ _ Hw'); [lia |]. intros l' Hl''.
      cbn [app]. rewrite Hls. apply elem_of_seqZ. lia.
Qed.

(** ** Restart *)

Lemma files_are_length files bytes q : files_are files bytes -> files !! q = None <-> (q < 0 \/ zlen bytes <= q).
Proof.
  intros Hf. rewrite Hf. case_decide; [| split; [lia | done]].
  rewrite lookup_ge_None. unfold zlen. lia.
Qed.

Lemma files_are_insert files a (b b' : list byte) c :
  files_are files (a ++ b :: c) -> files_are (<[zlen a := b']> files) (a ++ b' :: c).
Proof.
  intros Hf q. pose proof (zlen_nonneg a). destruct (decide (q = zlen a)) as [-> | Hne].
  - rewrite lookup_insert_eq, decide_True by done. unfold zlen. by rewrite Nat2Z.id, list_lookup_middle.
  - rewrite lookup_insert_ne, Hf by done. case_decide; [| done].
    assert (Z.to_nat q <> length a) by (unfold zlen in *; lia).
    destruct (Nat.lt_ge_cases (Z.to_nat q) (length a)).
    + by rewrite !lookup_app_l by done.
    + rewrite !lookup_app_r by done. destruct (Z.to_nat q - length a)%nat eqn:E; [lia | done].
Qed.

Lemma files_size files bytes : files_are files bytes -> size files = length bytes.
Proof.
  intros Hf. pose proof (chunk_paths_sorted_ok _ _ Hf) as Hp. unfold chunk_paths_sorted in Hp.
  apply (f_equal length) in Hp. rewrite sort_stable_perm, length_fmap, length_seqZ in Hp.
  rewrite length_map_to_list in Hp. unfold zlen in Hp. lia.
Qed.

Lemma chunk_sequences_ok files bytes fuel : forall q,
  files_are files bytes -> 0 <= q <= zlen bytes -> zlen bytes <= U64_MAX ->
  (length bytes <= fuel + Z.to_nat q)%nat ->
  chunk_sequences fuel q files = Ok (seqZ q (zlen bytes - q)).
Proof.
  induction fuel as [| fuel IH]; intros q Hf Hq Hb Hfuel; cbn [chunk_sequences].
  - assert (q = zlen bytes) as -> by (unfold zlen in *; lia).
    rewrite (proj2 (files_are_length files bytes (zlen bytes) Hf)) by lia. by rewrite Z.sub_diag.
  - destruct (files !! q) as [b |] eqn:E.
    + apply (files_are_Some _ _ _ _ Hf) in E as [_ E]. apply lookup_lt_Some in E.
      unfold zlen in Hq, Hb.
      assert (saturating_add q 1 = q + 1) as -> by (unfold saturating_add; lia).
      rewrite IH; [| done | unfold zlen; lia | done | lia]. cbn [mbind res_bind].
      rewrite (seqZ_cons q) by (unfold zlen; lia). do 2 f_equal. f_equal; lia.
    + apply (files_are_length _ _ _ Hf) in E. by replace (zlen bytes - q) with 0 by lia.
Qed.

(** The bytes of a chunk once its torn tail is cut off. *)
Definition valid_bytes (g : list (list byte) * list byte) : list byte := concat g.1.

Lemma scan_chunks_ok q (post : list (list (list byte) * list byte)) : forall pre files m sz,
  Forall chunk_ok post ->
  files_are files ((valid_bytes <$> pre) ++ (chunk_bytes <$> post)) ->
  exists files',
    scan_chunks q (seqZ (zlen pre) (zlen post)) m sz files =
      (Ok (fold_left max_lsn_with (lsn_of <$> concat (fst <$> post)) m,
           if decide (zlen pre <= q) then default sz (zlen <$> ((valid_bytes <$> post) !! Z.to_nat (q - zlen pre)))
           else sz), files') /\
    files_are files' (valid_bytes <$> pre ++ post).
Proof.
  induction post as [| g post IH]; intros pre files m sz Hc Hf.
  { exists files. cbn. rewrite app_nil_r in *. split; [by case_decide | done]. }
  inversion Hc as [| ? ? Hg Hc']; subst. rewrite zlen_cons.
  pose proof (zlen_nonneg post). pose proof (zlen_nonneg pre).
  rewrite seqZ_cons by lia. cbn [scan_chunks]. st_step by reflexivity.
  assert (files !! zlen pre = Some (chunk_bytes g)) as Hl.
  { rewrite Hf, decide_True by done. unfold zlen. rewrite Nat2Z.id.
    apply list_lookup_middle. by rewrite length_fmap. }
  rewrite Hl. st_step by reflexivity.
  st_step by (unfold st_lift; rewrite scan_chunk by done; reflexivity).
  cbn [vp_corrupt vp_valid_len vp_max_lsn]. rewrite max_lsn_fold.
  set (files1 := if bool_decide (g.2 <> []) then <[zlen pre := valid_bytes g]> files else files).
  assert (files_are files1 ((valid_bytes <$> pre ++ [g]) ++ (chunk_bytes <$> post))) as Hf1.
  { rewrite fmap_app, <- app_assoc. cbn [fmap list_fmap app]. unfold files1. case_bool_decide as Hd.
    - replace (zlen pre) with (zlen (valid_bytes <$> pre)) by (unfold zlen; by rewrite length_fmap).
      by eapply files_are_insert.
    - assert (g.2 = []) as E by (by destruct g.2; [| destruct Hd]).
      assert (valid_bytes g = chunk_bytes g) as -> by (unfold chunk_bytes; by rewrite E, app_nil_r).
      exact Hf. }
  erewrite st_bind_ok; [| instantiate (1 := files1); instantiate (1 := tt)].
  2: { unfold files1. case_bool_decide; [| done]. unfold st_put. do 3 f_equal.
       unfold chunk_bytes. rewrite zsub_app_l, zsub_all by (pose proof (zlen_nonneg (concat g.1)); lia).
       done. }
  cbv zeta. replace (Z.succ (zlen pre)) with (zlen (pre ++ [g]))
    by (rewrite zlen_app; change (zlen [g]) with 1; lia).
  replace (Z.pred (zlen post + 1)) with (zlen post) by lia.
  destruct (IH (pre ++ [g]) files1 (fold_left max_lsn_with (lsn_of <$> g.1) m)
    (if zlen pre =? q
     then if bool_decide (g.2 ≠ []) then zlen (concat g.1) else zlen (chunk_bytes g) else sz) Hc' Hf1)
    as (files' & E & Hf').
  exists files'. rewrite <- app_assoc in Hf'. split; [| exact Hf'].
  rewrite E. f_equal. f_equal. f_equal.
  - change (concat (fst <$> g :: post)) with (g.1 ++ concat (fst <$> post)).
    by rewrite fmap_app, fold_left_app.
  - rewrite zlen_app. change (zlen [g]) with 1.
    assert ((if bool_decide (g.2 ≠ []) then zlen (concat g.1) else zlen (chunk_bytes g))
            = zlen (valid_bytes g)) as ->.
    { case_bool_decide as Hd; [done |]. assert (g.2 = []) as E' by (by destruct g.2; [| destruct Hd]).
      unfold chunk_bytes. by rewrite E', app_nil_r. }
    destruct (Z.eqb_spec (zlen pre) q) as [<- | Hne].
    + rewrite decide_False by lia. rewrite decide_True by lia. by rewrite Z.sub_diag.
    + destruct (decide (zlen pre <= q)) as [Hle | Hgt].
      * rewrite decide_True by lia.
        replace (Z.to_nat (q - zlen pre)) with (S (Z.to_nat (q - (zlen pre + 1)))) by lia. done.
      * by rewrite decide_False by lia.
Qed.

(** A restart on chunks with torn tails. *)
Lemma restart_ok chunk_size batching files (cs : list (list (list byte) * list byte)) :
  0 <= chunk_size -> Forall chunk_ok cs -> zlen cs <= U64_MAX ->
  files_are files (chunk_bytes <$> cs) ->
  exists s, WorkerWALBackend_new chunk_size batching Commit files = Ok s /\
    wal_inv s (concat (fst <$> cs)) /\ wb_queue s = [] /\
    wb_next_lsn s = match fold_left max_lsn_with (lsn_of <$> concat (fst <$> cs)) None with
                    | Some l => saturating_add l 1 | None => 0 end /\
    wait_inv (wb_next_lsn s) [] (wb_flush_waiter s) /\
    cl_next_sequence (wb_log s) = zlen cs /\ cl_chunk_size (wb_log s) = chunk_size.
Proof.
  intros Hcs Hc Hb Hf. unfold WorkerWALBackend_new, scan_tail_async.
  assert (zlen (chunk_bytes <$> cs) = zlen cs) as Hz by (unfold zlen; by rewrite length_fmap).
  destruct cs as [| c0 cs0] eqn:Ecs; [| rewrite <- Ecs in *].
  { assert (files = ∅) as -> by (apply map_eq; intros q; rewrite Hf, lookup_empty; by case_decide).
    eexists. split; [reflexivity |]. split_and!; try done; [| apply wait_inv_new].
    split; [| done | done | done]. exists []. split; [| done]. split; cbn; [| done | done | lia].
    intros q. rewrite lookup_empty. by case_decide. }
  assert (chunk_sequences_async files = Ok (seqZ 0 (zlen cs))) as Hseq.
  { unfold chunk_sequences_async. rewrite (chunk_sequences_ok files (chunk_bytes <$> cs)).
    - by rewrite Hz, Z.sub_0_r.
    - done.
    - rewrite Hz. pose proof (zlen_nonneg cs). lia.
    - by rewrite Hz.
    - rewrite (files_size _ _ Hf). lia. }
  assert (0 < zlen cs) as Hpos by (rewrite Ecs, zlen_cons; pose proof (zlen_nonneg cs0); lia).
  destruct (scan_chunks_ok (zlen cs - 1) cs [] files None 0 Hc Hf) as (files' & E & Hf').
  change (zlen (@nil (list (list byte) * list byte))) with 0 in E. cbn [app] in Hf'.
  rewrite decide_True in E by lia. rewrite Z.sub_0_r in E.
  destruct (exists_last (l := cs)) as (cs1 & g & Ecs1); [by rewrite Ecs |].
  assert (zlen cs - 1 = zlen cs1) as Hcs1 by (rewrite Ecs1, zlen_app; change (zlen [g]) with 1; lia).
  assert ((valid_bytes <$> cs) !! Z.to_nat (zlen cs - 1) = Some (valid_bytes g)) as Hlast.
  { rewrite Hcs1, Ecs1, fmap_app. unfold zlen. rewrite Nat2Z.id.
    apply list_lookup_middle. by rewrite length_fmap. }
  rewrite Hlast in E. cbn [default fmap option_fmap option_map id] in E.
  st_step by reflexivity. rewrite Hseq. st_step by reflexivity.
  assert (last (seqZ 0 (zlen cs)) = Some (zlen cs - 1)) as ->.
  { rewrite last_lookup, length_seqZ, lookup_seqZ_lt by lia. f_equal. lia. }
  st_step by exact E. cbv beta iota zeta. st_step by (unfold st_lift; rewrite uadd_ok by lia; reflexivity).
  eexists. split; [reflexivity |].
  assert (file_rep files' (fst <$> cs)) as Hrep.
  { apply file_rep_files. rewrite <- list_fmap_compose. exact Hf'. }
  assert (zlen (fst <$> cs) = zlen cs) as Hz' by (unfold zlen; by rewrite length_fmap).
  split_and!; cbn [from_tail wb_queue wb_next_lsn wb_flush_waiter wb_log wb_files];
    destruct (Z.ltb_spec (zlen (valid_bytes g)) chunk_size); cbn; try done; try apply wait_inv_new; try lia.
  - split; [| done | done | done]. exists (fst <$> cs). split; [| done].
    split; cbn; [done | lia | | pose proof (zlen_nonneg (valid_bytes g)); lia].
    exists (fst <$> cs1), g.1. rewrite Ecs1, fmap_app. split_and!; [done | | done].
    rewrite zlen_app. change (zlen [g]) with 1. unfold zlen. rewrite length_fmap. lia.
  - split; [| done | done | done]. exists (fst <$> cs). split; [| done].
    split; cbn; [done | lia | done | lia].
Qed.

End durability.
