(* ===== verification/WalProperties.v ===== *)
(** * Properties of the worker log

    What the log promises to its users: entries survive the round trip
    through frames, a torn tail costs at most the entry that was being
    written, an acknowledged commit is recovered, and a restart resumes
    behind the valid frames.  The last theorem shows where a restart does
    not: frames of an entry that was never completed stay in the log. *)

From S2P Require Import Prelude Errors Compat FileOps LogFrame WalFrames WalBackend WalDurability.

(** ** Byte strings in MessagePack (format bin 32)

    An instance of the entry codec for the examples. *)
Module BinString.

Definition encode (v : list byte) : option (list byte) :=
  if zlen v <=? U32_MAX then Some (xc6 :: to_be_bytes 4 (zlen v) ++ v) else None.

Definition decode_body (rest : list byte) : option (list byte) :=
  let n := from_be_bytes 4 (rest.[0, 4]) in
  if zlen rest =? 4 + n then Some (rest.[4, n]) else None.

Definition decode (bs : list byte) : option (list byte) :=
  match bs with xc6 :: rest => decode_body rest | _ => None end.

#[export] Instance msgpack : Msgpack (list byte) := {| to_vec := encode; from_slice := decode |}.

#[export] Instance msgpack_ok : MsgpackOk (list byte).
Proof.
  split.
  - intros v bs E. cbn in E. unfold encode in E. destruct (Z.leb_spec (zlen v) U32_MAX); [| done].
    injection E as <-. pose proof (zlen_nonneg v).
    change (decode_body (to_be_bytes 4 (zlen v) ++ v) = Some v). unfold decode_body. cbv zeta.
    assert (from_be_bytes 4 ((to_be_bytes 4 (zlen v) ++ v).[0, 4]) = zlen v) as ->
      by (apply (be_field_here 4), range_u32; mlia).
    rewrite zlen_app, to_be_bytes_length. cbn [Z.of_nat Pos.of_succ_nat Pos.succ].
    rewrite Z.eqb_refl. f_equal. rewrite be_field_skip by (cbn; lia). be_offsets.
    by apply zsub_all.
  - intros v. cbn. unfold encode. by destruct (zlen v <=? U32_MAX).
Qed.

End BinString.
Import BinString.
#[local] Existing Instance Reference.packages.

Section properties.
Context `{Packages} {L : Type} `{MsgpackOk L}.

(** An entry that is encodable, shorter than 4 GiB and whose frames have
    LSNs is serialized into at least one frame; the frames carry consecutive
    LSNs from [next_lsn] on, the counter ends behind them, no frame is longer
    than the limit, and deserializing the frames gives the entry back. *)
Theorem entry_roundtrip max_part_size lsn v :
  LOG_FRAME_HEADER_SIZE + LOG_FRAME_TAILER_SIZE < max_part_size -> entry_ok max_part_size lsn v ->
  exists frames,
    serialize_entry v max_part_size lsn = (Ok frames, lsn + zlen frames) /\
    frame_lsns frames = Ok (seqZ lsn (zlen frames)) /\
    Forall (fun f => f <> [] /\ zlen f <= max_part_size) frames /\
    deserialize_entry frames = Ok v.
Proof.
  intros Hmax Hok. exists (entry_frames max_part_size lsn v).
  destruct (entry_frames_valid _ Hmax _ _ Hok) as [Hv Hl]. split_and!.
  - by apply serialize_entry_ok.
  - by rewrite frame_lsns_valid, Hl.
  - by apply entry_frames_size.
  - by eapply deserialize_entry_ok.
Qed.

(** A chunk of valid frames that ends in a frame cut at any byte is scanned
    without a failure: exactly the frames before the cut are returned, their
    length is where the valid prefix ends, and the tail is reported iff there
    is one. *)
Theorem scan_torn_chunk (fs : list (list byte)) f k :
  Forall valid_frame fs -> valid_frame f -> 0 <= k < zlen f ->
  exists m, scan_valid_frame_prefix (concat fs ++ f.[0, k]) = Ok {|
    vp_valid_len := zlen (concat fs); vp_frames := fs; vp_max_lsn := m;
    vp_corrupt := bool_decide (k <> 0) |}.
Proof.
  intros Hfs Hf Hk. eexists. change (concat fs ++ f.[0, k]) with (chunk_bytes (fs, f.[0, k])).
  rewrite scan_chunk by (split; [done | by apply torn_frame]). cbn [fst snd]. do 2 f_equal.
  apply bool_decide_ext. destruct (decide (k = 0)) as [-> | Hk0]; [done |].
  split; [done |]. intros _ E. apply (f_equal zlen) in E. rewrite zlen_zsub in E by lia. done.
Qed.

(** C13: Recovery of a log whose writer crashed in the middle of an entry.
    However the frames are spread over chunks and wherever the last frame of
    a chunk was cut, recovery hands exactly the completed entries to the
    handler, once each, in order, with their start LSNs, and drops the
    unfinished entry. *)
Theorem recover_after_crash {S} max_part_size (handle : L -> Z -> ST ErrorCode S unit) finish
    lsn vs v pre (cs : list (list (list byte) * list byte)) s :
  LOG_FRAME_HEADER_SIZE + LOG_FRAME_TAILER_SIZE < max_part_size ->
  log_ok max_part_size lsn (vs ++ [v]) ->
  unfinished max_part_size (lsn + zlen (log_frames max_part_size lsn vs)) v pre ->
  Forall chunk_ok cs -> concat (fst <$> cs) = log_frames max_part_size lsn vs ++ pre ->
  recover handle finish (chunk_bytes <$> cs) s =
    (handle_all handle (log_entries max_part_size lsn vs) ;; finish) s.
Proof.
  intros Hmax Hok Hun Hcs Hc.
  destruct (log_ok_app _ _ _ _ Hok) as [Hvs [Hv _]].
  destruct (decode_unfinished _ Hmax _ _ _ ([], None) Hv Hun) as [start Hp].
  unfold recover, mbind, st_bind.
  rewrite (recover_chunks_ok handle cs ([], None) (log_entries max_part_size lsn vs) (pre, start)); [done | done | by intros [] |].
  rewrite Hc, decode_loop_app. st_step by (by apply decode_loop_log).
  st_step by exact Hp. by rewrite app_nil_r.
Qed.

(** A restart finds every completed frame.  On chunk files whose valid
    frames are followed by torn tails, opening the log succeeds, the tails
    are cut off, the next LSN is behind every LSN in the log, and the log is
    ready to append. *)
Theorem restart_resumes max_part_size batching files lsn (vs : list L) cs :
  LOG_FRAME_HEADER_SIZE + LOG_FRAME_TAILER_SIZE < max_part_size ->
  vs <> [] -> log_ok max_part_size lsn vs ->
  lsn + zlen (log_frames max_part_size lsn vs) <= U64_MAX -> zlen cs <= U64_MAX ->
  Forall chunk_ok cs -> concat (fst <$> cs) = log_frames max_part_size lsn vs ->
  files_are files (chunk_bytes <$> cs) ->
  exists s, WorkerWALBackend_new max_part_size batching Commit files = Ok s /\
    wal_inv s (log_frames max_part_size lsn vs) /\ wb_queue s = [] /\
    wb_next_lsn s = lsn + zlen (log_frames max_part_size lsn vs) /\
    wait_inv (wb_next_lsn s) [] (wb_flush_waiter s) /\
    cl_next_sequence (wb_log s) = zlen cs /\ cl_chunk_size (wb_log s) = max_part_size.
Proof.
  intros Hmax Hne Hok Hl Hcs Hc Hcc Hf.
  destruct (restart_ok max_part_size batching files cs) as (s & E & Hinv & Hq & Hn & Hrest);
    [unfold LOG_FRAME_HEADER_SIZE, LOG_FRAME_TAILER_SIZE in Hmax; lia | done | done | done |].
  rewrite Hcc in Hinv, Hn. exists s. split_and!; try done; try apply Hrest. rewrite Hn.
  rewrite (proj2 (log_frames_valid _ Hmax _ _ Hok)).
  pose proof (log_frames_pos _ Hmax _ _ Hok Hne) as Hp.
  rewrite max_lsn_seqZ by (done || lia). unfold saturating_add. lia.
Qed.


(** What a restart makes of a log whose last entry was not completed. *)
Lemma restart_unfinished max_part_size batching files lsn (vs : list L) v pre rest cs :
  LOG_FRAME_HEADER_SIZE + LOG_FRAME_TAILER_SIZE < max_part_size -> log_ok max_part_size lsn (vs ++ [v]) ->
  entry_frames max_part_size (lsn + zlen (log_frames max_part_size lsn vs)) v = pre ++ rest -> pre <> [] ->
  lsn + zlen (log_frames max_part_size lsn vs) + zlen pre <= U64_MAX -> zlen cs <= U64_MAX -> Forall chunk_ok cs ->
  concat (fst <$> cs) = log_frames max_part_size lsn vs ++ pre -> files_are files (chunk_bytes <$> cs) ->
  exists s, WorkerWALBackend_new max_part_size batching Commit files = Ok s /\
    wal_inv s (log_frames max_part_size lsn vs ++ pre) /\ wb_queue s = [] /\
    wb_next_lsn s = lsn + zlen (log_frames max_part_size lsn vs) + zlen pre /\
    wait_inv (wb_next_lsn s) [] (wb_flush_waiter s) /\
    cl_next_sequence (wb_log s) = zlen cs /\ cl_chunk_size (wb_log s) = max_part_size /\
    Forall valid_frame (log_frames max_part_size lsn vs ++ pre).
Proof.
  intros Hmax Hok E Hpre Hl Hcs Hc Hcc Hf. set (F := log_frames max_part_size lsn vs) in *.
  destruct (log_frames_valid _ Hmax _ _ Hok) as [Hv Hlsns].
  rewrite (proj1 (log_frames_app max_part_size vs [v] lsn)) in Hv, Hlsns. fold F in Hv, Hlsns. cbn [log_frames] in Hv, Hlsns.
  rewrite app_nil_r, E, app_assoc in Hv, Hlsns.
  assert (0 < zlen pre) as Hpos by (destruct pre as [| f pre']; [done |]; rewrite zlen_cons; pose proof (zlen_nonneg pre'); lia).
  pose proof (zlen_nonneg F). pose proof (zlen_nonneg rest).
  assert (lsn_of <$> F ++ pre = seqZ lsn (zlen (F ++ pre))) as Hlsns'.
  { rewrite fmap_app, (zlen_app (F ++ pre)), seqZ_app in Hlsns by (pose proof (zlen_nonneg (F ++ pre)); lia).
    apply app_inj_1 in Hlsns as [Hlsns _]; [done |]. rewrite length_fmap, length_seqZ. unfold zlen. lia. }
  destruct (restart_ok max_part_size batching files cs) as (s & Es & Hinv & Hq & Hn & Hrest);
    [unfold LOG_FRAME_HEADER_SIZE, LOG_FRAME_TAILER_SIZE in Hmax; lia | done | done | done |].
  rewrite Hcc in Hinv, Hn. exists s. split_and!; try done; try apply Hrest.
  - rewrite Hn, Hlsns', zlen_app. rewrite max_lsn_seqZ by (done || lia). unfold saturating_add. lia.
  - by apply Forall_app in Hv as [Hv _].
Qed.

(** C36: A restart keeps the frames of an entry that was never completed.  Let
    a crash leave the completed entries [vs] and some, but not all, frames of
    [v].  Opening the log succeeds and keeps these frames, because it only cuts
    invalid ones.  Entries committed afterwards are acknowledged and synced;
    but if the first of them does not happen to have exactly as many frames as
    [v] is missing, every later recovery hands over at most entries of [vs],
    fails with [Decode], and never reaches an acknowledged entry. *)
Theorem unfinished_entry_poisons_log max_part_size batching files lsn (vs : list L) v pre rest cs now u us :
  let next := lsn + zlen (log_frames max_part_size lsn vs) + zlen pre in
  let fs := log_frames max_part_size next (u :: us) in
  LOG_FRAME_HEADER_SIZE + LOG_FRAME_TAILER_SIZE < max_part_size -> max_part_size + max_part_size <= U64_MAX ->
  log_ok max_part_size lsn (vs ++ [v]) ->
  entry_frames max_part_size (lsn + zlen (log_frames max_part_size lsn vs)) v = pre ++ rest -> pre <> [] -> rest <> [] ->
  Forall chunk_ok cs -> concat (fst <$> cs) = log_frames max_part_size lsn vs ++ pre -> files_are files (chunk_bytes <$> cs) ->
  log_ok max_part_size next (u :: us) -> next + zlen fs <= U64_MAX -> zlen cs + zlen fs <= U64_MAX ->
  zlen (entry_frames max_part_size next u) <> zlen rest ->
  exists s lasts s', WorkerWALBackend_new max_part_size batching Commit files = Ok s /\
    commit_entries now (u :: us) s = (Ok lasts, s') /\ length lasts = length (u :: us) /\
    Forall (fun l => advanced l (wb_flush_waiter s') = true) lasts /\
    forall S (handle : L -> Z -> ST ErrorCode S unit) finish, exists es,
      es `prefix_of` log_entries max_part_size lsn vs /\
      forall st, recover_files handle finish (wb_synced s') st = (handle_all handle es ;; st_lift (Err Decode)) st.
Proof.
  intros next fs Hmax Hb Hok E Hpre Hrest Hc Hcc Hf Hus Hl Hcs Hne. pose proof (zlen_nonneg fs). pose proof (zlen_nonneg cs).
  destruct (restart_unfinished max_part_size batching files lsn vs v pre rest cs) as (s & Es & Hinv & Hq & Hn & Hw & Hsq & Hcz & Hv);
    try done; try lia. pose proof Hw as Hw'. rewrite Hn in Hw'.
  destruct (commit_entries_ok now (u :: us) s (log_frames max_part_size lsn vs ++ pre)) as (lasts & s' & Ec & Hlen & Hadv & Hinv');
    rewrite ?Hcz, ?Hn, ?Hsq; try done.
  exists s, lasts, s'. split_and!; try done. intros S handle finish. rewrite Hcz, Hn in Hinv'. fold next fs in Hinv'.
  destruct (log_ok_app _ _ _ _ Hok) as [Hvs [Hve _]]. pose proof Hus as [Hu _].
  destruct (decode_unfinished _ Hmax _ v pre ([], None) Hve) as [start Hp]; [by exists rest |].
  assert (decode_loop (log_frames max_part_size lsn vs ++ pre) ([], None) = (Ok (log_entries max_part_size lsn vs), (pre, start))) as Hd.
  { rewrite decode_loop_app. st_step by (by apply decode_loop_log). st_step by exact Hp. by rewrite app_nil_r. }
  destruct (decode_loop_mixed _ Hmax _ v pre rest _ u start Hve E Hpre Hu Hne) as [p Hbad].
  destruct Hinv' as [(gs & Hr & Hgs) Hsy _ _].
  assert (Forall valid_frame (concat gs)) as Hvalid.
  { rewrite Hgs. apply Forall_app. split; [done |]. by apply (log_frames_valid max_part_size Hmax). }
  destruct (file_rep_chunks _ _ (lr_files _ _ _ Hr) Hvalid) as (ks & Hkf & Hks & Hkg).
  destruct (recover_chunks_bad handle ks ([], None) Decode p Hks ltac:(by intros [])) as (k1 & k2 & es & p1 & Ek & Ed & Hrec).
  { rewrite Hkg, Hgs, decode_loop_app. st_step by exact Hd. apply st_bind_err. unfold fs. cbn [log_frames].
    rewrite decode_loop_app. by apply st_bind_err. }
  exists es. split.
  - eapply (decode_prefix _ Hmax _ _ _ _ u); [exact Hu | exact Hd | by exists p | | exact Ed].
    rewrite <- concat_app, <- fmap_app, <- Ek, Hkg, Hgs. reflexivity.
  - intros st. unfold recover_files, recover. rewrite Hsy, (files_in_order _ _ Hkf). unfold mbind, st_bind. rewrite Hrec.
    unfold mbind, st_bind, st_lift. by destruct (handle_all handle es st) as [[[] | |] st'].
Qed.

End properties.

(** The watermark of group commit.  Whatever the order and the grouping in
    which flush rounds report LSNs, a task that waits for [target] is released
    exactly when every LSN from the start of the log session up to [target]
    has been reported. *)
Theorem watermark_released base (reports : list (list Z)) target :
  Forall (Forall (fun l => l < U64_MAX)) reports -> base <= target ->
  advanced target (fold_left (fun w lsns => ready lsns w) reports (mkWaitLsn base [])) = true <->
  (forall l, base <= l <= target -> exists lsns, lsns ∈ reports /\ l ∈ lsns).
Proof.
  intros Hb Ht.
  assert (wait_inv base (concat reports)
            (fold_left (fun w lsns => ready lsns w) reports (mkWaitLsn base []))) as Hw.
  { induction reports as [| lsns reports IH] using rev_ind; [apply wait_inv_new |].
    apply Forall_app in Hb as [Hb1 Hb2]. inversion Hb2 as [| ? ? Hb3 _]; subst.
    rewrite fold_left_app, concat_app. cbn [fold_left concat]. rewrite app_nil_r.
    apply ready_inv; [by apply IH |]. apply Forall_app. split; [| done].
    clear -Hb1. induction Hb1; [constructor | by apply Forall_app]. }
  rewrite (wait_inv_advanced _ _ _ _ Hw Ht). split; intros Hall l Hl.
  - apply concat_elem, Hall, Hl.
  - apply concat_elem, Hall, Hl.
Qed.

Lemma watermark_released_witness :
  advanced 5 (fold_left (fun w lsns => ready lsns w) [[5; 4]; [3]] (mkWaitLsn 3 [])) = true <->
  (forall l, 3 <= l <= 5 -> exists lsns, lsns ∈ [[5; 4]; [3]] /\ l ∈ lsns).
Proof. apply watermark_released; [repeat constructor | lia]. Defined.

(** ** Examples *)

(** Three short entries on a log with frames of at most 36 bytes. *)
Definition demo_log : list (list byte) := [[x01; x02]; []].
Definition demo_entry : list byte := [x03; x04; x05; x06].

Lemma demo_log_ok : log_ok 36 7 (demo_log ++ [demo_entry]).
Proof.
  repeat split; eexists; (split; [reflexivity |]); split_and!; vm_compute; congruence.
Qed.

(** The frames of the two entries, and the first frame of the third. *)
Definition demo_frames : list (list byte) := log_frames 36 7 demo_log.
Definition demo_unfinished : list (list byte) := take 1 (entry_frames 36 (7 + zlen demo_frames) demo_entry).
Definition demo_torn : list byte :=
  (nth 1 (entry_frames 36 (7 + zlen demo_frames) demo_entry) []).[0, 20].

(** The chunks: a frame, the rest of the frames, a frame that is cut. *)
Definition demo_chunks : list (list (list byte) * list byte) :=
  [(take 1 demo_frames, []); (drop 1 demo_frames ++ demo_unfinished, demo_torn)].

Lemma demo_frames_valid : Forall valid_frame (log_frames 36 7 (demo_log ++ [demo_entry])).
Proof. apply (log_frames_valid 36 ltac:(done) _ _ demo_log_ok). Qed.

Lemma demo_chunks_ok : Forall chunk_ok demo_chunks.
Proof.
  pose proof demo_frames_valid as Hv. rewrite (proj1 (log_frames_app 36 demo_log [demo_entry] 7)) in Hv.
  apply Forall_app in Hv as [Hv1 Hv2]. cbn [log_frames] in Hv2. rewrite app_nil_r in Hv2.
  fold demo_frames in Hv1, Hv2.
  constructor; [split | constructor; [split | constructor]]; cbn [fst snd].
  - by apply Forall_take.
  - by left.
  - apply Forall_app. split; [by apply Forall_drop | by apply Forall_take].
  - unfold demo_torn. apply torn_frame; [| by vm_compute].
    apply (proj1 (Forall_nth _ [] _) Hv2 1%nat). vm_compute. lia.
Qed.

(** A handler that collects what it is given. *)
Definition collect (v : list byte) (lsn : Z) : ST ErrorCode (list (Z * list byte)) unit :=
  st_modify (fun seen => seen ++ [(lsn, v)]).

Lemma entry_roundtrip_witness : exists frames,
  serialize_entry [x01; x02; x03] 36 7 = (Ok frames, 7 + zlen frames) /\
  frame_lsns frames = Ok (seqZ 7 (zlen frames)) /\
  Forall (fun f => f <> [] /\ zlen f <= 36) frames /\ deserialize_entry frames = Ok [x01; x02; x03].
Proof.
  apply (entry_roundtrip 36 7 [x01; x02; x03]); [done |].
  eexists. split; [reflexivity |]. split_and!; vm_compute; congruence.
Defined.

Lemma scan_torn_chunk_witness : exists m,
  scan_valid_frame_prefix (concat demo_frames ++ (hd [] demo_frames).[0, 31]) = Ok {|
    vp_valid_len := zlen (concat demo_frames); vp_frames := demo_frames; vp_max_lsn := m;
    vp_corrupt := bool_decide (31 <> 0) |}.
Proof.
  pose proof demo_frames_valid as Hv. rewrite (proj1 (log_frames_app 36 demo_log [demo_entry] 7)) in Hv.
  apply Forall_app in Hv as [Hv _].
  apply (scan_torn_chunk demo_frames (hd [] demo_frames) 31); [done | | by vm_compute].
  apply (proj1 (Forall_nth _ [] _) Hv 0%nat). vm_compute. lia.
Defined.

Lemma recover_after_crash_witness :
  recover collect (mret tt) (chunk_bytes <$> demo_chunks) [] =
    (handle_all collect (log_entries 36 7 demo_log) ;; mret tt) [].
Proof.
  apply (recover_after_crash 36 collect (mret tt) 7 demo_log demo_entry demo_unfinished).
  - done.
  - exact demo_log_ok.
  - exists (drop 1 (entry_frames 36 (7 + zlen demo_frames) demo_entry)).
    split; [by vm_compute | symmetry; apply take_drop].
  - exact demo_chunks_ok.
  - by vm_compute.
Defined.

(** The two entries alone, in two chunk files. *)
Definition demo_files : gmap Z (list byte) :=
  <[0 := concat (take 1 demo_frames)]> (<[1 := concat (drop 1 demo_frames) ++ [x4c; x47]]> ∅).

Definition demo_file_chunks : list (list (list byte) * list byte) :=
  [(take 1 demo_frames, []); (drop 1 demo_frames, [x4c; x47])].

Lemma demo_files_are : files_are demo_files (chunk_bytes <$> demo_file_chunks).
Proof.
  intros q. unfold demo_files. destruct (decide (q = 0)) as [-> | H0].
  { rewrite lookup_insert_eq. cbn. by rewrite app_nil_r. }
  destruct (decide (q = 1)) as [-> | H1].
  { rewrite lookup_insert_ne, lookup_insert_eq by done. done. }
  rewrite !lookup_insert_ne, lookup_empty by done. case_decide; [| done].
  symmetry. apply lookup_ge_None. cbn. lia.
Qed.

Lemma demo_file_chunks_ok : Forall chunk_ok demo_file_chunks.
Proof.
  pose proof demo_frames_valid as Hv. rewrite (proj1 (log_frames_app 36 demo_log [demo_entry] 7)) in Hv.
  apply Forall_app in Hv as [Hv _]. fold demo_frames in Hv.
  constructor; [split | constructor; [split | constructor]]; cbn [fst snd];
    [by apply Forall_take | by left | by apply Forall_drop | right; by eexists].
Qed.

Lemma restart_resumes_witness : exists s,
  WorkerWALBackend_new 36 WorkerLogBatching_default Commit demo_files = Ok s /\
  wal_inv s (log_frames 36 7 demo_log) /\ wb_queue s = [] /\
  wb_next_lsn s = 7 + zlen (log_frames 36 7 demo_log) /\
  wait_inv (wb_next_lsn s) [] (wb_flush_waiter s) /\
  cl_next_sequence (wb_log s) = zlen demo_file_chunks /\ cl_chunk_size (wb_log s) = 36.
Proof.
  apply (restart_resumes 36 WorkerLogBatching_default demo_files 7 demo_log demo_file_chunks).
  - done.
  - done.
  - apply (log_ok_app 36 demo_log [demo_entry]), demo_log_ok.
  - by vm_compute.
  - by vm_compute.
  - exact demo_file_chunks_ok.
  - by vm_compute.
  - exact demo_files_are.
Defined.




(** A log that a writer left after the first of the three frames of an entry. *)
Definition crash_entry : list byte := replicate 12 x07.
Definition crash_left : list (list byte) := Eval vm_compute in take 1 (entry_frames 40 0 crash_entry).
Definition crash_missing : list (list byte) := Eval vm_compute in drop 1 (entry_frames 40 0 crash_entry).
Definition crash_files : gmap Z (list byte) := <[0 := concat crash_left]> ∅.

Lemma crash_entry_ok : log_ok 40 0 [crash_entry].
Proof. split; [| done]. eexists. split; [reflexivity |]. split_and!; vm_compute; congruence. Qed.

Lemma unfinished_entry_poisons_log_witness : exists s lasts s',
  WorkerWALBackend_new 40 WorkerLogBatching_default Commit crash_files = Ok s /\
  commit_entries 0 [[x09]] s = (Ok lasts, s') /\ length lasts = 1%nat /\
  Forall (fun l => advanced l (wb_flush_waiter s') = true) lasts /\
  forall S (handle : list byte -> Z -> ST ErrorCode S unit) finish, exists es,
    es `prefix_of` log_entries 40 0 [] /\
    forall st, recover_files handle finish (wb_synced s') st = (handle_all handle es ;; st_lift (Err Decode)) st.
Proof.
  apply (unfinished_entry_poisons_log 40 WorkerLogBatching_default crash_files 0 [] crash_entry crash_left crash_missing
           [(crash_left, [])] 0 [x09] []).
  - by vm_compute.
  - by vm_compute.
  - exact crash_entry_ok.
  - by vm_compute.
  - done.
  - done.
  - constructor; [split; [| by left] | constructor]. destruct (entry_frames_valid 40 ltac:(done) 0 crash_entry (proj1 crash_entry_ok)) as [Hv _].
    apply (Forall_take _ 1%nat) in Hv. exact Hv.
  - done.
  - intros q. unfold crash_files. rewrite lookup_insert. case_decide as Hq; [subst q; by vm_compute |]. rewrite lookup_empty.
    destruct (decide (0 <= q)); [| done]. cbn. by rewrite (proj2 (lookup_ge_None _ _)) by (cbn; lia).
  - split; [| done]. eexists. split; [reflexivity |]. split_and!; vm_compute; congruence.
  - by vm_compute.
  - by vm_compute.
  - by vm_compute.
Defined.
