(* ===== verification/PageFormat.v ===== *)
(** * On-page structures: header, record slots, tailer

    [src/mudu_kernel/src/storage/page/format/latest.rs] ([PageHeader]),
    [record_slot.rs] and [record_slot_ref.rs] ([RecordSlot],
    [RecordSlotRef]) and [page_tailer.rs] ([PageTailer]).  Each structure has
    the source's fields and is encoded field by field into a byte buffer;
    [header_bytes], [slot_bytes] and [tailer_bytes] are the byte images the
    encoders are shown to write. *)

From S2P Require Import Prelude Errors Compat.

Section page_format.
Context `{Packages}.

(** [LittleEndian::read_uN(&input[a..a + n])]. *)
Definition read_le (n : nat) (a : Z) (input : list byte) : RS Z :=
  bs ← slice a (a + Z.of_nat n) input;
  Ok (le_read n bs).

(** [LittleEndian::write_uN(&mut out[a..a + n], v)]. *)
Definition write_le (n : nat) (a v : Z) : ST ErrorCode (list byte) unit :=
  copy_from_slice a (a + Z.of_nat n) (le_write n v).

(** ** Page header *)

Definition PAGE_HEADER_SIZE : Z := 128.
Definition NONE_PAGE_ID : Z := U64_MAX.
Definition PAGE_HEADER_MAGIC : Z := 0x50414745.
Definition PAGE_VERSION : Z := PAGE_CURRENT_VERSION.
Definition PAGE_HEADER_FIXED_SIZE : Z := 84.
Definition PAGE_HEADER_RESERVED_SIZE : Z := PAGE_HEADER_SIZE - PAGE_HEADER_FIXED_SIZE.

Definition PAGE_HEADER_OFF_MAGIC : Z := 0.
Definition PAGE_HEADER_OFF_VERSION : Z := 4.
Definition PAGE_HEADER_OFF_PAGE_ID : Z := 8.
Definition PAGE_HEADER_OFF_PREV_PAGE : Z := 16.
Definition PAGE_HEADER_OFF_NEXT_PAGE : Z := 24.
Definition PAGE_HEADER_OFF_LSN : Z := 32.
Definition PAGE_HEADER_OFF_FLAGS : Z := 40.
Definition PAGE_HEADER_OFF_TUPLE_FLAGS : Z := 48.
Definition PAGE_HEADER_OFF_RECORD_COUNT : Z := 56.
Definition PAGE_HEADER_OFF_FIRST_FREE_OFFSET : Z := 60.
Definition PAGE_HEADER_OFF_FREE_BYTES : Z := 64.
Definition PAGE_HEADER_OFF_LAST_RECORD_OFFSET : Z := 68.
Definition PAGE_HEADER_OFF_TUPLE_FORMAT_VERSION : Z := 72.
Definition PAGE_HEADER_OFF_TUPLE_SCHEMA_HASH : Z := 76.
Definition PAGE_HEADER_OFF_RESERVED : Z := 84.

Record PageHeader := mkPageHeader {
  ph_magic : Z;
  ph_version : Z;
  ph_page_id : Z;
  ph_prev_page : Z;
  ph_next_page : Z;
  ph_lsn : Z;
  ph_flags : Z;
  ph_record_count : Z;
  ph_first_free_offset : Z;
  ph_free_bytes : Z;
  ph_last_record_offset : Z;
  ph_tuple_format_version : Z;
  ph_tuple_schema_hash : Z;
  ph_tuple_flags : Z;
  ph_reserved : list byte;
}.

Definition PageHeader_new (page_id : Z) : PageHeader := {|
  ph_magic := PAGE_HEADER_MAGIC;
  ph_version := PAGE_VERSION;
  ph_page_id := page_id;
  ph_prev_page := NONE_PAGE_ID;
  ph_next_page := NONE_PAGE_ID;
  ph_lsn := 0;
  ph_flags := 0;
  ph_record_count := 0;
  ph_first_free_offset := PAGE_HEADER_SIZE;
  ph_free_bytes := 0;
  ph_last_record_offset := 0;
  ph_tuple_format_version := 0;
  ph_tuple_schema_hash := 0;
  ph_tuple_flags := 0;
  ph_reserved := zeros PAGE_HEADER_RESERVED_SIZE;
|}.

(** The free function [decode(input, magic, version)]. *)
Definition PageHeader_decode_fields (input : list byte) (magic version : Z) : RS PageHeader :=
  page_id ← read_le 8 PAGE_HEADER_OFF_PAGE_ID input;
  prev_page ← read_le 8 PAGE_HEADER_OFF_PREV_PAGE input;
  next_page ← read_le 8 PAGE_HEADER_OFF_NEXT_PAGE input;
  lsn ← read_le 8 PAGE_HEADER_OFF_LSN input;
  flags ← read_le 8 PAGE_HEADER_OFF_FLAGS input;
  tuple_flags ← read_le 8 PAGE_HEADER_OFF_TUPLE_FLAGS input;
  record_count ← read_le 4 PAGE_HEADER_OFF_RECORD_COUNT input;
  first_free_offset ← read_le 4 PAGE_HEADER_OFF_FIRST_FREE_OFFSET input;
  free_bytes ← read_le 4 PAGE_HEADER_OFF_FREE_BYTES input;
  last_record_offset ← read_le 4 PAGE_HEADER_OFF_LAST_RECORD_OFFSET input;
  tuple_format_version ← read_le 4 PAGE_HEADER_OFF_TUPLE_FORMAT_VERSION input;
  tuple_schema_hash ← read_le 8 PAGE_HEADER_OFF_TUPLE_SCHEMA_HASH input;
  reserved ← slice PAGE_HEADER_OFF_RESERVED
               (PAGE_HEADER_OFF_RESERVED + PAGE_HEADER_RESERVED_SIZE) input;
  Ok (mkPageHeader magic version page_id prev_page next_page lsn flags
        record_count first_free_offset free_bytes last_record_offset
        tuple_format_version tuple_schema_hash tuple_flags reserved).

Definition PageHeader_decode (input : list byte) : RS PageHeader :=
  if zlen input <? PAGE_HEADER_SIZE then Err Decode else
  magic ← read_le 4 PAGE_HEADER_OFF_MAGIC input;
  compat (check_magic Page magic) ;;
  version ← read_le 4 PAGE_HEADER_OFF_VERSION input;
  compat (check_version Page version) ;;
  PageHeader_decode_fields input magic version.

Definition PageHeader_encode (h : PageHeader) : ST ErrorCode (list byte) unit :=
  out ← st_get;
  if zlen out <? PAGE_HEADER_SIZE then st_lift (Err Encode) else
  write_le 4 PAGE_HEADER_OFF_MAGIC (ph_magic h) ;;
  write_le 4 PAGE_HEADER_OFF_VERSION (ph_version h) ;;
  write_le 8 PAGE_HEADER_OFF_PAGE_ID (ph_page_id h) ;;
  write_le 8 PAGE_HEADER_OFF_PREV_PAGE (ph_prev_page h) ;;
  write_le 8 PAGE_HEADER_OFF_NEXT_PAGE (ph_next_page h) ;;
  write_le 8 PAGE_HEADER_OFF_LSN (ph_lsn h) ;;
  write_le 8 PAGE_HEADER_OFF_FLAGS (ph_flags h) ;;
  write_le 8 PAGE_HEADER_OFF_TUPLE_FLAGS (ph_tuple_flags h) ;;
  write_le 4 PAGE_HEADER_OFF_RECORD_COUNT (ph_record_count h) ;;
  write_le 4 PAGE_HEADER_OFF_FIRST_FREE_OFFSET (ph_first_free_offset h) ;;
  write_le 4 PAGE_HEADER_OFF_FREE_BYTES (ph_free_bytes h) ;;
  write_le 4 PAGE_HEADER_OFF_LAST_RECORD_OFFSET (ph_last_record_offset h) ;;
  write_le 4 PAGE_HEADER_OFF_TUPLE_FORMAT_VERSION (ph_tuple_format_version h) ;;
  write_le 8 PAGE_HEADER_OFF_TUPLE_SCHEMA_HASH (ph_tuple_schema_hash h) ;;
  copy_from_slice PAGE_HEADER_OFF_RESERVED
    (PAGE_HEADER_OFF_RESERVED + PAGE_HEADER_RESERVED_SIZE) (ph_reserved h).

Definition set_prev_page (prev_page : Z) (h : PageHeader) : PageHeader :=
  mkPageHeader (ph_magic h) (ph_version h) (ph_page_id h) prev_page
    (ph_next_page h) (ph_lsn h) (ph_flags h) (ph_record_count h)
    (ph_first_free_offset h) (ph_free_bytes h) (ph_last_record_offset h)
    (ph_tuple_format_version h) (ph_tuple_schema_hash h) (ph_tuple_flags h)
    (ph_reserved h).
Definition set_next_page (next_page : Z) (h : PageHeader) : PageHeader :=
  mkPageHeader (ph_magic h) (ph_version h) (ph_page_id h) (ph_prev_page h)
    next_page (ph_lsn h) (ph_flags h) (ph_record_count h)
    (ph_first_free_offset h) (ph_free_bytes h) (ph_last_record_offset h)
    (ph_tuple_format_version h) (ph_tuple_schema_hash h) (ph_tuple_flags h)
    (ph_reserved h).
Definition set_lsn (lsn : Z) (h : PageHeader) : PageHeader :=
  mkPageHeader (ph_magic h) (ph_version h) (ph_page_id h) (ph_prev_page h)
    (ph_next_page h) lsn (ph_flags h) (ph_record_count h)
    (ph_first_free_offset h) (ph_free_bytes h) (ph_last_record_offset h)
    (ph_tuple_format_version h) (ph_tuple_schema_hash h) (ph_tuple_flags h)
    (ph_reserved h).
Definition set_flags (flags : Z) (h : PageHeader) : PageHeader :=
  mkPageHeader (ph_magic h) (ph_version h) (ph_page_id h) (ph_prev_page h)
    (ph_next_page h) (ph_lsn h) flags (ph_record_count h)
    (ph_first_free_offset h) (ph_free_bytes h) (ph_last_record_offset h)
    (ph_tuple_format_version h) (ph_tuple_schema_hash h) (ph_tuple_flags h)
    (ph_reserved h).
Definition set_record_count (record_count : Z) (h : PageHeader) : PageHeader :=
  mkPageHeader (ph_magic h) (ph_version h) (ph_page_id h) (ph_prev_page h)
    (ph_next_page h) (ph_lsn h) (ph_flags h) record_count
    (ph_first_free_offset h) (ph_free_bytes h) (ph_last_record_offset h)
    (ph_tuple_format_version h) (ph_tuple_schema_hash h) (ph_tuple_flags h)
    (ph_reserved h).
Definition set_first_free_offset (first_free_offset : Z) (h : PageHeader) : PageHeader :=
  mkPageHeader (ph_magic h) (ph_version h) (ph_page_id h) (ph_prev_page h)
    (ph_next_page h) (ph_lsn h) (ph_flags h) (ph_record_count h)
    first_free_offset (ph_free_bytes h) (ph_last_record_offset h)
    (ph_tuple_format_version h) (ph_tuple_schema_hash h) (ph_tuple_flags h)
    (ph_reserved h).
Definition set_free_bytes (free_bytes : Z) (h : PageHeader) : PageHeader :=
  mkPageHeader (ph_magic h) (ph_version h) (ph_page_id h) (ph_prev_page h)
    (ph_next_page h) (ph_lsn h) (ph_flags h) (ph_record_count h)
    (ph_first_free_offset h) free_bytes (ph_last_record_offset h)
    (ph_tuple_format_version h) (ph_tuple_schema_hash h) (ph_tuple_flags h)
    (ph_reserved h).
Definition set_last_record_offset (last_record_offset : Z) (h : PageHeader) : PageHeader :=
  mkPageHeader (ph_magic h) (ph_version h) (ph_page_id h) (ph_prev_page h)
    (ph_next_page h) (ph_lsn h) (ph_flags h) (ph_record_count h)
    (ph_first_free_offset h) (ph_free_bytes h) last_record_offset
    (ph_tuple_format_version h) (ph_tuple_schema_hash h) (ph_tuple_flags h)
    (ph_reserved h).
Definition set_tuple_format_version (tuple_format_version : Z) (h : PageHeader) : PageHeader :=
  mkPageHeader (ph_magic h) (ph_version h) (ph_page_id h) (ph_prev_page h)
    (ph_next_page h) (ph_lsn h) (ph_flags h) (ph_record_count h)
    (ph_first_free_offset h) (ph_free_bytes h) (ph_last_record_offset h)
    tuple_format_version (ph_tuple_schema_hash h) (ph_tuple_flags h)
    (ph_reserved h).
Definition set_tuple_schema_hash (tuple_schema_hash : Z) (h : PageHeader) : PageHeader :=
  mkPageHeader (ph_magic h) (ph_version h) (ph_page_id h) (ph_prev_page h)
    (ph_next_page h) (ph_lsn h) (ph_flags h) (ph_record_count h)
    (ph_first_free_offset h) (ph_free_bytes h) (ph_last_record_offset h)
    (ph_tuple_format_version h) tuple_schema_hash (ph_tuple_flags h)
    (ph_reserved h).
Definition set_tuple_flags (tuple_flags : Z) (h : PageHeader) : PageHeader :=
  mkPageHeader (ph_magic h) (ph_version h) (ph_page_id h) (ph_prev_page h)
    (ph_next_page h) (ph_lsn h) (ph_flags h) (ph_record_count h)
    (ph_first_free_offset h) (ph_free_bytes h) (ph_last_record_offset h)
    (ph_tuple_format_version h) (ph_tuple_schema_hash h) tuple_flags
    (ph_reserved h).

(** ** Record slots *)

Definition RECORD_SLOT_SIZE : Z := 32.
Definition RECORD_SLOT_FLAG_FRAGMENT_MASK : Z := 3.
Definition RECORD_SLOT_FLAG_COMPLETE : Z := 0.
Definition RECORD_SLOT_FLAG_PARTIAL_CONTINUED : Z := 1.
Definition RECORD_SLOT_FLAG_PARTIAL_LAST : Z := 2.

Record RecordSlot := mkRecordSlot {
  sl_offset : Z;
  sl_size : Z;
  sl_timestamp : Z;
  sl_tuple_id : Z;
  sl_checksum : Z;
  sl_flag : Z;
  sl_reserved : Z;
}.

Definition RecordSlot_new (offset size timestamp tuple_id : Z) : RecordSlot :=
  mkRecordSlot offset size timestamp tuple_id 0 RECORD_SLOT_FLAG_COMPLETE 0.

Definition RecordSlot_decode (input : list byte) : RS RecordSlot :=
  if zlen input <? RECORD_SLOT_SIZE then Err Decode else
  offset ← read_le 4 0 input;
  size ← read_le 4 4 input;
  timestamp ← read_le 8 8 input;
  tuple_id ← read_le 8 16 input;
  checksum ← read_le 2 24 input;
  flag ← read_le 2 26 input;
  reserved ← read_le 4 28 input;
  Ok (mkRecordSlot offset size timestamp tuple_id checksum flag reserved).

Definition RecordSlot_encode (s : RecordSlot) : ST ErrorCode (list byte) unit :=
  out ← st_get;
  if zlen out <? RECORD_SLOT_SIZE then st_lift (Err Encode) else
  write_le 4 0 (sl_offset s) ;;
  write_le 4 4 (sl_size s) ;;
  write_le 8 8 (sl_timestamp s) ;;
  write_le 8 16 (sl_tuple_id s) ;;
  write_le 2 24 (sl_checksum s) ;;
  write_le 2 26 (sl_flag s) ;;
  write_le 4 28 (sl_reserved s).

Definition cmp_key (s other : RecordSlot) : comparison :=
  then_with (sl_timestamp s ?= sl_timestamp other)
    (then_with (sl_tuple_id s ?= sl_tuple_id other)
       (sl_offset s ?= sl_offset other)).

Definition fragment_kind (s : RecordSlot) : Z :=
  Z.land (sl_flag s) RECORD_SLOT_FLAG_FRAGMENT_MASK.
Definition is_complete (s : RecordSlot) : bool :=
  fragment_kind s =? RECORD_SLOT_FLAG_COMPLETE.
Definition is_partial_continued (s : RecordSlot) : bool :=
  fragment_kind s =? RECORD_SLOT_FLAG_PARTIAL_CONTINUED.
Definition is_partial_last (s : RecordSlot) : bool :=
  fragment_kind s =? RECORD_SLOT_FLAG_PARTIAL_LAST.

Definition set_fragment_kind (kind : Z) (s : RecordSlot) : RecordSlot :=
  mkRecordSlot (sl_offset s) (sl_size s) (sl_timestamp s) (sl_tuple_id s)
    (sl_checksum s)
    (Z.lor (Z.land (sl_flag s) (U16_MAX - RECORD_SLOT_FLAG_FRAGMENT_MASK))
           (Z.land kind RECORD_SLOT_FLAG_FRAGMENT_MASK))
    (sl_reserved s).
Definition set_offset (offset : Z) (s : RecordSlot) : RecordSlot :=
  mkRecordSlot offset (sl_size s) (sl_timestamp s) (sl_tuple_id s)
    (sl_checksum s) (sl_flag s) (sl_reserved s).
Definition set_size (size : Z) (s : RecordSlot) : RecordSlot :=
  mkRecordSlot (sl_offset s) size (sl_timestamp s) (sl_tuple_id s)
    (sl_checksum s) (sl_flag s) (sl_reserved s).
Definition set_check_sum (checksum : Z) (s : RecordSlot) : RecordSlot :=
  mkRecordSlot (sl_offset s) (sl_size s) (sl_timestamp s) (sl_tuple_id s)
    checksum (sl_flag s) (sl_reserved s).

(** [RecordSlotRef] borrows the 32 slot bytes; [RecordSlotRef::new], its only
    constructor, checks the length, so the accessors never panic. *)
Definition RecordSlotRef : Type := list byte.
Definition RecordSlotRef_new (slot : list byte) : RS RecordSlotRef :=
  if zlen slot <? RECORD_SLOT_SIZE then Err Decode else Ok slot.
Definition ref_offset (r : RecordSlotRef) : Z := le_read 4 (r.[0, 4]).
Definition ref_size (r : RecordSlotRef) : Z := le_read 4 (r.[4, 4]).
Definition ref_timestamp (r : RecordSlotRef) : Z := le_read 8 (r.[8, 8]).
Definition ref_tuple_id (r : RecordSlotRef) : Z := le_read 8 (r.[16, 8]).
Definition ref_checksum (r : RecordSlotRef) : Z := le_read 2 (r.[24, 2]).
Definition ref_flag (r : RecordSlotRef) : Z := le_read 2 (r.[26, 2]).
Definition ref_reserved (r : RecordSlotRef) : Z := le_read 4 (r.[28, 4]).
Definition ref_cmp_key (r : RecordSlotRef) (other : RecordSlot) : comparison :=
  then_with (ref_timestamp r ?= sl_timestamp other)
    (then_with (ref_tuple_id r ?= sl_tuple_id other)
       (ref_offset r ?= sl_offset other)).
Definition ref_to_owned (r : RecordSlotRef) : RecordSlot :=
  mkRecordSlot (ref_offset r) (ref_size r) (ref_timestamp r) (ref_tuple_id r)
    (ref_checksum r) (ref_flag r) (ref_reserved r).

(** ** Page tailer *)

Definition PAGE_TAILER_SIZE : Z := 12.

Record PageTailer := mkPageTailer { pt_lsn : Z; pt_checksum : Z }.

Definition PageTailer_default : PageTailer := mkPageTailer 0 0.

Definition PageTailer_decode (input : list byte) : RS PageTailer :=
  if zlen input <? PAGE_TAILER_SIZE then Err Decode else
  lsn ← read_le 8 0 input;
  checksum ← read_le 4 8 input;
  Ok (mkPageTailer lsn checksum).

Definition PageTailer_encode (t : PageTailer) : ST ErrorCode (list byte) unit :=
  out ← st_get;
  if zlen out <? PAGE_TAILER_SIZE then st_lift (Err Encode) else
  write_le 8 0 (pt_lsn t) ;;
  write_le 4 8 (pt_checksum t).

Definition checksum_for_page (page : list byte) : RS Z :=
  if zlen page <? PAGE_TAILER_SIZE then Err Encode else
  body ← slice 0 (zlen page - PAGE_TAILER_SIZE) page;
  Ok (crc32 body).

Definition refresh_checksum (page : list byte) (t : PageTailer) : RS PageTailer :=
  checksum ← checksum_for_page page;
  Ok (mkPageTailer (pt_lsn t) checksum).

Definition validate_checksum (page : list byte) (t : PageTailer) : RS unit :=
  actual ← checksum_for_page page;
  if pt_checksum t =? actual then Ok tt else Err Decode.

Definition PageTailer_set_lsn (lsn : Z) (t : PageTailer) : PageTailer :=
  mkPageTailer lsn (pt_checksum t).

(** ** Well-formed values and their byte images *)

Record header_ok (h : PageHeader) : Prop := mk_header_ok {
  hk_magic : ph_magic h = PAGE_HEADER_MAGIC;
  hk_version : ph_version h = PAGE_VERSION;
  hk_page_id : in_u64 (ph_page_id h);
  hk_prev : in_u64 (ph_prev_page h);
  hk_next : in_u64 (ph_next_page h);
  hk_lsn : in_u64 (ph_lsn h);
  hk_flags : in_u64 (ph_flags h);
  hk_count : in_u32 (ph_record_count h);
  hk_first_free : in_u32 (ph_first_free_offset h);
  hk_free : in_u32 (ph_free_bytes h);
  hk_last : in_u32 (ph_last_record_offset h);
  hk_format : in_u32 (ph_tuple_format_version h);
  hk_hash : in_u64 (ph_tuple_schema_hash h);
  hk_tflags : in_u64 (ph_tuple_flags h);
  hk_reserved : zlen (ph_reserved h) = PAGE_HEADER_RESERVED_SIZE;
}.

Record slot_ok (s : RecordSlot) : Prop := mk_slot_ok {
  sk_offset : in_u32 (sl_offset s);
  sk_size : in_u32 (sl_size s);
  sk_timestamp : in_u64 (sl_timestamp s);
  sk_tuple_id : in_u64 (sl_tuple_id s);
  sk_checksum : in_u16 (sl_checksum s);
  sk_flag : in_u16 (sl_flag s);
  sk_reserved : in_u32 (sl_reserved s);
}.

Record tailer_ok (t : PageTailer) : Prop := mk_tailer_ok {
  tk_lsn : in_u64 (pt_lsn t);
  tk_checksum : in_u32 (pt_checksum t);
}.

Definition header_bytes (h : PageHeader) : list byte :=
  le_write 4 (ph_magic h) ++ le_write 4 (ph_version h) ++
  le_write 8 (ph_page_id h) ++ le_write 8 (ph_prev_page h) ++
  le_write 8 (ph_next_page h) ++ le_write 8 (ph_lsn h) ++
  le_write 8 (ph_flags h) ++ le_write 8 (ph_tuple_flags h) ++
  le_write 4 (ph_record_count h) ++ le_write 4 (ph_first_free_offset h) ++
  le_write 4 (ph_free_bytes h) ++ le_write 4 (ph_last_record_offset h) ++
  le_write 4 (ph_tuple_format_version h) ++ le_write 8 (ph_tuple_schema_hash h) ++
  ph_reserved h.

Definition slot_bytes (s : RecordSlot) : list byte :=
  le_write 4 (sl_offset s) ++ le_write 4 (sl_size s) ++
  le_write 8 (sl_timestamp s) ++ le_write 8 (sl_tuple_id s) ++
  le_write 2 (sl_checksum s) ++ le_write 2 (sl_flag s) ++
  le_write 4 (sl_reserved s).

Definition tailer_bytes (t : PageTailer) : list byte :=
  le_write 8 (pt_lsn t) ++ le_write 4 (pt_checksum t).


End page_format.

Create HintDb page_consts.
#[export] Hint Unfold
  PAGE_HEADER_SIZE NONE_PAGE_ID PAGE_HEADER_MAGIC PAGE_VERSION
  PAGE_HEADER_FIXED_SIZE PAGE_HEADER_RESERVED_SIZE PAGE_HEADER_OFF_MAGIC
  PAGE_HEADER_OFF_VERSION PAGE_HEADER_OFF_PAGE_ID PAGE_HEADER_OFF_PREV_PAGE
  PAGE_HEADER_OFF_NEXT_PAGE PAGE_HEADER_OFF_LSN PAGE_HEADER_OFF_FLAGS
  PAGE_HEADER_OFF_TUPLE_FLAGS PAGE_HEADER_OFF_RECORD_COUNT
  PAGE_HEADER_OFF_FIRST_FREE_OFFSET PAGE_HEADER_OFF_FREE_BYTES
  PAGE_HEADER_OFF_LAST_RECORD_OFFSET PAGE_HEADER_OFF_TUPLE_FORMAT_VERSION
  PAGE_HEADER_OFF_TUPLE_SCHEMA_HASH PAGE_HEADER_OFF_RESERVED
  RECORD_SLOT_SIZE PAGE_TAILER_SIZE PAGE_CURRENT_VERSION : page_consts.

(** ** Encoding and decoding *)

(** Evaluates offsets that are differences of constants. *)
Ltac simpl_offsets :=
  cbn [Z.of_nat Pos.of_succ_nat Pos.succ Z.sub Z.add Z.opp Z.pos_sub
       Pos.pred_double Z.succ_double Z.pred_double Z.double Pos.add].

Section page_format_facts.
Context `{PackagesOk}.

Lemma zlen_le_write n v : zlen (le_write n v) = Z.of_nat n.
Proof. unfold zlen. by rewrite le_write_length. Qed.

(** Normalises lengths of concatenations. *)
Ltac lens :=
  rewrite ?zlen_app, ?zlen_nil, ?zlen_le_write;
  cbn [Z.of_nat Pos.of_succ_nat Pos.succ].

Lemma write_le_next n a v pre out :
  a = zlen pre -> a + Z.of_nat n <= zlen out ->
  write_le n a v (zput 0 pre out) = (Ok tt, zput 0 (pre ++ le_write n v) out).
Proof.
  intros -> Hl. pose proof (zlen_nonneg pre). unfold write_le.
  rewrite copy_from_slice_ok by (rewrite ?zlen_zput, ?zlen_le_write; lia).
  rewrite <- (zput_adjacent 0 pre) by (rewrite ?zlen_le_write; lia). done.
Qed.

Lemma read_le_app n a v pre post :
  a = zlen pre -> 0 <= v < 256 ^ Z.of_nat n ->
  read_le n a (pre ++ le_write n v ++ post) = Ok v.
Proof.
  intros -> Hv. pose proof (zlen_nonneg pre). pose proof (zlen_nonneg post).
  unfold read_le. rewrite slice_ok by (rewrite ?zlen_app, ?zlen_le_write; lia).
  rewrite zsub_app_r, Z.sub_diag by lia.
  rewrite zsub_app_l, zsub_all by (rewrite ?zlen_le_write; lia).
  cbn. by rewrite le_read_write.
Qed.

Lemma copy_next a b (bs pre out : list byte) :
  a = zlen pre -> b = a + zlen bs -> b <= zlen out ->
  copy_from_slice (E := ErrorCode) a b bs (zput 0 pre out) = (Ok tt, zput 0 (pre ++ bs) out).
Proof.
  intros -> -> Hl. pose proof (zlen_nonneg pre). pose proof (zlen_nonneg bs).
  rewrite copy_from_slice_ok by (rewrite ?zlen_zput; lia).
  rewrite <- (zput_adjacent 0 pre) by lia. done.
Qed.

Ltac write_step :=
  st_step by (apply write_le_next; [lens; reflexivity | lens; lia]).

Lemma header_bytes_length h :
  zlen (ph_reserved h) = PAGE_HEADER_RESERVED_SIZE -> zlen (header_bytes h) = PAGE_HEADER_SIZE.
Proof. intros Hr. unfold header_bytes. lens. rewrite Hr. done. Qed.

Lemma PageHeader_encode_ok h out :
  zlen (ph_reserved h) = PAGE_HEADER_RESERVED_SIZE -> PAGE_HEADER_SIZE <= zlen out ->
  PageHeader_encode h out = (Ok tt, zput 0 (header_bytes h) out).
Proof.
  intros Hr Hl. unfold PageHeader_encode. unfold PAGE_HEADER_SIZE in Hl.
  st_step by reflexivity. rewrite (proj2 (Z.ltb_ge _ _)) by exact Hl.
  rewrite <- (zput_nil 0 out) at 1.
  autounfold with page_consts in *.
  do 14 write_step.
  rewrite copy_next; [| by lens | lia | lia].
  unfold header_bytes. rewrite <- !app_assoc. done.
Qed.

Lemma u16_range v : in_u16 v -> 0 <= v < 256 ^ Z.of_nat 2.
Proof. change (256 ^ Z.of_nat 2) with 65536. mlia. Qed.
Lemma u32_range v : in_u32 v -> 0 <= v < 256 ^ Z.of_nat 4.
Proof. change (256 ^ Z.of_nat 4) with 4294967296. mlia. Qed.
Lemma u64_range v : in_u64 v -> 0 <= v < 256 ^ Z.of_nat 8.
Proof. change (256 ^ Z.of_nat 8) with 18446744073709551616. mlia. Qed.

Lemma read_le_here n v post :
  0 <= v < 256 ^ Z.of_nat n -> read_le n 0 (le_write n v ++ post) = Ok v.
Proof. apply (read_le_app n 0 v []). done. Qed.

Lemma read_le_skip n m a v post :
  Z.of_nat m <= a -> read_le n a (le_write m v ++ post) = read_le n (a - Z.of_nat m) post.
Proof.
  intros Ha. unfold read_le, slice. rewrite zlen_app, zlen_le_write.
  rewrite zsub_app_r by (rewrite ?zlen_le_write; lia). rewrite zlen_le_write.
  replace (0 <=? a) with (0 <=? a - Z.of_nat m) by lia.
  replace (a <=? a + Z.of_nat n) with (a - Z.of_nat m <=? a - Z.of_nat m + Z.of_nat n) by lia.
  replace (a + Z.of_nat n <=? Z.of_nat m + zlen post)
    with (a - Z.of_nat m + Z.of_nat n <=? zlen post) by lia.
  by replace (a - Z.of_nat m + Z.of_nat n - (a - Z.of_nat m)) with (a + Z.of_nat n - a) by lia.
Qed.

Lemma slice_skip m a b v (post : list byte) :
  Z.of_nat m <= a ->
  slice (E := ErrorCode) a b (le_write m v ++ post) = slice (a - Z.of_nat m) (b - Z.of_nat m) post.
Proof.
  intros Ha. unfold slice. rewrite zlen_app, zlen_le_write.
  replace (0 <=? a) with (0 <=? a - Z.of_nat m) by lia.
  replace (a <=? b) with (a - Z.of_nat m <=? b - Z.of_nat m) by lia.
  replace (b <=? Z.of_nat m + zlen post) with (b - Z.of_nat m <=? zlen post) by lia.
  destruct (_ && _) eqn:E; [| done]. apply andb_prop in E as [E _].
  rewrite zsub_app_r by (rewrite ?zlen_le_write; lia). rewrite zlen_le_write.
  do 2 f_equal. lia.
Qed.

(** Finds a field at a known position of an encoded structure. *)
Ltac find_field :=
  repeat (rewrite read_le_skip by (cbn; lia); simpl_offsets);
  rewrite read_le_here; [reflexivity |]; auto using u16_range, u32_range, u64_range.
Ltac read_step := rs_step by find_field.

Lemma PageHeader_decode_bytes h rest :
  header_ok h -> PageHeader_decode (header_bytes h ++ rest) = Ok h.
Proof.
  intros [Hm Hv]. unfold PageHeader_decode.
  assert (PAGE_HEADER_SIZE <= zlen (header_bytes h ++ rest)) as Hl.
  { rewrite zlen_app, header_bytes_length by done. pose proof (zlen_nonneg rest). lia. }
  rewrite (proj2 (Z.ltb_ge _ _)) by exact Hl. clear Hl.
  assert (in_u32 (ph_magic h)) by (rewrite Hm; autounfold with page_consts; mlia).
  assert (in_u32 (ph_version h)) by (rewrite Hv; autounfold with page_consts; mlia).
  unfold header_bytes, PageHeader_decode_fields. rewrite <- !app_assoc.
  autounfold with page_consts in *.
  read_step. rs_step by (by rewrite Hm).
  read_step. rs_step by (by rewrite Hv).
  do 12 read_step.
  repeat (rewrite slice_skip by (cbn; lia); simpl_offsets).
  rewrite slice_ok by (rewrite ?zlen_app; pose proof (zlen_nonneg rest); lia).
  rewrite zsub_app_l, zsub_all by lia. by destruct h.
Qed.

(** *** Slots *)

Lemma slot_bytes_length s : zlen (slot_bytes s) = RECORD_SLOT_SIZE.
Proof. unfold slot_bytes. lens. done. Qed.

Lemma RecordSlot_encode_ok s out :
  RECORD_SLOT_SIZE <= zlen out ->
  RecordSlot_encode s out = (Ok tt, zput 0 (slot_bytes s) out).
Proof.
  intros Hl. unfold RecordSlot_encode. unfold RECORD_SLOT_SIZE in Hl.
  st_step by reflexivity. rewrite (proj2 (Z.ltb_ge _ _)) by exact Hl.
  rewrite <- (zput_nil 0 out) at 1. do 6 write_step.
  rewrite write_le_next by (lens; lia).
  unfold slot_bytes. by rewrite <- !app_assoc.
Qed.

Lemma RecordSlot_decode_bytes s rest :
  slot_ok s -> RecordSlot_decode (slot_bytes s ++ rest) = Ok s.
Proof.
  intros []. unfold RecordSlot_decode.
  rewrite (proj2 (Z.ltb_ge _ _))
    by (rewrite zlen_app, slot_bytes_length; pose proof (zlen_nonneg rest); lia).
  unfold slot_bytes. rewrite <- !app_assoc. do 7 read_step. by destruct s.
Qed.

(** The borrowed view of a slot reads what the owned decoder reads. *)
Lemma RecordSlot_decode_ref r :
  RECORD_SLOT_SIZE <= zlen r -> RecordSlot_decode r = Ok (ref_to_owned r).
Proof.
  intros Hl. unfold RecordSlot_decode. rewrite (proj2 (Z.ltb_ge _ _)) by exact Hl.
  unfold RECORD_SLOT_SIZE in Hl. unfold read_le.
  rewrite !slice_ok by (cbn; lia). reflexivity.
Qed.

Lemma ref_to_owned_bytes s : slot_ok s -> ref_to_owned (slot_bytes s) = s.
Proof.
  intros Hs. pose proof (RecordSlot_decode_bytes s [] Hs) as E.
  rewrite app_nil_r, RecordSlot_decode_ref in E by (rewrite slot_bytes_length; lia).
  congruence.
Qed.

Lemma ref_cmp_key_owned r s : ref_cmp_key r s = cmp_key (ref_to_owned r) s.
Proof. done. Qed.

Lemma le_read_u16 bs : in_u16 (le_read 2 bs).
Proof.
  pose proof (le_read_range 2 bs) as Hr. change (256 ^ Z.of_nat 2) with 65536 in Hr. mlia.
Qed.
Lemma le_read_u32 bs : in_u32 (le_read 4 bs).
Proof.
  pose proof (le_read_range 4 bs) as Hr. change (256 ^ Z.of_nat 4) with 4294967296 in Hr. mlia.
Qed.
Lemma le_read_u64 bs : in_u64 (le_read 8 bs).
Proof.
  pose proof (le_read_range 8 bs) as Hr.
  change (256 ^ Z.of_nat 8) with 18446744073709551616 in Hr. mlia.
Qed.

Lemma ref_to_owned_ok r : slot_ok (ref_to_owned r).
Proof. split; first [apply le_read_u16 | apply le_read_u32 | apply le_read_u64]. Qed.

(** *** Tailer *)

Lemma tailer_bytes_length t : zlen (tailer_bytes t) = PAGE_TAILER_SIZE.
Proof. unfold tailer_bytes. lens. done. Qed.

Lemma PageTailer_encode_ok t out :
  PAGE_TAILER_SIZE <= zlen out ->
  PageTailer_encode t out = (Ok tt, zput 0 (tailer_bytes t) out).
Proof.
  intros Hl. unfold PageTailer_encode. unfold PAGE_TAILER_SIZE in Hl.
  st_step by reflexivity. rewrite (proj2 (Z.ltb_ge _ _)) by exact Hl.
  rewrite <- (zput_nil 0 out) at 1. write_step.
  by rewrite write_le_next by (lens; lia).
Qed.

Lemma PageTailer_decode_bytes t rest :
  tailer_ok t -> PageTailer_decode (tailer_bytes t ++ rest) = Ok t.
Proof.
  intros []. unfold PageTailer_decode.
  rewrite (proj2 (Z.ltb_ge _ _))
    by (rewrite zlen_app, tailer_bytes_length; pose proof (zlen_nonneg rest); lia).
  unfold tailer_bytes. rewrite <- !app_assoc. do 2 read_step. by destruct t.
Qed.

Lemma checksum_for_page_ok pg :
  PAGE_TAILER_SIZE <= zlen pg ->
  checksum_for_page pg = Ok (crc32 (pg.[0, zlen pg - PAGE_TAILER_SIZE])).
Proof.
  intros Hl. unfold checksum_for_page. rewrite (proj2 (Z.ltb_ge _ _)) by exact Hl.
  rewrite slice_ok by (unfold PAGE_TAILER_SIZE in *; lia).
  cbn. by rewrite Z.sub_0_r.
Qed.

End page_format_facts.

#[export] Hint Rewrite @slot_bytes_length @tailer_bytes_length @zlen_le_write : zlens.
