(* ===== verification/PageBlock.v ===== *)
(** * Slotted pages

    [src/mudu_kernel/src/storage/page/page_block_ref.rs] ([PageBlockRef], the
    read view) and [page_block_ref_mut.rs] ([PageBlockRefMut], the methods
    that change the page).  A page is its byte buffer: the read view is a
    function of the buffer, a method on [&mut self] is a state passing
    function on it.  The suffix [_mut] marks the method of [PageBlockRefMut]
    where both types have a method of the same name. *)

From S2P Require Import Prelude Errors Compat PageFormat.

Definition DEFAULT_PAGE_SIZE : Z := 4096.
Definition PAGE_SIZE : Z := DEFAULT_PAGE_SIZE.
Definition RECORD_ALIGN : Z := 8.

(** The only [align] of the callers is [RECORD_ALIGN], and [value] is far
    from the end of [usize], so neither the [debug_assert!] nor the addition
    can fail. *)
Definition align_up (value align : Z) : Z :=
  Z.land (value + (align - 1)) (Z.lnot (align - 1)).

(** The binary searches of both types: [while low < high] with the midpoint
    [low + (high - low) / 2]; [go_right] is the test of the loop body.  A
    search over at most [2^64] positions makes at most 64 halvings. *)
Fixpoint bisect (fuel : nat) (go_right : Z -> RS bool) (low high : Z) : RS Z :=
  if low <? high then
    match fuel with
    | O => Panic
    | S fuel =>
        let mid := low + (high - low) / 2 in
        right ← go_right mid;
        if right : bool then bisect fuel go_right (mid + 1) high
        else bisect fuel go_right low mid
    end
  else Ok low.
Definition bisect_fuel : nat := 65.

Section page_block_ref.
Context `{Packages}.

Definition ensure_latest_page (page : list byte) : RS (list byte) :=
  if zlen page <? PAGE_HEADER_SIZE then Err Decode else
  version ← read_le 4 PAGE_HEADER_OFF_VERSION page;
  compat (check_version Page version) ;;
  if version =? PAGE_CURRENT_VERSION then Ok page
  else upgrade_to_current Page version page.

Definition try_new (page : list byte) : RS (list byte) := ensure_latest_page page.

Definition check_page_len (page : list byte) : RS unit :=
  if zlen page <? PAGE_SIZE then Err Decode else Ok tt.

Definition header (page : list byte) : RS PageHeader :=
  check_page_len page ;;
  bs ← slice 0 PAGE_HEADER_SIZE page;
  PageHeader_decode bs.

Definition header_magic (page : list byte) : RS Z :=
  check_page_len page ;; read_le 4 PAGE_HEADER_OFF_MAGIC page.
Definition header_version (page : list byte) : RS Z :=
  check_page_len page ;; read_le 4 PAGE_HEADER_OFF_VERSION page.

Definition ensure_header_layout (page : list byte) : RS unit :=
  check_page_len page ;;
  magic ← header_magic page;
  if negb (magic =? PAGE_HEADER_MAGIC) then Err Decode else
  version ← header_version page;
  if negb (version =? PAGE_VERSION) then Err Decode else Ok tt.

Definition header_page_id (page : list byte) : RS Z :=
  ensure_header_layout page ;; read_le 8 PAGE_HEADER_OFF_PAGE_ID page.
Definition header_prev_page (page : list byte) : RS Z :=
  ensure_header_layout page ;; read_le 8 PAGE_HEADER_OFF_PREV_PAGE page.
Definition header_next_page (page : list byte) : RS Z :=
  ensure_header_layout page ;; read_le 8 PAGE_HEADER_OFF_NEXT_PAGE page.
Definition header_lsn (page : list byte) : RS Z :=
  ensure_header_layout page ;; read_le 8 PAGE_HEADER_OFF_LSN page.
Definition header_record_count (page : list byte) : RS Z :=
  ensure_header_layout page ;; read_le 4 PAGE_HEADER_OFF_RECORD_COUNT page.
Definition header_first_free_offset (page : list byte) : RS Z :=
  ensure_header_layout page ;; read_le 4 PAGE_HEADER_OFF_FIRST_FREE_OFFSET page.
Definition header_free_bytes (page : list byte) : RS Z :=
  ensure_header_layout page ;; read_le 4 PAGE_HEADER_OFF_FREE_BYTES page.
Definition header_tuple_format_version (page : list byte) : RS Z :=
  ensure_header_layout page ;; read_le 4 PAGE_HEADER_OFF_TUPLE_FORMAT_VERSION page.
Definition header_tuple_flags (page : list byte) : RS Z :=
  ensure_header_layout page ;; read_le 8 PAGE_HEADER_OFF_TUPLE_FLAGS page.
Definition header_tuple_schema_hash (page : list byte) : RS Z :=
  ensure_header_layout page ;; read_le 8 PAGE_HEADER_OFF_TUPLE_SCHEMA_HASH page.

Definition tailer_offset : Z := PAGE_SIZE - PAGE_TAILER_SIZE.

Definition tailer (page : list byte) : RS PageTailer :=
  check_page_len page ;;
  bs ← slice tailer_offset (tailer_offset + PAGE_TAILER_SIZE) page;
  PageTailer_decode bs.

Definition slot_count (page : list byte) : RS Z := header_record_count page.

Definition slot_region_start_for_count (count : Z) : RS Z :=
  usub tailer_offset (count * RECORD_SLOT_SIZE).

Definition slot_array_low_bound (page : list byte) : RS Z :=
  count ← slot_count page; slot_region_start_for_count count.

Definition slot_offset (page : list byte) (sorted_index : Z) : RS Z :=
  count ← slot_count page;
  if count <=? sorted_index then Err Decode
  else usub tailer_offset ((sorted_index + 1) * RECORD_SLOT_SIZE).

Definition slot_ref (page : list byte) (sorted_index : Z) : RS RecordSlotRef :=
  check_page_len page ;;
  count ← slot_count page;
  if count <=? sorted_index then Err Decode else
  offset ← slot_offset page sorted_index;
  bs ← slice offset (offset + RECORD_SLOT_SIZE) page;
  RecordSlotRef_new bs.

Definition slot (page : list byte) (sorted_index : Z) : RS RecordSlot :=
  r ← slot_ref page sorted_index; Ok (ref_to_owned r).

Definition slots (page : list byte) : RS (list RecordSlot) :=
  count ← slot_count page; mapM (slot page) (seqZ 0 count).

Definition record_bytes (page : list byte) (sorted_index : Z) : RS (list byte) :=
  r ← slot_ref page sorted_index;
  let offset := ref_offset r in
  let size := ref_size r in
  slot_start ← slot_array_low_bound page;
  if (offset <? PAGE_HEADER_SIZE) || (slot_start <? offset + size) then Err Decode
  else slice offset (offset + size) page.

Definition free_bytes (page : list byte) : RS Z := header_free_bytes page.

Definition page_is_empty (page : list byte) : RS bool :=
  count ← slot_count page; Ok (count =? 0).

Definition timestamp_bounds (page : list byte) : RS (option (Z * Z)) :=
  count ← slot_count page;
  if count =? 0 then Ok None else
  first ← slot_ref page 0;
  last ← slot_ref page (count - 1);
  Ok (Some (ref_timestamp first, ref_timestamp last)).

(** The second loop of [find_slot_index]; [n] positions are left. *)
Fixpoint find_slot_scan (n : nat) (page : list byte) (timestamp tuple_id idx : Z)
    : RS (option Z) :=
  match n with
  | O => Ok None
  | S n =>
      r ← slot_ref page idx;
      if negb (ref_timestamp r =? timestamp) then Ok None
      else if ref_tuple_id r =? tuple_id then Ok (Some idx)
      else find_slot_scan n page timestamp tuple_id (idx + 1)
  end.

Definition find_slot_index (page : list byte) (timestamp tuple_id : Z) : RS (option Z) :=
  count ← slot_count page;
  if count =? 0 then Ok None else
  low ← bisect bisect_fuel
          (fun mid => r ← slot_ref page mid; Ok (ref_timestamp r <? timestamp)) 0 count;
  find_slot_scan (Z.to_nat (count - low)) page timestamp tuple_id low.

Definition active_prev_page (page : list byte) : RS (option Z) :=
  prev ← header_prev_page page;
  Ok (if negb (prev =? NONE_PAGE_ID) then Some prev else None).
Definition active_next_page (page : list byte) : RS (option Z) :=
  next ← header_next_page page;
  Ok (if negb (next =? NONE_PAGE_ID) then Some next else None).

(** The loop of [validate_layout] over the slots from [idx] on. *)
Fixpoint validate_slots (n : nat) (page : list byte) (slot_start idx : Z)
    (prev : option RecordSlot) : RS unit :=
  match n with
  | O => Ok tt
  | S n =>
      s ← slot page idx;
      if match prev with
         | Some prev_slot => negb (cmp_le (cmp_key prev_slot s))
         | None => false
         end then Err Decode else
      let offset := sl_offset s in
      let size := sl_size s in
      if negb (offset mod RECORD_ALIGN =? 0) then Err Decode else
      if (offset <? PAGE_HEADER_SIZE) || (slot_start <? offset + size) then Err Decode else
      payload ← slice offset (offset + size) page;
      if negb (sl_checksum s =? crc16 payload) then Err Decode else
      validate_slots n page slot_start (idx + 1) (Some s)
  end.

Definition validate_layout (page : list byte) : RS unit :=
  h ← header page;
  if negb (ph_magic h =? PAGE_HEADER_MAGIC) then Err Decode else
  if PAGE_VERSION <? ph_version h then Err Decode else
  let count := ph_record_count h in
  let first_free := ph_first_free_offset h in
  slot_start ← slot_region_start_for_count count;
  if (first_free <? PAGE_HEADER_SIZE) || (slot_start <? first_free) then Err Decode else
  if negb (ph_free_bytes h =? slot_start - first_free) then Err Decode else
  validate_slots (Z.to_nat count) page slot_start 0 None ;;
  t ← tailer page;
  if negb (ph_lsn h =? pt_lsn t) then Err Decode else
  validate_checksum page t.

End page_block_ref.

Section page_block_ref_mut.
Context `{Packages}.

Definition check_page_len_mut (page : list byte) : RS unit :=
  if zlen page <? PAGE_SIZE then Err Encode else Ok tt.

Definition header_mut (page : list byte) : RS PageHeader :=
  p ← try_new page; header p.
Definition tailer_mut (page : list byte) : RS PageTailer :=
  p ← try_new page; tailer p.
Definition slot_mut (page : list byte) (sorted_index : Z) : RS RecordSlot :=
  p ← try_new page; slot p sorted_index.

Definition slot_offset_for_sorted_index (sorted_index : Z) : RS Z :=
  usub tailer_offset ((sorted_index + 1) * RECORD_SLOT_SIZE).

Definition slot_ref_mut (page : list byte) (sorted_index : Z) : RS RecordSlotRef :=
  check_page_len_mut page ;;
  h ← header_mut page;
  if ph_record_count h <=? sorted_index then Err Decode else
  offset ← slot_offset_for_sorted_index sorted_index;
  bs ← slice offset (offset + RECORD_SLOT_SIZE) page;
  RecordSlotRef_new bs.

Definition record_bytes_mut (page : list byte) (sorted_index : Z) : RS (list byte) :=
  r ← slot_ref_mut page sorted_index;
  let offset := ref_offset r in
  let size := ref_size r in
  h ← header_mut page;
  slot_start ← slot_region_start_for_count (ph_record_count h);
  if (offset <? PAGE_HEADER_SIZE) || (slot_start <? offset + size) then Err Decode
  else slice offset (offset + size) page.

Definition init_empty_with_tuple_meta
    (page_id tuple_format_version tuple_schema_hash tuple_flags : Z)
    : ST ErrorCode (list byte) unit :=
  st_reads check_page_len_mut ;;
  page ← st_get;
  fill 0 (zlen page) x00 ;;
  free ← st_lift (usub tailer_offset PAGE_HEADER_SIZE);
  let h := set_tuple_flags tuple_flags
             (set_tuple_schema_hash tuple_schema_hash
             (set_tuple_format_version tuple_format_version
             (set_free_bytes (as_u32 free)
             (set_record_count 0
             (set_last_record_offset PAGE_HEADER_SIZE
             (set_first_free_offset PAGE_HEADER_SIZE
             (set_lsn 1 (PageHeader_new page_id)))))))) in
  on_slice 0 PAGE_HEADER_SIZE (PageHeader_encode h) ;;
  on_slice tailer_offset (tailer_offset + PAGE_TAILER_SIZE)
    (PageTailer_encode (PageTailer_set_lsn 1 PageTailer_default)).

Definition init_empty (page_id : Z) : ST ErrorCode (list byte) unit :=
  init_empty_with_tuple_meta page_id 0 0 0.

Definition set_page_links (prev_page next_page : Z) : ST ErrorCode (list byte) unit :=
  h ← st_reads header_mut;
  let h := set_next_page next_page
             (set_prev_page prev_page (set_lsn (saturating_add (ph_lsn h) 1) h)) in
  on_slice 0 PAGE_HEADER_SIZE (PageHeader_encode h).

Definition read_all_slots (page : list byte) : RS (list RecordSlot) :=
  p ← try_new page;
  count ← slot_count p;
  mapM (slot p) (seqZ 0 count).

Definition materialize_entries (slots : list RecordSlot) (page : list byte)
    : RS (list (RecordSlot * list byte)) :=
  p ← try_new page;
  mapM (fun s => data ← slice (sl_offset s) (sl_offset s + sl_size s) p; Ok (s, data)) slots.

Definition find_insert_position_by_key (new_slot : RecordSlot) (page : list byte) : RS Z :=
  p ← try_new page;
  count ← slot_count p;
  bisect bisect_fuel
    (fun mid => r ← slot_ref p mid;
                Ok match ref_cmp_key r new_slot with Lt => true | _ => false end)
    0 count.

Definition insert_slot_bytes (insert_at : Z) (s : RecordSlot) : ST ErrorCode (list byte) unit :=
  h ← st_reads header_mut;
  let count := ph_record_count h in
  old_region_start ← st_lift (slot_region_start_for_count count);
  new_region_start ← st_lift (slot_region_start_for_count (count + 1));
  moved_region_end ← st_lift (usub tailer_offset (insert_at * RECORD_SLOT_SIZE));
  (if insert_at <? count
   then copy_within old_region_start moved_region_end new_region_start
   else mret tt) ;;
  offset ← st_lift (slot_offset_for_sorted_index insert_at);
  on_slice offset (offset + RECORD_SLOT_SIZE) (RecordSlot_encode s).

Definition rewrite_header_after_insert
    (h : PageHeader) (new_count first_free_offset last_record_offset : Z)
    : ST ErrorCode (list byte) unit :=
  start ← st_lift (slot_region_start_for_count new_count);
  free ← st_lift (usub start first_free_offset);
  let updated := set_free_bytes (as_u32 free)
                   (set_last_record_offset last_record_offset
                   (set_first_free_offset first_free_offset
                   (set_record_count (as_u32 new_count)
                   (set_lsn (saturating_add (ph_lsn h) 1) h)))) in
  on_slice 0 PAGE_HEADER_SIZE (PageHeader_encode updated).

Definition insert_record (timestamp tuple_id : Z) (payload : list byte)
    : ST ErrorCode (list byte) Z :=
  st_reads check_page_len_mut ;;
  h ← st_reads header_mut;
  let count := ph_record_count h in
  let data_offset := align_up (ph_first_free_offset h) RECORD_ALIGN in
  padding ← st_lift (usub data_offset (ph_first_free_offset h));
  next_slot_start ← st_lift (slot_region_start_for_count (count + 1));
  let record_end := data_offset + zlen payload in
  if (next_slot_start <? record_end)
     || (ph_free_bytes h <? padding + zlen payload + RECORD_SLOT_SIZE)
  then st_lift (Err InsufficientBufferSpace) else
  copy_from_slice data_offset record_end payload ;;
  let s := set_check_sum (crc16 payload)
             (RecordSlot_new (as_u32 data_offset) (as_u32 (zlen payload))
                timestamp tuple_id) in
  insert_at ← st_reads (find_insert_position_by_key s);
  insert_slot_bytes insert_at s ;;
  rewrite_header_after_insert h (count + 1) (as_u32 record_end) (as_u32 data_offset) ;;
  mret insert_at.

(** [iter().map(|slot| slot.offset()).max().unwrap_or(PAGE_HEADER_SIZE)]. *)
Definition max_slot_offset (slots : list RecordSlot) : Z :=
  match slots with
  | [] => PAGE_HEADER_SIZE
  | s :: rest => fold_left (fun m t => Z.max m (sl_offset t)) rest (sl_offset s)
  end.

(** The loop of [rewrite_header_and_slots] from position [idx] on. *)
Fixpoint write_slots (idx : Z) (slots : list RecordSlot) : ST ErrorCode (list byte) unit :=
  match slots with
  | [] => mret tt
  | s :: rest =>
      offset ← st_lift (usub tailer_offset ((idx + 1) * RECORD_SLOT_SIZE));
      on_slice offset (offset + RECORD_SLOT_SIZE) (RecordSlot_encode s) ;;
      write_slots (idx + 1) rest
  end.

Definition rewrite_header_and_slots (page_id : Z) (slots : list RecordSlot)
    (first_free_offset : Z) : ST ErrorCode (list byte) unit :=
  slot_region_start ← st_lift (slot_region_start_for_count (zlen slots));
  fill slot_region_start tailer_offset x00 ;;
  write_slots 0 slots ;;
  free ← st_lift (usub slot_region_start first_free_offset);
  let last_record_offset := max_slot_offset slots in
  h0 ← st_reads header_mut;
  let next_lsn := saturating_add (ph_lsn h0) 1 in
  h ← st_reads header_mut;
  if negb (ph_page_id h =? page_id) then st_lift Panic else
  let h := set_free_bytes (as_u32 free)
             (set_last_record_offset last_record_offset
             (set_first_free_offset first_free_offset
             (set_record_count (as_u32 (zlen slots))
             (set_lsn next_lsn h)))) in
  on_slice 0 PAGE_HEADER_SIZE (PageHeader_encode h).

(** The loop of [rebuild_from_entries]: [slots] and [next_data] are its
    variables. *)
Fixpoint place_entries (entries : list (RecordSlot * list byte))
    (slots : list RecordSlot) (next_data : Z)
    : ST ErrorCode (list byte) (list RecordSlot * Z) :=
  match entries with
  | [] => mret (slots, next_data)
  | (s, payload) :: rest =>
      let offset := align_up next_data RECORD_ALIGN in
      let record_end := offset + zlen payload in
      slot_start ← st_lift (slot_region_start_for_count (zlen slots + 1));
      if slot_start <? record_end then st_lift (Err InsufficientBufferSpace) else
      copy_from_slice offset record_end payload ;;
      let s := set_check_sum (crc16 payload)
                 (set_size (as_u32 (zlen payload)) (set_offset (as_u32 offset) s)) in
      place_entries rest (slots ++ [s]) record_end
  end.

Definition entry_le (l r : RecordSlot * list byte) : bool := cmp_le (cmp_key l.1 r.1).
Definition slot_le (l r : RecordSlot) : bool := cmp_le (cmp_key l r).

Definition rebuild_from_entries (entries : list (RecordSlot * list byte))
    : ST ErrorCode (list byte) unit :=
  h ← st_reads header_mut;
  let entries := sort_stable entry_le entries in
  fill PAGE_HEADER_SIZE tailer_offset x00 ;;
  placed ← place_entries entries [] PAGE_HEADER_SIZE;
  rewrite_header_and_slots (ph_page_id h) placed.1 (as_u32 placed.2).

Definition compact_with_slots (slots : list RecordSlot) : ST ErrorCode (list byte) unit :=
  entries ← st_reads (materialize_entries slots);
  rebuild_from_entries entries.

Definition compact : ST ErrorCode (list byte) unit :=
  slots ← st_reads read_all_slots;
  compact_with_slots slots.

Definition delete_record (sorted_index : Z) : ST ErrorCode (list byte) unit :=
  st_reads check_page_len_mut ;;
  slots ← st_reads read_all_slots;
  if zlen slots <=? sorted_index then st_lift (Err Decode) else
  compact_with_slots (delete (Z.to_nat sorted_index) slots).

(** [iter().position(|slot| slot.cmp_key(&new_slot).is_eq())]. *)
Fixpoint position_eq (new_slot : RecordSlot) (slots : list RecordSlot) : option Z :=
  match slots with
  | [] => None
  | s :: rest =>
      match cmp_key s new_slot with
      | Eq => Some 0
      | _ => Z.succ <$> position_eq new_slot rest
      end
  end.

Definition update_record (sorted_index timestamp tuple_id : Z) (payload : list byte)
    : ST ErrorCode (list byte) Z :=
  st_reads check_page_len_mut ;;
  slots ← st_reads read_all_slots;
  if zlen slots <=? sorted_index then st_lift (Err Decode) else
  let slots := delete (Z.to_nat sorted_index) slots in
  let new_slot := set_check_sum (crc16 payload)
                    (RecordSlot_new 0 (as_u32 (zlen payload)) timestamp tuple_id) in
  entries ← st_reads (materialize_entries slots);
  let entries := entries ++ [(new_slot, payload)] in
  let sorted_slots := sort_stable slot_le (fst <$> entries) in
  match position_eq new_slot sorted_slots with
  | None => st_lift (Err Encode)
  | Some new_index => rebuild_from_entries entries ;; mret new_index
  end.

Definition refresh_tailer_checksum : ST ErrorCode (list byte) unit :=
  page ← st_get;
  bs ← st_lift (slice tailer_offset (tailer_offset + PAGE_TAILER_SIZE) page);
  t ← st_lift (PageTailer_decode bs);
  h ← st_reads header_mut;
  t ← st_lift (refresh_checksum page (PageTailer_set_lsn (ph_lsn h) t));
  on_slice tailer_offset (tailer_offset + PAGE_TAILER_SIZE) (PageTailer_encode t).

End page_block_ref_mut.
