(* ===== verification/RecordSpec.v ===== *)
(** * Abstract pages

    What a slotted page means to its clients: a list of records in key order,
    with the operations that the methods of [PageBlock] implement on bytes.
    The key of a record is its timestamp and tuple id. *)

From S2P Require Import Prelude Errors Compat PageFormat PageBlock.

Record Rec := mkRec { r_ts : Z; r_id : Z; r_payload : list byte }.

#[export] Instance rec_eq_dec : EqDecision Rec.
Proof. solve_decision. Defined.

Definition rec_key (r : Rec) : Z * Z := (r_ts r, r_id r).

Definition has_key (timestamp tuple_id : Z) (r : Rec) : Prop :=
  r_ts r = timestamp /\ r_id r = tuple_id.

#[export] Instance has_key_dec ts id r : Decision (has_key ts id r).
Proof. unfold has_key. apply _. Defined.

Definition key_lt (a b : Rec) : Prop :=
  r_ts a < r_ts b \/ r_ts a = r_ts b /\ r_id a < r_id b.

#[export] Instance key_lt_dec a b : Decision (key_lt a b).
Proof. unfold key_lt. apply _. Defined.

#[export] Instance key_lt_trans : Transitive key_lt.
Proof. intros a b c. unfold key_lt. lia. Qed.

(** Strictly increasing keys: sorted without duplicates. *)
Definition keys_sorted (rs : list Rec) : Prop := StronglySorted key_lt rs.

(** Index of the first record with a key. *)
Definition spec_find (timestamp tuple_id : Z) (rs : list Rec) : option Z :=
  (fun p => Z.of_nat p.1) <$> list_find (has_key timestamp tuple_id) rs.

(** Number of records with a smaller key, for a sorted page. *)
Fixpoint spec_position (r : Rec) (rs : list Rec) : nat :=
  match rs with
  | [] => 0
  | x :: rs => if decide (key_lt x r) then S (spec_position r rs) else 0
  end%nat.

Fixpoint spec_insert (r : Rec) (rs : list Rec) : list Rec :=
  match rs with
  | [] => [r]
  | x :: rs' => if decide (key_lt x r) then x :: spec_insert r rs' else r :: rs
  end.

Definition spec_update (i : nat) (r : Rec) (rs : list Rec) : list Rec :=
  spec_insert r (delete i rs).

(** End of the data area when the records are placed one after the other
    from [start] on, each at the next multiple of [RECORD_ALIGN]. *)
Fixpoint packed_end (start : Z) (payloads : list (list byte)) : Z :=
  match payloads with
  | [] => start
  | p :: ps => packed_end (align_up start RECORD_ALIGN + zlen p) ps
  end.

(** Space of records that are each padded to [RECORD_ALIGN]. *)
Definition padded_sum (sizes : list Z) : Z :=
  foldr (fun n acc => align_up n RECORD_ALIGN + acc) 0 sizes.

(** The records of a page that has just been rebuilt fit. *)
Definition pack_fits (payloads : list (list byte)) : bool :=
  packed_end PAGE_HEADER_SIZE payloads
    <=? tailer_offset - zlen payloads * RECORD_SLOT_SIZE.

(** A record fits behind the data area of the page with header [h]. *)
Definition insert_fits (h : PageHeader) (payload : list byte) : bool :=
  align_up (ph_first_free_offset h) RECORD_ALIGN + zlen payload
    <=? tailer_offset - (ph_record_count h + 1) * RECORD_SLOT_SIZE.

(** ** Facts *)

Lemma align_up_spec v :
  0 <= v -> v <= align_up v RECORD_ALIGN < v + 8 /\ align_up v RECORD_ALIGN mod 8 = 0.
Proof.
  intros Hv. unfold align_up, RECORD_ALIGN. change (8 - 1) with (Z.ones 3).
  rewrite <- Z.ldiff_land, Z.ldiff_ones_r, Z.shiftr_div_pow2, Z.shiftl_mul_pow2 by lia.
  change (Z.ones 3) with 7. change (2 ^ 3) with 8.
  pose proof (Z.div_mod (v + 7) 8 ltac:(lia)).
  pose proof (Z.mod_pos_bound (v + 7) 8 ltac:(lia)).
  split; [lia | apply Z_mod_mult].
Qed.

Lemma spec_insert_split r rs :
  spec_insert r rs = take (spec_position r rs) rs ++ r :: drop (spec_position r rs) rs.
Proof.
  induction rs as [| x rs IH]; [done |]. cbn. case_decide; [| done].
  cbn. by rewrite IH.
Qed.

Lemma spec_insert_perm r rs : spec_insert r rs ≡ₚ r :: rs.
Proof.
  induction rs as [| x rs IH]; [done |]. cbn. case_decide; [| done].
  rewrite IH. apply Permutation_swap.
Qed.

Lemma spec_insert_sorted r rs :
  keys_sorted rs -> Forall (fun x => ~ has_key (r_ts r) (r_id r) x) rs ->
  keys_sorted (spec_insert r rs).
Proof.
  intros Hs Hf. induction Hs as [| x rs Hs IH Hx]; cbn.
  - repeat constructor.
  - inversion Hf as [| ? ? Hne Hf']; subst. case_decide as Hlt.
    + constructor; [by apply IH |].
      rewrite spec_insert_perm. by constructor.
    + assert (key_lt r x) as Hrx by (unfold key_lt, has_key in *; lia).
      constructor; [by constructor |].
      constructor; [done |]. eapply Forall_impl; [exact Hx |].
      intros y Hy. by transitivity x.
Qed.

Lemma spec_find_none ts id rs :
  spec_find ts id rs = None <-> Forall (fun x => ~ has_key ts id x) rs.
Proof.
  unfold spec_find. rewrite fmap_None, list_find_None. done.
Qed.

Lemma spec_find_some ts id rs i :
  spec_find ts id rs = Some i ->
  exists n r, i = Z.of_nat n /\ rs !! n = Some r /\ has_key ts id r.
Proof.
  unfold spec_find. intros E. apply fmap_Some in E as ([n r] & E & ->).
  apply list_find_Some in E as (Hl & Hk & _). by exists n, r.
Qed.

Lemma spec_insert_find r rs :
  Forall (fun x => ~ has_key (r_ts r) (r_id r) x) rs ->
  spec_find (r_ts r) (r_id r) (spec_insert r rs) = Some (Z.of_nat (spec_position r rs)).
Proof.
  intros Hf. unfold spec_find.
  assert (list_find (has_key (r_ts r) (r_id r)) (spec_insert r rs)
          = Some (spec_position r rs, r)) as ->; [| done].
  induction Hf as [| x rs Hx Hf IH]; cbn.
  - by rewrite decide_True.
  - case_decide as Hlt; cbn.
    + rewrite decide_False by done. by rewrite IH.
    + by rewrite decide_True.
Qed.

(** Without the record that has the key, no record has it. *)
Lemma delete_found ts id rs n :
  keys_sorted rs -> spec_find ts id rs = Some (Z.of_nat n) ->
  Forall (fun x => ~ has_key ts id x) (delete n rs).
Proof.
  intros Hs E. unfold spec_find in E. apply fmap_Some in E as ([m r] & E & Hm).
  cbn in Hm. apply Nat2Z.inj in Hm as <-. revert n E.
  induction Hs as [| x rs Hs IH Hx]; intros n E; [done |].
  cbn in E. case_decide as Hk.
  - injection E as <- <-. eapply Forall_impl; [exact Hx |].
    unfold key_lt, has_key in *. lia.
  - apply fmap_Some in E as ([m r'] & E & [= -> ->]).
    constructor; [done |]. by apply IH.
Qed.

Lemma keys_sorted_delete_fresh rs i r :
  keys_sorted rs -> rs !! i = Some r ->
  Forall (fun x => ~ has_key (r_ts r) (r_id r) x) (delete i rs).
Proof.
  intros Hs. revert i. induction Hs as [| x rs Hs IH Hx]; intros [| i] Hi; try done.
  - injection Hi as ->. eapply Forall_impl; [exact Hx |]. unfold key_lt, has_key. lia.
  - constructor; [| by apply IH]. rewrite Forall_forall in Hx.
    specialize (Hx r ltac:(by eapply list_elem_of_lookup_2)). unfold key_lt, has_key in *. lia.
Qed.

Lemma packed_end_ge ps : forall start, 0 <= start -> start <= packed_end start ps.
Proof.
  induction ps as [| p ps IH]; intros start Hs; cbn; [lia |].
  pose proof (align_up_spec start Hs). pose proof (zlen_nonneg p).
  etrans; [| apply IH]; lia.
Qed.

Lemma align_up_add a n :
  0 <= a -> a mod 8 = 0 -> 0 <= n ->
  align_up (a + n) RECORD_ALIGN = a + align_up n RECORD_ALIGN.
Proof.
  intros Ha Hm Hn. pose proof (align_up_spec n Hn) as [? ?].
  pose proof (align_up_spec (a + n) ltac:(lia)) as [? ?].
  assert ((a + align_up n RECORD_ALIGN) mod 8 = 0).
  { rewrite Z.add_mod, Hm by lia. by rewrite Z.add_0_l, Z.mod_mod. }
  apply Z.mod_divide in H0, H2, H3; try lia.
  destruct H0 as [x Hx], H2 as [y Hy], H3 as [z Hz]. lia.
Qed.

Lemma padded_sum_app a b : padded_sum (a ++ b) = padded_sum a + padded_sum b.
Proof. induction a as [| x a IH]; cbn in *; [done |]. unfold padded_sum in *. lia. Qed.

Lemma padded_sum_delete i n sizes :
  sizes !! i = Some n ->
  padded_sum sizes = align_up n RECORD_ALIGN + padded_sum (delete i sizes).
Proof.
  intros Hi. rewrite delete_take_drop. rewrite <- (take_drop_middle sizes i n Hi) at 1.
  rewrite !padded_sum_app. cbn. unfold padded_sum. lia.
Qed.

Lemma padded_sum_insert_at k n sizes :
  padded_sum (insert_at k n sizes) = align_up n RECORD_ALIGN + padded_sum sizes.
Proof.
  unfold insert_at. rewrite <- (take_drop k sizes) at 3.
  rewrite !padded_sum_app. cbn. unfold padded_sum. lia.
Qed.

Lemma packed_end_padded ps : forall start,
  0 <= start ->
  packed_end start ps <= align_up (packed_end start ps) RECORD_ALIGN /\
  align_up (packed_end start ps) RECORD_ALIGN
    = align_up start RECORD_ALIGN + padded_sum (zlen <$> ps).
Proof.
  induction ps as [| p ps IH]; intros start Hs.
  - cbn. pose proof (align_up_spec start Hs). lia.
  - pose proof (align_up_spec start Hs) as [? ?]. pose proof (zlen_nonneg p).
    destruct (IH (align_up start RECORD_ALIGN + zlen p) ltac:(lia)) as [H3 H4].
    rewrite align_up_add in H4 by lia. cbn [packed_end fmap list_fmap]. split; [done |].
    rewrite H4. unfold padded_sum. cbn. lia.
Qed.

Lemma packed_end_mem p ps : forall start,
  0 <= start -> p ∈ ps -> zlen p <= packed_end start ps.
Proof.
  induction ps as [| q ps IH]; intros start Hs Hp; [by apply elem_of_nil in Hp |].
  pose proof (align_up_spec start Hs). pose proof (zlen_nonneg q). cbn [packed_end].
  apply elem_of_cons in Hp as [-> | Hp].
  - pose proof (packed_end_ge ps (align_up start RECORD_ALIGN + zlen q) ltac:(lia)). lia.
  - apply IH; [lia | done].
Qed.

Lemma spec_insert_last r rs : Forall (fun x => key_lt x r) rs -> spec_insert r rs = rs ++ [r].
Proof.
  induction 1 as [| x rs Hx HF IH]; cbn; [done |]. rewrite decide_True by done. by rewrite IH.
Qed.

Definition insert_all (rs es : list Rec) : list Rec := foldl (fun rs r => spec_insert r rs) rs es.

(** Records in key order behind the ones on the page are appended. *)
Lemma insert_all_sorted es : forall rs, keys_sorted (rs ++ es) -> insert_all rs es = rs ++ es.
Proof.
  unfold insert_all. induction es as [| e es IH]; intros rs Hs; cbn [foldl].
  { by rewrite app_nil_r. }
  rewrite spec_insert_last.
  - rewrite IH; rewrite <- app_assoc; done.
  - apply Forall_lookup. intros i x Hx.
    eapply (StronglySorted_lookup _ _ i (length rs)); [exact Hs | | |].
    + by eapply lookup_lt_Some.
    + by apply lookup_app_l_Some.
    + rewrite lookup_app_r by lia. by rewrite Nat.sub_diag.
Qed.

Lemma keys_sorted_NoDup rs : keys_sorted rs -> NoDup (rec_key <$> rs).
Proof.
  intros Hs. apply NoDup_alt. intros i j k Hi Hj.
  apply list_lookup_fmap_Some in Hi as (a & -> & Ha), Hj as (b & Hb' & Hb).
  injection Hb' as E1 E2. destruct (decide (i = j)) as [| Hne]; [done |].
  assert (key_lt a b \/ key_lt b a) as [Hlt | Hlt]; [| unfold key_lt in Hlt; lia ..].
  destruct (decide (i < j)%nat).
  - left. by eapply (StronglySorted_lookup _ _ i j).
  - right. eapply (StronglySorted_lookup _ _ j i); [done | lia | done | done].
Qed.
