(* ===== verification/RecordMap.v ===== *)
(** * Abstract pages as finite maps

    The records of a page with distinct keys are a finite map from keys to
    payloads: [to_map] is the abstraction function, and the list operations
    of [RecordSpec] are the map operations.  [spec_diff] is the reference
    definition of a record-level page delta. *)

From S2P Require Import Prelude Errors Compat PageFormat PageBlock RecordSpec.

Definition to_map (rs : list Rec) : gmap (Z * Z) (list byte) :=
  list_to_map ((fun r => (rec_key r, r_payload r)) <$> rs).

(** Replacing or inserting a record. *)
Definition spec_upsert (r : Rec) (rs : list Rec) : list Rec :=
  match spec_find (r_ts r) (r_id r) rs with
  | Some i => spec_update (Z.to_nat i) r rs
  | None => spec_insert r rs
  end.

(** Removing the record with a key. *)
Definition spec_remove (k : Z * Z) (rs : list Rec) : list Rec :=
  match spec_find k.1 k.2 rs with
  | Some i => delete (Z.to_nat i) rs
  | None => rs
  end.

(** The difference of two sorted record lists: the keys to remove and the
    records to insert or replace. *)
Fixpoint spec_diff (old : list Rec) : list Rec -> list (Z * Z) * list Rec :=
  fix go (new : list Rec) : list (Z * Z) * list Rec :=
    match old, new with
    | [], _ => ([], new)
    | _, [] => (rec_key <$> old, [])
    | a :: old', b :: new' =>
        if decide (rec_key a = rec_key b) then
          let d := spec_diff old' new' in
          if decide (r_payload a = r_payload b) then d else (d.1, b :: d.2)
        else if decide (key_lt a b) then
          let d := spec_diff old' new in (rec_key a :: d.1, d.2)
        else
          let d := go new' in (d.1, b :: d.2)
    end.

Definition spec_apply (rs : list Rec) (d : list (Z * Z) * list Rec) : list Rec :=
  foldl (fun rs r => spec_upsert r rs) (foldl (fun rs k => spec_remove k rs) rs d.1) d.2.

(** ** The abstraction *)

Lemma to_map_cons r rs : to_map (r :: rs) = <[rec_key r := r_payload r]> (to_map rs).
Proof. done. Qed.

Lemma to_map_none rs k : k ∉ rec_key <$> rs -> to_map rs !! k = None.
Proof.
  intros Hk. apply not_elem_of_list_to_map_1. rewrite <- list_fmap_compose. exact Hk.
Qed.

Lemma to_map_is_some rs k : is_Some (to_map rs !! k) <-> k ∈ rec_key <$> rs.
Proof.
  induction rs as [| r rs IH].
  - split; [by intros [? ?] | by intros ?%elem_of_nil].
  - rewrite to_map_cons, fmap_cons, elem_of_cons, <- IH.
    destruct (decide (k = rec_key r)) as [-> | Hne].
    + rewrite lookup_insert_eq. naive_solver.
    + rewrite lookup_insert_ne by done. naive_solver.
Qed.

Lemma to_map_lookup r rs :
  keys_sorted rs -> r ∈ rs -> to_map rs !! rec_key r = Some (r_payload r).
Proof.
  intros Hs Hr. unfold to_map. apply elem_of_list_to_map_1.
  - rewrite <- list_fmap_compose. by apply keys_sorted_NoDup.
  - apply list_elem_of_fmap. by exists r.
Qed.

Lemma to_map_none_sorted a rs : Forall (key_lt a) rs -> to_map rs !! rec_key a = None.
Proof.
  intros HF. apply to_map_none. intros Hin. apply list_elem_of_fmap in Hin as (b & E & Hb).
  rewrite Forall_forall in HF. specialize (HF b Hb). injection E. unfold key_lt in HF. lia.
Qed.

Lemma to_map_perm a b : NoDup (rec_key <$> a) -> a ≡ₚ b -> to_map a = to_map b.
Proof.
  intros Hnd Hp. apply list_to_map_proper; [| by rewrite Hp].
  rewrite <- list_fmap_compose. exact Hnd.
Qed.

Lemma fresh_keys ts id rs :
  Forall (fun x => ~ has_key ts id x) rs -> (ts, id) ∉ rec_key <$> rs.
Proof.
  intros HF Hin. apply list_elem_of_fmap in Hin as (b & E & Hb). rewrite Forall_forall in HF.
  apply (HF b Hb). unfold rec_key in E. by simplify_eq.
Qed.

Lemma to_map_insert r rs :
  keys_sorted rs -> spec_find (r_ts r) (r_id r) rs = None ->
  to_map (spec_insert r rs) = <[rec_key r := r_payload r]> (to_map rs).
Proof.
  intros Hs Hf. apply spec_find_none in Hf. rewrite <- to_map_cons. apply to_map_perm.
  - by apply keys_sorted_NoDup, spec_insert_sorted.
  - apply spec_insert_perm.
Qed.

Lemma to_map_delete rs n r :
  keys_sorted rs -> rs !! n = Some r -> to_map (delete n rs) = delete (rec_key r) (to_map rs).
Proof.
  intros Hs Hn. assert (rs ≡ₚ r :: delete n rs) as Hp by (by apply delete_Permutation).
  rewrite (to_map_perm rs (r :: delete n rs)) by (done || by apply keys_sorted_NoDup).
  rewrite to_map_cons, delete_insert_id; [done |]. apply to_map_none.
  pose proof (keys_sorted_NoDup rs Hs) as Hnd. rewrite Hp, fmap_cons in Hnd.
  by apply NoDup_cons in Hnd as [Hnot _].
Qed.

Lemma spec_find_lookup ts id rs i :
  spec_find ts id rs = Some i ->
  exists r, 0 <= i /\ rs !! Z.to_nat i = Some r /\ rec_key r = (ts, id).
Proof.
  intros E. destruct (spec_find_some _ _ _ _ E) as (n & r & -> & Hr & [H1 H2]).
  exists r. rewrite Nat2Z.id. unfold rec_key. split_and!; [lia | done | congruence].
Qed.

Lemma spec_find_map ts id rs :
  spec_find ts id rs = None -> to_map rs !! (ts, id) = None.
Proof. intros Hf. apply to_map_none, fresh_keys. by apply spec_find_none. Qed.

Lemma spec_find_is_some ts id rs :
  is_Some (to_map rs !! (ts, id)) -> exists i, spec_find ts id rs = Some i.
Proof.
  intros [p Hp]. destruct (spec_find ts id rs) as [i |] eqn:E; [by exists i |].
  apply spec_find_map in E. congruence.
Qed.

Lemma spec_upsert_sorted r rs : keys_sorted rs -> keys_sorted (spec_upsert r rs).
Proof.
  intros Hs. unfold spec_upsert. destruct (spec_find _ _ rs) as [i |] eqn:E.
  - destruct (spec_find_lookup _ _ _ _ E) as (x & Hi & _).
    apply spec_insert_sorted; [by apply StronglySorted_delete |].
    apply delete_found; [done |]. by rewrite Z2Nat.id.
  - apply spec_insert_sorted; [done |]. by apply spec_find_none.
Qed.

Lemma to_map_upsert r rs :
  keys_sorted rs -> to_map (spec_upsert r rs) = <[rec_key r := r_payload r]> (to_map rs).
Proof.
  intros Hs. unfold spec_upsert. destruct (spec_find _ _ rs) as [i |] eqn:E.
  - destruct (spec_find_lookup _ _ _ _ E) as (x & Hi & Hx & Hk).
    unfold spec_update. rewrite to_map_insert.
    + rewrite (to_map_delete _ _ x Hs Hx), Hk. apply insert_delete_eq.
    + by apply StronglySorted_delete.
    + apply spec_find_none, delete_found; [done |]. by rewrite Z2Nat.id.
  - by apply to_map_insert.
Qed.

Lemma spec_remove_sorted k rs : keys_sorted rs -> keys_sorted (spec_remove k rs).
Proof.
  intros Hs. unfold spec_remove. destruct (spec_find _ _ rs); [| done].
  by apply StronglySorted_delete.
Qed.

Lemma to_map_remove k rs :
  keys_sorted rs -> to_map (spec_remove k rs) = delete k (to_map rs).
Proof.
  intros Hs. destruct k as [ts id]. unfold spec_remove. cbn [fst snd].
  destruct (spec_find ts id rs) as [i |] eqn:E.
  - destruct (spec_find_lookup _ _ _ _ E) as (x & Hi & Hx & <-). by apply to_map_delete.
  - symmetry. apply delete_id. by apply spec_find_map.
Qed.

(** Sorted lists with the same map are equal. *)
Lemma keys_sorted_perm_eq a b :
  keys_sorted a -> keys_sorted b -> a ≡ₚ b -> a = b.
Proof.
  intros Ha. revert b. induction Ha as [| x a Ha IH Hx]; intros b Hb Hp.
  { by apply Permutation_nil_l in Hp as ->. }
  destruct Hb as [| y b Hb Hy]; [by apply Permutation_nil_r in Hp |].
  assert (x = y) as ->.
  { assert (x ∈ y :: b) as Hin by (rewrite <- Hp; left).
    assert (y ∈ x :: a) as Hin' by (rewrite Hp; left).
    apply elem_of_cons in Hin as [| Hin]; [done |].
    apply elem_of_cons in Hin' as [| Hin']; [done |].
    rewrite Forall_forall in Hx, Hy. specialize (Hx y Hin'). specialize (Hy x Hin).
    unfold key_lt in *. lia. }
  f_equal. apply IH; [done |]. by apply (Permutation_cons_inv (a := y)).
Qed.

Lemma to_map_inj a b : keys_sorted a -> keys_sorted b -> to_map a = to_map b -> a = b.
Proof.
  intros Ha Hb E. apply keys_sorted_perm_eq; [done | done |].
  apply (f_equal map_to_list) in E. unfold to_map in E.
  assert (forall rs, keys_sorted rs ->
    map_to_list (list_to_map (M := gmap (Z * Z) (list byte))
      ((fun r => (rec_key r, r_payload r)) <$> rs))
    ≡ₚ ((fun r => (rec_key r, r_payload r)) <$> rs)) as Hl.
  { intros rs Hs. apply map_to_list_to_map. rewrite <- list_fmap_compose.
    by apply keys_sorted_NoDup. }
  pose proof (Hl a Ha) as Pa. rewrite E, (Hl b Hb) in Pa.
  assert (forall rs : list Rec, (fun e : Z * Z * list byte => mkRec e.1.1 e.1.2 e.2) <$>
            ((fun r => (rec_key r, r_payload r)) <$> rs) = rs) as Hinv.
  { intros rs. rewrite <- list_fmap_compose. rewrite <- (list_fmap_id rs) at 2.
    apply list_fmap_ext. by intros i [? ? ?]. }
  rewrite <- (Hinv a), <- (Hinv b). symmetry. by apply fmap_Permutation.
Qed.

(** ** Deltas *)

Lemma spec_diff_cons a old b new :
  spec_diff (a :: old) (b :: new) =
    if decide (rec_key a = rec_key b) then
      let d := spec_diff old new in
      if decide (r_payload a = r_payload b) then d else (d.1, b :: d.2)
    else if decide (key_lt a b) then
      let d := spec_diff old (b :: new) in (rec_key a :: d.1, d.2)
    else
      let d := spec_diff (a :: old) new in (d.1, b :: d.2).
Proof. done. Qed.

Lemma spec_diff_nil_r old : spec_diff old [] = (rec_key <$> old, []).
Proof. by destruct old. Qed.

Lemma spec_diff_nil_l new : spec_diff [] new = ([], new).
Proof. by destruct new. Qed.

Lemma key_lt_trichotomy a b : rec_key a <> rec_key b -> ~ key_lt a b -> key_lt b a.
Proof.
  unfold rec_key, key_lt. intros Hne Hlt.
  destruct (decide (r_ts a = r_ts b)), (decide (r_id a = r_id b)); try lia. congruence.
Qed.

(** What a delta holds for each key: the new records that differ from the
    old ones, and the keys without a new record. *)
Lemma spec_diff_upserts old : forall new k,
  keys_sorted old -> keys_sorted new ->
  to_map (spec_diff old new).2 !! k =
    if decide (to_map old !! k = to_map new !! k) then None else to_map new !! k.
Proof.
  induction old as [| a old IHold]; intros new k Ho Hn.
  { rewrite spec_diff_nil_l. cbn [snd]. case_decide as E; [| done]. rewrite <- E. done. }
  revert k Hn. induction new as [| b new IHnew]; intros k Hn.
  { rewrite spec_diff_nil_r. cbn [snd]. by case_decide. }
  inversion Ho as [| ? ? Ho' Ha]; subst. inversion Hn as [| ? ? Hn' Hb]; subst.
  rewrite spec_diff_cons, (to_map_cons a), (to_map_cons b). cbv zeta.
  case_decide as Hk; [| case_decide as Hlt].
  - rewrite <- Hk. destruct (decide (k = rec_key a)) as [-> | Hne].
    + rewrite !lookup_insert_eq. pose proof (IHold new (rec_key a) Ho' Hn') as IH.
      rewrite (to_map_none_sorted a old Ha) in IH.
      rewrite Hk, (to_map_none_sorted b new Hb), decide_True in IH by done. rewrite Hk.
      case_decide; case_decide; cbn [snd]; try congruence; try done.
      by rewrite to_map_cons, lookup_insert_eq.
    + rewrite !lookup_insert_ne by done. rewrite <- (IHold new k Ho' Hn').
      case_decide; [done |]. cbn [snd]. rewrite to_map_cons, lookup_insert_ne; [done | congruence].
  - cbn [snd]. rewrite (IHold (b :: new) k Ho' Hn).
    rewrite to_map_cons. destruct (decide (k = rec_key a)) as [-> | Hne].
    + assert (Forall (key_lt a) (b :: new)) as HF.
      { constructor; [done |]. eapply Forall_impl; [exact Hb |]. intros x Hx. by transitivity b. }
      apply to_map_none_sorted in HF. rewrite to_map_cons in HF. rewrite HF.
      rewrite (to_map_none_sorted a old Ha), lookup_insert_eq. by repeat case_decide.
    + by rewrite (lookup_insert_ne (to_map old)) by done.
  - cbn [snd]. rewrite to_map_cons. destruct (decide (k = rec_key b)) as [-> | Hne].
    + pose proof (key_lt_trichotomy a b Hk Hlt) as Hba.
      rewrite !lookup_insert_eq, lookup_insert_ne by done.
      rewrite (to_map_none_sorted b old); [by rewrite decide_False |].
      eapply Forall_impl; [exact Ha |]. intros x Hx. by transitivity a.
    + rewrite !(lookup_insert_ne _ (rec_key b)) by done.
      rewrite (IHnew k Hn'). by rewrite to_map_cons.
Qed.

Lemma spec_diff_removes old : forall new k,
  keys_sorted old -> keys_sorted new ->
  k ∈ (spec_diff old new).1 <-> is_Some (to_map old !! k) /\ to_map new !! k = None.
Proof.
  induction old as [| a old IHold]; intros new k Ho Hn.
  { rewrite spec_diff_nil_l. cbn [fst]. split; [by intros ?%elem_of_nil |].
    intros [[x Hx] _]. done. }
  revert k Hn. induction new as [| b new IHnew]; intros k Hn.
  { rewrite spec_diff_nil_r. cbn [fst]. split.
    - intros Hin. split; [| done]. by apply to_map_is_some.
    - intros [Hs _]. by apply to_map_is_some. }
  inversion Ho as [| ? ? Ho' Ha]; subst. inversion Hn as [| ? ? Hn' Hb]; subst.
  rewrite spec_diff_cons, (to_map_cons a), (to_map_cons b). cbv zeta.
  case_decide as Hk; [| case_decide as Hlt].
  - assert (k ∈ (spec_diff old new).1 <->
      is_Some (<[rec_key a:=r_payload a]> (to_map old) !! k) /\
      <[rec_key b:=r_payload b]> (to_map new) !! k = None) as Hiff.
    { rewrite (IHold new k Ho' Hn'), <- Hk. destruct (decide (k = rec_key a)) as [-> | Hne].
      - rewrite !lookup_insert_eq, (to_map_none_sorted a old Ha).
        split; [by intros [[? ?] ?] | by intros [_ ?]].
      - by rewrite !lookup_insert_ne by done. }
    by case_decide.
  - cbn [fst]. rewrite elem_of_cons, (IHold (b :: new) k Ho' Hn), to_map_cons.
    destruct (decide (k = rec_key a)) as [-> | Hne].
    + rewrite !lookup_insert_eq. split; [| by left]. intros _. split; [done |].
      rewrite <- to_map_cons. apply to_map_none_sorted.
      constructor; [done |]. eapply Forall_impl; [exact Hb |]. intros x Hx. by transitivity b.
    + rewrite (lookup_insert_ne (to_map old)) by done. naive_solver.
  - cbn [fst]. rewrite (IHnew k Hn'), to_map_cons.
    destruct (decide (k = rec_key b)) as [-> | Hne].
    + pose proof (key_lt_trichotomy a b Hk Hlt) as Hba.
      rewrite lookup_insert_ne, lookup_insert_eq by done.
      rewrite (to_map_none_sorted b old); [split; [by intros [[? ?] ?] | by intros [[? ?] ?]] |].
      eapply Forall_impl; [exact Ha |]. intros x Hx. by transitivity a.
    + by rewrite (lookup_insert_ne (to_map new)) by done.
Qed.

Lemma foldl_remove_sorted ks : forall rs,
  keys_sorted rs -> keys_sorted (foldl (fun rs k => spec_remove k rs) rs ks).
Proof. induction ks; intros rs Hs; cbn; [done |]. by apply IHks, spec_remove_sorted. Qed.

Lemma foldl_remove_lookup ks : forall rs k,
  keys_sorted rs ->
  to_map (foldl (fun rs k => spec_remove k rs) rs ks) !! k =
    if decide (k ∈ ks) then None else to_map rs !! k.
Proof.
  induction ks as [| x ks IH]; intros rs k Hs; cbn [foldl].
  { by rewrite decide_False by apply not_elem_of_nil. }
  rewrite IH by (by apply spec_remove_sorted). rewrite to_map_remove by done.
  destruct (decide (k = x)) as [-> | Hne].
  - rewrite lookup_delete_eq. rewrite (decide_True (P := x ∈ x :: ks)) by left. by case_decide.
  - rewrite lookup_delete_ne by done. repeat case_decide; try done.
    + exfalso. set_solver.
    + exfalso. set_solver.
Qed.

Lemma foldl_upsert_sorted us : forall rs,
  keys_sorted rs -> keys_sorted (foldl (fun rs r => spec_upsert r rs) rs us).
Proof. induction us; intros rs Hs; cbn; [done |]. by apply IHus, spec_upsert_sorted. Qed.

Lemma foldl_upsert_lookup us : forall rs k,
  keys_sorted rs -> NoDup (rec_key <$> us) ->
  to_map (foldl (fun rs r => spec_upsert r rs) rs us) !! k =
    match to_map us !! k with Some p => Some p | None => to_map rs !! k end.
Proof.
  induction us as [| u us IH]; intros rs k Hs Hnd; cbn [foldl]; [done |].
  rewrite fmap_cons in Hnd. apply NoDup_cons in Hnd as [Hnew Hnd].
  rewrite IH by (done || by apply spec_upsert_sorted).
  rewrite to_map_upsert, to_map_cons by done.
  destruct (decide (k = rec_key u)) as [-> | Hne].
  - rewrite !lookup_insert_eq. by rewrite (to_map_none us) by done.
  - by rewrite !lookup_insert_ne by done.
Qed.

Lemma spec_diff_sublist old : forall new, (spec_diff old new).2 `sublist_of` new.
Proof.
  induction old as [| a old IHold]; intros new.
  { by rewrite spec_diff_nil_l. }
  induction new as [| b new IHnew]; [by rewrite spec_diff_nil_r |].
  rewrite spec_diff_cons. cbv zeta. repeat case_decide; cbn [snd].
  - by apply sublist_cons.
  - by apply sublist_skip.
  - apply IHold.
  - by apply sublist_skip.
Qed.

Lemma spec_diff_keys_sublist old : forall new,
  (spec_diff old new).1 `sublist_of` (rec_key <$> old).
Proof.
  induction old as [| a old IHold]; intros new.
  { by rewrite spec_diff_nil_l. }
  induction new as [| b new IHnew]; [by rewrite spec_diff_nil_r |].
  rewrite spec_diff_cons, fmap_cons. cbv zeta. repeat case_decide; cbn [fst].
  - by apply sublist_cons.
  - by apply sublist_cons.
  - by apply sublist_skip.
  - by rewrite fmap_cons in IHnew.
Qed.

(** Applying the difference of two pages to the first one gives the second. *)
Lemma spec_apply_diff old new :
  keys_sorted old -> keys_sorted new -> spec_apply old (spec_diff old new) = new.
Proof.
  intros Ho Hn. apply to_map_inj; [| done |].
  { by apply foldl_upsert_sorted, foldl_remove_sorted. }
  apply map_eq. intros k. unfold spec_apply. rewrite foldl_upsert_lookup.
  - rewrite spec_diff_upserts, foldl_remove_lookup by done.
    pose proof (spec_diff_removes old new k Ho Hn) as Hrem.
    destruct (decide (to_map old !! k = to_map new !! k)) as [E | Hne].
    + case_decide as Hin; [| done]. apply Hrem in Hin as [[p Hp] Hnone]. congruence.
    + destruct (to_map new !! k) as [p |] eqn:E; [done |].
      case_decide as Hin; [done |]. destruct (to_map old !! k) as [q |] eqn:Eq; [| done].
      exfalso. apply Hin, Hrem. by split.
  - by apply foldl_remove_sorted.
  - eapply sublist_NoDup; [by apply (keys_sorted_NoDup new) |].
    apply fmap_sublist, spec_diff_sublist.
Qed.

(** The difference to a page with one record less. *)
Lemma spec_diff_same rs : spec_diff rs rs = ([], []).
Proof.
  induction rs as [| r rs IH]; [done |]. rewrite spec_diff_cons. cbv zeta. by rewrite !decide_True, IH.
Qed.

Lemma spec_diff_delete rs : forall i r,
  keys_sorted rs -> rs !! i = Some r -> spec_diff rs (delete i rs) = ([rec_key r], []).
Proof.
  induction rs as [| a rs IH]; intros i r Hs Hi; [done |]. inversion Hs as [| ? ? Hs' Ha]; subst.
  destruct i as [| i]; cbn in Hi.
  - injection Hi as ->. cbn [delete list_delete]. destruct rs as [| b rs]; [done |].
    inversion Ha as [| ? ? Hab _]; subst. rewrite spec_diff_cons. cbv zeta.
    rewrite (decide_False (P := rec_key r = rec_key b)) by (unfold rec_key, key_lt in *; intros [=]; lia).
    by rewrite decide_True, spec_diff_same.
  - change (delete (S i) (a :: rs)) with (a :: delete i rs). rewrite spec_diff_cons. cbv zeta.
    rewrite !decide_True by done. by apply IH.
Qed.
