(* ===== verification/PageView.v ===== *)
(** * Reading slotted pages

    The representation of a page: [header_view] (the header bytes encode a
    header), [page_view] (the slot array encodes a list of slots) and
    [page_rep] (the records lie in the data area and the slots are sorted, the
    invariant of the methods of [PageBlockRefMut]); and what the read methods
    of [PageBlock] return on a page in each of them. *)

From S2P Require Import Prelude Errors Compat PageFormat PageBlock RecordSpec.

(** Position of the slot with sorted index [i]. *)
Definition slot_pos (i : Z) : Z := tailer_offset - (i + 1) * RECORD_SLOT_SIZE.

#[export] Hint Unfold
  DEFAULT_PAGE_SIZE PAGE_SIZE RECORD_ALIGN tailer_offset slot_pos : page_consts.

(** Arithmetic with the layout constants unfolded. *)
Ltac plia := autounfold with page_consts in *; lia.

Section representation.
Context `{Packages}.

Record header_view (pg : list byte) (h : PageHeader) : Prop := mk_header_view {
  hv_len : zlen pg = PAGE_SIZE;
  hv_bytes : pg.[0, PAGE_HEADER_SIZE] = header_bytes h;
  hv_ok : header_ok h;
}.

Definition slots_at (pg : list byte) (ss : list RecordSlot) : Prop :=
  forall i s, ss !! i = Some s -> pg.[slot_pos (Z.of_nat i), RECORD_SLOT_SIZE] = slot_bytes s.

Record page_view (pg : list byte) (h : PageHeader) (ss : list RecordSlot) : Prop :=
  mk_page_view {
  pv_header : header_view pg h;
  pv_count : ph_record_count h = zlen ss;
  pv_room : PAGE_HEADER_SIZE + zlen ss * RECORD_SLOT_SIZE <= tailer_offset;
  pv_slots : slots_at pg ss;
  pv_slot_ok : Forall slot_ok ss;
}.

(** A slot whose record is an aligned range of [[PAGE_HEADER_SIZE, limit)]
    with the payload's checksum. *)
Record slot_valid (pg : list byte) (limit : Z) (s : RecordSlot) : Prop := mk_slot_valid {
  sv_low : PAGE_HEADER_SIZE <= sl_offset s;
  sv_align : sl_offset s mod RECORD_ALIGN = 0;
  sv_high : sl_offset s + sl_size s <= limit;
  sv_crc : sl_checksum s = crc16 (pg.[sl_offset s, sl_size s]);
}.

Definition slot_leP (a b : RecordSlot) : Prop := slot_le a b = true.

(** A page whose slots are sorted and point to checksummed records: what the
    read methods need. *)
Record page_scan (pg : list byte) (h : PageHeader) (ss : list RecordSlot) : Prop :=
  mk_page_scan {
  ps_view : page_view pg h ss;
  ps_valid : Forall (slot_valid pg (tailer_offset - zlen ss * RECORD_SLOT_SIZE)) ss;
  ps_sorted : StronglySorted slot_leP ss;
}.

Record page_rep (pg : list byte) (h : PageHeader) (ss : list RecordSlot) : Prop :=
  mk_page_rep {
  pr_view : page_view pg h ss;
  pr_first : PAGE_HEADER_SIZE <= ph_first_free_offset h;
  pr_free : ph_first_free_offset h + ph_free_bytes h
            = tailer_offset - zlen ss * RECORD_SLOT_SIZE;
  pr_valid : Forall (slot_valid pg (ph_first_free_offset h)) ss;
  pr_sorted : StronglySorted slot_leP ss;
  pr_space : PAGE_HEADER_SIZE + padded_sum (sl_size <$> ss)
             <= align_up (ph_first_free_offset h) RECORD_ALIGN;
}.

End representation.

(** ** Slot order *)

Lemma cmp_key_lt a b :
  cmp_key a b = Lt <->
  sl_timestamp a < sl_timestamp b \/
  sl_timestamp a = sl_timestamp b /\
    (sl_tuple_id a < sl_tuple_id b \/
     sl_tuple_id a = sl_tuple_id b /\ sl_offset a < sl_offset b).
Proof.
  unfold cmp_key, then_with.
  destruct (Z.compare_spec (sl_timestamp a) (sl_timestamp b));
    destruct (Z.compare_spec (sl_tuple_id a) (sl_tuple_id b));
    destruct (Z.compare_spec (sl_offset a) (sl_offset b)); split; intros; try done; lia.
Qed.

Lemma slot_le_spec a b :
  slot_leP a b <->
  sl_timestamp a < sl_timestamp b \/
  sl_timestamp a = sl_timestamp b /\
    (sl_tuple_id a < sl_tuple_id b \/
     sl_tuple_id a = sl_tuple_id b /\ sl_offset a <= sl_offset b).
Proof.
  unfold slot_leP, slot_le, cmp_key, then_with.
  destruct (Z.compare_spec (sl_timestamp a) (sl_timestamp b));
    destruct (Z.compare_spec (sl_tuple_id a) (sl_tuple_id b));
    destruct (Z.compare_spec (sl_offset a) (sl_offset b));
    cbn; split; intros; try done; lia.
Qed.

#[export] Instance slot_leP_trans : Transitive slot_leP.
Proof. intros a b c. rewrite !slot_le_spec. lia. Qed.

Lemma slot_le_total a b : slot_leP a b \/ slot_leP b a.
Proof. rewrite !slot_le_spec. lia. Qed.

(** ** Binary search *)

Lemma bisect_spec fuel p (f : Z -> bool) low high :
  low <= high -> high - low < 2 ^ Z.of_nat fuel ->
  (forall i, low <= i < high -> p i = Ok (f i)) ->
  (forall i j, low <= i <= j -> j < high -> f j = true -> f i = true) ->
  exists k, bisect fuel p low high = Ok k /\ low <= k <= high /\
    (forall i, low <= i < k -> f i = true) /\ (forall i, k <= i < high -> f i = false).
Proof.
  revert low high. induction fuel as [| fuel IH]; intros low high Hle Hfuel Hp Hmono.
  - exists low. cbn in *. rewrite (proj2 (Z.ltb_ge _ _)) by lia. repeat split; intros; lia.
  - cbn [bisect]. rewrite Nat2Z.inj_succ, Z.pow_succ_r in Hfuel by lia.
    destruct (Z.ltb_spec low high) as [Hlt | Hge].
    2:{ exists low. repeat split; intros; lia. }
    set (mid := low + (high - low) / 2).
    assert (low <= mid < high /\ mid - low = (high - low) / 2) as [Hmid Hhalf].
    { unfold mid. pose proof (Z.div_lt (high - low) 2 ltac:(lia) ltac:(lia)).
      pose proof (Z.div_pos (high - low) 2 ltac:(lia) ltac:(lia)). lia. }
    pose proof (Z.div_mod (high - low) 2 ltac:(lia)).
    pose proof (Z.mod_pos_bound (high - low) 2 ltac:(lia)).
    rewrite (res_bind_ok _ _ (f mid)) by (apply Hp; lia).
    destruct (f mid) eqn:Hf.
    + destruct (IH (mid + 1) high) as (k & -> & Hk & Hl & Hr);
        [lia | lia | intros; apply Hp; lia | intros i j ?; apply Hmono; lia |].
      exists k. repeat split; try lia; intros i Hi; [| apply Hr; lia].
      destruct (Z.le_gt_cases i mid); [| apply Hl; lia].
      apply (Hmono i mid); [lia | lia | done].
    + destruct (IH low mid) as (k & -> & Hk & Hl & Hr);
        [lia | lia | intros; apply Hp; lia | intros i j ? ?; apply Hmono; lia |].
      exists k. repeat split; try lia; intros i Hi; [apply Hl; lia |].
      destruct (Z.lt_ge_cases i mid); [apply Hr; lia |].
      destruct (f i) eqn:Hfi; [| done].
      rewrite (Hmono mid i) in Hf; [done | lia | lia | done].
Qed.

Lemma bisect_fuel_enough n : in_u32 n -> n - 0 < 2 ^ Z.of_nat bisect_fuel.
Proof. intros Hn. change (2 ^ Z.of_nat bisect_fuel) with 36893488147419103232. mlia. Qed.

(** ** The read methods *)

Section header_reads.
Context `{PackagesOk}.
Context (pg : list byte) (h : PageHeader) (V : header_view pg h).

Lemma check_page_len_view : check_page_len pg = Ok tt.
Proof. unfold check_page_len. by rewrite (hv_len _ _ V). Qed.

Lemma check_page_len_mut_view : check_page_len_mut pg = Ok tt.
Proof. unfold check_page_len_mut. by rewrite (hv_len _ _ V). Qed.

Lemma read_header_field n a :
  0 <= a -> a + Z.of_nat n <= PAGE_HEADER_SIZE ->
  read_le n a pg = read_le n a (header_bytes h).
Proof.
  intros Ha Hn. rewrite <- (hv_bytes _ _ V). unfold read_le.
  pose proof (hv_len _ _ V).
  rewrite !slice_ok by (rewrite ?zlen_zsub; plia).
  rewrite zsub_zsub by plia. done.
Qed.

Lemma header_bytes_field n a v pre post :
  header_bytes h = pre ++ le_write n v ++ post -> a = zlen pre ->
  0 <= v < 256 ^ Z.of_nat n -> a + Z.of_nat n <= PAGE_HEADER_SIZE ->
  read_le n a pg = Ok v.
Proof.
  intros E -> Hv Hn. rewrite read_header_field by (pose proof (zlen_nonneg pre); lia).
  rewrite E. by apply read_le_app.
Qed.

Lemma header_view_decode : header pg = Ok h.
Proof.
  unfold header. rewrite check_page_len_view. cbn.
  rewrite slice_ok by (rewrite ?(hv_len _ _ V); plia).
  rewrite Z.sub_0_r. cbn. rewrite (hv_bytes _ _ V).
  rewrite <- (app_nil_r (header_bytes h)). apply PageHeader_decode_bytes, (hv_ok _ _ V).
Qed.

(** Reads one field of the header through [read_header_field]. *)
Ltac header_field :=
  rewrite read_header_field by plia; destruct (hv_ok _ _ V);
  unfold header_bytes; autounfold with page_consts in *;
  repeat (rewrite read_le_skip by (cbn; lia); simpl_offsets);
  rewrite read_le_here; [reflexivity |]; auto using u16_range, u32_range, u64_range.

Lemma header_magic_view : header_magic pg = Ok PAGE_HEADER_MAGIC.
Proof.
  unfold header_magic. rewrite check_page_len_view. cbn [mbind res_bind].
  rewrite read_header_field by plia. unfold header_bytes.
  rewrite (hk_magic _ (hv_ok _ _ V)). apply read_le_here. autounfold with page_consts. cbn. lia.
Qed.

Lemma header_version_view : header_version pg = Ok PAGE_VERSION.
Proof.
  unfold header_version. rewrite check_page_len_view. cbn [mbind res_bind].
  rewrite read_header_field by plia. unfold header_bytes.
  rewrite (hk_version _ (hv_ok _ _ V)). autounfold with page_consts.
  rewrite read_le_skip by (cbn; lia). simpl_offsets. apply read_le_here. cbn. lia.
Qed.

Lemma ensure_header_layout_view : ensure_header_layout pg = Ok tt.
Proof.
  unfold ensure_header_layout.
  by rewrite check_page_len_view, header_magic_view, header_version_view.
Qed.

Ltac header_getter :=
  rewrite ensure_header_layout_view; cbn [mbind res_bind]; header_field.

Lemma header_page_id_view : header_page_id pg = Ok (ph_page_id h).
Proof. unfold header_page_id. header_getter. Qed.
Lemma header_prev_page_view : header_prev_page pg = Ok (ph_prev_page h).
Proof. unfold header_prev_page. header_getter. Qed.
Lemma header_next_page_view : header_next_page pg = Ok (ph_next_page h).
Proof. unfold header_next_page. header_getter. Qed.
Lemma header_lsn_view : header_lsn pg = Ok (ph_lsn h).
Proof. unfold header_lsn. header_getter. Qed.
Lemma header_record_count_view : header_record_count pg = Ok (ph_record_count h).
Proof. unfold header_record_count. header_getter. Qed.
Lemma header_first_free_offset_view :
  header_first_free_offset pg = Ok (ph_first_free_offset h).
Proof. unfold header_first_free_offset. header_getter. Qed.
Lemma header_free_bytes_view : header_free_bytes pg = Ok (ph_free_bytes h).
Proof. unfold header_free_bytes. header_getter. Qed.
Lemma header_tuple_format_version_view :
  header_tuple_format_version pg = Ok (ph_tuple_format_version h).
Proof. unfold header_tuple_format_version. header_getter. Qed.
Lemma header_tuple_flags_view : header_tuple_flags pg = Ok (ph_tuple_flags h).
Proof. unfold header_tuple_flags. header_getter. Qed.
Lemma header_tuple_schema_hash_view :
  header_tuple_schema_hash pg = Ok (ph_tuple_schema_hash h).
Proof. unfold header_tuple_schema_hash. header_getter. Qed.

Lemma try_new_view : try_new pg = Ok pg.
Proof.
  unfold try_new, ensure_latest_page. rewrite (hv_len _ _ V).
  pose proof header_version_view as Hv. unfold header_version in Hv.
  rewrite check_page_len_view in Hv. cbn [mbind res_bind] in Hv.
  rewrite (proj2 (Z.ltb_ge _ _)) by plia. by rewrite Hv.
Qed.

Lemma header_mut_view : header_mut pg = Ok h.
Proof. unfold header_mut. rewrite try_new_view. apply header_view_decode. Qed.

End header_reads.

Section slot_reads.
Context `{PackagesOk}.
Context (pg : list byte) (h : PageHeader) (ss : list RecordSlot) (V : page_view pg h ss).

Let HV : header_view pg h := pv_header _ _ _ V.

Lemma view_count_bound : 0 <= zlen ss <= 123.
Proof. pose proof (pv_room _ _ _ V). pose proof (zlen_nonneg ss). plia. Qed.

Lemma slot_count_view : slot_count pg = Ok (zlen ss).
Proof.
  unfold slot_count. rewrite (header_record_count_view _ _ HV). by rewrite (pv_count _ _ _ V).
Qed.

Lemma slot_region_start_ok n :
  n * RECORD_SLOT_SIZE <= tailer_offset ->
  slot_region_start_for_count n = Ok (tailer_offset - n * RECORD_SLOT_SIZE).
Proof. intros. unfold slot_region_start_for_count. by apply usub_ok. Qed.

Lemma slot_ref_view i s :
  ss !! i = Some s -> slot_ref pg (Z.of_nat i) = Ok (slot_bytes s).
Proof.
  intros Hi. pose proof view_count_bound. pose proof (hv_len _ _ HV).
  assert (Z.of_nat i < zlen ss) by (apply lookup_lt_Some in Hi; unfold zlen; lia).
  unfold slot_ref, slot_offset.
  rewrite (check_page_len_view _ _ HV), slot_count_view. cbn [mbind res_bind].
  rewrite (proj2 (Z.leb_gt _ _)) by lia.
  rewrite usub_ok by plia. cbn [mbind res_bind].
  rewrite slice_ok by plia. cbn [mbind res_bind].
  rewrite Z.add_simpl_l.
  change (tailer_offset - (Z.of_nat i + 1) * RECORD_SLOT_SIZE) with (slot_pos (Z.of_nat i)).
  rewrite (pv_slots _ _ _ V i s Hi). unfold RecordSlotRef_new.
  by rewrite slot_bytes_length.
Qed.

Lemma slot_ref_out i : zlen ss <= i -> slot_ref pg i = Err Decode.
Proof.
  intros Hi. unfold slot_ref. rewrite (check_page_len_view _ _ HV), slot_count_view.
  cbn [mbind res_bind]. by rewrite (proj2 (Z.leb_le _ _)) by lia.
Qed.

Lemma view_slot_ok i s : ss !! i = Some s -> slot_ok s.
Proof. intros Hi. pose proof (pv_slot_ok _ _ _ V) as HF. by eapply Forall_lookup_1 in HF. Qed.

Lemma slot_view i s : ss !! i = Some s -> slot pg (Z.of_nat i) = Ok s.
Proof.
  intros Hi. unfold slot. rewrite (slot_ref_view i s Hi). cbn.
  by rewrite ref_to_owned_bytes by (by eapply view_slot_ok).
Qed.

Lemma read_slots_view : mapM (slot pg) (seqZ 0 (zlen ss)) = Ok ss.
Proof. rewrite (mapM_seqZ _ id) by apply slot_view. by rewrite list_fmap_id. Qed.

Lemma slots_view : slots pg = Ok ss.
Proof. unfold slots. rewrite slot_count_view. apply read_slots_view. Qed.

Lemma read_all_slots_view : read_all_slots pg = Ok ss.
Proof.
  unfold read_all_slots. rewrite (try_new_view _ _ HV). cbn [mbind res_bind].
  rewrite slot_count_view. apply read_slots_view.
Qed.

End slot_reads.

(** ** The records of a page *)

Definition rec_of (pg : list byte) (s : RecordSlot) : Rec :=
  mkRec (sl_timestamp s) (sl_tuple_id s) (pg.[sl_offset s, sl_size s]).

Definition records (pg : list byte) (ss : list RecordSlot) : list Rec := rec_of pg <$> ss.

(** The page [pg] has header [h] and holds the records [rs]. *)
Definition page_holds `{Packages} (pg : list byte) (h : PageHeader) (rs : list Rec) : Prop :=
  exists ss, page_rep pg h ss /\ rs = records pg ss.

Lemma records_ext pg pg' ss :
  Forall (fun s => pg'.[sl_offset s, sl_size s] = pg.[sl_offset s, sl_size s]) ss ->
  records pg' ss = records pg ss.
Proof.
  intros HF. unfold records. induction HF as [| s ss Hs HF IH]; cbn; [done |].
  unfold rec_of at 1 3. by rewrite Hs, IH.
Qed.

Lemma sorted_timestamps ss i j a b :
  StronglySorted slot_leP ss -> (i <= j)%nat -> ss !! i = Some a -> ss !! j = Some b ->
  sl_timestamp a <= sl_timestamp b.
Proof.
  intros Hs Hij Ha Hb. destruct (decide (i = j)) as [-> | Hne]; [by simplify_eq |].
  assert (slot_leP a b) as Hle.
  { eapply StronglySorted_lookup; [exact Hs | | exact Ha | exact Hb]. lia. }
  rewrite slot_le_spec in Hle. lia.
Qed.

Section scan_reads.
Context `{PackagesOk}.
Context (pg : list byte) (h : PageHeader) (ss : list RecordSlot) (R : page_scan pg h ss).

Let V : page_view pg h ss := ps_view _ _ _ R.
Let HV : header_view pg h := pv_header _ _ _ V.

Lemma scan_slot i s :
  ss !! i = Some s ->
  0 <= sl_offset s /\ 0 <= sl_size s /\ PAGE_HEADER_SIZE <= sl_offset s /\
  sl_offset s + sl_size s <= tailer_offset - zlen ss * RECORD_SLOT_SIZE.
Proof.
  intros Hi. pose proof (view_slot_ok _ _ _ V i s Hi) as [].
  pose proof (ps_valid _ _ _ R) as HF. eapply Forall_lookup_1 in HF as []; [| exact Hi].
  unfold_bounds. plia.
Qed.

Lemma record_bytes_scan i s :
  ss !! i = Some s -> record_bytes pg (Z.of_nat i) = Ok (pg.[sl_offset s, sl_size s]).
Proof.
  intros Hi. destruct (scan_slot i s Hi) as (? & ? & ? & ?).
  pose proof (view_count_bound _ _ _ V).
  pose proof (hv_len _ _ HV).
  unfold record_bytes. rewrite (slot_ref_view _ _ _ V i s Hi). cbn [mbind res_bind].
  pose proof (ref_to_owned_bytes s (view_slot_ok _ _ _ V i s Hi)) as E.
  replace (ref_offset (slot_bytes s)) with (sl_offset s) by (by rewrite <- E at 1).
  replace (ref_size (slot_bytes s)) with (sl_size s) by (by rewrite <- E at 1).
  unfold slot_array_low_bound. rewrite (slot_count_view _ _ _ V). cbn [mbind res_bind].
  rewrite slot_region_start_ok by plia. cbn [mbind res_bind].
  rewrite !(proj2 (Z.ltb_ge _ _)) by plia. cbn.
  rewrite slice_ok by plia. by rewrite Z.add_simpl_l.
Qed.

Lemma ref_fields s :
  slot_ok s ->
  ref_timestamp (slot_bytes s) = sl_timestamp s /\ ref_tuple_id (slot_bytes s) = sl_tuple_id s.
Proof. intros Hs. pose proof (ref_to_owned_bytes s Hs) as E. by rewrite <- E at 2 4. Qed.

Lemma find_slot_scan_scan ts id n i :
  (i + n = length ss)%nat ->
  (forall j s, (i <= j)%nat -> ss !! j = Some s -> ts <= sl_timestamp s) ->
  find_slot_scan n pg ts id (Z.of_nat i) =
    Ok ((fun p => Z.of_nat (i + p.1)) <$>
        list_find (has_key ts id) (records pg (drop i ss))).
Proof.
  revert i. induction n as [| n IH]; intros i Hi Hge.
  - rewrite drop_ge by lia. done.
  - destruct (lookup_lt_is_Some_2 ss i) as [s Hs]; [lia |].
    cbn [find_slot_scan]. rewrite (slot_ref_view _ _ _ V i s Hs). cbn [mbind res_bind].
    destruct (ref_fields s (view_slot_ok _ _ _ V i s Hs)) as [-> ->].
    rewrite (drop_S _ s i) by done. cbn [records fmap list_fmap list_find].
    destruct (Z.eqb_spec (sl_timestamp s) ts) as [Ets | Nts]; cbn [negb].
    + destruct (Z.eqb_spec (sl_tuple_id s) id) as [Eid | Nid].
      * rewrite decide_True by done. cbn. by rewrite Nat.add_0_r.
      * rewrite decide_False by (unfold has_key; cbn; tauto).
        replace (Z.of_nat i + 1) with (Z.of_nat (S i)) by lia.
        rewrite IH; [| lia | intros j s' Hj; apply Hge; lia].
        change (list_fmap _ _ (rec_of pg) (drop (S i) ss)) with (records pg (drop (S i) ss)).
        destruct (list_find _ _) as [[m r] |]; cbn; [| done]. do 2 f_equal. lia.
    + rewrite decide_False by (unfold has_key; cbn; tauto).
      assert (list_find (has_key ts id) (records pg (drop (S i) ss)) = None) as E.
      { apply list_find_None, Forall_lookup. intros j r Hr. unfold records in Hr.
        apply list_lookup_fmap_Some in Hr as (t & -> & Ht). rewrite lookup_drop in Ht.
        pose proof (sorted_timestamps _ i (S i + j) _ _ (ps_sorted _ _ _ R) ltac:(lia) Hs Ht).
        specialize (Hge i s ltac:(lia) Hs). unfold has_key. cbn. lia. }
      unfold records in E. cbn in E. by rewrite E.
Qed.

Lemma find_slot_index_scan ts id :
  find_slot_index pg ts id = Ok (spec_find ts id (records pg ss)).
Proof.
  pose proof (view_count_bound _ _ _ V).
  unfold find_slot_index. rewrite (slot_count_view _ _ _ V). cbn [mbind res_bind].
  destruct (Z.eqb_spec (zlen ss) 0) as [Hz | Hnz].
  { destruct ss; [done | unfold zlen in Hz; cbn in Hz; lia]. }
  set (f := fun i => match ss !! Z.to_nat i with
                     | Some s => sl_timestamp s <? ts | None => false end).
  destruct (bisect_spec bisect_fuel
              (fun mid => r ← slot_ref pg mid; Ok (ref_timestamp r <? ts)) f 0 (zlen ss))
    as (k & -> & Hk & Hl & Hr).
  - lia.
  - apply bisect_fuel_enough. mlia.
  - intros i Hi. destruct (lookup_lt_is_Some_2 ss (Z.to_nat i)) as [s Hs]; [mlia |].
    rewrite <- (Z2Nat.id i) at 1 by lia. rewrite (slot_ref_view _ _ _ V _ s Hs). cbn.
    unfold f. rewrite Hs. by destruct (ref_fields s (view_slot_ok _ _ _ V _ s Hs)) as [-> _].
  - intros i j Hij Hj. unfold f.
    destruct (ss !! Z.to_nat j) as [b |] eqn:Hb; [| done].
    destruct (lookup_lt_is_Some_2 ss (Z.to_nat i)) as [a Ha]; [mlia |]. rewrite Ha.
    pose proof (sorted_timestamps _ (Z.to_nat i) (Z.to_nat j) _ _ (ps_sorted _ _ _ R) ltac:(lia) Ha Hb).
    lia.
  - cbn [mbind res_bind]. rewrite <- (Z2Nat.id k) by lia.
    rewrite find_slot_scan_scan; [| mlia |].
    2:{ intros j s Hj Hs. specialize (Hr (Z.of_nat j)). unfold f in Hr.
        rewrite Nat2Z.id, Hs in Hr. apply lookup_lt_Some in Hs.
        apply Z.ltb_ge, Hr. mlia. }
    unfold spec_find. rewrite <- (take_drop (Z.to_nat k) ss) at 2.
    unfold records at 2. rewrite fmap_app.
    rewrite list_find_app_r.
    + rewrite length_fmap, length_take_le by mlia.
      unfold records. destruct (list_find _ _) as [[m r] |]; cbn; do 2 f_equal; lia.
    + apply list_find_None, Forall_lookup. intros j r Hjr.
      apply list_lookup_fmap_Some in Hjr as (t & -> & Ht).
      apply lookup_take_Some in Ht as [Ht Hj].
      specialize (Hl (Z.of_nat j) ltac:(lia)). unfold f in Hl.
      rewrite Nat2Z.id, Ht in Hl. unfold has_key. cbn. lia.
Qed.

End scan_reads.

(** A well-formed page is readable. *)
Lemma rep_scan `{PackagesOk} pg h ss : page_rep pg h ss -> page_scan pg h ss.
Proof.
  intros R. pose proof (pr_free _ _ _ R).
  pose proof (hk_free _ (hv_ok _ _ (pv_header _ _ _ (pr_view _ _ _ R)))) as Hf.
  split; [apply R | | apply R]. eapply Forall_impl; [apply (pr_valid _ _ _ R) |].
  intros s []. split; [done | done | unfold_bounds; lia | done].
Qed.

Section record_reads.
Context `{PackagesOk}.
Context (pg : list byte) (h : PageHeader) (ss : list RecordSlot) (R : page_rep pg h ss).

Let V : page_view pg h ss := pr_view _ _ _ R.
Let HV : header_view pg h := pv_header _ _ _ V.

Lemma rep_slot i s :
  ss !! i = Some s -> slot_ok s /\ slot_valid pg (ph_first_free_offset h) s.
Proof.
  intros Hi. split; [by eapply view_slot_ok |].
  pose proof (pr_valid _ _ _ R) as HF. by eapply Forall_lookup_1 in HF.
Qed.

Lemma rep_first_free_bound :
  ph_first_free_offset h <= tailer_offset - zlen ss * RECORD_SLOT_SIZE.
Proof.
  pose proof (pr_free _ _ _ R). pose proof (hk_free _ (hv_ok _ _ HV)). mlia.
Qed.

Lemma rep_record_range i s :
  ss !! i = Some s ->
  0 <= sl_offset s /\ 0 <= sl_size s /\
  PAGE_HEADER_SIZE <= sl_offset s /\ sl_offset s + sl_size s <= ph_first_free_offset h.
Proof. intros Hi. destruct (rep_slot i s Hi) as [[] []]. unfold_bounds. plia. Qed.

Lemma record_bytes_view i s :
  ss !! i = Some s -> record_bytes pg (Z.of_nat i) = Ok (pg.[sl_offset s, sl_size s]).
Proof. apply record_bytes_scan with h, rep_scan, R. Qed.

Lemma find_slot_index_view ts id :
  find_slot_index pg ts id = Ok (spec_find ts id (records pg ss)).
Proof. apply find_slot_index_scan with h, rep_scan, R. Qed.

End record_reads.
