(* ===== verification/PageValidate.v ===== *)
(** * Page validation is sound

    A page of the right size that passes [validate_layout] has a readable
    header, slots in key order and checksummed records, so every read method
    of [PageBlockRef] succeeds on it. *)

From S2P Require Import Prelude Errors Compat PageFormat PageBlock RecordSpec PageView.

Lemma zsub_join (l : list byte) a n m :
  0 <= a -> 0 <= n -> 0 <= m -> l.[a, n] ++ l.[a + n, m] = l.[a, n + m].
Proof.
  intros. unfold zsub. rewrite !Z2Nat.inj_add, <- drop_drop by lia. apply take_take_drop.
Qed.

Section decode_inv.
Context `{PackagesOk}.

Lemma read_le_inv n a input v :
  read_le n a input = Ok v -> 0 <= a -> le_write n v = input.[a, Z.of_nat n] /\ 0 <= v < 256 ^ Z.of_nat n.
Proof.
  unfold read_le, slice. intros E Ha. apply res_bind_inv in E as (bs & E & [= <-]).
  destruct (_ && _) eqn:Eb in E; [| done]. injection E as <-. rewrite Z.add_simpl_l.
  split; [| apply le_read_range]. apply le_write_read.
  apply andb_prop in Eb as [_ Eb%Z.leb_le].
  pose proof (zlen_zsub a (Z.of_nat n) input ltac:(lia) ltac:(lia) ltac:(lia)) as Hz.
  unfold zlen in Hz. lia.
Qed.

Lemma u16_of_range v : 0 <= v < 256 ^ Z.of_nat 2 -> in_u16 v.
Proof. change (256 ^ Z.of_nat 2) with 65536. mlia. Qed.
Lemma u32_of_range v : 0 <= v < 256 ^ Z.of_nat 4 -> in_u32 v.
Proof. change (256 ^ Z.of_nat 4) with 4294967296. mlia. Qed.
Lemma u64_of_range v : 0 <= v < 256 ^ Z.of_nat 8 -> in_u64 v.
Proof. change (256 ^ Z.of_nat 8) with 18446744073709551616. mlia. Qed.

(** Splits off the next field that was read. *)
Ltac read_inv :=
  match goal with
  | E : (read_le ?n ?a ?l ≫= _) = Ok _ |- _ =>
      let v := fresh "v" in let Ev := fresh "Ev" in let W := fresh "W" in let B := fresh "B" in
      apply res_bind_inv in E as (v & Ev & E);
      apply read_le_inv in Ev as [W B]; [| done]
  end.

(** Decoding a header determines its bytes. *)
Lemma PageHeader_decode_inv bs h :
  zlen bs = PAGE_HEADER_SIZE -> PageHeader_decode bs = Ok h -> header_bytes h = bs /\ header_ok h.
Proof.
  intros Hl E. unfold PageHeader_decode in E. rewrite Hl in E.
  change (PAGE_HEADER_SIZE <? PAGE_HEADER_SIZE) with false in E. cbv iota in E.
  read_inv. apply res_bind_inv in E as ([] & Em & E).
  read_inv. apply res_bind_inv in E as ([] & Ever & E).
  unfold PageHeader_decode_fields in E. do 12 read_inv.
  apply res_bind_inv in E as (res & Eres & [= <-]).
  rewrite slice_ok in Eres by (rewrite ?Hl; autounfold with page_consts; lia).
  injection Eres as <-.
  assert (v = PAGE_HEADER_MAGIC /\ v0 = PAGE_VERSION) as [-> ->].
  { unfold compat, map_err in Em, Ever.
    destruct (check_magic Page v) as [[] | |] eqn:E1; try done.
    destruct (check_version Page v0) as [[] | |] eqn:E2; try done.
    by apply check_magic_ok in E1 as ->; apply check_version_ok in E2 as ->. }
  split.
  - unfold header_bytes. cbn [ph_magic ph_version ph_page_id ph_prev_page ph_next_page ph_lsn
      ph_flags ph_tuple_flags ph_record_count ph_first_free_offset ph_free_bytes
      ph_last_record_offset ph_tuple_format_version ph_tuple_schema_hash ph_reserved].
    repeat match goal with W : le_write _ _ = _ |- _ => rewrite W; clear W end.
    autounfold with page_consts in *. cbn [Z.of_nat Pos.of_succ_nat Pos.succ].
    rewrite !zsub_join by lia. apply zsub_all. by rewrite Hl.
  - split; cbn; auto using u32_of_range, u64_of_range.
    rewrite zlen_zsub by (rewrite ?Hl; autounfold with page_consts; lia). done.
Qed.

Lemma slot_bytes_owned r : zlen r = RECORD_SLOT_SIZE -> slot_bytes (ref_to_owned r) = r.
Proof.
  intros Hl. unfold RECORD_SLOT_SIZE in Hl.
  assert (forall n a m, m = Z.of_nat n -> 0 <= a -> a + m <= 32 ->
            le_write n (le_read n (r.[a, m])) = r.[a, m]) as Hw.
  { intros n a m -> Ha Hn. apply le_write_read.
    pose proof (zlen_zsub a (Z.of_nat n) r ltac:(lia) ltac:(lia) ltac:(lia)) as Hz.
    unfold zlen in Hz. lia. }
  unfold slot_bytes, ref_to_owned. cbn [sl_offset sl_size sl_timestamp sl_tuple_id sl_checksum
    sl_flag sl_reserved].
  unfold ref_offset, ref_size, ref_timestamp, ref_tuple_id, ref_checksum, ref_flag, ref_reserved.
  rewrite !Hw by lia. rewrite !zsub_join by lia. by apply zsub_all.
Qed.

End decode_inv.

(** ** What [validate_layout] checks *)

Section validate.
Context `{PackagesOk}.
Context (pg : list byte) (h : PageHeader) (HV : header_view pg h).

(** The slots of the array, whatever they hold. *)
Definition raw_slots : list RecordSlot :=
  (fun i => ref_to_owned (pg.[slot_pos i, RECORD_SLOT_SIZE])) <$> seqZ 0 (ph_record_count h).

Context (Hroom : PAGE_HEADER_SIZE + ph_record_count h * RECORD_SLOT_SIZE <= tailer_offset).

Lemma raw_slots_length : zlen raw_slots = ph_record_count h.
Proof.
  pose proof (hk_count _ (hv_ok _ _ HV)). unfold raw_slots, zlen.
  rewrite length_fmap, length_seqZ. mlia.
Qed.

Lemma raw_slots_lookup i :
  0 <= i < ph_record_count h ->
  raw_slots !! Z.to_nat i = Some (ref_to_owned (pg.[slot_pos i, RECORD_SLOT_SIZE])).
Proof.
  intros Hi. unfold raw_slots. rewrite list_lookup_fmap, lookup_seqZ_lt by lia.
  cbn. do 4 f_equal. lia.
Qed.

Lemma raw_slot_bytes i :
  0 <= i < ph_record_count h -> zlen (pg.[slot_pos i, RECORD_SLOT_SIZE]) = RECORD_SLOT_SIZE.
Proof.
  intros Hi. pose proof (hv_len _ _ HV). apply zlen_zsub; unfold slot_pos; plia.
Qed.

Lemma raw_view : page_view pg h raw_slots.
Proof.
  split; [done | by rewrite raw_slots_length | by rewrite raw_slots_length | |].
  - intros i s Hs. pose proof (lookup_lt_Some _ _ _ Hs) as Hi. pose proof raw_slots_length as Hl.
    unfold zlen in Hl. rewrite <- (Nat2Z.id i), raw_slots_lookup in Hs by lia. injection Hs as <-.
    rewrite slot_bytes_owned; [done |]. apply raw_slot_bytes. lia.
  - apply Forall_fmap, Forall_forall. intros i _. apply ref_to_owned_ok.
Qed.

Lemma validate_slots_inv n : forall i prev,
  (i + n = length raw_slots)%nat ->
  validate_slots n pg (tailer_offset - zlen raw_slots * RECORD_SLOT_SIZE) (Z.of_nat i) prev = Ok tt ->
  Forall (slot_valid pg (tailer_offset - zlen raw_slots * RECORD_SLOT_SIZE)) (drop i raw_slots) /\
  StronglySorted slot_leP (option_list prev ++ drop i raw_slots).
Proof.
  induction n as [| n IH]; intros i prev Hi E.
  { rewrite drop_ge by lia. split; [done |]. destruct prev; repeat constructor. }
  destruct (lookup_lt_is_Some_2 raw_slots i) as [s Hs]; [lia |].
  cbn [validate_slots] in E. rewrite (slot_view _ _ _ raw_view i s Hs) in E. cbn [mbind res_bind] in E.
  destruct (match prev with Some p => negb (cmp_le (cmp_key p s)) | None => false end) eqn:Eprev; [done |].
  destruct (Z.eqb_spec (sl_offset s mod RECORD_ALIGN) 0) as [Ha |]; cbn [negb] in E; [| done].
  destruct (_ || _) eqn:Erange in E; [done |]. apply orb_false_elim in Erange as [E1%Z.ltb_ge E2%Z.ltb_ge].
  apply res_bind_inv in E as (payload & Ep & E).
  pose proof (view_slot_ok _ _ _ raw_view i s Hs) as Hok. pose proof (hv_len _ _ HV).
  pose proof (zlen_nonneg raw_slots).
  rewrite slice_ok in Ep by (destruct Hok; unfold_bounds; plia). injection Ep as <-.
  rewrite Z.add_simpl_l in E.
  destruct (Z.eqb_spec (sl_checksum s) (crc16 (pg.[sl_offset s, sl_size s]))) as [Hc |];
    cbn [negb] in E; [| done].
  replace (Z.of_nat i + 1) with (Z.of_nat (S i)) in E by lia.
  destruct (IH (S i) (Some s) ltac:(lia) E) as [IH1 IH2]. rewrite (drop_S _ s i) by done. split.
  - constructor; [by split | done].
  - destruct prev as [p |]; [| done]. cbn [option_list app] in *.
    constructor; [done |]. apply negb_false_iff in Eprev.
    inversion IH2 as [| ? ? _ Hall]; subst. constructor; [done |].
    eapply Forall_impl; [exact Hall |]. intros t Ht. by transitivity s.
Qed.

End validate.

Section validate_inv.
Context `{PackagesOk}.

Lemma header_inv pg h :
  zlen pg = PAGE_SIZE -> header pg = Ok h -> header_view pg h.
Proof.
  intros Hl E. unfold header in E. apply res_bind_inv in E as ([] & _ & E).
  rewrite slice_ok in E by plia. cbn [mbind res_bind] in E. rewrite Z.sub_0_r in E.
  destruct (PageHeader_decode_inv (pg.[0, PAGE_HEADER_SIZE]) h) as [Hb Hok].
  - apply zlen_zsub; plia.
  - done.
  - by split.
Qed.

Lemma validate_layout_inv pg :
  zlen pg = PAGE_SIZE -> validate_layout pg = Ok tt ->
  exists h ss, page_scan pg h ss /\
    tailer pg = Ok (mkPageTailer (ph_lsn h) (crc32 (pg.[0, tailer_offset]))).
Proof.
  intros Hl E. unfold validate_layout in E. apply res_bind_inv in E as (h & Eh & E).
  pose proof (header_inv pg h Hl Eh) as HV.
  destruct (negb (ph_magic h =? PAGE_HEADER_MAGIC)); [done |].
  destruct (PAGE_VERSION <? ph_version h); [done |]. cbv zeta in E.
  apply res_bind_inv in E as (start & Es & E). unfold slot_region_start_for_count, usub in Es.
  destruct (Z.leb_spec (ph_record_count h * RECORD_SLOT_SIZE) tailer_offset); [| done].
  injection Es as <-.
  destruct (_ || _) eqn:Ef in E; [done |]. apply orb_false_elim in Ef as [E1%Z.ltb_ge E2%Z.ltb_ge].
  destruct (negb (ph_free_bytes h =? _)); [done |].
  apply res_bind_inv in E as ([] & Ev & E). apply res_bind_inv in E as (t & Et & E).
  destruct (Z.eqb_spec (ph_lsn h) (pt_lsn t)) as [Elsn |]; cbn [negb] in E; [| done].
  assert (PAGE_HEADER_SIZE + ph_record_count h * RECORD_SLOT_SIZE <= tailer_offset) as Hroom by lia.
  pose proof (raw_slots_length pg h HV) as Hn.
  destruct (validate_slots_inv pg h HV Hroom (Z.to_nat (ph_record_count h)) 0 None) as [Hv Hs].
  - unfold zlen in Hn. lia.
  - by rewrite Hn.
  - exists h, (raw_slots pg h). split.
    + split; [by apply raw_view | done | done].
    + rewrite Et. unfold validate_checksum in E. rewrite checksum_for_page_ok in E by plia.
      cbn [mbind res_bind] in E. rewrite Hl in E. fold tailer_offset in E.
      destruct (Z.eqb_spec (pt_checksum t) (crc32 (pg.[0, tailer_offset]))) as [Ec |]; [| done].
      rewrite Elsn, <- Ec. by destruct t.
Qed.

End validate_inv.
