(* ===== verification/PageInsert.v ===== *)
(** * Slotted pages: initialisation, links, insertion, checksum

    The methods of [PageBlockRefMut] that change a page in place keep the
    representation invariant [page_rep] and act on the records as the
    operations of [RecordSpec] do. *)

From S2P Require Import Prelude Errors Compat PageFormat PageBlock RecordSpec PageView.

(** The header after [init_empty_with_tuple_meta]. *)
Definition empty_header (page_id format hash flags : Z) : PageHeader :=
  mkPageHeader PAGE_HEADER_MAGIC PAGE_VERSION page_id NONE_PAGE_ID NONE_PAGE_ID 1 0 0
    PAGE_HEADER_SIZE (tailer_offset - PAGE_HEADER_SIZE) PAGE_HEADER_SIZE
    format hash flags (zeros PAGE_HEADER_RESERVED_SIZE).

(** The header after a method that moves the data and slot boundaries. *)
Definition resized_header (h : PageHeader) (count first_free last : Z) : PageHeader :=
  set_free_bytes (tailer_offset - count * RECORD_SLOT_SIZE - first_free)
    (set_last_record_offset last
    (set_first_free_offset first_free
    (set_record_count count
    (set_lsn (saturating_add (ph_lsn h) 1) h)))).

(** ** Writing encoded structures *)

Lemma zput_full {A} (bs l : list A) : zlen bs = zlen l -> zput 0 bs l = bs.
Proof.
  intros E. unfold zput, zlen in *. cbn. rewrite drop_ge by lia. by rewrite app_nil_r.
Qed.

Lemma on_slice_encode {E} (enc : ST E (list byte) unit) (bs : list byte) a b pg :
  0 <= a -> b = a + zlen bs -> b <= zlen pg ->
  enc (pg.[a, zlen bs]) = (Ok tt, zput 0 bs (pg.[a, zlen bs])) ->
  on_slice a b enc pg = (Ok tt, zput a bs pg).
Proof.
  intros Ha -> Hb He. pose proof (zlen_nonneg bs).
  rewrite on_slice_ok by lia. rewrite Z.add_simpl_l, He.
  by rewrite zput_full by (rewrite zlen_zsub; lia).
Qed.

Section writes.
Context `{PackagesOk}.

Lemma write_header h pg :
  header_ok h -> zlen pg = PAGE_SIZE ->
  on_slice 0 PAGE_HEADER_SIZE (PageHeader_encode h) pg = (Ok tt, zput 0 (header_bytes h) pg).
Proof.
  intros Hok Hl. pose proof (header_bytes_length h (hk_reserved _ Hok)) as Hb.
  apply on_slice_encode; [lia | lia | plia |]. rewrite Hb.
  apply PageHeader_encode_ok; [apply Hok | rewrite zlen_zsub; plia].
Qed.

Lemma write_slot s a pg :
  0 <= a -> a + RECORD_SLOT_SIZE <= zlen pg ->
  on_slice a (a + RECORD_SLOT_SIZE) (RecordSlot_encode s) pg = (Ok tt, zput a (slot_bytes s) pg).
Proof.
  intros Ha Hl. pose proof (slot_bytes_length s) as Hb.
  apply on_slice_encode; [lia | lia | lia |]. rewrite Hb.
  apply RecordSlot_encode_ok. rewrite zlen_zsub; plia.
Qed.

Lemma write_tailer t pg :
  zlen pg = PAGE_SIZE ->
  on_slice tailer_offset (tailer_offset + PAGE_TAILER_SIZE) (PageTailer_encode t) pg
    = (Ok tt, zput tailer_offset (tailer_bytes t) pg).
Proof.
  intros Hl. pose proof (tailer_bytes_length t) as Hb.
  apply on_slice_encode; [plia | lia | plia |]. rewrite Hb.
  apply PageTailer_encode_ok. rewrite zlen_zsub; plia.
Qed.

Lemma header_view_put h pg :
  header_ok h -> zlen pg = PAGE_SIZE -> header_view (zput 0 (header_bytes h) pg) h.
Proof.
  intros Hok Hl. pose proof (header_bytes_length h (hk_reserved _ Hok)) as Hb.
  split; [rewrite zlen_zput; plia | | done].
  apply zsub_zput_eq; plia.
Qed.

Lemma header_view_agree pg pg' h :
  header_view pg h -> zlen pg' = zlen pg ->
  pg'.[0, PAGE_HEADER_SIZE] = pg.[0, PAGE_HEADER_SIZE] -> header_view pg' h.
Proof. intros [? ? ?] Hl Hb. split; congruence. Qed.

Lemma slots_at_agree pg pg' ss :
  slots_at pg ss ->
  (forall i s, ss !! i = Some s ->
     pg'.[slot_pos (Z.of_nat i), RECORD_SLOT_SIZE] = pg.[slot_pos (Z.of_nat i), RECORD_SLOT_SIZE]) ->
  slots_at pg' ss.
Proof. intros Hs Ha i s Hi. rewrite (Ha i s Hi). by apply Hs. Qed.

Lemma slot_valid_agree pg pg' limit limit' s :
  slot_valid pg limit s -> limit <= limit' ->
  pg'.[sl_offset s, sl_size s] = pg.[sl_offset s, sl_size s] -> slot_valid pg' limit' s.
Proof. intros [? ? ? ?] ? E. split; [done | done | lia | by rewrite E]. Qed.

(** Changing header fields other than the layout ones. *)
Lemma page_rep_set_header pg h h' ss :
  page_rep pg h ss -> header_ok h' ->
  ph_record_count h' = ph_record_count h ->
  ph_first_free_offset h' = ph_first_free_offset h ->
  ph_free_bytes h' = ph_free_bytes h ->
  page_rep (zput 0 (header_bytes h') pg) h' ss /\
  records (zput 0 (header_bytes h') pg) ss = records pg ss.
Proof.
  intros R Hok Hc Hf Hfb. pose proof R as [[HV Hcnt Hroom Hs Hso] Hff Hfree Hval Hsort Hspace].
  pose proof (header_bytes_length h' (hk_reserved _ Hok)) as Hb.
  pose proof (hv_len _ _ HV) as Hl. pose proof (rep_first_free_bound _ _ _ R).
  assert (forall i s, ss !! i = Some s ->
    (zput 0 (header_bytes h') pg).[sl_offset s, sl_size s] = pg.[sl_offset s, sl_size s]) as Hrec.
  { intros i s Hi. pose proof (rep_record_range _ _ _ R i s Hi).
    apply zsub_zput_ne; plia. }
  split.
  - split; rewrite ?Hc, ?Hf, ?Hfb; try done.
    + split; try done; [by apply header_view_put | congruence |].
      apply (slots_at_agree pg); [done |]. intros i s Hi.
      apply lookup_lt_Some in Hi. apply zsub_zput_ne; unfold zlen in Hroom; plia.
    + apply Forall_lookup. intros i s Hi. rewrite Forall_lookup in Hval.
      eapply slot_valid_agree; [by eapply Hval | lia | by eapply Hrec].
  - apply records_ext, Forall_lookup. exact Hrec.
Qed.

End writes.

(** ** Initialisation and links *)

Section init.
Context `{PackagesOk}.

Lemma empty_header_ok page_id format hash flags :
  in_u64 page_id -> in_u32 format -> in_u64 hash -> in_u64 flags ->
  header_ok (empty_header page_id format hash flags).
Proof. intros. split; cbn; try done; autounfold with page_consts; mlia. Qed.

Lemma page_rep_empty pg h :
  header_view pg h -> ph_record_count h = 0 ->
  PAGE_HEADER_SIZE <= ph_first_free_offset h ->
  ph_first_free_offset h + ph_free_bytes h = tailer_offset ->
  page_rep pg h [].
Proof.
  intros HV Hc Hf Hfree. split; [| done | change (zlen (@nil RecordSlot)) with 0; plia | constructor | constructor |].
  2:{ pose proof (align_up_spec (ph_first_free_offset h) ltac:(plia)). cbn. plia. }
  split; [done | done | change (zlen (@nil RecordSlot)) with 0; plia | by intros i s Hi | constructor].
Qed.

Lemma init_empty_with_tuple_meta_ok page_id format hash flags pg :
  zlen pg = PAGE_SIZE ->
  in_u64 page_id -> in_u32 format -> in_u64 hash -> in_u64 flags ->
  exists pg',
    init_empty_with_tuple_meta page_id format hash flags pg = (Ok tt, pg') /\
    page_rep pg' (empty_header page_id format hash flags) [].
Proof.
  intros Hl Hid Hfmt Hh Hfl. unfold init_empty_with_tuple_meta.
  assert (exists pg0, fill (E := ErrorCode) 0 (zlen pg) x00 pg = (Ok tt, pg0)
            /\ zlen pg0 = PAGE_SIZE) as (pg0 & Hfill & Hz).
  { eexists. rewrite fill_ok by plia. split; [reflexivity |].
    rewrite zlen_zput; rewrite ?zlen_replicate; plia. }
  st_step by (apply st_reads_ok; unfold check_page_len_mut; by rewrite Hl).
  st_step by reflexivity.
  st_step by exact Hfill.
  st_step by (unfold st_lift; rewrite usub_ok by plia; reflexivity).
  change (set_tuple_flags _ _) with (empty_header page_id format hash flags).
  pose proof (empty_header_ok page_id format hash flags Hid Hfmt Hh Hfl) as Hok.
  pose proof (header_bytes_length _ (hk_reserved _ Hok)).
  st_step by (by apply write_header).
  rewrite write_tailer by (rewrite zlen_zput; plia). eexists. split; [reflexivity |].
  pose proof (tailer_bytes_length (PageTailer_set_lsn 1 PageTailer_default)).
  apply page_rep_empty; try done.
  eapply header_view_agree; [by apply (header_view_put _ pg0) | |].
  - rewrite zlen_zput; [done | plia |]. rewrite zlen_zput; plia.
  - apply zsub_zput_ne; try plia. rewrite zlen_zput; plia.
Qed.

(** The header after [set_page_links]. *)
Definition linked_header (prev next : Z) (h : PageHeader) : PageHeader :=
  set_next_page next (set_prev_page prev (set_lsn (saturating_add (ph_lsn h) 1) h)).

Lemma saturating_add_u64 a b : in_u64 a -> 0 <= b -> in_u64 (saturating_add a b).
Proof. unfold saturating_add. mlia. Qed.

Lemma linked_header_ok prev next h :
  header_ok h -> in_u64 prev -> in_u64 next -> header_ok (linked_header prev next h).
Proof. intros [] ? ?. split; cbn; try done. by apply saturating_add_u64. Qed.

Lemma set_page_links_ok prev next pg h ss :
  page_rep pg h ss -> in_u64 prev -> in_u64 next ->
  exists pg',
    set_page_links prev next pg = (Ok tt, pg') /\
    page_rep pg' (linked_header prev next h) ss /\ records pg' ss = records pg ss.
Proof.
  intros R Hp Hn. pose proof (pv_header _ _ _ (pr_view _ _ _ R)) as HV.
  unfold set_page_links.
  st_step by (apply st_reads_ok, header_mut_view, HV).
  pose proof (linked_header_ok prev next h (hv_ok _ _ HV) Hp Hn) as Hok.
  eexists. split; [apply write_header; [exact Hok | apply HV] |].
  by apply page_rep_set_header with (h := h).
Qed.

End init.

(** ** The tailer checksum *)

Section checksum.
Context `{PackagesOk}.

(** The page with its tailer refreshed. *)
Definition sealed (h : PageHeader) (pg : list byte) : list byte :=
  zput tailer_offset
    (tailer_bytes (mkPageTailer (ph_lsn h) (crc32 (pg.[0, tailer_offset])))) pg.

Lemma refresh_tailer_checksum_view pg h :
  header_view pg h -> refresh_tailer_checksum pg = (Ok tt, sealed h pg).
Proof.
  intros HV. pose proof (hv_len _ _ HV) as Hl. unfold refresh_tailer_checksum.
  st_step by reflexivity.
  st_step by (unfold st_lift; rewrite slice_ok by plia; reflexivity).
  rewrite Z.add_simpl_l.
  unfold PageTailer_decode. rewrite zlen_zsub by plia.
  rewrite (proj2 (Z.ltb_ge _ _)) by plia. unfold read_le.
  rewrite !slice_ok by (rewrite ?zlen_zsub; plia). cbn [mbind res_bind].
  st_step by reflexivity.
  st_step by (apply st_reads_ok, header_mut_view, HV).
  unfold refresh_checksum. rewrite checksum_for_page_ok by plia. cbn [mbind res_bind].
  st_step by reflexivity.
  rewrite write_tailer by done. unfold sealed. by rewrite Hl.
Qed.

Lemma sealed_agree h pg a n :
  zlen pg = PAGE_SIZE -> 0 <= a -> 0 <= n -> a + n <= tailer_offset ->
  (sealed h pg).[a, n] = pg.[a, n].
Proof.
  intros Hl Ha Hn Hb. apply zsub_zput_ne; rewrite ?tailer_bytes_length; plia.
Qed.

Lemma sealed_len h pg : zlen pg = PAGE_SIZE -> zlen (sealed h pg) = PAGE_SIZE.
Proof. intros. unfold sealed. rewrite zlen_zput; rewrite ?tailer_bytes_length; plia. Qed.

Lemma sealed_rep h pg ss :
  page_rep pg h ss -> page_rep (sealed h pg) h ss /\ records (sealed h pg) ss = records pg ss.
Proof.
  intros R. pose proof R as [[HV Hcnt Hroom Hs Hso] Hff Hfree Hval Hsort Hspace].
  pose proof (hv_len _ _ HV) as Hl. pose proof (rep_first_free_bound _ _ _ R).
  pose proof (zlen_nonneg ss).
  assert (forall i s, ss !! i = Some s ->
    (sealed h pg).[sl_offset s, sl_size s] = pg.[sl_offset s, sl_size s]) as Hrec.
  { intros i s Hi. pose proof (rep_record_range _ _ _ R i s Hi). apply sealed_agree; plia. }
  split; [| by apply records_ext, Forall_lookup].
  split; try done.
  - split; try done.
    + eapply header_view_agree; [done | by rewrite sealed_len | apply sealed_agree; plia].
    + apply (slots_at_agree pg); [done |]. intros i s Hi.
      apply lookup_lt_Some in Hi. apply sealed_agree; unfold zlen in Hroom; plia.
  - apply Forall_lookup. intros i s Hi. rewrite Forall_lookup in Hval.
    eapply slot_valid_agree; [by eapply Hval | lia | by eapply Hrec].
Qed.

Lemma sealed_tailer h pg :
  header_view pg h ->
  tailer (sealed h pg) = Ok (mkPageTailer (ph_lsn h) (crc32 (pg.[0, tailer_offset]))).
Proof.
  intros HV. pose proof (hv_len _ _ HV) as Hl. pose proof (sealed_len h pg Hl) as Hsl.
  unfold tailer, check_page_len. rewrite Hsl. cbn [mbind res_bind].
  change (PAGE_SIZE <? PAGE_SIZE) with false. cbn [mbind res_bind].
  rewrite slice_ok by plia. rewrite Z.add_simpl_l. cbn [mbind res_bind].
  unfold sealed. rewrite zsub_zput_eq by (rewrite ?tailer_bytes_length; plia).
  rewrite <- (app_nil_r (tailer_bytes _)). apply PageTailer_decode_bytes.
  split; [apply (hv_ok _ _ HV) | apply crc32_range].
Qed.

Lemma validate_slots_view pg h ss (R : page_rep pg h ss) n i prev :
  (i + n = length ss)%nat ->
  (forall p s, prev = Some p -> ss !! i = Some s -> slot_leP p s) ->
  validate_slots n pg (tailer_offset - zlen ss * RECORD_SLOT_SIZE) (Z.of_nat i) prev = Ok tt.
Proof.
  revert i prev. induction n as [| n IH]; intros i prev Hi Hprev; [done |].
  destruct (lookup_lt_is_Some_2 ss i) as [s Hs]; [lia |].
  pose proof (pv_header _ _ _ (pr_view _ _ _ R)) as HV.
  destruct (rep_slot _ _ _ R i s Hs) as [_ [Hlow Hal Hhigh Hcrc]].
  pose proof (rep_record_range _ _ _ R i s Hs). pose proof (rep_first_free_bound _ _ _ R).
  pose proof (hv_len _ _ HV) as Hl. pose proof (zlen_nonneg ss).
  cbn [validate_slots]. rewrite (slot_view _ _ _ (pr_view _ _ _ R) i s Hs).
  cbn [mbind res_bind]. cbv zeta.
  assert (match prev with Some p => negb (cmp_le (cmp_key p s)) | None => false end = false) as ->.
  { destruct prev as [p |]; [| done]. specialize (Hprev p s eq_refl Hs).
    unfold slot_leP, slot_le in Hprev. by rewrite Hprev. }
  rewrite Hal. cbn [negb Z.eqb]. rewrite !(proj2 (Z.ltb_ge _ _)) by plia. cbn [orb].
  rewrite slice_ok by plia. rewrite Z.add_simpl_l. cbn [mbind res_bind].
  rewrite Hcrc, Z.eqb_refl. cbn [negb].
  replace (Z.of_nat i + 1) with (Z.of_nat (S i)) by lia. apply IH; [lia |].
  intros p t [= <-] Ht.
  eapply StronglySorted_lookup; [apply (pr_sorted _ _ _ R) | | exact Hs | exact Ht]. lia.
Qed.

Lemma validate_layout_sealed pg h ss :
  page_rep pg h ss -> validate_layout (sealed h pg) = Ok tt.
Proof.
  intros R. destruct (sealed_rep _ _ _ R) as [R' _].
  pose proof (pv_header _ _ _ (pr_view _ _ _ R)) as HV0.
  pose proof (pv_header _ _ _ (pr_view _ _ _ R')) as HV.
  pose proof (rep_first_free_bound _ _ _ R) as Hb. pose proof (pr_first _ _ _ R).
  pose proof (pr_free _ _ _ R). pose proof (view_count_bound _ _ _ (pr_view _ _ _ R)).
  unfold validate_layout. rewrite (header_view_decode _ _ HV). cbn [mbind res_bind].
  rewrite (hk_magic _ (hv_ok _ _ HV)), (hk_version _ (hv_ok _ _ HV)).
  cbn [negb Z.eqb]. rewrite !Z.eqb_refl, Z.ltb_irrefl. cbn [negb]. cbv zeta.
  rewrite (pv_count _ _ _ (pr_view _ _ _ R)).
  rewrite slot_region_start_ok by plia. cbn [mbind res_bind].
  rewrite !(proj2 (Z.ltb_ge _ _)) by plia. cbn [orb].
  rewrite (proj2 (Z.eqb_eq _ _)) by lia. cbn [negb].
  rewrite (validate_slots_view _ _ _ R' _ 0 None) by (try done; unfold zlen; lia).
  rewrite sealed_tailer by done. cbn [mbind res_bind pt_lsn].
  rewrite Z.eqb_refl. cbn [negb]. unfold validate_checksum.
  pose proof (hv_len _ _ HV0) as Hl. pose proof (sealed_len h pg Hl) as Hsl.
  rewrite checksum_for_page_ok by plia. cbn [mbind res_bind pt_checksum].
  rewrite Hsl. change (PAGE_SIZE - PAGE_TAILER_SIZE) with tailer_offset.
  rewrite sealed_agree by plia. by rewrite Z.eqb_refl.
Qed.

End checksum.

(** ** Insertion *)

Section insertion.
Context `{PackagesOk}.

Lemma find_insert_position_view pg h ss s :
  page_view pg h ss -> StronglySorted slot_leP ss ->
  exists k, find_insert_position_by_key s pg = Ok (Z.of_nat k) /\ (k <= length ss)%nat /\
    (forall i x, (i < k)%nat -> ss !! i = Some x -> cmp_key x s = Lt) /\
    (forall i x, (k <= i)%nat -> ss !! i = Some x -> cmp_key x s <> Lt).
Proof.
  intros V Hsort. pose proof (pv_header _ _ _ V) as HV.
  pose proof (view_count_bound _ _ _ V).
  unfold find_insert_position_by_key. rewrite (try_new_view _ _ HV). cbn [mbind res_bind].
  rewrite (slot_count_view _ _ _ V). cbn [mbind res_bind].
  set (f := fun i => match ss !! Z.to_nat i with
                     | Some x => match cmp_key x s with Lt => true | _ => false end
                     | None => false end).
  match goal with |- context [bisect _ ?p 0 _] =>
    destruct (bisect_spec bisect_fuel p f 0 (zlen ss)) as (k & -> & Hk & Hl & Hr) end.
  - lia.
  - apply bisect_fuel_enough. mlia.
  - intros i Hi. destruct (lookup_lt_is_Some_2 ss (Z.to_nat i)) as [x Hx]; [mlia |].
    rewrite <- (Z2Nat.id i) at 1 by lia. rewrite (slot_ref_view _ _ _ V _ x Hx).
    cbn [mbind res_bind]. unfold f. rewrite Hx, ref_cmp_key_owned.
    by rewrite ref_to_owned_bytes by (by eapply view_slot_ok).
  - intros i j Hij Hj. unfold f.
    destruct (ss !! Z.to_nat j) as [b |] eqn:Hb; [| done].
    destruct (lookup_lt_is_Some_2 ss (Z.to_nat i)) as [a Ha]; [mlia |]. rewrite Ha.
    destruct (decide (i = j)) as [-> | Hne]; [by simplify_eq |].
    assert (slot_leP a b) as Hab.
    { eapply StronglySorted_lookup; [exact Hsort | | exact Ha | exact Hb]. lia. }
    destruct (cmp_key b s) eqn:Hbs; try done. intros _.
    assert (cmp_key a s = Lt) as ->; [| done].
    rewrite slot_le_spec in Hab. rewrite cmp_key_lt in *. lia.
  - exists (Z.to_nat k). rewrite Z2Nat.id by lia. split_and!; [done | mlia | |].
    + intros i x Hi Hx. specialize (Hl (Z.of_nat i) ltac:(lia)). unfold f in Hl.
      rewrite Nat2Z.id, Hx in Hl. by destruct (cmp_key x s).
    + intros i x Hi Hx E. specialize (Hr (Z.of_nat i)). unfold f in Hr.
      rewrite Nat2Z.id, Hx, E in Hr. apply lookup_lt_Some in Hx.
      specialize (Hr ltac:(mlia)). done.
Qed.

(** The slot array with [s] inserted at [k]: the slots behind move down. *)
Definition shifted (pg : list byte) (count k : Z) (s : RecordSlot) : list byte :=
  let old_start := tailer_offset - count * RECORD_SLOT_SIZE in
  zput (slot_pos k) (slot_bytes s)
    (zput (old_start - RECORD_SLOT_SIZE) (pg.[old_start, (count - k) * RECORD_SLOT_SIZE]) pg).

Lemma insert_slot_bytes_view pg h ss k s :
  page_view pg h ss -> (k <= length ss)%nat ->
  PAGE_HEADER_SIZE + (zlen ss + 1) * RECORD_SLOT_SIZE <= tailer_offset ->
  insert_slot_bytes (Z.of_nat k) s pg = (Ok tt, shifted pg (zlen ss) (Z.of_nat k) s).
Proof.
  intros V Hk Hroom. pose proof (pv_header _ _ _ V) as HV. pose proof (hv_len _ _ HV) as Hl.
  assert (Z.of_nat k <= zlen ss) by (unfold zlen; lia).
  unfold insert_slot_bytes, shifted. cbv zeta.
  st_step by (apply st_reads_ok, header_mut_view, HV).
  rewrite (pv_count _ _ _ V).
  st_step by (unfold st_lift; rewrite slot_region_start_ok by plia; reflexivity).
  st_step by (unfold st_lift; rewrite slot_region_start_ok by plia; reflexivity).
  st_step by (unfold st_lift; rewrite usub_ok by plia; reflexivity).
  set (moved := zput _ (pg.[_, _]) pg).
  assert (zlen moved = PAGE_SIZE) by (unfold moved; rewrite zlen_zput; rewrite ?zlen_zsub; plia).
  erewrite st_bind_ok; [| instantiate (1 := moved); instantiate (1 := tt)].
  2:{ destruct (Z.ltb_spec (Z.of_nat k) (zlen ss)) as [Hlt | Hge].
      - rewrite copy_within_ok by plia. unfold moved. do 2 f_equal; [plia |].
        f_equal. plia.
      - unfold mret, st_ret, moved. replace (zlen ss - Z.of_nat k) with 0 by lia.
        rewrite Z.mul_0_l, zsub_nil_n, zput_nil. done. }
  cbv beta. unfold slot_offset_for_sorted_index.
  st_step by (unfold st_lift; rewrite usub_ok by plia; reflexivity).
  apply write_slot; plia.
Qed.

Lemma shifted_slots pg ss k s :
  zlen pg = PAGE_SIZE -> (k <= length ss)%nat -> slots_at pg ss ->
  PAGE_HEADER_SIZE + (zlen ss + 1) * RECORD_SLOT_SIZE <= tailer_offset ->
  slots_at (shifted pg (zlen ss) (Z.of_nat k) s) (insert_at k s ss).
Proof.
  intros Hl Hk Hs Hroom i x Hi. assert (zlen ss = Z.of_nat (length ss)) as Hss by done.
  assert (i < S (length ss))%nat as Hlt.
  { apply lookup_lt_Some in Hi. pose proof (insert_at_length k s ss). unfold zlen in *. lia. }
  rewrite insert_at_lookup in Hi by done. unfold shifted. cbv zeta.
  pose proof (slot_bytes_length s) as Hb.
  set (moved := pg.[_, _]).
  assert (zlen moved = (zlen ss - Z.of_nat k) * RECORD_SLOT_SIZE) as Hm
    by (unfold moved; rewrite zlen_zsub; plia).
  assert (zlen (zput (tailer_offset - zlen ss * RECORD_SLOT_SIZE - RECORD_SLOT_SIZE) moved pg)
          = PAGE_SIZE) as Hl2 by (rewrite zlen_zput; plia).
  repeat case_decide; subst.
  - rewrite !zsub_zput_ne by plia. by apply Hs.
  - injection Hi as <-. apply zsub_zput_eq; plia.
  - rewrite zsub_zput_ne by plia. rewrite zsub_zput_in by plia.
    unfold moved. rewrite zsub_zsub by plia. rewrite <- (Hs _ _ Hi). f_equal. plia.
Qed.

Lemma shifted_agree pg (ss : list RecordSlot) k s a n :
  zlen pg = PAGE_SIZE -> (k <= length ss)%nat ->
  PAGE_HEADER_SIZE + (zlen ss + 1) * RECORD_SLOT_SIZE <= tailer_offset ->
  0 <= a -> 0 <= n -> a + n <= tailer_offset - (zlen ss + 1) * RECORD_SLOT_SIZE ->
  (shifted pg (zlen ss) (Z.of_nat k) s).[a, n] = pg.[a, n].
Proof.
  intros Hl Hk Hroom Ha Hn Han. assert (zlen ss = Z.of_nat (length ss)) as Hss by done.
  pose proof (slot_bytes_length s) as Hb. unfold shifted. cbv zeta.
  set (moved := pg.[_, _]).
  assert (zlen moved = (zlen ss - Z.of_nat k) * RECORD_SLOT_SIZE) as Hm
    by (unfold moved; rewrite zlen_zsub; plia).
  rewrite zsub_zput_ne; [| plia | plia | plia | | plia].
  - by rewrite zsub_zput_ne by plia.
  - rewrite zlen_zput; plia.
Qed.

Lemma shifted_len pg (ss : list RecordSlot) k s :
  zlen pg = PAGE_SIZE -> (k <= length ss)%nat ->
  PAGE_HEADER_SIZE + (zlen ss + 1) * RECORD_SLOT_SIZE <= tailer_offset ->
  zlen (shifted pg (zlen ss) (Z.of_nat k) s) = PAGE_SIZE.
Proof.
  intros Hl Hk Hroom. assert (zlen ss = Z.of_nat (length ss)) as Hss by done.
  pose proof (slot_bytes_length s) as Hb. unfold shifted. cbv zeta.
  assert (zlen (pg.[tailer_offset - zlen ss * RECORD_SLOT_SIZE,
                    (zlen ss - Z.of_nat k) * RECORD_SLOT_SIZE])
          = (zlen ss - Z.of_nat k) * RECORD_SLOT_SIZE) as Hm by (rewrite zlen_zsub; plia).
  rewrite !zlen_zput; rewrite ?zlen_zput; plia.
Qed.

Lemma page_view_agree pg pg' h ss :
  page_view pg h ss -> zlen pg' = zlen pg ->
  pg'.[0, PAGE_HEADER_SIZE] = pg.[0, PAGE_HEADER_SIZE] ->
  (forall a n, tailer_offset - zlen ss * RECORD_SLOT_SIZE <= a -> 0 <= n ->
     a + n <= tailer_offset -> pg'.[a, n] = pg.[a, n]) ->
  page_view pg' h ss.
Proof.
  intros [HV Hc Hr Hs Hso] Hl Hh Ha. split; try done.
  - by eapply header_view_agree.
  - eapply slots_at_agree; [done |]. intros i s Hi. apply lookup_lt_Some in Hi.
    apply Ha; unfold zlen; plia.
Qed.

Lemma resized_header_ok h count first_free last :
  header_ok h -> in_u32 count -> in_u32 first_free -> in_u32 last ->
  0 <= tailer_offset - count * RECORD_SLOT_SIZE - first_free ->
  header_ok (resized_header h count first_free last).
Proof.
  intros [] ? ? ? ?. split; cbn [resized_header set_free_bytes set_last_record_offset
    set_first_free_offset set_record_count set_lsn ph_magic ph_version ph_page_id ph_prev_page
    ph_next_page ph_lsn ph_flags ph_record_count ph_first_free_offset ph_free_bytes
    ph_last_record_offset ph_tuple_format_version ph_tuple_schema_hash ph_tuple_flags
    ph_reserved]; try done.
  - by apply saturating_add_u64.
  - unfold_bounds. plia.
Qed.

(** The slot [insert_record] makes for a record stored at [offset]. *)
Definition new_slot (offset timestamp tuple_id : Z) (payload : list byte) : RecordSlot :=
  mkRecordSlot offset (zlen payload) timestamp tuple_id (crc16 payload)
    RECORD_SLOT_FLAG_COMPLETE 0.

Definition data_offset (h : PageHeader) : Z := align_up (ph_first_free_offset h) RECORD_ALIGN.

Lemma insert_room pg h ss payload :
  page_rep pg h ss -> insert_fits h payload = true ->
  PAGE_HEADER_SIZE <= ph_first_free_offset h <= data_offset h /\
  data_offset h mod RECORD_ALIGN = 0 /\
  data_offset h + zlen payload <= tailer_offset - (zlen ss + 1) * RECORD_SLOT_SIZE.
Proof.
  intros R Hfit. pose proof (pr_first _ _ _ R).
  pose proof (align_up_spec (ph_first_free_offset h) ltac:(plia)) as [? ?].
  unfold insert_fits in Hfit. apply Z.leb_le in Hfit.
  rewrite (pv_count _ _ _ (pr_view _ _ _ R)) in Hfit. unfold data_offset.
  split_and!; [lia | lia | done | done].
Qed.

Lemma insert_record_full pg h ss ts id payload :
  page_rep pg h ss -> insert_fits h payload = false ->
  insert_record ts id payload pg = (Err InsufficientBufferSpace, pg).
Proof.
  intros R Hfit. pose proof (pv_header _ _ _ (pr_view _ _ _ R)) as HV.
  pose proof (pv_count _ _ _ (pr_view _ _ _ R)) as Hc.
  pose proof (view_count_bound _ _ _ (pr_view _ _ _ R)).
  pose proof (pr_first _ _ _ R).
  pose proof (align_up_spec (ph_first_free_offset h) ltac:(plia)) as [? _].
  unfold insert_fits in Hfit. apply Z.leb_gt in Hfit. rewrite Hc in Hfit.
  unfold insert_record.
  st_step by (by apply st_reads_ok, (check_page_len_mut_view _ _ HV)).
  st_step by (apply st_reads_ok, header_mut_view, HV). rewrite Hc.
  st_step by (unfold st_lift; rewrite usub_ok by plia; reflexivity).
  st_step by (unfold st_lift; rewrite slot_region_start_ok by plia; reflexivity).
  by rewrite (proj2 (Z.ltb_lt _ _)) by lia.
Qed.

Lemma insert_record_steps pg h ss ts id payload (R : page_rep pg h ss) :
  insert_fits h payload = true ->
  let off := data_offset h in
  let s := new_slot off ts id payload in
  let pg1 := zput off payload pg in
  exists k,
    (k <= length ss)%nat /\
    (forall i x, (i < k)%nat -> ss !! i = Some x -> cmp_key x s = Lt) /\
    (forall i x, (k <= i)%nat -> ss !! i = Some x -> cmp_key x s <> Lt) /\
    insert_record ts id payload pg =
      (Ok (Z.of_nat k),
       zput 0 (header_bytes (resized_header h (zlen ss + 1) (off + zlen payload) off))
         (shifted pg1 (zlen ss) (Z.of_nat k) s)).
Proof.
  intros Hfit off s pg1. pose proof (pv_header _ _ _ (pr_view _ _ _ R)) as HV.
  destruct (insert_room _ _ _ _ R Hfit) as (Hff & Hal & Hroom). fold off in Hff, Hal, Hroom.
  pose proof (hv_len _ _ HV) as Hl. pose proof (pv_count _ _ _ (pr_view _ _ _ R)) as Hc.
  pose proof (pr_free _ _ _ R). pose proof (zlen_nonneg payload). pose proof (zlen_nonneg ss).
  assert (zlen pg1 = PAGE_SIZE) as Hl1 by (unfold pg1; rewrite zlen_zput; plia).
  assert (page_view pg1 h ss) as V1.
  { eapply page_view_agree; [apply R | congruence | |]; intros;
      unfold pg1; apply zsub_zput_ne; plia. }
  destruct (find_insert_position_view pg1 h ss s V1 (pr_sorted _ _ _ R))
    as (k & Hpos & Hk & Hlo & Hhi).
  exists k. split_and!; [done | done | done |].
  pose proof (shifted_len pg1 ss k s Hl1 Hk ltac:(plia)) as Hl2.
  unfold insert_record.
  st_step by (by apply st_reads_ok, (check_page_len_mut_view _ _ HV)).
  st_step by (apply st_reads_ok, header_mut_view, HV). rewrite Hc. fold (data_offset h). fold off.
  st_step by (unfold st_lift; rewrite usub_ok by plia; reflexivity).
  st_step by (unfold st_lift; rewrite slot_region_start_ok by plia; reflexivity).
  rewrite !(proj2 (Z.ltb_ge _ _)) by plia. cbn [orb].
  st_step by (apply copy_from_slice_ok; plia). fold pg1.
  rewrite !as_u32_small by (unfold_bounds; plia).
  change (set_check_sum _ _) with s.
  st_step by (apply st_reads_ok, Hpos).
  st_step by (eapply insert_slot_bytes_view; [exact V1 | done | plia]).
  unfold rewrite_header_after_insert. unfold mbind at 1, st_bind at 1.
  st_step by (unfold st_lift; rewrite slot_region_start_ok by plia; reflexivity).
  st_step by (unfold st_lift; rewrite usub_ok by plia; reflexivity).
  rewrite !as_u32_small by (unfold_bounds; plia).
  change (set_free_bytes _ _) with (resized_header h (zlen ss + 1) (off + zlen payload) off).
  rewrite write_header; [done | | done].
  apply resized_header_ok; [apply HV | unfold_bounds; plia ..].
Qed.

Lemma records_insert_at pg k s ss :
  records pg (insert_at k s ss) = insert_at k (rec_of pg s) (records pg ss).
Proof. unfold records, insert_at. by rewrite fmap_app, fmap_cons, fmap_take, fmap_drop. Qed.

Lemma sizes_insert_at k s ss :
  sl_size <$> insert_at k s ss = insert_at k (sl_size s) (sl_size <$> ss).
Proof. unfold insert_at. by rewrite fmap_app, fmap_cons, fmap_take, fmap_drop. Qed.

(** The page written by an insertion represents the slots with the new one. *)
Lemma inserted_rep pg h ss ts id payload k (R : page_rep pg h ss) :
  in_u64 ts -> in_u64 id -> insert_fits h payload = true -> (k <= length ss)%nat ->
  let off := data_offset h in
  let s := new_slot off ts id payload in
  let h' := resized_header h (zlen ss + 1) (off + zlen payload) off in
  let pg' := zput 0 (header_bytes h') (shifted (zput off payload pg) (zlen ss) (Z.of_nat k) s) in
  (forall i x, (i < k)%nat -> ss !! i = Some x -> cmp_key x s = Lt) ->
  (forall i x, (k <= i)%nat -> ss !! i = Some x -> cmp_key x s <> Lt) ->
  page_rep pg' h' (insert_at k s ss) /\
  records pg' (insert_at k s ss) = insert_at k (mkRec ts id payload) (records pg ss).
Proof.
  intros Hts Hid Hfit Hk off s h' pg' Hlo Hhi.
  pose proof (pv_header _ _ _ (pr_view _ _ _ R)) as HV.
  destruct (insert_room _ _ _ _ R Hfit) as (Hff & Hal & Hroom). fold off in Hff, Hal, Hroom.
  pose proof (hv_len _ _ HV) as Hl. pose proof (zlen_nonneg payload). pose proof (zlen_nonneg ss).
  assert (zlen (zput off payload pg) = PAGE_SIZE) as Hl1 by (rewrite zlen_zput; plia).
  pose proof (shifted_len _ ss k s Hl1 Hk ltac:(plia)) as Hl2.
  assert (header_ok h') as Hok
    by (apply resized_header_ok; [apply HV | unfold_bounds; plia ..]).
  pose proof (header_bytes_length h' (hk_reserved _ Hok)) as Hb.
  assert (forall a n, PAGE_HEADER_SIZE <= a -> 0 <= n ->
            a + n <= tailer_offset - (zlen ss + 1) * RECORD_SLOT_SIZE ->
            pg'.[a, n] = (zput off payload pg).[a, n]) as Hdata.
  { intros a n ? ? ?. unfold pg'. rewrite zsub_zput_ne by plia. apply shifted_agree; plia. }
  assert (pg'.[off, zlen payload] = payload) as Hpay
    by (rewrite Hdata by plia; apply zsub_zput_eq; plia).
  assert (forall i x, ss !! i = Some x ->
            pg'.[sl_offset x, sl_size x] = pg.[sl_offset x, sl_size x]) as Hold.
  { intros i x Hx. pose proof (rep_record_range _ _ _ R i x Hx).
    rewrite Hdata by plia. apply zsub_zput_ne; plia. }
  split.
  - split; [split | | | | |].
    + by apply header_view_put.
    + by rewrite insert_at_length.
    + rewrite insert_at_length. plia.
    + eapply slots_at_agree; [apply shifted_slots; [exact Hl1 | exact Hk | | plia] |].
      * eapply slots_at_agree; [apply (pr_view _ _ _ R) |]. intros i x Hx.
        apply lookup_lt_Some in Hx. apply zsub_zput_ne; unfold zlen in *; plia.
      * intros i x Hx. apply lookup_lt_Some in Hx.
        pose proof (insert_at_length k s ss) as Hlen.
        apply zsub_zput_ne; unfold zlen in *; plia.
    + apply Forall_insert_at. split; [| apply (pr_view _ _ _ R)].
      split; cbn; try done; try apply crc16_range; unfold_bounds; plia.
    + cbn. plia.
    + rewrite insert_at_length. cbn. lia.
    + apply Forall_insert_at. split.
      * split; cbn; [plia | done | lia | by rewrite Hpay].
      * apply Forall_lookup. intros i x Hx. destruct (rep_slot _ _ _ R i x Hx) as [_ Hv].
        eapply slot_valid_agree; [exact Hv | cbn; lia | by eapply Hold].
    + apply StronglySorted_insert_at; [apply R | done | |].
      * intros i x Hi Hx. specialize (Hlo i x Hi Hx). unfold slot_leP, slot_le. by rewrite Hlo.
      * intros i x Hi Hx. specialize (Hhi i x Hi Hx). rewrite cmp_key_lt in Hhi.
        rewrite slot_le_spec. pose proof (rep_record_range _ _ _ R i x Hx). cbn in *. lia.
    + rewrite sizes_insert_at, padded_sum_insert_at.
      cbn [h' resized_header set_free_bytes set_last_record_offset set_first_free_offset
        ph_first_free_offset s new_slot sl_size].
      rewrite align_up_add by (try done; plia).
      pose proof (pr_space _ _ _ R) as Hspace. fold (data_offset h) in Hspace.
      change (data_offset h) with off in Hspace. lia.
  - rewrite records_insert_at. f_equal.
    + unfold rec_of. cbn. by rewrite Hpay.
    + apply records_ext, Forall_lookup. exact Hold.
Qed.

Lemma spec_position_unique r rs k :
  (k <= length rs)%nat ->
  (forall i x, (i < k)%nat -> rs !! i = Some x -> key_lt x r) ->
  (forall i x, (k <= i)%nat -> rs !! i = Some x -> ~ key_lt x r) ->
  spec_position r rs = k.
Proof.
  revert k. induction rs as [| x rs IH]; intros k Hk Hlo Hhi; cbn in *; [lia |].
  destruct k as [| k].
  - rewrite decide_False; [done |]. by apply (Hhi 0%nat).
  - rewrite decide_True by (apply (Hlo 0%nat); [lia | done]). f_equal. apply IH; [lia | |].
    + intros i y Hi. apply (Hlo (S i)). lia.
    + intros i y Hi. apply (Hhi (S i)). lia.
Qed.

Lemma page_holds_len pg h rs : page_holds pg h rs -> ph_record_count h = zlen rs.
Proof.
  intros (ss & R & ->). rewrite (pv_count _ _ _ (pr_view _ _ _ R)).
  unfold zlen, records. by rewrite length_fmap.
Qed.

(** The header after inserting a payload. *)
Definition insert_header (h : PageHeader) (payload : list byte) : PageHeader :=
  resized_header h (ph_record_count h + 1) (data_offset h + zlen payload) (data_offset h).

Lemma insert_record_holds pg h rs ts id payload :
  page_holds pg h rs -> in_u64 ts -> in_u64 id -> insert_fits h payload = true ->
  spec_find ts id rs = None ->
  exists pg',
    insert_record ts id payload pg =
      (Ok (Z.of_nat (spec_position (mkRec ts id payload) rs)), pg') /\
    page_holds pg' (insert_header h payload) (spec_insert (mkRec ts id payload) rs).
Proof.
  intros Hh Hts Hid Hfit Hf. pose proof (page_holds_len _ _ _ Hh) as Hlen.
  destruct Hh as (ss & R & ->).
  destruct (insert_record_steps _ _ _ ts id payload R Hfit) as (k & Hk & Hlo & Hhi & E).
  destruct (inserted_rep _ _ _ ts id payload k R Hts Hid Hfit Hk Hlo Hhi) as [R' Hrec].
  assert (spec_position (mkRec ts id payload) (records pg ss) = k) as Hpos.
  { apply spec_find_none in Hf. rewrite Forall_lookup in Hf. unfold records in *.
    apply spec_position_unique; [by rewrite length_fmap | |]; intros i x Hi Hx;
      pose proof (Hf i x Hx) as Hne; apply list_lookup_fmap_Some in Hx as (y & -> & Hy);
      unfold key_lt, has_key in *; cbn in *.
    - specialize (Hlo i y Hi Hy). rewrite cmp_key_lt in Hlo. cbn in Hlo. lia.
    - specialize (Hhi i y Hi Hy). rewrite cmp_key_lt in Hhi. cbn in Hhi. lia. }
  rewrite Hpos. eexists. split; [exact E |].
  exists (insert_at k (new_slot (data_offset h) ts id payload) ss).
  unfold insert_header. rewrite (pv_count _ _ _ (pr_view _ _ _ R)). split; [exact R' |].
  rewrite Hrec, spec_insert_split, Hpos. done.
Qed.

End insertion.
