(* ===== verification/PageRebuild.v ===== *)
(** * Slotted pages: rebuilding

    [rebuild_from_entries] of [page_block_ref_mut.rs] and the methods on top
    of it ([compact], [delete_record], [update_record]): the page is rebuilt
    from its records in key order, which succeeds exactly when the packed
    records fit. *)

From S2P Require Import Prelude Errors Compat PageFormat PageBlock RecordSpec PageView PageInsert.

Definition entry_leP (a b : RecordSlot * list byte) : Prop := entry_le a b = true.

#[export] Instance entry_leP_trans : Transitive entry_leP.
Proof. intros a b c. apply slot_leP_trans. Qed.

Lemma entry_le_total a b : entry_leP a b \/ entry_leP b a.
Proof. apply slot_le_total. Qed.

Definition payloads (entries : list (RecordSlot * list byte)) : list (list byte) :=
  snd <$> entries.

Lemma payloads_cons s p entries : payloads ((s, p) :: entries) = p :: payloads entries.
Proof. done. Qed.

(** The record an entry stands for. *)
Definition entry_rec (e : RecordSlot * list byte) : Rec :=
  mkRec (sl_timestamp e.1) (sl_tuple_id e.1) e.2.

Section rebuild.
Context `{PackagesOk}.

(** The slots of the entries when they are placed from [next] on. *)
Definition place_slot (offset : Z) (s : RecordSlot) (payload : list byte) : RecordSlot :=
  set_check_sum (crc16 payload) (set_size (zlen payload) (set_offset offset s)).

Fixpoint placed (next : Z) (entries : list (RecordSlot * list byte)) : list RecordSlot :=
  match entries with
  | [] => []
  | (s, p) :: rest =>
      let off := align_up next RECORD_ALIGN in
      place_slot off s p :: placed (off + zlen p) rest
  end.

Lemma placed_length entries : forall next, zlen (placed next entries) = zlen entries.
Proof.
  induction entries as [| [s p] rest IH]; intros next; [done |]. cbn [placed]. cbv zeta.
  rewrite !zlen_cons. by rewrite IH.
Qed.

Lemma placed_Forall (Q : Z -> Z -> Prop) entries : forall next,
  0 <= next -> Forall (fun e => Q (sl_timestamp e.1) (sl_tuple_id e.1)) entries ->
  Forall (fun s => Q (sl_timestamp s) (sl_tuple_id s) /\ next <= sl_offset s) (placed next entries).
Proof.
  induction entries as [| [s p] rest IH]; intros next Hn HF; cbn [placed]; cbv zeta; [done |].
  inversion HF as [| ? ? Hq HF']; subst.
  pose proof (align_up_spec next Hn) as [? _]. pose proof (zlen_nonneg p).
  constructor; [cbn; split; [done | lia] |].
  eapply Forall_impl; [apply IH; [| exact HF']; lia |].
  intros x [? ?]. split; [done | lia].
Qed.

Lemma placed_sorted entries : forall next,
  0 <= next -> StronglySorted entry_leP entries -> StronglySorted slot_leP (placed next entries).
Proof.
  induction entries as [| [s p] rest IH]; intros next Hn HS; cbn [placed]; cbv zeta; [constructor |].
  inversion HS as [| ? ? HS' HF]; subst.
  pose proof (align_up_spec next Hn) as [? _]. pose proof (zlen_nonneg p).
  constructor; [apply IH; [lia | done] |].
  eapply Forall_impl.
  - apply (placed_Forall (fun ts id => sl_timestamp s < ts \/
             sl_timestamp s = ts /\ sl_tuple_id s <= id)); [lia |].
    eapply Forall_impl; [exact HF |]. intros [t q] Ht.
    unfold entry_leP, entry_le in Ht. apply slot_le_spec in Ht. cbn in *. lia.
  - intros x [Hx Ho]. apply slot_le_spec. cbn. lia.
Qed.

(** What the placed records look like on the page. *)
Definition placed_on (pg : list byte) (limit : Z) (s : RecordSlot)
    (e : RecordSlot * list byte) : Prop :=
  slot_valid pg limit s /\ rec_of pg s = entry_rec e.

Lemma place_entries_ok entries : forall acc next pg,
  zlen pg = PAGE_SIZE -> PAGE_HEADER_SIZE <= next ->
  packed_end next (payloads entries)
    <= tailer_offset - (zlen acc + zlen entries) * RECORD_SLOT_SIZE ->
  exists pg',
    place_entries entries acc next pg =
      (Ok (acc ++ placed next entries, packed_end next (payloads entries)), pg') /\
    zlen pg' = PAGE_SIZE /\
    (forall a n, 0 <= a -> 0 <= n -> a + n <= next -> pg'.[a, n] = pg.[a, n]) /\
    Forall2 (placed_on pg' (packed_end next (payloads entries))) (placed next entries) entries.
Proof.
  induction entries as [| [s p] rest IH]; intros acc next pg Hl Hn Hfit.
  { exists pg. cbn. rewrite app_nil_r. split_and!; try done; constructor. }
  pose proof (align_up_spec next ltac:(plia)) as [Hal Hmod].
  pose proof (zlen_nonneg p). pose proof (zlen_nonneg acc). pose proof (zlen_nonneg rest).
  rewrite payloads_cons, zlen_cons in Hfit. rewrite ?payloads_cons.
  cbn [packed_end] in Hfit |- *.
  set (off := align_up next RECORD_ALIGN) in *.
  pose proof (packed_end_ge (payloads rest) (off + zlen p) ltac:(plia)) as Hge.
  cbn [place_entries]. cbv zeta. fold off.
  st_step by (unfold st_lift; rewrite slot_region_start_ok by plia; reflexivity).
  rewrite (proj2 (Z.ltb_ge _ _)) by plia.
  st_step by (apply copy_from_slice_ok; plia).
  rewrite !as_u32_small by (unfold_bounds; plia). fold (place_slot off s p).
  destruct (IH (acc ++ [place_slot off s p]) (off + zlen p) (zput off p pg))
    as (pg' & E & Hl' & Hlow & HF2).
  { rewrite zlen_zput; plia. }
  { plia. }
  { rewrite zlen_app, zlen_cons, zlen_nil. plia. }
  exists pg'. rewrite E, <- app_assoc. split_and!; try done.
  - intros a n Ha Hn' Han. rewrite Hlow by lia. apply zsub_zput_ne; plia.
  - cbn [placed]. cbv zeta. fold off. constructor; [| exact HF2].
    assert (pg'.[off, zlen p] = p) as Hp by (rewrite Hlow by plia; apply zsub_zput_eq; plia).
    split; [split; [cbn; plia | done | cbn [place_slot set_check_sum set_size set_offset
      sl_offset sl_size]; plia | cbn; by rewrite Hp] | unfold rec_of; cbn; by rewrite Hp].
Qed.

Lemma place_entries_full entries : forall acc next pg,
  zlen pg = PAGE_SIZE -> PAGE_HEADER_SIZE <= next ->
  next <= tailer_offset - zlen acc * RECORD_SLOT_SIZE ->
  tailer_offset - (zlen acc + zlen entries) * RECORD_SLOT_SIZE
    < packed_end next (payloads entries) ->
  exists pg', place_entries entries acc next pg = (Err InsufficientBufferSpace, pg') /\
    zlen pg' = PAGE_SIZE /\
    (forall a n, 0 <= a -> 0 <= n -> a + n <= next \/ tailer_offset - (zlen acc + 1) * RECORD_SLOT_SIZE <= a ->
       pg'.[a, n] = pg.[a, n]).
Proof.
  induction entries as [| [s p] rest IH]; intros acc next pg Hl Hn Hacc Hfit.
  { cbn [payloads packed_end fmap list_fmap] in Hfit. rewrite zlen_nil in Hfit. lia. }
  pose proof (align_up_spec next ltac:(plia)) as [Hal Hmod].
  pose proof (zlen_nonneg p). pose proof (zlen_nonneg acc). pose proof (zlen_nonneg rest).
  rewrite payloads_cons, zlen_cons in Hfit. rewrite ?payloads_cons.
  cbn [packed_end] in Hfit |- *.
  set (off := align_up next RECORD_ALIGN) in *.
  cbn [place_entries]. cbv zeta. fold off.
  st_step by (unfold st_lift; rewrite slot_region_start_ok by plia; reflexivity).
  destruct (Z.ltb_spec (tailer_offset - (zlen acc + 1) * RECORD_SLOT_SIZE) (off + zlen p)).
  { by exists pg. }
  st_step by (apply copy_from_slice_ok; plia).
  rewrite !as_u32_small by (unfold_bounds; plia). fold (place_slot off s p).
  destruct (IH (acc ++ [place_slot off s p]) (off + zlen p) (zput off p pg))
    as (pg' & E & Hl' & Hlow).
  { rewrite zlen_zput; plia. }
  { plia. }
  { rewrite zlen_app, zlen_cons, zlen_nil. plia. }
  { rewrite zlen_app, zlen_cons, zlen_nil. plia. }
  exists pg'. split_and!; [exact E | done |].
  intros a n Ha Hn' Han. rewrite Hlow.
  - apply zsub_zput_ne; plia.
  - done.
  - done.
  - rewrite zlen_app, zlen_cons, zlen_nil. plia.
Qed.

Lemma write_slots_ok ss : forall idx pg,
  zlen pg = PAGE_SIZE -> 0 <= idx ->
  PAGE_HEADER_SIZE + (idx + zlen ss) * RECORD_SLOT_SIZE <= tailer_offset ->
  exists pg', write_slots idx ss pg = (Ok tt, pg') /\ zlen pg' = PAGE_SIZE /\
    (forall a n, 0 <= a -> 0 <= n ->
       a + n <= tailer_offset - (idx + zlen ss) * RECORD_SLOT_SIZE \/
       tailer_offset - idx * RECORD_SLOT_SIZE <= a -> pg'.[a, n] = pg.[a, n]) /\
    (forall i s, ss !! i = Some s ->
       pg'.[slot_pos (idx + Z.of_nat i), RECORD_SLOT_SIZE] = slot_bytes s).
Proof.
  induction ss as [| s ss IH]; intros idx pg Hl Hi Hroom.
  { exists pg. split_and!; done. }
  rewrite zlen_cons in *. pose proof (zlen_nonneg ss). pose proof (slot_bytes_length s) as Hb.
  cbn [write_slots].
  st_step by (unfold st_lift; rewrite usub_ok by plia; reflexivity).
  fold (slot_pos idx).
  st_step by (apply write_slot; plia).
  destruct (IH (idx + 1) (zput (slot_pos idx) (slot_bytes s) pg)) as (pg' & E & Hl' & Ha & Hs).
  { rewrite zlen_zput; plia. }
  { lia. }
  { plia. }
  exists pg'. split_and!; [done | done | |].
  - intros a n ? ? Han. rewrite Ha by plia. apply zsub_zput_ne; plia.
  - intros [| i] t Ht; cbn in Ht.
    + injection Ht as <-. rewrite Z.add_0_r, Ha by plia. apply zsub_zput_eq; plia.
    + rewrite <- (Hs i t Ht). f_equal. plia.
Qed.

Lemma max_slot_offset_range limit ss :
  PAGE_HEADER_SIZE <= limit ->
  Forall (fun s => PAGE_HEADER_SIZE <= sl_offset s <= limit) ss ->
  PAGE_HEADER_SIZE <= max_slot_offset ss <= limit.
Proof.
  intros Hlim HF. destruct HF as [| s ss Hs HF]; cbn [max_slot_offset]; [lia |].
  revert Hs. generalize (sl_offset s). induction HF as [| t ss Ht HF IH]; intros m Hm; [done |].
  cbn [fold_left]. apply IH. lia.
Qed.

Lemma rewrite_header_and_slots_ok pg h ss first_free :
  header_view pg h -> PAGE_HEADER_SIZE <= first_free ->
  first_free <= tailer_offset - zlen ss * RECORD_SLOT_SIZE ->
  Forall slot_ok ss -> Forall (slot_valid pg first_free) ss -> StronglySorted slot_leP ss ->
  PAGE_HEADER_SIZE + padded_sum (sl_size <$> ss) <= align_up first_free RECORD_ALIGN ->
  exists pg',
    rewrite_header_and_slots (ph_page_id h) ss first_free pg = (Ok tt, pg') /\
    page_rep pg' (resized_header h (zlen ss) first_free (max_slot_offset ss)) ss /\
    records pg' ss = records pg ss.
Proof.
  intros HV Hff Hroom Hso Hval Hsort Hspace. pose proof (hv_len _ _ HV) as Hl.
  pose proof (zlen_nonneg ss). unfold rewrite_header_and_slots.
  set (start := tailer_offset - zlen ss * RECORD_SLOT_SIZE) in *.
  assert (exists pg1, fill (E := ErrorCode) start tailer_offset x00 pg = (Ok tt, pg1) /\
    zlen pg1 = PAGE_SIZE /\
    forall a n, 0 <= a -> 0 <= n -> a + n <= start -> pg1.[a, n] = pg.[a, n])
    as (pg1 & Hfill & Hl1 & Ha1).
  { eexists. rewrite fill_ok by plia. split; [reflexivity |].
    assert (zlen (replicate (Z.to_nat (tailer_offset - start)) x00) = tailer_offset - start)
      by (rewrite zlen_replicate; plia).
    split; [rewrite zlen_zput; plia | intros; apply zsub_zput_ne; plia]. }
  destruct (write_slots_ok ss 0 pg1 Hl1 ltac:(lia) ltac:(plia)) as (pg2 & Hw & Hl2 & Ha2 & Hs2).
  assert (forall a n, 0 <= a -> 0 <= n -> a + n <= start -> pg2.[a, n] = pg.[a, n]) as Ha.
  { intros a n ? ? ?. rewrite Ha2 by (unfold start in *; lia). by apply Ha1. }
  assert (header_view pg2 h) as HV2.
  { eapply header_view_agree; [exact HV | congruence | apply Ha; plia]. }
  assert (PAGE_HEADER_SIZE <= max_slot_offset ss <= first_free) as Hmax.
  { apply max_slot_offset_range; [done |]. rewrite Forall_forall in *. intros x Hx.
    destruct (Hval x Hx) as [? _ ? _]. destruct (Hso x Hx). unfold_bounds. plia. }
  set (h' := resized_header h (zlen ss) first_free (max_slot_offset ss)).
  assert (header_ok h') as Hok
    by (apply resized_header_ok; [apply HV | unfold_bounds; plia ..]).
  exists (zput 0 (header_bytes h') pg2). split.
  - st_step by (unfold st_lift; rewrite slot_region_start_ok by plia; reflexivity).
    fold start. st_step by exact Hfill. st_step by exact Hw.
    st_step by (unfold st_lift; rewrite usub_ok by lia; reflexivity).
    st_step by (apply st_reads_ok, header_mut_view, HV2).
    st_step by (apply st_reads_ok, header_mut_view, HV2).
    rewrite Z.eqb_refl. cbn [negb].
    rewrite !as_u32_small by (unfold start in *; unfold_bounds; plia).
    change (set_free_bytes _ _) with h'. by apply write_header.
  - pose proof (header_bytes_length h' (hk_reserved _ Hok)) as Hb.
    assert (forall x, x ∈ ss -> (zput 0 (header_bytes h') pg2).[sl_offset x, sl_size x]
                                = pg.[sl_offset x, sl_size x]) as Hrec.
    { intros x Hx. rewrite Forall_forall in Hval, Hso. destruct (Hval x Hx), (Hso x Hx).
      rewrite zsub_zput_ne by (unfold_bounds; plia). apply Ha; unfold_bounds; plia. }
    split; [split; [split | | | | |] |].
    + by apply header_view_put.
    + done.
    + unfold start in *. plia.
    + intros i s Hi. rewrite <- (Hs2 i s Hi). apply lookup_lt_Some in Hi.
      apply zsub_zput_ne; unfold start, zlen in *; plia.
    + done.
    + done.
    + cbn. lia.
    + rewrite Forall_forall in Hval |- *. intros x Hx.
      eapply slot_valid_agree; [by apply Hval | done | by apply Hrec].
    + done.
    + done.
    + apply records_ext. by apply Forall_forall.
Qed.

Lemma placed_ok entries : forall next,
  0 <= next -> packed_end next (payloads entries) <= U32_MAX ->
  Forall (fun e => slot_ok e.1) entries -> Forall slot_ok (placed next entries).
Proof.
  induction entries as [| [s p] rest IH]; intros next Hn Hend HF; cbn [placed]; cbv zeta; [done |].
  inversion HF as [| ? ? Hs HF']; subst. cbn [fst] in Hs.
  rewrite payloads_cons in Hend. cbn [packed_end] in Hend.
  pose proof (align_up_spec next Hn) as [? _]. pose proof (zlen_nonneg p).
  pose proof (packed_end_ge (payloads rest) (align_up next RECORD_ALIGN + zlen p) ltac:(lia)).
  constructor; [| apply IH; [lia | done | done]].
  destruct Hs. split; cbn; try done; [split; lia | split; lia | apply crc16_range].
Qed.

Lemma placed_sizes entries : forall next,
  sl_size <$> placed next entries = zlen <$> payloads entries.
Proof.
  induction entries as [| [s p] rest IH]; intros next; [done |].
  cbn [placed]. cbv zeta. rewrite payloads_cons, !fmap_cons. by rewrite IH.
Qed.

Lemma placed_records pg limit next entries :
  Forall2 (placed_on pg limit) (placed next entries) entries ->
  records pg (placed next entries) = entry_rec <$> entries.
Proof.
  unfold records. induction 1 as [| s e ss es [_ He] _ IH]; [done |].
  rewrite !fmap_cons. by rewrite He, IH.
Qed.

(** The header after a rebuild with the given payloads in key order. *)
Definition rebuilt_header (h : PageHeader) (ps : list (list byte)) (last : Z) : PageHeader :=
  resized_header h (zlen ps) (packed_end PAGE_HEADER_SIZE ps) last.

Lemma zeroed_data pg :
  zlen pg = PAGE_SIZE ->
  exists pg1, fill (E := ErrorCode) PAGE_HEADER_SIZE tailer_offset x00 pg = (Ok tt, pg1) /\
    zlen pg1 = PAGE_SIZE /\ pg1.[0, PAGE_HEADER_SIZE] = pg.[0, PAGE_HEADER_SIZE] /\
    pg1.[slot_pos 0, RECORD_SLOT_SIZE] = zeros RECORD_SLOT_SIZE.
Proof.
  intros Hl. eexists. rewrite fill_ok by plia. split; [reflexivity |].
  assert (zlen (replicate (Z.to_nat (tailer_offset - PAGE_HEADER_SIZE)) x00)
          = tailer_offset - PAGE_HEADER_SIZE) by (rewrite zlen_replicate; plia).
  split_and!; [rewrite zlen_zput; plia | apply zsub_zput_ne; plia |].
  rewrite zsub_zput_in by (unfold slot_pos; plia). by vm_compute.
Qed.

Lemma rebuild_from_entries_ok pg h entries :
  let sorted := sort_stable entry_le entries in
  header_view pg h -> Forall (fun e => slot_ok e.1) entries ->
  pack_fits (payloads sorted) = true ->
  exists pg' last,
    rebuild_from_entries entries pg = (Ok tt, pg') /\
    page_holds pg' (rebuilt_header h (payloads sorted) last) (entry_rec <$> sorted).
Proof.
  intros sorted HV Hso Hfit. pose proof (hv_len _ _ HV) as Hl.
  assert (zlen (payloads sorted) = zlen sorted) as Hlen
    by (unfold zlen, payloads; by rewrite length_fmap).
  unfold pack_fits in Hfit. apply Z.leb_le in Hfit. rewrite Hlen in Hfit.
  destruct (zeroed_data pg Hl) as (pg1 & Hfill & Hl1 & Hh1 & _).
  destruct (place_entries_ok sorted [] PAGE_HEADER_SIZE pg1 Hl1 ltac:(lia) Hfit)
    as (pg2 & Hp & Hl2 & Hlow & HF2).
  assert (header_view pg2 h) as HV2.
  { eapply header_view_agree; [exact HV | congruence |]. rewrite Hlow by plia. done. }
  pose proof (packed_end_ge (payloads sorted) PAGE_HEADER_SIZE ltac:(plia)) as Hge.
  pose proof (zlen_nonneg sorted).
  destruct (rewrite_header_and_slots_ok pg2 h (placed PAGE_HEADER_SIZE sorted)
              (packed_end PAGE_HEADER_SIZE (payloads sorted))) as (pg3 & Hr & R & Hrec).
  { done. }
  { done. }
  { by rewrite placed_length. }
  { apply placed_ok; [plia | unfold_bounds; plia |].
    unfold sorted. by rewrite sort_stable_perm. }
  { apply Forall_lookup. intros i x Hx.
    by destruct (Forall2_lookup_l _ _ _ _ _ HF2 Hx) as (e & _ & [Hv _]). }
  { apply placed_sorted; [plia |]. apply sort_stable_sorted; [apply _ | apply entry_le_total]. }
  { rewrite placed_sizes.
    pose proof (packed_end_padded (payloads sorted) PAGE_HEADER_SIZE ltac:(plia)) as [_ ->].
    change (align_up PAGE_HEADER_SIZE RECORD_ALIGN) with PAGE_HEADER_SIZE. lia. }
  exists pg3, (max_slot_offset (placed PAGE_HEADER_SIZE sorted)). split.
  - unfold rebuild_from_entries.
    st_step by (apply st_reads_ok, header_mut_view, HV).
    cbv zeta. fold sorted. st_step by exact Hfill. st_step by exact Hp. cbn [fst snd app].
    rewrite as_u32_small by (unfold_bounds; plia). exact Hr.
  - exists (placed PAGE_HEADER_SIZE sorted). unfold rebuilt_header. rewrite Hlen.
    rewrite placed_length in R. split; [exact R |].
    rewrite Hrec. symmetry. by eapply placed_records.
Qed.

Lemma rebuild_from_entries_full pg h entries :
  header_view pg h -> pack_fits (payloads (sort_stable entry_le entries)) = false ->
  exists pg', rebuild_from_entries entries pg = (Err InsufficientBufferSpace, pg') /\
    header_view pg' h /\ pg'.[slot_pos 0, RECORD_SLOT_SIZE] = zeros RECORD_SLOT_SIZE.
Proof.
  intros HV Hfit. pose proof (hv_len _ _ HV) as Hl. set (sorted := sort_stable _ _) in *.
  assert (zlen (payloads sorted) = zlen sorted) as Hlen
    by (unfold zlen, payloads; by rewrite length_fmap).
  unfold pack_fits in Hfit. apply Z.leb_gt in Hfit. rewrite Hlen in Hfit.
  destruct (zeroed_data pg Hl) as (pg1 & Hfill & Hl1 & Hh1 & Hz1).
  destruct (place_entries_full sorted [] PAGE_HEADER_SIZE pg1 Hl1 ltac:(lia)) as (pg2 & Hp & Hl2 & Hkeep).
  { change (zlen (@nil RecordSlot)) with 0. plia. }
  { done. }
  exists pg2. split_and!.
  - unfold rebuild_from_entries. st_step by (apply st_reads_ok, header_mut_view, HV).
    cbv zeta. fold sorted. st_step by exact Hfill. apply st_bind_err, Hp.
  - eapply header_view_agree; [exact HV | congruence |]. rewrite Hkeep by plia. done.
  - rewrite Hkeep by (unfold slot_pos; change (zlen (@nil RecordSlot)) with 0; plia). done.
Qed.

(** A page whose first slot was wiped out under its header. *)
Lemma wiped_page pg h :
  header_view pg h -> 0 < ph_record_count h -> PAGE_HEADER_SIZE + ph_record_count h * RECORD_SLOT_SIZE <= tailer_offset ->
  pg.[slot_pos 0, RECORD_SLOT_SIZE] = zeros RECORD_SLOT_SIZE ->
  record_bytes pg 0 = Err Decode /\ validate_layout pg <> Ok tt.
Proof.
  intros HV Hc Hroom Hz. pose proof (hv_len _ _ HV) as Hl.
  assert (slot_ref pg 0 = Ok (zeros RECORD_SLOT_SIZE)) as Hs.
  { unfold slot_ref, slot_offset, slot_count. rewrite (check_page_len_view _ _ HV), (header_record_count_view _ _ HV).
    cbn [mbind res_bind]. rewrite (proj2 (Z.leb_gt (ph_record_count h) 0)) by lia. rewrite usub_ok by plia. cbn [mbind res_bind].
    rewrite slice_ok by plia. rewrite Z.add_simpl_l. fold (slot_pos 0). by rewrite Hz. }
  assert (ref_offset (zeros RECORD_SLOT_SIZE) = 0) as Ho by (exact (le_read_zeros 4)).
  split.
  - unfold record_bytes, slot_array_low_bound, slot_count. rewrite Hs, (header_record_count_view _ _ HV). cbn [mbind res_bind].
    rewrite slot_region_start_ok by plia. cbn [mbind res_bind]. by rewrite Ho.
  - unfold validate_layout. rewrite (header_view_decode _ _ HV). cbn [mbind res_bind].
    destruct (negb _); [done |]. destruct (_ <? _); [done |]. rewrite slot_region_start_ok by plia. cbn [mbind res_bind].
    destruct (_ || _); [done |]. destruct (negb _); [done |].
    destruct (Z.to_nat (ph_record_count h)) as [| n] eqn:En; [lia |]. cbn [validate_slots]. unfold slot. rewrite Hs. cbn [mbind res_bind].
    assert (sl_offset (ref_to_owned (zeros RECORD_SLOT_SIZE)) = 0) as -> by exact Ho. done.
Qed.

(** ** The methods on top of a rebuild *)

Definition entries_of (pg : list byte) (ss : list RecordSlot) : list (RecordSlot * list byte) :=
  (fun s => (s, pg.[sl_offset s, sl_size s])) <$> ss.

Lemma entries_of_recs pg ss : entry_rec <$> entries_of pg ss = records pg ss.
Proof. unfold entries_of, records. rewrite <- list_fmap_compose. done. Qed.

Lemma payloads_recs entries : payloads entries = r_payload <$> (entry_rec <$> entries).
Proof. unfold payloads. rewrite <- list_fmap_compose. done. Qed.

Lemma entries_of_sorted pg ss :
  StronglySorted slot_leP ss -> StronglySorted entry_leP (entries_of pg ss).
Proof.
  intros Hs. apply StronglySorted_lookup_2. intros i j a b Hij Ha Hb. unfold entries_of in *.
  apply list_lookup_fmap_Some in Ha as (x & -> & Hx), Hb as (y & -> & Hy).
  exact (StronglySorted_lookup _ _ _ _ _ _ Hs Hij Hx Hy).
Qed.

Lemma materialize_entries_view pg h ss ss0 (R : page_rep pg h ss) :
  ss0 ⊆ ss -> materialize_entries ss0 pg = Ok (entries_of pg ss0).
Proof.
  intros Hsub. pose proof (pv_header _ _ _ (pr_view _ _ _ R)) as HV.
  unfold materialize_entries. rewrite (try_new_view _ _ HV). cbn [mbind res_bind].
  pose proof (rep_first_free_bound _ _ _ R). pose proof (zlen_nonneg ss).
  pose proof (hv_len _ _ HV).
  induction ss0 as [| s ss0 IH]; [done |]. cbn [mapM].
  assert (s ∈ ss) as Hs by (apply Hsub; left). apply list_elem_of_lookup in Hs as [i Hi].
  pose proof (rep_record_range _ _ _ R i s Hi).
  rewrite slice_ok by plia. rewrite Z.add_simpl_l. cbn [mbind res_bind].
  rewrite IH; [done |]. intros x Hx. apply Hsub. by right.
Qed.

Lemma records_sizes pg h ss (R : page_rep pg h ss) :
  zlen <$> (r_payload <$> records pg ss) = sl_size <$> ss.
Proof.
  unfold records. rewrite <- !list_fmap_compose. apply list_fmap_ext. intros i s Hs.
  pose proof (rep_record_range _ _ _ R i s Hs). pose proof (rep_first_free_bound _ _ _ R).
  pose proof (zlen_nonneg ss). pose proof (hv_len _ _ (pv_header _ _ _ (pr_view _ _ _ R))).
  cbn. rewrite zlen_zsub; plia.
Qed.

Lemma delete_fits pg h rs i :
  page_holds pg h rs -> (i < length rs)%nat -> pack_fits (r_payload <$> delete i rs) = true.
Proof.
  intros (ss & R & ->) Hi. pose proof (records_sizes _ _ _ R) as Hsz.
  assert (length (records pg ss) = length ss) as Hlen by (unfold records; by rewrite length_fmap).
  destruct (lookup_lt_is_Some_2 ss i) as [s Hs]; [lia |].
  pose proof (rep_record_range _ _ _ R i s Hs) as (_ & Hs0 & _).
  pose proof (pr_space _ _ _ R) as Hspace. pose proof (rep_first_free_bound _ _ _ R).
  pose proof (pr_first _ _ _ R).
  pose proof (align_up_spec (ph_first_free_offset h) ltac:(plia)) as [? _].
  pose proof (align_up_spec (sl_size s) Hs0) as [? _].
  rewrite (padded_sum_delete i (sl_size s)) in Hspace by (by rewrite list_lookup_fmap, Hs).
  unfold pack_fits. apply Z.leb_le.
  set (ps := r_payload <$> delete i (records pg ss)).
  assert (zlen ps = zlen ss - 1) as Hps.
  { unfold ps, zlen. rewrite length_fmap, length_delete by (apply lookup_lt_is_Some_2; lia). lia. }
  pose proof (packed_end_padded ps PAGE_HEADER_SIZE ltac:(plia)) as [Hle Hpad].
  assert (zlen <$> ps = delete i (sl_size <$> ss)) as Hd
    by (unfold ps; rewrite !list_fmap_delete; by rewrite Hsz).
  rewrite Hd in Hpad. change (align_up PAGE_HEADER_SIZE RECORD_ALIGN) with PAGE_HEADER_SIZE in Hpad.
  rewrite Hps. plia.
Qed.

(** Rebuilding from some of the page's slots in order keeps their records. *)
Lemma compact_with_slots_ok pg h ss ss0 (R : page_rep pg h ss) :
  ss0 ⊆ ss -> StronglySorted slot_leP ss0 ->
  pack_fits (r_payload <$> records pg ss0) = true ->
  exists pg' last,
    compact_with_slots ss0 pg = (Ok tt, pg') /\
    page_holds pg' (rebuilt_header h (r_payload <$> records pg ss0) last) (records pg ss0).
Proof.
  intros Hsub Hsort Hfit. pose proof (pv_header _ _ _ (pr_view _ _ _ R)) as HV.
  pose proof (sort_stable_id entry_le (entries_of pg ss0) (entries_of_sorted pg ss0 Hsort)) as Hid.
  destruct (rebuild_from_entries_ok pg h (entries_of pg ss0)) as (pg' & last & E & Hh).
  - done.
  - unfold entries_of. apply Forall_fmap, Forall_forall. intros s Hs. cbn.
    apply Hsub, list_elem_of_lookup in Hs as [i Hi]. by destruct (rep_slot _ _ _ R i s Hi).
  - by rewrite Hid, payloads_recs, entries_of_recs.
  - rewrite Hid, payloads_recs, entries_of_recs in Hh. exists pg', last. split; [| exact Hh].
    unfold compact_with_slots.
    st_step by (eapply st_reads_ok, materialize_entries_view; [exact R | exact Hsub]). exact E.
Qed.

Lemma records_delete pg i ss : records pg (delete i ss) = delete i (records pg ss).
Proof. unfold records. by rewrite list_fmap_delete. Qed.

Lemma delete_record_holds pg h rs i :
  page_holds pg h rs -> (i < length rs)%nat ->
  exists pg' last,
    delete_record (Z.of_nat i) pg = (Ok tt, pg') /\
    page_holds pg' (rebuilt_header h (r_payload <$> delete i rs) last) (delete i rs).
Proof.
  intros Hh Hi. pose proof (delete_fits _ _ _ _ Hh Hi) as Hfit. destruct Hh as (ss & R & ->).
  rewrite <- records_delete in *. unfold records in Hi. rewrite length_fmap in Hi.
  destruct (compact_with_slots_ok pg h ss (delete i ss) R) as (pg' & last & E & Hh).
  - apply sublist_subseteq, sublist_delete.
  - apply StronglySorted_delete, R.
  - done.
  - exists pg', last. split; [| done]. unfold delete_record.
    pose proof (pv_header _ _ _ (pr_view _ _ _ R)) as HV.
    st_step by (by apply st_reads_ok, (check_page_len_mut_view _ _ HV)).
    st_step by (apply st_reads_ok, (read_all_slots_view _ _ _ (pr_view _ _ _ R))).
    rewrite (proj2 (Z.leb_gt _ _)) by (unfold zlen; lia). by rewrite Nat2Z.id.
Qed.

Lemma compact_holds pg h rs :
  page_holds pg h rs -> pack_fits (r_payload <$> rs) = true ->
  exists pg' last,
    compact pg = (Ok tt, pg') /\ page_holds pg' (rebuilt_header h (r_payload <$> rs) last) rs.
Proof.
  intros (ss & R & ->) Hfit.
  destruct (compact_with_slots_ok pg h ss ss R) as (pg' & last & E & Hh);
    [done | apply R | done |].
  exists pg', last. split; [| done]. unfold compact.
  st_step by (apply st_reads_ok, (read_all_slots_view _ _ _ (pr_view _ _ _ R))). exact E.
Qed.

Lemma compact_full pg h rs :
  page_holds pg h rs -> pack_fits (r_payload <$> rs) = false ->
  exists pg', compact pg = (Err InsufficientBufferSpace, pg') /\ header pg' = Ok h /\
    record_bytes pg' 0 = Err Decode /\ validate_layout pg' <> Ok tt.
Proof.
  intros (ss & R & ->) Hfit. pose proof (pr_view _ _ _ R) as V. pose proof (pv_header _ _ _ V) as HV.
  pose proof (sort_stable_id entry_le (entries_of pg ss) (entries_of_sorted pg ss ltac:(apply R))) as Hid.
  destruct (rebuild_from_entries_full pg h (entries_of pg ss) HV) as (pg' & E & HV' & Hz).
  { by rewrite Hid, payloads_recs, entries_of_recs. }
  assert (0 < zlen ss) as Hpos.
  { destruct ss; [by vm_compute in Hfit |]. rewrite zlen_cons. pose proof (zlen_nonneg ss). lia. }
  destruct (wiped_page pg' h HV') as [Hr Hv]; [by rewrite (pv_count _ _ _ V) | rewrite (pv_count _ _ _ V); apply V | done |].
  exists pg'. split_and!; [| by apply header_view_decode | done | done]. unfold compact.
  st_step by (apply st_reads_ok, (read_all_slots_view _ _ _ V)). unfold compact_with_slots.
  by st_step by (eapply st_reads_ok, materialize_entries_view; [exact R | done]).
Qed.

(** The slot [update_record] sorts the new record with. *)
Definition unplaced_slot (timestamp tuple_id : Z) (payload : list byte) : RecordSlot :=
  new_slot 0 timestamp tuple_id payload.

Lemma slot_le_unplaced s ts id payload :
  0 < sl_offset s ->
  slot_le s (unplaced_slot ts id payload) = true <->
  (sl_timestamp s < ts \/ sl_timestamp s = ts /\ sl_tuple_id s < id).
Proof.
  intros Ho. change (slot_le s (unplaced_slot ts id payload) = true)
    with (slot_leP s (unplaced_slot ts id payload)). rewrite slot_le_spec. cbn. lia.
Qed.

Lemma position_eq_insert_at x k l :
  (k <= length l)%nat -> Forall (fun y => cmp_key y x <> Eq) l -> cmp_key x x = Eq ->
  position_eq x (insert_at k x l) = Some (Z.of_nat k).
Proof.
  intros Hk HF Hx. revert k Hk. induction HF as [| y l Hy HF IH]; intros [| k] Hk; cbn in *;
    try lia; try by rewrite Hx.
  unfold insert_at in IH. rewrite IH by lia. destruct (cmp_key y x); cbn; [done | |];
    f_equal; lia.
Qed.

Lemma cmp_key_refl x : cmp_key x x = Eq.
Proof. unfold cmp_key. by rewrite !Z.compare_refl. Qed.

Lemma cmp_key_eq_offset a b : cmp_key a b = Eq -> sl_offset a = sl_offset b.
Proof.
  unfold cmp_key, then_with. destruct (_ ?= _); [| done | done].
  destruct (_ ?= _); [| done | done]. apply Z.compare_eq.
Qed.

(** Sorting the remaining entries with the new one puts it at the
    position of its key. *)
Lemma update_entries_sorted pg h ss (R : page_rep pg h ss) i ts id payload :
  let ss0 := delete i ss in
  let entry := (unplaced_slot ts id payload, payload) in
  let k := spec_position (mkRec ts id payload) (records pg ss0) in
  (k <= length ss0)%nat /\
  sort_stable entry_le (entries_of pg ss0 ++ [entry]) = insert_at k entry (entries_of pg ss0).
Proof.
  intros ss0 entry k.
  assert (StronglySorted entry_leP (entries_of pg ss0)) as Hsort
    by (apply entries_of_sorted, StronglySorted_delete, R).
  destruct (sort_stable_snoc entry_le _ (entries_of pg ss0) entry Hsort)
    as (m & Hm & Em & Hlo & Hhi).
  assert (length (entries_of pg ss0) = length ss0) as Hlen
    by (unfold entries_of; by rewrite length_fmap).
  enough (k = m) as -> by (split; [lia | done]).
  assert (forall j s, ss0 !! j = Some s -> 0 < sl_offset s) as Hpos.
  { intros j s Hs. apply list_elem_of_lookup_2, (sublist_subseteq _ _ (sublist_delete ss i)) in Hs.
    apply list_elem_of_lookup in Hs as [j' Hj']. pose proof (rep_record_range _ _ _ R j' s Hj').
    plia. }
  unfold k. apply spec_position_unique.
  { unfold records. rewrite length_fmap. lia. }
  all: intros j x Hj Hx; unfold records in Hx;
    apply list_lookup_fmap_Some in Hx as (s & -> & Hs);
    pose proof (slot_le_unplaced s ts id payload (Hpos j s Hs)) as Hle;
    unfold key_lt; cbn.
  - apply Hle. apply (Hlo j (s, pg.[sl_offset s, sl_size s]) Hj).
    unfold entries_of. by rewrite list_lookup_fmap, Hs.
  - rewrite <- Hle. intros E. specialize (Hhi j (s, pg.[sl_offset s, sl_size s]) Hj).
    unfold entries_of in Hhi. rewrite list_lookup_fmap, Hs in Hhi.
    specialize (Hhi eq_refl). unfold entry_le in Hhi. cbn in Hhi. unfold slot_le in E. congruence.
Qed.

Lemma entries_insert_at k e entries :
  entry_rec <$> insert_at k e entries = insert_at k (entry_rec e) (entry_rec <$> entries).
Proof. unfold insert_at. by rewrite fmap_app, fmap_cons, fmap_take, fmap_drop. Qed.

Lemma update_record_steps pg h ss (R : page_rep pg h ss) i ts id payload :
  (i < length ss)%nat -> zlen payload <= U32_MAX ->
  let ss0 := delete i ss in
  let entry := (unplaced_slot ts id payload, payload) in
  let k := spec_position (mkRec ts id payload) (records pg ss0) in
  update_record (Z.of_nat i) ts id payload pg =
    (rebuild_from_entries (entries_of pg ss0 ++ [entry]) ;; mret (Z.of_nat k)) pg.
Proof.
  intros Hi Hp ss0 entry k. pose proof (pv_header _ _ _ (pr_view _ _ _ R)) as HV.
  pose proof (zlen_nonneg payload).
  pose proof (update_entries_sorted pg h ss R i ts id payload) as [Hk Hsort].
  fold ss0 entry k in Hk, Hsort. unfold update_record.
  st_step by (by apply st_reads_ok, (check_page_len_mut_view _ _ HV)).
  st_step by (apply st_reads_ok, (read_all_slots_view _ _ _ (pr_view _ _ _ R))).
  rewrite (proj2 (Z.leb_gt _ _)) by (unfold zlen; lia). rewrite Nat2Z.id.
  rewrite as_u32_small by (unfold_bounds; lia).
  change (set_check_sum _ _) with (unplaced_slot ts id payload).
  st_step by (eapply st_reads_ok, materialize_entries_view;
              [exact R | apply sublist_subseteq, sublist_delete]).
  fold ss0 entry.
  rewrite (sort_stable_fmap fst entry_le slot_le) by done.
  rewrite Hsort.
  assert (fst <$> insert_at k entry (entries_of pg ss0)
          = insert_at k (unplaced_slot ts id payload) ss0) as ->.
  { unfold insert_at, entries_of. rewrite fmap_app, fmap_cons, fmap_take, fmap_drop.
    rewrite <- list_fmap_compose. cbn. by rewrite list_fmap_id. }
  rewrite position_eq_insert_at; [done | done | | apply cmp_key_refl].
  apply Forall_forall. intros s Hs E. apply cmp_key_eq_offset in E. cbn in E.
  apply (sublist_subseteq _ _ (sublist_delete ss i)), list_elem_of_lookup in Hs as [j Hj].
  pose proof (rep_record_range _ _ _ R j s Hj). plia.
Qed.

(** The records after an update, in key order. *)
Lemma update_records pg h ss (R : page_rep pg h ss) i ts id payload :
  let r := mkRec ts id payload in
  entry_rec <$> sort_stable entry_le
    (entries_of pg (delete i ss) ++ [(unplaced_slot ts id payload, payload)])
  = spec_update i r (records pg ss).
Proof.
  intros r. destruct (update_entries_sorted pg h ss R i ts id payload) as [_ ->].
  rewrite entries_insert_at, entries_of_recs. unfold spec_update.
  rewrite spec_insert_split, <- records_delete. done.
Qed.

Lemma update_record_holds pg h rs i ts id payload :
  page_holds pg h rs -> (i < length rs)%nat -> in_u64 ts -> in_u64 id ->
  let rs' := spec_update i (mkRec ts id payload) rs in
  pack_fits (r_payload <$> rs') = true ->
  exists pg' last,
    update_record (Z.of_nat i) ts id payload pg =
      (Ok (Z.of_nat (spec_position (mkRec ts id payload) (delete i rs))), pg') /\
    page_holds pg' (rebuilt_header h (r_payload <$> rs') last) rs'.
Proof.
  intros (ss & R & ->) Hi Hts Hid rs' Hfit. unfold records in Hi. rewrite length_fmap in Hi.
  pose proof (pv_header _ _ _ (pr_view _ _ _ R)) as HV.
  pose proof (update_records pg h ss R i ts id payload) as Hrec. cbv zeta in Hrec. fold rs' in Hrec.
  assert (zlen payload <= U32_MAX) as Hp.
  { pose proof (packed_end_mem payload (r_payload <$> rs') PAGE_HEADER_SIZE) as Hm.
    unfold pack_fits in Hfit. apply Z.leb_le in Hfit.
    pose proof (zlen_nonneg (r_payload <$> rs')).
    assert (payload ∈ r_payload <$> rs') as Hin.
    { apply list_elem_of_fmap. exists (mkRec ts id payload). split; [done |].
      unfold rs', spec_update. rewrite spec_insert_perm. left. }
    specialize (Hm ltac:(plia) Hin). unfold_bounds. plia. }
  rewrite (update_record_steps pg h ss R i ts id payload Hi Hp), <- records_delete.
  set (entries := entries_of pg (delete i ss) ++ _) in *.
  destruct (rebuild_from_entries_ok pg h entries) as (pg' & last & E & Hh).
  - done.
  - apply Forall_app. split; [| apply Forall_singleton; cbn; split; cbn; try done;
      [by pose proof (zlen_nonneg payload); split; lia | apply crc16_range]].
    unfold entries_of. apply Forall_fmap, Forall_forall. intros s Hs. cbn.
    apply (sublist_subseteq _ _ (sublist_delete ss i)), list_elem_of_lookup in Hs as [j Hj].
    by destruct (rep_slot _ _ _ R j s Hj).
  - by rewrite payloads_recs, Hrec.
  - rewrite payloads_recs, Hrec in Hh. exists pg', last. split; [| exact Hh].
    rewrite (st_bind_ok _ _ _ _ _ E). done.
Qed.

Lemma update_record_full pg h rs i ts id payload :
  page_holds pg h rs -> (i < length rs)%nat -> zlen payload <= U32_MAX ->
  pack_fits (r_payload <$> spec_update i (mkRec ts id payload) rs) = false ->
  exists pg', update_record (Z.of_nat i) ts id payload pg = (Err InsufficientBufferSpace, pg').
Proof.
  intros (ss & R & ->) Hi Hp Hfit. unfold records in Hi. rewrite length_fmap in Hi.
  rewrite (update_record_steps pg h ss R i ts id payload Hi Hp).
  destruct (rebuild_from_entries_full pg h
    (entries_of pg (delete i ss) ++ [(unplaced_slot ts id payload, payload)])) as (pg' & E & _).
  - apply R.
  - by rewrite payloads_recs, (update_records pg h ss R).
  - exists pg'. by apply st_bind_err.
Qed.

End rebuild.
