(* ===== verification/PageImage.v ===== *)
(** * Page images of a time-series file

    [time_series_file/page.rs] (building, stamping and sealing page images)
    and the record type of [time_series_file.rs]. *)

From S2P Require Import Prelude Errors Compat PageFormat PageBlock RecordSpec PageView PageInsert.
From S2P Require Import PageRebuild.

Record TimeSeriesRecord := mkTimeSeriesRecord {
  ts_timestamp : Z;
  ts_tuple_id : Z;
  ts_payload : list byte;
  ts_page_id : Z;
  ts_slot_index : Z;
}.

Section page_image.
Context `{Packages}.

(** Runs a method on a local buffer and returns the buffer. *)
Definition on_buffer {E A} (m : ST E (list byte) A) (buf : list byte) : Res E (list byte) :=
  match m buf with
  | (Ok _, buf') => Ok buf'
  | (Err e, _) => Err e
  | (Panic, _) => Panic
  end.

Definition finalize_page_image_checksum : ST ErrorCode (list byte) unit :=
  refresh_tailer_checksum.

Definition stamp_page_image_lsn (lsn : Z) : ST ErrorCode (list byte) unit :=
  h ← st_reads header;
  on_slice 0 PAGE_HEADER_SIZE (PageHeader_encode (set_lsn lsn h)).

Definition page_image_checksum_valid (image : list byte) : RS bool :=
  t ← tailer image;
  lsn ← header_lsn image;
  Ok ((pt_lsn t =? lsn) && is_ok (validate_checksum image t)).

Definition empty_page_image (page_id tuple_format_version tuple_schema_hash tuple_flags : Z)
    : RS (list byte) :=
  on_buffer (init_empty_with_tuple_meta page_id tuple_format_version tuple_schema_hash tuple_flags)
    (zeros PAGE_SIZE).

Definition insert_entry (entry : TimeSeriesRecord) : ST ErrorCode (list byte) unit :=
  _ ← insert_record (ts_timestamp entry) (ts_tuple_id entry) (ts_payload entry);
  mret tt.

Definition build_entries_page_image
    (page_id prev_page_id next_page_id : Z) (entries : list TimeSeriesRecord)
    (tuple_format_version tuple_schema_hash tuple_flags : Z) : RS (list byte) :=
  page_buf ← empty_page_image page_id tuple_format_version tuple_schema_hash tuple_flags;
  page_buf ← on_buffer (set_page_links prev_page_id next_page_id) page_buf;
  on_buffer (st_iter insert_entry entries) page_buf.

(** The [for] loop of [page_entries_fit]: any error means [false]. *)
Definition page_entries_fit (entries : list TimeSeriesRecord) : bool :=
  match init_empty 0 (zeros PAGE_SIZE) with
  | (Ok _, buf) => is_ok (st_iter insert_entry entries buf).1
  | _ => false
  end.

End page_image.

(** ** Facts *)

(** Headers of the same page: everything but the layout fields and the LSN. *)
Record same_meta (h h' : PageHeader) : Prop := mk_same_meta {
  sm_page_id : ph_page_id h' = ph_page_id h;
  sm_prev : ph_prev_page h' = ph_prev_page h;
  sm_next : ph_next_page h' = ph_next_page h;
  sm_flags : ph_flags h' = ph_flags h;
  sm_format : ph_tuple_format_version h' = ph_tuple_format_version h;
  sm_hash : ph_tuple_schema_hash h' = ph_tuple_schema_hash h;
  sm_tflags : ph_tuple_flags h' = ph_tuple_flags h;
}.

#[export] Instance same_meta_refl : Reflexive same_meta.
Proof. by constructor. Qed.

#[export] Instance same_meta_trans : Transitive same_meta.
Proof. intros a b c [] []. constructor; congruence. Qed.

Lemma resized_same_meta h count first_free last :
  same_meta h (resized_header h count first_free last).
Proof. by constructor. Qed.

Lemma set_lsn_same_meta h lsn : same_meta h (set_lsn lsn h).
Proof. by constructor. Qed.

#[export] Hint Resolve resized_same_meta set_lsn_same_meta : core.

Definition entry_of (e : TimeSeriesRecord) : Rec :=
  mkRec (ts_timestamp e) (ts_tuple_id e) (ts_payload e).

Definition entry_in_range (e : TimeSeriesRecord) : Prop :=
  in_u64 (ts_timestamp e) /\ in_u64 (ts_tuple_id e).

Lemma on_buffer_ok {E A} (m : ST E (list byte) A) buf a buf' :
  m buf = (Ok a, buf') -> on_buffer m buf = Ok buf'.
Proof. unfold on_buffer. by intros ->. Qed.

Lemma on_buffer_err {E A} (m : ST E (list byte) A) buf e buf' :
  m buf = (Err e, buf') -> on_buffer m buf = Err e.
Proof. unfold on_buffer. by intros ->. Qed.

Section page_image_facts.
Context `{PackagesOk}.

Lemma page_holds_header pg h rs : page_holds pg h rs -> header_view pg h.
Proof. intros (ss & R & _). apply R. Qed.

Lemma empty_page_image_ok page_id format hash flags :
  in_u64 page_id -> in_u32 format -> in_u64 hash -> in_u64 flags ->
  exists pg, empty_page_image page_id format hash flags = Ok pg /\
    page_holds pg (empty_header page_id format hash flags) [].
Proof.
  intros. destruct (init_empty_with_tuple_meta_ok page_id format hash flags (zeros PAGE_SIZE))
    as (pg & E & R); [rewrite zlen_zeros; plia | done | done | done | done |].
  exists pg. split; [unfold empty_page_image; exact (on_buffer_ok _ _ _ _ E) | exists []; split; [exact R | reflexivity]].
Qed.

Lemma set_page_links_holds prev next pg h rs :
  page_holds pg h rs -> in_u64 prev -> in_u64 next ->
  exists pg', set_page_links prev next pg = (Ok tt, pg') /\
    page_holds pg' (linked_header prev next h) rs.
Proof.
  intros (ss & R & ->) Hp Hn.
  destruct (set_page_links_ok prev next pg h ss R Hp Hn) as (pg' & E & R' & Hr).
  exists pg'. split; [done |]. by exists ss.
Qed.

(** Whether [payload] fits or not decides the insertion, whatever the keys
    on the page. *)
Lemma insert_record_any pg h ss ts id payload :
  page_rep pg h ss -> in_u64 ts -> in_u64 id -> insert_fits h payload = true ->
  exists k pg' ss', insert_record ts id payload pg = (Ok k, pg') /\
    page_rep pg' (insert_header h payload) ss'.
Proof.
  intros R Hts Hid Hfit.
  destruct (insert_record_steps _ _ _ ts id payload R Hfit) as (k & Hk & Hlo & Hhi & E).
  destruct (inserted_rep _ _ _ ts id payload k R Hts Hid Hfit Hk Hlo Hhi) as [R' _].
  do 3 eexists. split; [exact E |]. unfold insert_header.
  rewrite (pv_count _ _ _ (pr_view _ _ _ R)). exact R'.
Qed.

Lemma insert_entry_ok e pg k pg' :
  insert_record (ts_timestamp e) (ts_tuple_id e) (ts_payload e) pg = (Ok k, pg') ->
  insert_entry e pg = (Ok tt, pg').
Proof. intros E. unfold insert_entry. by rewrite (st_bind_ok _ _ _ _ _ E). Qed.

(** The room for a sequence of payloads behind the data area of a page. *)
Definition entries_room (h : PageHeader) (ps : list (list byte)) : bool :=
  packed_end (ph_first_free_offset h) ps
    <=? tailer_offset - (ph_record_count h + zlen ps) * RECORD_SLOT_SIZE.

Lemma insert_header_room h p ps :
  PAGE_HEADER_SIZE <= ph_first_free_offset h ->
  entries_room h (p :: ps) = insert_fits h p && entries_room (insert_header h p) ps.
Proof.
  intros Hff. unfold entries_room, insert_fits, data_offset. cbn [packed_end].
  pose proof (align_up_spec (ph_first_free_offset h) ltac:(plia)).
  pose proof (zlen_nonneg p). pose proof (zlen_nonneg ps).
  pose proof (packed_end_ge ps (align_up (ph_first_free_offset h) RECORD_ALIGN + zlen p)
                ltac:(plia)).
  rewrite zlen_cons. cbn [insert_header resized_header set_free_bytes set_last_record_offset
    set_first_free_offset set_record_count set_lsn ph_first_free_offset ph_record_count].
  unfold data_offset.
  replace (ph_record_count h + 1 + zlen ps) with (ph_record_count h + (zlen ps + 1)) by lia.
  destruct (Z.leb_spec (packed_end (align_up (ph_first_free_offset h) RECORD_ALIGN + zlen p) ps)
              (tailer_offset - (ph_record_count h + (zlen ps + 1)) * RECORD_SLOT_SIZE));
    [| by rewrite andb_false_r].
  rewrite (proj2 (Z.leb_le _ _)); [done | plia].
Qed.

Lemma insert_entries_fit entries : forall pg h ss,
  page_rep pg h ss -> Forall entry_in_range entries ->
  is_ok (st_iter insert_entry entries pg).1 = entries_room h (ts_payload <$> entries).
Proof.
  induction entries as [| e entries IH]; intros pg h ss R HF.
  - cbn. unfold entries_room. cbn [packed_end]. symmetry. apply Z.leb_le.
    pose proof (rep_first_free_bound _ _ _ R). rewrite (pv_count _ _ _ (pr_view _ _ _ R)).
    change (zlen (@nil (list byte))) with 0. plia.
  - inversion HF as [| ? ? [Hts Hid] HF']; subst. rewrite fmap_cons.
    rewrite insert_header_room by apply R. cbn [st_iter].
    destruct (insert_fits h (ts_payload e)) eqn:Hfit; cbn [andb].
    + destruct (insert_record_any pg h ss _ _ _ R Hts Hid Hfit) as (k & pg' & ss' & E & R').
      erewrite st_bind_ok by (by eapply insert_entry_ok). by eapply IH.
    + erewrite st_bind_err; [done |]. unfold insert_entry. apply st_bind_err.
      by eapply insert_record_full.
Qed.

Lemma page_entries_fit_spec entries :
  Forall entry_in_range entries -> page_entries_fit entries = pack_fits (ts_payload <$> entries).
Proof.
  intros HF. destruct (init_empty_with_tuple_meta_ok 0 0 0 0 (zeros PAGE_SIZE))
    as (pg & E & R); [rewrite zlen_zeros; plia | mlia | mlia | mlia | mlia |].
  unfold page_entries_fit, init_empty. rewrite E.
  rewrite (insert_entries_fit entries pg _ _ R HF). unfold entries_room, pack_fits.
  cbn [empty_header ph_first_free_offset ph_record_count]. by rewrite Z.add_0_l.
Qed.

(** Inserting records with new and distinct keys. *)
Lemma insert_entries_holds entries : forall pg h rs,
  page_holds pg h rs -> keys_sorted rs -> Forall entry_in_range entries ->
  entries_room h (ts_payload <$> entries) = true ->
  NoDup (rec_key <$> (entry_of <$> entries) ++ rs) ->
  exists pg' h', st_iter insert_entry entries pg = (Ok tt, pg') /\
    page_holds pg' h' (insert_all rs (entry_of <$> entries)) /\
    same_meta h h' /\ ph_first_free_offset h' = packed_end (ph_first_free_offset h)
                        (ts_payload <$> entries).
Proof.
  induction entries as [| e entries IH]; intros pg h rs Hh Hs HF Hroom Hnd.
  - exists pg, h. by split_and!.
  - inversion HF as [| ? ? [Hts Hid] HF']; subst.
    rewrite !fmap_cons in *. cbn [app] in Hnd. rewrite fmap_cons in Hnd.
    apply NoDup_cons in Hnd as [Hnew Hnd].
    pose proof Hh as (ss & R & _).
    rewrite insert_header_room in Hroom by apply R. apply andb_prop in Hroom as [Hfit Hroom].
    assert (Forall (fun x => ~ has_key (ts_timestamp e) (ts_tuple_id e) x) rs) as Hfresh.
    { apply Forall_forall. intros x Hx [Ex1 Ex2]. apply Hnew. rewrite fmap_app.
      apply elem_of_app. right. apply list_elem_of_fmap. exists x. split; [| done].
      unfold rec_key. cbn. congruence. }
    destruct (insert_record_holds pg h rs _ _ (ts_payload e) Hh Hts Hid Hfit
                (proj2 (spec_find_none _ _ _) Hfresh)) as (pg' & E & Hh').
    destruct (IH pg' (insert_header h (ts_payload e)) (spec_insert (entry_of e) rs))
      as (pg'' & h'' & E' & Hh'' & Hm & Hff); [done | | done | done | |].
    + by apply spec_insert_sorted.
    + rewrite fmap_app. rewrite spec_insert_perm. rewrite fmap_cons, <- Permutation_middle.
      rewrite <- fmap_app. by apply NoDup_cons.
    + exists pg'', h''. split_and!; try done.
      * cbn [st_iter]. by erewrite st_bind_ok by (by eapply insert_entry_ok).
      * etrans; [apply resized_same_meta | exact Hm].
Qed.

Lemma stamp_holds lsn pg h rs :
  page_holds pg h rs -> in_u64 lsn ->
  exists pg', stamp_page_image_lsn lsn pg = (Ok tt, pg') /\ page_holds pg' (set_lsn lsn h) rs.
Proof.
  intros (ss & R & ->) Hl. pose proof (pv_header _ _ _ (pr_view _ _ _ R)) as HV.
  assert (header_ok (set_lsn lsn h)) as Hok by (destruct (hv_ok _ _ HV); by split).
  destruct (page_rep_set_header pg h (set_lsn lsn h) ss R Hok) as [R' Hr]; [done | done | done |].
  eexists. split; [| exists ss; by split].
  unfold stamp_page_image_lsn.
  st_step by (apply st_reads_ok, header_view_decode, HV). by apply write_header, HV.
Qed.

Lemma finalize_holds pg h rs :
  page_holds pg h rs ->
  finalize_page_image_checksum pg = (Ok tt, sealed h pg) /\
  page_holds (sealed h pg) h rs /\ validate_layout (sealed h pg) = Ok tt.
Proof.
  intros (ss & R & ->). split_and!.
  - apply refresh_tailer_checksum_view, R.
  - destruct (sealed_rep _ _ _ R) as [R' Hr]. exists ss. by split.
  - by eapply validate_layout_sealed.
Qed.

(** A page built from records in key order holds exactly these records. *)
Lemma build_entries_page_image_ok page_id prev next entries format hash flags :
  in_u64 page_id -> in_u64 prev -> in_u64 next ->
  in_u32 format -> in_u64 hash -> in_u64 flags ->
  Forall entry_in_range entries -> keys_sorted (entry_of <$> entries) ->
  pack_fits (ts_payload <$> entries) = true ->
  exists pg h,
    build_entries_page_image page_id prev next entries format hash flags = Ok pg /\
    page_holds pg h (entry_of <$> entries) /\
    same_meta (linked_header prev next (empty_header page_id format hash flags)) h /\
    ph_first_free_offset h = packed_end PAGE_HEADER_SIZE (ts_payload <$> entries).
Proof.
  intros Hid Hp Hn Hf Hh Hfl HF Hs Hfit.
  destruct (empty_page_image_ok page_id format hash flags) as (pg0 & E0 & H0); [done .. |].
  destruct (set_page_links_holds prev next pg0 _ _ H0 Hp Hn) as (pg1 & E1 & H1).
  destruct (insert_entries_holds entries pg1 _ _ H1) as (pg & h & E & Hpg & Hm & Hff).
  - constructor.
  - done.
  - rewrite <- Hfit. unfold entries_room, pack_fits.
    cbn [linked_header set_next_page set_prev_page set_lsn empty_header
      ph_first_free_offset ph_record_count]. by rewrite Z.add_0_l.
  - rewrite app_nil_r. by apply keys_sorted_NoDup.
  - rewrite insert_all_sorted in Hpg by done. exists pg, h. split_and!; [| done | done | done].
    unfold build_entries_page_image. rewrite E0. cbn [mbind res_bind].
    rewrite (on_buffer_ok _ _ _ _ E1). cbn [mbind res_bind]. by eapply on_buffer_ok.
Qed.

End page_image_facts.
