(* ===== verification/PageProperties.v ===== *)
(** * Properties of slotted pages

    A page is a finite map from keys (timestamp, tuple id) to payloads; the
    methods of [PageBlockRefMut] implement the updates of that map and the
    methods of [PageBlockRef] its lookups.  The last theorem shows the
    operation that loses records. *)

From S2P Require Import Prelude Errors Compat PageFormat PageBlock RecordSpec RecordMap PageView.
From S2P Require Import PageValidate PageInsert PageRebuild PageImage.

(** The lookup of a key on one page, as the readers of a page do it. *)
Definition page_get `{Packages} (pg : list byte) (ts id : Z) : RS (option (list byte)) :=
  i ← find_slot_index pg ts id;
  match i with
  | Some i => bs ← record_bytes pg i; Ok (Some bs)
  | None => Ok None
  end.

Section page_properties.
Context `{PackagesOk}.

(** The page header codec.  Encoding writes the fixed-size image of the
    header at the front of the buffer and nothing else, decoding that image
    gives the header back, and a buffer that decodes is the image of what it
    decodes to. *)
Theorem page_header_roundtrip h out :
  PAGE_HEADER_SIZE <= zlen out ->
  (header_ok h ->
   exists out', PageHeader_encode h out = (Ok tt, out') /\ PageHeader_decode out' = Ok h /\
     zlen out' = zlen out /\
     drop (Z.to_nat PAGE_HEADER_SIZE) out' = drop (Z.to_nat PAGE_HEADER_SIZE) out) /\
  (zlen out = PAGE_HEADER_SIZE -> PageHeader_decode out = Ok h ->
   header_ok h /\ PageHeader_encode h out = (Ok tt, out)).
Proof.
  intros Hl. split.
  - intros Hok. pose proof (hk_reserved _ Hok) as Hr. eexists.
    split; [by apply PageHeader_encode_ok |]. pose proof (header_bytes_length h Hr) as Hb.
    assert (zput 0 (header_bytes h) out = header_bytes h ++ drop (Z.to_nat PAGE_HEADER_SIZE) out) as ->.
    { unfold zput. change (Z.to_nat 0) with 0%nat. rewrite take_0. cbn [app Nat.add]. do 2 f_equal.
      unfold zlen in Hb. lia. }
    split; [by apply PageHeader_decode_bytes |]. split.
    + rewrite zlen_app, Hb. unfold zlen in *. rewrite length_drop. plia.
    + rewrite drop_app_ge by (unfold zlen in Hb; lia).
      replace (Z.to_nat PAGE_HEADER_SIZE - length (header_bytes h))%nat with 0%nat
        by (unfold zlen in Hb; lia). done.
  - intros Hz E. destruct (PageHeader_decode_inv out h Hz E) as [Hb Hok]. split; [done |].
    rewrite PageHeader_encode_ok by (try apply Hok; lia). rewrite Hb, zput_full; done.
Qed.

(** The record slot codec.  A slot is written as 32 bytes in place, both
    decoders (the owned [RecordSlot::decode] and the borrowed
    [RecordSlotRef]) give it back, and the borrowed view compares keys like
    the owned slot. *)
Theorem record_slot_roundtrip s out other :
  slot_ok s -> RECORD_SLOT_SIZE <= zlen out ->
  exists out', RecordSlot_encode s out = (Ok tt, out') /\ zlen out' = zlen out /\
    RecordSlot_decode out' = Ok s /\
    ref_to_owned (out'.[0, RECORD_SLOT_SIZE]) = s /\
    ref_cmp_key (out'.[0, RECORD_SLOT_SIZE]) other = cmp_key s other.
Proof.
  intros Hok Hl. pose proof (slot_bytes_length s) as Hb. eexists.
  split; [by apply RecordSlot_encode_ok |].
  assert ((zput 0 (slot_bytes s) out).[0, RECORD_SLOT_SIZE] = slot_bytes s) as Es
    by (apply zsub_zput_eq; lia).
  split; [apply zlen_zput; lia |]. rewrite Es, ref_cmp_key_owned, ref_to_owned_bytes by done.
  split_and!; [| done | done]. unfold zput. change (Z.to_nat 0) with 0%nat. rewrite take_0. cbn [app].
  by apply RecordSlot_decode_bytes.
Qed.

(** ** Lookups *)

Lemma page_get_map pg h rs ts id :
  page_holds pg h rs -> keys_sorted rs -> page_get pg ts id = Ok (to_map rs !! (ts, id)).
Proof.
  intros (ss & R & ->) Hsorted. unfold page_get. rewrite (find_slot_index_view _ _ _ R).
  cbn [mbind res_bind]. destruct (spec_find ts id (records pg ss)) as [i |] eqn:E.
  - destruct (spec_find_lookup _ _ _ _ E) as (r & Hi & Hr & Hk).
    unfold records in Hr. apply list_lookup_fmap_Some in Hr as (s & -> & Hs).
    rewrite <- (Z2Nat.id i), (record_bytes_view _ _ _ R _ s Hs) by lia. cbn [mbind res_bind].
    rewrite <- Hk. do 2 f_equal. symmetry. apply to_map_lookup; [done |].
    apply list_elem_of_lookup. exists (Z.to_nat i). unfold records. by rewrite list_lookup_fmap, Hs.
  - by rewrite spec_find_map.
Qed.

(** Lookups on a page.  On a page that holds records with distinct keys, a
    binary search for a key followed by a read of the record returns exactly
    the payload the record map has for the key; no lookup fails. *)
Theorem page_lookup_correct pg h rs ts id :
  page_holds pg h rs -> keys_sorted rs -> page_get pg ts id = Ok (to_map rs !! (ts, id)).
Proof. apply page_get_map. Qed.

(** ** Updates *)

(** C9: Insertion.  A record with a new key is inserted at its sorted position
    when the data area has room for it behind the last record, and the record
    map gains exactly that key; otherwise the page is left untouched and the
    caller gets [InsufficientBufferSpace]. *)
Theorem insert_record_correct pg h rs ts id payload :
  page_holds pg h rs -> keys_sorted rs -> in_u64 ts -> in_u64 id ->
  to_map rs !! (ts, id) = None ->
  if insert_fits h payload then
    exists i pg' h' rs', insert_record ts id payload pg = (Ok i, pg') /\
      page_holds pg' h' rs' /\ keys_sorted rs' /\
      to_map rs' = <[(ts, id) := payload]> (to_map rs) /\
      find_slot_index pg' ts id = Ok (Some i) /\ same_meta h h'
  else insert_record ts id payload pg = (Err InsufficientBufferSpace, pg).
Proof.
  intros Hp Hs Hts Hid Hnew.
  assert (spec_find ts id rs = None) as Hf.
  { destruct (spec_find ts id rs) as [i |] eqn:E; [| done].
    destruct (spec_find_lookup _ _ _ _ E) as (r & _ & Hr & Hk).
    rewrite <- Hk, (to_map_lookup r rs Hs) in Hnew by (by eapply list_elem_of_lookup_2). done. }
  destruct (insert_fits h payload) eqn:Hfit.
  - destruct (insert_record_holds _ _ _ _ _ _ Hp Hts Hid Hfit Hf) as (pg' & E & Hp').
    set (r := mkRec ts id payload) in *.
    eexists _, pg', _, (spec_insert r rs). split_and!; [exact E | exact Hp' | | | |].
    + by apply spec_insert_sorted, spec_find_none.
    + by apply (to_map_insert r).
    + destruct Hp' as (ss & R & Hrs). rewrite (find_slot_index_view _ _ _ R), <- Hrs.
      f_equal. by apply (spec_insert_find r), spec_find_none.
    + by split.
  - destruct Hp as (ss & R & _). by eapply insert_record_full.
Qed.

(** Deletion.  Deleting an existing record never fails: the remaining
    records always fit the rebuilt page, and the record map loses exactly the
    deleted key. *)
Theorem delete_record_correct pg h rs i r :
  page_holds pg h rs -> keys_sorted rs -> rs !! i = Some r ->
  exists pg' h' rs', delete_record (Z.of_nat i) pg = (Ok tt, pg') /\
    page_holds pg' h' rs' /\ keys_sorted rs' /\
    to_map rs' = delete (rec_key r) (to_map rs) /\ same_meta h h'.
Proof.
  intros Hp Hs Hi. pose proof (lookup_lt_Some _ _ _ Hi) as Hlt.
  destruct (delete_record_holds _ _ _ _ Hp Hlt) as (pg' & last & E & Hp').
  eexists pg', _, (delete i rs). split_and!; [exact E | exact Hp' | | | by split].
  - by apply StronglySorted_delete.
  - by apply to_map_delete.
Qed.

(** Update.  Replacing the record at an index by one with the same key
    succeeds exactly when the records, packed in key order from the start of
    the data area, fit the page; the record map then has the new payload. *)
Theorem update_record_correct pg h rs i r payload :
  page_holds pg h rs -> keys_sorted rs -> rs !! i = Some r -> zlen payload <= U32_MAX ->
  let r' := mkRec (r_ts r) (r_id r) payload in
  if pack_fits (r_payload <$> spec_update i r' rs) then
    exists k pg' h' rs', update_record (Z.of_nat i) (r_ts r) (r_id r) payload pg = (Ok k, pg') /\
      page_holds pg' h' rs' /\ keys_sorted rs' /\
      to_map rs' = <[rec_key r := payload]> (to_map rs) /\ same_meta h h'
  else exists pg',
    update_record (Z.of_nat i) (r_ts r) (r_id r) payload pg = (Err InsufficientBufferSpace, pg').
Proof.
  intros Hp Hs Hi Hlen r'. pose proof (lookup_lt_Some _ _ _ Hi) as Hlt.
  destruct (pack_fits (r_payload <$> spec_update i r' rs)) eqn:Hfit; [| by eapply update_record_full].
  assert (in_u64 (r_ts r) /\ in_u64 (r_id r)) as [Hts Hid].
  { destruct Hp as (ss & R & ->). unfold records in Hi.
    apply list_lookup_fmap_Some in Hi as (s & -> & Hss).
    destruct (view_slot_ok _ _ _ (pr_view _ _ _ R) _ _ Hss). done. }
  destruct (update_record_holds _ _ _ _ _ _ _ Hp Hlt Hts Hid Hfit) as (pg' & last & E & Hp').
  assert (Forall (fun x => ~ has_key (r_ts r) (r_id r) x) (delete i rs)) as Hnk.
  { apply keys_sorted_delete_fresh; [done | by rewrite Hi]. }
  eexists _, pg', _, (spec_update i r' rs). split_and!; [exact E | exact Hp' | | | by split].
  - apply spec_insert_sorted; [by apply StronglySorted_delete | done].
  - unfold spec_update. rewrite (to_map_insert r'), (to_map_delete rs i r) by
      (try done; try (by apply StronglySorted_delete); by apply spec_find_none).
    by rewrite insert_delete_eq.
Qed.

(** ** Persisting and validating *)

(** A finalized page validates.  Refreshing the tailer checksum of a page
    never fails, changes no record, and the result passes [validate_layout]
    and the checksum test used before a page image is reused. *)
Theorem finalized_page_valid pg h rs :
  page_holds pg h rs ->
  exists pg', finalize_page_image_checksum pg = (Ok tt, pg') /\ page_holds pg' h rs /\
    validate_layout pg' = Ok tt /\ page_image_checksum_valid pg' = Ok true.
Proof.
  intros Hp. destruct (finalize_holds _ _ _ Hp) as (E & Hp' & Hv). exists (sealed h pg).
  split_and!; try done. unfold page_image_checksum_valid.
  rewrite (sealed_tailer h pg (page_holds_header _ _ _ Hp)). cbn [mbind res_bind].
  rewrite (header_lsn_view _ _ (page_holds_header _ _ _ Hp')). cbn [mbind res_bind pt_lsn].
  rewrite Z.eqb_refl. unfold validate_checksum.
  pose proof (hv_len _ _ (page_holds_header _ _ _ Hp)) as Hl.
  rewrite checksum_for_page_ok by (rewrite sealed_len by done; plia). cbn [mbind res_bind pt_checksum].
  rewrite sealed_len by done. fold tailer_offset.
  rewrite sealed_agree by plia. by rewrite Z.eqb_refl.
Qed.

(** C27: Validation is sound.  A page-sized buffer that passes
    [validate_layout], whatever it came from, can be read without an error or
    a panic: the header decodes, every slot below the record count and its
    record bytes can be read and match their checksum, the slots are in key
    order, and a search for any key returns the first slot with that key. *)
Theorem validate_layout_sound pg :
  zlen pg = PAGE_SIZE -> validate_layout pg = Ok tt ->
  exists h ss, header pg = Ok h /\ slots pg = Ok ss /\ ph_record_count h = zlen ss /\
    StronglySorted slot_leP ss /\
    (forall i s, ss !! i = Some s -> exists bytes,
       record_bytes pg (Z.of_nat i) = Ok bytes /\ zlen bytes = sl_size s /\
       crc16 bytes = sl_checksum s) /\
    (forall ts id, find_slot_index pg ts id =
       Ok ((fun p => Z.of_nat p.1) <$>
           list_find (fun s => sl_timestamp s = ts /\ sl_tuple_id s = id) ss)).
Proof.
  intros Hl Hv. destruct (validate_layout_inv pg Hl Hv) as (h & ss & R & _).
  pose proof (ps_view _ _ _ R) as V. exists h, ss. split_and!.
  - apply header_view_decode, V.
  - by eapply slots_view.
  - apply V.
  - apply R.
  - intros i s Hi. destruct (scan_slot _ _ _ R i s Hi) as (? & ? & ? & ?).
    pose proof (zlen_nonneg ss). eexists. split; [by eapply record_bytes_scan |].
    pose proof (ps_valid _ _ _ R) as HF. eapply Forall_lookup_1 in HF; [| exact Hi]. split.
    + apply zlen_zsub; plia.
    + by rewrite (sv_crc _ _ _ HF).
  - intros ts id. rewrite (find_slot_index_scan _ _ _ R). f_equal. unfold spec_find, records.
    rewrite list_find_fmap. destruct (list_find _ ss) as [[n s] |] eqn:E; cbn; [| done]. done.
Qed.

(** The fit test of a page split.  [page_entries_fit] tries the insertions
    on a scratch page; its answer is the arithmetic condition that the
    payloads, aligned and packed in the given order, end below the slots. *)
Theorem page_entries_fit_correct entries :
  Forall entry_in_range entries -> page_entries_fit entries = pack_fits (ts_payload <$> entries).
Proof. apply page_entries_fit_spec. Qed.

(** Building a page.  Entries in key order that fit are built into a page
    image that holds exactly them, in that order, with the given identity,
    links and tuple metadata; finalizing it gives a valid page. *)
Theorem build_entries_correct page_id prev next entries format hash flags :
  in_u64 page_id -> in_u64 prev -> in_u64 next -> in_u32 format -> in_u64 hash -> in_u64 flags ->
  Forall entry_in_range entries -> keys_sorted (entry_of <$> entries) ->
  page_entries_fit entries = true ->
  exists pg pg' h,
    build_entries_page_image page_id prev next entries format hash flags = Ok pg /\
    finalize_page_image_checksum pg = (Ok tt, pg') /\
    page_holds pg' h (entry_of <$> entries) /\ validate_layout pg' = Ok tt /\
    ph_page_id h = page_id /\ ph_prev_page h = prev /\ ph_next_page h = next /\
    ph_tuple_format_version h = format /\ ph_tuple_schema_hash h = hash /\ ph_tuple_flags h = flags.
Proof.
  intros H1 H2 H3 H4 H5 H6 H7 H8 H9. rewrite page_entries_fit_spec in H9 by done.
  destruct (build_entries_page_image_ok page_id prev next entries format hash flags)
    as (pg & h & E & Hp & Hm & _); try assumption.
  destruct (finalize_holds _ _ _ Hp) as (Ef & Hp' & Hv). exists pg, (sealed h pg), h.
  destruct Hm as [M1 M2 M3 M4 M5 M6 M7].
  split_and!; [exact E | exact Ef | exact Hp' | exact Hv | exact M1 | exact M2 | exact M3
              | exact M5 | exact M6 | exact M7].
Qed.

(** C33: Compaction in both cases.  When the records of a page, packed in key
    order with their padding, fit in front of its slots, [compact] succeeds and
    the page holds the same records.  When they do not (records inserted out
    of key order can need less padding), [compact] returns
    [InsufficientBufferSpace], but only after it has cleared the page: the
    header still announces the records, the first one cannot be read any more,
    and the page no longer passes [validate_layout]. *)
Theorem compact_correct pg h rs :
  page_holds pg h rs ->
  if pack_fits (r_payload <$> rs) then
    exists pg' last, compact pg = (Ok tt, pg') /\ page_holds pg' (rebuilt_header h (r_payload <$> rs) last) rs
  else
    exists pg', compact pg = (Err InsufficientBufferSpace, pg') /\ header pg' = Ok h /\
      record_bytes pg' 0 = Err Decode /\ validate_layout pg' <> Ok tt.
Proof.
  intros Hh. destruct (pack_fits (r_payload <$> rs)) eqn:Hfit; [by apply compact_holds | by eapply compact_full].
Qed.

End page_properties.


(** ** Examples *)

Module Demo.
#[export] Existing Instance Reference.packages.
#[export] Existing Instance Reference.packages_ok.

Definition entry (ts id : Z) (payload : list byte) : TimeSeriesRecord :=
  mkTimeSeriesRecord ts id payload 0 0.

Definition build (es : list TimeSeriesRecord) : list byte :=
  match build_entries_page_image 3 2 4 es 1 77 0 with Ok pg => pg | _ => [] end.
Definition header_of (pg : list byte) : PageHeader :=
  match header pg with Ok h => h | _ => PageHeader_new 0 end.

Definition entries : list TimeSeriesRecord :=
  [entry 10 1 [x01; x02; x03]; entry 20 1 [x04]; entry 20 2 [x05; x06]].
Definition page : list byte := build entries.
Definition recs : list Rec := entry_of <$> entries.

Lemma build_holds es :
  Forall entry_in_range es -> keys_sorted (entry_of <$> es) ->
  pack_fits (ts_payload <$> es) = true ->
  page_holds (build es) (header_of (build es)) (entry_of <$> es) /\
  ph_page_id (header_of (build es)) = 3 /\ ph_lsn (header_of (build es)) <= U64_MAX /\
  ph_prev_page (header_of (build es)) = 2 /\ ph_next_page (header_of (build es)) = 4.
Proof.
  intros H1 H2 H3.
  assert (forall z, 0 <= z <= 100 -> in_u64 z /\ in_u32 z) as Hr by (intros; split; mlia).
  destruct (build_entries_page_image_ok 3 2 4 es 1 77 0) as (pg & h & E & Hh & [] & _);
    [apply Hr; lia | apply Hr; lia | apply Hr; lia | apply Hr; lia | apply Hr; lia | apply Hr; lia
    | exact H1 | exact H2 | exact H3 |].
  unfold build. rewrite E. unfold header_of.
  pose proof (page_holds_header _ _ _ Hh) as HV. rewrite (header_view_decode _ _ HV).
  split_and!; [exact Hh | assumption | apply (hk_lsn _ (hv_ok _ _ HV)) | assumption | assumption].
Qed.

Lemma entries_ok :
  Forall entry_in_range entries /\ keys_sorted recs /\ pack_fits (ts_payload <$> entries) = true.
Proof.
  split_and!; [repeat constructor; unfold_bounds; cbn; lia | | by vm_compute].
  repeat constructor; unfold key_lt; cbn; lia.
Qed.

Lemma page_ok : page_holds page (header_of page) recs.
Proof. destruct entries_ok as (H1 & H2 & H3). apply (build_holds entries H1 H2 H3). Qed.

Lemma recs_sorted : keys_sorted recs.
Proof. apply entries_ok. Qed.

End Demo.
Import Demo.

Lemma page_header_roundtrip_witness :
  (header_ok (header_of page) ->
   exists out', PageHeader_encode (header_of page) (zeros 200) = (Ok tt, out') /\
     PageHeader_decode out' = Ok (header_of page) /\ zlen out' = zlen (zeros 200) /\
     drop (Z.to_nat PAGE_HEADER_SIZE) out' = drop (Z.to_nat PAGE_HEADER_SIZE) (zeros 200)) /\
  (zlen (zeros 200) = PAGE_HEADER_SIZE -> PageHeader_decode (zeros 200) = Ok (header_of page) ->
   header_ok (header_of page) /\ PageHeader_encode (header_of page) (zeros 200) = (Ok tt, zeros 200)).
Proof. apply (page_header_roundtrip (header_of page) (zeros 200)). by vm_compute. Defined.

Lemma record_slot_roundtrip_witness : exists out',
  RecordSlot_encode (new_slot 128 10 1 [x01]) (zeros 40) = (Ok tt, out') /\ zlen out' = zlen (zeros 40) /\
  RecordSlot_decode out' = Ok (new_slot 128 10 1 [x01]) /\
  ref_to_owned (out'.[0, RECORD_SLOT_SIZE]) = new_slot 128 10 1 [x01] /\
  ref_cmp_key (out'.[0, RECORD_SLOT_SIZE]) (new_slot 128 10 2 []) =
    cmp_key (new_slot 128 10 1 [x01]) (new_slot 128 10 2 []).
Proof.
  apply record_slot_roundtrip; [split; vm_compute; split; congruence | by vm_compute].
Defined.

Lemma page_lookup_correct_witness : page_get page 20 2 = Ok (to_map recs !! (20, 2)).
Proof. exact (page_lookup_correct page (header_of page) recs 20 2 page_ok recs_sorted). Defined.

Lemma insert_record_correct_witness :
  if insert_fits (header_of page) [x07] then
    exists i pg' h' rs', insert_record 15 1 [x07] page = (Ok i, pg') /\
      page_holds pg' h' rs' /\ keys_sorted rs' /\
      to_map rs' = <[(15, 1) := [x07]]> (to_map recs) /\
      find_slot_index pg' 15 1 = Ok (Some i) /\ same_meta (header_of page) h'
  else insert_record 15 1 [x07] page = (Err InsufficientBufferSpace, page).
Proof.
  apply (insert_record_correct page (header_of page) recs 15 1 [x07]).
  - exact page_ok.
  - exact recs_sorted.
  - split; vm_compute; congruence.
  - split; vm_compute; congruence.
  - by vm_compute.
Defined.

Lemma delete_record_correct_witness : exists pg' h' rs',
  delete_record (Z.of_nat 1) page = (Ok tt, pg') /\ page_holds pg' h' rs' /\ keys_sorted rs' /\
  to_map rs' = delete (rec_key (mkRec 20 1 [x04])) (to_map recs) /\ same_meta (header_of page) h'.
Proof.
  apply (delete_record_correct page (header_of page) recs 1 (mkRec 20 1 [x04])).
  - exact page_ok.
  - exact recs_sorted.
  - reflexivity.
Defined.

Lemma update_record_correct_witness :
  let r' := mkRec 20 1 [x09; x09] in
  if pack_fits (r_payload <$> spec_update 1 r' recs) then
    exists k pg' h' rs', update_record (Z.of_nat 1) 20 1 [x09; x09] page = (Ok k, pg') /\
      page_holds pg' h' rs' /\ keys_sorted rs' /\
      to_map rs' = <[rec_key (mkRec 20 1 [x04]) := [x09; x09]]> (to_map recs) /\
      same_meta (header_of page) h'
  else exists pg',
    update_record (Z.of_nat 1) 20 1 [x09; x09] page = (Err InsufficientBufferSpace, pg').
Proof.
  apply (update_record_correct page (header_of page) recs 1 (mkRec 20 1 [x04]) [x09; x09]).
  - exact page_ok.
  - exact recs_sorted.
  - reflexivity.
  - vm_compute. congruence.
Defined.

Lemma finalized_page_valid_witness : exists pg',
  finalize_page_image_checksum page = (Ok tt, pg') /\ page_holds pg' (header_of page) recs /\
  validate_layout pg' = Ok tt /\ page_image_checksum_valid pg' = Ok true.
Proof. exact (finalized_page_valid page (header_of page) recs page_ok). Defined.

Definition sealed_page : list byte := (finalize_page_image_checksum page).2.

Lemma validate_layout_sound_witness : exists h ss,
  header sealed_page = Ok h /\ slots sealed_page = Ok ss /\ ph_record_count h = zlen ss /\
  StronglySorted slot_leP ss /\
  (forall i s, ss !! i = Some s -> exists bytes,
     record_bytes sealed_page (Z.of_nat i) = Ok bytes /\ zlen bytes = sl_size s /\
     crc16 bytes = sl_checksum s) /\
  (forall ts id, find_slot_index sealed_page ts id =
     Ok ((fun p => Z.of_nat p.1) <$>
         list_find (fun s => sl_timestamp s = ts /\ sl_tuple_id s = id) ss)).
Proof. apply validate_layout_sound; vm_compute; reflexivity. Defined.

Lemma page_entries_fit_correct_witness :
  page_entries_fit entries = pack_fits (ts_payload <$> entries).
Proof. apply page_entries_fit_correct, entries_ok. Defined.

Lemma build_entries_correct_witness : exists pg pg' h,
  build_entries_page_image 3 2 4 entries 1 77 0 = Ok pg /\
  finalize_page_image_checksum pg = (Ok tt, pg') /\
  page_holds pg' h (entry_of <$> entries) /\ validate_layout pg' = Ok tt /\
  ph_page_id h = 3 /\ ph_prev_page h = 2 /\ ph_next_page h = 4 /\
  ph_tuple_format_version h = 1 /\ ph_tuple_schema_hash h = 77 /\ ph_tuple_flags h = 0.
Proof.
  apply (build_entries_correct 3 2 4 entries 1 77 0); try (split; vm_compute; congruence).
  - apply entries_ok.
  - apply entries_ok.
Defined.

(** ** A full page that compaction destroys *)

(** Three records inserted out of key order that fill the page: in key order
    their padding does not fit. *)
Definition full_base : list TimeSeriesRecord := [entry 10 1 (zeros 8); entry 30 1 (zeros 8)].
Definition full_recs : list Rec := [mkRec 10 1 (zeros 8); mkRec 20 1 (zeros 3844); mkRec 30 1 (zeros 8)].
Definition full_page : list byte := (insert_record 20 1 (zeros 3844) (build full_base)).2.

Lemma full_holds : exists h, page_holds full_page h full_recs.
Proof.
  destruct (build_holds full_base) as [Hb _].
  - repeat constructor; unfold_bounds; cbn; lia.
  - repeat constructor; unfold key_lt; cbn; lia.
  - by vm_compute.
  - destruct (insert_record_holds _ _ _ 20 1 (zeros 3844) Hb) as (pg' & E & Hp);
      [split; vm_compute; congruence | split; vm_compute; congruence | by vm_compute | by vm_compute |].
    unfold full_page. rewrite E. eexists. exact Hp.
Qed.

Lemma compact_correct_witness : exists h, page_holds full_page h full_recs /\
  pack_fits (r_payload <$> full_recs) = false /\
  exists pg', compact full_page = (Err InsufficientBufferSpace, pg') /\ header pg' = Ok h /\
    record_bytes pg' 0 = Err Decode /\ validate_layout pg' <> Ok tt.
Proof.
  destruct full_holds as [h Hh]. exists h. assert (pack_fits (r_payload <$> full_recs) = false) as Hfit by (by vm_compute).
  pose proof (compact_correct full_page h full_recs Hh) as Hc. rewrite Hfit in Hc. split_and!; [exact Hh | exact Hfit | exact Hc].
Defined.
