(* ===== verification/PhysLog.v ===== *)
(** * Physical log: record-level page deltas and their replay

    [wal/pl_entry.rs] and [wal/pl_batch.rs] (the log types), the delta
    builders of [time_series_file/plan.rs] and the replay of
    [time_series_file/wal.rs].  A data file is its bytes. *)

From S2P Require Import Prelude Errors Compat FileOps PageFormat PageBlock RecordSpec PageView.
From S2P Require Import PageInsert PageRebuild PageImage.

(** [page_id.checked_mul(PAGE_SIZE)]. *)
Definition page_offset (page_id : Z) : RS Z :=
  if page_id * PAGE_SIZE <=? U64_MAX then Ok (page_id * PAGE_SIZE) else Err IndexOutOfRange.

(** ** Log types *)

Record PLFileId := mkPLFileId { fid_partition_id : Z; fid_table_id : Z; fid_file_index : Z }.

#[export] Instance pl_file_id_eq_dec : EqDecision PLFileId.
Proof. solve_decision. Defined.

Record PLPageInit := mkPLPageInit {
  in_prev_page : Z;
  in_next_page : Z;
  in_tuple_format_version : Z;
  in_tuple_schema_hash : Z;
  in_tuple_flags : Z;
}.

Record PLPageLinks := mkPLPageLinks { ln_prev_page : Z; ln_next_page : Z }.

Record PLRecordKey := mkPLRecordKey { rk_timestamp : Z; rk_tuple_id : Z }.

Record PLRecord := mkPLRecord { pl_timestamp : Z; pl_tuple_id : Z; pl_payload : list byte }.

Record PageDelta := mkPageDelta {
  pd_page_id : Z;
  pd_init : option PLPageInit;
  pd_links : option PLPageLinks;
  pd_removes : list PLRecordKey;
  pd_upserts : list PLRecord;
}.

Inductive PLOp := Create | Delete | PageDelta_ (delta : PageDelta).

Record PLEntry := mkPLEntry { pe_file : PLFileId; pe_ops : list PLOp }.

Record PLBatch := mkPLBatch { pb_entries : list PLEntry }.

(** ** Building deltas *)

Section deltas.
Context `{Packages}.

Definition page_record (page : list byte) (slot_index : Z) : RS PLRecord :=
  s ← slot_ref page slot_index;
  payload ← record_bytes page slot_index;
  Ok (mkPLRecord (ref_timestamp s) (ref_tuple_id s) payload).

Definition page_record_key (page : list byte) (slot_index : Z) : RS PLRecordKey :=
  s ← slot_ref page slot_index;
  Ok (mkPLRecordKey (ref_timestamp s) (ref_tuple_id s)).

Definition page_records (page : list byte) : RS (list PLRecord) :=
  count ← slot_count page;
  mapM (page_record page) (seqZ 0 count).

Definition page_init_delta (page_id : Z) (image : list byte) : RS PLOp :=
  h ← header image;
  upserts ← page_records image;
  Ok (PageDelta_ (mkPageDelta page_id
        (Some (mkPLPageInit (ph_prev_page h) (ph_next_page h) (ph_tuple_format_version h)
                 (ph_tuple_schema_hash h) (ph_tuple_flags h)))
        None [] upserts)).

(** [(u64, u64)] comparison of the record keys. *)
Definition key_compare (a b : Z * Z) : comparison :=
  then_with (a.1 ?= b.1) (a.2 ?= b.2).

(** The merge loop of [page_record_delta].  Each round advances an index, so
    [old_count + new_count] rounds are enough. *)
Fixpoint record_diff (fuel : nat) (old_page new_page : list byte)
    (old_count new_count old_idx new_idx : Z)
    (removes : list PLRecordKey) (upserts : list PLRecord)
    : RS (list PLRecordKey * list PLRecord) :=
  if (old_idx <? old_count) || (new_idx <? new_count) then
    match fuel with
    | O => Panic
    | S fuel =>
        let next := record_diff fuel old_page new_page old_count new_count in
        if old_count <=? old_idx then
          r ← page_record new_page new_idx;
          next old_idx (new_idx + 1) removes (upserts ++ [r])
        else if new_count <=? new_idx then
          k ← page_record_key old_page old_idx;
          next (old_idx + 1) new_idx (removes ++ [k]) upserts
        else
          old_slot ← slot_ref old_page old_idx;
          new_slot ← slot_ref new_page new_idx;
          let old_key := (ref_timestamp old_slot, ref_tuple_id old_slot) in
          let new_key := (ref_timestamp new_slot, ref_tuple_id new_slot) in
          match key_compare old_key new_key with
          | Eq =>
              old_bytes ← record_bytes old_page old_idx;
              new_bytes ← record_bytes new_page new_idx;
              if decide (old_bytes = new_bytes)
              then next (old_idx + 1) (new_idx + 1) removes upserts
              else
                r ← page_record new_page new_idx;
                next (old_idx + 1) (new_idx + 1) removes (upserts ++ [r])
          | Lt =>
              next (old_idx + 1) new_idx
                (removes ++ [mkPLRecordKey old_key.1 old_key.2]) upserts
          | Gt =>
              r ← page_record new_page new_idx;
              next old_idx (new_idx + 1) removes (upserts ++ [r])
          end
    end
  else Ok (removes, upserts).

Definition page_record_delta (page_id : Z) (old_image new_image : list byte)
    : RS (option PLOp) :=
  old_header ← header old_image;
  new_header ← header new_image;
  let links :=
    if negb (ph_prev_page old_header =? ph_prev_page new_header)
       || negb (ph_next_page old_header =? ph_next_page new_header)
    then Some (mkPLPageLinks (ph_prev_page new_header) (ph_next_page new_header))
    else None in
  old_count ← slot_count old_image;
  new_count ← slot_count new_image;
  diff ← record_diff (Z.to_nat (old_count + new_count)) old_image new_image
           old_count new_count 0 0 [] [];
  match links, diff with
  | None, ([], []) => Ok None
  | _, (removes, upserts) =>
      Ok (Some (PageDelta_ (mkPageDelta page_id None links removes upserts)))
  end.

End deltas.

(** ** Replay *)

Section replay.
Context `{Packages}.

Definition replay_remove (key : PLRecordKey) : ST ErrorCode (list byte) unit :=
  slot_index ← st_reads (fun image => find_slot_index image (rk_timestamp key) (rk_tuple_id key));
  match slot_index with
  | None => st_lift (Err Decode)
  | Some slot_index => delete_record slot_index
  end.

(** [Err(err) if err.ec() == InsufficientBufferSpace => compact and retry]. *)
Definition insert_or_compact (r : PLRecord) : ST ErrorCode (list byte) unit :=
  fun image =>
    match insert_record (pl_timestamp r) (pl_tuple_id r) (pl_payload r) image with
    | (Ok _, image) => (Ok tt, image)
    | (Err InsufficientBufferSpace, image) =>
        (compact ;;
         _ ← insert_record (pl_timestamp r) (pl_tuple_id r) (pl_payload r);
         mret tt) image
    | (Err e, image) => (Err e, image)
    | (Panic, image) => (Panic, image)
    end.

Definition replay_upsert (r : PLRecord) : ST ErrorCode (list byte) unit :=
  slot_index ← st_reads (fun image => find_slot_index image (pl_timestamp r) (pl_tuple_id r));
  match slot_index with
  | Some slot_index =>
      _ ← update_record slot_index (pl_timestamp r) (pl_tuple_id r) (pl_payload r);
      mret tt
  | None => insert_or_compact r
  end.

(** The image before the upserts. *)
Definition replay_base (delta : PageDelta) (page_present : bool) (disk_image : list byte)
    : RS (list byte) :=
  match pd_init delta with
  | Some init =>
      image ← empty_page_image (pd_page_id delta) (in_tuple_format_version init)
                (in_tuple_schema_hash init) (in_tuple_flags init);
      on_buffer (set_page_links (in_prev_page init) (in_next_page init)) image
  | None =>
      if negb page_present then Err Decode else
      image ← match pd_links delta with
              | Some links =>
                  on_buffer (set_page_links (ln_prev_page links) (ln_next_page links)) disk_image
              | None => Ok disk_image
              end;
      on_buffer (st_iter replay_remove (pd_removes delta)) image
  end.

Definition apply_recovered_page_delta (delta : PageDelta) (batch_lsn : Z)
    : ST ErrorCode (list byte) unit :=
  offset ← st_lift (page_offset (pd_page_id delta));
  len ← st_reads (fun file => Ok (file_len file));
  let page_present := offset + PAGE_SIZE <=? len in
  disk_image ← (if page_present
                then image ← st_reads (read_exact_at offset PAGE_SIZE);
                     st_lift (validate_layout image) ;; mret image
                else mret []);
  skip ← (if page_present
          then h ← st_lift (header disk_image); mret (batch_lsn <=? ph_lsn h)
          else mret false);
  if skip : bool then mret tt else
  image ← st_lift (replay_base delta page_present disk_image);
  image ← st_lift (on_buffer (st_iter replay_upsert (pd_upserts delta) ;;
                              stamp_page_image_lsn batch_lsn ;;
                              finalize_page_image_checksum) image);
  write_all_at offset image.

(** The data file as [apply_recovered_entry_async] sees it: [None] when the
    file does not exist. *)
Definition ensure_file (f : option (list byte)) : list byte := default [] f.

Definition apply_recovered_op (batch_lsn : Z) (op : PLOp)
    : ST ErrorCode (option (list byte)) unit :=
  fun f =>
    match op with
    | Create => (Ok tt, Some (ensure_file f))
    | Delete => (Ok tt, None)
    | PageDelta_ delta =>
        let '(r, file) := apply_recovered_page_delta delta batch_lsn (ensure_file f) in
        (r, Some file)
    end.

Definition apply_recovered_entry (entry : PLEntry) (batch_lsn : Z)
    : ST ErrorCode (option (list byte)) unit :=
  st_iter (apply_recovered_op batch_lsn) (pe_ops entry).

(** [RelationWalRecoveryHandler::handle_entry]. *)
Definition handle_entry (file_id : PLFileId) (batch : PLBatch) (start_lsn : Z)
    : ST ErrorCode (option (list byte)) unit :=
  st_iter (fun item =>
             if decide (pe_file item = file_id)
             then apply_recovered_entry item start_lsn else mret tt)
    (pb_entries batch).

End replay.
