(* ===== verification/Replay.v ===== *)
(** * Physical log: deltas and replay are correct

    [page_record_delta] computes [spec_diff] of the records of the two pages,
    and replaying a delta on the old page gives a page with the records, the
    chain links and the LSN of the new one. *)

From S2P Require Import Prelude Errors Compat FileOps PageFormat PageBlock RecordSpec RecordMap.
From S2P Require Import PageView PageInsert PageRebuild PageImage PhysLog.

Definition pl_of (r : Rec) : PLRecord := mkPLRecord (r_ts r) (r_id r) (r_payload r).
Definition rec_of_pl (r : PLRecord) : Rec :=
  mkRec (pl_timestamp r) (pl_tuple_id r) (pl_payload r).
Definition key_of_pl (k : PLRecordKey) : Z * Z := (rk_timestamp k, rk_tuple_id k).
Definition pl_key (k : Z * Z) : PLRecordKey := mkPLRecordKey k.1 k.2.

Lemma key_compare_spec a b :
  key_compare (rec_key a) (rec_key b) =
    if decide (rec_key a = rec_key b) then Eq
    else if decide (key_lt a b) then Lt else Gt.
Proof.
  unfold key_compare, rec_key, key_lt, then_with. cbn [fst snd].
  destruct (Z.compare_spec (r_ts a) (r_ts b)), (Z.compare_spec (r_id a) (r_id b));
    repeat case_decide; simplify_eq; try done; try lia; congruence.
Qed.

Section reads.
Context `{PackagesOk}.
Context (pg : list byte) (h : PageHeader) (rs : list Rec) (Hh : page_holds pg h rs).

Lemma slot_count_holds : slot_count pg = Ok (zlen rs).
Proof.
  destruct Hh as (ss & R & ->). rewrite (slot_count_view _ _ _ (pr_view _ _ _ R)).
  unfold records, zlen. by rewrite length_fmap.
Qed.

Lemma slot_ref_holds i r :
  rs !! i = Some r ->
  exists b, slot_ref pg (Z.of_nat i) = Ok b /\ ref_timestamp b = r_ts r /\ ref_tuple_id b = r_id r.
Proof.
  destruct Hh as (ss & R & ->). intros Hi. unfold records in Hi.
  apply list_lookup_fmap_Some in Hi as (s & -> & Hs).
  exists (slot_bytes s). split; [by apply (slot_ref_view _ _ _ (pr_view _ _ _ R)) |].
  apply ref_fields. by eapply (view_slot_ok _ _ _ (pr_view _ _ _ R)).
Qed.

Lemma record_bytes_holds i r :
  rs !! i = Some r -> record_bytes pg (Z.of_nat i) = Ok (r_payload r).
Proof.
  destruct Hh as (ss & R & ->). intros Hi. unfold records in Hi.
  apply list_lookup_fmap_Some in Hi as (s & -> & Hs). by apply (record_bytes_view _ _ _ R).
Qed.

Lemma page_record_holds i r :
  rs !! i = Some r -> page_record pg (Z.of_nat i) = Ok (pl_of r).
Proof.
  intros Hi. destruct (slot_ref_holds i r Hi) as (b & Hb & Ht & Hid).
  unfold page_record. rewrite Hb. cbn [mbind res_bind]. rewrite (record_bytes_holds i r Hi).
  cbn [mbind res_bind]. unfold pl_of. by rewrite Ht, Hid.
Qed.

Lemma page_record_key_holds i r :
  rs !! i = Some r -> page_record_key pg (Z.of_nat i) = Ok (pl_key (rec_key r)).
Proof.
  intros Hi. destruct (slot_ref_holds i r Hi) as (b & Hb & Ht & Hid).
  unfold page_record_key. rewrite Hb. cbn [mbind res_bind]. by rewrite Ht, Hid.
Qed.

Lemma page_records_holds : page_records pg = Ok (pl_of <$> rs).
Proof.
  unfold page_records. rewrite slot_count_holds. cbn [mbind res_bind].
  apply mapM_seqZ. intros i r Hi. by apply page_record_holds.
Qed.

Lemma find_slot_index_holds ts id : find_slot_index pg ts id = Ok (spec_find ts id rs).
Proof. destruct Hh as (ss & R & ->). by apply (find_slot_index_view _ _ _ R). Qed.

Lemma timestamp_bounds_holds :
  timestamp_bounds pg =
    Ok (match head rs, last rs with
        | Some a, Some b => Some (r_ts a, r_ts b)
        | _, _ => None
        end).
Proof.
  unfold timestamp_bounds. rewrite slot_count_holds. cbn [mbind res_bind].
  destruct (decide (rs = [])) as [-> | Hne]; [done |].
  assert (0 < length rs)%nat as Hpos by (destruct rs; [done | cbn; lia]).
  rewrite (proj2 (Z.eqb_neq _ _)) by (unfold zlen; lia).
  destruct (lookup_lt_is_Some_2 rs 0) as [a Ha]; [lia |].
  destruct (lookup_lt_is_Some_2 rs (length rs - 1)) as [b Hb]; [lia |].
  destruct (slot_ref_holds 0 a Ha) as (x & Hx & Hxt & _).
  destruct (slot_ref_holds _ b Hb) as (y & Hy & Hyt & _).
  change 0 with (Z.of_nat 0). rewrite Hx. cbn [mbind res_bind].
  replace (zlen rs - 1) with (Z.of_nat (length rs - 1)) by (unfold zlen; lia).
  rewrite Hy. cbn [mbind res_bind]. rewrite Hxt, Hyt.
  rewrite head_lookup, Ha, last_lookup. replace (pred (length rs)) with (length rs - 1)%nat by lia.
  by rewrite Hb.
Qed.

End reads.

(** ** The record diff *)

Section diff.
Context `{PackagesOk}.
Context (old_page new_page : list byte) (ho hn : PageHeader) (old new : list Rec).
Context (Hold : page_holds old_page ho old) (Hnew : page_holds new_page hn new).

Lemma record_diff_spec fuel : forall oi ni removes upserts,
  (oi <= length old)%nat -> (ni <= length new)%nat ->
  (length old - oi + (length new - ni) <= fuel)%nat ->
  record_diff fuel old_page new_page (zlen old) (zlen new) (Z.of_nat oi) (Z.of_nat ni)
    removes upserts =
  let d := spec_diff (drop oi old) (drop ni new) in
  Ok (removes ++ (pl_key <$> d.1), upserts ++ (pl_of <$> d.2)).
Proof.
  induction fuel as [| fuel IH]; intros oi ni removes upserts Ho Hn Hf.
  { cbn [record_diff]. rewrite !(proj2 (Z.ltb_ge _ _)) by (unfold zlen; lia). cbn [orb].
    rewrite !drop_ge by lia. cbn. by rewrite !app_nil_r. }
  cbn [record_diff]. cbv zeta.
  destruct (decide (oi = length old)) as [Eo | No].
  - destruct (decide (ni = length new)) as [En | Nn].
    { rewrite !(proj2 (Z.ltb_ge _ _)) by (unfold zlen; lia). cbn [orb].
      rewrite !drop_ge by lia. cbn. by rewrite !app_nil_r. }
    rewrite (proj2 (Z.ltb_lt (Z.of_nat ni) _)) by (unfold zlen; lia). rewrite orb_true_r.
    rewrite (proj2 (Z.leb_le _ _)) by (unfold zlen; lia).
    destruct (lookup_lt_is_Some_2 new ni) as [b Hb]; [lia |].
    rewrite (page_record_holds _ _ _ Hnew ni b Hb). cbn [mbind res_bind].
    replace (Z.of_nat ni + 1) with (Z.of_nat (S ni)) by lia.
    rewrite IH by lia. rewrite (drop_ge old) by lia. rewrite !spec_diff_nil_l. cbv zeta.
    rewrite (drop_S _ b ni) by done. cbn [fst snd]. rewrite fmap_cons, <- app_assoc. done.
  - rewrite (proj2 (Z.ltb_lt (Z.of_nat oi) _)) by (unfold zlen; lia). cbn [orb].
    rewrite (proj2 (Z.leb_gt (zlen old) _)) by (unfold zlen; lia).
    destruct (lookup_lt_is_Some_2 old oi) as [a Ha]; [lia |].
    rewrite (drop_S old a oi) by done.
    replace (Z.of_nat oi + 1) with (Z.of_nat (S oi)) by lia.
    destruct (decide (ni = length new)) as [En | Nn].
    { rewrite (proj2 (Z.leb_le _ _)) by (unfold zlen; lia).
      rewrite (page_record_key_holds _ _ _ Hold oi a Ha). cbn [mbind res_bind].
      rewrite IH by lia. rewrite !(drop_ge new) by lia. rewrite !spec_diff_nil_r. cbv zeta.
      cbn [fst snd]. rewrite !fmap_cons, <- app_assoc. done. }
    rewrite (proj2 (Z.leb_gt (zlen new) _)) by (unfold zlen; lia).
    destruct (lookup_lt_is_Some_2 new ni) as [b Hb]; [lia |].
    destruct (slot_ref_holds _ _ _ Hold oi a Ha) as (x & Hx & Hxt & Hxi).
    destruct (slot_ref_holds _ _ _ Hnew ni b Hb) as (y & Hy & Hyt & Hyi).
    rewrite Hx, Hy. cbn [mbind res_bind]. rewrite Hxt, Hxi, Hyt, Hyi.
    fold (rec_key a) (rec_key b). rewrite key_compare_spec.
    rewrite (drop_S new b ni) by done. rewrite spec_diff_cons. cbv zeta.
    replace (Z.of_nat ni + 1) with (Z.of_nat (S ni)) by lia.
    case_decide as Hk; [| case_decide as Hlt].
    + rewrite (record_bytes_holds _ _ _ Hold oi a Ha), (record_bytes_holds _ _ _ Hnew ni b Hb).
      cbn [mbind res_bind]. case_decide.
      * rewrite IH by lia. done.
      * rewrite (page_record_holds _ _ _ Hnew ni b Hb). cbn [mbind res_bind].
        rewrite IH by lia. cbv zeta. cbn [fst snd]. rewrite fmap_cons, <- app_assoc. done.
    + rewrite IH by lia. rewrite (drop_S new b ni) by done. cbv zeta.
      cbn [fst snd]. rewrite fmap_cons, <- app_assoc. done.
    + rewrite (page_record_holds _ _ _ Hnew ni b Hb). cbn [mbind res_bind].
      rewrite IH by lia. rewrite (drop_S old a oi) by done. cbv zeta.
      cbn [fst snd]. rewrite fmap_cons, <- app_assoc. done.
Qed.

Lemma record_diff_holds :
  record_diff (Z.to_nat (zlen old + zlen new)) old_page new_page (zlen old) (zlen new) 0 0 [] [] =
  Ok (pl_key <$> (spec_diff old new).1, pl_of <$> (spec_diff old new).2).
Proof.
  change 0 with (Z.of_nat 0). rewrite record_diff_spec by (unfold zlen; lia).
  by rewrite !drop_0.
Qed.

End diff.

(** ** Replaying removes and upserts *)

(** The padded records fit: the room a page has for its records in any
    order. *)
Definition padded_room (rs : list Rec) : bool :=
  PAGE_HEADER_SIZE + padded_sum (zlen <$> (r_payload <$> rs))
    <=? tailer_offset - zlen rs * RECORD_SLOT_SIZE.

(** Every page between two upserts has that room. *)
Fixpoint replay_fits (rs : list Rec) (us : list Rec) : bool :=
  match us with
  | [] => true
  | u :: us => padded_room (spec_upsert u rs) && replay_fits (spec_upsert u rs) us
  end.

Lemma padded_room_pack rs : padded_room rs = true -> pack_fits (r_payload <$> rs) = true.
Proof.
  unfold padded_room, pack_fits. rewrite !Z.leb_le.
  pose proof (packed_end_padded (r_payload <$> rs) PAGE_HEADER_SIZE ltac:(plia)) as [Hle Hpad].
  change (align_up PAGE_HEADER_SIZE RECORD_ALIGN) with PAGE_HEADER_SIZE in Hpad.
  assert (zlen (r_payload <$> rs) = zlen rs) as -> by (unfold zlen; by rewrite length_fmap). lia.
Qed.

Lemma padded_sum_perm a b : a ≡ₚ b -> padded_sum a = padded_sum b.
Proof.
  induction 1; cbn in *; try done; unfold padded_sum in *; cbn in *; lia.
Qed.

(** Without one record, the rest leaves room for it behind the packed data. *)
Lemma padded_room_insert r rs :
  padded_room (spec_insert r rs) = true ->
  padded_room rs = true /\
  align_up (packed_end PAGE_HEADER_SIZE (r_payload <$> rs)) RECORD_ALIGN + zlen (r_payload r)
    <= tailer_offset - (zlen rs + 1) * RECORD_SLOT_SIZE.
Proof.
  unfold padded_room. rewrite !Z.leb_le. intros Hroom.
  assert (zlen (spec_insert r rs) = zlen rs + 1) as Hlen.
  { unfold zlen. rewrite (Permutation_length (spec_insert_perm r rs)). cbn. lia. }
  rewrite (padded_sum_perm _ (zlen <$> (r_payload <$> r :: rs))) in Hroom
    by (by rewrite spec_insert_perm).
  rewrite Hlen, !fmap_cons in Hroom.
  pose proof (packed_end_padded (r_payload <$> rs) PAGE_HEADER_SIZE ltac:(plia)) as [_ ->].
  change (align_up PAGE_HEADER_SIZE RECORD_ALIGN) with PAGE_HEADER_SIZE.
  pose proof (align_up_spec (zlen (r_payload r)) (zlen_nonneg _)) as [? _].
  pose proof (zlen_nonneg (r_payload r)).
  unfold padded_sum in *. cbn [foldr] in Hroom. split; plia.
Qed.

Lemma spec_find_last r rs :
  Forall (fun x => key_lt x r) rs -> spec_find (r_ts r) (r_id r) rs = None.
Proof.
  intros HF. apply spec_find_none. eapply Forall_impl; [exact HF |].
  intros x Hx. unfold key_lt, has_key in *. lia.
Qed.

Lemma sorted_app_lt rs u us : keys_sorted (rs ++ u :: us) -> Forall (fun x => key_lt x u) rs.
Proof.
  intros Hs. apply Forall_lookup. intros i x Hx.
  eapply (StronglySorted_lookup _ _ i (length rs)); [exact Hs | | |].
  - by eapply lookup_lt_Some.
  - by apply lookup_app_l_Some.
  - rewrite lookup_app_r by lia. by rewrite Nat.sub_diag.
Qed.

Lemma spec_upsert_append r rs :
  Forall (fun x => key_lt x r) rs -> spec_upsert r rs = rs ++ [r].
Proof.
  intros HF. unfold spec_upsert. rewrite spec_find_last by done. by apply spec_insert_last.
Qed.

Lemma foldl_upsert_append us : forall rs,
  keys_sorted (rs ++ us) -> foldl (fun rs r => spec_upsert r rs) rs us = rs ++ us.
Proof.
  induction us as [| u us IH]; intros rs Hs; cbn [foldl]; [by rewrite app_nil_r |].
  rewrite spec_upsert_append by (by eapply sorted_app_lt).
  rewrite IH; rewrite <- app_assoc; done.
Qed.

Lemma padded_sum_nonneg sizes : Forall (fun n => 0 <= n) sizes -> 0 <= padded_sum sizes.
Proof.
  unfold padded_sum. induction 1 as [| n sizes Hn HF IH]; cbn [foldr]; [lia |].
  pose proof (align_up_spec n Hn). lia.
Qed.

Lemma padded_room_app a b : padded_room (a ++ b) = true -> padded_room a = true.
Proof.
  unfold padded_room. rewrite !Z.leb_le, !fmap_app, padded_sum_app, zlen_app.
  pose proof (padded_sum_nonneg (zlen <$> (r_payload <$> b))) as Hb.
  pose proof (zlen_nonneg b). intros Hroom.
  assert (Forall (fun n => 0 <= n) (zlen <$> (r_payload <$> b)))
    by (apply Forall_fmap, Forall_forall; intros; apply zlen_nonneg).
  specialize (Hb ltac:(done)). plia.
Qed.

(** Records in key order: the room of the whole page is enough. *)
Lemma replay_fits_append us : forall rs,
  keys_sorted (rs ++ us) -> padded_room (rs ++ us) = true -> replay_fits rs us = true.
Proof.
  induction us as [| u us IH]; intros rs Hs Hroom; cbn [replay_fits]; [done |].
  rewrite spec_upsert_append by (by eapply sorted_app_lt).
  rewrite (cons_middle u) in Hs, Hroom. rewrite app_assoc in Hs, Hroom.
  rewrite IH by done. rewrite andb_true_r. by eapply padded_room_app.
Qed.

Lemma replay_fits_sorted rs : keys_sorted rs -> padded_room rs = true -> replay_fits [] rs = true.
Proof. apply (replay_fits_append rs []). Qed.

Section replay_steps.
Context `{PackagesOk}.

Lemma replay_remove_ok pg h rs k :
  page_holds pg h rs -> is_Some (to_map rs !! key_of_pl k) ->
  exists pg' h', replay_remove k pg = (Ok tt, pg') /\
    page_holds pg' h' (spec_remove (key_of_pl k) rs) /\ same_meta h h'.
Proof.
  intros Hh Hk. destruct (spec_find_is_some _ _ _ Hk) as [i Hi].
  destruct (spec_find_lookup _ _ _ _ Hi) as (r & Hpos & Hr & _).
  destruct (delete_record_holds pg h rs (Z.to_nat i) Hh) as (pg' & last & E & Hh').
  { by eapply lookup_lt_Some. }
  exists pg'. eexists. split_and!; [| | apply resized_same_meta].
  - unfold replay_remove.
    st_step by (apply st_reads_ok, (find_slot_index_holds _ _ _ Hh)).
    cbn [key_of_pl fst snd] in Hi. rewrite Hi. rewrite <- E. by rewrite Z2Nat.id.
  - unfold spec_remove. cbn [key_of_pl fst snd]. rewrite Hi. exact Hh'.
Qed.

Lemma replay_removes_ok ks : forall pg h rs,
  page_holds pg h rs -> keys_sorted rs -> NoDup (key_of_pl <$> ks) ->
  (forall k, k ∈ ks -> is_Some (to_map rs !! key_of_pl k)) ->
  exists pg' h', st_iter replay_remove ks pg = (Ok tt, pg') /\
    page_holds pg' h' (foldl (fun rs k => spec_remove k rs) rs (key_of_pl <$> ks)) /\
    same_meta h h'.
Proof.
  induction ks as [| k ks IH]; intros pg h rs Hh Hs Hnd Hin.
  { by exists pg, h. }
  rewrite fmap_cons in Hnd. apply NoDup_cons in Hnd as [Hnew Hnd].
  destruct (replay_remove_ok pg h rs k Hh) as (pg1 & h1 & E1 & Hh1 & Hm1).
  { apply Hin. left. }
  destruct (IH pg1 h1 (spec_remove (key_of_pl k) rs) Hh1) as (pg' & h' & E & Hh' & Hm).
  - by apply spec_remove_sorted.
  - done.
  - intros k' Hk'. rewrite to_map_remove by done. rewrite lookup_delete_ne.
    + apply Hin. by right.
    + intros Ek. apply Hnew. rewrite Ek. by apply list_elem_of_fmap_2.
  - exists pg', h'. split_and!; [| exact Hh' | by transitivity h1].
    cbn [st_iter]. by rewrite (st_bind_ok _ _ _ _ _ E1).
Qed.

Lemma insert_fits_rebuilt pg h rs r last :
  page_holds pg h rs -> padded_room (spec_insert r rs) = true ->
  insert_fits (rebuilt_header h (r_payload <$> rs) last) (r_payload r) = true.
Proof.
  intros Hh Hroom. apply padded_room_insert in Hroom as [_ Hroom].
  unfold insert_fits. apply Z.leb_le.
  cbn [rebuilt_header resized_header set_free_bytes set_last_record_offset
    set_first_free_offset set_record_count set_lsn ph_first_free_offset ph_record_count].
  assert (zlen (r_payload <$> rs) = zlen rs) as -> by (unfold zlen; by rewrite length_fmap). lia.
Qed.

Lemma insert_or_compact_ok pg h rs r :
  page_holds pg h rs -> in_u64 (pl_timestamp r) -> in_u64 (pl_tuple_id r) ->
  spec_find (pl_timestamp r) (pl_tuple_id r) rs = None ->
  padded_room (spec_insert (rec_of_pl r) rs) = true ->
  exists pg' h', insert_or_compact r pg = (Ok tt, pg') /\
    page_holds pg' h' (spec_insert (rec_of_pl r) rs) /\ same_meta h h'.
Proof.
  intros Hh Hts Hid Hf Hroom. unfold insert_or_compact.
  destruct (insert_fits h (pl_payload r)) eqn:Hfit.
  - destruct (insert_record_holds pg h rs _ _ _ Hh Hts Hid Hfit Hf) as (pg' & E & Hh').
    rewrite E. exists pg'. eexists. split_and!; [done | exact Hh' | apply resized_same_meta].
  - pose proof Hh as (ss & R & _). rewrite (insert_record_full pg h ss _ _ _ R Hfit).
    destruct (padded_room_insert _ _ Hroom) as [Hroom0 _].
    destruct (compact_holds pg h rs Hh (padded_room_pack _ Hroom0)) as (pg1 & last & E1 & Hh1).
    pose proof (insert_fits_rebuilt pg h rs (rec_of_pl r) last Hh Hroom) as Hfit1.
    destruct (insert_record_holds pg1 _ rs _ _ _ Hh1 Hts Hid Hfit1 Hf) as (pg' & E & Hh').
    rewrite (st_bind_ok _ _ _ _ _ E1). rewrite (st_bind_ok _ _ _ _ _ E).
    exists pg'. eexists. split_and!; [done | exact Hh' |].
    etrans; [apply resized_same_meta |]. apply resized_same_meta.
Qed.

Lemma replay_upsert_ok pg h rs r :
  page_holds pg h rs -> in_u64 (pl_timestamp r) -> in_u64 (pl_tuple_id r) ->
  padded_room (spec_upsert (rec_of_pl r) rs) = true ->
  exists pg' h', replay_upsert r pg = (Ok tt, pg') /\
    page_holds pg' h' (spec_upsert (rec_of_pl r) rs) /\ same_meta h h'.
Proof.
  intros Hh Hts Hid Hroom. unfold replay_upsert, spec_upsert in *. cbn [r_ts r_id rec_of_pl] in *.
  destruct (spec_find (pl_timestamp r) (pl_tuple_id r) rs) as [i |] eqn:Hf.
  - destruct (spec_find_lookup _ _ _ _ Hf) as (x & Hpos & Hx & _).
    destruct (update_record_holds pg h rs (Z.to_nat i) (pl_timestamp r) (pl_tuple_id r)
                (pl_payload r) Hh) as (pg' & last & E & Hh').
    { by eapply lookup_lt_Some. }
    { done. }
    { done. }
    { by apply padded_room_pack. }
    rewrite Z2Nat.id in E by done.
    exists pg'. eexists. split_and!; [| exact Hh' | apply resized_same_meta].
    st_step by (apply st_reads_ok, (find_slot_index_holds _ _ _ Hh)).
    by rewrite Hf, (st_bind_ok _ _ _ _ _ E).
  - destruct (insert_or_compact_ok pg h rs r Hh Hts Hid Hf Hroom) as (pg' & h' & E & Hh' & Hm).
    exists pg', h'. split_and!; [| done | done].
    st_step by (apply st_reads_ok, (find_slot_index_holds _ _ _ Hh)). by rewrite Hf.
Qed.

Definition pl_in_range (r : PLRecord) : Prop :=
  in_u64 (pl_timestamp r) /\ in_u64 (pl_tuple_id r).

Lemma replay_upserts_ok us : forall pg h rs,
  page_holds pg h rs -> Forall pl_in_range us ->
  replay_fits rs (rec_of_pl <$> us) = true ->
  exists pg' h', st_iter replay_upsert us pg = (Ok tt, pg') /\
    page_holds pg' h' (foldl (fun rs r => spec_upsert r rs) rs (rec_of_pl <$> us)) /\
    same_meta h h'.
Proof.
  induction us as [| u us IH]; intros pg h rs Hh HF Hfit.
  { by exists pg, h. }
  inversion HF as [| ? ? [Hts Hid] HF']; subst. rewrite fmap_cons in Hfit. cbn [replay_fits] in Hfit.
  apply andb_prop in Hfit as [Hroom Hfit].
  destruct (replay_upsert_ok pg h rs u Hh Hts Hid Hroom) as (pg1 & h1 & E1 & Hh1 & Hm1).
  destruct (IH pg1 h1 _ Hh1 HF' Hfit) as (pg' & h' & E & Hh' & Hm).
  exists pg', h'. split_and!; [| exact Hh' | by transitivity h1].
  cbn [st_iter]. by rewrite (st_bind_ok _ _ _ _ _ E1).
Qed.

End replay_steps.

(** ** Pages of a file *)

Definition page_at (file : list byte) (id : Z) : list byte := file.[id * PAGE_SIZE, PAGE_SIZE].

Definition page_in (file : list byte) (id : Z) : Prop := 0 <= id /\ (id + 1) * PAGE_SIZE <= zlen file.

Lemma write_page file id pg :
  0 <= id -> zlen pg = PAGE_SIZE ->
  exists file', write_all_at (id * PAGE_SIZE) pg file = (Ok tt, file') /\
    page_in file' id /\ page_at file' id = pg /\
    zlen file' = Z.max (zlen file) ((id + 1) * PAGE_SIZE) /\
    (forall j, page_in file j -> page_in file' j /\ (j <> id -> page_at file' j = page_at file j)).
Proof.
  intros Hid Hl. eexists. split; [reflexivity |]. cbv zeta.
  set (f0 := file ++ zeros (id * PAGE_SIZE + zlen pg - zlen file)).
  pose proof (zlen_nonneg file).
  assert (zlen f0 = Z.max (zlen file) ((id + 1) * PAGE_SIZE)) as Hf0.
  { unfold f0, zeros. rewrite zlen_app.
    destruct (Z.le_gt_cases 0 (id * PAGE_SIZE + zlen pg - zlen file)).
    - rewrite zlen_replicate; plia.
    - replace (Z.to_nat _) with 0%nat by lia. change (zlen (replicate 0 x00)) with 0. plia. }
  assert (zlen (zput (id * PAGE_SIZE) pg f0) = zlen f0) as Hf1 by (rewrite zlen_zput; plia).
  split_and!.
  - split; [done |]. plia.
  - unfold page_at. apply zsub_zput_eq; plia.
  - congruence.
  - intros j [Hj Hjl]. split; [split; [done | plia] |]. intros Hne. unfold page_at.
    rewrite zsub_zput_ne by plia. unfold f0. apply zsub_app_l; plia.
Qed.

Lemma read_page_at file id :
  page_in file id -> read_exact_at (id * PAGE_SIZE) PAGE_SIZE file = Ok (page_at file id).
Proof.
  intros [Hid Hl]. unfold read_exact_at. by rewrite (proj2 (Z.leb_le _ _)) by plia.
Qed.

Lemma page_offset_ok id : id * PAGE_SIZE <= U64_MAX -> page_offset id = Ok (id * PAGE_SIZE).
Proof. intros. unfold page_offset. by rewrite (proj2 (Z.leb_le _ _)). Qed.

(** ** Replay of a whole delta *)

Lemma rec_of_pl_of (rs : list Rec) : rec_of_pl <$> (pl_of <$> rs) = rs.
Proof.
  rewrite <- list_fmap_compose. rewrite <- (list_fmap_id rs) at 2.
  apply list_fmap_ext. by intros i [? ? ?].
Qed.

Lemma key_of_pl_key (ks : list (Z * Z)) : key_of_pl <$> (pl_key <$> ks) = ks.
Proof.
  rewrite <- list_fmap_compose. rewrite <- (list_fmap_id ks) at 2.
  apply list_fmap_ext. by intros i [? ?].
Qed.

Section replay_delta.
Context `{PackagesOk}.

Lemma holds_in_range pg h rs : page_holds pg h rs -> Forall pl_in_range (pl_of <$> rs).
Proof.
  intros (ss & R & ->). apply Forall_fmap, Forall_fmap, Forall_lookup. intros i s Hs.
  destruct (rep_slot _ _ _ R i s Hs) as [[] _]. by split.
Qed.

(** The delta of two pages. *)
Definition delta_links (ho hn : PageHeader) : option PLPageLinks :=
  if decide (ph_prev_page ho = ph_prev_page hn /\ ph_next_page ho = ph_next_page hn)
  then None else Some (mkPLPageLinks (ph_prev_page hn) (ph_next_page hn)).

Lemma page_record_delta_holds id old_page new_page ho hn old new :
  page_holds old_page ho old -> page_holds new_page hn new ->
  page_record_delta id old_page new_page =
    match delta_links ho hn, spec_diff old new with
    | None, ([], []) => Ok None
    | links, (ks, us) =>
        Ok (Some (PageDelta_ (mkPageDelta id None links (pl_key <$> ks) (pl_of <$> us))))
    end.
Proof.
  intros Ho Hn. unfold page_record_delta.
  rewrite (header_view_decode _ _ (page_holds_header _ _ _ Ho)).
  rewrite (header_view_decode _ _ (page_holds_header _ _ _ Hn)). cbn [mbind res_bind].
  rewrite (slot_count_holds _ _ _ Ho), (slot_count_holds _ _ _ Hn). cbn [mbind res_bind].
  rewrite (record_diff_holds _ _ _ _ _ _ Ho Hn). cbn [mbind res_bind].
  assert ((if negb (ph_prev_page ho =? ph_prev_page hn) || negb (ph_next_page ho =? ph_next_page hn)
           then Some (mkPLPageLinks (ph_prev_page hn) (ph_next_page hn)) else None)
          = delta_links ho hn) as ->.
  { unfold delta_links.
    destruct (Z.eqb_spec (ph_prev_page ho) (ph_prev_page hn)),
      (Z.eqb_spec (ph_next_page ho) (ph_next_page hn)); case_decide; try done; tauto. }
  destruct (spec_diff old new) as [[| k ks] [| u us]]; by destruct (delta_links ho hn).
Qed.

(** The last steps of a replay: upserts, stamp, checksum. *)
Lemma replay_finish pg h rs us lsn :
  page_holds pg h rs -> Forall pl_in_range us -> in_u64 lsn ->
  replay_fits rs (rec_of_pl <$> us) = true ->
  exists pg' h',
    on_buffer (st_iter replay_upsert us ;; stamp_page_image_lsn lsn ;;
               finalize_page_image_checksum) pg = Ok pg' /\
    page_holds pg' h' (foldl (fun rs r => spec_upsert r rs) rs (rec_of_pl <$> us)) /\
    same_meta h h' /\ ph_lsn h' = lsn /\ validate_layout pg' = Ok tt.
Proof.
  intros Hh HF Hlsn Hfit.
  destruct (replay_upserts_ok us pg h rs Hh HF Hfit) as (pg1 & h1 & E1 & Hh1 & Hm1).
  destruct (stamp_holds lsn pg1 h1 _ Hh1 Hlsn) as (pg2 & E2 & Hh2).
  destruct (finalize_holds pg2 _ _ Hh2) as (E3 & Hh3 & Hv3).
  exists (sealed (set_lsn lsn h1) pg2), (set_lsn lsn h1). split_and!; try done.
  - eapply on_buffer_ok. rewrite (st_bind_ok _ _ _ _ _ E1), (st_bind_ok _ _ _ _ _ E2). exact E3.
  - etrans; [exact Hm1 | apply set_lsn_same_meta].
Qed.

(** A delta without initialisation, on the page it was computed from. *)
Lemma replay_base_delta d pg h rs ks :
  page_holds pg h rs -> keys_sorted rs -> pd_init d = None ->
  pd_removes d = pl_key <$> ks -> NoDup ks -> (forall k, k ∈ ks -> is_Some (to_map rs !! k)) ->
  (forall l, pd_links d = Some l -> in_u64 (ln_prev_page l) /\ in_u64 (ln_next_page l)) ->
  exists pg' h', replay_base d true pg = Ok pg' /\
    page_holds pg' h' (foldl (fun rs k => spec_remove k rs) rs ks) /\
    same_meta (match pd_links d with
               | Some l => linked_header (ln_prev_page l) (ln_next_page l) h
               | None => h
               end) h'.
Proof.
  intros Hh Hs Hinit Hrem Hnd Hks Hlinks. unfold replay_base. rewrite Hinit, Hrem. cbn [negb].
  assert (exists pg1 h1,
    match pd_links d with
    | Some links => on_buffer (set_page_links (ln_prev_page links) (ln_next_page links)) pg
    | None => Ok pg
    end = Ok pg1 /\ page_holds pg1 h1 rs /\
    same_meta (match pd_links d with
               | Some l => linked_header (ln_prev_page l) (ln_next_page l) h
               | None => h
               end) h1) as (pg1 & h1 & -> & Hh1 & Hm1).
  { destruct (pd_links d) as [l |]; [| by exists pg, h].
    destruct (Hlinks l eq_refl) as [Hp Hn].
    destruct (set_page_links_holds _ _ pg h rs Hh Hp Hn) as (pg1 & E1 & Hh1).
    do 2 eexists. split_and!; [by eapply on_buffer_ok | exact Hh1 | done]. }
  cbn [mbind res_bind].
  destruct (replay_removes_ok (pl_key <$> ks) pg1 h1 rs Hh1 Hs) as (pg' & h' & E & Hh' & Hm).
  - by rewrite key_of_pl_key.
  - intros k Hk. apply list_elem_of_fmap in Hk as (k0 & -> & Hk0). destruct k0. by apply Hks.
  - rewrite key_of_pl_key in Hh'. exists pg', h'.
    split_and!; [by eapply on_buffer_ok | done | by transitivity h1].
Qed.

End replay_delta.

Section replay_theorems.
Context `{PackagesOk}.

(** The effect of a replay that is not skipped. *)
Lemma apply_delta_steps d lsn file base hb rs us :
  let id := pd_page_id d in
  let present := id * PAGE_SIZE + PAGE_SIZE <=? zlen file in
  0 <= id -> id * PAGE_SIZE <= U64_MAX -> in_u64 lsn ->
  (present = true -> validate_layout (page_at file id) = Ok tt /\
     exists h, header (page_at file id) = Ok h /\ ph_lsn h < lsn) ->
  replay_base d present (if present then page_at file id else []) = Ok base ->
  page_holds base hb rs -> pd_upserts d = pl_of <$> us -> Forall pl_in_range (pl_of <$> us) ->
  replay_fits rs us = true ->
  exists file' h', apply_recovered_page_delta d lsn file = (Ok tt, file') /\
    page_holds (page_at file' id) h' (foldl (fun rs r => spec_upsert r rs) rs us) /\
    same_meta hb h' /\ ph_lsn h' = lsn /\ validate_layout (page_at file' id) = Ok tt /\
    zlen file' = Z.max (zlen file) ((id + 1) * PAGE_SIZE) /\
    (forall j, j <> id -> page_in file j -> page_at file' j = page_at file j).
Proof.
  intros id present Hid Hoff Hlsn Hdisk Hbase Hh Hus HF Hfit.
  destruct (replay_finish base hb rs (pl_of <$> us) lsn Hh HF Hlsn)
    as (pg & h' & E & Hpg & Hm & Hl & Hv); [by rewrite rec_of_pl_of |].
  rewrite rec_of_pl_of in Hpg.
  destruct (write_page file id pg Hid) as (file' & Ew & _ & Hat & Hlen & Hoth).
  { apply (page_holds_header _ _ _ Hpg). }
  exists file', h'. rewrite Hat. split_and!; try done; [| by intros j Hj Hin; apply Hoth].
  unfold apply_recovered_page_delta. fold id.
  st_step by (unfold st_lift; rewrite page_offset_ok by done; reflexivity).
  st_step by reflexivity. unfold file_len. fold present.
  erewrite st_bind_ok; [| instantiate (1 := file);
    instantiate (1 := if present then page_at file id else [])].
  2:{ destruct present eqn:Hp; [| done]. destruct (Hdisk eq_refl) as [Hval _].
      st_step by (apply st_reads_ok, read_page_at; unfold present in Hp;
                  apply Z.leb_le in Hp; split; lia).
      unfold st_lift. rewrite Hval. done. }
  cbv beta. erewrite st_bind_ok; [| instantiate (1 := file); instantiate (1 := false)].
  2:{ destruct present; [| done]. destruct (Hdisk eq_refl) as [_ (h & Hd & Hlt)].
      st_step by (unfold st_lift; rewrite Hd; reflexivity). unfold mret, st_ret.
      by rewrite (proj2 (Z.leb_gt _ _)) by lia. }
  cbv beta iota. st_step by (unfold st_lift; by rewrite Hbase).
  st_step by (unfold st_lift; rewrite Hus, E; reflexivity). exact Ew.
Qed.

Lemma replay_delta_ok file id lsn new_page ho hn old new d :
  page_in file id -> id * PAGE_SIZE <= U64_MAX -> in_u64 lsn ->
  page_holds (page_at file id) ho old -> validate_layout (page_at file id) = Ok tt ->
  page_holds new_page hn new -> keys_sorted old -> keys_sorted new -> ph_lsn ho < lsn ->
  page_record_delta id (page_at file id) new_page = Ok (Some (PageDelta_ d)) ->
  replay_fits (foldl (fun rs k => spec_remove k rs) old (spec_diff old new).1)
    (spec_diff old new).2 = true ->
  exists file' h', apply_recovered_page_delta d lsn file = (Ok tt, file') /\
    page_holds (page_at file' id) h' new /\
    same_meta (linked_header (ph_prev_page hn) (ph_next_page hn) ho) h' /\ ph_lsn h' = lsn /\
    validate_layout (page_at file' id) = Ok tt /\
    zlen file' = Z.max (zlen file) ((id + 1) * PAGE_SIZE) /\
    (forall j, j <> id -> page_in file j -> page_at file' j = page_at file j).
Proof.
  intros Hin Hoff Hlsn Ho Hval Hn Hso Hsn Hlt Hdelta Hfit.
  rewrite (page_record_delta_holds id _ _ _ _ _ _ Ho Hn) in Hdelta.
  assert (d = mkPageDelta id None (delta_links ho hn) (pl_key <$> (spec_diff old new).1)
                (pl_of <$> (spec_diff old new).2)) as ->.
  { destruct (spec_diff old new) as [[| k ks] [| u us]], (delta_links ho hn);
      inversion Hdelta; reflexivity. }
  clear Hdelta. set (d := mkPageDelta _ _ _ _ _).
  destruct (replay_base_delta d (page_at file id) ho old (spec_diff old new).1 Ho Hso eq_refl eq_refl)
    as (base & hb & Hb & Hhb & Hmb).
  { eapply sublist_NoDup; [by apply (keys_sorted_NoDup old) | apply spec_diff_keys_sublist]. }
  { intros k Hk. by apply spec_diff_removes in Hk as [? _]. }
  { intros l Hl. pose proof (hv_ok _ _ (page_holds_header _ _ _ Hn)) as [].
    change (delta_links ho hn = Some l) in Hl. unfold delta_links in Hl.
    case_decide; [done |]. by injection Hl as <-. }
  set (mid := foldl _ old (spec_diff old new).1) in *.
  destruct (apply_delta_steps d lsn file base hb mid (spec_diff old new).2 (proj1 Hin) Hoff Hlsn)
    as (file' & h' & E & Hh' & Hm & Hl' & Hv' & Hlen & Hoth).
  { intros _. split; [done |]. exists ho. split; [| done].
    apply header_view_decode, (page_holds_header _ _ _ Ho). }
  { cbn [d pd_page_id]. rewrite (proj2 (Z.leb_le _ _)) by (destruct Hin; lia). exact Hb. }
  { exact Hhb. }
  { done. }
  { pose proof (holds_in_range _ _ _ Hn) as HF. rewrite Forall_forall in HF |- *.
    intros x Hx. apply HF. revert x Hx. apply sublist_subseteq, fmap_sublist, spec_diff_sublist. }
  { exact Hfit. }
  exists file', h'. cbn [d pd_page_id] in *.
  change (foldl _ mid (spec_diff old new).2) with (spec_apply old (spec_diff old new)) in Hh'.
  rewrite spec_apply_diff in Hh' by done. split_and!; try done.
  etrans; [| exact Hm]. etrans; [| exact Hmb]. cbn [d pd_links]. unfold delta_links.
  case_decide as Hd; [| done]. destruct Hd. by constructor.
Qed.

(** C8: Replaying the delta of a page on the page it was computed from, with an
    LSN above the one of the page, where the padded records that are on the
    page after each single upsert of the replay fit on it ([replay_fits]): the
    page on disk then holds the records, the links and the LSN of the new
    page, passes validation, and the other pages are unchanged. *)
Theorem replay_delta_correct file id lsn new_page ho hn old new d :
  page_in file id -> id * PAGE_SIZE <= U64_MAX -> in_u64 lsn ->
  page_holds (page_at file id) ho old -> validate_layout (page_at file id) = Ok tt ->
  page_holds new_page hn new -> keys_sorted old -> keys_sorted new -> ph_lsn ho < lsn ->
  page_record_delta id (page_at file id) new_page = Ok (Some (PageDelta_ d)) ->
  replay_fits (foldl (fun rs k => spec_remove k rs) old (spec_diff old new).1)
    (spec_diff old new).2 = true ->
  exists file' h', apply_recovered_page_delta d lsn file = (Ok tt, file') /\
    page_holds (page_at file' id) h' new /\
    ph_prev_page h' = ph_prev_page hn /\ ph_next_page h' = ph_next_page hn /\ ph_lsn h' = lsn /\
    validate_layout (page_at file' id) = Ok tt /\
    (forall j, j <> id -> page_in file j -> page_at file' j = page_at file j).
Proof.
  intros Hin Hoff Hlsn Ho Hval Hn Hso Hsn Hlt Hdelta Hfit.
  destruct (replay_delta_ok file id lsn new_page ho hn old new d Hin Hoff Hlsn Ho Hval Hn Hso Hsn Hlt Hdelta Hfit)
    as (file' & h' & E & Hh' & Hm & Hl & Hv & _ & Hoth).
  exists file', h'. destruct Hm. by split_and!.
Qed.

Lemma page_init_delta_holds id pg h rs :
  page_holds pg h rs ->
  page_init_delta id pg =
    Ok (PageDelta_ (mkPageDelta id
          (Some (mkPLPageInit (ph_prev_page h) (ph_next_page h) (ph_tuple_format_version h)
                   (ph_tuple_schema_hash h) (ph_tuple_flags h)))
          None [] (pl_of <$> rs))).
Proof.
  intros Hh. unfold page_init_delta.
  rewrite (header_view_decode _ _ (page_holds_header _ _ _ Hh)). cbn [mbind res_bind].
  by rewrite (page_records_holds _ _ _ Hh).
Qed.

Lemma replay_init_ok file id lsn new_page hn new d :
  0 <= id -> id * PAGE_SIZE <= U64_MAX -> in_u64 lsn ->
  (page_in file id -> validate_layout (page_at file id) = Ok tt /\
     exists h, header (page_at file id) = Ok h /\ ph_lsn h < lsn) ->
  page_holds new_page hn new -> keys_sorted new -> ph_page_id hn = id ->
  page_init_delta id new_page = Ok (PageDelta_ d) -> padded_room new = true ->
  exists file' h', apply_recovered_page_delta d lsn file = (Ok tt, file') /\
    page_holds (page_at file' id) h' new /\
    ph_page_id h' = id /\ ph_prev_page h' = ph_prev_page hn /\
    ph_next_page h' = ph_next_page hn /\
    ph_tuple_format_version h' = ph_tuple_format_version hn /\
    ph_tuple_schema_hash h' = ph_tuple_schema_hash hn /\
    ph_tuple_flags h' = ph_tuple_flags hn /\ ph_lsn h' = lsn /\
    validate_layout (page_at file' id) = Ok tt /\
    zlen file' = Z.max (zlen file) ((id + 1) * PAGE_SIZE) /\
    (forall j, j <> id -> page_in file j -> page_at file' j = page_at file j).
Proof.
  intros Hid Hoff Hlsn Hdisk Hn Hs Hpid Hd Hroom.
  rewrite (page_init_delta_holds id _ _ _ Hn) in Hd. injection Hd as <-.
  set (d := mkPageDelta _ _ _ _ _). pose proof (hv_ok _ _ (page_holds_header _ _ _ Hn)) as [].
  destruct (empty_page_image_ok id (ph_tuple_format_version hn) (ph_tuple_schema_hash hn)
              (ph_tuple_flags hn)) as (pg0 & E0 & H0); [by rewrite <- Hpid | done .. |].
  destruct (set_page_links_holds (ph_prev_page hn) (ph_next_page hn) pg0 _ _ H0) as (pg1 & E1 & H1);
    [done | done |].
  set (h1 := linked_header _ _ _) in *.
  destruct (apply_delta_steps d lsn file pg1 h1 [] new Hid Hoff Hlsn)
    as (file' & h' & E & Hh' & Hm & Hl' & Hv' & Hlen & Hoth).
  { intros Hp. apply Hdisk. split; [done |]. apply Z.leb_le in Hp. cbn [d pd_page_id] in Hp. lia. }
  { unfold replay_base. cbn [d pd_init pd_page_id in_tuple_format_version in_tuple_schema_hash
      in_tuple_flags in_prev_page in_next_page]. rewrite E0. cbn [mbind res_bind].
    by eapply on_buffer_ok. }
  { exact H1. }
  { done. }
  { by eapply holds_in_range. }
  { by apply replay_fits_sorted. }
  exists file', h'. cbn [d pd_page_id] in *. destruct Hm.
  rewrite (foldl_upsert_append new []) in Hh' by done. split_and!; done.
Qed.

(** Replaying the initialisation of a page that the data file does not have,
    or has in an older state: the page holds the records and the header data
    of the page the writer built. *)
Theorem replay_init_correct file id lsn new_page hn new d :
  0 <= id -> id * PAGE_SIZE <= U64_MAX -> in_u64 lsn ->
  (page_in file id -> validate_layout (page_at file id) = Ok tt /\
     exists h, header (page_at file id) = Ok h /\ ph_lsn h < lsn) ->
  page_holds new_page hn new -> keys_sorted new -> ph_page_id hn = id ->
  page_init_delta id new_page = Ok (PageDelta_ d) -> padded_room new = true ->
  exists file' h', apply_recovered_page_delta d lsn file = (Ok tt, file') /\
    page_holds (page_at file' id) h' new /\
    ph_page_id h' = id /\ ph_prev_page h' = ph_prev_page hn /\
    ph_next_page h' = ph_next_page hn /\
    ph_tuple_format_version h' = ph_tuple_format_version hn /\
    ph_tuple_schema_hash h' = ph_tuple_schema_hash hn /\ ph_lsn h' = lsn /\
    validate_layout (page_at file' id) = Ok tt /\
    (forall j, j <> id -> page_in file j -> page_at file' j = page_at file j).
Proof.
  intros Hid Hoff Hlsn Hdisk Hn Hs Hpid Hd Hroom.
  destruct (replay_init_ok file id lsn new_page hn new d Hid Hoff Hlsn Hdisk Hn Hs Hpid Hd Hroom)
    as (file' & h' & E & Hh' & H1 & H2 & H3 & H4 & H5 & _ & H6 & Hv & _ & Hoth).
  exists file', h'. by split_and!.
Qed.

(** A page whose LSN is not older than the batch already has the batch's
    changes: the replay leaves the file as it is. *)
Lemma replay_skip file id lsn d h :
  pd_page_id d = id -> page_in file id -> id * PAGE_SIZE <= U64_MAX ->
  validate_layout (page_at file id) = Ok tt -> header (page_at file id) = Ok h ->
  lsn <= ph_lsn h ->
  apply_recovered_page_delta d lsn file = (Ok tt, file).
Proof.
  intros <- Hin Hoff Hv Hh Hle. unfold apply_recovered_page_delta.
  st_step by (unfold st_lift; rewrite page_offset_ok by done; reflexivity).
  st_step by reflexivity. unfold file_len.
  rewrite (proj2 (Z.leb_le _ _)) by (destruct Hin; lia).
  erewrite st_bind_ok; [| instantiate (1 := file); instantiate (1 := page_at file (pd_page_id d))].
  2:{ st_step by (by apply st_reads_ok, read_page_at). unfold st_lift. by rewrite Hv. }
  cbv beta. erewrite st_bind_ok; [| instantiate (1 := file); instantiate (1 := true)].
  2:{ st_step by (unfold st_lift; rewrite Hh; reflexivity). unfold mret, st_ret.
      by rewrite (proj2 (Z.leb_le _ _)) by lia. }
  done.
Qed.

End replay_theorems.
