(* ===== verification/ReplayProperties.v ===== *)
(** * Properties of replay: examples and limits

    Instances of the theorems of [Replay], replay of a log twice, and the
    page whose own redo record cannot be replayed. *)

From S2P Require Import Prelude Errors Compat FileOps PageFormat PageBlock RecordSpec RecordMap.
From S2P Require Import PageView PageValidate PageInsert PageRebuild PageImage PageProperties.
From S2P Require Import PhysLog Replay.

Section replay_properties.
Context `{PackagesOk}.

(** Replay skips what a page already reflects.  A delta whose LSN is not
    newer than the LSN stamped on a valid page leaves the file as it is, so
    replaying a log from any earlier point applies each batch to each page at
    most once. *)
Theorem replay_skips_applied file id lsn lsn' d :
  pd_page_id d = id -> page_in file id -> id * PAGE_SIZE <= U64_MAX ->
  validate_layout (page_at file id) = Ok tt -> header_lsn (page_at file id) = Ok lsn ->
  lsn' <= lsn ->
  apply_recovered_page_delta d lsn' file = (Ok tt, file).
Proof.
  intros Hd Hin Hoff Hv Hlsn Hle.
  destruct (validate_layout_inv (page_at file id)) as (h & ss & R & _); [| done |].
  { destruct Hin. unfold page_at. apply zlen_zsub; plia. }
  pose proof (pv_header _ _ _ (ps_view _ _ _ R)) as HV.
  rewrite (header_lsn_view _ _ HV) in Hlsn. injection Hlsn as Hlsn.
  apply (replay_skip file id lsn' d h); try done.
  - by apply header_view_decode.
  - lia.
Qed.

End replay_properties.

(** ** Examples *)

Import Demo.

(** Page 3 of a file, and the page after a deletion, an insertion and a
    change of the next link. *)
Definition old_file : list byte := zeros (3 * PAGE_SIZE) ++ sealed_page.

Definition new_entries : list TimeSeriesRecord :=
  [entry 10 1 [x01; x02; x03]; entry 20 2 [x0a]; entry 25 7 [x0b]].
Definition new_recs : list Rec := entry_of <$> new_entries.
Definition new_page : list byte :=
  match build_entries_page_image 3 2 9 new_entries 1 77 0 with Ok pg => pg | _ => [] end.

Definition delta_of (op : RS (option PLOp)) : PageDelta :=
  match op with Ok (Some (PageDelta_ d)) => d | _ => mkPageDelta 0 None None [] [] end.
Definition demo_delta : PageDelta := delta_of (page_record_delta 3 (page_at old_file 3) new_page).

Lemma new_page_ok :
  page_holds new_page (header_of new_page) new_recs /\ keys_sorted new_recs /\
  ph_page_id (header_of new_page) = 3.
Proof.
  assert (forall z, 0 <= z <= 100 -> in_u64 z /\ in_u32 z) as Hr by (intros; split; mlia).
  assert (keys_sorted new_recs) as Hs by (repeat constructor; unfold key_lt; cbn; lia).
  destruct (build_entries_page_image_ok 3 2 9 new_entries 1 77 0) as (pg & h & E & Hh & [] & _);
    [apply Hr; lia | apply Hr; lia | apply Hr; lia | apply Hr; lia | apply Hr; lia | apply Hr; lia
    | repeat constructor; apply Hr; cbn; lia | exact Hs | by vm_compute |].
  unfold new_page. rewrite E. unfold header_of.
  rewrite (header_view_decode _ _ (page_holds_header _ _ _ Hh)).
  split_and!; [exact Hh | exact Hs | assumption].
Qed.

Lemma old_page_at : page_at old_file 3 = sealed_page.
Proof. vm_compute. reflexivity. Qed.

Lemma sealed_page_ok : page_holds sealed_page (header_of page) recs.
Proof.
  destruct (finalize_holds _ _ _ page_ok) as (E & Hp & _).
  unfold sealed_page. rewrite E. exact Hp.
Qed.

Lemma replay_delta_correct_witness : exists file' h',
  apply_recovered_page_delta demo_delta 100 old_file = (Ok tt, file') /\
  page_holds (page_at file' 3) h' new_recs /\
  ph_prev_page h' = ph_prev_page (header_of new_page) /\
  ph_next_page h' = ph_next_page (header_of new_page) /\ ph_lsn h' = 100 /\
  validate_layout (page_at file' 3) = Ok tt /\
  (forall j, j <> 3 -> page_in old_file j -> page_at file' j = page_at old_file j).
Proof.
  apply (replay_delta_correct old_file 3 100 new_page (header_of page) (header_of new_page)
           recs new_recs demo_delta).
  - split; vm_compute; congruence.
  - vm_compute. congruence.
  - split; vm_compute; congruence.
  - rewrite old_page_at. exact sealed_page_ok.
  - vm_compute. reflexivity.
  - apply new_page_ok.
  - exact recs_sorted.
  - apply new_page_ok.
  - vm_compute. reflexivity.
  - vm_compute. reflexivity.
  - vm_compute. reflexivity.
Defined.

Definition init_delta (pg : list byte) : PageDelta :=
  match page_init_delta 3 pg with
  | Ok (PageDelta_ d) => d | _ => mkPageDelta 0 None None [] [] end.

Lemma replay_init_correct_witness : exists file' h',
  apply_recovered_page_delta (init_delta new_page) 100 [] = (Ok tt, file') /\
  page_holds (page_at file' 3) h' new_recs /\ ph_page_id h' = 3 /\
  ph_prev_page h' = ph_prev_page (header_of new_page) /\
  ph_next_page h' = ph_next_page (header_of new_page) /\
  ph_tuple_format_version h' = ph_tuple_format_version (header_of new_page) /\
  ph_tuple_schema_hash h' = ph_tuple_schema_hash (header_of new_page) /\ ph_lsn h' = 100 /\
  validate_layout (page_at file' 3) = Ok tt /\
  (forall j, j <> 3 -> page_in [] j -> page_at file' j = page_at [] j).
Proof.
  apply (replay_init_correct [] 3 100 new_page (header_of new_page) new_recs (init_delta new_page)).
  - lia.
  - vm_compute. congruence.
  - split; vm_compute; congruence.
  - intros [_ Hl]. vm_compute in Hl. congruence.
  - apply new_page_ok.
  - apply new_page_ok.
  - apply new_page_ok.
  - vm_compute. reflexivity.
  - vm_compute. reflexivity.
Defined.

Lemma replay_skips_applied_witness : exists lsn,
  header_lsn (page_at old_file 3) = Ok lsn /\
  apply_recovered_page_delta (init_delta new_page) lsn old_file = (Ok tt, old_file).
Proof.
  eexists. split; [vm_compute; reflexivity |].
  eapply (replay_skips_applied old_file 3 _ _ (init_delta new_page)).
  - vm_compute. reflexivity.
  - split; vm_compute; congruence.
  - vm_compute. congruence.
  - vm_compute. reflexivity.
  - vm_compute. reflexivity.
  - vm_compute. congruence.
Defined.

(** ** A page whose redo record cannot be replayed *)

Definition sealed_full : list byte := (finalize_page_image_checksum full_page).2.

(** A page that was built by successful insertions can have a redo record
    that recovery rejects.  The full-image delta of the page below, replayed
    on a file that does not have the page yet, fails with
    [InsufficientBufferSpace]: replay inserts in key order, where the padding
    needs more room than in the order of the original insertions, and the
    compaction before the second attempt does not help. *)
Theorem replay_can_reject_own_record :
  validate_layout sealed_full = Ok tt /\ page_init_delta 3 sealed_full = Ok (PageDelta_ (init_delta sealed_full)) /\
  apply_recovered_page_delta (init_delta sealed_full) 100 [] = (Err InsufficientBufferSpace, []).
Proof. split_and!; vm_compute; reflexivity. Qed.
