(* ===== verification/PlCodec.v ===== *)
(** * A codec for the entries of the physical log

    An instance of the entry codec for the examples, with the MessagePack
    formats of integers, byte strings, arrays and nil; structs are written
    field by field. *)

From S2P Require Import Prelude Errors Compat LogFrame WalFrames PhysLog.

Module PlCodec.

(** Values that can be written, and read back from the front of a buffer. *)
Class Pack (A : Type) := {
  pack : A -> option (list byte);
  unpack : list byte -> option (A * list byte);
}.

Class PackOk (A : Type) `{Pack A} : Prop :=
  unpack_pack : forall a bs rest, pack a = Some bs -> unpack (bs ++ rest) = Some (a, rest).

(** Format uint 64. *)
#[export] Instance z_pack : Pack Z := {
  pack v := if (0 <=? v) && (v <=? U64_MAX) then Some (xcf :: to_be_bytes 8 v) else None;
  unpack bs := match bs with xcf :: bs => Some (from_be_bytes 8 (take 8 bs), drop 8 bs) | _ => None end;
}.

#[export] Instance z_pack_ok : PackOk Z.
Proof.
  intros v bs rest. cbn [pack z_pack]. destruct (_ && _) eqn:E; [| done].
  intros Eb. apply (inj Some) in Eb. subst bs.
  apply andb_prop in E as [E1%Z.leb_le E2%Z.leb_le]. rewrite <- app_comm_cons; cbn [unpack z_pack].
  assert (length (to_be_bytes 8 v) = 8%nat) as Hl
    by (pose proof (to_be_bytes_length 8 v) as Hl; unfold zlen in Hl; lia).
  rewrite <- Hl at 2. rewrite take_app_length, drop_app_length' by done.
  by rewrite from_to_be_bytes by (apply range_u64; split; lia).
Qed.

(** Format bin 32. *)
#[export] Instance bytes_pack : Pack (list byte) := {
  pack v := if zlen v <=? U32_MAX then Some (xc6 :: to_be_bytes 4 (zlen v) ++ v) else None;
  unpack bs := match bs with
               | xc6 :: bs => let n := Z.to_nat (from_be_bytes 4 (take 4 bs)) in
                              Some (take n (drop 4 bs), drop n (drop 4 bs))
               | _ => None
               end;
}.

Lemma length_prefix n rest :
  0 <= n <= U32_MAX -> from_be_bytes 4 (take 4 (to_be_bytes 4 n ++ rest)) = n /\
  drop 4 (to_be_bytes 4 n ++ rest) = rest.
Proof.
  intros Hn. assert (length (to_be_bytes 4 n) = 4%nat) as Hl
    by (pose proof (to_be_bytes_length 4 n) as Hl; unfold zlen in Hl; lia).
  rewrite take_app_length', drop_app_length' by done. split; [| done].
  apply from_to_be_bytes, range_u32. split; lia.
Qed.

#[export] Instance bytes_pack_ok : PackOk (list byte).
Proof.
  intros v bs rest. cbn [pack bytes_pack]. destruct (Z.leb_spec (zlen v) U32_MAX); [| done].
  intros E. apply (inj Some) in E. subst bs. rewrite <- app_comm_cons; cbn [unpack bytes_pack]. rewrite <- app_assoc. pose proof (zlen_nonneg v).
  destruct (length_prefix (zlen v) (v ++ rest)) as [-> ->]; [lia |]. unfold zlen. rewrite Nat2Z.id.
  by rewrite take_app_length, drop_app_length.
Qed.

#[export] Instance pair_pack {A B} `{Pack A} `{Pack B} : Pack (A * B) := {
  pack p := a ← pack p.1; b ← pack p.2; Some (a ++ b);
  unpack bs := '(a, bs) ← unpack bs; '(b, bs) ← unpack bs; Some ((a, b), bs);
}.

#[export] Instance pair_pack_ok {A B} `{PackOk A} `{PackOk B} : PackOk (A * B).
Proof.
  intros [a b] bs rest. cbn [pack pair_pack fst snd].
  destruct (pack a) as [ba |] eqn:Ea; [| done]. destruct (pack b) as [bb |] eqn:Eb; [| done].
  intros [= <-]. cbn [unpack pair_pack]. rewrite <- app_assoc, (unpack_pack _ _ _ Ea).
  cbn [mbind option_bind]. by rewrite (unpack_pack _ _ _ Eb).
Qed.

#[export] Instance option_pack {A} `{Pack A} : Pack (option A) := {
  pack o := match o with None => Some [xc0] | Some a => b ← pack a; Some (x91 :: b) end;
  unpack bs := match bs with
               | xc0 :: bs => Some (None, bs)
               | x91 :: bs => '(a, bs) ← unpack bs; Some (Some a, bs)
               | _ => None
               end;
}.

#[export] Instance option_pack_ok {A} `{PackOk A} : PackOk (option A).
Proof.
  intros [a |] bs rest; cbn [pack option_pack]; [| by intros [= <-]].
  destruct (pack a) as [ba |] eqn:Ea; [| done]. intros [= <-]. cbn [app unpack option_pack].
  by rewrite (unpack_pack _ _ _ Ea).
Qed.

(** Format array 32. *)
Fixpoint unpack_n {A} `{Pack A} (n : nat) (bs : list byte) : option (list A * list byte) :=
  match n with
  | O => Some ([], bs)
  | S n => '(a, bs) ← unpack bs; '(l, bs) ← unpack_n n bs; Some (a :: l, bs)
  end.

#[export] Instance list_pack {A} `{Pack A} : Pack (list A) := {
  pack l := if zlen l <=? U32_MAX
            then bs ← mapM pack l; Some (xdd :: to_be_bytes 4 (zlen l) ++ concat bs) else None;
  unpack bs := match bs with
               | xdd :: bs => unpack_n (Z.to_nat (from_be_bytes 4 (take 4 bs))) (drop 4 bs)
               | _ => None
               end;
}.

Lemma unpack_n_ok {A} `{PackOk A} (l : list A) : forall bs rest,
  mapM pack l = Some bs -> unpack_n (length l) (concat bs ++ rest) = Some (l, rest).
Proof.
  induction l as [| a l IH]; intros bs rest; cbn [mapM]; [by intros [= <-] |].
  destruct (pack a) as [ba |] eqn:Ea; [| done]. cbn [mbind option_bind].
  destruct (mapM pack l) as [bl |] eqn:El; [| done]. intros [= <-].
  cbn [length unpack_n concat]. rewrite <- app_assoc, (unpack_pack _ _ _ Ea). cbn [mbind option_bind].
  by rewrite (IH _ _ eq_refl).
Qed.

#[export] Instance list_pack_ok {A} `{PackOk A} : PackOk (list A).
Proof.
  intros l bs rest. cbn [pack list_pack]. destruct (Z.leb_spec (zlen l) U32_MAX); [| done].
  destruct (mapM pack l) as [bl |] eqn:El; [| done]. cbn [mbind option_bind].
  intros E. apply (inj Some) in E. subst bs. rewrite <- app_comm_cons; cbn [unpack list_pack]. rewrite <- app_assoc. pose proof (zlen_nonneg l).
  destruct (length_prefix (zlen l) (concat bl ++ rest)) as [-> ->]; [lia |]. unfold zlen.
  rewrite Nat2Z.id. by apply unpack_n_ok.
Qed.

(** A type that is written as another one. *)
Definition pack_via {A B} `{Pack B} (f : A -> B) (g : B -> A) : Pack A := {|
  pack a := pack (f a);
  unpack bs := '(b, bs) ← unpack bs; Some (g b, bs);
|}.

Lemma pack_via_ok {A B} `{PackOk B} (f : A -> B) (g : B -> A) :
  (forall a, g (f a) = a) -> @PackOk A (pack_via f g).
Proof.
  intros Hgf a bs rest E. cbn [unpack pack_via]. rewrite (unpack_pack (f a) _ _ E).
  cbn [mbind option_bind]. by rewrite Hgf.
Qed.

#[export] Instance key_pack : Pack PLRecordKey :=
  pack_via (fun k => (rk_timestamp k, rk_tuple_id k)) (fun '(a, b) => mkPLRecordKey a b).
#[export] Instance key_pack_ok : PackOk PLRecordKey.
Proof. apply pack_via_ok. by intros []. Qed.

#[export] Instance record_pack : Pack PLRecord :=
  pack_via (fun r => (pl_timestamp r, (pl_tuple_id r, pl_payload r))) (fun '(a, (b, c)) => mkPLRecord a b c).
#[export] Instance record_pack_ok : PackOk PLRecord.
Proof. apply (pack_via_ok (B := Z * (Z * list byte))). by intros []. Qed.

#[export] Instance links_pack : Pack PLPageLinks :=
  pack_via (fun l => (ln_prev_page l, ln_next_page l)) (fun '(a, b) => mkPLPageLinks a b).
#[export] Instance links_pack_ok : PackOk PLPageLinks.
Proof. apply pack_via_ok. by intros []. Qed.

#[export] Instance init_pack : Pack PLPageInit :=
  pack_via (fun i => (in_prev_page i, (in_next_page i, (in_tuple_format_version i,
                        (in_tuple_schema_hash i, in_tuple_flags i)))))
    (fun '(a, (b, (c, (d, e)))) => mkPLPageInit a b c d e).
#[export] Instance init_pack_ok : PackOk PLPageInit.
Proof. apply pack_via_ok. by intros []. Qed.

#[export] Instance delta_pack : Pack PageDelta :=
  pack_via (fun d => (pd_page_id d, (pd_init d, (pd_links d, (pd_removes d, pd_upserts d)))))
    (fun '(a, (b, (c, (d, e)))) => mkPageDelta a b c d e).
#[export] Instance delta_pack_ok : PackOk PageDelta.
Proof. apply (pack_via_ok (B := Z * (option PLPageInit * (option PLPageLinks * (list PLRecordKey * list PLRecord))))). by intros []. Qed.

#[export] Instance op_pack : Pack PLOp := {
  pack o := match o with
            | Create => Some [x00]
            | Delete => Some [x01]
            | PageDelta_ d => b ← pack d; Some (x02 :: b)
            end;
  unpack bs := match bs with
               | x00 :: bs => Some (Create, bs)
               | x01 :: bs => Some (Delete, bs)
               | x02 :: bs => '(d, bs) ← unpack bs; Some (PageDelta_ d, bs)
               | _ => None
               end;
}.
#[export] Instance op_pack_ok : PackOk PLOp.
Proof.
  intros [| | d] bs rest; cbn [pack op_pack]; [by intros [= <-] | by intros [= <-] |].
  destruct (pack d) as [bd |] eqn:Ed; [| done]. intros [= <-]. cbn [app unpack op_pack].
  by rewrite (unpack_pack _ _ _ Ed).
Qed.

#[export] Instance entry_pack : Pack PLEntry :=
  pack_via (fun e => (fid_partition_id (pe_file e), (fid_table_id (pe_file e),
                        (fid_file_index (pe_file e), pe_ops e))))
    (fun '(a, (b, (c, ops))) => mkPLEntry (mkPLFileId a b c) ops).
#[export] Instance entry_pack_ok : PackOk PLEntry.
Proof. apply (pack_via_ok (B := Z * (Z * (Z * list PLOp)))). by intros [[] ?]. Qed.

#[export] Instance msgpack : Msgpack PLBatch := {|
  to_vec b := pack (pb_entries b);
  from_slice bs := '(es, rest) ← unpack bs;
                   match rest with [] => Some (mkPLBatch es) | _ => None end;
|}.

#[export] Instance msgpack_ok : MsgpackOk PLBatch.
Proof.
  split.
  - intros [es] bs E. cbn [to_vec msgpack pb_entries] in E. cbn [from_slice msgpack].
    rewrite <- (app_nil_r bs), (unpack_pack _ _ _ E). done.
  - intros [es]. cbn [to_vec msgpack pb_entries pack list_pack]. destruct (_ <=? _); [| done].
    by destruct (mapM pack es).
Qed.

(** A list on its own. *)
Definition list_msgpack {A} `{Pack A} : Msgpack (list A) := {|
  to_vec l := pack l;
  from_slice bs := '(l, rest) ← unpack bs; match rest with [] => Some l | _ => None end;
|}.

Lemma list_msgpack_ok {A} `{PackOk A} : @MsgpackOk (list A) list_msgpack.
Proof.
  split.
  - intros l bs E. cbn [to_vec list_msgpack] in E. cbn [from_slice list_msgpack].
    rewrite <- (app_nil_r bs), (unpack_pack _ _ _ E). done.
  - intros l. cbn [to_vec list_msgpack pack list_pack]. destruct (_ <=? _); [| done].
    by destruct (mapM pack l).
Qed.

End PlCodec.
