(* ===== verification/TsFile.v ===== *)
(** * Time-series files

    [storage/time_series/time_series_file.rs] and its modules [read.rs],
    [write.rs] and [plan.rs]: the state of an open file, reads of the page
    chain, the planning of writes on an overlay, the logging and publishing
    of a plan and the flush of dirty pages.

    Pages form a doubly linked chain from the newest (head) to the oldest
    (tail).  The data file is the file at the path of [TimeSeriesFile]
    ([None] when there is none).  A cached image is an [Arc]: an address and
    the image behind it, as [Arc::ptr_eq] tells two of them apart.  The page
    cache, the dirty marks and the atomics are fields of one state; the write
    latch makes an operation a single step of it, and the flush is given in
    the steps that run between two awaits.  The current instant is an
    argument. *)

From S2P Require Import Prelude Errors Compat FileOps LogFrame WalBackend PageFormat PageBlock.
From S2P Require Import PageImage PhysLog.

Record TimeSeriesFileIdentity := mkTimeSeriesFileIdentity {
  ti_partition_id : Z;
  ti_table_id : Z;
  ti_file_index : Z;
}.

Record Arc := mkArc { arc_ptr : Z; arc_data : list byte }.

Record TimeSeriesFile := mkTimeSeriesFile {
  tf_identity : option TimeSeriesFileIdentity;
  tf_disk : option (list byte);
  tf_open : bool;
  tf_wal_backend : option WorkerWALBackend;
  tf_page_cache : gmap Z Arc;
  tf_next_ptr : Z;
  tf_dirty_pages : gset Z;
  tf_page_count : Z;
  tf_head_raw : Z;
  tf_tail_raw : Z;
  tf_tuple_format_version : Z;
  tf_tuple_schema_hash : Z;
  tf_tuple_flags : Z;
}.

Definition set_disk x f := mkTimeSeriesFile (tf_identity f) x (tf_open f) (tf_wal_backend f)
  (tf_page_cache f) (tf_next_ptr f) (tf_dirty_pages f) (tf_page_count f) (tf_head_raw f)
  (tf_tail_raw f) (tf_tuple_format_version f) (tf_tuple_schema_hash f) (tf_tuple_flags f).
Definition set_open x f := mkTimeSeriesFile (tf_identity f) (tf_disk f) x (tf_wal_backend f)
  (tf_page_cache f) (tf_next_ptr f) (tf_dirty_pages f) (tf_page_count f) (tf_head_raw f)
  (tf_tail_raw f) (tf_tuple_format_version f) (tf_tuple_schema_hash f) (tf_tuple_flags f).
Definition set_wal x f := mkTimeSeriesFile (tf_identity f) (tf_disk f) (tf_open f) x
  (tf_page_cache f) (tf_next_ptr f) (tf_dirty_pages f) (tf_page_count f) (tf_head_raw f)
  (tf_tail_raw f) (tf_tuple_format_version f) (tf_tuple_schema_hash f) (tf_tuple_flags f).
Definition set_page_cache x f := mkTimeSeriesFile (tf_identity f) (tf_disk f) (tf_open f)
  (tf_wal_backend f) x (tf_next_ptr f) (tf_dirty_pages f) (tf_page_count f) (tf_head_raw f)
  (tf_tail_raw f) (tf_tuple_format_version f) (tf_tuple_schema_hash f) (tf_tuple_flags f).
Definition set_next_ptr x f := mkTimeSeriesFile (tf_identity f) (tf_disk f) (tf_open f)
  (tf_wal_backend f) (tf_page_cache f) x (tf_dirty_pages f) (tf_page_count f) (tf_head_raw f)
  (tf_tail_raw f) (tf_tuple_format_version f) (tf_tuple_schema_hash f) (tf_tuple_flags f).
Definition set_dirty_pages x f := mkTimeSeriesFile (tf_identity f) (tf_disk f) (tf_open f)
  (tf_wal_backend f) (tf_page_cache f) (tf_next_ptr f) x (tf_page_count f) (tf_head_raw f)
  (tf_tail_raw f) (tf_tuple_format_version f) (tf_tuple_schema_hash f) (tf_tuple_flags f).
Definition set_page_count x f := mkTimeSeriesFile (tf_identity f) (tf_disk f) (tf_open f)
  (tf_wal_backend f) (tf_page_cache f) (tf_next_ptr f) (tf_dirty_pages f) x (tf_head_raw f)
  (tf_tail_raw f) (tf_tuple_format_version f) (tf_tuple_schema_hash f) (tf_tuple_flags f).
Definition set_head_raw x f := mkTimeSeriesFile (tf_identity f) (tf_disk f) (tf_open f)
  (tf_wal_backend f) (tf_page_cache f) (tf_next_ptr f) (tf_dirty_pages f) (tf_page_count f) x
  (tf_tail_raw f) (tf_tuple_format_version f) (tf_tuple_schema_hash f) (tf_tuple_flags f).
Definition set_tail_raw x f := mkTimeSeriesFile (tf_identity f) (tf_disk f) (tf_open f)
  (tf_wal_backend f) (tf_page_cache f) (tf_next_ptr f) (tf_dirty_pages f) (tf_page_count f)
  (tf_head_raw f) x (tf_tuple_format_version f) (tf_tuple_schema_hash f) (tf_tuple_flags f).

Notation TS := (ST ErrorCode TimeSeriesFile).

Definition raw_page_id (page_id : option Z) : Z := default NONE_PAGE_ID page_id.

Definition page_id_from_raw (raw : Z) : option Z :=
  if raw =? NONE_PAGE_ID then None else Some raw.

Definition head_page_id (f : TimeSeriesFile) : option Z := page_id_from_raw (tf_head_raw f).
Definition tail_page_id (f : TimeSeriesFile) : option Z := page_id_from_raw (tf_tail_raw f).

Definition file_ref : TS unit :=
  st_reads (fun f => if tf_open f then Ok tt else Err Internal).

Definition take_file : TS unit := file_ref ;; st_modify (set_open false).

(** [Arc::new]: an address that no live [Arc] has. *)
Definition Arc_new (data : list byte) : TS Arc :=
  fun f => (Ok (mkArc (tf_next_ptr f) data), set_next_ptr (tf_next_ptr f + 1) f).

(** A call on the file at the path. *)
Definition on_disk {A} (m : ST ErrorCode (list byte) A) : TS A :=
  fun f => let '(r, file) := m (ensure_file (tf_disk f)) in (r, set_disk (Some file) f).

(** A call on the log; without one, "missing time series wal backend". *)
Definition on_wal {A} (m : WAL A) : TS A :=
  fun f =>
    match tf_wal_backend f with
    | None => (Err Internal, f)
    | Some s => let '(r, s) := m s in (r, set_wal (Some s) f)
    end.

(** The order of [TimeSeriesRecord]s in [sort_by]. *)
Definition record_le (left right : TimeSeriesRecord) : bool :=
  cmp_le (key_compare (ts_timestamp left, ts_tuple_id left)
            (ts_timestamp right, ts_tuple_id right)).

(** The walk along the chain visits no page twice, so one round per page and
    one for the end are enough. *)
Definition chain_fuel (page_count : Z) : nat := S (Z.to_nat page_count).

Section read.
Context `{Packages}.

Definition read_page (page_id : Z) : TS Arc :=
  f ← st_get;
  match tf_page_cache f !! page_id with
  | Some entry => mret entry
  | None =>
      if tf_page_count f <=? page_id then st_lift (Err IndexOutOfRange) else
      file_ref ;;
      offset ← st_lift (page_offset page_id);
      data ← st_reads (fun f => read_exact_at offset PAGE_SIZE (ensure_file (tf_disk f)));
      page ← Arc_new data;
      f ← st_get;
      match tf_page_cache f !! page_id with
      | Some entry => mret entry
      | None =>
          st_put (set_page_cache (<[page_id := page]> (tf_page_cache f)) f) ;;
          mret page
      end
  end.

Fixpoint get_loop (fuel : nat) (current : option Z) (timestamp tuple_id : Z)
    : TS (option TimeSeriesRecord) :=
  match current, fuel with
  | None, _ => mret None
  | Some _, O => st_lift Panic
  | Some page_id, S fuel =>
      page_buf ← read_page page_id;
      page ← st_lift (try_new (arc_data page_buf));
      bounds ← st_lift (timestamp_bounds page);
      let continue :=
        next ← st_lift (active_next_page page);
        get_loop fuel next timestamp tuple_id in
      match bounds with
      | Some (min_ts, max_ts) =>
          if max_ts <? timestamp then mret None
          else if timestamp <? min_ts then continue
          else
            slot_index ← st_lift (find_slot_index page timestamp tuple_id);
            match slot_index with
            | Some slot_index =>
                payload ← st_lift (record_bytes page slot_index);
                mret (Some (mkTimeSeriesRecord timestamp tuple_id payload page_id slot_index))
            | None => continue
            end
      | None => continue
      end
  end.

Definition file_get (timestamp tuple_id : Z) : TS (option TimeSeriesRecord) :=
  f ← st_get;
  get_loop (chain_fuel (tf_page_count f)) (head_page_id f) timestamp tuple_id.

(** The slot loop of [scan_range]. *)
Fixpoint scan_slots (page : list byte) (page_id begin_ts end_ts : Z) (indices : list Z)
    : RS (list TimeSeriesRecord) :=
  match indices with
  | [] => Ok []
  | slot_index :: indices =>
      slot ← slot_ref page slot_index;
      let ts := ref_timestamp slot in
      if (ts <? begin_ts) || (end_ts <? ts)
      then scan_slots page page_id begin_ts end_ts indices
      else
        payload ← record_bytes page slot_index;
        rows ← scan_slots page page_id begin_ts end_ts indices;
        Ok (mkTimeSeriesRecord ts (ref_tuple_id slot) payload page_id slot_index :: rows)
  end.

Fixpoint scan_loop (fuel : nat) (current : option Z) (begin_ts end_ts : Z)
    (rows : list TimeSeriesRecord) : TS (list TimeSeriesRecord) :=
  match current, fuel with
  | None, _ => mret rows
  | Some _, O => st_lift Panic
  | Some page_id, S fuel =>
      page_buf ← read_page page_id;
      page ← st_lift (try_new (arc_data page_buf));
      bounds ← st_lift (timestamp_bounds page);
      match bounds with
      | Some (min_ts, max_ts) =>
          if max_ts <? begin_ts then mret rows else
          found ← (if (min_ts <=? end_ts) && (begin_ts <=? max_ts)
                   then
                     count ← st_lift (slot_count page);
                     st_lift (scan_slots page page_id begin_ts end_ts (seqZ 0 count))
                   else mret []);
          next ← st_lift (active_next_page page);
          scan_loop fuel next begin_ts end_ts (rows ++ found)
      | None =>
          next ← st_lift (active_next_page page);
          scan_loop fuel next begin_ts end_ts rows
      end
  end.

Definition scan_range (begin_ts end_ts : Z) : TS (list TimeSeriesRecord) :=
  if end_ts <? begin_ts then mret [] else
  f ← st_get;
  rows ← scan_loop (chain_fuel (tf_page_count f)) (head_page_id f) begin_ts end_ts [];
  mret (sort_stable record_le rows).

End read.

(** ** Plans *)

Record PlannedPageWrite := mkPlannedPageWrite { pw_page_id : Z; pw_image : list byte }.

Record TimeSeriesFileMutationPlan := mkPlan {
  mp_create_file : bool;
  mp_delete_file : bool;
  mp_page_writes : list PlannedPageWrite;
  mp_next_page_count : option Z;
  mp_next_head_page_id : option (option Z);
  mp_next_tail_page_id : option (option Z);
}.

Definition set_page_writes x p := mkPlan (mp_create_file p) (mp_delete_file p) x
  (mp_next_page_count p) (mp_next_head_page_id p) (mp_next_tail_page_id p).

Section plan.
Context `{Packages} `{Msgpack PLBatch}.

Definition pl_file_id (identity : TimeSeriesFileIdentity) : PLFileId :=
  mkPLFileId (ti_partition_id identity) (ti_table_id identity) (ti_file_index identity).

Definition apply_page_write (page_id : Z) (page : list byte) : TS unit :=
  image ← Arc_new page;
  st_modify (fun f => set_dirty_pages ({[page_id]} ∪ tf_dirty_pages f)
                        (set_page_cache (<[page_id := image]> (tf_page_cache f)) f)).

Definition apply_plan (plan : TimeSeriesFileMutationPlan) : TS unit :=
  (if mp_create_file plan
   then st_modify (fun f => set_disk (Some (ensure_file (tf_disk f))) f) else mret tt) ;;
  st_iter (fun write => apply_page_write (pw_page_id write) (pw_image write))
    (mp_page_writes plan) ;;
  (if mp_delete_file plan
   then take_file ;;
        st_modify (fun f => set_dirty_pages ∅ (set_page_cache ∅ (set_disk None f)))
   else mret tt) ;;
  st_modify (fun f =>
    match mp_next_page_count plan with Some n => set_page_count n f | None => f end) ;;
  st_modify (fun f =>
    match mp_next_head_page_id plan with Some h => set_head_raw (raw_page_id h) f | None => f end) ;;
  st_modify (fun f =>
    match mp_next_tail_page_id plan with Some t => set_tail_raw (raw_page_id t) f | None => f end).

(** One round of the loop of [build_pl_batch]. *)
Definition build_pl_op (published_page_count : Z) (write : PlannedPageWrite) : TS (option PLOp) :=
  if negb (zlen (pw_image write) =? PAGE_SIZE) then st_lift (Err Encode) else
  if published_page_count <=? pw_page_id write then
    op ← st_lift (page_init_delta (pw_page_id write) (pw_image write));
    mret (Some op)
  else
    old_image ← read_page (pw_page_id write);
    st_lift (page_record_delta (pw_page_id write) (arc_data old_image) (pw_image write)).

Definition build_pl_batch (plan : TimeSeriesFileMutationPlan) : TS (option PLBatch) :=
  f ← st_get;
  match tf_identity f with
  | None => mret None
  | Some identity =>
      page_ops ← st_map (build_pl_op (tf_page_count f)) (mp_page_writes plan);
      let ops := (if mp_create_file plan then [Create] else []) ++ omap id page_ops
                 ++ (if mp_delete_file plan then [Delete] else []) in
      match ops with
      | [] => mret None
      | _ => mret (Some (mkPLBatch [mkPLEntry (pl_file_id identity) ops]))
      end
  end.

(** A method on the image of a planned write. *)
Definition on_image (m : ST ErrorCode (list byte) unit) (write : PlannedPageWrite)
    : RS PlannedPageWrite :=
  image ← on_buffer m (pw_image write);
  Ok (mkPlannedPageWrite (pw_page_id write) image).

Definition persist_plan (now : Z) (plan : TimeSeriesFileMutationPlan) : TS unit :=
  batch ← build_pl_batch plan;
  writes ← match batch with
           | Some batch =>
               frames ← on_wal (backend_serialize_entry batch);
               start_lsn ← st_lift (lsns ← frame_lsns frames;
                                    match lsns with l :: _ => Ok l | [] => Err Internal end);
               writes ← st_lift (mapM (on_image (stamp_page_image_lsn start_lsn ;;
                                                 finalize_page_image_checksum))
                                   (mp_page_writes plan));
               lsns ← st_lift (frame_lsns frames);
               _ ← on_wal (enqueue_group_commit now frames lsns false);
               mret writes
           | None =>
               st_lift (mapM (on_image finalize_page_image_checksum) (mp_page_writes plan))
           end;
  apply_plan (set_page_writes writes plan).

End plan.

(** ** The overlay of a batch *)

Inductive PageInsertLocation :=
| Existing (page_id : Z)
| HeadLatest (page_id : Z)
| Before (page_id : Z)
| After (page_id : Z)
| EmptyFile.

(** [WriteOverlay]; the file it borrows is [pn_file]. *)
Record WriteOverlay := mkWriteOverlay {
  ov_page_images : gmap Z (list byte);
  ov_page_count : Z;
  ov_head_page_id : option Z;
  ov_tail_page_id : option Z;
}.

Record Planning := mkPlanning { pn_file : TimeSeriesFile; pn_overlay : WriteOverlay }.

Notation PN := (ST ErrorCode Planning).

Definition WriteOverlay_new (f : TimeSeriesFile) : WriteOverlay :=
  mkWriteOverlay ∅ (tf_page_count f) (head_page_id f) (tail_page_id f).

Definition on_overlay (g : WriteOverlay -> WriteOverlay) : PN unit :=
  st_modify (fun s => mkPlanning (pn_file s) (g (pn_overlay s))).

Definition ov_set_images x o :=
  mkWriteOverlay x (ov_page_count o) (ov_head_page_id o) (ov_tail_page_id o).
Definition ov_set_head x o :=
  mkWriteOverlay (ov_page_images o) (ov_page_count o) x (ov_tail_page_id o).
Definition ov_set_tail x o :=
  mkWriteOverlay (ov_page_images o) (ov_page_count o) (ov_head_page_id o) x.
Definition ov_set_count x o :=
  mkWriteOverlay (ov_page_images o) x (ov_head_page_id o) (ov_tail_page_id o).

(** A call on the borrowed file. *)
Definition on_file {A} (m : TS A) : PN A :=
  fun s => let '(r, f) := m (pn_file s) in (r, mkPlanning f (pn_overlay s)).

Section write.
Context `{Packages}.

Definition alloc_page_id : PN Z :=
  s ← st_get;
  next ← st_lift (uadd (ov_page_count (pn_overlay s)) 1);
  on_overlay (ov_set_count next) ;;
  mret (ov_page_count (pn_overlay s)).

Definition overlay_read_page (page_id : Z) : PN (list byte) :=
  s ← st_get;
  match ov_page_images (pn_overlay s) !! page_id with
  | Some image => mret image
  | None => page ← on_file (read_page page_id); mret (arc_data page)
  end.

Definition write_page_image (page_id : Z) (image : list byte) : PN unit :=
  on_overlay (fun o => ov_set_images (<[page_id := image]> (ov_page_images o)) o).

Definition take_page_for_mutation (page_id : Z) : PN (list byte) :=
  s ← st_get;
  match ov_page_images (pn_overlay s) !! page_id with
  | Some image =>
      on_overlay (fun o => ov_set_images (delete page_id (ov_page_images o)) o) ;;
      mret image
  | None => page ← on_file (read_page page_id); mret (arc_data page)
  end.

Definition into_plan (s : Planning) : TimeSeriesFileMutationPlan :=
  let f := pn_file s in
  let o := pn_overlay s in
  let images := sort_stable (fun a b : Z * list byte => a.1 <=? b.1)
                  (map_to_list (ov_page_images o)) in
  mkPlan false false ((fun i => mkPlannedPageWrite i.1 i.2) <$> images)
    (if ov_page_count o =? tf_page_count f then None else Some (ov_page_count o))
    (if decide (ov_head_page_id o = head_page_id f) then None else Some (ov_head_page_id o))
    (if decide (ov_tail_page_id o = tail_page_id f) then None else Some (ov_tail_page_id o)).

(** The copy of a page with other links; [links] gets the old header. *)
Definition relinked (links : PageHeader -> Z * Z) (page : list byte) : RS (list byte) :=
  page ← try_new page;
  h ← header page;
  on_buffer (set_page_links (links h).1 (links h).2) page.

Definition find_split_index (entries : list TimeSeriesRecord) : RS nat :=
  match list_find (fun n => page_entries_fit (take n entries) && page_entries_fit (drop n entries))
          (seq 1 (length entries - 1)) with
  | Some (_, split_at) => Ok split_at
  | None => Err InsufficientBufferSpace
  end.

Definition page_entries (page : list byte) (page_id : Z) : RS (list TimeSeriesRecord) :=
  count ← slot_count page;
  mapM (fun slot_index =>
          slot ← slot_ref page slot_index;
          payload ← record_bytes page slot_index;
          Ok (mkTimeSeriesRecord (ref_timestamp slot) (ref_tuple_id slot) payload
                page_id slot_index))
    (seqZ 0 count).

(** A new page with one record and the given links. *)
Definition single_record_page (page_id prev_page next_page timestamp tuple_id : Z)
    (payload : list byte) (f : TimeSeriesFile) : RS (list byte) :=
  page_buf ← empty_page_image page_id (tf_tuple_format_version f) (tf_tuple_schema_hash f)
               (tf_tuple_flags f);
  on_buffer (set_page_links prev_page next_page ;;
             insert_record timestamp tuple_id payload) page_buf.

Definition plan_insert_before_page (next_page_id timestamp tuple_id : Z) (payload : list byte)
    : PN unit :=
  page_id ← alloc_page_id;
  next_page_buf ← overlay_read_page next_page_id;
  next_page ← st_lift (try_new next_page_buf);
  prev_page_id ← st_lift (active_prev_page next_page);
  new_page_buf ← st_reads (fun s => single_record_page page_id (default NONE_PAGE_ID prev_page_id)
                                      next_page_id timestamp tuple_id payload (pn_file s));
  updated_next_buf ← st_lift (relinked (fun h => (page_id, ph_next_page h)) next_page_buf);
  write_page_image page_id new_page_buf ;;
  write_page_image next_page_id updated_next_buf ;;
  match prev_page_id with
  | Some prev_page_id =>
      prev_page_buf ← overlay_read_page prev_page_id;
      updated_prev_buf ← st_lift (relinked (fun h => (ph_prev_page h, page_id)) prev_page_buf);
      write_page_image prev_page_id updated_prev_buf
  | None => on_overlay (ov_set_head (Some page_id))
  end.

(** Links the page behind the new page [page_id] to it; without one, the new
    page is the tail. *)
Definition link_successor (page_id : Z) (next_page_id : option Z) : PN unit :=
  match next_page_id with
  | Some next_page_id =>
      next_page_buf ← overlay_read_page next_page_id;
      updated_next_buf ← st_lift (relinked (fun h => (page_id, ph_next_page h)) next_page_buf);
      write_page_image next_page_id updated_next_buf
  | None => on_overlay (ov_set_tail (Some page_id))
  end.

(** [PageInsertLocation::After]. *)
Definition plan_insert_after_page (prev_page_id timestamp tuple_id : Z) (payload : list byte)
    : PN unit :=
  page_id ← alloc_page_id;
  prev_page_buf ← overlay_read_page prev_page_id;
  prev_page ← st_lift (try_new prev_page_buf);
  next_page_id ← st_lift (active_next_page prev_page);
  new_page_buf ← st_reads (fun s => single_record_page page_id prev_page_id
                                      (default NONE_PAGE_ID next_page_id)
                                      timestamp tuple_id payload (pn_file s));
  updated_prev_buf ← st_lift (relinked (fun h => (ph_prev_page h, page_id)) prev_page_buf);
  write_page_image page_id new_page_buf ;;
  write_page_image prev_page_id updated_prev_buf ;;
  link_successor page_id next_page_id ;;
  on_overlay (fun o => match ov_head_page_id o with
                       | None => ov_set_head (Some page_id) o
                       | Some _ => o
                       end).

Definition plan_update_in_page (page_id slot_index timestamp tuple_id : Z) (payload : list byte)
    : PN unit :=
  page_buf ← take_page_for_mutation page_id;
  page_buf ← st_lift (on_buffer (update_record slot_index timestamp tuple_id payload) page_buf);
  write_page_image page_id page_buf.

Definition plan_split_insert_full_page (page_id timestamp tuple_id : Z) (payload : list byte)
    : PN unit :=
  page_buf ← overlay_read_page page_id;
  page ← st_lift (try_new page_buf);
  entries ← st_lift (page_entries page page_id);
  let entries := sort_stable record_le
                   (entries ++ [mkTimeSeriesRecord timestamp tuple_id payload page_id 0]) in
  split_at ← st_lift (find_split_index entries);
  let lower_entries := take split_at entries in
  let upper_entries := drop split_at entries in
  h ← st_lift (header page);
  old_next_page_id ← st_lift (active_next_page page);
  new_page_id ← alloc_page_id;
  current_page_buf ← st_reads (fun s => build_entries_page_image page_id (ph_prev_page h)
      new_page_id upper_entries (tf_tuple_format_version (pn_file s))
      (tf_tuple_schema_hash (pn_file s)) (tf_tuple_flags (pn_file s)));
  new_page_buf ← st_reads (fun s => build_entries_page_image new_page_id page_id
      (default NONE_PAGE_ID old_next_page_id) lower_entries (tf_tuple_format_version (pn_file s))
      (tf_tuple_schema_hash (pn_file s)) (tf_tuple_flags (pn_file s)));
  write_page_image page_id current_page_buf ;;
  write_page_image new_page_id new_page_buf ;;
  link_successor new_page_id old_next_page_id.

(** The loop of [find_insert_location]. *)
Fixpoint locate_loop (fuel : nat) (current : Z) (last_non_empty : option Z) (is_head : bool)
    (timestamp : Z) : PN PageInsertLocation :=
  match fuel with
  | O => st_lift Panic
  | S fuel =>
      page_buf ← overlay_read_page current;
      page ← st_lift (try_new page_buf);
      bounds ← st_lift (timestamp_bounds page);
      let continue last_non_empty :=
        next ← st_lift (active_next_page page);
        match next with
        | Some next => locate_loop fuel next last_non_empty false timestamp
        | None => mret (After (default current last_non_empty))
        end in
      match bounds with
      | Some (min_ts, max_ts) =>
          if max_ts <? timestamp
          then mret (if is_head then HeadLatest current else Before current)
          else if min_ts <=? timestamp then mret (Existing current)
          else continue (Some current)
      | None => continue last_non_empty
      end
  end.

Definition find_insert_location (timestamp : Z) : PN PageInsertLocation :=
  s ← st_get;
  match ov_head_page_id (pn_overlay s) with
  | None => mret EmptyFile
  | Some head => locate_loop (chain_fuel (ov_page_count (pn_overlay s))) head None true timestamp
  end.

(** [PageInsertLocation::Existing] and [HeadLatest]. *)
Definition plan_insert_in_page (is_head_latest : bool) (page_id timestamp tuple_id : Z)
    (payload : list byte) : PN unit :=
  page_buf ← overlay_read_page page_id;
  page ← st_lift (try_new page_buf);
  s ← st_get;
  let hash := tf_tuple_schema_hash (pn_file s) in
  st_lift (if negb (hash =? 0)
           then h ← header page; if negb (ph_tuple_schema_hash h =? hash) then Err Decode else Ok tt
           else Ok tt) ;;
  update_slot_index ← st_lift (find_slot_index page timestamp tuple_id);
  match update_slot_index with
  | Some slot_index => plan_update_in_page page_id slot_index timestamp tuple_id payload
  | None =>
      page_buf ← take_page_for_mutation page_id;
      match insert_record timestamp tuple_id payload page_buf with
      | (Ok _, page_buf) => write_page_image page_id page_buf
      | (Err InsufficientBufferSpace, page_buf) =>
          write_page_image page_id page_buf ;;
          if is_head_latest : bool
          then plan_insert_before_page page_id timestamp tuple_id payload
          else plan_split_insert_full_page page_id timestamp tuple_id payload
      | (Err err, page_buf) => write_page_image page_id page_buf ;; st_lift (Err err)
      | (Panic, _) => st_lift Panic
      end
  end.

Definition plan_row_insert (row : Z * Z * list byte) : PN unit :=
  let '(timestamp, tuple_id, payload) := row in
  location ← find_insert_location timestamp;
  match location with
  | EmptyFile =>
      page_id ← alloc_page_id;
      s ← st_get;
      page_buf ← st_lift (empty_page_image page_id (tf_tuple_format_version (pn_file s))
                            (tf_tuple_schema_hash (pn_file s)) (tf_tuple_flags (pn_file s)));
      page_buf ← st_lift (on_buffer (insert_record timestamp tuple_id payload) page_buf);
      write_page_image page_id page_buf ;;
      on_overlay (ov_set_head (Some page_id)) ;;
      on_overlay (ov_set_tail (Some page_id))
  | Existing page_id => plan_insert_in_page false page_id timestamp tuple_id payload
  | HeadLatest page_id => plan_insert_in_page true page_id timestamp tuple_id payload
  | Before next_page_id => plan_insert_before_page next_page_id timestamp tuple_id payload
  | After prev_page_id => plan_insert_after_page prev_page_id timestamp tuple_id payload
  end.

(** ** The flush of dirty pages *)

Definition persisted_page_image (image : list byte) : RS (list byte) :=
  valid ← page_image_checksum_valid image;
  if valid : bool then Ok image else on_buffer finalize_page_image_checksum image.

Definition clear_dirty_mark (page_id : Z) (flushed : Arc) : TS unit :=
  st_modify (fun f =>
    match tf_page_cache f !! page_id with
    | Some image =>
        if arc_ptr image =? arc_ptr flushed
        then set_dirty_pages (tf_dirty_pages f ∖ {[page_id]}) f else f
    | None => f
    end).

Definition dirty_page_images : TS (list (Z * Arc)) :=
  fun f =>
    let cached := filter (fun page_id => is_Some (tf_page_cache f !! page_id))
                    (elements (tf_dirty_pages f)) in
    let images := omap (fun page_id => image ← tf_page_cache f !! page_id; Some (page_id, image))
                    (elements (tf_dirty_pages f)) in
    (Ok (sort_stable (fun a b : Z * Arc => a.1 <=? b.1) images),
     set_dirty_pages (list_to_set cached) f).

(** [DirtyPageWrite]: the page, the cached image and the image to write. *)
Definition DirtyPageWrite : Type := Z * Arc * list byte.

Definition DIRTY_FLUSH_BATCH : Z := 16.
Definition DIRTY_PAGE_FLUSH_THRESHOLD : Z := 256.

(** [first_err.get_or_insert(err)]. *)
Definition keep_first (first_err : option ErrorCode) (r : Res ErrorCode unit)
    : Res ErrorCode (option ErrorCode) :=
  match first_err, r with
  | Some _, Ok _ | Some _, Err _ => Ok first_err
  | None, Ok _ => Ok None
  | None, Err e => Ok (Some e)
  | _, Panic => Panic
  end.

(** The writes go out together and are awaited together; an offset that
    overflows returns before any of them.  The batch left over is returned
    with the result. *)
Definition flush_dirty_batch (batch : list DirtyPageWrite)
    : TS (Res ErrorCode unit * list DirtyPageWrite) :=
  match mapM (fun w : DirtyPageWrite => page_offset w.1.1) batch with
  | Ok offsets =>
      st_iter (fun ow : Z * DirtyPageWrite => on_disk (write_all_at ow.1 ow.2.2))
        (zip offsets batch) ;;
      st_iter (fun w : DirtyPageWrite => clear_dirty_mark w.1.1 w.1.2) batch ;;
      mret (Ok tt, [])
  | Err e => mret (Err e, batch)
  | Panic => st_lift Panic
  end.

(** The sweep over the snapshot of the dirty images. *)
Fixpoint flush_sweep (images : list (Z * Arc)) (batch : list DirtyPageWrite)
    (first_err : option ErrorCode) : TS (list DirtyPageWrite * option ErrorCode) :=
  match images with
  | [] => mret (batch, first_err)
  | (page_id, image) :: images =>
      match persisted_page_image (arc_data image) with
      | Ok persisted =>
          let batch := batch ++ [(page_id, image, persisted)] in
          if DIRTY_FLUSH_BATCH <=? zlen batch then
            '(r, batch) ← flush_dirty_batch batch;
            first_err ← st_lift (keep_first first_err r);
            flush_sweep images batch first_err
          else flush_sweep images batch first_err
      | Err e =>
          first_err ← st_lift (keep_first first_err (Err e));
          flush_sweep images batch first_err
      | Panic => st_lift Panic
      end
  end.

(** [flush_dirty_pages] behind the snapshot. *)
Definition flush_images (images : list (Z * Arc)) : TS unit :=
  '(batch, first_err) ← flush_sweep images [] None;
  first_err ← match batch with
              | [] => mret first_err
              | _ => '(r, _) ← flush_dirty_batch batch; st_lift (keep_first first_err r)
              end;
  match first_err with Some e => st_lift (Err e) | None => mret tt end.

Definition flush_dirty_pages : TS unit :=
  f ← st_get;
  if decide (tf_dirty_pages f = ∅) then mret tt else
  file_ref ;;
  images ← dirty_page_images;
  flush_images images.

Definition flush_dirty_pages_sync : TS unit :=
  f ← st_get;
  if decide (tf_dirty_pages f = ∅) then mret tt else
  file_ref ;;
  images ← dirty_page_images;
  st_iter (fun pi : Z * Arc =>
             persisted ← st_lift (persisted_page_image (arc_data pi.2));
             offset ← st_lift (page_offset pi.1);
             on_disk (write_all_at offset persisted) ;;
             clear_dirty_mark pi.1 pi.2) images.

Definition flush_dirty_pages_if_over_threshold : TS unit :=
  f ← st_get;
  if DIRTY_PAGE_FLUSH_THRESHOLD <=? Z.of_nat (size (tf_dirty_pages f))
  then flush_dirty_pages else mret tt.

(** ** The writers *)

Context `{Msgpack PLBatch}.

(** The overlay is dropped when a row fails. *)
Definition insert_batch (now : Z) (rows : list (Z * Z * list byte)) : TS unit :=
  match rows with
  | [] => mret tt
  | _ =>
      (fun f =>
         match st_iter plan_row_insert rows (mkPlanning f (WriteOverlay_new f)) with
         | (Ok _, s) => persist_plan now (into_plan s) (pn_file s)
         | (Err e, s) => (Err e, pn_file s)
         | (Panic, s) => (Panic, pn_file s)
         end) ;;
      flush_dirty_pages_if_over_threshold
  end.

Definition file_insert (now timestamp tuple_id : Z) (payload : list byte) : TS unit :=
  insert_batch now [(timestamp, tuple_id, payload)].

Fixpoint delete_loop (fuel : nat) (now : Z) (current : option Z) (timestamp tuple_id : Z)
    : TS bool :=
  match current, fuel with
  | None, _ => mret false
  | Some _, O => st_lift Panic
  | Some page_id, S fuel =>
      page_buf ← read_page page_id;
      page ← st_lift (try_new (arc_data page_buf));
      bounds ← st_lift (timestamp_bounds page);
      let continue :=
        next ← st_lift (active_next_page page);
        delete_loop fuel now next timestamp tuple_id in
      match bounds with
      | Some (min_ts, max_ts) =>
          if max_ts <? timestamp then mret false
          else if timestamp <? min_ts then continue
          else
            slot_index ← st_lift (find_slot_index page timestamp tuple_id);
            match slot_index with
            | Some slot_index =>
                page_buf ← st_lift (on_buffer (delete_record slot_index) (arc_data page_buf));
                persist_plan now
                  (mkPlan false false [mkPlannedPageWrite page_id page_buf] None None None) ;;
                mret true
            | None => continue
            end
      | None => continue
      end
  end.

Definition file_delete (now timestamp tuple_id : Z) : TS bool :=
  f ← st_get;
  deleted ← delete_loop (chain_fuel (tf_page_count f)) now (head_page_id f) timestamp tuple_id;
  flush_dirty_pages_if_over_threshold ;;
  mret deleted.

Definition flush_wal_async : TS unit :=
  f ← st_get;
  match tf_wal_backend f with
  | Some _ => on_wal (run_flush_log ;; fsync_unsynced_paths)
  | None => mret tt
  end.

End write.

(** ** Opening *)

Section open.
Context `{Packages} `{Msgpack PLBatch}.

(** The headers of all pages, after the checks on each of them. *)
Definition load_header (file : list byte) (expected_schema_hash page_id : Z) : RS PageHeader :=
  offset ← page_offset page_id;
  buf ← read_exact_at offset PAGE_SIZE file;
  page ← try_new buf;
  validate_layout page ;;
  h ← header page;
  if negb (expected_schema_hash =? 0) && (ph_tuple_format_version h =? 0) then Err Decode else
  if negb (expected_schema_hash =? 0) && negb (ph_tuple_schema_hash h =? expected_schema_hash)
  then Err Decode else
  Ok h.

Definition index {A} (l : list A) (i : Z) : RS A :=
  match l !! Z.to_nat i with Some a => Ok a | None => Panic end.

(** The walk along the chain; each round marks a new page as visited, so one
    more round than there are pages is never reached. *)
Fixpoint walk_chain (fuel : nat) (file : list byte) (headers : list PageHeader) (current : Z)
    (visited : list bool) (prev_non_empty_min : option Z) : RS (list bool) :=
  match fuel with
  | O => Panic
  | S fuel =>
      seen ← index visited current;
      if seen : bool then Err Decode else
      let visited := <[Z.to_nat current := true]> visited in
      h ← index headers current;
      let next := if negb (ph_next_page h =? NONE_PAGE_ID) then Some (ph_next_page h) else None in
      match next with
      | Some next =>
          next_header ← index headers next;
          if negb (ph_prev_page next_header =? current) then Err Decode else Ok tt
      | None => Ok tt
      end ;;
      offset ← page_offset current;
      buf ← read_exact_at offset PAGE_SIZE file;
      page ← try_new buf;
      bounds ← timestamp_bounds page;
      prev_non_empty_min ←
        match bounds with
        | Some (min_ts, page_max) =>
            match prev_non_empty_min with
            | Some prev_min => if prev_min <? page_max then Err Decode else Ok (Some min_ts)
            | None => Ok (Some min_ts)
            end
        | None => Ok prev_non_empty_min
        end;
      match next with
      | Some next => walk_chain fuel file headers next visited prev_non_empty_min
      | None => Ok visited
      end
  end.

Definition load_chain_metadata (file : list byte) (page_count expected_schema_hash : Z)
    : RS (option Z * option Z) :=
  if page_count =? 0 then Ok (None, None) else
  headers ← mapM (load_header file expected_schema_hash) (seqZ 0 page_count);
  let heads := ph_page_id <$> filter (fun h => ph_prev_page h = NONE_PAGE_ID) headers in
  let tails := ph_page_id <$> filter (fun h => ph_next_page h = NONE_PAGE_ID) headers in
  match heads, tails with
  | [head], [tail] =>
      visited ← walk_chain (chain_fuel page_count) file headers head
                  (replicate (Z.to_nat page_count) false) None;
      if existsb negb visited then Err Decode else Ok (Some head, Some tail)
  | _, _ => Err Decode
  end.

(** [open_inner_with_fs] and [open_inner_sync]; without [O_CREAT] the file
    must exist. *)
Definition open_inner (disk : option (list byte)) (identity : option TimeSeriesFileIdentity)
    (wal_backend : option WorkerWALBackend) (tuple_schema_hash : Z) (create_if_missing : bool)
    : RS TimeSeriesFile :=
  file ← match disk with
         | Some file => Ok file
         | None => if create_if_missing then Ok [] else Err NotFound
         end;
  let len := file_len file in
  if negb (len mod PAGE_SIZE =? 0) then Err Decode else
  let page_count := len / PAGE_SIZE in
  '(head_page_id, tail_page_id) ← load_chain_metadata file page_count tuple_schema_hash;
  Ok (mkTimeSeriesFile identity (Some file) true wal_backend ∅ 0 ∅ page_count
        (raw_page_id head_page_id) (raw_page_id tail_page_id)
        (if negb (tuple_schema_hash =? 0) then 1 else 0) tuple_schema_hash 0).

Definition RELATION_WAL_CHUNK_SIZE : Z := 256 * 1024.

(** [TypedWorkerLog::append]. *)
Definition append_pl_batch (batch : PLBatch) : WAL unit :=
  frames ← backend_serialize_entry batch;
  append_frames_async frames.

Definition append_file_create (identity : TimeSeriesFileIdentity) : WAL unit :=
  append_pl_batch (mkPLBatch [mkPLEntry (pl_file_id identity) [Create]]).

(** [recover_relation_file_async] on the chunk files of the log. *)
Definition recover_relation_file (identity : TimeSeriesFileIdentity)
    (wal_files : gmap Z (list byte)) : ST ErrorCode (option (list byte)) unit :=
  recover_files (handle_entry (pl_file_id identity)) (mret tt) wal_files.

(** [open_relation_file]: the state is the data file. *)
Definition open_relation_file (wal_files : gmap Z (list byte)) (identity : TimeSeriesFileIdentity)
    (tuple_schema_hash : Z) (create_if_missing : bool)
    : ST ErrorCode (option (list byte)) TimeSeriesFile :=
  s ← st_lift (WorkerWALBackend_new RELATION_WAL_CHUNK_SIZE WorkerLogBatching_default Commit
                 wal_files);
  recover_relation_file identity (wb_files s) ;;
  disk ← st_get;
  s ← st_lift (match disk with
               | None =>
                   if create_if_missing
                   then match append_file_create identity s with
                        | (Ok _, s) => Ok s
                        | (Err e, _) => Err e
                        | (Panic, _) => Panic
                        end
                   else Ok s
               | Some _ => Ok s
               end);
  f ← st_lift (open_inner disk (Some identity) (Some s) tuple_schema_hash create_if_missing);
  st_put (tf_disk f) ;;
  mret f.

Definition delete_file : TS unit :=
  f ← st_get;
  match tf_identity f with
  | Some identity =>
      on_wal (append_pl_batch (mkPLBatch [mkPLEntry (pl_file_id identity) [Delete]]))
  | None => mret tt
  end ;;
  take_file ;;
  st_modify (set_disk None).

Definition flush : TS unit := flush_dirty_pages ;; file_ref.

Definition close : TS unit := flush_wal_async ;; flush_dirty_pages ;; take_file.

Definition close_sync : TS unit := flush_dirty_pages_sync ;; take_file.

End open.
