(* ===== verification/Chain.v ===== *)
(** * Chains of pages

    What the page chain of a time-series file means to its clients: a list of
    pages from the newest to the oldest, each with the records it holds, and
    the map from keys to payloads that it stands for.  A key on several pages
    has the payload of the newest one. *)

From S2P Require Import Prelude Errors Compat PageFormat PageBlock RecordSpec RecordMap PageImage.
From S2P Require Import TsFile.

Record ChainPage := mkChainPage { cp_header : PageHeader; cp_recs : list Rec }.

Definition cp_id (p : ChainPage) : Z := ph_page_id (cp_header p).

Definition cp_map (p : ChainPage) : gmap (Z * Z) (list byte) := to_map (cp_recs p).

Definition chain_map (ps : list ChainPage) : gmap (Z * Z) (list byte) :=
  foldr (fun p m => cp_map p ∪ m) ∅ ps.

(** No record of [q] is newer than one of [p]. *)
Definition page_ge (p q : ChainPage) : Prop :=
  forall r r', r ∈ cp_recs p -> r' ∈ cp_recs q -> r_ts r' <= r_ts r.

Definition chain_ordered (ps : list ChainPage) : Prop :=
  Forall (fun p => keys_sorted (cp_recs p)) ps /\ StronglySorted page_ge ps.

(** Smallest and greatest timestamp of sorted records. *)
Definition ts_bounds (rs : list Rec) : option (Z * Z) :=
  match head rs, last rs with
  | Some a, Some b => Some (r_ts a, r_ts b)
  | _, _ => None
  end.

(** The choice of [find_insert_location]. *)
Fixpoint locate (timestamp : Z) (is_head : bool) (last_non_empty : option Z)
    (ps : list ChainPage) : PageInsertLocation :=
  match ps with
  | [] => EmptyFile
  | p :: ps =>
      let continue last := match ps with
                           | [] => After (default (cp_id p) last)
                           | _ => locate timestamp false last ps
                           end in
      match ts_bounds (cp_recs p) with
      | Some (min_ts, max_ts) =>
          if max_ts <? timestamp then if is_head then HeadLatest (cp_id p) else Before (cp_id p)
          else if min_ts <=? timestamp then Existing (cp_id p)
          else continue (Some (cp_id p))
      | None => continue last_non_empty
      end
  end.

(** All records of the pages are newer, or older, than a timestamp. *)
Definition all_newer (ts : Z) (ps : list ChainPage) : Prop :=
  Forall (fun p => Forall (fun r => ts < r_ts r) (cp_recs p)) ps.
Definition all_older (ts : Z) (ps : list ChainPage) : Prop :=
  Forall (fun p => Forall (fun r => r_ts r < ts) (cp_recs p)) ps.

(** ** Bounds *)

Lemma ts_bounds_none rs : ts_bounds rs = None -> rs = [].
Proof.
  unfold ts_bounds. destruct rs as [| r rs]; [done |]. cbn [head]. rewrite last_cons.
  by destruct (last rs).
Qed.

Lemma ts_bounds_some rs mn mx :
  keys_sorted rs -> ts_bounds rs = Some (mn, mx) ->
  (forall r, r ∈ rs -> mn <= r_ts r <= mx) /\
  (exists r, r ∈ rs /\ r_ts r = mn) /\ (exists r, r ∈ rs /\ r_ts r = mx).
Proof.
  intros Hs. unfold ts_bounds.
  destruct (head rs) as [a |] eqn:Ha; [| done]. destruct (last rs) as [b |] eqn:Hb; [| done].
  intros [= <- <-]. rewrite head_lookup in Ha. rewrite last_lookup in Hb. split_and!.
  - intros r Hr. apply list_elem_of_lookup in Hr as [i Hi].
    pose proof (lookup_lt_Some _ _ _ Hi) as Hlt.
    assert (forall j c, rs !! j = Some c -> (j <= i)%nat -> r_ts c <= r_ts r) as Hl.
    { intros j c Hc Hj. destruct (decide (j = i)) as [-> | Hne]; [simplify_eq; lia |].
      assert (key_lt c r) as Hk by (eapply StronglySorted_lookup; [exact Hs | | done | done]; lia).
      unfold key_lt in Hk. lia. }
    assert (forall j c, rs !! j = Some c -> (i <= j)%nat -> r_ts r <= r_ts c) as Hu.
    { intros j c Hc Hj. destruct (decide (j = i)) as [-> | Hne]; [simplify_eq; lia |].
      assert (key_lt r c) as Hk by (eapply StronglySorted_lookup; [exact Hs | | done | done]; lia).
      unfold key_lt in Hk. lia. }
    split; [apply (Hl 0%nat); [done | lia] | eapply Hu; [exact Hb | lia]].
  - exists a. split; [by eapply list_elem_of_lookup_2 | done].
  - exists b. split; [by eapply list_elem_of_lookup_2 | done].
Qed.

(** ** Keys that are not on a page *)

Lemma cp_map_none p k : (forall r, r ∈ cp_recs p -> r_ts r <> k.1) -> cp_map p !! k = None.
Proof.
  intros Hr. apply to_map_none. intros Hin. apply list_elem_of_fmap in Hin as (r & -> & Hin).
  by apply (Hr r).
Qed.

Lemma chain_map_none ps k :
  Forall (fun p => Forall (fun r => r_ts r <> k.1) (cp_recs p)) ps -> chain_map ps !! k = None.
Proof.
  induction 1 as [| p ps Hp HF IH]; cbn [chain_map foldr]; [done |].
  rewrite lookup_union_r; [exact IH |]. apply cp_map_none. by apply Forall_forall.
Qed.

Lemma chain_map_newer ts id ps : all_newer ts ps -> chain_map ps !! (ts, id) = None.
Proof.
  intros HF. apply chain_map_none. eapply Forall_impl; [exact HF |]. intros p Hp.
  eapply Forall_impl; [exact Hp |]. cbn. lia.
Qed.

Lemma chain_map_older ts id ps : all_older ts ps -> chain_map ps !! (ts, id) = None.
Proof.
  intros HF. apply chain_map_none. eapply Forall_impl; [exact HF |]. intros p Hp.
  eapply Forall_impl; [exact Hp |]. cbn. lia.
Qed.

Lemma chain_map_app l1 l2 : chain_map (l1 ++ l2) = chain_map l1 ∪ chain_map l2.
Proof.
  induction l1 as [| p l1 IH]; cbn [app chain_map foldr]; [by rewrite (left_id_L ∅ (∪)) |].
  fold (chain_map (l1 ++ l2)) (chain_map l1). rewrite IH. by rewrite (assoc_L (∪)).
Qed.

Lemma chain_map_cons p ps : chain_map (p :: ps) = cp_map p ∪ chain_map ps.
Proof. done. Qed.

(** Pages with no record do not count. *)
Lemma chain_map_empty ps : Forall (fun p => cp_recs p = []) ps -> chain_map ps = ∅.
Proof.
  induction 1 as [| p ps Hp HF IH]; [done |]. rewrite chain_map_cons, IH.
  unfold cp_map. by rewrite Hp.
Qed.

(** An insertion on a page whose newer neighbours do not have the key. *)
Lemma chain_map_put l1 m1 m2 l2 k v :
  chain_map l1 !! k = None -> m1 = <[k := v]> m2 ->
  chain_map l1 ∪ (m1 ∪ chain_map l2) = <[k := v]> (chain_map l1 ∪ (m2 ∪ chain_map l2)).
Proof. intros Hn ->. rewrite <- insert_union_l. symmetry. by apply insert_union_r. Qed.

Lemma to_map_app a b :
  to_map (a ++ b) = to_map a ∪ to_map b.
Proof.
  induction a as [| r a IH]; cbn [app]; [symmetry; apply (left_id_L ∅ (∪)) |].
  rewrite !to_map_cons, IH. by rewrite insert_union_l.
Qed.

(** ** Reading *)

(** What the walk of [get] finds, page by page. *)
Fixpoint spec_get (ts id : Z) (ps : list ChainPage) : option (list byte) :=
  match ps with
  | [] => None
  | p :: ps =>
      match ts_bounds (cp_recs p) with
      | Some (mn, mx) =>
          if mx <? ts then None
          else if ts <? mn then spec_get ts id ps
          else match cp_map p !! (ts, id) with
               | Some v => Some v
               | None => spec_get ts id ps
               end
      | None => spec_get ts id ps
      end
  end.

Lemma ordered_cons p ps :
  chain_ordered (p :: ps) ->
  keys_sorted (cp_recs p) /\ Forall (page_ge p) ps /\ chain_ordered ps.
Proof.
  intros [Hf Hs]. inversion Hf; subst. inversion Hs; subst. by split_and!.
Qed.

(** Behind a page whose records are all older, everything is older. *)
Lemma ordered_older ts p ps r :
  Forall (page_ge p) ps -> r ∈ cp_recs p -> r_ts r < ts -> all_older ts ps.
Proof.
  intros Hge Hr Hlt. eapply Forall_impl; [exact Hge |]. intros q Hq.
  apply Forall_forall. intros r' Hr'. specialize (Hq r r' Hr Hr'). lia.
Qed.

Lemma spec_get_map ts id ps : chain_ordered ps -> spec_get ts id ps = chain_map ps !! (ts, id).
Proof.
  induction ps as [| p ps IH]; intros Ho; [done |].
  destruct (ordered_cons _ _ Ho) as (Hs & Hge & Ho'). cbn [spec_get].
  rewrite chain_map_cons, IH by done.
  destruct (ts_bounds (cp_recs p)) as [[mn mx] |] eqn:Eb.
  - destruct (ts_bounds_some _ _ _ Hs Eb) as (Hb & (a & Ha & Hmn) & (b & Hbm & Hmx)).
    destruct (Z.ltb_spec mx ts) as [Hlt | Hle].
    { rewrite lookup_union_r.
      - symmetry. eapply chain_map_older, ordered_older; [exact Hge | exact Hbm | lia].
      - apply cp_map_none. intros r Hr. specialize (Hb r Hr). cbn. lia. }
    destruct (Z.ltb_spec ts mn) as [Hlt | Hge'].
    { rewrite lookup_union_r; [done |]. apply cp_map_none. intros r Hr. specialize (Hb r Hr). cbn. lia. }
    rewrite lookup_union. destruct (cp_map p !! (ts, id)) as [v |]; [by rewrite union_Some_l |].
    by rewrite (left_id_L None (∪)).
  - unfold cp_map. rewrite (ts_bounds_none _ Eb). change (to_map []) with (∅ : gmap (Z * Z) (list byte)).
    by rewrite (left_id_L ∅ (∪)).
Qed.

(** ** Writing *)

(** The page found by [locate] and what is known of its neighbours. *)
Definition located (ts : Z) (l1 : list ChainPage) (p : ChainPage) (l2 : list ChainPage)
    (where_ : PageInsertLocation) : Prop :=
  match where_ with
  | HeadLatest id => id = cp_id p /\ l1 = [] /\ cp_recs p <> [] /\ all_older ts (p :: l2)
  | Before id => id = cp_id p /\ all_newer ts l1 /\ all_older ts (p :: l2)
  | Existing id =>
      id = cp_id p /\ all_newer ts l1 /\
      (exists a, a ∈ cp_recs p /\ r_ts a <= ts) /\ (exists b, b ∈ cp_recs p /\ ts <= r_ts b)
  | After id =>
      id = cp_id p /\ all_newer ts (l1 ++ [p]) /\ Forall (fun q => cp_recs q = []) l2
  | EmptyFile => False
  end.

(** [pre] is the part of the chain that was walked; its last page with records
    is [pre1]'s last one. *)
Lemma locate_spec ts ps : forall is_head last pre,
  ps <> [] -> chain_ordered ps -> (is_head = true -> pre = []) -> all_newer ts pre ->
  match last with
  | Some i => exists a q b, pre = a ++ q :: b /\ i = cp_id q /\ Forall (fun q => cp_recs q = []) b
  | None => Forall (fun q => cp_recs q = []) pre
  end ->
  exists l1 p l2, pre ++ ps = l1 ++ p :: l2 /\ located ts l1 p l2 (locate ts is_head last ps).
Proof.
  induction ps as [| p ps IH]; intros is_head last pre Hne Ho Hh Hpre Hlast; [done |].
  destruct (ordered_cons _ _ Ho) as (Hs & Hge & Ho').
  cbn [locate]. cbv zeta.
  destruct (ts_bounds (cp_recs p)) as [[mn mx] |] eqn:Eb.
  - destruct (ts_bounds_some _ _ _ Hs Eb) as (Hb & (a & Ha & Hmn) & (b & Hbm & Hmx)).
    destruct (Z.ltb_spec mx ts) as [Hlt | Hle].
    { assert (all_older ts (p :: ps)) as Hold.
      { constructor; [| by eapply ordered_older; [| exact Hbm | lia]].
        apply Forall_forall. intros r Hr. specialize (Hb r Hr). lia. }
      exists pre, p, ps. split; [done |].
      destruct is_head; cbn; split_and!; try done; [by apply Hh |]. by intros E; rewrite E in Ha; apply elem_of_nil in Ha. }
    destruct (Z.leb_spec mn ts) as [Hle' | Hgt].
    { exists pre, p, ps. split; [done |]. cbn. split_and!; try done; [exists a | exists b];
        split; try done; lia. }
    assert (all_newer ts (pre ++ [p])) as Hpre'.
    { apply Forall_app. split; [done |]. constructor; [| constructor].
      apply Forall_forall. intros r Hr. specialize (Hb r Hr). lia. }
    destruct ps as [| q ps].
    { exists pre, p, []. by split_and!. }
    rewrite (cons_middle p), app_assoc. apply IH; [done | done | done | done |].
    exists pre, p, []. by split_and!.
  - pose proof (ts_bounds_none _ Eb) as Er.
    assert (all_newer ts (pre ++ [p])) as Hpre'.
    { apply Forall_app. split; [done |]. constructor; [by rewrite Er | constructor]. }
    destruct ps as [| q ps].
    { destruct last as [i |]; cbn [default].
      - destruct Hlast as (a & q & b & -> & -> & He). exists a, q, (b ++ [p]).
        rewrite <- app_assoc. split; [done |]. cbn. split_and!; [done | |].
        + rewrite <- app_assoc in Hpre'. cbn [app] in Hpre'. rewrite (cons_middle q) in Hpre'.
          rewrite app_assoc in Hpre'. by apply Forall_app in Hpre' as [].
        + apply Forall_app. split; [done |]. by constructor.
      - exists pre, p, []. by split_and!. }
    rewrite (cons_middle p), app_assoc. apply IH; [done | done | done | done |].
    destruct last as [i |].
    + destruct Hlast as (a & x & b & -> & -> & He). exists a, x, (b ++ [p]).
      rewrite <- app_assoc. split_and!; [done | done |]. apply Forall_app. split; [done |].
      by constructor.
    + apply Forall_app. split; [done |]. by constructor.
Qed.

Lemma ordered_app l1 l2 :
  chain_ordered (l1 ++ l2) <->
  chain_ordered l1 /\ chain_ordered l2 /\ forall p q, p ∈ l1 -> q ∈ l2 -> page_ge p q.
Proof.
  unfold chain_ordered. rewrite Forall_app, StronglySorted_app_iff. unfold page_ge. naive_solver.
Qed.

Lemma ordered_single p : chain_ordered [p] <-> keys_sorted (cp_recs p).
Proof.
  unfold chain_ordered. rewrite Forall_singleton. split; [by intros [] |].
  intros. by split; [| repeat constructor].
Qed.

Lemma ordered_mid l1 p l2 :
  chain_ordered (l1 ++ p :: l2) <->
  chain_ordered l1 /\ keys_sorted (cp_recs p) /\ chain_ordered l2 /\
  (forall q, q ∈ l1 -> page_ge q p) /\ (forall q, q ∈ l2 -> page_ge p q) /\
  (forall q q', q ∈ l1 -> q' ∈ l2 -> page_ge q q').
Proof.
  rewrite (cons_middle p), !ordered_app, ordered_single. split.
  - intros (H1 & (Hp & H2 & H3) & Hc). split_and!; try done.
    + intros q Hq. apply Hc; [done | by left].
    + intros q Hq. apply H3; [by left | done].
    + intros q q' Hq Hq'. apply Hc; [done | by right].
  - intros (H1 & Hp & H2 & Ha & Hb & Hc). split_and!; try done.
    + intros q q' Hq%list_elem_of_singleton Hq'. subst. by apply Hb.
    + intros q q' Hq [Hq'%list_elem_of_singleton | Hq']%elem_of_app; [subst; by apply Ha | by apply Hc].
Qed.

(** The records of a chain, page by page. *)
Definition chain_recs (ps : list ChainPage) : list Rec := concat (cp_recs <$> ps).

Lemma chain_recs_app l1 l2 : chain_recs (l1 ++ l2) = chain_recs l1 ++ chain_recs l2.
Proof. unfold chain_recs. by rewrite fmap_app, concat_app. Qed.

Lemma chain_recs_cons p l : chain_recs (p :: l) = cp_recs p ++ chain_recs l.
Proof. done. Qed.

(** Records that are put in the middle of a chain. *)
Lemma chain_recs_mid l1 a b l2 r :
  a ⊆+ r :: b -> chain_recs l1 ++ a ++ chain_recs l2 ⊆+ r :: chain_recs l1 ++ b ++ chain_recs l2.
Proof.
  intros Hab. rewrite Permutation_middle. apply submseteq_skips_l.
  rewrite app_comm_cons. by apply submseteq_skips_r.
Qed.

(** The chain after the insertion of a record: its map has the record, and no
    other record is new. *)
Definition row_done (ps : list ChainPage) (r : Rec) (ps' : list ChainPage) : Prop :=
  chain_ordered ps' /\ chain_map ps' = <[rec_key r := r_payload r]> (chain_map ps) /\
  chain_recs ps' ⊆+ r :: chain_recs ps.

Lemma spec_upsert_sub r rs : spec_upsert r rs ⊆+ r :: rs.
Proof.
  unfold spec_upsert, spec_update. destruct (spec_find _ _ rs) as [i |]; rewrite spec_insert_perm; [| done].
  apply submseteq_skip, sublist_submseteq, sublist_delete.
Qed.

Lemma spec_upsert_elem r rs x :
  x ∈ spec_upsert r rs -> x = r \/ x ∈ rs.
Proof.
  unfold spec_upsert, spec_update. destruct (spec_find _ _ rs) as [i |]; intros Hx.
  - rewrite spec_insert_perm in Hx. apply elem_of_cons in Hx as [-> | Hx]; [by left | right].
    apply list_elem_of_lookup in Hx as [j Hj]. apply list_elem_of_lookup.
    rewrite list_lookup_delete in Hj. case_decide; eauto.
  - rewrite spec_insert_perm in Hx. by apply elem_of_cons in Hx.
Qed.

(** [p] with a record whose timestamp is between those of its neighbours. *)
Lemma row_done_upsert l1 p l2 r h' :
  chain_ordered (l1 ++ p :: l2) -> chain_map l1 !! rec_key r = None ->
  (forall q x, q ∈ l1 -> x ∈ cp_recs q -> r_ts r <= r_ts x) ->
  (forall q x, q ∈ l2 -> x ∈ cp_recs q -> r_ts x <= r_ts r) ->
  row_done (l1 ++ p :: l2) r (l1 ++ mkChainPage h' (spec_upsert r (cp_recs p)) :: l2).
Proof.
  rewrite ordered_mid. intros (H1 & Hp & H2 & Ha & Hb & Hc) Hk Hn Ho. split; [| split].
  - apply ordered_mid. split_and!; try done.
    + by apply spec_upsert_sorted.
    + intros q Hq x y Hx [-> | Hy]%spec_upsert_elem; [by eapply Hn | by eapply Ha].
    + intros q Hq x y [-> | Hx]%spec_upsert_elem Hy; [by eapply Ho | by eapply Hb].
  - rewrite !chain_map_app, !chain_map_cons. apply chain_map_put; [done |].
    by apply to_map_upsert.
  - rewrite !chain_recs_app, !chain_recs_cons. apply chain_recs_mid, spec_upsert_sub.
Qed.

(** A page of its own for the record. *)
Lemma row_done_new l1 l2 r h' :
  chain_ordered (l1 ++ l2) -> chain_map l1 !! rec_key r = None ->
  (forall q x, q ∈ l1 -> x ∈ cp_recs q -> r_ts r <= r_ts x) ->
  (forall q x, q ∈ l2 -> x ∈ cp_recs q -> r_ts x <= r_ts r) ->
  row_done (l1 ++ l2) r (l1 ++ mkChainPage h' [r] :: l2).
Proof.
  rewrite ordered_app. intros (H1 & H2 & Hc) Hk Hn Ho. split; [| split].
  - apply ordered_mid. split_and!; try done.
    + repeat constructor.
    + intros q Hq x y Hx ->%list_elem_of_singleton. by eapply Hn.
    + intros q Hq x y ->%list_elem_of_singleton Hy. by eapply Ho.
  - rewrite !chain_map_app, !chain_map_cons.
    rewrite <- (left_id_L ∅ (∪) (chain_map l2)) at 2. by apply chain_map_put.
  - rewrite !chain_recs_app, !chain_recs_cons. by apply (chain_recs_mid l1 [r] []).
Qed.

(** [p] split in two. *)
Lemma row_done_split l1 p l2 r hu hl up low :
  chain_ordered (l1 ++ p :: l2) -> chain_map l1 !! rec_key r = None ->
  (forall q x, q ∈ l1 -> x ∈ cp_recs q -> r_ts r <= r_ts x) ->
  (forall q x, q ∈ l2 -> x ∈ cp_recs q -> r_ts x <= r_ts r) ->
  low ++ up = spec_upsert r (cp_recs p) ->
  row_done (l1 ++ p :: l2) r (l1 ++ mkChainPage hu up :: mkChainPage hl low :: l2).
Proof.
  intros Hord Hk Hn Ho Hsplit.
  destruct (row_done_upsert l1 p l2 r hu Hord Hk Hn Ho) as (Hord' & Hm & _).
  apply ordered_mid in Hord' as (H1 & Hp & H2 & Ha & Hb & Hc). cbn [cp_recs] in Hp.
  rewrite <- Hsplit in Hp. pose proof Hp as Hsort.
  apply StronglySorted_app_iff in Hp as (Hlow & Hup & Hlu).
  assert (forall x, x ∈ low \/ x ∈ up -> x ∈ spec_upsert r (cp_recs p)) as Hin.
  { intros x Hx. rewrite <- Hsplit. by apply elem_of_app. }
  split; [| split].
  - apply ordered_mid. split_and!; try done.
    + change (mkChainPage hl low :: l2) with ([] ++ mkChainPage hl low :: l2). apply ordered_mid.
      split_and!; try done; [by split; constructor | by intros ? ?%elem_of_nil | | by intros ? ? ?%elem_of_nil].
      intros q Hq x y Hx Hy. apply (Hb q Hq x y); [by apply Hin; left | done].
    + intros q Hq x y Hx Hy. apply (Ha q Hq x y); [done | by apply Hin; right].
    + intros q [-> | Hq]%elem_of_cons x y Hx Hy;
        [specialize (Hlu y x Hy Hx); unfold key_lt in Hlu; lia |].
      apply (Hb q Hq x y); [by apply Hin; right | done].
    + intros q q' Hq [-> | Hq']%elem_of_cons; [| by apply Hc].
      intros x y Hx Hy. apply (Ha q Hq x y); [done | by apply Hin; left].
  - rewrite <- Hm. rewrite !chain_map_app, !chain_map_cons, (assoc_L (∪) (cp_map _) (cp_map _)).
    do 2 f_equal.
    unfold cp_map. cbn [cp_recs]. rewrite <- Hsplit, <- to_map_app. apply to_map_perm.
    + apply keys_sorted_NoDup in Hsort. rewrite fmap_app in *. by rewrite (comm (++)).
    + by rewrite (comm (++)).
  - rewrite !chain_recs_app, !chain_recs_cons, (assoc (++) up), (Permutation_app_comm up low). cbn [cp_recs].
    rewrite Hsplit. apply chain_recs_mid, spec_upsert_sub.
Qed.

(** ** Deleting *)

(** The first page with a key. *)
Fixpoint first_page (k : Z * Z) (ps : list ChainPage) : option Z :=
  match ps with
  | [] => None
  | p :: ps => match cp_map p !! k with Some _ => Some (cp_id p) | None => first_page k ps end
  end.

(** The payload of a key on the pages behind the first one that has it. *)
Fixpoint shadowed (k : Z * Z) (ps : list ChainPage) : option (list byte) :=
  match ps with
  | [] => None
  | p :: ps => match cp_map p !! k with Some _ => chain_map ps !! k | None => shadowed k ps end
  end.

(** The records once the key is removed from the first page that has it. *)
Definition chain_without (k : Z * Z) (ps : list ChainPage) : gmap (Z * Z) (list byte) :=
  match shadowed k ps with
  | Some v => <[k := v]> (chain_map ps)
  | None => delete k (chain_map ps)
  end.

Lemma first_page_none k ps : first_page k ps = None <-> chain_map ps !! k = None.
Proof.
  induction ps as [| p ps IH]; [done |]. rewrite chain_map_cons, lookup_union. cbn [first_page].
  destruct (cp_map p !! k); [by rewrite union_Some_l |]. by rewrite (left_id_L None (∪)).
Qed.

Lemma first_page_in k ps page_id : first_page k ps = Some page_id -> page_id ∈ cp_id <$> ps.
Proof.
  induction ps as [| p ps IH]; [done |]. cbn [first_page]. rewrite fmap_cons.
  destruct (cp_map p !! k); [intros [= <-]; apply list_elem_of_here | intros E; by apply list_elem_of_further, IH].
Qed.

Lemma first_page_app k l1 l2 : chain_map l1 !! k = None -> first_page k (l1 ++ l2) = first_page k l2.
Proof.
  induction l1 as [| p l1 IH]; [done |]. rewrite chain_map_cons, lookup_union_None. intros [Hp Hl].
  cbn [app first_page]. rewrite Hp. by apply IH.
Qed.

Lemma shadowed_app k l1 l2 : chain_map l1 !! k = None -> shadowed k (l1 ++ l2) = shadowed k l2.
Proof.
  induction l1 as [| p l1 IH]; [done |]. rewrite chain_map_cons, lookup_union_None. intros [Hp Hl].
  cbn [app shadowed]. rewrite Hp. by apply IH.
Qed.

Lemma chain_without_none k ps : chain_map ps !! k = None -> chain_without k ps = chain_map ps.
Proof.
  intros Hn. unfold chain_without. pose proof (shadowed_app k ps [] Hn) as E. rewrite app_nil_r in E.
  rewrite E. cbn. by apply delete_id.
Qed.

Lemma chain_without_at k l1 p l2 q :
  chain_map l1 !! k = None -> is_Some (cp_map p !! k) -> cp_map q = delete k (cp_map p) ->
  chain_map (l1 ++ q :: l2) = chain_without k (l1 ++ p :: l2).
Proof.
  intros H1 [v Hv] Hq. unfold chain_without. rewrite (shadowed_app _ _ _ H1). cbn [shadowed]. rewrite Hv.
  apply map_eq. intros j. rewrite !chain_map_app, !chain_map_cons, Hq.
  destruct (decide (j = k)) as [-> | Hne].
  - rewrite !lookup_union_r, lookup_union, lookup_delete_eq, (left_id_L None (∪)) by done.
    destruct (chain_map l2 !! k) as [v' |]; [by rewrite lookup_insert_eq | by rewrite lookup_delete_eq].
  - assert ((chain_map l1 ∪ (delete k (cp_map p) ∪ chain_map l2)) !! j
            = (chain_map l1 ∪ (cp_map p ∪ chain_map l2)) !! j) as ->
      by (by rewrite !lookup_union, lookup_delete_ne).
    destruct (chain_map l2 !! k); [by rewrite lookup_insert_ne | by rewrite lookup_delete_ne].
Qed.

(** A page with fewer records. *)
Lemma ordered_sublist l1 p l2 q :
  chain_ordered (l1 ++ p :: l2) -> keys_sorted (cp_recs q) ->
  (forall r, r ∈ cp_recs q -> r ∈ cp_recs p) -> chain_ordered (l1 ++ q :: l2).
Proof.
  rewrite !ordered_mid. intros (H1 & Hp & H2 & Ha & Hb & Hc) Hs Hsub. split_and!; try done.
  - intros x Hx r r' Hr Hr'. apply (Ha x Hx r r' Hr). by apply Hsub.
  - intros x Hx r r' Hr Hr'. apply (Hb x Hx r r'); [by apply Hsub | done].
Qed.
