(* ===== verification/TsChain.v ===== *)
(** * The page chain of a time-series file

    How the state of a file ([TsFile]) represents a chain of pages ([Chain]):
    the image of a page is its cached image, or the one on disk; the images
    hold the records of the chain and are linked in its order.  Reading a
    page only fills the cache. *)

From S2P Require Import Prelude Errors Compat FileOps LogFrame WalBackend PageFormat PageBlock.
From S2P Require Import RecordSpec RecordMap PageView PageInsert PageRebuild PageImage PhysLog.
From S2P Require Import Replay TsFile Chain.

Definition Images : Type := Z -> option (list byte).

(** ** Images of an open file *)

Definition file_img (f : TimeSeriesFile) : Images := fun id =>
  match tf_page_cache f !! id with
  | Some a => Some (arc_data a)
  | None =>
      let file := ensure_file (tf_disk f) in
      if (0 <=? id) && (id <? tf_page_count f) && ((id + 1) * PAGE_SIZE <=? zlen file)
      then Some (page_at file id) else None
  end.

(** [f'] is [f] after some reads. *)
Record cache_filled (f f' : TimeSeriesFile) : Prop := mk_cache_filled {
  cf_same : f' = set_next_ptr (tf_next_ptr f') (set_page_cache (tf_page_cache f') f);
  cf_ptr : tf_next_ptr f <= tf_next_ptr f';
  cf_old : forall id a, tf_page_cache f !! id = Some a -> tf_page_cache f' !! id = Some a;
  cf_new : forall id a, tf_page_cache f' !! id = Some a -> tf_page_cache f !! id = None ->
    file_img f id = Some (arc_data a) /\ tf_next_ptr f <= arc_ptr a < tf_next_ptr f';
}.

#[export] Instance cache_filled_refl : Reflexive cache_filled.
Proof. intros []. split; cbn; [done | lia | done | congruence]. Qed.

Section images.
Context (f f' : TimeSeriesFile) (C : cache_filled f f').

Lemma filled_fields :
  tf_identity f' = tf_identity f /\ tf_disk f' = tf_disk f /\ tf_open f' = tf_open f /\
  tf_wal_backend f' = tf_wal_backend f /\ tf_dirty_pages f' = tf_dirty_pages f /\
  tf_page_count f' = tf_page_count f /\ tf_head_raw f' = tf_head_raw f /\
  tf_tail_raw f' = tf_tail_raw f /\
  tf_tuple_format_version f' = tf_tuple_format_version f /\
  tf_tuple_schema_hash f' = tf_tuple_schema_hash f /\ tf_tuple_flags f' = tf_tuple_flags f.
Proof. rewrite (cf_same _ _ C). cbn. by split_and!. Qed.

Lemma filled_img id : file_img f' id = file_img f id.
Proof.
  destruct filled_fields as (_ & Ed & _ & _ & _ & Ec & _). unfold file_img at 1.
  destruct (tf_page_cache f' !! id) as [a |] eqn:Ea.
  - destruct (tf_page_cache f !! id) as [b |] eqn:Eb.
    + rewrite (cf_old _ _ C _ _ Eb) in Ea. injection Ea as ->. unfold file_img. by rewrite Eb.
    + by destruct (cf_new _ _ C _ _ Ea Eb) as [-> _].
  - unfold file_img. rewrite Ed, Ec. destruct (tf_page_cache f !! id) as [b |] eqn:Eb; [| done].
    rewrite (cf_old _ _ C _ _ Eb) in Ea. done.
Qed.

End images.

#[export] Instance cache_filled_trans : Transitive cache_filled.
Proof.
  intros f g h C D. split.
  - rewrite (cf_same _ _ D) at 1. rewrite (cf_same _ _ C). by destruct f.
  - pose proof (cf_ptr _ _ C). pose proof (cf_ptr _ _ D). lia.
  - intros id a Ha. by apply (cf_old _ _ D), (cf_old _ _ C).
  - intros id a Ha Hn. pose proof (cf_ptr _ _ C). pose proof (cf_ptr _ _ D).
    destruct (tf_page_cache g !! id) as [b |] eqn:Eb.
    + destruct (cf_new _ _ C _ _ Eb Hn). rewrite (cf_old _ _ D _ _ Eb) in Ha. simplify_eq.
      split; [done | lia].
    + destruct (cf_new _ _ D _ _ Ha Eb) as [E ?]. rewrite (filled_img _ _ C) in E. split; [done | lia].
Qed.

Definition MAX_PAGES : Z := 4503599627370496.

Lemma page_offset_max id : 0 <= id < MAX_PAGES -> page_offset id = Ok (id * PAGE_SIZE).
Proof. intros. apply page_offset_ok. unfold MAX_PAGES in *. unfold_bounds. plia. Qed.

Lemma read_page_ok f id pg :
  file_img f id = Some pg -> tf_open f = true -> 0 <= id < MAX_PAGES ->
  exists a f', read_page id f = (Ok a, f') /\ arc_data a = pg /\ cache_filled f f'.
Proof.
  intros Hi Ho Hid. unfold read_page. st_step by reflexivity.
  unfold file_img in Hi. destruct (tf_page_cache f !! id) as [a |] eqn:Ea.
  { injection Hi as <-. by exists a, f. }
  cbv zeta in Hi. destruct (Z.leb_spec 0 id); [| lia].
  destruct (Z.ltb_spec id (tf_page_count f)); [| done].
  destruct (Z.leb_spec ((id + 1) * PAGE_SIZE) (zlen (ensure_file (tf_disk f)))); [| done].
  injection Hi as <-. rewrite (proj2 (Z.leb_gt _ _)) by lia.
  st_step by (unfold file_ref, st_reads; rewrite Ho; reflexivity).
  st_step by (unfold st_lift; rewrite page_offset_max by done; reflexivity).
  st_step by (unfold st_reads; rewrite read_page_at by (split; lia); reflexivity).
  st_step by reflexivity. st_step by reflexivity. cbn [set_next_ptr tf_page_cache]. rewrite Ea.
  st_step by reflexivity. do 2 eexists. split; [reflexivity |]. split; [done |].
  split; cbn; [done | lia | |].
  - intros j b Hb. rewrite lookup_insert_ne; [done |]. congruence.
  - intros j b Hb Hn. destruct (decide (j = id)) as [-> | Hne].
    + rewrite lookup_insert_eq in Hb. injection Hb as <-. cbn. split; [| lia].
      unfold file_img. rewrite Ea. rewrite !(proj2 (Z.leb_le _ _)) by lia.
      by rewrite (proj2 (Z.ltb_lt _ _)) by lia.
    + rewrite lookup_insert_ne in Hb by done. congruence.
Qed.

(** ** Chains *)

Definition page_shown `{Packages} (img : Images) (p : ChainPage) : Prop :=
  exists pg, img (cp_id p) = Some pg /\ page_holds pg (cp_header p) (cp_recs p).

Definition first_id (ps : list ChainPage) (next : Z) : Z :=
  match ps with [] => next | p :: _ => cp_id p end.

Definition last_id (prev : Z) (ps : list ChainPage) : Z :=
  match last ps with Some p => cp_id p | None => prev end.

(** The links of a segment between the pages [prev] and [next]. *)
Fixpoint linked (prev : Z) (ps : list ChainPage) (next : Z) : Prop :=
  match ps with
  | [] => True
  | p :: ps =>
      ph_prev_page (cp_header p) = prev /\ ph_next_page (cp_header p) = first_id ps next /\
      linked (cp_id p) ps next
  end.

(** The tuple metadata of the file. *)
Definition page_meta (f : TimeSeriesFile) (p : ChainPage) : Prop :=
  ph_tuple_format_version (cp_header p) = tf_tuple_format_version f /\
  ph_tuple_schema_hash (cp_header p) = tf_tuple_schema_hash f /\
  ph_tuple_flags (cp_header p) = tf_tuple_flags f.

(** The images hold the chain [ps], which uses the page ids below [count]. *)
Record chain `{Packages} (f : TimeSeriesFile) (img : Images) (count : Z) (ps : list ChainPage)
    : Prop := mk_chain {
  ch_shown : Forall (page_shown img) ps;
  ch_linked : linked NONE_PAGE_ID ps NONE_PAGE_ID;
  ch_ids : cp_id <$> ps ≡ₚ seqZ 0 count;
  ch_meta : Forall (page_meta f) ps;
  ch_ordered : chain_ordered ps;
  ch_count : 0 <= count <= MAX_PAGES;
}.

Definition head_id (ps : list ChainPage) : option Z := cp_id <$> head ps.
Definition tail_id (ps : list ChainPage) : option Z := cp_id <$> last ps.

(** An id that a link refers to. *)
Definition link_of (id : option Z) : Z := default NONE_PAGE_ID id.

Lemma linked_app prev l1 l2 next :
  linked prev (l1 ++ l2) next <->
  linked prev l1 (first_id l2 next) /\ linked (last_id prev l1) l2 next.
Proof.
  revert prev. induction l1 as [| p l1 IH]; intros prev; cbn [app linked].
  { unfold last_id. cbn. tauto. }
  rewrite IH. unfold last_id. rewrite last_cons.
  assert (first_id (l1 ++ l2) next = first_id l1 (first_id l2 next)) as -> by (by destruct l1).
  destruct (last l1); cbn; tauto.
Qed.

Section chain_facts.
Context `{Packages} (f : TimeSeriesFile) (img : Images) (count : Z) (ps : list ChainPage).
Context (C : chain f img count ps).

Lemma chain_range p : p ∈ ps -> 0 <= cp_id p < count.
Proof.
  intros Hp. assert (cp_id p ∈ seqZ 0 count) as Hs%elem_of_seqZ; [| lia].
  rewrite <- (ch_ids _ _ _ _ C). apply list_elem_of_fmap. by exists p.
Qed.

Lemma chain_not_none p : p ∈ ps -> cp_id p <> NONE_PAGE_ID.
Proof.
  intros Hp. pose proof (chain_range p Hp). pose proof (ch_count _ _ _ _ C).
  unfold MAX_PAGES, NONE_PAGE_ID, U64_MAX in *. lia.
Qed.

Lemma chain_max p : p ∈ ps -> 0 <= cp_id p < MAX_PAGES.
Proof. intros Hp. pose proof (chain_range p Hp). pose proof (ch_count _ _ _ _ C). lia. Qed.

Lemma chain_nodup : NoDup (cp_id <$> ps).
Proof. rewrite (ch_ids _ _ _ _ C). apply NoDup_seqZ. Qed.

Lemma chain_length : zlen ps = count.
Proof.
  pose proof (ch_count _ _ _ _ C).
  pose proof (Permutation_length (ch_ids _ _ _ _ C)) as E. rewrite length_fmap, length_seqZ in E.
  unfold zlen. lia.
Qed.

Lemma chain_page p :
  p ∈ ps -> exists pg, img (cp_id p) = Some pg /\ page_holds pg (cp_header p) (cp_recs p).
Proof. intros Hp. pose proof (ch_shown _ _ _ _ C) as HF. rewrite Forall_forall in HF. by apply HF. Qed.

(** What the link of a page to its successor says. *)
Lemma chain_next l1 p l2 :
  ps = l1 ++ p :: l2 ->
  ph_next_page (cp_header p) = link_of (head_id l2) /\
  ph_prev_page (cp_header p) = link_of (tail_id l1).
Proof.
  intros ->. pose proof (ch_linked _ _ _ _ C) as [_ Hl]%linked_app.
  destruct Hl as (-> & -> & _). unfold last_id, tail_id, link_of, head_id.
  split; [by destruct l2 | by destruct (last l1)].
Qed.

End chain_facts.

(** ** Reading along the chain *)

Section page_reads.
Context `{PackagesOk} (pg : list byte) (p : ChainPage).
Context (Hp : page_holds pg (cp_header p) (cp_recs p)).

Lemma try_new_holds : try_new pg = Ok pg.
Proof. eapply try_new_view, page_holds_header, Hp. Qed.

Lemma header_holds : header pg = Ok (cp_header p).
Proof. eapply header_view_decode, page_holds_header, Hp. Qed.

Lemma bounds_holds : timestamp_bounds pg = Ok (ts_bounds (cp_recs p)).
Proof. exact (timestamp_bounds_holds _ _ _ Hp). Qed.

Lemma active_next_holds id :
  id <> Some NONE_PAGE_ID -> ph_next_page (cp_header p) = link_of id ->
  active_next_page pg = Ok id.
Proof.
  intros Hid E. unfold active_next_page.
  rewrite (header_next_page_view _ _ (page_holds_header _ _ _ Hp)). cbn [mbind res_bind].
  rewrite E. destruct id as [i |]; simpl; [| done].
  destruct (Z.eqb_spec i NONE_PAGE_ID); [congruence | done].
Qed.

Lemma active_prev_holds id :
  id <> Some NONE_PAGE_ID -> ph_prev_page (cp_header p) = link_of id ->
  active_prev_page pg = Ok id.
Proof.
  intros Hid E. unfold active_prev_page.
  rewrite (header_prev_page_view _ _ (page_holds_header _ _ _ Hp)). cbn [mbind res_bind].
  rewrite E. destruct id as [i |]; simpl; [| done].
  destruct (Z.eqb_spec i NONE_PAGE_ID); [congruence | done].
Qed.

End page_reads.

Lemma head_id_not_none `{Packages} f img count ps l1 l2 :
  chain f img count ps -> ps = l1 ++ l2 -> head_id l2 <> Some NONE_PAGE_ID.
Proof.
  intros C ->. destruct l2 as [| q l2]; cbn; [done |]. intros [= E].
  eapply (chain_not_none _ _ _ _ C q); [set_solver | done].
Qed.

Lemma tail_id_not_none `{Packages} f img count ps l1 l2 :
  chain f img count ps -> ps = l1 ++ l2 -> tail_id l1 <> Some NONE_PAGE_ID.
Proof.
  intros C ->. unfold tail_id. destruct (last l1) as [q |] eqn:E; cbn; [| done]. intros [= Eq].
  apply last_Some in E as [l1' ->]. eapply (chain_not_none _ _ _ _ C q); [set_solver | done].
Qed.

(** The chain of an open file. *)
Record file_chain `{Packages} (f : TimeSeriesFile) (ps : list ChainPage) : Prop := mk_file_chain {
  fc_chain : chain f (file_img f) (tf_page_count f) ps;
  fc_open : tf_open f = true;
  fc_head : tf_head_raw f = raw_page_id (head_id ps);
  fc_tail : tf_tail_raw f = raw_page_id (tail_id ps);
  fc_format : in_u32 (tf_tuple_format_version f);
  fc_hash : in_u64 (tf_tuple_schema_hash f);
  fc_flags : in_u64 (tf_tuple_flags f);
}.

Lemma chain_ext `{Packages} f f' img img' count ps :
  (forall id, img' id = img id) -> tf_tuple_format_version f' = tf_tuple_format_version f ->
  tf_tuple_schema_hash f' = tf_tuple_schema_hash f -> tf_tuple_flags f' = tf_tuple_flags f ->
  chain f img count ps -> chain f' img' count ps.
Proof.
  intros Hi E1 E2 E3 []. split; try done.
  - eapply Forall_impl; [exact ch_shown0 |]. intros p (pg & E & Hp). exists pg. rewrite Hi. by split.
  - eapply Forall_impl; [exact ch_meta0 |]. intros p (? & ? & ?). unfold page_meta. rewrite E1, E2, E3. by split_and!.
Qed.

(** Reads keep the chain. *)
Lemma filled_chain `{Packages} f f' ps : cache_filled f f' -> file_chain f ps -> file_chain f' ps.
Proof.
  intros C [].
  destruct (filled_fields _ _ C) as (? & Ed & Eo & Ew & Edp & Ec & Eh & Et & E1 & E2 & E3).
  split; rewrite ?Ec, ?Eo, ?Eh, ?Et, ?E1, ?E2, ?E3; try done.
  eapply chain_ext; [| exact E1 | exact E2 | exact E3 | exact fc_chain0]. by apply filled_img.
Qed.

Lemma raw_page_id_inv id : id <> Some NONE_PAGE_ID -> page_id_from_raw (raw_page_id id) = id.
Proof.
  intros Hid. unfold page_id_from_raw, raw_page_id. destruct id as [i |]; simpl.
  - destruct (Z.eqb_spec i NONE_PAGE_ID); [congruence | done].
  - done.
Qed.

Lemma file_head_id `{Packages} f ps : file_chain f ps -> head_page_id f = head_id ps.
Proof.
  intros F. unfold head_page_id. rewrite (fc_head _ _ F). apply raw_page_id_inv.
  eapply (head_id_not_none _ _ _ ps []); [apply F | done].
Qed.

Lemma file_tail_id `{Packages} f ps : file_chain f ps -> tail_page_id f = tail_id ps.
Proof.
  intros F. unfold tail_page_id. rewrite (fc_tail _ _ F). apply raw_page_id_inv.
  eapply (tail_id_not_none _ _ _ ps ps []); [apply F | by rewrite app_nil_r].
Qed.
