(* ===== verification/TsRead.v ===== *)
(** * Reads of a time-series file

    [get] and [scan_range] walk the chain and return what the map of the
    chain says; they never fail, and the walk ends within its fuel. *)

From S2P Require Import Prelude Errors Compat FileOps LogFrame WalBackend PageFormat PageBlock.
From S2P Require Import RecordSpec RecordMap PageView PageInsert PageRebuild PageImage PhysLog.
From S2P Require Import Replay TsFile Chain TsChain.

Section reads.
Context `{PackagesOk}.

(** One page of a walk: the steps up to the bounds. *)
Lemma visit_page f ps l1 p l2 :
  file_chain f ps -> ps = l1 ++ p :: l2 ->
  exists a f', read_page (cp_id p) f = (Ok a, f') /\ cache_filled f f' /\
    page_holds (arc_data a) (cp_header p) (cp_recs p) /\
    try_new (arc_data a) = Ok (arc_data a) /\
    timestamp_bounds (arc_data a) = Ok (ts_bounds (cp_recs p)) /\
    active_next_page (arc_data a) = Ok (head_id l2).
Proof.
  intros F E. pose proof (fc_chain _ _ F) as C.
  assert (p ∈ ps) as Hin by (subst; set_solver).
  destruct (chain_page _ _ _ _ C p Hin) as (pg & Hi & Hp).
  destruct (read_page_ok f (cp_id p) pg Hi (fc_open _ _ F) (chain_max _ _ _ _ C p Hin))
    as (a & f' & Er & <- & Hf).
  exists a, f'. split_and!; try done.
  - by eapply try_new_holds.
  - by eapply bounds_holds.
  - eapply active_next_holds; [exact Hp | |].
    + eapply (head_id_not_none _ _ _ ps (l1 ++ [p])); [exact C | by rewrite <- app_assoc].
    + by eapply chain_next.
Qed.

(** The lookup of a key on one page. *)
Lemma find_on_page pg h rs ts id :
  page_holds pg h rs -> keys_sorted rs ->
  match to_map rs !! (ts, id) with
  | Some v => exists i, find_slot_index pg ts id = Ok (Some i) /\ record_bytes pg i = Ok v
  | None => find_slot_index pg ts id = Ok None
  end.
Proof.
  intros Hp Hs. rewrite (find_slot_index_holds _ _ _ Hp).
  destruct (spec_find ts id rs) as [i |] eqn:E.
  - destruct (spec_find_lookup _ _ _ _ E) as (r & Hi & Hr & <-).
    rewrite (to_map_lookup r rs Hs) by (by eapply list_elem_of_lookup_2).
    exists i. split; [done |].
    rewrite <- (Z2Nat.id i) by lia. by apply (record_bytes_holds _ _ _ Hp).
  - by rewrite spec_find_map.
Qed.

Lemma get_loop_ok ts id l2 : forall f ps l1 fuel,
  file_chain f ps -> ps = l1 ++ l2 -> (length l2 < fuel)%nat ->
  exists res f', get_loop fuel (head_id l2) ts id f = (Ok res, f') /\ cache_filled f f' /\
    entry_of <$> res = mkRec ts id <$> spec_get ts id l2.
Proof.
  induction l2 as [| p l2 IH]; intros f ps l1 fuel F E Hfuel.
  { exists None, f. destruct fuel; by split_and!. }
  destruct fuel as [| fuel]; [cbn in Hfuel; lia |].
  destruct (visit_page f ps l1 p l2 F E) as (a & f1 & Er & Hf & Hp & Et & Eb & En).
  assert (exists res f', get_loop fuel (head_id l2) ts id f1 = (Ok res, f') /\ cache_filled f f' /\
            entry_of <$> res = mkRec ts id <$> spec_get ts id l2) as Hnext.
  { destruct (IH f1 ps (l1 ++ [p]) fuel) as (res & f' & Eg & Hf' & Hr);
      [by eapply filled_chain | by rewrite <- app_assoc | cbn in Hfuel; lia |].
    exists res, f'. split_and!; [done | by etrans | done]. }
  cbn [head_id head fmap option_fmap option_map get_loop spec_get].
  change (cp_id <$> Some p) with (Some (cp_id p)). cbv iota.
  st_step by exact Er.
  st_step by (unfold st_lift; rewrite Et; reflexivity).
  st_step by (unfold st_lift; rewrite Eb; reflexivity). cbv zeta.
  assert (forall (k : option Z -> TS (option TimeSeriesRecord)),
    (st_lift (active_next_page (arc_data a)) ≫= k) f1 = k (head_id l2) f1) as Hk.
  { intros k. unfold st_lift, mbind, st_bind. by rewrite En. }
  pose proof (ch_ordered _ _ _ _ (fc_chain _ _ F)) as Ho. rewrite E in Ho.
  apply ordered_mid in Ho as (_ & Hs & _).
  destruct (ts_bounds (cp_recs p)) as [[mn mx] |]; [| by rewrite Hk].
  destruct (mx <? ts); [by exists None, f1 |].
  destruct (ts <? mn); [by rewrite Hk |].
  pose proof (find_on_page _ _ _ ts id Hp Hs) as Hfind. unfold cp_map.
  destruct (to_map (cp_recs p) !! (ts, id)) as [v |].
  - destruct Hfind as (i & Ei & Ev).
    st_step by (unfold st_lift; rewrite Ei; reflexivity). cbv iota.
    st_step by (unfold st_lift; rewrite Ev; reflexivity).
    do 2 eexists. split; [reflexivity |]. by split.
  - st_step by (unfold st_lift; rewrite Hfind; reflexivity). cbv iota. by rewrite Hk.
Qed.

Lemma chain_fuel_enough f ps : file_chain f ps -> (length ps < chain_fuel (tf_page_count f))%nat.
Proof.
  intros F. pose proof (chain_length _ _ _ _ (fc_chain _ _ F)) as E. unfold zlen in E.
  unfold chain_fuel. lia.
Qed.

Lemma file_get_ok f ps ts id :
  file_chain f ps ->
  exists res f', file_get ts id f = (Ok res, f') /\ cache_filled f f' /\
    entry_of <$> res = mkRec ts id <$> chain_map ps !! (ts, id).
Proof.
  intros F. unfold file_get. st_step by reflexivity.
  rewrite (file_head_id _ _ F), <- (spec_get_map ts id ps) by apply (ch_ordered _ _ _ _ (fc_chain _ _ F)).
  eapply (get_loop_ok ts id ps f ps []); [done | done | by apply chain_fuel_enough].
Qed.

(** ** Range scans *)

Definition in_range (begin_ts end_ts : Z) (r : Rec) : Prop :=
  begin_ts <= r_ts r /\ r_ts r <= end_ts.

#[export] Instance in_range_dec b e r : Decision (in_range b e r).
Proof. unfold in_range. apply _. Defined.

(** The records of a chain in a range, page by page. *)
Definition chain_range_recs (b e : Z) (ps : list ChainPage) : list Rec :=
  filter (in_range b e) (concat (cp_recs <$> ps)).

Lemma scan_slots_ok pg h rs page_id b e :
  page_holds pg h rs ->
  forall n i, (i + n = length rs)%nat ->
  exists rows, scan_slots pg page_id b e (seqZ (Z.of_nat i) (Z.of_nat n)) = Ok rows /\
    entry_of <$> rows = filter (in_range b e) (drop i rs).
Proof.
  intros Hp. induction n as [| n IH]; intros i Hi.
  { exists []. split; [done |]. by rewrite drop_ge by lia. }
  destruct (lookup_lt_is_Some_2 rs i) as [r Hr]; [lia |].
  destruct (slot_ref_holds _ _ _ Hp i r Hr) as (s & Es & Ets & Eid).
  destruct (IH (S i)) as (rows & Erows & Hrows); [lia |].
  rewrite seqZ_cons by lia. replace (Z.succ (Z.of_nat i)) with (Z.of_nat (S i)) by lia.
  replace (Z.pred (Z.of_nat (S n))) with (Z.of_nat n) by lia.
  cbn [scan_slots]. rewrite Es. cbn [mbind res_bind]. cbv zeta. rewrite Ets.
  rewrite (drop_S _ _ _ Hr), filter_cons.
  destruct (decide (in_range b e r)) as [Hin | Hout]; unfold in_range in *.
  - rewrite !(proj2 (Z.ltb_ge _ _)) by lia. cbn [orb].
    rewrite (record_bytes_holds _ _ _ Hp i r Hr). cbn [mbind res_bind].
    rewrite Erows. cbn [mbind res_bind]. eexists. split; [reflexivity |].
    rewrite fmap_cons, Hrows, Eid. by destruct r.
  - destruct (Z.ltb_spec (r_ts r) b); cbn [orb]; [by exists rows |].
    rewrite (proj2 (Z.ltb_lt _ _)) by lia. by exists rows.
Qed.

Lemma filter_range_none b e rs :
  (forall r, r ∈ rs -> ~ in_range b e r) -> filter (in_range b e) rs = [].
Proof.
  intros Hr. induction rs as [| r rs IH]; [done |]. rewrite filter_cons_False.
  - apply IH. intros x Hx. apply Hr. by right.
  - apply Hr. by left.
Qed.

Lemma scan_loop_ok b e l2 : forall f ps l1 fuel rows,
  file_chain f ps -> ps = l1 ++ l2 -> (length l2 < fuel)%nat -> b <= e ->
  exists more f', scan_loop fuel (head_id l2) b e rows f = (Ok (rows ++ more), f') /\
    cache_filled f f' /\ entry_of <$> more = chain_range_recs b e l2.
Proof.
  induction l2 as [| p l2 IH]; intros f ps l1 fuel rows F E Hfuel Hbe.
  { exists [], f. rewrite app_nil_r. destruct fuel; by split_and!. }
  destruct fuel as [| fuel]; [cbn in Hfuel; lia |].
  destruct (visit_page f ps l1 p l2 F E) as (a & f1 & Er & Hf & Hp & Et & Eb & En).
  assert (forall rows, exists more f', scan_loop fuel (head_id l2) b e rows f1 = (Ok (rows ++ more), f')
            /\ cache_filled f f' /\ entry_of <$> more = chain_range_recs b e l2) as Hnext.
  { intros rows'. destruct (IH f1 ps (l1 ++ [p]) fuel rows') as (res & f' & Eg & Hf' & Hr);
      [by eapply filled_chain | by rewrite <- app_assoc | cbn in Hfuel; lia | done |].
    exists res, f'. split_and!; [done | by etrans | done]. }
  assert (chain_range_recs b e (p :: l2) = filter (in_range b e) (cp_recs p) ++ chain_range_recs b e l2)
    as Hsplit by (unfold chain_range_recs; rewrite fmap_cons; cbn [concat]; apply filter_app).
  cbn [scan_loop]. change (head_id (p :: l2)) with (Some (cp_id p)). cbv iota.
  st_step by exact Er.
  st_step by (unfold st_lift; rewrite Et; reflexivity).
  st_step by (unfold st_lift; rewrite Eb; reflexivity).
  pose proof (ch_ordered _ _ _ _ (fc_chain _ _ F)) as Ho. rewrite E in Ho.
  apply ordered_mid in Ho as (_ & Hs & _ & _ & Hge & _).
  destruct (ts_bounds (cp_recs p)) as [[mn mx] |] eqn:Ebd; cbv iota.
  2:{ st_step by (unfold st_lift; rewrite En; reflexivity).
      rewrite Hsplit, (ts_bounds_none _ Ebd). apply Hnext. }
  destruct (ts_bounds_some _ _ _ Hs Ebd) as (Hb & _ & (x & Hx & Hmx)).
  destruct (Z.ltb_spec mx b) as [Hlt | Hle].
  { exists [], f1. rewrite app_nil_r. split_and!; [done | done |]. symmetry. apply filter_range_none.
    intros r (l & Hl & Hr)%concat_elem. apply list_elem_of_fmap in Hl as (q & -> & Hq).
    unfold in_range. apply elem_of_cons in Hq as [-> | Hq]; [specialize (Hb r Hr); lia |].
    specialize (Hge q Hq x r Hx Hr). lia. }
  assert (exists found, (if (mn <=? e) && (b <=? mx)
            then count ← st_lift (slot_count (arc_data a));
                 st_lift (scan_slots (arc_data a) (cp_id p) b e (seqZ 0 count))
            else mret []) f1 = (Ok found, f1) /\
          entry_of <$> found = filter (in_range b e) (cp_recs p)) as (found & Efound & Hfound).
  { destruct (Z.leb_spec mn e); cbn [andb].
    - rewrite (proj2 (Z.leb_le _ _)) by lia.
      destruct (scan_slots_ok _ _ _ (cp_id p) b e Hp (length (cp_recs p)) 0 eq_refl) as (rows' & Es & Hr).
      exists rows'. split; [| by rewrite drop_0 in Hr].
      st_step by (unfold st_lift; rewrite (slot_count_holds _ _ _ Hp); reflexivity).
      unfold st_lift. change (seqZ 0 (zlen (cp_recs p))) with
        (seqZ (Z.of_nat 0) (Z.of_nat (length (cp_recs p)))). by rewrite Es.
    - exists []. split; [done |]. symmetry. apply filter_range_none. intros r Hr.
      specialize (Hb r Hr). unfold in_range. lia. }
  st_step by exact Efound.
  st_step by (unfold st_lift; rewrite En; reflexivity).
  destruct (Hnext (rows ++ found)) as (more & f' & Em & Hf' & Hmore).
  exists (found ++ more), f'. rewrite app_assoc. split_and!; [done | done |].
  by rewrite fmap_app, Hsplit, Hfound, Hmore.
Qed.

(** Records in key order, equal keys allowed. *)
Definition key_le (a b : Rec) : Prop := r_ts a < r_ts b \/ r_ts a = r_ts b /\ r_id a <= r_id b.

Definition rec_leb (a b : Rec) : bool := cmp_le (key_compare (rec_key a) (rec_key b)).

Lemma rec_leb_spec a b : rec_leb a b = true <-> key_le a b.
Proof.
  unfold rec_leb, key_compare, rec_key, key_le, then_with. cbn [fst snd].
  destruct (Z.compare_spec (r_ts a) (r_ts b)), (Z.compare_spec (r_id a) (r_id b));
    cbn; split; intros; try done; lia.
Qed.

Lemma sort_rec_leb rs : StronglySorted key_le (sort_stable rec_leb rs).
Proof.
  apply StronglySorted_lookup_2. intros i j x y Hij Hx Hy. apply rec_leb_spec.
  eapply (StronglySorted_lookup (fun a b => rec_leb a b = true)); [| exact Hij | done | done].
  apply sort_stable_sorted.
  - intros u v w. rewrite !rec_leb_spec. unfold key_le. lia.
  - intros u v. rewrite !rec_leb_spec. unfold key_le. lia.
Qed.

Lemma scan_range_ok f ps b e :
  file_chain f ps -> b <= e ->
  exists rows f', scan_range b e f = (Ok rows, f') /\ cache_filled f f' /\
    entry_of <$> rows = sort_stable rec_leb (chain_range_recs b e ps).
Proof.
  intros F Hbe. unfold scan_range. rewrite (proj2 (Z.ltb_ge _ _)) by lia.
  st_step by reflexivity.
  destruct (scan_loop_ok b e ps f ps [] (chain_fuel (tf_page_count f)) [] F eq_refl)
    as (more & f' & E & Hf & Hm); [by apply chain_fuel_enough | done |].
  rewrite (file_head_id _ _ F). st_step by exact E. cbn [app].
  eexists _, f'. split_and!; [reflexivity | done |].
  by rewrite <- (sort_stable_fmap entry_of record_le rec_leb), Hm.
Qed.

End reads.
