(* ===== verification/TsWrite.v ===== *)
(** * Planning writes

    The planning of an insertion on the overlay of a batch: which rows are
    accepted, and what an accepted row does to the chain. *)

From S2P Require Import Prelude Errors Compat FileOps LogFrame WalBackend PageFormat PageBlock.
From S2P Require Import RecordSpec RecordMap PageView PageInsert PageRebuild PageImage PhysLog.
From S2P Require Import Replay TsFile Chain TsChain TsRead.

(** ** Accepted rows *)

(** Two pages can hold the records. *)
Definition splits (rs : list Rec) : bool :=
  existsb (fun n => pack_fits (r_payload <$> take n rs) && pack_fits (r_payload <$> drop n rs))
    (seq 1 (length rs - 1)).

Definition page_accepts (head_latest : bool) (p : ChainPage) (r : Rec) : bool :=
  match spec_find (r_ts r) (r_id r) (cp_recs p) with
  | Some i => pack_fits (r_payload <$> spec_update (Z.to_nat i) r (cp_recs p))
  | None =>
      insert_fits (cp_header p) (r_payload r) ||
      (if head_latest then pack_fits [r_payload r] else splits (spec_insert r (cp_recs p)))
  end.

(** A row is accepted when it has room: on the page where it belongs, on a
    page of its own at the ends of the chain, or on the two halves of a full
    page. *)
Definition accepts (ps : list ChainPage) (r : Rec) : bool :=
  match locate (r_ts r) true None ps with
  | EmptyFile | Before _ | After _ => pack_fits [r_payload r]
  | HeadLatest id => existsb (fun p => (cp_id p =? id) && page_accepts true p r) ps
  | Existing id => existsb (fun p => (cp_id p =? id) && page_accepts false p r) ps
  end.

Definition row_ok (r : Rec) : Prop :=
  in_u64 (r_ts r) /\ in_u64 (r_id r) /\ zlen (r_payload r) <= U32_MAX.

(** ** States of a plan *)

Definition pn_img (s : Planning) : Images := fun id =>
  match ov_page_images (pn_overlay s) !! id with
  | Some i => Some i
  | None => file_img (pn_file s) id
  end.

(** The batch started on the file [f0] and has made the chain [ps] of it. *)
Record plan_inv `{Packages} (f0 : TimeSeriesFile) (s : Planning) (ps : list ChainPage) : Prop :=
  mk_plan_inv {
  pi_chain : chain f0 (pn_img s) (ov_page_count (pn_overlay s)) ps;
  pi_head : ov_head_page_id (pn_overlay s) = head_id ps;
  pi_tail : ov_tail_page_id (pn_overlay s) = tail_id ps;
  pi_filled : cache_filled f0 (pn_file s);
  pi_new : forall id, tf_page_count f0 <= id < ov_page_count (pn_overlay s) ->
             is_Some (ov_page_images (pn_overlay s) !! id);
  pi_ids : forall id, is_Some (ov_page_images (pn_overlay s) !! id) ->
             0 <= id < ov_page_count (pn_overlay s);
  pi_count : 0 <= tf_page_count f0 <= ov_page_count (pn_overlay s);
}.

(** What stays fixed during the batch. *)
Record file_ready (f0 : TimeSeriesFile) : Prop := mk_file_ready {
  fr_open : tf_open f0 = true;
  fr_format : in_u32 (tf_tuple_format_version f0);
  fr_hash : in_u64 (tf_tuple_schema_hash f0);
  fr_flags : in_u64 (tf_tuple_flags f0);
}.

(** A step that only read pages. *)
Definition only_read (s s' : Planning) : Prop :=
  pn_overlay s' = pn_overlay s /\ cache_filled (pn_file s) (pn_file s').

#[export] Instance only_read_refl : Reflexive only_read.
Proof. intros s. by split. Qed.

#[export] Instance only_read_trans : Transitive only_read.
Proof. intros a b c [E1 C1] [E2 C2]. split; [congruence | by etrans]. Qed.

Lemma only_read_img s s' id : only_read s s' -> pn_img s' id = pn_img s id.
Proof. intros [E C]. unfold pn_img. rewrite E. by rewrite (filled_img _ _ C). Qed.

Lemma overlay_read_img `{Packages} s id pg :
  pn_img s id = Some pg -> tf_open (pn_file s) = true -> 0 <= id < MAX_PAGES ->
  exists s', overlay_read_page id s = (Ok pg, s') /\ only_read s s'.
Proof.
  intros Hi Ho Hid. unfold overlay_read_page. st_step by reflexivity.
  unfold pn_img in Hi. destruct (ov_page_images (pn_overlay s) !! id) as [i |] eqn:E.
  { injection Hi as ->. by exists s. }
  destruct (read_page_ok _ _ _ Hi Ho Hid) as (a & f' & Er & <- & Hf).
  exists (mkPlanning f' (pn_overlay s)). split; [| by split].
  by st_step by (unfold on_file; rewrite Er; reflexivity).
Qed.

(** The overlay of [s] after writing the images [M]. *)
Definition overlaid (s : Planning) (M : gmap Z (list byte)) (count : Z)
    (ps' : list ChainPage) : WriteOverlay :=
  mkWriteOverlay (M ∪ ov_page_images (pn_overlay s)) count (head_id ps') (tail_id ps').

(** A step that wrote the images [M] and made [ps'] of [ps]. *)
Lemma plan_written `{Packages} f0 s s' ps ps' M count' :
  plan_inv f0 s ps -> cache_filled (pn_file s) (pn_file s') ->
  pn_overlay s' = overlaid s M count' ps' ->
  ov_page_count (pn_overlay s) <= count' <= ov_page_count (pn_overlay s) + 1 ->
  count' <= MAX_PAGES ->
  (ov_page_count (pn_overlay s) < count' -> is_Some (M !! ov_page_count (pn_overlay s))) ->
  (forall id, is_Some (M !! id) -> 0 <= id < count') ->
  (forall p, p ∈ ps' -> match M !! cp_id p with
                        | Some pg => page_holds pg (cp_header p) (cp_recs p)
                        | None => p ∈ ps
                        end) ->
  linked NONE_PAGE_ID ps' NONE_PAGE_ID -> cp_id <$> ps' ≡ₚ seqZ 0 count' ->
  Forall (page_meta f0) ps' -> chain_ordered ps' -> plan_inv f0 s' ps'.
Proof.
  intros [] Hf Eo Hc Hmax HM HMr Hpg Hl Hids Hmeta Hord.
  assert (forall id, pn_img s' id = match M !! id with Some pg => Some pg | None => pn_img s id end)
    as Himg.
  { intros id. unfold pn_img. rewrite Eo. unfold overlaid. cbn [ov_page_images].
    rewrite lookup_union, (filled_img _ _ Hf). destruct (M !! id); [by rewrite union_Some_l |].
    by rewrite (left_id_L None (∪)). }
  split; rewrite ?Eo; unfold overlaid; cbn [ov_page_images ov_page_count ov_head_page_id ov_tail_page_id].
  - split; [| done | done | done | done | pose proof (ch_count _ _ _ _ pi_chain0); lia].
    apply Forall_forall. intros p Hp. specialize (Hpg p Hp). unfold page_shown. rewrite Himg.
    destruct (M !! cp_id p) as [pg |]; [by exists pg |].
    pose proof (ch_shown _ _ _ _ pi_chain0) as HF. rewrite Forall_forall in HF. by apply HF.
  - done.
  - done.
  - by etrans.
  - intros id Hid. destruct (decide (id = ov_page_count (pn_overlay s))) as [-> | Hne].
    + destruct HM as [x Hx]; [lia |]. exists x. by apply lookup_union_Some_l.
    + destruct (pi_new0 id) as [x Hx]; [lia |]. apply lookup_union_is_Some. right. by exists x.
  - intros id [Hs | Hs]%lookup_union_is_Some; [by apply HMr |]. specialize (pi_ids0 id Hs). lia.
  - lia.
Qed.

(** ** Pages of a plan *)

Section plan_pages.
Context `{PackagesOk}.

Lemma holds_links pg h rs : page_holds pg h rs -> in_u64 (ph_prev_page h) /\ in_u64 (ph_next_page h).
Proof. intros Hp. destruct (hv_ok _ _ (page_holds_header _ _ _ Hp)). done. Qed.

Lemma relinked_ok links pg h rs :
  page_holds pg h rs -> in_u64 (links h).1 -> in_u64 (links h).2 ->
  exists pg', relinked links pg = Ok pg' /\
    page_holds pg' (linked_header (links h).1 (links h).2 h) rs.
Proof.
  intros Hp H1 H2. destruct (set_page_links_holds _ _ _ _ _ Hp H1 H2) as (pg' & E & Hp').
  exists pg'. split; [| done]. unfold relinked.
  rewrite (try_new_view _ _ (page_holds_header _ _ _ Hp)). cbn [mbind res_bind].
  rewrite (header_view_decode _ _ (page_holds_header _ _ _ Hp)). cbn [mbind res_bind].
  by apply (on_buffer_ok _ _ tt).
Qed.

Lemma fits_empty prev next page_id format hash flags payload :
  insert_fits (linked_header prev next (empty_header page_id format hash flags)) payload
    = pack_fits [payload] /\
  insert_fits (empty_header page_id format hash flags) payload = pack_fits [payload].
Proof. done. Qed.

(** A page with one record. *)
Definition fresh_page (f : TimeSeriesFile) (page_id prev next : Z) (r : Rec) : ChainPage :=
  mkChainPage
    (insert_header (linked_header prev next (empty_header page_id (tf_tuple_format_version f)
       (tf_tuple_schema_hash f) (tf_tuple_flags f))) (r_payload r)) [r].

Lemma fresh_page_meta f page_id prev next r : page_meta f (fresh_page f page_id prev next r).
Proof. done. Qed.

Lemma single_record_page_ok f page_id prev next r :
  file_ready f -> in_u64 page_id -> in_u64 prev -> in_u64 next -> row_ok r ->
  if pack_fits [r_payload r] then
    exists pg, single_record_page page_id prev next (r_ts r) (r_id r) (r_payload r) f = Ok pg /\
      page_holds pg (cp_header (fresh_page f page_id prev next r)) [r]
  else single_record_page page_id prev next (r_ts r) (r_id r) (r_payload r) f
         = Err InsufficientBufferSpace.
Proof.
  intros [_ F1 F2 F3] Hid Hp Hn (Hts & Hti & _).
  destruct (empty_page_image_ok page_id _ _ _ Hid F1 F2 F3) as (pg0 & E0 & H0).
  destruct (set_page_links_holds prev next pg0 _ _ H0 Hp Hn) as (pg1 & E1 & H1).
  unfold single_record_page. rewrite E0. cbn [mbind res_bind].
  destruct (fits_empty prev next page_id (tf_tuple_format_version f) (tf_tuple_schema_hash f)
              (tf_tuple_flags f) (r_payload r)) as [<- _].
  destruct (insert_fits _ (r_payload r)) eqn:Hfit.
  - destruct (insert_record_holds pg1 _ _ _ _ (r_payload r) H1 Hts Hti Hfit eq_refl) as (pg & E & Hpg).
    exists pg. split; [| by destruct r].
    apply (on_buffer_ok _ _ (Z.of_nat (spec_position (mkRec (r_ts r) (r_id r) (r_payload r)) []))).
    by st_step by exact E1.
  - destruct H1 as (ss & R & _). apply (on_buffer_err _ _ _ pg1). st_step by exact E1.
    by eapply insert_record_full.
Qed.

(** The entries of a page, and the sorted list with one more. *)
Lemma page_entries_ok pg h rs page_id :
  page_holds pg h rs ->
  exists es, page_entries pg page_id = Ok es /\ entry_of <$> es = rs.
Proof.
  intros Hp. unfold page_entries. rewrite (slot_count_holds _ _ _ Hp). cbn [mbind res_bind].
  set (g := fun p : nat * Rec =>
    mkTimeSeriesRecord (r_ts p.2) (r_id p.2) (r_payload p.2) page_id (Z.of_nat p.1)).
  exists (g <$> imap (fun i r => (i, r)) rs). split.
  - assert (zlen rs = zlen (imap (fun i r => (i, r)) rs)) as -> by (unfold zlen; by rewrite length_imap).
    apply mapM_seqZ. intros i [j r] Hi. apply list_lookup_imap_Some in Hi as (r' & Hr & [= -> ->]).
    destruct (slot_ref_holds _ _ _ Hp i r' Hr) as (s & -> & E1 & E2). cbn [mbind res_bind].
    rewrite (record_bytes_holds _ _ _ Hp i r' Hr). cbn [mbind res_bind]. unfold g. by rewrite E1, E2.
  - apply list_eq. intros i. rewrite !list_lookup_fmap, list_lookup_imap.
    destruct (rs !! i) as [[]|]; done.
Qed.

Lemma record_leb_entry a b : record_le a b = rec_leb (entry_of a) (entry_of b).
Proof. done. Qed.

(** Sorting one more entry in is an insertion. *)
Lemma sort_rec_snoc rs r :
  keys_sorted rs -> spec_find (r_ts r) (r_id r) rs = None ->
  sort_stable rec_leb (rs ++ [r]) = spec_insert r rs.
Proof.
  intros Hs Hf. assert (keys_sorted (spec_insert r rs)) as Hs'
    by (apply spec_insert_sorted; [done | by apply spec_find_none]).
  apply keys_sorted_perm_eq; [| done |].
  - assert (NoDup (rec_key <$> sort_stable rec_leb (rs ++ [r]))) as Hnd.
    { rewrite sort_stable_perm, (comm (++)). cbn [app]. rewrite <- spec_insert_perm.
      by apply keys_sorted_NoDup. }
    apply StronglySorted_lookup_2. intros i j a b Hij Ha Hb.
    pose proof (StronglySorted_lookup _ _ _ _ _ _ (sort_rec_leb (rs ++ [r])) Hij Ha Hb) as Hle.
    assert (rec_key a <> rec_key b) as Hne.
    { intros E. rewrite NoDup_alt in Hnd. assert (i = j); [| lia].
      eapply Hnd; rewrite list_lookup_fmap; [by rewrite Ha | by rewrite Hb, E]. }
    unfold key_le, key_lt, rec_key in *. destruct (decide (r_id a = r_id b)); [| lia].
    destruct (decide (r_ts a = r_ts b)); [congruence | lia].
  - by rewrite sort_stable_perm, spec_insert_perm, (comm (++)).
Qed.

Lemma find_split_index_ok es :
  Forall entry_in_range es ->
  if splits (entry_of <$> es) then
    exists n, find_split_index es = Ok n /\ (n <= length es)%nat /\
      pack_fits (r_payload <$> take n (entry_of <$> es)) = true /\
      pack_fits (r_payload <$> drop n (entry_of <$> es)) = true
  else find_split_index es = Err InsufficientBufferSpace.
Proof.
  intros HF.
  assert (forall n, page_entries_fit (take n es) && page_entries_fit (drop n es) =
    pack_fits (r_payload <$> take n (entry_of <$> es)) && pack_fits (r_payload <$> drop n (entry_of <$> es)))
    as Heq.
  { intros n. rewrite !page_entries_fit_spec by (by apply Forall_take || by apply Forall_drop).
    rewrite <- !fmap_take, <- !fmap_drop, <- !list_fmap_compose. done. }
  unfold splits, find_split_index. rewrite length_fmap.
  destruct (list_find _ _) as [[k n] |] eqn:E.
  - apply list_find_Some in E as (Hn & Hfit & _). apply Is_true_true_1 in Hfit. rewrite Heq in Hfit.
    assert (existsb (fun n => pack_fits (r_payload <$> take n (entry_of <$> es)) &&
              pack_fits (r_payload <$> drop n (entry_of <$> es))) (seq 1 (length es - 1)) = true) as ->.
    { apply existsb_exists. exists n. split; [| done].
      apply list_elem_of_In. by eapply list_elem_of_lookup_2. }
    exists n. apply andb_prop in Hfit as []. apply list_elem_of_lookup_2, elem_of_seq in Hn.
    split_and!; [done | lia | done | done].
  - apply list_find_None in E. rewrite Forall_forall in E.
    destruct (existsb _ _) eqn:Ex; [| done]. apply existsb_exists in Ex as (n & Hn & Hfit).
    exfalso. apply (E n); [by apply list_elem_of_In |]. apply Is_true_true_2. by rewrite Heq.
Qed.

End plan_pages.

(** ** A new page in the chain *)

Definition relink_prev (id : Z) (p : ChainPage) : ChainPage :=
  mkChainPage (linked_header id (ph_next_page (cp_header p)) (cp_header p)) (cp_recs p).
Definition relink_next (id : Z) (p : ChainPage) : ChainPage :=
  mkChainPage (linked_header (ph_prev_page (cp_header p)) id (cp_header p)) (cp_recs p).

Definition on_first (g : ChainPage -> ChainPage) (ps : list ChainPage) : list ChainPage :=
  match ps with [] => [] | p :: ps => g p :: ps end.

Fixpoint on_last (g : ChainPage -> ChainPage) (ps : list ChainPage) : list ChainPage :=
  match ps with
  | [] => []
  | [p] => [g p]
  | p :: ps => p :: on_last g ps
  end.

Lemma on_last_snoc g ps p : on_last g (ps ++ [p]) = ps ++ [g p].
Proof. induction ps as [| q ps IH]; [done |]. cbn. rewrite IH. by destruct ps. Qed.

Lemma snoc_inv (ps : list ChainPage) : ps = [] \/ exists l p, ps = l ++ [p].
Proof.
  destruct (last ps) as [p |] eqn:E; [right | left; by apply last_None].
  apply last_Some in E as [l ->]. by exists l, p.
Qed.

Lemma linked_new prev l1 q l2 next :
  linked prev l1 (cp_id q) -> linked (last_id prev l1) l2 next \/ (exists x, linked x l2 next) ->
  ph_prev_page (cp_header q) = last_id prev l1 -> ph_next_page (cp_header q) = first_id l2 next ->
  linked prev (l1 ++ q :: on_first (relink_prev (cp_id q)) l2) next.
Proof.
  intros H1 H2 Hp Hn. assert (exists x, linked x l2 next) as [x Hx] by (destruct H2; eauto).
  apply linked_app. split; [done |]. cbn [linked]. split_and!; [done | by rewrite Hn; destruct l2 |].
  destruct l2 as [| b l2]; [done |]. cbn in *. by destruct Hx as (_ & ? & ?).
Qed.

Lemma linked_relink_last prev l1 next id :
  linked prev l1 next -> linked prev (on_last (relink_next id) l1) id /\
  last_id prev (on_last (relink_next id) l1) = last_id prev l1.
Proof.
  destruct (snoc_inv l1) as [-> | (l & p & ->)]; [done |]. rewrite on_last_snoc.
  rewrite !linked_app. intros [Hl Hp]. cbn [linked first_id] in *. destruct Hp as (Hp & _ & _).
  split; [by split_and! |]. unfold last_id. by rewrite !last_snoc.
Qed.

Lemma on_last_fmap {B} (g : ChainPage -> ChainPage) (k : ChainPage -> B) ps :
  (forall p, k (g p) = k p) -> k <$> on_last g ps = k <$> ps.
Proof.
  intros Hk. destruct (snoc_inv ps) as [-> | (l & p & ->)]; [done |].
  rewrite on_last_snoc, !fmap_app. cbn. by rewrite Hk.
Qed.

Lemma on_first_fmap {B} (g : ChainPage -> ChainPage) (k : ChainPage -> B) ps :
  (forall p, k (g p) = k p) -> k <$> on_first g ps = k <$> ps.
Proof. intros Hk. destruct ps as [| p ps]; [done |]. cbn. by rewrite Hk. Qed.

(** Only the records of the pages matter for the meaning of a chain. *)
Lemma ordered_recs ps ps' :
  cp_recs <$> ps = cp_recs <$> ps' -> chain_ordered ps -> chain_ordered ps'.
Proof.
  revert ps'. induction ps as [| p ps IH]; intros [| p' ps'] E; try done.
  rewrite !fmap_cons in E. injection E as Ep E. intros (Hs & Hge & Ho)%ordered_cons.
  apply (ordered_mid [] p' ps'). split_and!; try by intros ? ?%elem_of_nil.
  - by split; constructor.
  - by rewrite <- Ep.
  - by apply IH.
  - intros q Hq r r' Hr Hr'. apply list_elem_of_lookup in Hq as [i Hi].
    assert ((cp_recs <$> ps) !! i = Some (cp_recs q)) as Hi'
      by (change (list_fmap _ _ cp_recs ps) with (cp_recs <$> ps) in E; rewrite E, list_lookup_fmap, Hi; done).
    apply list_lookup_fmap_Some in Hi' as (q' & Eq & Hq'). rewrite Forall_forall in Hge.
    apply (Hge q'); [by eapply list_elem_of_lookup_2 | by rewrite Ep | by rewrite <- Eq].
  - by intros ? ? ?%elem_of_nil.
Qed.

Lemma chain_map_recs ps ps' : cp_recs <$> ps = cp_recs <$> ps' -> chain_map ps = chain_map ps'.
Proof.
  revert ps'. induction ps as [| p ps IH]; intros [| p' ps'] E; try done.
  rewrite !fmap_cons in E. injection E as Ep E. rewrite !chain_map_cons. unfold cp_map.
  by rewrite Ep, (IH ps').
Qed.

Lemma row_done_recs ps r ps' ps'' :
  row_done ps r ps' -> cp_recs <$> ps' = cp_recs <$> ps'' -> row_done ps r ps''.
Proof.
  intros (Ho & Hm & Hr) E. split; [by eapply ordered_recs |]. split; [by rewrite <- (chain_map_recs _ _ E) |].
  unfold chain_recs in *. by rewrite <- E.
Qed.

(** The chain with a new page [q] in front of [l2]; [l1'] are the pages in
    front of it, whose last one already links to [q]. *)
Definition with_page (l1' : list ChainPage) (q : ChainPage) (l2 : list ChainPage) : list ChainPage :=
  l1' ++ q :: on_first (relink_prev (cp_id q)) l2.

Lemma with_page_recs l1' q l2 : cp_recs <$> with_page l1' q l2 = cp_recs <$> l1' ++ q :: l2.
Proof. unfold with_page. rewrite !fmap_app, !fmap_cons. by rewrite on_first_fmap. Qed.

Lemma with_page_ids l1' q l2 : cp_id <$> with_page l1' q l2 = cp_id <$> l1' ++ q :: l2.
Proof. unfold with_page. rewrite !fmap_app, !fmap_cons. by rewrite on_first_fmap. Qed.

Lemma head_id_ids ps ps' : cp_id <$> ps = cp_id <$> ps' -> head_id ps = head_id ps'.
Proof. unfold head_id. destruct ps, ps'; try done. rewrite !fmap_cons. cbn. congruence. Qed.

Lemma tail_id_ids ps ps' : cp_id <$> ps = cp_id <$> ps' -> tail_id ps = tail_id ps'.
Proof. unfold tail_id. intros E. by rewrite <- !fmap_last, E. Qed.

(** [l1'] is [l1] with its last page linked to [id]. *)
Record front (f : TimeSeriesFile) (l1 l1' : list ChainPage) (id : Z) : Prop := mk_front {
  ft_linked : linked NONE_PAGE_ID l1' id;
  ft_ids : cp_id <$> l1' = cp_id <$> l1;
  ft_meta : Forall (page_meta f) l1';
}.

Lemma front_relinked `{Packages} f img count l1 l2 id :
  chain f img count (l1 ++ l2) -> front f l1 (on_last (relink_next id) l1) id.
Proof.
  intros C. pose proof (ch_linked _ _ _ _ C) as [L1 _]%linked_app.
  pose proof (ch_meta _ _ _ _ C) as [M1 _]%Forall_app. split.
  - by apply (linked_relink_last _ _ _ id) in L1 as [].
  - by apply on_last_fmap.
  - destruct (snoc_inv l1) as [-> | (l & p & ->)]; [done |].
    rewrite on_last_snoc. apply Forall_app in M1 as [Ml Mp]. apply Forall_app. split; [done |].
    by rewrite Forall_singleton in *.
Qed.

Lemma front_split `{Packages} f img count l1 p l2 pu id :
  chain f img count (l1 ++ p :: l2) -> cp_id pu = cp_id p ->
  ph_prev_page (cp_header pu) = ph_prev_page (cp_header p) -> ph_next_page (cp_header pu) = id ->
  page_meta f pu -> front f (l1 ++ [p]) (l1 ++ [pu]) id.
Proof.
  intros C Hid Hp Hn Hm. pose proof (ch_linked _ _ _ _ C) as [L1 (Lp & _)]%linked_app.
  pose proof (ch_meta _ _ _ _ C) as [M1 _]%Forall_app. split.
  - apply linked_app. cbn in *. split_and!; [| congruence | done | done]. by rewrite Hid.
  - rewrite !fmap_app. cbn. by rewrite Hid.
  - apply Forall_app. split; [done |]. by rewrite Forall_singleton.
Qed.

Lemma with_page_shape `{Packages} f img count l1 l1' q l2 :
  chain f img count (l1 ++ l2) -> front f l1 l1' count -> cp_id q = count -> page_meta f q ->
  ph_prev_page (cp_header q) = link_of (tail_id l1) ->
  ph_next_page (cp_header q) = link_of (head_id l2) ->
  linked NONE_PAGE_ID (with_page l1' q l2) NONE_PAGE_ID /\
  cp_id <$> with_page l1' q l2 ≡ₚ seqZ 0 (count + 1) /\
  Forall (page_meta f) (with_page l1' q l2).
Proof.
  intros C [L1 Hids M1] Hid Hmeta Hp Hn. pose proof (ch_linked _ _ _ _ C) as [_ L2]%linked_app.
  pose proof (ch_count _ _ _ _ C). split_and!.
  - apply linked_new; [by rewrite Hid | by right; eexists | |].
    + rewrite Hp, (tail_id_ids l1 l1') by done. unfold last_id, tail_id, link_of. by destruct (last l1').
    + rewrite Hn. by destruct l2.
  - rewrite with_page_ids, fmap_app, fmap_cons, Hid, Hids, <- Permutation_middle, <- fmap_app.
    rewrite (ch_ids _ _ _ _ C), seqZ_app by lia. rewrite Z.add_0_l.
    assert (seqZ count 1 = [count]) as -> by (unfold seqZ; cbn; f_equal; lia). by rewrite (comm (++)).
  - pose proof (ch_meta _ _ _ _ C) as [_ M2]%Forall_app. apply Forall_app. split; [done |].
    constructor; [done |]. destruct l2; [done |]. cbn. inversion M2; subst. by constructor.
Qed.

(** A page of the new chain is the new one, one in front of it, its relinked
    successor or a page that the write does not touch. *)
Lemma with_page_elem l1 l1' q l2 p :
  NoDup (cp_id <$> l1 ++ l2) -> p ∈ with_page l1' q l2 ->
  p = q \/ p ∈ l1' \/ (exists b, head l2 = Some b /\ p = relink_prev (cp_id q) b) \/
  (p ∈ l2 /\ cp_id p ∉ cp_id <$> l1 /\ Some (cp_id p) <> head_id l2).
Proof.
  intros Hnd [Hp | [-> | Hp]%elem_of_cons]%elem_of_app; [by right; left | by left |].
  right. right. destruct l2 as [| b l2]; [by apply elem_of_nil in Hp |]. cbn [on_first] in Hp.
  apply elem_of_cons in Hp as [-> | Hp]; [left; by exists b | right].
  rewrite fmap_app, NoDup_app in Hnd. destruct Hnd as (_ & Hd & Hb). rewrite fmap_cons in Hb.
  apply NoDup_cons in Hb as [Hb _]. split_and!; [by right | |].
  - intros Hin. apply (Hd _ Hin). apply list_elem_of_fmap. exists p. split; [done | by right].
  - intros [= E]. apply Hb. apply list_elem_of_fmap. by exists p.
Qed.
