(* ===== verification/TsPlan.v ===== *)
(** * Steps of a plan

    Each branch of [plan_row_insert] turns the chain of the overlay into the
    chain with the row, or refuses the row because it has no room. *)

From S2P Require Import Prelude Errors Compat FileOps LogFrame WalBackend PageFormat PageBlock.
From S2P Require Import RecordSpec RecordMap PageView PageInsert PageRebuild PageImage PhysLog.
From S2P Require Import Replay TsFile Chain TsChain TsRead TsWrite.

Section plan_steps.
Context `{PackagesOk}.
Context (f0 : TimeSeriesFile) (R : file_ready f0).

(** The outcome of a step for the row [r]. *)
Definition planned (s : Planning) (ps : list ChainPage) (r : Rec) (ok : bool)
    (res : Res ErrorCode unit * Planning) : Prop :=
  if ok then
    exists s' ps', res = (Ok tt, s') /\ plan_inv f0 s' ps' /\ row_done ps r ps' /\
      ov_page_count (pn_overlay s') <= ov_page_count (pn_overlay s) + 1
  else exists s', res = (Err InsufficientBufferSpace, s') /\ cache_filled f0 (pn_file s').

(** ** Reads and new pages *)

Lemma plan_ready s ps f1 :
  plan_inv f0 s ps -> cache_filled (pn_file s) f1 ->
  cache_filled f0 f1 /\ file_ready f1 /\
  (forall page_id prev next r, fresh_page f1 page_id prev next r = fresh_page f0 page_id prev next r).
Proof.
  intros I Hf. assert (cache_filled f0 f1) as C by (etrans; [apply I | exact Hf]).
  destruct (filled_fields _ _ C) as (_ & _ & Eo & _ & _ & _ & _ & _ & E1 & E2 & E3).
  destruct R. unfold fresh_page. rewrite E1, E2, E3. split_and!; [done | | done].
  split; congruence.
Qed.

(** Reading a page of the chain that the step has not written yet. *)
Lemma plan_read s ps p f1 o :
  plan_inv f0 s ps -> p ∈ ps -> cache_filled (pn_file s) f1 ->
  ov_page_images o !! cp_id p = ov_page_images (pn_overlay s) !! cp_id p ->
  exists pg f2, overlay_read_page (cp_id p) (mkPlanning f1 o) = (Ok pg, mkPlanning f2 o) /\
    cache_filled (pn_file s) f2 /\ page_holds pg (cp_header p) (cp_recs p) /\
    pn_img s (cp_id p) = Some pg.
Proof.
  intros I Hp Hf Ho. pose proof (pi_chain _ _ _ I) as C.
  destruct (chain_page _ _ _ _ C p Hp) as (pg & Hi & Hpg).
  destruct (plan_ready s ps f1 I Hf) as (_ & R1 & _).
  destruct (overlay_read_img (mkPlanning f1 o) (cp_id p) pg) as ([f2 o2] & E & [Eo Hf2]).
  - unfold pn_img in *. cbn [pn_overlay pn_file]. by rewrite Ho, (filled_img _ _ Hf).
  - apply R1.
  - by apply (chain_max _ _ _ _ C).
  - cbn in Eo, Hf2. subst o2. exists pg, f2. split_and!; [exact E | by etrans | exact Hpg | exact Hi].
Qed.

Lemma alloc_page_id_ok s ps :
  plan_inv f0 s ps -> ov_page_count (pn_overlay s) < MAX_PAGES ->
  alloc_page_id s = (Ok (ov_page_count (pn_overlay s)),
    mkPlanning (pn_file s) (ov_set_count (ov_page_count (pn_overlay s) + 1) (pn_overlay s))).
Proof.
  intros I Hmax. unfold alloc_page_id. st_step by reflexivity.
  unfold st_lift, uadd. rewrite (proj2 (Z.leb_le _ _)) by (unfold MAX_PAGES, U64_MAX in *; lia).
  done.
Qed.

Lemma id_in_u64 id : 0 <= id < MAX_PAGES -> in_u64 id.
Proof. unfold MAX_PAGES. mlia. Qed.

Lemma link_in_u64 s l1 l2 :
  plan_inv f0 s (l1 ++ l2) -> in_u64 (link_of (head_id l2)) /\ in_u64 (link_of (tail_id l1)).
Proof.
  intros I. pose proof (pi_chain _ _ _ I) as C. split.
  - destruct l2 as [| b l2]; [by vm_compute; split |].
    apply id_in_u64, (chain_max _ _ _ _ C). clear. set_solver.
  - unfold tail_id. destruct (last l1) as [a |] eqn:E; [| by vm_compute; split].
    apply last_Some in E as [l ->]. apply id_in_u64, (chain_max _ _ _ _ C). clear. set_solver.
Qed.

Lemma single_page_planned s ps f1 page_id prev next r :
  plan_inv f0 s ps -> cache_filled (pn_file s) f1 ->
  in_u64 page_id -> in_u64 prev -> in_u64 next -> row_ok r ->
  if pack_fits [r_payload r] then
    exists pg, single_record_page page_id prev next (r_ts r) (r_id r) (r_payload r) f1 = Ok pg /\
      page_holds pg (cp_header (fresh_page f0 page_id prev next r)) [r]
  else single_record_page page_id prev next (r_ts r) (r_id r) (r_payload r) f1
         = Err InsufficientBufferSpace.
Proof.
  intros I Hf H1 H2 H3 Hr. destruct (plan_ready s ps f1 I Hf) as (_ & R1 & Hfresh).
  pose proof (single_record_page_ok f1 page_id prev next r R1 H1 H2 H3 Hr) as Hs.
  by rewrite Hfresh in Hs.
Qed.

(** ** A new page *)

(** The images [M] hold the new page [q], the pages in front of it and its
    successor. *)
Record page_writes (count : Z) (l1 l1' : list ChainPage) (q : ChainPage) (l2 : list ChainPage)
    (M : gmap Z (list byte)) : Prop := mk_page_writes {
  pw_new : exists pg, M !! count = Some pg /\ page_holds pg (cp_header q) (cp_recs q);
  pw_front : forall p, p ∈ l1' -> match M !! cp_id p with
                                  | Some pg => page_holds pg (cp_header p) (cp_recs p)
                                  | None => p ∈ l1
                                  end;
  pw_succ : forall b, head l2 = Some b -> exists pg, M !! cp_id b = Some pg /\
              page_holds pg (cp_header (relink_prev count b)) (cp_recs b);
  pw_dom : forall id, is_Some (M !! id) ->
             id = count \/ id ∈ cp_id <$> l1 \/ Some id = head_id l2;
}.

Lemma plan_linked s f1 l1 l1' l2 q M hd tl r :
  let count := ov_page_count (pn_overlay s) in
  plan_inv f0 s (l1 ++ l2) -> count < MAX_PAGES -> cache_filled (pn_file s) f1 ->
  front f0 l1 l1' count -> cp_id q = count -> page_meta f0 q ->
  ph_prev_page (cp_header q) = link_of (tail_id l1) ->
  ph_next_page (cp_header q) = link_of (head_id l2) ->
  page_writes count l1 l1' q l2 M ->
  hd = head_id (with_page l1' q l2) -> tl = tail_id (with_page l1' q l2) ->
  row_done (l1 ++ l2) r (l1' ++ q :: l2) ->
  planned s (l1 ++ l2) r true
    (Ok tt, mkPlanning f1 (mkWriteOverlay (M ∪ ov_page_images (pn_overlay s)) (count + 1) hd tl)).
Proof.
  intros count I Hmax Hf Hfr Hid Hmeta Hprev Hnext [HMq HMf HMs HMd] -> -> Hdone.
  pose proof (pi_chain _ _ _ I) as C. pose proof (chain_nodup _ _ _ _ C) as Hnd.
  assert (forall p, p ∈ l1 ++ l2 -> 0 <= cp_id p < count) as Hrange
    by (intros p Hp; apply (chain_range _ _ _ _ C p Hp)).
  pose proof (pi_count _ _ _ I) as Hc. fold count in Hc.
  destruct (with_page_shape _ _ _ l1 l1' q l2 C Hfr Hid Hmeta Hprev Hnext) as (Hl & Hids & Hm).
  pose proof (row_done_recs _ _ _ _ Hdone (eq_sym (with_page_recs l1' q l2))) as Hd.
  eexists _, (with_page l1' q l2). split; [reflexivity |]. split; [| split; [exact Hd | done]].
  eapply (plan_written f0 s _ (l1 ++ l2) _ M (count + 1)); try done; try (fold count; lia).
  - fold count. intros _. destruct HMq as (pg & -> & _). by eexists.
  - intros id [-> | [Ei | Ei]]%HMd; [lia | |].
    + apply list_elem_of_fmap in Ei as (a & -> & Ha). specialize (Hrange a). set_solver by lia.
    + destruct l2 as [| b l2]; [done |]. injection Ei as ->. specialize (Hrange b). set_solver by lia.
  - intros p Hp.
    destruct (with_page_elem l1 l1' q l2 p Hnd Hp) as [-> | [Hin | [(b & Eb & ->) | (Hin & Ha & Hb)]]].
    + rewrite Hid. by destruct HMq as (pg & -> & ?).
    + specialize (HMf p Hin). destruct (M !! cp_id p); [done |]. apply elem_of_app. by left.
    + change (cp_id (relink_prev (cp_id q) b)) with (cp_id b). destruct (HMs b Eb) as (pg & -> & Hpg).
      by rewrite Hid.
    + destruct (M !! cp_id p) eqn:E; [| apply elem_of_app; by right]. exfalso.
      destruct (HMd (cp_id p)) as [Eq | [Eq | Eq]]; [by rewrite E | | done | done].
      specialize (Hrange p). set_solver by lia.
  - apply Hd.
Qed.

(** The ends of the chain with a new page. *)
Lemma with_page_head l1 l1' q l2 id :
  cp_id <$> l1' = cp_id <$> l1 -> l1 <> [] -> head_id (l1 ++ l2) = id ->
  id = head_id (with_page l1' q l2).
Proof.
  intros E Hne <-. rewrite (head_id_ids (with_page l1' q l2) (l1 ++ q :: l2)); [by destruct l1 |].
  by rewrite with_page_ids, !fmap_app, E.
Qed.

Lemma with_page_tail l1 l1' q l2 id :
  l2 <> [] -> tail_id (l1 ++ l2) = id -> id = tail_id (with_page l1' q l2).
Proof.
  intros Hne <-. rewrite (tail_id_ids (with_page l1' q l2) (l1' ++ q :: l2)) by apply with_page_ids.
  destruct (snoc_inv l2) as [-> | (l & b & ->)]; [done |].
  unfold tail_id. rewrite app_comm_cons, !app_assoc, !last_snoc. done.
Qed.

Lemma link_successor_ok s f1 l1 l1' l2 q M r :
  let count := ov_page_count (pn_overlay s) in
  plan_inv f0 s (l1 ++ l2) -> l1 <> [] -> count < MAX_PAGES -> cache_filled (pn_file s) f1 ->
  front f0 l1 l1' count -> cp_id q = count -> page_meta f0 q ->
  ph_prev_page (cp_header q) = link_of (tail_id l1) ->
  ph_next_page (cp_header q) = link_of (head_id l2) ->
  page_writes count l1 l1' q [] M -> (forall b, head l2 = Some b -> M !! cp_id b = None) ->
  row_done (l1 ++ l2) r (l1' ++ q :: l2) ->
  planned s (l1 ++ l2) r true
    (link_successor count (head_id l2)
       (mkPlanning f1 (ov_set_images (M ∪ ov_page_images (pn_overlay s))
                         (ov_set_count (count + 1) (pn_overlay s))))).
Proof.
  intros count I Hne Hmax Hf Hfr Hid Hmeta Hp Hn [HMq HMf _ HMd] HMn Hdone.
  destruct l2 as [| b l2]; cbn [head_id head fmap option_fmap option_map link_successor].
  - apply (plan_linked s f1 l1 l1' [] q M); try done.
    + eapply with_page_head; [apply Hfr | done | symmetry; apply (pi_head _ _ _ I)].
    + unfold with_page, on_first, tail_id. rewrite last_snoc. cbn. by rewrite Hid.
  - specialize (HMn b eq_refl). pose proof (pi_chain _ _ _ I) as C.
    assert (b ∈ l1 ++ b :: l2) as Hb by (clear; set_solver).
    pose proof (chain_range _ _ _ _ C b Hb) as Hbr. fold count in Hbr.
    destruct (plan_read s _ b f1 (ov_set_images (M ∪ ov_page_images (pn_overlay s))
                (ov_set_count (count + 1) (pn_overlay s))) I Hb Hf) as (pg & f2 & E & Hf2 & Hpg & _).
    { cbn. by rewrite lookup_union, HMn, (left_id_L None (∪)). }
    change (cp_id <$> Some b) with (Some (cp_id b)). cbv iota. st_step by exact E.
    destruct (relinked_ok (fun h => (count, ph_next_page h)) pg _ _ Hpg) as (pg' & Er & Hpg');
      [apply id_in_u64; cbn; lia | by eapply holds_links |].
    st_step by (unfold st_lift; rewrite Er; reflexivity).
    unfold write_page_image, on_overlay, st_modify, ov_set_images, ov_set_count.
    cbn [pn_file pn_overlay ov_page_images ov_page_count ov_head_page_id ov_tail_page_id].
    rewrite insert_union_l.
    apply (plan_linked s f2 l1 l1' (b :: l2) q);
      [exact I | exact Hmax | exact Hf2 | exact Hfr | exact Hid | exact Hmeta | exact Hp | exact Hn
      | | | | exact Hdone].
    + split.
      * destruct HMq as (pgq & Eq & Hq). exists pgq. split; [| exact Hq].
        rewrite lookup_insert_ne; [exact Eq | lia].
      * intros p Hin. rewrite lookup_insert_ne; [by apply HMf |]. intros E'.
        pose proof (chain_nodup _ _ _ _ C) as Hnd. rewrite fmap_app in Hnd.
        apply NoDup_app in Hnd as (_ & Hd & _). apply (Hd (cp_id b)); [| by left].
        rewrite <- (ft_ids _ _ _ _ Hfr). apply list_elem_of_fmap. by exists p.
      * intros x [= <-]. exists pg'. split; [apply lookup_insert_eq | exact Hpg'].
      * intros id [<- | [_ Hs]]%lookup_insert_is_Some; [by right; right |].
        destruct (HMd id Hs) as [? | [? |]]; [by left | by right; left | done].
    + eapply with_page_head; [apply Hfr | done | symmetry; apply (pi_head _ _ _ I)].
    + eapply with_page_tail; [done | symmetry; apply (pi_tail _ _ _ I)].
Qed.

(** The images of the two pages written first. *)
Lemma write_two f1 o id1 id2 pg1 pg2 n (k : PN unit) :
  (write_page_image id1 pg1 ;; write_page_image id2 pg2 ;; k)
    (mkPlanning f1 (ov_set_count n o)) =
  k (mkPlanning f1 (ov_set_images (<[id2 := pg2]> {[id1 := pg1]} ∪ ov_page_images o)
                      (ov_set_count n o))).
Proof. rewrite <- insert_union_l, <- insert_union_singleton_l. done. Qed.

Lemma two_images (id count : Z) (pg pgq : list byte) :
  id <> count ->
  let M : gmap Z (list byte) := <[id := pg]> {[count := pgq]} in
  M !! count = Some pgq /\ M !! id = Some pg /\
  (forall i, is_Some (M !! i) -> i = count \/ i = id).
Proof.
  intros Hne M. unfold M. split_and!.
  - by rewrite lookup_insert_ne, lookup_singleton_eq.
  - apply lookup_insert_eq.
  - intros i. rewrite lookup_insert_is_Some, lookup_singleton_is_Some. intuition.
Qed.

Lemma not_fresh s ps p : plan_inv f0 s ps -> p ∈ ps -> cp_id p <> ov_page_count (pn_overlay s).
Proof. intros I Hp. pose proof (chain_range _ _ _ _ (pi_chain _ _ _ I) p Hp). lia. Qed.

(** The ids in front of a page and behind it differ from its own. *)
Lemma chain_distinct s l1 p l2 q :
  plan_inv f0 s (l1 ++ p :: l2) -> q ∈ l1 \/ q ∈ l2 -> cp_id q <> cp_id p.
Proof.
  intros I Hq E. pose proof (chain_nodup _ _ _ _ (pi_chain _ _ _ I)) as Hnd.
  rewrite fmap_app, fmap_cons, <- Permutation_middle in Hnd. apply NoDup_cons in Hnd as [Hn _].
  apply Hn. rewrite <- E, <- fmap_app. apply list_elem_of_fmap. exists q. split; [done |].
  by apply elem_of_app.
Qed.

(** Writes of the new page and of [p] touch no other page. *)
Lemma untouched s l1 p l2 x (M : gmap Z (list byte)) :
  plan_inv f0 s (l1 ++ p :: l2) ->
  (forall i, is_Some (M !! i) -> i = ov_page_count (pn_overlay s) \/ i = cp_id p) ->
  x ∈ l1 \/ x ∈ l2 -> M !! cp_id x = None.
Proof.
  intros I Md Hx. destruct (M !! cp_id x) eqn:E; [| done].
  destruct (Md (cp_id x)) as [E' | E']; [by rewrite E | |].
  - exfalso. eapply (not_fresh s _ x I); [| exact E']. apply elem_of_app.
    destruct Hx; [by left | right; by right].
  - by destruct (chain_distinct s l1 p l2 x I Hx).
Qed.

(** The writes of the new page and of the page [p] in front of it. *)
Lemma front_writes s l1 p p' q l2 M pg pgq :
  let count := ov_page_count (pn_overlay s) in
  plan_inv f0 s (l1 ++ p :: l2) -> cp_id p' = cp_id p ->
  M !! count = Some pgq -> page_holds pgq (cp_header q) (cp_recs q) ->
  M !! cp_id p = Some pg -> page_holds pg (cp_header p') (cp_recs p') ->
  (forall i, is_Some (M !! i) -> i = count \/ i = cp_id p) ->
  page_writes count (l1 ++ [p]) (l1 ++ [p']) q [] M /\
  (forall b, head l2 = Some b -> M !! cp_id b = None).
Proof.
  intros count I Hid Mq Hq Mp Hp Md.
  pose proof (fun x => untouched s l1 p l2 x M I Md) as Hnone.
  split; [split |].
  - exists pgq. split; [exact Mq | exact Hq].
  - intros x [Hx | ->%list_elem_of_singleton]%elem_of_app.
    + rewrite Hnone by (by left). apply elem_of_app. by left.
    + rewrite Hid, Mp. exact Hp.
  - done.
  - intros i [-> | ->]%Md; [by left |]. right. left. rewrite fmap_app. apply elem_of_app. right. by left.
  - intros b Eb. apply Hnone. right. destruct l2; [done |]. injection Eb as ->. by left.
Qed.

Lemma plan_insert_after_ok s l1 p l2 r :
  plan_inv f0 s (l1 ++ p :: l2) -> row_ok r -> ov_page_count (pn_overlay s) < MAX_PAGES ->
  (forall h, row_done (l1 ++ p :: l2) r ((l1 ++ [p]) ++ mkChainPage h [r] :: l2)) ->
  planned s (l1 ++ p :: l2) r (pack_fits [r_payload r])
    (plan_insert_after_page (cp_id p) (r_ts r) (r_id r) (r_payload r) s).
Proof.
  intros I Hr Hmax Hdone. set (count := ov_page_count (pn_overlay s)) in *.
  pose proof (pi_chain _ _ _ I) as C. pose proof (ch_count _ _ _ _ C) as Hc. fold count in Hc.
  assert (p ∈ l1 ++ p :: l2) as Hp by (clear; set_solver).
  destruct (plan_read s _ p (pn_file s) (ov_set_count (count + 1) (pn_overlay s)) I Hp)
    as (pg & f1 & E1 & Hf1 & Hpg & _); [done | done |].
  assert (in_u64 count /\ in_u64 (cp_id p)) as [Huc Hup]
    by (split; apply id_in_u64; [lia | by apply (chain_max _ _ _ _ C)]).
  pose proof (not_fresh s _ p I Hp) as Hnf. fold count in Hnf.
  pose proof I as I0.
  rewrite (cons_middle p l1 l2), app_assoc in I, Hdone |- *.
  destruct (link_in_u64 s _ _ I) as [Hlink _].
  unfold plan_insert_after_page.
  st_step by exact (alloc_page_id_ok s _ I Hmax). fold count. st_step by exact E1.
  st_step by (unfold st_lift; rewrite (try_new_holds _ _ Hpg); reflexivity).
  st_step by (unfold st_lift; rewrite (active_next_holds _ _ Hpg (head_id l2));
    [reflexivity | by eapply head_id_not_none; [apply I |] | by eapply chain_next]).
  fold (link_of (head_id l2)).
  pose proof (single_page_planned s _ f1 count (cp_id p) (link_of (head_id l2)) r I Hf1 Huc Hup Hlink Hr) as Hs.
  set (q := fresh_page f0 count (cp_id p) (link_of (head_id l2)) r) in *.
  destruct (pack_fits [r_payload r]).
  2:{ cbn [planned]. exists (mkPlanning f1 (ov_set_count (count + 1) (pn_overlay s))).
      split; [| cbn; etrans; [apply I | exact Hf1]]. apply st_bind_err. unfold st_reads. cbn [pn_file]. by rewrite Hs. }
  destruct Hs as (pgq & Es & Hq).
  st_step by (unfold st_reads; cbn [pn_file]; rewrite Es; reflexivity).
  destruct (relinked_ok (fun h => (ph_prev_page h, count)) pg _ _ Hpg) as (pgp & Er & Hpgp);
    [by eapply holds_links | done |].
  st_step by (unfold st_lift; rewrite Er; reflexivity).
  destruct (two_images (cp_id p) count pgp pgq) as (Mq & Mp & Md); [done |].
  set (M := <[cp_id p := pgp]> {[count := pgq]}) in *.
  rewrite (write_two f1 (pn_overlay s) count (cp_id p) pgq pgp). fold M.
  destruct (front_writes s l1 p (relink_next count p) q l2 M pgp pgq I0 eq_refl Mq Hq Mp Hpgp Md) as [Hw Hnone].
  destruct (link_successor_ok s f1 (l1 ++ [p]) (l1 ++ [relink_next count p]) l2 q M r)
    as (s' & ps' & El & I' & Hd & Hcount);
    [exact I | by destruct l1 | exact Hmax | exact Hf1 | | done | apply fresh_page_meta | | done
    | exact Hw | exact Hnone | |].
  - rewrite <- on_last_snoc. eapply front_relinked, (pi_chain _ _ _ I).
  - unfold tail_id. by rewrite last_snoc.
  - eapply row_done_recs; [apply (Hdone (cp_header q)) |]. by rewrite !fmap_app.
  - exists s', ps'. split; [| split_and!; [exact I' | exact Hd | exact Hcount]]. st_step by exact El. unfold on_overlay, st_modify.
    rewrite (pi_head _ _ _ I'). destruct ps' as [| x ps']; [| by destruct s' as [? []]].
    exfalso. destruct Hd as (_ & Hm & _). exact (insert_non_empty _ _ _ (eq_sym Hm)).
Qed.

(** The end of [plan_insert_before_page]: the page in front of the new one. *)
Lemma link_predecessor_ok s f1 l1 p l2 q M r pgp pgq :
  let count := ov_page_count (pn_overlay s) in
  plan_inv f0 s (l1 ++ p :: l2) -> count < MAX_PAGES -> cache_filled (pn_file s) f1 ->
  cp_id q = count -> page_meta f0 q ->
  ph_prev_page (cp_header q) = link_of (tail_id l1) -> ph_next_page (cp_header q) = cp_id p ->
  M !! count = Some pgq -> page_holds pgq (cp_header q) (cp_recs q) ->
  M !! cp_id p = Some pgp -> page_holds pgp (cp_header (relink_prev count p)) (cp_recs p) ->
  (forall i, is_Some (M !! i) -> i = count \/ i = cp_id p) ->
  row_done (l1 ++ p :: l2) r (l1 ++ q :: p :: l2) ->
  planned s (l1 ++ p :: l2) r true
    (match tail_id l1 with
     | Some prev_page_id =>
         prev_page_buf ← overlay_read_page prev_page_id;
         updated_prev_buf ← st_lift (relinked (fun h => (ph_prev_page h, count)) prev_page_buf);
         write_page_image prev_page_id updated_prev_buf
     | None => on_overlay (ov_set_head (Some count))
     end (mkPlanning f1 (ov_set_images (M ∪ ov_page_images (pn_overlay s))
                           (ov_set_count (count + 1) (pn_overlay s))))).
Proof.
  intros count I Hmax Hf Hid Hmeta Hp Hn Mq Hq Mp Hpgp Md Hdone.
  destruct (snoc_inv l1) as [-> | (l & a & ->)].
  { cbn [tail_id last fmap option_fmap option_map].
    apply (plan_linked s f1 [] [] (p :: l2) q M);
      [exact I | exact Hmax | exact Hf | by split | exact Hid | exact Hmeta | exact Hp | exact Hn | | | |].
    - split; [by exists pgq | by intros ? ?%elem_of_nil | intros b [= <-]; by exists pgp |].
      intros i [-> | ->]%Md; [by left | by right; right].
    - cbn. by rewrite Hid.
    - eapply (with_page_tail []); [done | symmetry; apply (pi_tail _ _ _ I)].
    - exact Hdone. }
  unfold tail_id at 1. rewrite last_snoc. cbn [fmap option_fmap option_map]. cbv beta iota.
  assert (a ∈ (l ++ [a]) ++ p :: l2) as Ha by (clear; set_solver).
  assert (forall x, x ∈ l ++ [a] -> M !! cp_id x = None) as Hnone
    by (intros x Hx; eapply (untouched s (l ++ [a]) p l2); [exact I | exact Md | by left]).
  assert (a ∈ l ++ [a]) as Ha' by (clear; set_solver).
  destruct (plan_read s _ a f1 (ov_set_images (M ∪ ov_page_images (pn_overlay s))
              (ov_set_count (count + 1) (pn_overlay s))) I Ha Hf) as (pg & f2 & E & Hf2 & Hpg & _).
  { cbn. by rewrite lookup_union, (Hnone a Ha'), (left_id_L None (∪)). }
  st_step by exact E.
  destruct (relinked_ok (fun h => (ph_prev_page h, count)) pg _ _ Hpg) as (pga & Er & Hpga);
    [by eapply holds_links | apply id_in_u64; pose proof (pi_count _ _ _ I); cbn; lia |].
  st_step by (unfold st_lift; rewrite Er; reflexivity).
  unfold write_page_image, on_overlay, st_modify, ov_set_images, ov_set_count.
  cbn [pn_file pn_overlay ov_page_images ov_page_count ov_head_page_id ov_tail_page_id].
  rewrite insert_union_l.
  pose proof (front_relinked _ _ _ (l ++ [a]) (p :: l2) count (pi_chain _ _ _ I)) as Hfr.
  rewrite on_last_snoc in Hfr.
  apply (plan_linked s f2 (l ++ [a]) (l ++ [relink_next count a]) (p :: l2) q);
    [exact I | exact Hmax | exact Hf2 | exact Hfr | exact Hid | exact Hmeta | exact Hp | exact Hn | | | |].
  - split.
    + exists pgq. split; [| exact Hq]. rewrite lookup_insert_ne; [exact Mq |]. by eapply not_fresh.
    + intros x [Hx | ->%list_elem_of_singleton]%elem_of_app.
      * rewrite lookup_insert_ne; [rewrite Hnone; apply elem_of_app; by left |].
        pose proof (pi_chain _ _ _ I) as C. intros E'. pose proof I as I'. rewrite <- app_assoc in I'.
        by apply (chain_distinct s l a _ x I' (or_introl Hx)).
      * change (cp_id (relink_next count a)) with (cp_id a). rewrite lookup_insert_eq. exact Hpga.
    + intros b [= <-]. exists pgp. split; [| exact Hpgp]. rewrite lookup_insert_ne; [exact Mp |].
      eapply (chain_distinct s _ p l2); [exact I | by left].
    + intros i [<- | [_ [-> | ->]%Md]]%lookup_insert_is_Some; [| by left | by right; right].
      right. left. rewrite fmap_app. apply elem_of_app. right. by left.
  - eapply with_page_head; [apply Hfr | by destruct l | symmetry; apply (pi_head _ _ _ I)].
  - eapply with_page_tail; [done | symmetry; apply (pi_tail _ _ _ I)].
  - eapply row_done_recs; [exact Hdone |]. by rewrite !fmap_app.
Qed.

Lemma plan_insert_before_ok s l1 p l2 r :
  plan_inv f0 s (l1 ++ p :: l2) -> row_ok r -> ov_page_count (pn_overlay s) < MAX_PAGES ->
  (forall h, row_done (l1 ++ p :: l2) r (l1 ++ mkChainPage h [r] :: p :: l2)) ->
  planned s (l1 ++ p :: l2) r (pack_fits [r_payload r])
    (plan_insert_before_page (cp_id p) (r_ts r) (r_id r) (r_payload r) s).
Proof.
  intros I Hr Hmax Hdone. set (count := ov_page_count (pn_overlay s)) in *.
  pose proof (pi_chain _ _ _ I) as C. pose proof (ch_count _ _ _ _ C) as Hc. fold count in Hc.
  assert (p ∈ l1 ++ p :: l2) as Hp by (clear; set_solver).
  destruct (plan_read s _ p (pn_file s) (ov_set_count (count + 1) (pn_overlay s)) I Hp)
    as (pg & f1 & E1 & Hf1 & Hpg & _); [done | done |].
  assert (in_u64 count /\ in_u64 (cp_id p)) as [Huc Hup]
    by (split; apply id_in_u64; [lia | by apply (chain_max _ _ _ _ C)]).
  destruct (link_in_u64 s _ _ I) as [_ Hlink].
  unfold plan_insert_before_page.
  st_step by exact (alloc_page_id_ok s _ I Hmax). fold count. st_step by exact E1.
  st_step by (unfold st_lift; rewrite (try_new_holds _ _ Hpg); reflexivity).
  st_step by (unfold st_lift; rewrite (active_prev_holds _ _ Hpg (tail_id l1));
    [reflexivity | by eapply tail_id_not_none | by eapply chain_next]).
  fold (link_of (tail_id l1)).
  pose proof (single_page_planned s _ f1 count (link_of (tail_id l1)) (cp_id p) r I Hf1 Huc Hlink Hup Hr) as Hs.
  set (q := fresh_page f0 count (link_of (tail_id l1)) (cp_id p) r) in *.
  destruct (pack_fits [r_payload r]).
  2:{ cbn [planned]. exists (mkPlanning f1 (ov_set_count (count + 1) (pn_overlay s))).
      split; [| cbn; etrans; [apply I | exact Hf1]]. apply st_bind_err. unfold st_reads. cbn [pn_file]. by rewrite Hs. }
  destruct Hs as (pgq & Es & Hq).
  st_step by (unfold st_reads; cbn [pn_file]; rewrite Es; reflexivity).
  destruct (relinked_ok (fun h => (count, ph_next_page h)) pg _ _ Hpg) as (pgp & Er & Hpgp);
    [done | by eapply holds_links |].
  st_step by (unfold st_lift; rewrite Er; reflexivity).
  destruct (two_images (cp_id p) count pgp pgq) as (Mq & Mp & Md); [by eapply not_fresh |].
  rewrite (write_two f1 (pn_overlay s) count (cp_id p) pgq pgp).
  apply (link_predecessor_ok s f1 l1 p l2 q _ r pgp pgq);
    [exact I | exact Hmax | exact Hf1 | done | apply fresh_page_meta | done | done | exact Mq | exact Hq
    | exact Mp | exact Hpgp | exact Md | apply (Hdone (cp_header q))].
Qed.

End plan_steps.
