(* ===== verification/TsRow.v ===== *)
(** * Planning a row

    The branches of [plan_row_insert] put together: a row is accepted exactly
    when the chain has room for it, and the chain then has the row. *)

From S2P Require Import Prelude Errors Compat FileOps LogFrame WalBackend PageFormat PageBlock.
From S2P Require Import RecordSpec RecordMap PageView PageInsert PageRebuild PageImage PhysLog.
From S2P Require Import Replay TsFile Chain TsChain TsRead TsWrite TsPlan.

Section plan_rows.
Context `{PackagesOk}.
Context (f0 : TimeSeriesFile) (R : file_ready f0).

Lemma filled_meta f f' p : cache_filled f f' -> page_meta f' p -> page_meta f p.
Proof.
  intros C. destruct (filled_fields _ _ C) as (_ & _ & _ & _ & _ & _ & _ & _ & E1 & E2 & E3).
  unfold page_meta. by rewrite E1, E2, E3.
Qed.

(** ** The first page *)

Lemma plan_first_page_ok s r :
  plan_inv f0 s [] -> row_ok r -> ov_page_count (pn_overlay s) < MAX_PAGES ->
  planned f0 s [] r (pack_fits [r_payload r])
    (plan_row_insert (r_ts r, r_id r, r_payload r) s).
Proof.
  intros I Hr Hmax. pose proof (ch_ids _ _ _ _ (pi_chain _ _ _ I)) as Hids.
  pose proof (chain_length _ _ _ _ (pi_chain _ _ _ I)) as Hc.
  destruct (plan_ready f0 R s [] (pn_file s) I) as (Hf & [_ F1 F2 F3] & Hfresh); [done |].
  destruct Hr as (Hts & Hti & Hlen).
  unfold plan_row_insert, find_insert_location.
  st_step by (st_step by reflexivity; rewrite (pi_head _ _ _ I); reflexivity).
  cbv iota. st_step by exact (alloc_page_id_ok f0 s _ I Hmax). st_step by reflexivity.
  set (count := ov_page_count (pn_overlay s)) in *. cbn [pn_file].
  assert (count = 0) as Hc0 by (symmetry; exact Hc).
  assert (in_u64 count) as Huc by (apply id_in_u64; rewrite Hc0; unfold MAX_PAGES; lia).
  destruct (empty_page_image_ok count _ _ _ Huc F1 F2 F3)
    as (pg0 & E0 & H0).
  st_step by (unfold st_lift; rewrite E0; reflexivity).
  set (h := empty_header count (tf_tuple_format_version (pn_file s)) (tf_tuple_schema_hash (pn_file s))
              (tf_tuple_flags (pn_file s))) in *.
  change (pack_fits [r_payload r]) with (insert_fits h (r_payload r)).
  destruct (insert_fits h (r_payload r)) eqn:Hfit.
  - destruct (insert_record_holds pg0 _ _ _ _ (r_payload r) H0 Hts Hti Hfit eq_refl) as (pg & E & Hpg).
    st_step by (unfold st_lift; rewrite (on_buffer_ok _ _ _ _ E); reflexivity).
    set (q := mkChainPage (insert_header h (r_payload r)) [r]).
    assert (page_holds pg (cp_header q) [r]) as Hq by (clear - Hpg; destruct r; exact Hpg).
    assert (page_meta f0 q) as Hm by (apply (filled_meta _ _ _ Hf); split_and!; reflexivity).
    assert (row_done [] r [q]) as Hdone
      by (apply (row_done_new [] [] r (cp_header q)); [split; constructor | done | |]; intros ? ? []%elem_of_nil).
    destruct (plan_linked f0 R s (pn_file s) [] [] [] q {[count := pg]} (Some count) (Some count) r)
      as (s' & ps' & E' & ?); [exact I | exact Hmax | done | by split | done | exact Hm
      | done | done | | done | done | exact Hdone |].
    + split; [exists pg; split; [apply lookup_singleton_eq | exact Hq]
             | intros ? []%elem_of_nil | intros ? [=] |].
      intros i Hi%lookup_singleton_is_Some. by left.
    + exists s', ps'. split; [| done]. rewrite <- insert_union_singleton_l in E'. exact E'.
  - destruct H0 as (ss & R0 & _). cbn [planned].
    exists (mkPlanning (pn_file s) (ov_set_count (count + 1) (pn_overlay s))). split; [| done].
    apply st_bind_err. unfold st_lift.
    by rewrite (on_buffer_err _ _ _ _ (insert_record_full _ _ _ (r_ts r) (r_id r) (r_payload r) R0 Hfit)).
Qed.

Lemma plan_inv_read s s' ps : plan_inv f0 s ps -> only_read s s' -> plan_inv f0 s' ps.
Proof.
  intros I Hr. pose proof Hr as [Eo Hf]. destruct I. split; rewrite ?Eo; try done; [| by etrans].
  eapply chain_ext; [| done | done | done | exact pi_chain]. intros id. by apply only_read_img.
Qed.

(** ** A page rewritten in place *)

(** [p] with other records. *)
Lemma linked_replace prev l1 p p' l2 next :
  cp_id p' = cp_id p -> ph_prev_page (cp_header p') = ph_prev_page (cp_header p) ->
  ph_next_page (cp_header p') = ph_next_page (cp_header p) ->
  linked prev (l1 ++ p :: l2) next -> linked prev (l1 ++ p' :: l2) next.
Proof.
  intros Hid Hp Hn. rewrite !linked_app. cbn [linked first_id]. rewrite Hid, Hp, Hn. done.
Qed.

Lemma page_rewritten s f1 l1 p l2 h' rs' pg' :
  plan_inv f0 s (l1 ++ p :: l2) -> cache_filled (pn_file s) f1 ->
  same_meta (cp_header p) h' -> page_holds pg' h' rs' ->
  chain_ordered (l1 ++ mkChainPage h' rs' :: l2) ->
  plan_inv f0 (mkPlanning f1 (ov_set_images (<[cp_id p := pg']> (ov_page_images (pn_overlay s)))
                               (pn_overlay s))) (l1 ++ mkChainPage h' rs' :: l2).
Proof.
  intros I Hf [M1 M2 M3 M4 M5 M6 M7] Hpg Hord. set (p' := mkChainPage h' rs') in *.
  pose proof (pi_chain _ _ _ I) as C. pose proof (ch_count _ _ _ _ C).
  assert (cp_id p' = cp_id p) as Hid by done.
  assert (cp_id <$> l1 ++ p' :: l2 = cp_id <$> l1 ++ p :: l2) as Hids
    by (rewrite !fmap_app, !fmap_cons; by rewrite Hid).
  assert (p ∈ l1 ++ p :: l2) as Hp by (clear; set_solver).
  pose proof (chain_range _ _ _ _ C p Hp) as Hrange.
  eapply (plan_written f0 s _ (l1 ++ p :: l2) _ {[cp_id p := pg']} (ov_page_count (pn_overlay s)));
    [exact I | exact Hf | | lia | lia | lia | | | | | | exact Hord].
  - unfold overlaid. rewrite <- insert_union_singleton_l, (head_id_ids _ _ Hids), (tail_id_ids _ _ Hids).
    rewrite <- (pi_head _ _ _ I), <- (pi_tail _ _ _ I). done.
  - intros id <-%lookup_singleton_is_Some. exact Hrange.
  - intros x [Hx | [-> | Hx]%elem_of_cons]%elem_of_app.
    + rewrite lookup_singleton_ne; [apply elem_of_app; by left |].
      apply not_eq_sym. eapply chain_distinct; [exact I | by left].
    + rewrite Hid, lookup_singleton_eq. exact Hpg.
    + rewrite lookup_singleton_ne; [apply elem_of_app; right; by right |].
      apply not_eq_sym. eapply chain_distinct; [exact I | by right].
  - eapply linked_replace; [done | | | apply (ch_linked _ _ _ _ C)]; done.
  - rewrite Hids. apply (ch_ids _ _ _ _ C).
  - pose proof (ch_meta _ _ _ _ C) as [F1 F2]%Forall_app. inversion F2 as [| ? ? Hm F3]; subst.
    apply Forall_app. split; [exact F1 |]. constructor; [| exact F3].
    destruct Hm as (E1 & E2 & E3). unfold page_meta, p'. cbn [cp_header]. split_and!; congruence.
Qed.

(** The image taken for mutation and written back. *)
Lemma take_page_ok s ps p :
  plan_inv f0 s ps -> p ∈ ps ->
  exists pg s1, take_page_for_mutation (cp_id p) s = (Ok pg, s1) /\
    cache_filled (pn_file s) (pn_file s1) /\ page_holds pg (cp_header p) (cp_recs p) /\
    forall img, write_page_image (cp_id p) img s1 =
      (Ok tt, mkPlanning (pn_file s1)
                (ov_set_images (<[cp_id p := img]> (ov_page_images (pn_overlay s))) (pn_overlay s))).
Proof.
  intros I Hp. pose proof (pi_chain _ _ _ I) as C.
  destruct (chain_page _ _ _ _ C p Hp) as (pg & Hi & Hpg). exists pg.
  destruct (plan_ready f0 R s ps (pn_file s) I) as (_ & R1 & _); [done |].
  unfold take_page_for_mutation, pn_img in *.
  destruct (ov_page_images (pn_overlay s) !! cp_id p) as [i |] eqn:E.
  - injection Hi as ->. eexists. split.
    { st_step by reflexivity. rewrite E. reflexivity. }
    split_and!; [done | exact Hpg |]. intros img. unfold write_page_image, on_overlay, st_modify.
    cbn. by rewrite insert_delete_eq.
  - destruct (read_page_ok _ _ _ Hi (fr_open _ R1) (chain_max _ _ _ _ C p Hp)) as (a & f' & Er & <- & Hf).
    exists (mkPlanning f' (pn_overlay s)). split_and!; [| exact Hf | exact Hpg | done].
    st_step by reflexivity. rewrite E. by st_step by (unfold on_file; rewrite Er; reflexivity).
Qed.

(** ** Rows on a page of the chain *)

(** The record belongs between the pages [l1] and [l2]. *)
Definition between (l1 l2 : list ChainPage) (r : Rec) : Prop :=
  chain_map l1 !! rec_key r = None /\
  (forall q x, q ∈ l1 -> x ∈ cp_recs q -> r_ts r <= r_ts x) /\
  (forall q x, q ∈ l2 -> x ∈ cp_recs q -> r_ts x <= r_ts r).

Lemma rec_eta r : mkRec (r_ts r) (r_id r) (r_payload r) = r.
Proof. by destruct r. Qed.

Lemma upsert_planned s f1 l1 p l2 r h' pg' :
  plan_inv f0 s (l1 ++ p :: l2) -> cache_filled (pn_file s) f1 -> between l1 l2 r ->
  same_meta (cp_header p) h' -> page_holds pg' h' (spec_upsert r (cp_recs p)) ->
  planned f0 s (l1 ++ p :: l2) r true
    (Ok tt, mkPlanning f1 (ov_set_images (<[cp_id p := pg']> (ov_page_images (pn_overlay s)))
                             (pn_overlay s))).
Proof.
  intros I Hf (B1 & B2 & B3) Hm Hpg.
  pose proof (row_done_upsert l1 p l2 r h' (ch_ordered _ _ _ _ (pi_chain _ _ _ I)) B1 B2 B3) as Hd.
  eexists _, _. split; [reflexivity |]. split; [| split; [exact Hd | cbn; lia]].
  by apply page_rewritten; try done; apply Hd.
Qed.

Lemma plan_update_ok s l1 p l2 r i :
  plan_inv f0 s (l1 ++ p :: l2) -> row_ok r -> between l1 l2 r ->
  spec_find (r_ts r) (r_id r) (cp_recs p) = Some i ->
  planned f0 s (l1 ++ p :: l2) r
    (pack_fits (r_payload <$> spec_update (Z.to_nat i) r (cp_recs p)))
    (plan_update_in_page (cp_id p) i (r_ts r) (r_id r) (r_payload r) s).
Proof.
  intros I (Hts & Hid & Hlen) HB Hf.
  destruct (spec_find_lookup _ _ _ _ Hf) as (x & Hi & Hx & _).
  pose proof (lookup_lt_Some _ _ _ Hx) as Hlt.
  destruct (take_page_ok s _ p I ltac:(clear; set_solver)) as (pg & s1 & Et & Hf1 & Hpg & Hw).
  unfold plan_update_in_page. st_step by exact Et.
  rewrite <- (Z2Nat.id i Hi) at 2. rewrite <- (rec_eta r) at 2.
  destruct (pack_fits _) eqn:Hfit.
  - destruct (update_record_holds _ _ _ _ _ _ _ Hpg Hlt Hts Hid Hfit) as (pg' & last & E & Hpg').
    st_step by (unfold st_lift; rewrite (on_buffer_ok _ _ _ _ E); reflexivity).
    rewrite Hw. eapply upsert_planned; [exact I | exact Hf1 | exact HB | |].
    2:{ unfold spec_upsert. rewrite Hf. rewrite rec_eta in Hpg'. exact Hpg'. }
    by split.
  - destruct (update_record_full _ _ _ _ _ _ _ Hpg Hlt Hlen Hfit) as (pg' & E).
    exists s1. split; [| etrans; [apply I | exact Hf1]].
    apply st_bind_err. unfold st_lift. by rewrite (on_buffer_err _ _ _ _ E).
Qed.

(** ** The split of a full page *)

(** The entries of the page with the new one, sorted. *)
Lemma split_entries pg h rs page_id r :
  page_holds pg h rs -> keys_sorted rs -> row_ok r -> spec_find (r_ts r) (r_id r) rs = None ->
  exists es, page_entries pg page_id = Ok es /\
    let es' := sort_stable record_le
      (es ++ [mkTimeSeriesRecord (r_ts r) (r_id r) (r_payload r) page_id 0]) in
    entry_of <$> es' = spec_insert r rs /\ Forall entry_in_range es' /\ keys_sorted (entry_of <$> es').
Proof.
  intros Hp Hs (Hts & Hid & _) Hf. destruct (page_entries_ok _ _ _ page_id Hp) as (es & E & Hes).
  exists es. split; [exact E |]. cbv zeta.
  assert (Forall entry_in_range es) as HF.
  { pose proof (holds_in_range _ _ _ Hp) as HF. rewrite <- Hes, <- list_fmap_compose, Forall_fmap in HF.
    eapply Forall_impl; [exact HF |]. by intros e []. }
  assert (entry_of <$> sort_stable record_le
    (es ++ [mkTimeSeriesRecord (r_ts r) (r_id r) (r_payload r) page_id 0]) = spec_insert r rs) as Hsort.
  { rewrite <- (sort_stable_fmap entry_of record_le rec_leb) by apply record_leb_entry.
    rewrite fmap_app, Hes. cbn [fmap list_fmap]. unfold entry_of. cbn. rewrite rec_eta.
    by apply sort_rec_snoc. }
  split_and!; [exact Hsort | |].
  - rewrite sort_stable_perm. apply Forall_app. split; [exact HF |]. by rewrite Forall_singleton.
  - rewrite Hsort. apply spec_insert_sorted; [done | by apply spec_find_none].
Qed.

(** The two halves of the page. *)
Lemma split_pages s ps f1 page_id new_id prev next es n :
  plan_inv f0 s ps -> cache_filled (pn_file s) f1 ->
  in_u64 page_id -> in_u64 new_id -> in_u64 prev -> in_u64 next ->
  Forall entry_in_range es -> keys_sorted (entry_of <$> es) ->
  pack_fits (r_payload <$> take n (entry_of <$> es)) = true ->
  pack_fits (r_payload <$> drop n (entry_of <$> es)) = true ->
  exists pu hu pl hl,
    build_entries_page_image page_id prev new_id (drop n es) (tf_tuple_format_version f1)
      (tf_tuple_schema_hash f1) (tf_tuple_flags f1) = Ok pu /\
    build_entries_page_image new_id page_id next (take n es) (tf_tuple_format_version f1)
      (tf_tuple_schema_hash f1) (tf_tuple_flags f1) = Ok pl /\
    page_holds pu hu (drop n (entry_of <$> es)) /\ page_holds pl hl (take n (entry_of <$> es)) /\
    (ph_page_id hu, ph_prev_page hu, ph_next_page hu) = (page_id, prev, new_id) /\
    (ph_page_id hl, ph_prev_page hl, ph_next_page hl) = (new_id, page_id, next) /\
    (forall rs, page_meta f0 (mkChainPage hu rs)) /\ (forall rs, page_meta f0 (mkChainPage hl rs)).
Proof.
  intros I Hf H1 H2 H3 H4 HF Hs Hl Hu.
  destruct (plan_ready f0 R s ps f1 I Hf) as (Hf0 & [_ F1 F2 F3] & _).
  rewrite <- (take_drop n (entry_of <$> es)) in Hs. apply StronglySorted_app_iff in Hs as (Sl & Su & _).
  rewrite <- fmap_take, <- list_fmap_compose in Hl. rewrite <- fmap_drop, <- list_fmap_compose in Hu.
  rewrite <- fmap_take in Sl |- *. rewrite <- fmap_drop in Su |- *.
  destruct (build_entries_page_image_ok page_id prev new_id (drop n es) _ _ _ H1 H3 H2 F1 F2 F3)
    as (pu & hu & Eu & Hpu & Mu & _); [by apply Forall_drop | exact Su | exact Hu |].
  destruct (build_entries_page_image_ok new_id page_id next (take n es) _ _ _ H2 H1 H4 F1 F2 F3)
    as (pl & hl & El & Hpl & Ml & _); [by apply Forall_take | exact Sl | exact Hl |].
  exists pu, hu, pl, hl. destruct Mu, Ml. cbn in *.
  split_and!; [exact Eu | exact El | exact Hpu | exact Hpl | congruence | congruence | |];
    intros rs; apply (filled_meta _ _ _ Hf0); by split_and!.
Qed.

(** The writes of the two halves. *)
Lemma split_linked s f1 l1 p l2 r pu hu up pl hl low :
  let count := ov_page_count (pn_overlay s) in
  plan_inv f0 s (l1 ++ p :: l2) -> count < MAX_PAGES -> cache_filled (pn_file s) f1 ->
  page_holds pu hu up -> page_holds pl hl low ->
  (ph_page_id hu, ph_prev_page hu, ph_next_page hu) = (cp_id p, ph_prev_page (cp_header p), count) ->
  (ph_page_id hl, ph_prev_page hl, ph_next_page hl) = (count, cp_id p, link_of (head_id l2)) ->
  page_meta f0 (mkChainPage hu up) -> page_meta f0 (mkChainPage hl low) ->
  row_done (l1 ++ p :: l2) r (l1 ++ mkChainPage hu up :: mkChainPage hl low :: l2) ->
  planned f0 s (l1 ++ p :: l2) r true
    ((write_page_image (cp_id p) pu ;; write_page_image count pl ;;
      link_successor count (head_id l2)) (mkPlanning f1 (ov_set_count (count + 1) (pn_overlay s)))).
Proof.
  intros count I Hmax Hf Hu Hl [= U1 U2 U3] [= L1 L2 L3] Mu Ml Hdone.
  assert (p ∈ l1 ++ p :: l2) as Hp by (clear; set_solver).
  destruct (two_images count (cp_id p) pl pu) as (Mp & Mq & Md);
    [apply not_eq_sym; by eapply not_fresh |].
  rewrite (write_two f1 (pn_overlay s) (cp_id p) count pu pl).
  set (M := <[count := pl]> {[cp_id p := pu]}) in *.
  set (qu := mkChainPage hu up) in *. set (ql := mkChainPage hl low) in *.
  destruct (front_writes f0 s l1 p qu ql l2 M pu pl I U1 Mq Hl Mp Hu) as [Hw Hnone].
  { intros i Hi. destruct (Md i Hi); [by right | by left]. }
  pose proof (front_split f0 _ _ l1 p l2 qu count (pi_chain _ _ _ I) U1 U2 U3 Mu) as Hfront.
  assert (l1 ++ p :: l2 = (l1 ++ [p]) ++ l2) as Eps by (by rewrite <- app_assoc).
  rewrite Eps in I, Hdone |- *.
  apply (link_successor_ok f0 R s f1 (l1 ++ [p]) (l1 ++ [qu]) l2 ql M r);
    [exact I | by destruct l1 | exact Hmax | exact Hf | exact Hfront | exact L1 | exact Ml | | exact L3
    | exact Hw | exact Hnone |].
  - unfold tail_id. rewrite last_snoc. exact L2.
  - rewrite <- (app_assoc l1 [qu]). exact Hdone.
Qed.

Lemma plan_split_ok s l1 p l2 r :
  plan_inv f0 s (l1 ++ p :: l2) -> row_ok r -> between l1 l2 r ->
  ov_page_count (pn_overlay s) < MAX_PAGES -> spec_find (r_ts r) (r_id r) (cp_recs p) = None ->
  planned f0 s (l1 ++ p :: l2) r (splits (spec_insert r (cp_recs p)))
    (plan_split_insert_full_page (cp_id p) (r_ts r) (r_id r) (r_payload r) s).
Proof.
  intros I Hr (B1 & B2 & B3) Hmax Hf. set (count := ov_page_count (pn_overlay s)) in *.
  pose proof (pi_chain _ _ _ I) as C. pose proof (ch_count _ _ _ _ C) as Hc. fold count in Hc.
  assert (p ∈ l1 ++ p :: l2) as Hp by (clear; set_solver).
  destruct (plan_read f0 R s _ p (pn_file s) (pn_overlay s) I Hp) as (pg & f1 & E1 & Hf1 & Hpg & _);
    [done | done |].
  destruct s as [fs o]. cbn [pn_file pn_overlay] in *.
  pose proof (ch_ordered _ _ _ _ C) as Hord.
  destruct (proj1 (ordered_mid _ _ _) Hord) as (_ & Hsort & _).
  destruct (split_entries _ _ _ (cp_id p) r Hpg Hsort Hr Hf) as (es & Ee & Hes & HF & Hks).
  unfold plan_split_insert_full_page. st_step by exact E1.
  st_step by (unfold st_lift; rewrite (try_new_holds _ _ Hpg); reflexivity).
  st_step by (unfold st_lift; rewrite Ee; reflexivity). cbv zeta.
  set (es' := sort_stable record_le _) in *.
  pose proof (find_split_index_ok es' HF) as Hsplit. rewrite Hes in Hsplit.
  destruct (splits (spec_insert r (cp_recs p))).
  2:{ exists (mkPlanning f1 o). split; [| etrans; [apply I | exact Hf1]].
      apply st_bind_err. unfold st_lift. by rewrite Hsplit. }
  destruct Hsplit as (n & En & _ & Hfl & Hfu). rewrite <- Hes in Hfl, Hfu.
  assert (in_u64 count /\ in_u64 (cp_id p)) as [Huc Hup]
    by (split; apply id_in_u64; [lia | by apply (chain_max _ _ _ _ C)]).
  pose proof (not_fresh f0 _ _ p I Hp) as Hnf. cbn [pn_overlay] in Hnf. fold count in Hnf.
  assert (l1 ++ p :: l2 = (l1 ++ [p]) ++ l2) as Eps by (by rewrite <- app_assoc).
  assert (in_u64 (link_of (head_id l2))) as Hlink
    by (rewrite Eps in I; by destruct (link_in_u64 f0 _ _ _ I)).
  destruct (holds_links _ _ _ Hpg) as [Hprev _].
  destruct (split_pages _ _ f1 (cp_id p) count (ph_prev_page (cp_header p)) (link_of (head_id l2))
    es' n I Hf1 Hup Huc Hprev Hlink HF Hks Hfl Hfu)
    as (pu & hu & pl & hl & Eu & El & Hpu & Hpl & [= U1 U2 U3] & [= L1 L2 L3] & Mu & Ml).
  pose proof (plan_inv_read _ (mkPlanning f1 o) _ I (conj eq_refl Hf1)) as I1.
  st_step by (unfold st_lift; rewrite En; reflexivity).
  st_step by (unfold st_lift; rewrite (header_holds _ _ Hpg); reflexivity).
  st_step by (unfold st_lift; rewrite (active_next_holds _ _ Hpg (head_id l2));
    [reflexivity | by eapply head_id_not_none; [apply I |] | by eapply chain_next]).
  fold (link_of (head_id l2)). st_step by exact (alloc_page_id_ok f0 _ _ I1 Hmax).
  cbn [pn_file pn_overlay]. fold count.
  st_step by (unfold st_reads; cbn [pn_file]; rewrite Eu; reflexivity).
  st_step by (unfold st_reads; cbn [pn_file]; rewrite El; reflexivity).
  apply (split_linked (mkPlanning fs o) f1 l1 p l2 r pu hu (drop n (entry_of <$> es')) pl hl
    (take n (entry_of <$> es')) I Hmax Hf1 Hpu Hpl);
    [by rewrite U1, U2, U3 | by rewrite L1, L2, L3 | apply Mu | apply Ml |].
  apply row_done_split; [exact Hord | exact B1 | exact B2 | exact B3 |]. unfold spec_upsert. by rewrite Hf, Hes, take_drop.
Qed.

(** ** Rows on a page, full or not *)

Lemma planned_from s s1 ps r ok res :
  ov_page_count (pn_overlay s1) = ov_page_count (pn_overlay s) ->
  planned f0 s1 ps r ok res -> planned f0 s ps r ok res.
Proof. intros E. unfold planned. by rewrite E. Qed.

(** The page written back unchanged. *)
Lemma page_restored s f1 l1 p l2 pg :
  plan_inv f0 s (l1 ++ p :: l2) -> cache_filled (pn_file s) f1 ->
  page_holds pg (cp_header p) (cp_recs p) ->
  plan_inv f0 (mkPlanning f1 (ov_set_images (<[cp_id p := pg]> (ov_page_images (pn_overlay s)))
                               (pn_overlay s))) (l1 ++ p :: l2).
Proof.
  intros I Hf Hpg. pose proof (ch_ordered _ _ _ _ (pi_chain _ _ _ I)) as Ho.
  destruct p as [h rs]. by apply (page_rewritten s f1 l1 (mkChainPage h rs) l2 h rs pg).
Qed.

Lemma plan_insert_in_page_ok s l1 p l2 r (head_latest : bool) :
  plan_inv f0 s (l1 ++ p :: l2) -> row_ok r -> between l1 l2 r ->
  ov_page_count (pn_overlay s) < MAX_PAGES ->
  (head_latest -> forall h, row_done (l1 ++ p :: l2) r (l1 ++ mkChainPage h [r] :: p :: l2)) ->
  planned f0 s (l1 ++ p :: l2) r (page_accepts head_latest p r)
    (plan_insert_in_page head_latest (cp_id p) (r_ts r) (r_id r) (r_payload r) s).
Proof.
  intros I Hr HB Hmax Hhead. assert (p ∈ l1 ++ p :: l2) as Hp by (clear; set_solver).
  destruct (plan_read f0 R s _ p (pn_file s) (pn_overlay s) I Hp) as (pg & f1 & E1 & Hf1 & Hpg & _);
    [done | done |].
  destruct s as [fs o]. cbn [pn_file pn_overlay] in *.
  pose proof (plan_inv_read _ (mkPlanning f1 o) _ I (conj eq_refl Hf1)) as I1.
  unfold plan_insert_in_page. st_step by exact E1.
  st_step by (unfold st_lift; rewrite (try_new_holds _ _ Hpg); reflexivity).
  st_step by reflexivity. cbn [pn_file].
  assert (ph_tuple_schema_hash (cp_header p) = tf_tuple_schema_hash f1) as Hhash.
  { pose proof (ch_meta _ _ _ _ (pi_chain _ _ _ I)) as HF. rewrite Forall_forall in HF.
    destruct (HF p Hp) as (_ & -> & _). by destruct (filled_fields _ _ (pi_filled _ _ _ I1))
      as (_ & _ & _ & _ & _ & _ & _ & _ & _ & <- & _). }
  st_step by (rewrite (header_holds _ _ Hpg); cbn [mbind res_bind]; rewrite Hhash, Z.eqb_refl;
              by destruct (negb _)).
  st_step by (unfold st_lift; rewrite (find_slot_index_holds _ _ _ Hpg); reflexivity).
  unfold page_accepts. destruct (spec_find (r_ts r) (r_id r) (cp_recs p)) as [i |] eqn:Hfind.
  { by apply (planned_from _ (mkPlanning f1 o)), plan_update_ok. }
  destruct (take_page_ok (mkPlanning f1 o) _ p I1 Hp) as (pg1 & s1 & Et & Hf2 & Hpg1 & Hw).
  st_step by exact Et. destruct Hr as (Hts & Hid & Hlen) eqn:HR.
  destruct (insert_fits (cp_header p) (r_payload r)) eqn:Hfit; cbn [orb].
  - destruct (insert_record_holds _ _ _ _ _ _ Hpg1 Hts Hid Hfit Hfind) as (pg' & E & Hpg').
    rewrite E. rewrite Hw. apply (planned_from _ (mkPlanning f1 o)); [done |].
    eapply upsert_planned; [exact I1 | exact Hf2 | exact HB | |].
    2:{ unfold spec_upsert. rewrite Hfind. rewrite rec_eta in Hpg'. exact Hpg'. }
    by split.
  - pose proof Hpg1 as (ss & R1 & _). rewrite (insert_record_full _ _ _ _ _ _ R1 Hfit).
    st_step by exact (Hw pg1). pose proof (page_restored _ _ _ _ _ _ I1 Hf2 Hpg1) as I2.
    eapply planned_from; [| destruct head_latest].
    2:{ apply (plan_insert_before_ok f0 R); [exact I2 | exact Hr | exact Hmax | by apply Hhead]. }
    2:{ apply plan_split_ok; [exact I2 | exact Hr | exact HB | exact Hmax | exact Hfind]. }
    done.
Qed.

(** ** Rows *)

Lemma plan_next s l1 p l2 pg :
  plan_inv f0 s (l1 ++ p :: l2) -> page_holds pg (cp_header p) (cp_recs p) ->
  active_next_page pg = Ok (head_id l2).
Proof.
  intros I Hpg. pose proof (pi_chain _ _ _ I) as C. apply (active_next_holds _ _ Hpg).
  - apply (head_id_not_none _ _ _ _ (l1 ++ [p]) l2 C). by rewrite <- app_assoc.
  - by destruct (chain_next _ _ _ _ C l1 p l2 eq_refl).
Qed.

Lemma locate_loop_ok ts l2 : forall s l1 p last is_head fuel,
  plan_inv f0 s (l1 ++ p :: l2) -> (length l2 < fuel)%nat ->
  exists s', locate_loop fuel (cp_id p) last is_head ts s = (Ok (locate ts is_head last (p :: l2)), s') /\
    only_read s s'.
Proof.
  induction l2 as [| b l2 IH]; intros s l1 p last is_head fuel I Hfuel;
    (destruct fuel as [| fuel]; [lia |]);
    (destruct (plan_read f0 R s _ p (pn_file s) (pn_overlay s) I ltac:(clear; set_solver))
      as (pg & f1 & E1 & Hf1 & Hpg & _); [done | done |]);
    destruct s as [fs o]; cbn [pn_file pn_overlay] in *;
    (assert (only_read (mkPlanning fs o) (mkPlanning f1 o)) as Hread by (by split));
    pose proof (plan_inv_read _ _ _ I Hread) as I1;
    cbn [locate_loop locate]; cbv zeta;
    st_step by exact E1;
    st_step by (unfold st_lift; rewrite (try_new_holds _ _ Hpg); reflexivity);
    st_step by (unfold st_lift; rewrite (bounds_holds _ _ Hpg); reflexivity).
  - pose proof (plan_next _ _ _ _ _ I Hpg) as En.
    destruct (ts_bounds (cp_recs p)) as [[mn mx] |];
      [destruct (mx <? ts); [by eexists | destruct (mn <=? ts); [by eexists |]] |];
      (st_step by (unfold st_lift; rewrite En; reflexivity)); by eexists.
  - pose proof (plan_next _ _ _ _ _ I Hpg) as En.
    assert (forall last', exists s',
      (next ← st_lift (active_next_page pg);
       match next with
       | Some next => locate_loop fuel next last' false ts
       | None => mret (After (default (cp_id p) last'))
       end) (mkPlanning f1 o) = (Ok (locate ts false last' (b :: l2)), s') /\
      only_read (mkPlanning fs o) s') as Hnext.
    { intros last'. destruct (IH (mkPlanning f1 o) (l1 ++ [p]) b last' false fuel) as (s' & E & Hs');
        [by rewrite <- app_assoc | cbn in Hfuel; lia |].
      exists s'. split; [| by etrans]. st_step by (unfold st_lift; rewrite En; reflexivity). exact E. }
    destruct (ts_bounds (cp_recs p)) as [[mn mx] |]; [| apply Hnext].
    destruct (mx <? ts); [by eexists |]. destruct (mn <=? ts); [by eexists | apply Hnext].
Qed.

Lemma find_insert_location_ok s ps ts :
  plan_inv f0 s ps ->
  exists s', find_insert_location ts s = (Ok (locate ts true None ps), s') /\ only_read s s'.
Proof.
  intros I. unfold find_insert_location.
  pose proof (chain_length _ _ _ _ (pi_chain _ _ _ I)) as Hl.
  destruct ps as [| p ps].
  - exists s. split; [| done]. st_step by reflexivity. by rewrite (pi_head _ _ _ I).
  - destruct (locate_loop_ok ts ps s [] p None true (chain_fuel (ov_page_count (pn_overlay s))) I)
      as (s' & E & Hs'); [unfold chain_fuel; unfold zlen in Hl; cbn in Hl; lia |].
    exists s'. split; [| exact Hs']. st_step by reflexivity. rewrite (pi_head _ _ _ I). exact E.
Qed.

Lemma existsb_unique (g : ChainPage -> bool) ps p :
  NoDup (cp_id <$> ps) -> p ∈ ps -> existsb (fun q => (cp_id q =? cp_id p) && g q) ps = g p.
Proof.
  intros Hnd Hp. apply eq_iff_eq_true. rewrite existsb_exists. split.
  - intros (q & Hq%list_elem_of_In & [E%Z.eqb_eq Hg]%andb_prop).
    apply list_elem_of_lookup in Hq as [i Hi]. apply list_elem_of_lookup in Hp as [j Hj].
    assert (i = j); [| by simplify_eq].
    eapply NoDup_lookup; [exact Hnd | by rewrite list_lookup_fmap, Hi |].
    rewrite list_lookup_fmap, Hj. cbn. by rewrite E.
  - intros Hg. exists p. split; [by apply list_elem_of_In | by rewrite Z.eqb_refl, Hg].
Qed.

Lemma newer_le ts ps q x : all_newer ts ps -> q ∈ ps -> x ∈ cp_recs q -> ts <= r_ts x.
Proof.
  intros HF Hq Hx. unfold all_newer in HF. rewrite Forall_forall in HF. specialize (HF q Hq).
  rewrite Forall_forall in HF. specialize (HF x Hx). lia.
Qed.

Lemma older_le ts ps q x : all_older ts ps -> q ∈ ps -> x ∈ cp_recs q -> r_ts x <= ts.
Proof.
  intros HF Hq Hx. unfold all_older in HF. rewrite Forall_forall in HF. specialize (HF q Hq).
  rewrite Forall_forall in HF. specialize (HF x Hx). lia.
Qed.

(** A row is planned exactly when the chain accepts it. *)
Lemma plan_row_ok s ps r :
  plan_inv f0 s ps -> row_ok r -> ov_page_count (pn_overlay s) < MAX_PAGES ->
  planned f0 s ps r (accepts ps r) (plan_row_insert (r_ts r, r_id r, r_payload r) s).
Proof.
  intros I Hr Hmax. destruct (decide (ps = [])) as [-> | Hne]; [by apply plan_first_page_ok |].
  pose proof (pi_chain _ _ _ I) as C. pose proof (ch_ordered _ _ _ _ C) as Hord.
  destruct (find_insert_location_ok s ps (r_ts r) I) as (s1 & E & Hs1).
  pose proof (plan_inv_read _ _ _ I Hs1) as I1.
  assert (ov_page_count (pn_overlay s1) = ov_page_count (pn_overlay s)) as Ec by (by destruct Hs1 as [-> _]).
  rewrite <- Ec in Hmax.
  destruct (locate_spec (r_ts r) ps true None [] Hne Hord) as (l1 & p & l2 & Eps & Hloc); [done | constructor | constructor |].
  cbn [app] in Eps. rewrite Eps in *.
  assert (p ∈ l1 ++ p :: l2) as Hp by (clear; set_solver).
  pose proof (chain_nodup _ _ _ _ C) as Hnd.
  unfold plan_row_insert, accepts. st_step by exact E.
  apply (planned_from _ s1); [exact Ec |].
  destruct (locate (r_ts r) true None (l1 ++ p :: l2)) as [id | id | id | id |]; cbn [located] in Hloc.
  - destruct Hloc as (-> & Hnew & (a & Ha & Hle) & _). rewrite (existsb_unique _ _ _ Hnd Hp).
    apply plan_insert_in_page_ok; [exact I1 | exact Hr | | exact Hmax | done].
    split_and!; [by apply chain_map_newer | intros q x; by apply newer_le |].
    intros q x Hq Hx. apply ordered_mid in Hord as (_ & _ & _ & _ & Hge & _).
    specialize (Hge q Hq a x Ha Hx). lia.
  - destruct Hloc as (-> & -> & _ & Hold). rewrite (existsb_unique _ _ _ Hnd Hp).
    apply plan_insert_in_page_ok; [exact I1 | exact Hr | | exact Hmax |].
    + split_and!; [done | intros q x []%elem_of_nil |].
      intros q x Hq Hx. eapply older_le; [exact Hold | by right | exact Hx].
    + intros _ h. apply (row_done_new [] (p :: l2)); [exact Hord | done | intros ? ? []%elem_of_nil |].
      intros q x. by apply older_le.
  - destruct Hloc as (-> & Hnew & Hold). apply plan_insert_before_ok; [exact R | exact I1 | exact Hr | exact Hmax |].
    intros h. apply (row_done_new l1 (p :: l2)); [exact Hord | by apply chain_map_newer | |].
    + intros q x. by apply newer_le.
    + intros q x. by apply older_le.
  - destruct Hloc as (-> & Hnew & Hemp). apply plan_insert_after_ok; [exact R | exact I1 | exact Hr | exact Hmax |].
    intros h. assert (l1 ++ p :: l2 = (l1 ++ [p]) ++ l2) as Ea by (by rewrite <- app_assoc).
    rewrite Ea in Hord |- *.
    apply row_done_new; [exact Hord | by apply chain_map_newer | intros q x; by apply newer_le |].
    intros q x Hq Hx. rewrite Forall_forall in Hemp. rewrite (Hemp q Hq) in Hx. by apply elem_of_nil in Hx.
  - done.
Qed.

End plan_rows.
