(* ===== verification/TsPersist.v ===== *)
(** * Publishing a plan

    A plan is diffed against the published pages, logged, stamped with the
    LSN of its log entry, and then put into the page cache as dirty pages.
    The published file has the chain of the plan. *)

From S2P Require Import Prelude Errors Compat FileOps LogFrame WalFrames WalBackend WalDurability.
From S2P Require Import PageFormat PageBlock RecordSpec RecordMap PageView PageInsert PageRebuild.
From S2P Require Import PageImage PhysLog Replay TsFile Chain TsChain TsRead TsWrite TsPlan TsRow.

(** ** The writes of a plan *)

Definition write_pair (w : PlannedPageWrite) : Z * list byte := (pw_page_id w, pw_image w).

Definition writes_map (ws : list PlannedPageWrite) : gmap Z (list byte) :=
  list_to_map (write_pair <$> ws).

Lemma plan_writes s :
  NoDup (pw_page_id <$> mp_page_writes (into_plan s)) /\
  writes_map (mp_page_writes (into_plan s)) = ov_page_images (pn_overlay s).
Proof.
  unfold into_plan, writes_map. cbn [mp_page_writes].
  set (l := sort_stable _ (map_to_list _)).
  assert (l ≡ₚ map_to_list (ov_page_images (pn_overlay s))) as Hl by apply sort_stable_perm.
  rewrite <- !list_fmap_compose.
  assert (write_pair ∘ (fun i : Z * list byte => mkPlannedPageWrite i.1 i.2) <$> l = l) as ->.
  { rewrite <- (list_fmap_id l) at 2. apply list_fmap_ext. by intros ? [] _. }
  change (pw_page_id ∘ (fun i : Z * list byte => mkPlannedPageWrite i.1 i.2)) with (fst : Z * list byte -> Z).
  assert (NoDup l.*1) as Hnd by (rewrite Hl; apply NoDup_fst_map_to_list).
  split; [exact Hnd |]. rewrite (list_to_map_proper _ _ Hnd Hl). apply list_to_map_to_list.
Qed.

(** [f'] is [f] with the images [M] in the cache, as dirty pages. *)
Record published (f : TimeSeriesFile) (M : gmap Z (list byte)) (f' : TimeSeriesFile) : Prop :=
  mk_published {
  pb_same : f' = set_next_ptr (tf_next_ptr f') (set_page_cache (tf_page_cache f')
                   (set_dirty_pages (dom M ∪ tf_dirty_pages f) f));
  pb_ptr : tf_next_ptr f <= tf_next_ptr f';
  pb_cache : forall id, match M !! id with
               | Some img => exists a, tf_page_cache f' !! id = Some a /\ arc_data a = img /\
                               tf_next_ptr f <= arc_ptr a < tf_next_ptr f'
               | None => tf_page_cache f' !! id = tf_page_cache f !! id
               end;
}.

Lemma apply_writes_ok ws : forall f,
  NoDup (pw_page_id <$> ws) ->
  exists f', st_iter (fun w => apply_page_write (pw_page_id w) (pw_image w)) ws f = (Ok tt, f') /\
    published f (writes_map ws) f'.
Proof.
  induction ws as [| w ws IH]; intros f Hnd.
  { exists f. split; [done |]. destruct f. split; cbn; [| lia | done].
    rewrite dom_empty_L, (left_id_L ∅ (∪)). done. }
  rewrite fmap_cons in Hnd. apply NoDup_cons in Hnd as [Hn Hnd].
  set (a := mkArc (tf_next_ptr f) (pw_image w)).
  set (f1 := set_dirty_pages ({[pw_page_id w]} ∪ tf_dirty_pages f)
               (set_page_cache (<[pw_page_id w := a]> (tf_page_cache f))
                  (set_next_ptr (tf_next_ptr f + 1) f))).
  destruct (IH f1 Hnd) as (f' & E & [Hs Hp Hc]). exists f'. split.
  { cbn [st_iter]. st_step by reflexivity. exact E. }
  change (writes_map (w :: ws)) with (<[pw_page_id w := pw_image w]> (writes_map ws)).
  cbn [f1 set_dirty_pages set_page_cache set_next_ptr tf_next_ptr] in Hp.
  split; [| lia |].
  - assert (dom (<[pw_page_id w := pw_image w]> (writes_map ws)) ∪ tf_dirty_pages f =
            dom (writes_map ws) ∪ ({[pw_page_id w]} ∪ tf_dirty_pages f)) as ->
      by (rewrite dom_insert_L, !(assoc_L (∪)); by rewrite (comm_L (∪) (dom _))).
    rewrite Hs at 1. by destruct f.
  - intros id. destruct (decide (id = pw_page_id w)) as [-> | Hne].
    + rewrite lookup_insert_eq. specialize (Hc (pw_page_id w)).
      assert (writes_map ws !! pw_page_id w = None) as Ew.
      { apply not_elem_of_list_to_map. rewrite <- list_fmap_compose. exact Hn. }
      rewrite Ew in Hc. exists a. rewrite Hc. cbn. rewrite lookup_insert_eq. split_and!; [done | done | lia | lia].
    + rewrite lookup_insert_ne by done. specialize (Hc id).
      destruct (writes_map ws !! id) as [img |].
      * destruct Hc as (b & Hb & Hd & ?). exists b. split_and!; [done | done | cbn in *; lia | lia].
      * rewrite Hc. cbn. by rewrite lookup_insert_ne.
Qed.

Section persist.
Context `{PackagesOk} `{MsgpackOk PLBatch}.

Lemma plan_image_page f0 s ps id img :
  plan_inv f0 s ps -> ov_page_images (pn_overlay s) !! id = Some img ->
  exists p, p ∈ ps /\ cp_id p = id /\ page_holds img (cp_header p) (cp_recs p).
Proof.
  intros I Hi. pose proof (pi_chain _ _ _ I) as C.
  assert (id ∈ cp_id <$> ps) as Hin.
  { rewrite (ch_ids _ _ _ _ C). apply elem_of_seqZ. assert (is_Some (ov_page_images (pn_overlay s) !! id)) as Hs by (by rewrite Hi).
    pose proof (pi_ids _ _ _ I id Hs). lia. }
  apply list_elem_of_fmap in Hin as (p & -> & Hp). exists p. split_and!; [done | done |].
  destruct (chain_page _ _ _ _ C p Hp) as (pg & E & Hpg). unfold pn_img in E. rewrite Hi in E.
  by injection E as ->.
Qed.

(** ** The log entry *)

Definition holds_page (w : PlannedPageWrite) : Prop :=
  0 <= pw_page_id w /\ exists h rs, page_holds (pw_image w) h rs.

(** The log operation of a page write: the initialisation of a new page, or
    the difference to the published image. *)
Definition op_spec (f : TimeSeriesFile) (w : PlannedPageWrite) (op : option PLOp) : Prop :=
  if tf_page_count f <=? pw_page_id w
  then exists init, page_init_delta (pw_page_id w) (pw_image w) = Ok init /\ op = Some init
  else exists old, file_img f (pw_page_id w) = Some old /\
         page_record_delta (pw_page_id w) old (pw_image w) = Ok op.

Lemma build_op_ok f0 ps f1 w :
  file_chain f0 ps -> cache_filled f0 f1 -> holds_page w ->
  exists op f2, build_pl_op (tf_page_count f0) w f1 = (Ok op, f2) /\ cache_filled f0 f2 /\
    op_spec f0 w op.
Proof.
  intros F Hf (Hid & h & rs & Hp). unfold build_pl_op, op_spec.
  rewrite (hv_len _ _ (page_holds_header _ _ _ Hp)), Z.eqb_refl. cbn [negb].
  destruct (Z.leb_spec (tf_page_count f0) (pw_page_id w)) as [Hle | Hlt].
  - eexists _, f1. split; [| split; [done |]].
    + by st_step by (unfold st_lift; rewrite (page_init_delta_holds _ _ _ _ Hp); reflexivity).
    + eexists. split; [| reflexivity]. exact (page_init_delta_holds _ _ _ _ Hp).
  - pose proof (fc_chain _ _ F) as C.
    assert (pw_page_id w ∈ cp_id <$> ps) as Hin
      by (rewrite (ch_ids _ _ _ _ C); apply elem_of_seqZ; lia).
    apply list_elem_of_fmap in Hin as (p & Ep & Hin). rewrite Ep.
    destruct (chain_page _ _ _ _ C p Hin) as (pg & Hi0 & Hpg). pose proof Hi0 as Hi.
    rewrite <- (filled_img _ _ Hf) in Hi.
    destruct (filled_fields _ _ Hf) as (_ & _ & Eo & _).
    destruct (read_page_ok f1 (cp_id p) pg Hi ltac:(by rewrite Eo; apply F) (chain_max _ _ _ _ C p Hin))
      as (a & f2 & Er & Ea & Hf2).
    assert (exists op, page_record_delta (cp_id p) (arc_data a) (pw_image w) = Ok op) as [op Eop].
    { rewrite Ea, (page_record_delta_holds _ _ _ _ _ _ _ Hpg Hp).
      by destruct (delta_links _ _), (spec_diff _ _) as [[] []]; eexists. }
    exists op, f2. split_and!; [| by etrans | exists pg; split; [exact Hi0 | by rewrite <- Ea]].
    st_step by exact Er. unfold st_lift. by rewrite Eop.
Qed.

Lemma build_ops_ok f0 ps ws : forall f1,
  file_chain f0 ps -> cache_filled f0 f1 -> Forall holds_page ws ->
  exists ops f2, st_map (build_pl_op (tf_page_count f0)) ws f1 = (Ok ops, f2) /\ cache_filled f0 f2 /\
    Forall2 (op_spec f0) ws ops.
Proof.
  induction ws as [| w ws IH]; intros f1 F Hf HF; [by exists [], f1 |].
  inversion HF; subst. destruct (build_op_ok f0 ps f1 w) as (op & f2 & E & Hf2 & Hop); try done.
  destruct (IH f2) as (ops & f3 & E' & Hf3 & Hops); try done.
  exists (op :: ops), f3. split_and!; [| done | by constructor].
  cbn [st_map]. st_step by exact E. by st_step by exact E'.
Qed.

Lemma plan_holds_pages f0 s ps : plan_inv f0 s ps -> Forall holds_page (mp_page_writes (into_plan s)).
Proof.
  intros I. destruct (plan_writes s) as [Hnd Hm]. apply Forall_forall. intros w Hw.
  assert (ov_page_images (pn_overlay s) !! pw_page_id w = Some (pw_image w)) as Hi.
  { rewrite <- Hm. apply elem_of_list_to_map_1; [by rewrite <- list_fmap_compose |].
    apply list_elem_of_fmap. by exists w. }
  destruct (plan_image_page _ _ _ _ _ I Hi) as (p & Hp & Ep & Hpg). split; [| by eexists _, _].
  rewrite <- Ep. by apply (chain_range _ _ _ _ (pi_chain _ _ _ I) p Hp).
Qed.

(** The entry of a plan with these operations. *)
Definition entry_of_ops (identity : option TimeSeriesFileIdentity) (ops : list (option PLOp))
    : option PLBatch :=
  identity ← identity;
  match omap id ops with
  | [] => None
  | ops => Some (mkPLBatch [mkPLEntry (pl_file_id identity) ops])
  end.

Lemma build_batch_ok f0 ps0 s ps :
  file_chain f0 ps0 -> plan_inv f0 s ps ->
  exists b f2, build_pl_batch (into_plan s) (pn_file s) = (Ok b, f2) /\ cache_filled f0 f2 /\
    exists ops, Forall2 (op_spec f0) (mp_page_writes (into_plan s)) ops /\
      b = entry_of_ops (tf_identity f0) ops.
Proof.
  intros F I. pose proof (pi_filled _ _ _ I) as Hf.
  destruct (filled_fields _ _ Hf) as (Ei & _ & _ & _ & _ & Ec & _).
  destruct (build_ops_ok f0 ps0 _ _ F Hf (plan_holds_pages _ _ _ I)) as (ops & f2 & E & Hf2 & Hops).
  unfold build_pl_batch. unfold mbind at 1, st_bind at 1, st_get. rewrite Ei, Ec.
  destruct (tf_identity f0) as [identity |].
  - exists (entry_of_ops (Some identity) ops), f2. split_and!; [| done | by exists ops].
    st_step by exact E. cbn [into_plan mp_create_file mp_delete_file app]. rewrite app_nil_r.
    unfold entry_of_ops. cbn [mbind option_bind]. by destruct (omap id ops).
  - exists None, (pn_file s). split_and!; [done | done |]. by exists ops.
Qed.

(** ** The stamped images *)

Definition stamped_header (lsn : option Z) (h : PageHeader) : PageHeader :=
  match lsn with Some l => set_lsn l h | None => h end.

Definition stamp_lsn (lsn : option Z) : ST ErrorCode (list byte) unit :=
  match lsn with
  | Some l => stamp_page_image_lsn l ;; finalize_page_image_checksum
  | None => finalize_page_image_checksum
  end.

(** The image that is published for a planned one. *)
Definition sealed_as (lsn : option Z) (img img' : list byte) : Prop :=
  validate_layout img' = Ok tt /\
  forall h rs, page_holds img h rs -> page_holds img' (stamped_header lsn h) rs.

Lemma stamp_ok lsn img h rs :
  page_holds img h rs -> (forall l, lsn = Some l -> in_u64 l) ->
  exists img', on_buffer (stamp_lsn lsn) img = Ok img' /\
    page_holds img' (stamped_header lsn h) rs /\ validate_layout img' = Ok tt.
Proof.
  intros Hp Hl. destruct lsn as [l |]; cbn [stamp_lsn stamped_header].
  - destruct (stamp_holds l _ _ _ Hp (Hl l eq_refl)) as (pg1 & E1 & Hp1).
    destruct (finalize_holds _ _ _ Hp1) as (E2 & Hp2 & Hv). eexists. split_and!; [| exact Hp2 | exact Hv].
    apply (on_buffer_ok _ _ tt). by st_step by exact E1.
  - destruct (finalize_holds _ _ _ Hp) as (E2 & Hp2 & Hv). eexists. split_and!; [| exact Hp2 | exact Hv].
    by apply (on_buffer_ok _ _ tt).
Qed.

Lemma stamp_all_ok lsn ws :
  Forall holds_page ws -> (forall l, lsn = Some l -> in_u64 l) ->
  exists ws', mapM (on_image (stamp_lsn lsn)) ws = Ok ws' /\
    Forall2 (fun w w' => pw_page_id w' = pw_page_id w /\ sealed_as lsn (pw_image w) (pw_image w')) ws ws'.
Proof.
  intros HF Hl. induction HF as [| w ws (_ & h & rs & Hp) HF IH]; [by exists [] |].
  destruct IH as (ws' & E & HF2).
  destruct (stamp_ok lsn _ _ _ Hp Hl) as (img' & Es & _ & Hv).
  exists (mkPlannedPageWrite (pw_page_id w) img' :: ws'). split.
  - assert (on_image (stamp_lsn lsn) w = Ok (mkPlannedPageWrite (pw_page_id w) img')) as Ei
      by (unfold on_image; by rewrite Es).
    cbn [mapM]. rewrite Ei. cbn [mbind res_bind]. by rewrite E.
  - constructor; [| done]. split; [done |]. split; [done |]. intros h' rs' Hp'.
    destruct (stamp_ok lsn _ _ _ Hp' Hl) as (img2 & Es2 & Hp2 & _). cbn [pw_image].
    rewrite Es in Es2. by injection Es2 as ->.
Qed.

(** The images as maps. *)
Definition images_sealed (lsn : option Z) (M M' : gmap Z (list byte)) : Prop :=
  forall id, match M !! id, M' !! id with
             | Some img, Some img' => sealed_as lsn img img'
             | None, None => True
             | _, _ => False
             end.

Lemma stamped_writes lsn ws ws' :
  NoDup (pw_page_id <$> ws) ->
  Forall2 (fun w w' => pw_page_id w' = pw_page_id w /\ sealed_as lsn (pw_image w) (pw_image w')) ws ws' ->
  NoDup (pw_page_id <$> ws') /\
  images_sealed lsn (writes_map ws) (writes_map ws').
Proof.
  intros Hnd HF. assert (pw_page_id <$> ws' = pw_page_id <$> ws) as Eid.
  { induction HF as [| w w' ws ws' [E _] HF IH]; [done |]. rewrite !fmap_cons, E. f_equal. apply IH.
    rewrite fmap_cons in Hnd. by apply NoDup_cons in Hnd as []. }
  split; [by rewrite Eid |]. clear Eid Hnd. intros id.
  induction HF as [| w w' ws ws' [E Hs] HF IH]; [done |].
  change (writes_map (w :: ws)) with (<[pw_page_id w := pw_image w]> (writes_map ws)).
  change (writes_map (w' :: ws')) with (<[pw_page_id w' := pw_image w']> (writes_map ws')).
  rewrite E. destruct (decide (id = pw_page_id w)) as [-> | Hne].
  - rewrite !lookup_insert_eq. exact Hs.
  - rewrite !lookup_insert_ne by done. exact IH.
Qed.

(** ** Publishing *)

Definition meta_of (f : TimeSeriesFile) : Z * Z * Z := (tf_page_count f, tf_head_raw f, tf_tail_raw f).

Definition set_meta (count : Z) (ps : list ChainPage) (f : TimeSeriesFile) : TimeSeriesFile :=
  set_tail_raw (raw_page_id (tail_id ps)) (set_head_raw (raw_page_id (head_id ps)) (set_page_count count f)).

Lemma published_meta f M f' : published f M f' -> meta_of f' = meta_of f.
Proof. intros [E _ _]. by rewrite E. Qed.

Lemma filled_meta_of f f' : cache_filled f f' -> meta_of f' = meta_of f.
Proof. intros [E _ _ _]. by rewrite E. Qed.

Lemma apply_plan_ok f0 ps0 s ps f1 ws :
  file_chain f0 ps0 -> plan_inv f0 s ps -> meta_of f1 = meta_of f0 -> NoDup (pw_page_id <$> ws) ->
  exists f2, published f1 (writes_map ws) f2 /\
    apply_plan (set_page_writes ws (into_plan s)) f1 =
      (Ok tt, set_meta (ov_page_count (pn_overlay s)) ps f2).
Proof.
  intros F I Hm Hnd. destruct (apply_writes_ok ws f1 Hnd) as (f2 & E & Hpub). exists f2.
  split; [done |]. pose proof (published_meta _ _ _ Hpub) as Hm2.
  rewrite Hm in Hm2. injection Hm2 as M1 M2 M3.
  pose proof (filled_chain _ _ _ (pi_filled _ _ _ I) F) as Fs.
  pose proof (filled_meta_of _ _ (pi_filled _ _ _ I)) as Hms. injection Hms as S1 S2 S3.
  unfold apply_plan, into_plan. cbn [set_page_writes mp_create_file mp_page_writes mp_delete_file
    mp_next_page_count mp_next_head_page_id mp_next_tail_page_id].
  st_step by reflexivity. st_step by exact E. st_step by reflexivity. st_step by reflexivity.
  st_step by reflexivity. unfold st_modify, set_meta. do 2 f_equal.
  rewrite (pi_head _ _ _ I), (pi_tail _ _ _ I), (file_head_id _ _ Fs), (file_tail_id _ _ Fs).
  destruct (Z.eqb_spec (ov_page_count (pn_overlay s)) (tf_page_count (pn_file s))) as [Ec | _];
    destruct (decide (head_id ps = head_id ps0)) as [Eh | _];
    destruct (decide (tail_id ps = tail_id ps0)) as [Et | _];
    rewrite ?Ec, ?Eh, ?Et, ?S1, <- ?(fc_head _ _ F), <- ?(fc_tail _ _ F), <- ?M1, <- ?M2, <- ?M3;
    by destruct f2.
Qed.

(** The log can take the entry. *)
Definition logs_entry (wal : option WorkerWALBackend) (batch : PLBatch) : Prop :=
  match wal with
  | Some s => LOG_FRAME_HEADER_SIZE + LOG_FRAME_TAILER_SIZE < cl_chunk_size (wb_log s) /\
              entry_ok (cl_chunk_size (wb_log s)) (wb_next_lsn s) batch
  | None => False
  end.

(** The log with the entry in its queue, and the LSN of the entry. *)
Definition wal_after (now : Z) (batch : option PLBatch) (wal : option WorkerWALBackend)
    : option WorkerWALBackend :=
  match batch, wal with
  | Some b, Some s =>
      let fs := entry_frames (cl_chunk_size (wb_log s)) (wb_next_lsn s) b in
      Some (set_queue (wb_queue s ++ [queued false now (wb_next_lsn s) fs])
              (set_next_lsn (wb_next_lsn s + zlen fs) s))
  | _, _ => wal
  end.

Definition lsn_after (batch : option PLBatch) (wal : option WorkerWALBackend) : option Z :=
  match batch, wal with
  | Some _, Some s => Some (wb_next_lsn s)
  | _, _ => None
  end.

Lemma set_wal_same f : set_wal (tf_wal_backend f) f = f.
Proof. by destruct f. Qed.

Lemma persist_ok now f0 ps0 s ps b f1 :
  file_chain f0 ps0 -> plan_inv f0 s ps -> cache_filled f0 f1 ->
  build_pl_batch (into_plan s) (pn_file s) = (Ok b, f1) ->
  (forall batch, b = Some batch -> logs_entry (tf_wal_backend f0) batch) ->
  let wal := tf_wal_backend f0 in
  exists M f2, images_sealed (lsn_after b wal) (ov_page_images (pn_overlay s)) M /\
    published (set_wal (wal_after now b wal) f1) M f2 /\
    persist_plan now (into_plan s) (pn_file s) =
      (Ok tt, set_meta (ov_page_count (pn_overlay s)) ps f2).
Proof.
  intros F I Hf Eb Hlog wal. destruct (filled_fields _ _ Hf) as (_ & _ & _ & Ew & _). fold wal in Ew, Hlog.
  destruct (plan_writes s) as [Hnd Hmap].
  pose proof (plan_holds_pages _ _ _ I) as Hpages.
  assert (forall l, lsn_after b wal = Some l -> in_u64 l) as Hl.
  { intros l. destruct b as [batch |]; [| done]. specialize (Hlog _ eq_refl). unfold lsn_after.
    destruct wal; [| done]. intros [= <-].
    destruct Hlog as [_ (bs & _ & _ & ? & ?)]. pose proof (zlen_nonneg (entry_parts (cl_chunk_size (wb_log w)) batch)).
    mlia. }
  destruct (stamp_all_ok _ _ Hpages Hl) as (ws & Es & HF).
  destruct (stamped_writes _ _ _ Hnd HF) as [Hnd' Hsealed]. rewrite Hmap in Hsealed.
  destruct (apply_plan_ok f0 ps0 s ps (set_wal (wal_after now b wal) f1) ws F I) as (f2 & Hpub & Ea);
    [exact (filled_meta_of _ _ Hf) | exact Hnd' |].
  exists (writes_map ws), f2. split_and!; [exact Hsealed | exact Hpub |].
  rewrite <- Ea. unfold persist_plan. st_step by exact Eb.
  destruct b as [batch |].
  - specialize (Hlog _ eq_refl). unfold logs_entry in Hlog. destruct wal as [w |]; [| done].
    destruct Hlog as [Hcs Hok]. destruct (backend_serialize_ok batch w Hcs Hok) as (E1 & E2 & Hne).
    set (fs := entry_frames _ _ _) in *.
    assert (exists fs1, seqZ (wb_next_lsn w) (zlen fs) = wb_next_lsn w :: fs1) as [fs1 Eq].
    { eexists. apply seqZ_cons. destruct fs as [| f fs']; [done |].
      rewrite zlen_cons. pose proof (zlen_nonneg fs'). lia. }
    cbn [lsn_after stamp_lsn] in Es.
    st_step by (st_step by (unfold on_wal; rewrite Ew, E1; reflexivity);
      st_step by (unfold st_lift; rewrite E2; cbn [mbind res_bind]; rewrite Eq; reflexivity);
      st_step by (unfold st_lift; rewrite Es; reflexivity);
      st_step by (unfold st_lift; rewrite E2; reflexivity);
      st_step by (unfold on_wal; cbn [tf_wal_backend set_wal];
                  rewrite (enqueue_frames_ok false now _ fs _ Hne); reflexivity);
      reflexivity).
    destruct f1. reflexivity.
  - cbn [lsn_after stamp_lsn] in Es. st_step by (unfold st_lift; rewrite Es; reflexivity). cbn [wal_after]. rewrite <- Ew.
    by rewrite set_wal_same.
Qed.

End persist.
