(* ===== verification/TsState.v ===== *)
(** * The invariant of an open file

    A page that is not dirty is on the disk as readers see it, every image
    validates, and dirty pages are cached.  Publishing a plan and reading
    keep the invariant. *)

From S2P Require Import Prelude Errors Compat FileOps LogFrame WalFrames WalBackend WalDurability.
From S2P Require Import PageFormat PageBlock RecordSpec RecordMap PageView PageInsert PageRebuild.
From S2P Require Import PageImage PhysLog Replay TsFile Chain TsChain TsRead TsWrite TsPlan TsRow TsPersist.

(** The page on the disk. *)
Definition disk_img (f : TimeSeriesFile) (id : Z) : option (list byte) :=
  let file := ensure_file (tf_disk f) in
  if (id + 1) * PAGE_SIZE <=? zlen file then Some (page_at file id) else None.

Record file_inv `{Packages} (f : TimeSeriesFile) (ps : list ChainPage) : Prop := mk_file_inv {
  fi_chain : file_chain f ps;
  fi_dirty : forall id, id ∈ tf_dirty_pages f ->
               0 <= id < tf_page_count f /\ is_Some (tf_page_cache f !! id);
  fi_clean : forall id, 0 <= id < tf_page_count f -> id ∉ tf_dirty_pages f ->
               disk_img f id = file_img f id;
  fi_valid : forall id img, 0 <= id < tf_page_count f -> file_img f id = Some img ->
               validate_layout img = Ok tt;
  fi_len : zlen (ensure_file (tf_disk f)) <= tf_page_count f * PAGE_SIZE;
  fi_ptr : forall id a, tf_page_cache f !! id = Some a -> arc_ptr a < tf_next_ptr f;
}.

Section state.
Context `{PackagesOk}.

Lemma filled_inv f f' ps : cache_filled f f' -> file_inv f ps -> file_inv f' ps.
Proof.
  intros C [FC FD FL FV FN FP].
  destruct (filled_fields _ _ C) as (_ & Ed & _ & _ & Edp & Ec & _).
  split; rewrite ?Ec, ?Ed, ?Edp.
  - by eapply filled_chain.
  - intros id Hid. destruct (FD id Hid) as [? [a Ha]]. split; [done |]. exists a. by apply (cf_old _ _ C).
  - intros id Hid Hn. rewrite (filled_img _ _ C), <- (FL id Hid Hn). unfold disk_img. by rewrite Ed.
  - intros id img Hid. rewrite (filled_img _ _ C). by apply FV.
  - done.
  - intros id a Ha. pose proof (cf_ptr _ _ C). destruct (tf_page_cache f !! id) as [b |] eqn:Eb.
    + rewrite (cf_old _ _ C _ _ Eb) in Ha. injection Ha as ->. specialize (FP id a Eb). lia.
    + destruct (cf_new _ _ C _ _ Ha Eb) as [_ ?]. lia.
Qed.

(** ** Publishing *)

Definition restamp (lsn : option Z) (M : gmap Z (list byte)) (p : ChainPage) : ChainPage :=
  match M !! cp_id p with
  | Some _ => mkChainPage (stamped_header lsn (cp_header p)) (cp_recs p)
  | None => p
  end.

Lemma restamp_fields lsn M p :
  cp_recs (restamp lsn M p) = cp_recs p /\ cp_id (restamp lsn M p) = cp_id p /\
  ph_prev_page (cp_header (restamp lsn M p)) = ph_prev_page (cp_header p) /\
  ph_next_page (cp_header (restamp lsn M p)) = ph_next_page (cp_header p) /\
  (forall f, page_meta f p -> page_meta f (restamp lsn M p)).
Proof. unfold restamp. destruct (M !! cp_id p); [| done]. by destruct lsn. Qed.

Lemma restamp_fmap {B} lsn M (k : ChainPage -> B) (ps : list ChainPage) :
  (forall p, k (restamp lsn M p) = k p) -> k <$> (restamp lsn M <$> ps) = k <$> ps.
Proof. intros Hk. rewrite <- list_fmap_compose. apply list_fmap_ext. by intros ? p _; apply Hk. Qed.

Lemma restamp_ids lsn M (ps : list ChainPage) : cp_id <$> (restamp lsn M <$> ps) = cp_id <$> ps.
Proof. apply restamp_fmap. intros p. apply restamp_fields. Qed.

Lemma restamp_recs lsn M (ps : list ChainPage) : cp_recs <$> (restamp lsn M <$> ps) = cp_recs <$> ps.
Proof. apply restamp_fmap. intros p. apply restamp_fields. Qed.

Lemma restamp_linked lsn M ps : forall prev next,
  linked prev ps next -> linked prev (restamp lsn M <$> ps) next.
Proof.
  induction ps as [| p ps IH]; intros prev next; [done |]. rewrite fmap_cons. cbn [linked].
  destruct (restamp_fields lsn M p) as (_ & -> & -> & -> & _). intros (? & Hn & ?).
  split_and!; [done | | by apply IH]. rewrite Hn. destruct ps as [| q ps]; [done |]. rewrite fmap_cons.
  cbn [first_id]. by destruct (restamp_fields lsn M q) as (_ & -> & _).
Qed.

Section publish.
Context (f0 f1 f2 : TimeSeriesFile) (ps0 ps : list ChainPage) (s : Planning).
Context (wal : option WorkerWALBackend) (lsn : option Z) (M : gmap Z (list byte)).
Context (I0 : file_inv f0 ps0) (I : plan_inv f0 s ps) (Hf : cache_filled f0 f1).
Context (HM : images_sealed lsn (ov_page_images (pn_overlay s)) M).
Context (Hpub : published (set_wal wal f1) M f2).
Let f' := set_meta (ov_page_count (pn_overlay s)) ps f2.

Lemma publish_fields :
  tf_disk f' = tf_disk f0 /\ tf_open f' = tf_open f0 /\ tf_identity f' = tf_identity f0 /\
  tf_dirty_pages f' = dom M ∪ tf_dirty_pages f0 /\ tf_page_cache f' = tf_page_cache f2 /\
  tf_page_count f' = ov_page_count (pn_overlay s) /\ tf_wal_backend f' = wal /\
  tf_tuple_format_version f' = tf_tuple_format_version f0 /\
  tf_tuple_schema_hash f' = tf_tuple_schema_hash f0 /\ tf_tuple_flags f' = tf_tuple_flags f0.
Proof.
  unfold f'. rewrite (pb_same _ _ _ Hpub). cbn.
  destruct (filled_fields _ _ Hf) as (-> & -> & -> & _ & -> & _ & _ & _ & -> & -> & ->). by split_and!.
Qed.

(** A page that is not written was already there. *)
Lemma unwritten id : M !! id = None -> 0 <= id < ov_page_count (pn_overlay s) ->
  0 <= id < tf_page_count f0 /\ ov_page_images (pn_overlay s) !! id = None.
Proof.
  intros Hn Hid. specialize (HM id). rewrite Hn in HM.
  destruct (ov_page_images (pn_overlay s) !! id) eqn:E; [done |]. split; [| done].
  destruct (Z.lt_ge_cases id (tf_page_count f0)); [lia |].
  destruct (pi_new _ _ _ I id) as [x Hx]; [lia |]. congruence.
Qed.

Lemma publish_img id : 0 <= id < ov_page_count (pn_overlay s) ->
  file_img f' id = match M !! id with Some img => Some img | None => file_img f0 id end.
Proof.
  intros Hid. destruct publish_fields as (Ed & _ & _ & _ & Ec & En & _).
  unfold file_img at 1. rewrite Ec, Ed, En. pose proof (pb_cache _ _ _ Hpub id) as Hc.
  destruct (M !! id) as [img |] eqn:EM.
  - by destruct Hc as (a & -> & -> & _).
  - destruct (unwritten id EM Hid) as [Hid0 _]. rewrite Hc. cbn [set_wal tf_page_cache].
    rewrite <- (filled_img _ _ Hf). unfold file_img.
    destruct (filled_fields _ _ Hf) as (_ & -> & _ & _ & _ & -> & _).
    destruct (tf_page_cache f1 !! id); [done |].
    by rewrite (proj2 (Z.ltb_lt _ _) (proj2 Hid)), (proj2 (Z.ltb_lt _ _) (proj2 Hid0)).
Qed.

Lemma published_chain : file_chain f' (restamp lsn M <$> ps).
Proof.
  destruct publish_fields as (_ & Eo & _ & _ & _ & Ec & _ & E1 & E2 & E3).
  pose proof (pi_chain _ _ _ I) as C. destruct (fi_chain _ _ I0) as [_ F2 F3 F4 F5 F6 F7].
  split; rewrite ?Eo, ?Ec, ?E1, ?E2, ?E3; try done.
  - destruct C as [C1 C2 C3 C4 C5 C6]. split.
    + apply Forall_fmap. rewrite Forall_forall in C1 |- *. intros p Hp.
      destruct (C1 p Hp) as (pg & Hi & Hpg). unfold compose, page_shown.
      destruct (restamp_fields lsn M p) as (_ & -> & _).
      assert (0 <= cp_id p < ov_page_count (pn_overlay s)) as Hid
        by exact (chain_range _ _ _ _ (pi_chain _ _ _ I) p Hp).
      rewrite (publish_img _ Hid). unfold restamp. specialize (HM (cp_id p)). unfold pn_img in Hi.
      destruct (M !! cp_id p) as [img' |], (ov_page_images (pn_overlay s) !! cp_id p) as [img |]; try done.
      * injection Hi as ->. exists img'. split; [done |]. by apply HM.
      * exists pg. rewrite <- (filled_img _ _ (pi_filled _ _ _ I)). by split.
    + by apply restamp_linked.
    + by rewrite restamp_ids.
    + apply Forall_fmap. eapply Forall_impl; [exact C4 |]. intros p Hp.
      apply (restamp_fields lsn M p). destruct Hp as (P1 & P2 & P3).
      unfold page_meta. by rewrite E1, E2, E3.
    + eapply ordered_recs; [symmetry; apply restamp_recs | done].
    + done.
  - by rewrite (head_id_ids _ _ (restamp_ids lsn M ps)).
  - by rewrite (tail_id_ids _ _ (restamp_ids lsn M ps)).
Qed.

Lemma published_inv : file_inv f' (restamp lsn M <$> ps).
Proof.
  destruct publish_fields as (Ed & _ & _ & Edp & Ecache & Ec & _).
  destruct I0 as [FC FD FL FV FN FP]. pose proof (pi_count _ _ _ I) as Hcount.
  split; rewrite ?Ed, ?Ec.
  - exact published_chain.
  - intros id. rewrite Edp, Ecache. pose proof (pb_cache _ _ _ Hpub id) as Hc.
    intros [Hid | Hid]%elem_of_union.
    + apply elem_of_dom in Hid as [img Himg]. specialize (HM id). rewrite Himg in Hc, HM.
      split; [| by destruct Hc as (a & -> & _); eexists].
      apply (pi_ids _ _ _ I). by destruct (ov_page_images _ !! id).
    + destruct (FD id Hid) as [? [a Ha]]. split; [lia |].
      destruct (M !! id); [by destruct Hc as (b & -> & _); eexists |]. rewrite Hc. exists a. by apply (cf_old _ _ Hf).
  - intros id Hid Hn. rewrite (publish_img id Hid). rewrite Edp in Hn.
    assert (M !! id = None) as EM by (apply not_elem_of_dom; set_solver).
    rewrite EM. destruct (unwritten id EM Hid) as [Hid0 _].
    rewrite <- (FL id Hid0) by set_solver. unfold disk_img. by rewrite Ed.
  - intros id img Hid. rewrite (publish_img id Hid). destruct (M !! id) as [img' |] eqn:EM.
    + intros [= <-]. specialize (HM id). rewrite EM in HM.
      destruct (ov_page_images (pn_overlay s) !! id); [by destruct HM | done].
    + apply FV. by apply unwritten.
  - unfold_bounds. plia.
  - intros id a. rewrite Ecache. change (tf_next_ptr f') with (tf_next_ptr f2).
    pose proof (pb_cache _ _ _ Hpub id) as Hc. pose proof (pb_ptr _ _ _ Hpub) as Hp.
    cbn [set_wal tf_next_ptr tf_page_cache] in Hp, Hc.
    destruct (M !! id); [destruct Hc as (b & -> & _ & ?); intros [= <-]; lia |].
    rewrite Hc. intros Ha. pose proof (fi_ptr _ _ (filled_inv _ _ _ Hf I0) id a Ha). lia.
Qed.

End publish.

End state.
