(* ===== verification/TsFlush.v ===== *)
(** * Flushing dirty pages

    The sweep of [flush_dirty_pages] may run while writers publish new images
    of the pages it is writing.  Every batch of page writes keeps the
    invariant of the file, and a page loses its dirty mark only when the
    image that was written is still the cached one. *)

From S2P Require Import Prelude Errors Compat FileOps LogFrame WalFrames WalBackend WalDurability.
From S2P Require Import PageFormat PageBlock RecordSpec RecordMap PageView PageInsert PageRebuild.
From S2P Require Import PageImage PhysLog Replay TsFile Chain TsChain TsRead TsWrite TsPlan TsRow TsPersist.
From S2P Require Import TsState.

(** ** Writing pages to the disk *)

Definition write_pages (l : list (Z * list byte)) (file : list byte) : list byte :=
  foldl (fun file w => (write_all_at (w.1 * PAGE_SIZE) w.2 file).2) file l.

Lemma write_pages_ok l : forall file,
  NoDup l.*1 -> Forall (fun w => 0 <= w.1 /\ zlen w.2 = PAGE_SIZE) l ->
  let file' := write_pages l file in
  (forall id img, (id, img) ∈ l -> page_in file' id /\ page_at file' id = img) /\
  (forall j, page_in file j -> j ∉ l.*1 -> page_in file' j /\ page_at file' j = page_at file j) /\
  (forall n, zlen file <= n * PAGE_SIZE -> Forall (fun w => w.1 < n) l -> zlen file' <= n * PAGE_SIZE).
Proof.
  induction l as [| [id img] l IH]; intros file Hnd HF; cbv zeta.
  { split_and!; [by intros ? ? ?%elem_of_nil | done | done]. }
  rewrite fmap_cons in Hnd. apply NoDup_cons in Hnd as [Hn Hnd]. inversion HF as [| ? ? [Hid Hl] HF']; subst.
  cbn [fst snd] in *. destruct (write_page file id img Hid Hl) as (file1 & E & Hin & Hat & Hlen & Hoth).
  assert (write_pages ((id, img) :: l) file = write_pages l file1) as ->
    by (unfold write_pages; cbn [foldl fst snd]; by rewrite E).
  destruct (IH file1 Hnd HF') as (I1 & I2 & I3). split_and!.
  - intros j x [[= -> ->] | Hx]%elem_of_cons; [| by apply I1].
    destruct (I2 id Hin Hn) as [? E2]. split; [done | congruence].
  - intros j Hj. rewrite fmap_cons. intros [Hne Hnj]%not_elem_of_cons.
    destruct (Hoth j Hj) as [Hj1 Ej]. destruct (I2 j Hj1 Hnj) as [? E2]. split; [done |].
    rewrite E2. by apply Ej.
  - intros n Hfile Hall. inversion Hall; subst. cbn [fst] in *. apply I3; [| done]. rewrite Hlen.
    unfold_bounds. plia.
Qed.

Section flush.
Context `{PackagesOk}.

(** A valid image is written as it is. *)
Lemma persisted_same img h rs :
  page_holds img h rs -> validate_layout img = Ok tt -> persisted_page_image img = Ok img.
Proof.
  intros Hp Hv. pose proof (page_holds_header _ _ _ Hp) as HV.
  unfold validate_layout in Hv. rewrite (header_view_decode _ _ HV) in Hv. cbn [mbind res_bind] in Hv.
  destruct (negb (ph_magic h =? PAGE_HEADER_MAGIC)); [done |].
  destruct (PAGE_VERSION <? ph_version h); [done |].
  apply res_bind_inv in Hv as (start & _ & Hv).
  destruct (_ || _); [done |]. destruct (negb (ph_free_bytes h =? _)); [done |].
  apply res_bind_inv in Hv as ([] & _ & Hv). apply res_bind_inv in Hv as (t & Et & Hv).
  destruct (Z.eqb_spec (ph_lsn h) (pt_lsn t)) as [El |]; [| done]. cbn [negb] in Hv.
  unfold persisted_page_image, page_image_checksum_valid. rewrite Et. cbn [mbind res_bind].
  rewrite (header_lsn_view _ _ HV). cbn [mbind res_bind]. rewrite El, Z.eqb_refl, Hv. done.
Qed.

(** ** Pending page writes *)

(** The image [a] of the page was taken from the cache for writing: it is
    still there, or a newer one is and the page is dirty. *)
Definition pending (f : TimeSeriesFile) (id : Z) (a : Arc) : Prop :=
  0 <= id < tf_page_count f /\ arc_ptr a < tf_next_ptr f /\
  persisted_page_image (arc_data a) = Ok (arc_data a) /\ zlen (arc_data a) = PAGE_SIZE /\
  (tf_page_cache f !! id = Some a \/
   id ∈ tf_dirty_pages f /\ exists b, tf_page_cache f !! id = Some b /\ arc_ptr b <> arc_ptr a).

(** Publishing keeps writes pending. *)
Lemma published_pending f M f' count ps id a :
  published f M f' -> tf_page_count f <= count -> pending f id a -> pending (set_meta count ps f') id a.
Proof.
  intros [Es Hp Hc] Hcount (Hid & Hptr & Hper & Hlen & Hca). specialize (Hc id).
  split_and!; [cbn; lia | cbn; lia | cbn; lia | done | done |].
  cbn [set_meta set_tail_raw set_head_raw set_page_count tf_page_cache tf_dirty_pages].
  assert (tf_dirty_pages f' = dom M ∪ tf_dirty_pages f) as -> by (by rewrite Es).
  destruct (M !! id) as [img |] eqn:E.
  - destruct Hc as (b & Hb & _ & Hbp). right. split; [| exists b; split; [done | lia]].
    apply elem_of_union. left. apply elem_of_dom. by rewrite E.
  - rewrite Hc. destruct Hca as [? | [Hd ?]]; [by left | right]. split; [| done].
    apply elem_of_union. by right.
Qed.

Lemma filled_pending f f' id a : cache_filled f f' -> pending f id a -> pending f' id a.
Proof.
  intros C (Hid & Hptr & Hper & Hlen & Hca).
  destruct (filled_fields _ _ C) as (_ & _ & _ & _ & Ed & Ec & _). pose proof (cf_ptr _ _ C).
  unfold pending. rewrite Ed, Ec. split; [done |]. split; [lia |]. split; [done |]. split; [done |].
  destruct Hca as [Hb | [Hd (b & Hb & Hne)]]; [left | right]; [by apply (cf_old _ _ C) |].
  split; [done |]. exists b. split; [by apply (cf_old _ _ C) | done].
Qed.

(** ** A batch of page writes *)

Definition write_of (w : DirtyPageWrite) : Z * list byte := (w.1.1, w.2).

Lemma disk_writes_ok (ws : list DirtyPageWrite) : forall f,
  exists d, st_iter (fun ow : Z * DirtyPageWrite => on_disk (write_all_at ow.1 ow.2.2))
              (zip ((fun w => w.1.1 * PAGE_SIZE) <$> ws) ws) f = (Ok tt, set_disk d f) /\
    ensure_file d = write_pages (write_of <$> ws) (ensure_file (tf_disk f)) /\
    (is_Some (tf_disk f) -> is_Some d).
Proof.
  induction ws as [| w ws IH]; intros f; [exists (tf_disk f); by destruct f |].
  set (f1 := set_disk (Some (write_all_at (w.1.1 * PAGE_SIZE) w.2 (ensure_file (tf_disk f))).2) f).
  destruct (IH f1) as (d & E & Ed & Hd). exists d. split_and!; [| exact Ed | intros _; apply Hd; by eexists].
  rewrite fmap_cons. cbn [zip_with st_iter]. st_step by reflexivity. refine (eq_trans E _). by destruct f.
Qed.

(** The pages whose written image is still cached. *)
Definition current (f : TimeSeriesFile) (ws : list DirtyPageWrite) (id : Z) : Prop :=
  exists w b, w ∈ ws /\ w.1.1 = id /\ tf_page_cache f !! id = Some b /\ arc_ptr b = arc_ptr w.1.2.

#[export] Instance current_dec f ws id : Decision (current f ws id).
Proof.
  refine (cast_if (decide (Exists (fun w : DirtyPageWrite => w.1.1 = id /\
            arc_ptr <$> tf_page_cache f !! id = Some (arc_ptr w.1.2)) ws)));
    [abstract (apply Exists_exists in e as (w & Hw & E & (b & Ep & Hb)%fmap_Some); exists w, b; by split_and!) |].
  intros (w & b & Hw & E & Hb & Ep). apply n, Exists_exists. exists w. split_and!; [done | done |].
  rewrite Hb. cbn. by rewrite Ep.
Defined.

Lemma current_cons f w ws id : current f (w :: ws) id <-> current f [w] id \/ current f ws id.
Proof.
  split.
  - intros (x & b & [-> | Hx]%elem_of_cons & R); [left | right].
    + exists w, b. split; [by left | done].
    + exists x, b. by split.
  - intros [(x & b & ->%list_elem_of_singleton & R) | (x & b & Hx & R)].
    + exists w, b. split; [by left | done].
    + exists x, b. split; [by right | done].
Qed.

Lemma clear_marks_ok (ws : list DirtyPageWrite) : forall f,
  exists D, st_iter (fun w : DirtyPageWrite => clear_dirty_mark w.1.1 w.1.2) ws f
              = (Ok tt, set_dirty_pages D f) /\
    forall id, id ∈ D <-> id ∈ tf_dirty_pages f /\ ~ current f ws id.
Proof.
  induction ws as [| w ws IH]; intros f.
  { exists (tf_dirty_pages f). split; [by destruct f |]. intros id. split; [| tauto].
    intros ?. split; [done |]. by intros (w & b & ?%elem_of_nil & _). }
  destruct (clear_dirty_mark w.1.1 w.1.2 f) as [r f1] eqn:E1.
  assert (r = Ok tt) as -> by (unfold clear_dirty_mark, st_modify in E1; congruence).
  assert (exists D1, f1 = set_dirty_pages D1 f /\
    forall id, id ∈ D1 <-> id ∈ tf_dirty_pages f /\ ~ current f [w] id) as (D1 & -> & HD1).
  { unfold clear_dirty_mark, st_modify in E1. injection E1 as <-.
    assert (forall id, current f [w] id <-> w.1.1 = id /\ exists b, tf_page_cache f !! id = Some b /\ arc_ptr b = arc_ptr w.1.2) as Hcur.
    { intros id. unfold current. setoid_rewrite list_elem_of_singleton. naive_solver. }
    destruct (tf_page_cache f !! w.1.1) as [a |] eqn:Ea; [destruct (Z.eqb_spec (arc_ptr a) (arc_ptr w.1.2)) as [Ep | Ep] |].
    - eexists. split; [reflexivity |]. intros id. rewrite Hcur, elem_of_difference, elem_of_singleton.
      split; [naive_solver |]. intros [? Hn]. split; [done |]. intros ->. apply Hn. eauto.
    - exists (tf_dirty_pages f). split; [by destruct f |]. intros id. rewrite Hcur. naive_solver.
    - exists (tf_dirty_pages f). split; [by destruct f |]. intros id. rewrite Hcur. naive_solver. }
  destruct (IH (set_dirty_pages D1 f)) as (D & E & HD). exists D. split.
  { cbn [st_iter]. st_step by exact E1. refine (eq_trans E _). by destruct f. }
  intros id. rewrite HD. cbn [set_dirty_pages tf_dirty_pages]. rewrite HD1.
  change (current (set_dirty_pages D1 f) ws id) with (current f ws id). rewrite (current_cons f w ws). tauto.
Qed.

Definition batch_pending (f : TimeSeriesFile) (ws : list DirtyPageWrite) : Prop :=
  NoDup ((fun w => w.1.1) <$> ws) /\
  Forall (fun w => pending f w.1.1 w.1.2 /\ w.2 = arc_data w.1.2) ws.

Lemma disk_img_in f id img :
  0 <= id -> disk_img f id = Some img ->
  page_in (ensure_file (tf_disk f)) id /\ page_at (ensure_file (tf_disk f)) id = img.
Proof.
  intros Hid. unfold disk_img. cbv zeta. destruct (Z.leb_spec ((id + 1) * PAGE_SIZE) (zlen (ensure_file (tf_disk f))));
    [| done]. intros [= <-]. by split.
Qed.

Lemma in_disk_img f id :
  page_in (ensure_file (tf_disk f)) id -> disk_img f id = Some (page_at (ensure_file (tf_disk f)) id).
Proof. intros [Hid Hl]. unfold disk_img. cbv zeta. by rewrite (proj2 (Z.leb_le _ _)). Qed.

(** The file after the writes and the cleared marks. *)
Section flushed.
Context (f : TimeSeriesFile) (ps : list ChainPage) (ws : list DirtyPageWrite).
Context (d : option (list byte)) (D : gset Z).
Context (I : file_inv f ps) (HP : batch_pending f ws).
Context (Hd : ensure_file d = write_pages (write_of <$> ws) (ensure_file (tf_disk f))).
Context (HD : forall id, id ∈ D <-> id ∈ tf_dirty_pages f /\ ~ current f ws id).
Let f' := set_dirty_pages D (set_disk d f).

Lemma flushed_writes :
  NoDup (write_of <$> ws).*1 /\
  Forall (fun w : Z * list byte => 0 <= w.1 /\ zlen w.2 = PAGE_SIZE) (write_of <$> ws) /\
  Forall (fun w : Z * list byte => w.1 < tf_page_count f) (write_of <$> ws).
Proof.
  destruct HP as [Hnd HF]. rewrite <- list_fmap_compose. split_and!; [exact Hnd | |];
    apply Forall_fmap; (eapply Forall_impl; [exact HF |]);
    intros w [(Hid & _ & _ & Hl & _) E]; cbn; [rewrite E; split; [lia | done] | lia].
Qed.

(** What a page of the batch is on the disk. *)
Lemma flushed_written w : w ∈ ws -> disk_img f' w.1.1 = Some (arc_data w.1.2).
Proof.
  intros Hw. destruct flushed_writes as (Hnd & HF & _).
  destruct (write_pages_ok _ (ensure_file (tf_disk f)) Hnd HF) as (Hin & _).
  destruct HP as [_ HP2]. rewrite Forall_forall in HP2. destruct (HP2 w Hw) as [_ Ew].
  destruct (Hin w.1.1 w.2) as [Hi Hat].
  { apply list_elem_of_fmap. exists w. by split. }
  unfold f'. rewrite in_disk_img; cbn [set_dirty_pages set_disk tf_disk]; rewrite Hd; [| done].
  by rewrite Hat, Ew.
Qed.

Lemma flushed_other id img :
  0 <= id -> id ∉ (fun w : DirtyPageWrite => w.1.1) <$> ws ->
  disk_img f id = Some img -> disk_img f' id = Some img.
Proof.
  intros Hid Hn Hi. destruct (disk_img_in _ _ _ Hid Hi) as [Hin <-].
  destruct flushed_writes as (Hnd & HF & _).
  destruct (write_pages_ok _ (ensure_file (tf_disk f)) Hnd HF) as (_ & Hoth & _).
  destruct (Hoth id Hin) as [Hin' Hat].
  { rewrite <- list_fmap_compose. exact Hn. }
  unfold f'. rewrite in_disk_img; cbn [set_dirty_pages set_disk tf_disk]; rewrite Hd; [| done].
  by rewrite Hat.
Qed.

Lemma shown_img id : 0 <= id < tf_page_count f -> exists img, file_img f id = Some img.
Proof.
  intros Hid. pose proof (fc_chain _ _ (fi_chain _ _ I)) as C.
  assert (id ∈ cp_id <$> ps) as Hin by (rewrite (ch_ids _ _ _ _ C); apply elem_of_seqZ; lia).
  apply list_elem_of_fmap in Hin as (p & -> & Hp).
  destruct (chain_page _ _ _ _ C p Hp) as (pg & E & _). by exists pg.
Qed.

Lemma flushed_img id : 0 <= id < tf_page_count f -> file_img f' id = file_img f id.
Proof.
  intros Hid. unfold file_img at 1. cbn [f' set_dirty_pages set_disk tf_page_cache tf_disk tf_page_count].
  destruct (tf_page_cache f !! id) as [a |] eqn:Ea; [unfold file_img; by rewrite Ea |].
  assert (id ∉ tf_dirty_pages f) as Hn.
  { intros Hin. destruct (fi_dirty _ _ I id Hin) as [_ [x Hx]]. congruence. }
  destruct (shown_img id Hid) as [img Himg]. pose proof (fi_clean _ _ I id Hid Hn) as Hc.
  rewrite Himg in Hc |- *.
  assert (disk_img f' id = Some img) as Hdisk.
  { apply flushed_other; [lia | | done]. intros Hin. apply list_elem_of_fmap in Hin as (w & -> & Hw).
    destruct HP as [_ HF]. rewrite Forall_forall in HF.
    destruct (HF w Hw) as [(_ & _ & _ & _ & [? | [_ (b & ? & _)]]) _]; congruence. }
  unfold disk_img in Hdisk. cbn [f' set_dirty_pages set_disk tf_disk] in Hdisk.
  rewrite (proj2 (Z.leb_le _ _) (proj1 Hid)), (proj2 (Z.ltb_lt _ _) (proj2 Hid)). exact Hdisk.
Qed.

Lemma current_written id : current f ws id ->
  exists w, w ∈ ws /\ w.1.1 = id /\ tf_page_cache f !! id = Some w.1.2.
Proof.
  intros (w & b & Hw & <- & Hb & Ep). exists w. split_and!; [done | done |].
  destruct HP as [_ HF]. rewrite Forall_forall in HF.
  destruct (HF w Hw) as [(_ & _ & _ & _ & [? | [_ (b' & Hb' & Hne)]]) _]; [done |].
  rewrite Hb in Hb'. injection Hb' as <-. done.
Qed.

Lemma flushed_inv : file_inv f' ps.
Proof.
  destruct (fi_chain _ _ I) as [C F2 F3 F4 F5 F6 F7]. split.
  - split; [| exact F2 | exact F3 | exact F4 | exact F5 | exact F6 | exact F7].
    destruct C as [C1 C2 C3 C4 C5 C6]. split; [| exact C2 | exact C3 | exact C4 | exact C5 | exact C6].
    rewrite Forall_forall in C1 |- *. intros p Hp. destruct (C1 p Hp) as (pg & Hi & Hpg). exists pg.
    split; [| done]. rewrite flushed_img; [done |].
    apply (chain_range _ _ _ _ (fc_chain _ _ (fi_chain _ _ I)) p Hp).
  - intros id [Hin _]%HD. exact (fi_dirty _ _ I id Hin).
  - intros id Hid Hn. rewrite flushed_img by exact Hid.
    destruct (shown_img id Hid) as [img Himg]. rewrite Himg.
    assert (forall w, w ∈ ws -> w.1.1 = id -> tf_page_cache f !! id = Some w.1.2 ->
              disk_img f' id = Some img) as Hdone.
    { intros w Hw <- Hca. rewrite flushed_written by done. unfold file_img in Himg.
      rewrite Hca in Himg. exact Himg. }
    destruct (decide (id ∈ tf_dirty_pages f)) as [Hdirty | Hclean].
    + destruct (decide (current f ws id)) as [(w & Hw & Ew & Hca)%current_written | Hno]; [by eapply Hdone |].
      exfalso. by apply Hn, HD.
    + destruct (decide (id ∈ (fun w : DirtyPageWrite => w.1.1) <$> ws)) as [Hin | Hnot].
      * apply list_elem_of_fmap in Hin as (w & -> & Hw). apply (Hdone w Hw eq_refl).
        destruct HP as [_ HF]. rewrite Forall_forall in HF.
        by destruct (HF w Hw) as [(_ & _ & _ & _ & [? | [? _]]) _].
      * apply flushed_other; [lia | exact Hnot |]. by rewrite (fi_clean _ _ I id Hid Hclean).
  - intros id img Hid. rewrite flushed_img by exact Hid. by apply (fi_valid _ _ I).
  - cbn [f' set_dirty_pages set_disk tf_disk tf_page_count]. rewrite Hd.
    destruct flushed_writes as (Hnd & HF & Hc).
    apply (write_pages_ok _ _ Hnd HF); [apply (fi_len _ _ I) | exact Hc].
  - exact (fi_ptr _ _ I).
Qed.

(** Writes of other pages stay pending. *)
Lemma flushed_pending id a :
  id ∉ (fun w : DirtyPageWrite => w.1.1) <$> ws -> pending f id a -> pending f' id a.
Proof.
  intros Hn (Hid & Hp & Hper & Hl & Hca). refine (conj Hid (conj Hp (conj Hper (conj Hl _)))).
  destruct Hca as [? | [Hdirty ?]]; [by left | right].
  split; [| done]. cbn [f' set_dirty_pages tf_dirty_pages]. apply HD. split; [done |].
  intros (w & b & Hw & <- & _). apply Hn. apply list_elem_of_fmap. by exists w.
Qed.

End flushed.

Lemma flush_batch_ok f ps ws :
  file_inv f ps -> batch_pending f ws ->
  exists d D, let f' := set_dirty_pages D (set_disk d f) in
    flush_dirty_batch ws f = (Ok (Ok tt, []), f') /\ file_inv f' ps /\
    (forall id a, id ∉ (fun w : DirtyPageWrite => w.1.1) <$> ws -> pending f id a -> pending f' id a) /\
    (forall id, id ∈ D <-> id ∈ tf_dirty_pages f /\ ~ current f ws id) /\
    (is_Some (tf_disk f) -> is_Some d).
Proof.
  intros I HP. destruct (disk_writes_ok ws f) as (d & Ed & Hd & Hsome).
  destruct (clear_marks_ok ws (set_disk d f)) as (D & Ec & HD).
  change (forall id, id ∈ D <-> id ∈ tf_dirty_pages f /\ ~ current f ws id) in HD.
  exists d, D. cbv zeta. split_and!; [| by eapply flushed_inv | by eapply flushed_pending | exact HD | exact Hsome].
  assert (mapM (fun w : DirtyPageWrite => page_offset w.1.1) ws
            = Ok ((fun w : DirtyPageWrite => w.1.1 * PAGE_SIZE) <$> ws)) as Eo.
  { destruct HP as [_ HF]. pose proof (ch_count _ _ _ _ (fc_chain _ _ (fi_chain _ _ I))) as Hmax.
    clear -HF Hmax. induction HF as [| w ws [(Hid & _) _] HF IH]; [done |].
    cbn [mapM]. rewrite page_offset_max by lia. cbn [mbind res_bind]. by rewrite IH. }
  unfold flush_dirty_batch. rewrite Eo. st_step by exact Ed. by st_step by exact Ec.
Qed.

(** ** The sweep *)

Lemma current_app f a b id : current f (a ++ b) id <-> current f a id \/ current f b id.
Proof.
  unfold current. setoid_rewrite elem_of_app. split.
  - intros (w & c & [Hw | Hw] & R); [left | right]; exists w, c; by split.
  - intros [(w & c & Hw & R) | (w & c & Hw & R)]; exists w, c; (split; [| exact R]); [by left | by right].
Qed.

(** [f'] is [f] after the writes [ws]. *)
Definition flushed (f : TimeSeriesFile) (ws : list DirtyPageWrite) (f' : TimeSeriesFile) : Prop :=
  exists d D, f' = set_dirty_pages D (set_disk d f) /\
    (forall id, id ∈ D <-> id ∈ tf_dirty_pages f /\ ~ current f ws id) /\
    (is_Some (tf_disk f) -> is_Some d).

Lemma flushed_nil f : flushed f [] f.
Proof.
  exists (tf_disk f), (tf_dirty_pages f). split; [by destruct f |]. split; [| done]. intros id. split; [| tauto].
  intros Hid. split; [exact Hid |]. by intros (w & b & ?%elem_of_nil & _).
Qed.

Lemma flushed_app f a f1 b f2 : flushed f a f1 -> flushed f1 b f2 -> flushed f (a ++ b) f2.
Proof.
  intros (d1 & D1 & -> & H1 & S1) (d2 & D2 & -> & H2 & S2). exists d2, D2.
  split; [by destruct f |]. split; [| intros Hs; by apply S2, S1].
  intros id. rewrite H2, current_app. cbn [set_dirty_pages tf_dirty_pages]. rewrite H1.
  change (current (set_dirty_pages D1 (set_disk d1 f)) b id) with (current f b id). tauto.
Qed.

Lemma batch_pending_app f a b :
  batch_pending f (a ++ b) -> batch_pending f a /\ batch_pending f b /\
  (forall w, w ∈ b -> w.1.1 ∉ (fun w : DirtyPageWrite => w.1.1) <$> a).
Proof.
  unfold batch_pending. rewrite fmap_app, NoDup_app, Forall_app. intros [(N1 & Hd & N2) [F1 F2]].
  split_and!; try done. intros w Hw Ha. apply (Hd _ Ha), list_elem_of_fmap. by exists w.
Qed.

Lemma flush_batch_rest f ps ws rest :
  file_inv f ps -> batch_pending f (ws ++ rest) ->
  exists f', flush_dirty_batch ws f = (Ok (Ok tt, []), f') /\ file_inv f' ps /\
    batch_pending f' rest /\ flushed f ws f'.
Proof.
  intros I HP. destruct (batch_pending_app _ _ _ HP) as (Hws & [Hnd Hrest] & Hdisj).
  destruct (flush_batch_ok f ps ws I Hws) as (d & D & E & I' & Hpend & HD & Hsome).
  eexists. split_and!; [exact E | exact I' | | by exists d, D].
  split; [exact Hnd |]. rewrite Forall_forall in Hrest |- *. intros w Hw.
  destruct (Hrest w Hw) as [Hp Ew]. split; [| exact Ew]. apply Hpend; [by apply Hdisj | exact Hp].
Qed.

Definition write_pending (i : Z * Arc) : DirtyPageWrite := (i.1, i.2, arc_data i.2).

Lemma flush_sweep_ok ps images : forall batch f,
  file_inv f ps -> batch_pending f (batch ++ (write_pending <$> images)) ->
  exists done batch' f', flush_sweep images batch None f = (Ok (batch', None), f') /\
    file_inv f' ps /\ batch_pending f' batch' /\ flushed f done f' /\
    done ++ batch' = batch ++ (write_pending <$> images).
Proof.
  induction images as [| [id a] images IH]; intros batch f I HP.
  { rewrite app_nil_r in *. exists [], batch, f.
    exact (conj eq_refl (conj I (conj HP (conj (flushed_nil f) eq_refl)))). }
  assert (persisted_page_image (arc_data a) = Ok (arc_data a)) as Ep.
  { destruct HP as [_ HF]. rewrite Forall_forall in HF.
    destruct (HF (write_pending (id, a))) as [(_ & _ & E & _) _]; [| exact E].
    rewrite fmap_cons. clear. set_solver. }
  cbn [flush_sweep]. rewrite Ep. cbv zeta.
  assert (batch ++ (write_pending <$> (id, a) :: images)
            = (batch ++ [(id, a, arc_data a)]) ++ (write_pending <$> images)) as Eq0
    by (by rewrite <- app_assoc).
  rewrite Eq0 in HP |- *.
  destruct (DIRTY_FLUSH_BATCH <=? _); [| by apply IH].
  destruct (flush_batch_rest _ _ _ _ I HP) as (f1 & E & I1 & HP1 & HF1).
  destruct (IH [] f1 I1 HP1) as (done & batch' & f' & E' & I' & HP' & HF' & Eq).
  exists ((batch ++ [(id, a, arc_data a)]) ++ done), batch', f'.
  refine (conj _ (conj I' (conj HP' (conj (flushed_app _ _ _ _ _ HF1 HF') _))));
    [| by rewrite <- app_assoc, Eq].
  st_step by exact E. cbv iota beta. by st_step by reflexivity.
Qed.

Lemma flush_images_ok f ps images :
  file_inv f ps -> batch_pending f (write_pending <$> images) ->
  exists f', flush_images images f = (Ok tt, f') /\ file_inv f' ps /\
    flushed f (write_pending <$> images) f'.
Proof.
  intros I HP. destruct (flush_sweep_ok ps images [] f I HP) as (done & batch & f1 & E & I1 & HP1 & HF & Eq).
  cbn [app] in Eq. unfold flush_images. rewrite <- Eq.
  destruct (decide (batch = [])) as [-> | Hne].
  - exists f1. rewrite app_nil_r. split_and!; [| done | done].
    st_step by exact E. cbv iota beta. by st_step by reflexivity.
  - rewrite <- (app_nil_r batch) in HP1. destruct (flush_batch_rest _ _ _ _ I1 HP1) as (f2 & E2 & I2 & _ & HF2).
    exists f2. split_and!; [| done | by eapply flushed_app].
    st_step by exact E. cbv iota beta. destruct batch as [| w batch]; [done |].
    st_step by (st_step by exact E2; reflexivity). done.
Qed.

(** ** The flush *)

Definition cached_image (m : gmap Z Arc) (page_id : Z) : option (Z * Arc) :=
  image ← m !! page_id; Some (page_id, image).

Lemma cached_images_ids (m : gmap Z Arc) (l : list Z) :
  (omap (cached_image m) l).*1 = filter (fun page_id => is_Some (m !! page_id)) l.
Proof.
  induction l as [| i l IH]; [done |]. cbn [omap list_omap]. unfold cached_image at 1.
  destruct (m !! i) as [a |] eqn:E; cbn [mbind option_bind].
  - rewrite fmap_cons, filter_cons_True by (by rewrite E). cbn [fst]. f_equal. exact IH.
  - rewrite filter_cons_False; [exact IH |]. rewrite E. by intros [].
Qed.

Lemma cached_images_elem (m : gmap Z Arc) (l : list Z) id a :
  (id, a) ∈ omap (cached_image m) l <-> id ∈ l /\ m !! id = Some a.
Proof.
  rewrite list_elem_of_omap. unfold cached_image. split.
  - intros (i & Hi & E). destruct (m !! i) as [b |] eqn:Eb; [| done]. by injection E as -> ->.
  - intros [Hl E]. exists id. by rewrite E.
Qed.

(** The images taken for writing are pending and are all dirty pages. *)
Lemma dirty_page_images_ok f ps :
  file_inv f ps ->
  exists images, dirty_page_images f = (Ok images, f) /\
    batch_pending f (write_pending <$> images) /\
    (forall id, id ∈ tf_dirty_pages f -> current f (write_pending <$> images) id).
Proof.
  intros I. set (l := elements (tf_dirty_pages f)). set (m := tf_page_cache f).
  set (images := sort_stable (fun a b : Z * Arc => a.1 <=? b.1) (omap (cached_image m) l)).
  assert (images ≡ₚ omap (cached_image m) l) as Hperm by apply sort_stable_perm.
  assert (forall id a, (id, a) ∈ images <-> id ∈ tf_dirty_pages f /\ m !! id = Some a) as Hin.
  { intros id a. rewrite Hperm, cached_images_elem. unfold l. by rewrite elem_of_elements. }
  assert (Forall (fun w => pending f w.1.1 w.1.2 /\ w.2 = arc_data w.1.2) (write_pending <$> images)) as Hpend.
  { apply Forall_fmap, Forall_forall. intros [id a] [Hd Hca]%Hin. split; [| done].
    destruct (fi_dirty _ _ I id Hd) as [Hid _].
    assert (file_img f id = Some (arc_data a)) as Hi by (unfold file_img; fold m; by rewrite Hca).
    pose proof (fc_chain _ _ (fi_chain _ _ I)) as C.
    assert (id ∈ cp_id <$> ps) as Hc by (rewrite (ch_ids _ _ _ _ C); apply elem_of_seqZ; lia).
    apply list_elem_of_fmap in Hc as (p & -> & Hp).
    destruct (chain_page _ _ _ _ C p Hp) as (pg & E & Hpg). rewrite Hi in E. injection E as <-.
    refine (conj Hid (conj (fi_ptr _ _ I _ _ Hca) (conj _ (conj _ (or_introl Hca))))).
    - eapply persisted_same; [exact Hpg | by eapply (fi_valid _ _ I)].
    - apply (hv_len _ _ (page_holds_header _ _ _ Hpg)). }
  exists images. split_and!.
  - unfold dirty_page_images. fold (cached_image m) l. f_equal.
    assert (list_to_set (filter (fun page_id => is_Some (m !! page_id)) l) = tf_dirty_pages f) as Hs.
    { apply set_eq. intros id. rewrite elem_of_list_to_set, list_elem_of_filter. unfold l.
      rewrite elem_of_elements. split; [by intros [_ ?] |]. intros Hid. split; [| done].
      by apply (fi_dirty _ _ I). }
    unfold m in Hs. rewrite Hs. by destruct f.
  - split; [| apply Hpend].
    rewrite <- list_fmap_compose. change ((fun w : DirtyPageWrite => w.1.1) ∘ write_pending) with (fst : Z * Arc -> Z).
    rewrite Hperm, cached_images_ids. apply NoDup_filter, NoDup_elements.
  - intros id Hd. destruct (fi_dirty _ _ I id Hd) as [_ [a Hca]].
    exists (write_pending (id, a)), a. split_and!; [| done | done | done].
    apply list_elem_of_fmap. exists (id, a). split; [done |]. by apply Hin.
Qed.

Lemma flush_dirty_pages_ok f ps :
  file_inv f ps ->
  exists d, flush_dirty_pages f = (Ok tt, set_dirty_pages ∅ (set_disk d f)) /\
    file_inv (set_dirty_pages ∅ (set_disk d f)) ps /\ (is_Some (tf_disk f) -> is_Some d).
Proof.
  intros I. unfold flush_dirty_pages.
  destruct (decide (tf_dirty_pages f = ∅)) as [E | Hne].
  { exists (tf_disk f). assert (set_dirty_pages ∅ (set_disk (tf_disk f) f) = f) as -> by (rewrite <- E; by destruct f).
    split_and!; [| done | done]. st_step by reflexivity. by rewrite decide_True. }
  destruct (dirty_page_images_ok f ps I) as (images & E & HP & Hall).
  destruct (flush_images_ok f ps images I HP) as (f' & Ef & I' & (d & D & -> & HD & Hsome)).
  assert (D = ∅) as ->.
  { apply set_eq. intros id. rewrite HD. split; [| by intros ?%elem_of_empty].
    intros [Hd Hn]. destruct (Hn (Hall id Hd)). }
  exists d. split_and!; [| exact I' | exact Hsome]. st_step by reflexivity. rewrite decide_False by done.
  st_step by (unfold file_ref, st_reads; rewrite (fc_open _ _ (fi_chain _ _ I)); reflexivity).
  by st_step by exact E.
Qed.

Lemma flush_threshold_ok f ps :
  file_inv f ps ->
  exists d D, flush_dirty_pages_if_over_threshold f = (Ok tt, set_dirty_pages D (set_disk d f)) /\
    file_inv (set_dirty_pages D (set_disk d f)) ps /\
    Z.of_nat (size D) < DIRTY_PAGE_FLUSH_THRESHOLD /\
    (D <> ∅ \/ Z.of_nat (size (tf_dirty_pages f)) < DIRTY_PAGE_FLUSH_THRESHOLD ->
     set_dirty_pages D (set_disk d f) = f).
Proof.
  intros I. unfold flush_dirty_pages_if_over_threshold. unfold mbind, st_bind, st_get at 1.
  destruct (Z.leb_spec DIRTY_PAGE_FLUSH_THRESHOLD (Z.of_nat (size (tf_dirty_pages f)))) as [Hge | Hlt].
  - destruct (flush_dirty_pages_ok f ps I) as (d & E & I' & _). exists d, ∅.
    split_and!; [exact E | exact I' | by rewrite size_empty | intros [? | ?]; [done | lia]].
  - exists (tf_disk f), (tf_dirty_pages f).
    assert (set_dirty_pages (tf_dirty_pages f) (set_disk (tf_disk f) f) = f) as -> by (by destruct f).
    by split_and!.
Qed.

(** The marks left when a plan was published after the images were taken. *)
Lemma overtaken_marks f f0 f1 wal M images id :
  cache_filled f f0 -> published (set_wal wal f0) M f1 ->
  batch_pending f (write_pending <$> images) ->
  (forall id, id ∈ tf_dirty_pages f -> current f (write_pending <$> images) id) ->
  (id ∈ dom M ∪ tf_dirty_pages f /\ ~ current f1 (write_pending <$> images) id) <-> id ∈ dom M.
Proof.
  intros C Hpub [_ HP] Hall. pose proof (pb_cache _ _ _ Hpub id) as Hc. pose proof (cf_ptr _ _ C) as Hptr.
  cbn [set_wal tf_page_cache tf_next_ptr] in Hc. split.
  - intros [[? | Hd]%elem_of_union Hn]; [done |]. apply elem_of_dom.
    destruct (M !! id) eqn:EM; [by eexists |]. exfalso. apply Hn.
    destruct (Hall id Hd) as (w & b & Hw & Ew & Hb & Ep). exists w, b. split_and!; try done.
    rewrite Hc. by apply (cf_old _ _ C).
  - intros Hd. split; [by apply elem_of_union_l |]. apply elem_of_dom in Hd as [img EM]. rewrite EM in Hc.
    destruct Hc as (a & Ha & _ & Hap). intros (w & b & Hw & _ & Hb & Ep).
    rewrite Ha in Hb. injection Hb as <-. rewrite Forall_forall in HP.
    destruct (HP w Hw) as [(_ & Hwp & _) _]. lia.
Qed.

End flush.
