(* ===== verification/TsMutate.v ===== *)
(** * Insertions and deletions

    What [insert_batch] and [delete] do to the records of a file. *)

From S2P Require Import Prelude Errors Compat FileOps LogFrame WalFrames WalBackend WalDurability.
From S2P Require Import PageFormat PageBlock RecordSpec RecordMap PageView PageInsert PageRebuild.
From S2P Require Import PageImage PhysLog Replay TsFile Chain TsChain TsRead TsWrite TsPlan TsRow TsPersist.
From S2P Require Import TsState TsFlush.

Definition row_of (r : Rec) : Z * Z * list byte := (r_ts r, r_id r, r_payload r).

(** The records after the insertion of the rows. *)
Definition puts (m : gmap (Z * Z) (list byte)) (rs : list Rec) : gmap (Z * Z) (list byte) :=
  foldl (fun m r => <[rec_key r := r_payload r]> m) m rs.

(** A row that has no room once the rows in front of it are in. *)
Definition rejected (ps : list ChainPage) (rs : list Rec) : Prop :=
  exists done r rest ps1, rs = done ++ r :: rest /\ chain_ordered ps1 /\
    chain_map ps1 = puts (chain_map ps) done /\ accepts ps1 r = false.

Section mutate.
Context `{PackagesOk} `{MsgpackOk PLBatch}.

Lemma inv_ready f ps : file_inv f ps -> file_ready f.
Proof. intros I. destruct (fi_chain _ _ I). by split. Qed.

Lemma plan_start f ps : file_inv f ps -> plan_inv f (mkPlanning f (WriteOverlay_new f)) ps.
Proof.
  intros I. pose proof (fi_chain _ _ I) as F.
  split; cbn [pn_overlay WriteOverlay_new ov_page_count ov_head_page_id ov_tail_page_id ov_page_images pn_file].
  - eapply chain_ext; [| done | done | done | apply F]. intros id. done.
  - by apply file_head_id.
  - by apply file_tail_id.
  - done.
  - intros id Hid. lia.
  - by intros id [? [=]].
  - pose proof (ch_count _ _ _ _ (fc_chain _ _ F)). lia.
Qed.

(** ** A batch of rows *)

Lemma plan_rows_ok f0 (R : file_ready f0) rs : forall s ps,
  plan_inv f0 s ps -> Forall row_ok rs -> ov_page_count (pn_overlay s) + zlen rs <= MAX_PAGES ->
  (exists s' ps', st_iter plan_row_insert (row_of <$> rs) s = (Ok tt, s') /\ plan_inv f0 s' ps' /\
     chain_map ps' = puts (chain_map ps) rs /\ chain_recs ps' ⊆+ rs ++ chain_recs ps /\
     ov_page_count (pn_overlay s') <= ov_page_count (pn_overlay s) + zlen rs) \/
  (exists s', st_iter plan_row_insert (row_of <$> rs) s = (Err InsufficientBufferSpace, s') /\
     cache_filled f0 (pn_file s') /\ rejected ps rs).
Proof.
  induction rs as [| r rs IH]; intros s ps I HF Hmax.
  { left. exists s, ps. split_and!; [done | done | done | done |]. change (zlen (@nil Rec)) with 0. lia. }
  inversion HF as [| ? ? Hr HF']; subst. rewrite zlen_cons in *. pose proof (zlen_nonneg rs).
  pose proof (plan_row_ok f0 R s ps r I Hr ltac:(lia)) as Hrow. rewrite fmap_cons. cbn [st_iter].
  destruct (accepts ps r) eqn:Ha.
  - destruct Hrow as (s1 & ps1 & E & I1 & (Ho & Hm & Hr1) & Hc).
    destruct (IH s1 ps1 I1 HF' ltac:(lia)) as [(s' & ps' & E' & I' & Hm' & Hr' & Hc') | (s' & E' & Hf' & Hrej)].
    + left. exists s', ps'. split_and!; [| done | by rewrite Hm', Hm| | lia]; [st_step by exact E; exact E' |].
      etrans; [exact Hr' |]. cbn [app]. rewrite Permutation_middle. by apply submseteq_skips_l.
    + right. exists s'. split_and!; [| done |]; [st_step by exact E; exact E' |].
      destruct Hrej as (done & r' & rest & ps2 & -> & Ho2 & Hm2 & Ha2).
      exists (r :: done), r', rest, ps2. refine (conj eq_refl (conj Ho2 (conj _ Ha2))).
      rewrite Hm2. by rewrite Hm.
  - destruct Hrow as (s' & E & Hf'). right. exists s'. split_and!; [| done |].
    + apply st_bind_err. exact E.
    + exists [], r, rs, ps. exact (conj eq_refl (conj (ch_ordered _ _ _ _ (pi_chain _ _ _ I)) (conj eq_refl Ha))).
Qed.

(** The log entry of a batch of rows. *)
Definition batch_entry (f : TimeSeriesFile) (rows : list (Z * Z * list byte)) : option PLBatch :=
  match st_iter plan_row_insert rows (mkPlanning f (WriteOverlay_new f)) with
  | (Ok _, s) => match (build_pl_batch (into_plan s) (pn_file s)).1 with Ok b => b | _ => None end
  | _ => None
  end.

Definition log_room (f : TimeSeriesFile) (b : option PLBatch) : Prop :=
  match b with Some batch => logs_entry (tf_wal_backend f) batch | None => True end.

(** The file with the pages of a plan, behind the log entry of the plan. *)
Definition written (now : Z) (f : TimeSeriesFile) (b : option PLBatch) (f' : TimeSeriesFile) : Prop :=
  exists s ps f1 M f2 ops, plan_inv f s ps /\ cache_filled f f1 /\
    Forall2 (op_spec f) (mp_page_writes (into_plan s)) ops /\ b = entry_of_ops (tf_identity f) ops /\
    images_sealed (lsn_after b (tf_wal_backend f)) (ov_page_images (pn_overlay s)) M /\
    published (set_wal (wal_after now b (tf_wal_backend f)) f1) M f2 /\
    f' = set_meta (ov_page_count (pn_overlay s)) ps f2.

(** A plan for the file, published. *)
Lemma persist_inv now f ps s ps' :
  file_inv f ps -> plan_inv f s ps' ->
  exists b f1, build_pl_batch (into_plan s) (pn_file s) = (Ok b, f1) /\
    (log_room f b ->
     exists f' ps'', persist_plan now (into_plan s) (pn_file s) = (Ok tt, f') /\ file_inv f' ps'' /\
       cp_recs <$> ps'' = cp_recs <$> ps' /\ cp_id <$> ps'' = cp_id <$> ps' /\
       tf_page_count f' = ov_page_count (pn_overlay s) /\
       tf_identity f' = tf_identity f /\ tf_wal_backend f' = wal_after now b (tf_wal_backend f) /\
       written now f b f').
Proof.
  intros I Ip. destruct (build_batch_ok f ps s ps' (fi_chain _ _ I) Ip) as (b & f1 & E & Hf1 & ops & Hops & Hb).
  exists b, f1. split; [exact E |]. intros Hlog.
  destruct (persist_ok now f ps s ps' b f1 (fi_chain _ _ I) Ip Hf1 E) as (M & f2 & HM & Hpub & Ep).
  { intros batch ->. exact Hlog. }
  exists (set_meta (ov_page_count (pn_overlay s)) ps' f2), (restamp (lsn_after b (tf_wal_backend f)) M <$> ps').
  destruct (publish_fields f f1 f2 ps' s _ M Hf1 Hpub) as (_ & _ & Ei & _ & _ & Ec & Ew & _).
  split; [exact Ep |]. split; [by eapply published_inv |].
  split_and!; [apply restamp_recs | apply restamp_ids | exact Ec | exact Ei | exact Ew |].
  exists s, ps', f1, M, f2, ops. exact (conj Ip (conj Hf1 (conj Hops (conj Hb (conj HM (conj Hpub eq_refl)))))).
Qed.

Lemma batch_entry_nil f : batch_entry f [] = None.
Proof.
  unfold batch_entry, build_pl_batch, into_plan. cbn [st_iter mret st_ret pn_file pn_overlay
    WriteOverlay_new ov_page_images mp_page_writes]. rewrite map_to_list_empty.
  unfold mbind, st_bind, st_get. by destruct (tf_identity f).
Qed.

(** The batch behind its planning. *)
Lemma insert_planned_ok now f ps rows s ps1 :
  file_inv f ps -> rows <> [] -> log_room f (batch_entry f rows) ->
  st_iter plan_row_insert rows (mkPlanning f (WriteOverlay_new f)) = (Ok tt, s) -> plan_inv f s ps1 ->
  exists f' ps', insert_batch now rows f = (Ok tt, f') /\ file_inv f' ps' /\
    chain_map ps' = chain_map ps1 /\ chain_recs ps' = chain_recs ps1 /\ tf_page_count f' = ov_page_count (pn_overlay s) /\
    Z.of_nat (size (tf_dirty_pages f')) < DIRTY_PAGE_FLUSH_THRESHOLD /\
    tf_identity f' = tf_identity f /\
    tf_wal_backend f' = wal_after now (batch_entry f rows) (tf_wal_backend f) /\
    (tf_dirty_pages f' <> ∅ -> written now f (batch_entry f rows) f').
Proof.
  intros I Hne Hlog E Ip. unfold batch_entry in *. rewrite E in Hlog |- *.
  destruct (persist_inv now f ps s ps1 I Ip) as (b & f1 & Eb & Hper). rewrite Eb in Hlog |- *.
  cbn [fst] in *. destruct (Hper Hlog) as (f' & ps2 & Ep & I' & Hrecs & _ & Hcount & Hid & Hw & Hwr).
  destruct (flush_threshold_ok f' ps2 I') as (d & D & Ef & I2 & HD & Hsame).
  exists (set_dirty_pages D (set_disk d f')), ps2. split_and!; [| done | | | done | done | done | done |].
  - unfold insert_batch. destruct rows as [| w ws]; [done |].
    unfold mbind at 1, st_bind at 1. rewrite E, Ep. exact Ef.
  - by rewrite (chain_map_recs _ _ Hrecs).
  - unfold chain_recs. by rewrite Hrecs.
  - intros HDne. by rewrite (Hsame (or_introl HDne)).
Qed.

Lemma insert_refused now f rows s e :
  rows <> [] -> st_iter plan_row_insert rows (mkPlanning f (WriteOverlay_new f)) = (Err e, s) ->
  insert_batch now rows f = (Err e, pn_file s).
Proof.
  intros Hne E. unfold insert_batch. destruct rows as [| w ws]; [done |].
  unfold mbind, st_bind. by rewrite E.
Qed.

Lemma insert_batch_ok now f ps rs :
  file_inv f ps -> Forall row_ok rs -> tf_page_count f + zlen rs <= MAX_PAGES ->
  log_room f (batch_entry f (row_of <$> rs)) ->
  (exists f' ps', insert_batch now (row_of <$> rs) f = (Ok tt, f') /\ file_inv f' ps' /\
     chain_map ps' = puts (chain_map ps) rs /\ chain_recs ps' ⊆+ rs ++ chain_recs ps /\
     tf_page_count f' <= tf_page_count f + zlen rs /\
     tf_identity f' = tf_identity f /\
     tf_wal_backend f' = wal_after now (batch_entry f (row_of <$> rs)) (tf_wal_backend f) /\
     (rs <> [] -> Z.of_nat (size (tf_dirty_pages f')) < DIRTY_PAGE_FLUSH_THRESHOLD /\
        (tf_dirty_pages f' <> ∅ -> written now f (batch_entry f (row_of <$> rs)) f'))) \/
  (exists f', insert_batch now (row_of <$> rs) f = (Err InsufficientBufferSpace, f') /\
     cache_filled f f' /\ rejected ps rs).
Proof.
  intros I HF Hmax Hlog. destruct (decide (rs = [])) as [-> | Hne].
  { left. exists f, ps. rewrite batch_entry_nil. change (zlen (@nil Rec)) with 0.
    split_and!; [done | done | done | done | lia | done | done | done]. }
  assert (row_of <$> rs <> []) as Hrows by (by destruct rs).
  destruct (plan_rows_ok f (inv_ready _ _ I) rs _ ps (plan_start f ps I) HF Hmax)
    as [(s & ps1 & E & Ip & Hm & Hr & Hc) | (s & E & Hf & Hrej)].
  - left. destruct (insert_planned_ok now f ps _ s ps1 I Hrows Hlog E Ip)
      as (f' & ps' & Ei & I' & Hm' & Hr' & Hc' & Hd & Hid & Hw & Hwr).
    exists f', ps'. split_and!; [done | done | by rewrite Hm' | by rewrite Hr' | rewrite Hc'; exact Hc | done | done | done].
  - right. exists (pn_file s). split_and!; [by apply insert_refused | done | done].
Qed.

(** One row. *)
Lemma insert_row_ok now f ps r :
  file_inv f ps -> row_ok r -> tf_page_count f < MAX_PAGES -> log_room f (batch_entry f [row_of r]) ->
  if accepts ps r then
    exists f' ps', insert_batch now [row_of r] f = (Ok tt, f') /\ file_inv f' ps' /\
      chain_map ps' = <[rec_key r := r_payload r]> (chain_map ps) /\
      tf_page_count f' <= tf_page_count f + 1
  else exists f', insert_batch now [row_of r] f = (Err InsufficientBufferSpace, f') /\ cache_filled f f'.
Proof.
  intros I Hr Hmax Hlog.
  pose proof (plan_row_ok f (inv_ready _ _ I) _ ps r (plan_start f ps I) Hr Hmax) as Hrow.
  destruct (accepts ps r).
  - destruct Hrow as (s & ps1 & E & Ip & (_ & Hm & _) & Hc).
    assert (st_iter plan_row_insert [row_of r] (mkPlanning f (WriteOverlay_new f)) = (Ok tt, s)) as E1
      by (cbn [st_iter]; by st_step by exact E).
    destruct (insert_planned_ok now f ps [row_of r] s ps1 I ltac:(done) Hlog E1 Ip) as (f' & ps' & Ei & I' & Hm' & _ & Hc' & _).
    exists f', ps'. split_and!; [done | done | by rewrite Hm' | rewrite Hc'; exact Hc].
  - destruct Hrow as (s & E & Hf). exists (pn_file s). split; [| done]. apply insert_refused; [done |].
    cbn [st_iter]. by apply st_bind_err.
Qed.

(** ** Deletions *)

(** The log entry of a deletion. *)
Definition delete_batch (f : TimeSeriesFile) (k : Z * Z) (page_id : Z) : option PLBatch :=
  identity ← tf_identity f;
  Some (mkPLBatch [mkPLEntry (pl_file_id identity)
                     [PageDelta_ (mkPageDelta page_id None None [pl_key k] [])]]).

Definition delete_plan (page_id : Z) (image : list byte) : TimeSeriesFileMutationPlan :=
  mkPlan false false [mkPlannedPageWrite page_id image] None None None.

Section delete_page.
Context (f f1 : TimeSeriesFile) (l1 l2 : list ChainPage) (p : ChainPage) (pg : list byte).
Context (i : nat) (r : Rec).
Context (I : file_inv f (l1 ++ p :: l2)) (Hf : cache_filled f f1).
Context (Hpg : page_holds pg (cp_header p) (cp_recs p)) (Himg : file_img f (cp_id p) = Some pg).
Context (Hi : cp_recs p !! i = Some r).

Lemma page_in_chain : p ∈ l1 ++ p :: l2.
Proof. clear. set_solver. Qed.

Lemma page_sorted : keys_sorted (cp_recs p).
Proof. pose proof (ch_ordered _ _ _ _ (fc_chain _ _ (fi_chain _ _ I))) as Ho. by apply ordered_mid in Ho as (_ & ? & _). Qed.

Definition deleted_state (pg' : list byte) : Planning :=
  mkPlanning f1 (ov_set_images (<[cp_id p := pg']> ∅) (WriteOverlay_new f)).

Lemma delete_planned :
  exists pg' h', on_buffer (delete_record (Z.of_nat i)) pg = Ok pg' /\
    page_holds pg' h' (delete i (cp_recs p)) /\ delta_links (cp_header p) h' = None /\
    plan_inv f (deleted_state pg') (l1 ++ mkChainPage h' (delete i (cp_recs p)) :: l2).
Proof.
  pose proof (lookup_lt_Some _ _ _ Hi) as Hlt.
  destruct (delete_record_holds _ _ _ i Hpg Hlt) as (pg' & last & E & Hpg').
  exists pg'. eexists. split; [by apply (on_buffer_ok _ _ tt) |]. split; [exact Hpg' |].
  split; [unfold delta_links; by rewrite decide_True |].
  apply (page_rewritten f (mkPlanning f (WriteOverlay_new f)) f1 l1 p l2);
    [by apply plan_start | exact Hf | by split | exact Hpg' |].
  eapply ordered_sublist; [apply (ch_ordered _ _ _ _ (fc_chain _ _ (fi_chain _ _ I))) | |]; cbn [cp_recs].
  - by apply StronglySorted_delete, page_sorted.
  - intros x Hx. apply list_elem_of_lookup in Hx as [j Hj]. rewrite list_lookup_delete in Hj.
    case_decide; by eapply list_elem_of_lookup_2.
Qed.

Lemma delete_into_plan pg' : into_plan (deleted_state pg') = delete_plan (cp_id p) pg'.
Proof.
  unfold into_plan, deleted_state, delete_plan. cbn [pn_overlay pn_file ov_set_images ov_page_images
    ov_page_count ov_head_page_id ov_tail_page_id WriteOverlay_new].
  rewrite insert_empty, map_to_list_singleton. pose proof (filled_meta_of _ _ Hf) as [= E1 E2 E3].
  unfold head_page_id, tail_page_id. rewrite E1, E2, E3, Z.eqb_refl, !decide_True by done. done.
Qed.

Lemma delete_built pg' h' :
  page_holds pg' h' (delete i (cp_recs p)) -> delta_links (cp_header p) h' = None ->
  exists f2, build_pl_batch (delete_plan (cp_id p) pg') f1 = (Ok (delete_batch f (rec_key r) (cp_id p)), f2).
Proof.
  intros Hpg' Hlinks. destruct (filled_fields _ _ Hf) as (Ei & _ & Eo & _ & _ & Ec & _).
  pose proof (fc_chain _ _ (fi_chain _ _ I)) as C. pose proof page_in_chain as Hp.
  destruct (read_page_ok f1 (cp_id p) pg) as (a & f2 & Er & Ea & _);
    [by rewrite (filled_img _ _ Hf) | rewrite Eo; apply (fi_chain _ _ I) | by apply (chain_max _ _ _ _ C) |].
  unfold build_pl_batch, delete_batch. unfold mbind at 1, st_bind at 1, st_get. rewrite Ei.
  destruct (tf_identity f) as [identity |]; [| by eexists]. exists f2.
  cbn [mp_page_writes delete_plan st_map]. unfold build_pl_op. cbn [pw_image pw_page_id].
  rewrite (hv_len _ _ (page_holds_header _ _ _ Hpg')), Z.eqb_refl. cbn [negb].
  rewrite Ec, (proj2 (Z.leb_gt _ _)) by (pose proof (chain_range _ _ _ _ C p Hp); lia).
  st_step by (st_step by (st_step by exact Er; rewrite Ea; unfold st_lift;
    rewrite (page_record_delta_holds _ _ _ _ _ _ _ Hpg Hpg'), Hlinks, (spec_diff_delete _ _ _ page_sorted Hi);
    reflexivity); reflexivity).
  done.
Qed.

Lemma delete_page_ok now :
  log_room f (delete_batch f (rec_key r) (cp_id p)) ->
  exists pg' f' ps', on_buffer (delete_record (Z.of_nat i)) pg = Ok pg' /\
    persist_plan now (delete_plan (cp_id p) pg') f1 = (Ok tt, f') /\ file_inv f' ps' /\
    chain_map ps' = chain_map (l1 ++ mkChainPage (cp_header p) (delete i (cp_recs p)) :: l2) /\
    tf_page_count f' = tf_page_count f /\ tf_identity f' = tf_identity f /\
    tf_wal_backend f' = wal_after now (delete_batch f (rec_key r) (cp_id p)) (tf_wal_backend f) /\
    written now f (delete_batch f (rec_key r) (cp_id p)) f'.
Proof.
  intros Hlog. destruct delete_planned as (pg' & h' & E & Hpg' & Hlinks & Ip).
  destruct (persist_inv now f _ _ _ I Ip) as (b & f2 & Eb & Hper).
  rewrite delete_into_plan in Eb, Hper. destruct (delete_built pg' h' Hpg' Hlinks) as (f3 & Eb').
  cbn [deleted_state pn_file] in Eb, Hper. rewrite Eb' in Eb. injection Eb as <- <-.
  destruct (Hper Hlog) as (f' & ps' & Ep & I' & Hrecs & _ & Hc & Hid & Hw & Hwr).
  exists pg', f', ps'. split_and!; try done.
  apply chain_map_recs. rewrite Hrecs, !fmap_app. done.
Qed.

End delete_page.

(** What the walk of [delete] leaves behind. *)
Definition deleted (now : Z) (f : TimeSeriesFile) (ps : list ChainPage) (k : Z * Z) (res : bool)
    (f' : TimeSeriesFile) : Prop :=
  match first_page k ps with
  | None => res = false /\ cache_filled f f'
  | Some page_id =>
      exists ps', res = true /\ file_inv f' ps' /\ chain_map ps' = chain_without k ps /\
        tf_page_count f' = tf_page_count f /\ tf_identity f' = tf_identity f /\
        tf_wal_backend f' = wal_after now (delete_batch f k page_id) (tf_wal_backend f) /\
        written now f (delete_batch f k page_id) f'
  end.

Lemma visit_inv f f1 ps l1 p l2 :
  file_inv f ps -> cache_filled f f1 -> ps = l1 ++ p :: l2 ->
  exists a f2, read_page (cp_id p) f1 = (Ok a, f2) /\ cache_filled f f2 /\
    page_holds (arc_data a) (cp_header p) (cp_recs p) /\ file_img f (cp_id p) = Some (arc_data a) /\
    try_new (arc_data a) = Ok (arc_data a) /\
    timestamp_bounds (arc_data a) = Ok (ts_bounds (cp_recs p)) /\
    active_next_page (arc_data a) = Ok (head_id l2).
Proof.
  intros I Hf E. pose proof (filled_chain _ _ _ Hf (fi_chain _ _ I)) as F1.
  destruct (visit_page f1 ps l1 p l2 F1 E) as (a & f2 & Er & Hf2 & Hp & Et & Eb & En).
  exists a, f2. split_and!; try done; [by etrans |].
  assert (p ∈ ps) as Hin by (subst; clear; set_solver).
  pose proof (fc_chain _ _ F1) as C1.
  destruct (chain_page _ _ _ _ C1 p Hin) as (pg & Hi & Hpg).
  destruct (read_page_ok f1 (cp_id p) pg Hi (fc_open _ _ F1) (chain_max _ _ _ _ C1 p Hin))
    as (a' & f' & Er' & <- & _).
  rewrite Er in Er'. injection Er' as -> _. by rewrite (filled_img _ _ Hf) in Hi.
Qed.

Lemma delete_loop_ok now k l2 : forall f f1 l1 fuel,
  file_inv f (l1 ++ l2) -> cache_filled f f1 -> (length l2 < fuel)%nat -> chain_map l1 !! k = None ->
  log_room f (first_page k (l1 ++ l2) ≫= delete_batch f k) ->
  exists res f', delete_loop fuel now (head_id l2) k.1 k.2 f1 = (Ok res, f') /\
    deleted now f (l1 ++ l2) k res f'.
Proof.
  induction l2 as [| p l2 IH]; intros f f1 l1 fuel I Hf Hfuel Hk Hlog.
  { exists false, f1. rewrite app_nil_r in *. split; [by destruct fuel |]. unfold deleted.
    by rewrite (proj2 (first_page_none k l1) Hk). }
  destruct fuel as [| fuel]; [lia |].
  destruct (visit_inv f f1 _ l1 p l2 I Hf eq_refl) as (a & f2 & Er & Hf2 & Hpg & Hi & Et & Eb & En).
  pose proof (ch_ordered _ _ _ _ (fc_chain _ _ (fi_chain _ _ I))) as Ho.
  pose proof Ho as (_ & Hs & _ & _ & Hge & _)%ordered_mid.
  assert (cp_map p !! k = None -> exists res f',
    (next ← st_lift (active_next_page (arc_data a)); delete_loop fuel now next k.1 k.2) f2 = (Ok res, f') /\
    deleted now f (l1 ++ p :: l2) k res f') as Hnext.
  { intros Hn. assert (l1 ++ p :: l2 = (l1 ++ [p]) ++ l2) as Eps by (by rewrite <- app_assoc).
    rewrite Eps in I, Hlog |- *.
    destruct (IH f f2 (l1 ++ [p]) fuel I Hf2) as (res & f' & E & Hd); [cbn in Hfuel; lia | | exact Hlog |].
    - rewrite chain_map_app, lookup_union, Hk, (left_id_L None (∪)), chain_map_cons, lookup_union, Hn. done.
    - exists res, f'. split; [| exact Hd]. st_step by (unfold st_lift; rewrite En; reflexivity). exact E. }
  cbn [head_id head fmap option_fmap option_map delete_loop].
  change (cp_id <$> Some p) with (Some (cp_id p)). cbv iota.
  st_step by exact Er. st_step by (unfold st_lift; rewrite Et; reflexivity).
  st_step by (unfold st_lift; rewrite Eb; reflexivity). cbv zeta.
  destruct (ts_bounds (cp_recs p)) as [[mn mx] |] eqn:Ebounds.
  2:{ apply Hnext. unfold cp_map. by rewrite (ts_bounds_none _ Ebounds). }
  destruct (ts_bounds_some _ _ _ Hs Ebounds) as (Hb & _ & (b & Hbm & Hmx)).
  destruct (Z.ltb_spec mx k.1) as [Hlt | Hle].
  { exists false, f2. split; [done |]. unfold deleted.
    assert (chain_map (l1 ++ p :: l2) !! k = None) as Hn.
    { rewrite chain_map_app, lookup_union, Hk, (left_id_L None (∪)). destruct k as [ts id].
      apply chain_map_older. constructor.
      - apply Forall_forall. intros r Hr. specialize (Hb r Hr). cbn in Hlt. lia.
      - eapply ordered_older; [by apply Forall_forall | exact Hbm | cbn in Hlt; lia]. }
    by rewrite (proj2 (first_page_none k _) Hn). }
  destruct (Z.ltb_spec k.1 mn) as [Hlt | Hle'].
  { apply Hnext, cp_map_none. intros r Hr. specialize (Hb r Hr). lia. }
  st_step by (unfold st_lift; rewrite (find_slot_index_holds _ _ _ Hpg); reflexivity).
  destruct (spec_find k.1 k.2 (cp_recs p)) as [j |] eqn:Efind.
  2:{ apply Hnext. destruct k. by apply spec_find_map. }
  destruct (spec_find_lookup _ _ _ _ Efind) as (r & Hj & Hr & Hrk). rewrite <- surjective_pairing in Hrk.
  assert (cp_map p !! k = Some (r_payload r)) as Hkp
    by (rewrite <- Hrk; apply to_map_lookup; [exact Hs | by eapply list_elem_of_lookup_2]).
  assert (first_page k (l1 ++ p :: l2) = Some (cp_id p)) as Efp
    by (rewrite first_page_app by exact Hk; cbn [first_page]; by rewrite Hkp).
  rewrite Efp in Hlog. cbn [mbind option_bind] in Hlog. rewrite <- Hrk in Hlog.
  destruct (delete_page_ok f f2 l1 l2 p (arc_data a) (Z.to_nat j) r I Hf2 Hpg Hi Hr now Hlog)
    as (pg' & f' & ps' & Ed & Ep & I' & Hm & Hc & Hid & Hw & Hwr).
  rewrite Z2Nat.id in Ed by exact Hj. cbv iota.
  exists true, f'. split.
  - st_step by (unfold st_lift; rewrite Ed; reflexivity). by st_step by exact Ep.
  - unfold deleted. rewrite Efp. exists ps'. rewrite Hrk in Hw, Hwr. split_and!; try done.
    rewrite Hm. apply chain_without_at; [exact Hk | by rewrite Hkp |].
    unfold cp_map at 1. cbn [cp_recs]. rewrite <- Hrk. by apply to_map_delete.
Qed.

Lemma file_delete_ok now f ps k :
  file_inv f ps -> log_room f (first_page k ps ≫= delete_batch f k) ->
  exists f' ps', file_delete now k.1 k.2 f = (Ok (bool_decide (is_Some (chain_map ps !! k))), f') /\
    file_inv f' ps' /\ chain_map ps' = chain_without k ps /\
    tf_page_count f' = tf_page_count f /\ tf_identity f' = tf_identity f /\
    tf_wal_backend f' = wal_after now (first_page k ps ≫= delete_batch f k) (tf_wal_backend f) /\
    Z.of_nat (size (tf_dirty_pages f')) < DIRTY_PAGE_FLUSH_THRESHOLD /\
    (is_Some (first_page k ps) -> tf_dirty_pages f' <> ∅ ->
     written now f (first_page k ps ≫= delete_batch f k) f') /\
    (first_page k ps = None -> Z.of_nat (size (tf_dirty_pages f)) < DIRTY_PAGE_FLUSH_THRESHOLD ->
     cache_filled f f').
Proof.
  intros I Hlog. pose proof (fi_chain _ _ I) as F.
  destruct (delete_loop_ok now k ps f f [] (chain_fuel (tf_page_count f)) I)
    as (res & f1 & E & Hd); [done | by apply chain_fuel_enough | done | exact Hlog |].
  cbn [app] in Hd. unfold deleted in Hd.
  assert (exists ps', res = bool_decide (is_Some (chain_map ps !! k)) /\ file_inv f1 ps' /\
    chain_map ps' = chain_without k ps /\ tf_page_count f1 = tf_page_count f /\
    tf_identity f1 = tf_identity f /\
    tf_wal_backend f1 = wal_after now (first_page k ps ≫= delete_batch f k) (tf_wal_backend f) /\
    (is_Some (first_page k ps) -> written now f (first_page k ps ≫= delete_batch f k) f1) /\
    (first_page k ps = None -> cache_filled f f1 /\ tf_dirty_pages f1 = tf_dirty_pages f))
    as (ps' & -> & I1 & Hm & Hc & Hid & Hw & Hwr & Hno).
  { destruct (first_page k ps) as [page_id |] eqn:Efp.
    - destruct Hd as (ps' & -> & I1 & Hm & Hrest). exists ps'. split_and!; try done; try apply Hrest; [| intros _; apply Hrest].
      rewrite bool_decide_true; [done |]. destruct (chain_map ps !! k) eqn:Ek; [by eexists |].
      apply first_page_none in Ek. congruence.
    - destruct Hd as [-> Hf]. apply first_page_none in Efp as Ek. exists ps.
      destruct (filled_fields _ _ Hf) as (Ei & _ & _ & Ew & _ & Ec & _).
      split_and!; [by rewrite Ek | by eapply filled_inv | by rewrite chain_without_none | done | done | by rewrite Ew | |].
      + by intros [? [=]].
      + intros _. split; [exact Hf |]. by destruct (filled_fields _ _ Hf) as (_ & _ & _ & _ & ? & _). }
  destruct (flush_threshold_ok f1 ps' I1) as (d & D & Ef & I2 & HD & Hsame).
  exists (set_dirty_pages D (set_disk d f1)), ps'. split_and!; try done;
    [| by intros Hfp HDne; rewrite (Hsame (or_introl HDne)); apply Hwr
     | intros Hfp Hlt; rewrite Hsame; [exact (proj1 (Hno Hfp)) | right; by rewrite (proj2 (Hno Hfp))]].
  unfold file_delete. st_step by reflexivity. rewrite (file_head_id _ _ F).
  st_step by exact E. by st_step by exact Ef.
Qed.

End mutate.
