(* ===== verification/TsOpen.v ===== *)
(** * Opening a file

    Opening the data file of a flushed chain finds the chain again, and
    whatever bytes the file has, the walk over the pages ends and accepts
    nothing but a chain of all of them. *)

From S2P Require Import Prelude Errors Compat FileOps LogFrame WalFrames WalBackend WalDurability.
From S2P Require Import PageFormat PageBlock RecordSpec RecordMap PageView PageInsert PageRebuild PageValidate.
From S2P Require Import PageImage PhysLog Replay TsFile Chain TsChain TsRead TsWrite TsPlan TsRow TsPersist.
From S2P Require Import TsState TsFlush.

(** ** What opening accepts *)

Definition unseen (visited : list bool) : nat := length (filter (fun b => b = false) visited).

Lemma unseen_mark visited i :
  visited !! i = Some false -> unseen visited = S (unseen (<[i := true]> visited)).
Proof.
  intros Hi. unfold unseen. rewrite <- (take_drop_middle visited i false Hi) at 1.
  rewrite insert_take_drop by (by eapply lookup_lt_Some).
  rewrite !filter_app, !length_app, filter_cons_True, filter_cons_False by done. cbn. lia.
Qed.

Section accepted.
Context `{PackagesOk}.

(** Following the links to the next page from [a] leads to [x]. *)
Inductive next_path (headers : list PageHeader) : Z -> Z -> Prop :=
| path_here a : next_path headers a a
| path_next a h x :
    headers !! Z.to_nat a = Some h -> ph_next_page h <> NONE_PAGE_ID ->
    next_path headers (ph_next_page h) x -> next_path headers a x.

(** Each of the pages links to the one behind it and back, and the last one
    is the end. *)
Fixpoint links (headers : list PageHeader) (ids : list Z) : Prop :=
  match ids with
  | [] => False
  | a :: rest =>
      exists ha, headers !! Z.to_nat a = Some ha /\
        match rest with
        | [] => ph_next_page ha = NONE_PAGE_ID
        | b :: _ => ph_next_page ha = b /\
            (exists hb, headers !! Z.to_nat b = Some hb /\ ph_prev_page hb = a) /\ links headers rest
        end
  end.

(** The records of page [b] are not newer than those of page [a]. *)
Definition not_newer (file : list byte) (a b : Z) : Prop :=
  forall sa sb s t, slots (page_at file a) = Ok sa -> slots (page_at file b) = Ok sb -> s ∈ sa -> t ∈ sb ->
    sl_timestamp t <= sl_timestamp s.

Definition slot_bounds (ss : list RecordSlot) : option (Z * Z) :=
  match head ss, last ss with Some a, Some b => Some (sl_timestamp a, sl_timestamp b) | _, _ => None end.

Lemma timestamp_bounds_scan pg h ss : page_scan pg h ss -> timestamp_bounds pg = Ok (slot_bounds ss).
Proof.
  intros R. pose proof (ps_view _ _ _ R) as V. unfold timestamp_bounds, slot_bounds.
  rewrite (slot_count_view _ _ _ V). cbn [mbind res_bind].
  destruct (decide (ss = [])) as [-> | Hne]; [done |].
  assert (0 < length ss)%nat as Hpos by (destruct ss; [done | cbn; lia]).
  rewrite (proj2 (Z.eqb_neq _ _)) by (unfold zlen; lia).
  destruct (lookup_lt_is_Some_2 ss 0) as [a Ha]; [lia |].
  destruct (lookup_lt_is_Some_2 ss (length ss - 1)) as [b Hb]; [lia |].
  change 0 with (Z.of_nat 0). rewrite (slot_ref_view _ _ _ V _ _ Ha). cbn [mbind res_bind].
  replace (zlen ss - 1) with (Z.of_nat (length ss - 1)) by (unfold zlen; lia).
  rewrite (slot_ref_view _ _ _ V _ _ Hb). cbn [mbind res_bind].
  rewrite head_lookup, Ha, last_lookup. replace (pred (length ss)) with (length ss - 1)%nat by lia. rewrite Hb.
  by rewrite (proj1 (ref_fields a (view_slot_ok _ _ _ V _ _ Ha))), (proj1 (ref_fields b (view_slot_ok _ _ _ V _ _ Hb))).
Qed.

Lemma slot_bounds_none ss : slot_bounds ss = None -> ss = [].
Proof.
  unfold slot_bounds. destruct ss as [| a ss]; [done |]. cbn [head]. destruct (last (a :: ss)) eqn:E; [done |].
  by apply last_None in E.
Qed.

Lemma slot_bounds_some ss mn mx s :
  StronglySorted slot_leP ss -> slot_bounds ss = Some (mn, mx) -> s ∈ ss -> mn <= sl_timestamp s <= mx.
Proof.
  intros Hs Hb [i Hi]%list_elem_of_lookup. unfold slot_bounds in Hb. rewrite head_lookup, last_lookup in Hb.
  pose proof (lookup_lt_Some _ _ _ Hi). destruct (ss !! 0%nat) as [a |] eqn:Ea; [| done].
  destruct (ss !! pred (length ss)) as [b |] eqn:Eb; [| done]. injection Hb as <- <-.
  split; [apply (sorted_timestamps ss 0 i) | apply (sorted_timestamps ss i (pred (length ss)))]; try done; lia.
Qed.

(** The page [id] was read and validated. *)
Definition loaded (file : list byte) (id : Z) (h : PageHeader) : Prop :=
  page_offset id = Ok (id * PAGE_SIZE) /\ read_exact_at (id * PAGE_SIZE) PAGE_SIZE file = Ok (page_at file id) /\
  try_new (page_at file id) = Ok (page_at file id) /\ exists ss, page_scan (page_at file id) h ss.

Lemma load_header_inv file hash id h : 0 <= id -> load_header file hash id = Ok h -> loaded file id h.
Proof.
  intros Hid E. unfold load_header in E. apply res_bind_inv in E as (off & Eoff & E).
  apply res_bind_inv in E as (buf & Ebuf & E). apply res_bind_inv in E as (page & Epage & E).
  apply res_bind_inv in E as ([] & Ev & E). apply res_bind_inv in E as (h' & Eh & E).
  unfold page_offset in Eoff. destruct (Z.leb_spec (id * PAGE_SIZE) U64_MAX); [| done]. injection Eoff as <-.
  pose proof Ebuf as Er. unfold read_exact_at in Er. destruct (Z.leb_spec (id * PAGE_SIZE + PAGE_SIZE) (zlen file)); [| done].
  injection Er as <-. fold (page_at file id) in *.
  assert (zlen (page_at file id) = PAGE_SIZE) as Hl by (apply zlen_zsub; plia).
  assert (page = page_at file id) as ->.
  { unfold try_new, ensure_latest_page in Epage. destruct (zlen _ <? _); [done |].
    apply res_bind_inv in Epage as (v & _ & Ep). apply res_bind_inv in Ep as ([] & Ec & Ep).
    unfold check_version, contains in Ec. cbn [supported_versions vr_min vr_max] in Ec. unfold PAGE_CURRENT_VERSION in *.
    destruct ((1 <=? v) && (v <=? 1)) eqn:Ev1; [| done]. replace (v =? 1) with true in Ep by lia. by injection Ep as <-. }
  destruct (validate_layout_inv _ Hl Ev) as (h0 & ss & R & _).
  rewrite (header_view_decode _ _ (pv_header _ _ _ (ps_view _ _ _ R))) in Eh. injection Eh as <-.
  destruct (_ && _) in E; [done |]. destruct (_ && _) in E; [done |]. injection E as <-.
  split_and!; [| done | done | by exists ss]. unfold page_offset. by rewrite (proj2 (Z.leb_le _ _)).
Qed.

Lemma loaded_bounds file id h : loaded file id h ->
  exists ss, slots (page_at file id) = Ok ss /\ StronglySorted slot_leP ss /\ timestamp_bounds (page_at file id) = Ok (slot_bounds ss).
Proof.
  intros (_ & _ & _ & ss & R). exists ss. split_and!; [by eapply slots_view, R | apply R | by eapply timestamp_bounds_scan].
Qed.

Lemma loaded_next file id h : loaded file id h -> 0 <= ph_next_page h /\ id < NONE_PAGE_ID.
Proof.
  intros (Ho & _ & _ & ss & R). pose proof (hk_next _ (hv_ok _ _ (pv_header _ _ _ (ps_view _ _ _ R)))) as [].
  unfold page_offset in Ho. destruct (Z.leb_spec (id * PAGE_SIZE) U64_MAX); [| done]. split; [lia |].
  unfold NONE_PAGE_ID. assert (PAGE_SIZE = 4096) by done. unfold U64_MAX in *. lia.
Qed.

Section walk.
Context (file : list byte) (headers : list PageHeader).
Context (Hloaded : forall id h, 0 <= id -> headers !! Z.to_nat id = Some h -> loaded file id h).

Definition below (m : option Z) (id : Z) : Prop :=
  forall n ss s, m = Some n -> slots (page_at file id) = Ok ss -> s ∈ ss -> sl_timestamp s <= n.

(** What the bounds of a page say about the pages behind it. *)
Lemma bounds_checked id h ss m m' ids :
  loaded file id h -> slots (page_at file id) = Ok ss -> StronglySorted slot_leP ss ->
  match slot_bounds ss with
  | Some (min_ts, page_max) =>
      match m with
      | Some prev_min => if prev_min <? page_max then Err Decode else Ok (Some min_ts)
      | None => Ok (Some min_ts)
      end
  | None => Ok m
  end = (Ok m' : RS (option Z)) ->
  Forall (below m') ids -> Forall (not_newer file id) ids /\ Forall (below m) (id :: ids).
Proof.
  intros Hl Hss Hsort Em Hids. destruct (slot_bounds ss) as [[mn mx] |] eqn:Eb.
  - assert (m' = Some mn /\ forall n, m = Some n -> mx <= n) as [-> Hm].
    { destruct m as [n |]; [| by injection Em as <-]. destruct (Z.ltb_spec n mx); [done |]. injection Em as <-.
      split; [done |]. by intros ? [= <-]. }
    assert (forall s, s ∈ ss -> mn <= sl_timestamp s <= mx) as Hb by (intros s; by apply slot_bounds_some).
    assert (mn <= mx).
    { destruct ss as [| s ss']; [done |]. specialize (Hb s ltac:(by left)). lia. }
    split; [| constructor].
    + eapply Forall_impl; [exact Hids |]. intros b Hbelow sa sb s t Ea Eb' Hs Ht. rewrite Hss in Ea. injection Ea as <-.
      specialize (Hbelow mn sb t eq_refl Eb' Ht). specialize (Hb s Hs). lia.
    + intros n sa s Hn Ea Hs. rewrite Hss in Ea. injection Ea as <-. specialize (Hm n Hn). specialize (Hb s Hs). lia.
    + eapply Forall_impl; [exact Hids |]. intros b Hbelow n sb t Hn Eb' Ht. specialize (Hbelow mn sb t eq_refl Eb' Ht).
      specialize (Hm n Hn). lia.
  - injection Em as ->. apply slot_bounds_none in Eb as ->. split; [| constructor; [| done]].
    + eapply Forall_impl; [exact Hids |]. intros b _ sa sb s t Ea _ Hs. rewrite Hss in Ea. injection Ea as <-. set_solver.
    + intros n sa s _ Ea Hs. rewrite Hss in Ea. injection Ea as <-. set_solver.
Qed.

Lemma index_inv {A} (l : list A) i a : index l i = Ok a -> l !! Z.to_nat i = Some a.
Proof. unfold index. destruct (l !! Z.to_nat i); congruence. Qed.

Lemma index_out {A} (l : list A) i : 0 <= i -> index l i = Panic -> Z.of_nat (length l) <= i.
Proof. intros Hi. unfold index. destruct (l !! Z.to_nat i) eqn:E; [done |]. apply lookup_ge_None in E. lia. Qed.

Lemma index_no_err {A} (l : list A) i e : index l i <> Err e.
Proof. unfold index. by destruct (l !! Z.to_nat i). Qed.

(** The pages a walk from [current] has visited. *)
Record walked (current : Z) (visited visited' : list bool) (m : option Z) (ids : list Z) : Prop := mk_walked {
  wk_head : head ids = Some current;
  wk_links : links headers ids;
  wk_nodup : NoDup ids;
  wk_new : Forall (fun id => 0 <= id /\ visited !! Z.to_nat id = Some false) ids;
  wk_visited : forall i, visited' !! i = Some true -> visited !! i = Some true \/ Z.of_nat i ∈ ids;
  wk_length : length visited' = length visited;
  wk_order : StronglySorted (not_newer file) ids;
  wk_below : Forall (below m) ids;
}.

Lemma walked_cons current h visited visited' m m' ids next :
  0 <= current -> visited !! Z.to_nat current = Some false ->
  headers !! Z.to_nat current = Some h -> ph_next_page h = next ->
  (exists hn, headers !! Z.to_nat next = Some hn /\ ph_prev_page hn = current) ->
  walked next (<[Z.to_nat current := true]> visited) visited' m' ids ->
  Forall (not_newer file current) ids /\ Forall (below m) (current :: ids) ->
  walked current visited visited' m (current :: ids).
Proof.
  intros Hc Hv Hh Hn Hback [W1 W2 W3 W4 W5 W6 W7 W8] [Hnn Hb]. split; try done.
  - destruct ids as [| b ids]; [done |]. injection W1 as ->. exists h. split_and!; done.
  - constructor; [| done]. intros Hin. rewrite Forall_forall in W4. destruct (W4 _ Hin) as [_ Hx].
    rewrite list_lookup_insert_eq in Hx by (by eapply lookup_lt_Some). done.
  - constructor; [done |]. eapply Forall_impl; [exact W4 |]. intros id [Hid Hx]. split; [done |].
    destruct (decide (Z.to_nat id = Z.to_nat current)) as [E | Hne].
    + rewrite E, list_lookup_insert_eq in Hx by (by eapply lookup_lt_Some). done.
    + by rewrite list_lookup_insert_ne in Hx.
  - intros i [Hi | Hi]%W5; [| right; by right]. destruct (decide (i = Z.to_nat current)) as [-> | Hne].
    + right. rewrite Z2Nat.id by done. by left.
    + rewrite list_lookup_insert_ne in Hi by done. by left.
  - by rewrite W6, length_insert.
  - by constructor.
Qed.

Lemma walk_sound : forall fuel current visited m,
  0 <= current -> length visited = length headers -> (unseen visited < fuel)%nat ->
  match walk_chain fuel file headers current visited m with
  | Ok visited' => exists ids, walked current visited visited' m ids
  | Err _ => True
  | Panic => exists x, next_path headers current x /\ Z.of_nat (length headers) <= x
  end.
Proof.
  induction fuel as [| fuel IH]; intros current visited m Hc Hlen Hfuel; [lia |]. cbn [walk_chain].
  destruct (index visited current) as [[|] | |] eqn:Ei; [done | | done |]; cbn [mbind res_bind].
  2:{ exists current. split; [constructor |]. rewrite <- Hlen. by apply index_out. }
  apply index_inv in Ei. rewrite (unseen_mark _ _ Ei) in Hfuel.
  destruct (lookup_lt_is_Some_2 headers (Z.to_nat current)) as [h Hh]; [rewrite <- Hlen; by eapply lookup_lt_Some |].
  assert (index headers current = Ok h) as -> by (unfold index; by rewrite Hh). cbn [mbind res_bind].
  pose proof (Hloaded _ _ Hc Hh) as Hl. destruct (loaded_next _ _ _ Hl) as [Hn0 _].
  destruct (loaded_bounds _ _ _ Hl) as (ss & Hss & Hsort & Hbounds). pose proof Hl as (Eo & Er & Et & _).
  destruct (Z.eqb_spec (ph_next_page h) NONE_PAGE_ID) as [En | Hn]; cbn [negb].
  - cbn [mbind res_bind]. rewrite Eo. cbn [mbind res_bind]. rewrite Er. cbn [mbind res_bind]. rewrite Et.
    cbn [mbind res_bind]. rewrite Hbounds. cbn [mbind res_bind].
    match goal with |- context [mbind _ ?c] => destruct c as [m' | |] eqn:Em end; [| done | destruct (slot_bounds ss) as [[]|], m; try destruct (_ <? _); done].
    cbn [mbind res_bind]. destruct (bounds_checked current h ss m m' [] Hl Hss Hsort Em ltac:(done)) as [_ Hb].
    exists [current]. split; try done.
    + by exists h.
    + by apply NoDup_singleton.
    + constructor; [done | constructor].
    + intros i Hi. destruct (decide (i = Z.to_nat current)) as [-> | Hne]; [right; rewrite Z2Nat.id by done; by left |].
      rewrite list_lookup_insert_ne in Hi by done. by left.
    + by rewrite length_insert.
    + repeat constructor.
  - destruct (index headers (ph_next_page h)) as [hn | e |] eqn:Enext; cbn [mbind res_bind].
    2:{ by apply index_no_err in Enext. }
    2:{ exists (ph_next_page h). split; [by eapply path_next; [| | constructor] | by apply index_out]. }
    apply index_inv in Enext. destruct (Z.eqb_spec (ph_prev_page hn) current) as [Ep |]; cbn [negb mbind res_bind]; [| done].
    rewrite Eo. cbn [mbind res_bind]. rewrite Er. cbn [mbind res_bind]. rewrite Et.
    cbn [mbind res_bind]. rewrite Hbounds. cbn [mbind res_bind].
    match goal with |- context [mbind _ ?c] => destruct c as [m' | |] eqn:Em end; [| done | destruct (slot_bounds ss) as [[]|], m; try destruct (_ <? _); done].
    cbn [mbind res_bind].
    specialize (IH (ph_next_page h) (<[Z.to_nat current := true]> visited) m' Hn0 ltac:(by rewrite length_insert) ltac:(lia)).
    destruct (walk_chain fuel _ _ _ _ _) as [visited' | |]; [| done |].
    + destruct IH as [ids W]. exists (current :: ids). eapply walked_cons; try done; [by exists hn |].
      eapply bounds_checked; try done. apply (wk_below _ _ _ _ _ W).
    + destruct IH as (x & Hx & Hout). exists x. split; [by eapply path_next | done].
Qed.

End walk.

Lemma headers_loaded file hash page_count headers :
  0 <= page_count -> mapM (load_header file hash) (seqZ 0 page_count) = Ok headers ->
  Z.of_nat (length headers) = page_count /\
  forall id h, 0 <= id -> headers !! Z.to_nat id = Some h -> loaded file id h.
Proof.
  intros Hc E. apply mapM_res_inv in E. pose proof (Forall2_length _ _ _ E) as Hl. rewrite length_seqZ in Hl. split; [lia |].
  intros id h Hid Hh. pose proof (lookup_lt_Some _ _ _ Hh).
  eapply Forall2_lookup_lr in E; [| apply (lookup_seqZ_lt 0 page_count (Z.to_nat id)); lia | exact Hh].
  cbv beta in E. rewrite Z2Nat.id, Z.add_0_l in E by done.
  by eapply load_header_inv.
Qed.

Lemma links_prev headers ids id h :
  links headers ids -> id ∈ ids -> headers !! Z.to_nat id = Some h -> head ids = Some id \/ ph_prev_page h ∈ ids.
Proof.
  induction ids as [| a ids IH]; intros Hl Hin Hh; [done |]. apply elem_of_cons in Hin as [-> | Hin]; [by left | right].
  destruct Hl as (ha & _ & Hl). destruct ids as [| b ids]; [set_solver |]. destruct Hl as (_ & (hb & Hb & Hp) & Hl).
  destruct (IH Hl Hin Hh) as [[= ->] | Hin']; [| by right]. rewrite Hh in Hb. injection Hb as <-. rewrite Hp. by left.
Qed.

Lemma links_last headers ids :
  links headers ids -> exists id h, last ids = Some id /\ headers !! Z.to_nat id = Some h /\ ph_next_page h = NONE_PAGE_ID.
Proof.
  induction ids as [| a ids IH]; intros Hl; [done |]. destruct Hl as (ha & Ha & Hl). destruct ids as [| b ids]; [by exists a, ha |].
  destruct Hl as (_ & _ & Hl). by apply IH.
Qed.

Lemma filtered_id (Q : PageHeader -> Prop) `{!forall h, Decision (Q h)} headers x h :
  ph_page_id <$> filter Q headers = [x] -> h ∈ headers -> Q h -> x = ph_page_id h.
Proof.
  intros E Hin HQ. assert (ph_page_id h ∈ [x]) as ->%list_elem_of_singleton; [| done].
  rewrite <- E. apply list_elem_of_fmap_2, list_elem_of_filter. done.
Qed.

(** The pages in the order of the links. *)
Record chain_found (file : list byte) (headers : list PageHeader) (head_id : option Z) (tail_id : option Z) (ids : list Z) : Prop :=
  mk_chain_found {
  cf_all : ids ≡ₚ seqZ 0 (Z.of_nat (length headers));
  cf_head : head ids = head_id;
  cf_start : forall id h, head ids = Some id -> headers !! Z.to_nat id = Some h -> ph_prev_page h = NONE_PAGE_ID;
  cf_links : links headers ids;
  cf_tail : exists id h, last ids = Some id /\ headers !! Z.to_nat id = Some h /\ tail_id = Some (ph_page_id h);
  cf_order : StronglySorted (not_newer file) ids;
}.

Lemma all_visited (headers : list PageHeader) (visited : list bool) ids :
  existsb negb visited = false -> length visited = length headers -> NoDup ids ->
  Forall (fun id => 0 <= id /\ replicate (length headers) false !! Z.to_nat id = Some false) ids ->
  (forall i, visited !! i = Some true -> replicate (length headers) false !! i = Some true \/ Z.of_nat i ∈ ids) ->
  ids ≡ₚ seqZ 0 (Z.of_nat (length headers)).
Proof.
  intros Hall Hlen Hnd Hin Hv. apply NoDup_Permutation; [done | apply NoDup_seqZ |]. intros id. rewrite elem_of_seqZ. split.
  - intros Hid. rewrite Forall_forall in Hin. destruct (Hin id Hid) as [H0 Hx]. apply lookup_replicate in Hx as [_ Hx]. lia.
  - intros Hid. destruct (lookup_lt_is_Some_2 visited (Z.to_nat id)) as [b Hb]; [lia |].
    assert (b = true) as ->.
    { destruct b; [done |]. exfalso. assert (existsb negb visited = true) as Hx; [| congruence].
      apply existsb_exists. exists false. split; [by apply list_elem_of_In, list_elem_of_lookup_2 with (Z.to_nat id) | done]. }
    destruct (Hv _ Hb) as [Hr | Hr]; [by apply lookup_replicate in Hr as [? _] |]. by rewrite Z2Nat.id in Hr by lia.
Qed.

Lemma load_chain_sound file page_count hash headers :
  0 < page_count -> mapM (load_header file hash) (seqZ 0 page_count) = Ok headers ->
  match load_chain_metadata file page_count hash with
  | Ok (head, tail) => exists ids, chain_found file headers head tail ids
  | Err _ => True
  | Panic => exists h x, h ∈ headers /\ ph_prev_page h = NONE_PAGE_ID /\ next_path headers (ph_page_id h) x /\ page_count <= x
  end.
Proof.
  intros Hc Eh. pose proof (headers_loaded file hash page_count headers (Z.lt_le_incl _ _ Hc) Eh) as [Hlen Hloaded].
  unfold load_chain_metadata. assert ((page_count =? 0) = false) as -> by lia. rewrite Eh. cbn [mbind res_bind].
  destruct (ph_page_id <$> filter (fun h => ph_prev_page h = NONE_PAGE_ID) headers) as [| hid [|]] eqn:Eheads; [done | | done].
  destruct (ph_page_id <$> filter (fun h => ph_next_page h = NONE_PAGE_ID) headers) as [| tid [|]] eqn:Etails; [done | | done].
  assert (hid ∈ ph_page_id <$> filter (fun h => ph_prev_page h = NONE_PAGE_ID) headers) as (h0 & Eid & [Hp0 Hin0]%list_elem_of_filter)%list_elem_of_fmap_1
    by (rewrite Eheads; by left).
  pose proof Hin0 as [i0 Hi0]%list_elem_of_lookup.
  assert (0 <= hid) as Hhid.
  { rewrite Eid. destruct (Hloaded (Z.of_nat i0) h0) as (_ & _ & _ & ss & R); [lia | by rewrite Nat2Z.id |].
    apply (hk_page_id _ (hv_ok _ _ (pv_header _ _ _ (ps_view _ _ _ R)))). }
  pose proof (walk_sound file headers Hloaded (chain_fuel page_count) hid (replicate (length headers) false) None Hhid) as Hw.
  replace (Z.to_nat page_count) with (length headers) by lia.
  destruct (walk_chain _ _ _ _ _ _) as [visited | |]; cbn [mbind res_bind]; [| done |].
  - destruct Hw as [ids W]; [apply length_replicate | |].
    { pose proof (length_filter (fun b : bool => b = false) (replicate (length headers) false)) as Hl.
      rewrite length_replicate in Hl. unfold unseen, chain_fuel. lia. }
    destruct (existsb negb visited) eqn:Ev; [done |]. exists ids.
    assert (ids ≡ₚ seqZ 0 (Z.of_nat (length headers))) as Hperm
      by (apply (all_visited headers visited); [done | by rewrite (wk_length _ _ _ _ _ _ _ W), length_replicate | apply W | apply W | apply W]).
    destruct (links_last _ _ (wk_links _ _ _ _ _ _ _ W)) as (tl & ht & Elast & Etl & Hnt).
    assert (Z.of_nat i0 ∈ ids) as Hi0in.
    { rewrite Hperm. apply elem_of_seqZ. apply lookup_lt_Some in Hi0. lia. }
    destruct (links_prev headers ids (Z.of_nat i0) h0 (wk_links _ _ _ _ _ _ _ W) Hi0in ltac:(by rewrite Nat2Z.id)) as [Hfirst | Hbad].
    2:{ rewrite Hp0 in Hbad. rewrite Hperm in Hbad. apply elem_of_seqZ in Hbad.
        destruct (lookup_lt_is_Some_2 headers (Z.to_nat NONE_PAGE_ID)) as [hx Hx]; [lia |].
        destruct (loaded_next _ _ _ (Hloaded NONE_PAGE_ID hx ltac:(lia) Hx)). lia. }
    split; [done | apply W | | apply W | | apply W].
    + intros id h Hid Hh. rewrite Hfirst in Hid. injection Hid as <-. rewrite Nat2Z.id in Hh. congruence.
    + exists tl, ht. split_and!; [done | done |]. f_equal. eapply (filtered_id (fun h => ph_next_page h = NONE_PAGE_ID)); [exact Etails | | done].
      by eapply list_elem_of_lookup_2.
  - destruct Hw as (x & Hx & Hout); [apply length_replicate | |].
    { pose proof (length_filter (fun b : bool => b = false) (replicate (length headers) false)) as Hl.
      rewrite length_replicate in Hl. unfold unseen, chain_fuel. lia. }
    exists h0, x. subst hid. split_and!; [done | done | done | lia].
Qed.

End accepted.

(** ** Pages by id *)

Lemma clean_len `{PackagesOk} f ps :
  file_inv f ps -> tf_dirty_pages f = ∅ ->
  zlen (ensure_file (tf_disk f)) = tf_page_count f * PAGE_SIZE.
Proof.
  intros I Hclean.   pose proof (fi_len _ _ I) as Hle. 
  pose proof (ch_count _ _ _ _ (fc_chain _ _ (fi_chain _ _ I))) as Hc.
  destruct (Z.eq_dec (tf_page_count f) 0) as [E | Hne].
  { rewrite E in *. pose proof (zlen_nonneg (ensure_file (tf_disk f))). lia. }
  assert (0 <= tf_page_count f - 1 < tf_page_count f) as Hid by lia.
  destruct (shown_img f ps I _ Hid) as [img Himg].
  rewrite <- (fi_clean _ _ I _ Hid) in Himg by (rewrite Hclean; apply not_elem_of_empty).
  apply disk_img_in in Himg as [[_ Hlen] _]; [| lia].  lia.
Qed.

Section pages.
Context `{PackagesOk} (f : TimeSeriesFile) (ps qs : list ChainPage).
Context (I : file_inv f ps) (Hclean : tf_dirty_pages f = ∅).
Context (Hperm : ps ≡ₚ qs) (Hqs : cp_id <$> qs = seqZ 0 (tf_page_count f)).
#[local] Notation file := (ensure_file (tf_disk f)).

Lemma page_on_disk p : p ∈ ps ->
  page_in file (cp_id p) /\ page_holds (page_at file (cp_id p)) (cp_header p) (cp_recs p) /\
  validate_layout (page_at file (cp_id p)) = Ok tt /\
  file_img f (cp_id p) = Some (page_at file (cp_id p)).
Proof.
  intros Hp. pose proof (fc_chain _ _ (fi_chain _ _ I)) as C.
  destruct (chain_page _ _ _ _ C p Hp) as (pg & Hi & Hpg).
  assert (0 <= cp_id p < tf_page_count f) as Hid by apply (chain_range _ _ _ _ C p Hp).
  pose proof (fi_clean _ _ I _ Hid ltac:(rewrite Hclean; apply not_elem_of_empty)) as Hd.
  rewrite Hi in Hd. apply disk_img_in in Hd as [Hin <-]; [| lia]. 
  split_and!; [exact Hin | exact Hpg | by apply (fi_valid _ _ I _ _ Hid) | exact Hi].
Qed.

Lemma load_header_ok hash p :
  p ∈ ps -> hash = tf_tuple_schema_hash f -> (hash <> 0 -> tf_tuple_format_version f <> 0) ->
  load_header file hash (cp_id p) = Ok (cp_header p).
Proof.
  intros Hp -> Hfmt. pose proof (fc_chain _ _ (fi_chain _ _ I)) as C.
  destruct (page_on_disk p Hp) as (Hin & Hpg & Hv & _). unfold load_header.
  rewrite (res_bind_ok _ _ _ (page_offset_max _ (chain_max _ _ _ _ C p Hp))).
  rewrite (res_bind_ok _ _ _ (read_page_at _ _ Hin)), (res_bind_ok _ _ _ (try_new_holds _ _ Hpg)).
  rewrite (res_bind_ok _ _ _ Hv), (res_bind_ok _ _ _ (header_holds _ _ Hpg)).
  pose proof (ch_meta _ _ _ _ C) as HM. rewrite Forall_forall in HM. destruct (HM p Hp) as (-> & -> & _).
  rewrite Z.eqb_refl. destruct (Z.eqb_spec (tf_tuple_schema_hash f) 0); cbn [negb andb]; [done |].
  destruct (Z.eqb_spec (tf_tuple_format_version f) 0); [by destruct Hfmt | done].
Qed.

Lemma load_headers_ok hash :
  hash = tf_tuple_schema_hash f -> (hash <> 0 -> tf_tuple_format_version f <> 0) ->
  mapM (load_header file hash) (seqZ 0 (tf_page_count f)) = Ok (cp_header <$> qs).
Proof.
  intros Hh Hfmt. assert (tf_page_count f = zlen qs) as Hc.
  { pose proof (chain_length _ _ _ _ (fc_chain _ _ (fi_chain _ _ I))) as <-.
    unfold zlen. by rewrite Hperm. }
  rewrite Hc. apply mapM_seqZ. intros i q Hq.
  assert (Z.of_nat i = cp_id q) as ->.
  { assert ((cp_id <$> qs) !! i = Some (cp_id q)) as E by (by rewrite list_lookup_fmap, Hq).
    rewrite Hqs, lookup_seqZ in E. lia. }
  apply load_header_ok; [| done | done]. rewrite Hperm. by eapply list_elem_of_lookup_2.
Qed.

(** The header at the position of an id. *)
Lemma header_at p : p ∈ ps -> index (cp_header <$> qs) (cp_id p) = Ok (cp_header p).
Proof.
  rewrite Hperm. intros Hp. apply list_elem_of_lookup in Hp as [i Hi].
  assert ((cp_id <$> qs) !! i = Some (cp_id p)) as E by (by rewrite list_lookup_fmap, Hi).
  rewrite Hqs, lookup_seqZ in E. unfold index.
  replace (Z.to_nat (cp_id p)) with i by lia. by rewrite list_lookup_fmap, Hi.
Qed.

(** ** The ends of the chain *)

Lemma linked_heads l : forall prev next,
  linked prev l next -> prev <> NONE_PAGE_ID -> (forall p, p ∈ l -> cp_id p <> NONE_PAGE_ID) ->
  filter (fun p => ph_prev_page (cp_header p) = NONE_PAGE_ID) l = [].
Proof.
  induction l as [| p l IH]; intros prev next; [done |]. intros (Hp & _ & Hl) Hne Hall.
  rewrite filter_cons_False by congruence. eapply IH; [exact Hl | apply Hall; by left |].
  intros q Hq. apply Hall. by right.
Qed.

Lemma linked_tails l : forall prev,
  linked prev l NONE_PAGE_ID -> (forall p, p ∈ l -> cp_id p <> NONE_PAGE_ID) ->
  filter (fun p => ph_next_page (cp_header p) = NONE_PAGE_ID) l = option_list (last l).
Proof.
  induction l as [| p l IH]; intros prev; [done |]. intros (_ & Hn & Hl) Hall.
  assert (forall q, q ∈ l -> cp_id q <> NONE_PAGE_ID) as Hall' by (intros q Hq; apply Hall; by right).
  specialize (IH _ Hl Hall'). destruct l as [| q l].
  - by rewrite filter_cons_True.
  - rewrite filter_cons_False; [exact IH |]. rewrite Hn. apply Hall. right. by left.
Qed.

(** Filtering the headers by id gives what filtering the chain gives. *)
Lemma filter_headers (Q : PageHeader -> Prop) `{!forall h, Decision (Q h)} p :
  filter (fun p => Q (cp_header p)) ps = [p] ->
  ph_page_id <$> filter Q (cp_header <$> qs) = [cp_id p].
Proof.
  intros E. assert (filter (fun p => Q (cp_header p)) qs = [p]) as E'
    by (apply Permutation_singleton_r; by rewrite <- E, Hperm).
  by rewrite filter_fmap_compose, E'.
Qed.

Lemma chain_ends :
  match ps with
  | [] => True
  | p :: _ => exists q, last ps = Some q /\
      filter (fun p => ph_prev_page (cp_header p) = NONE_PAGE_ID) ps = [p] /\
      filter (fun p => ph_next_page (cp_header p) = NONE_PAGE_ID) ps = [q]
  end.
Proof.
  pose proof (fc_chain _ _ (fi_chain _ _ I)) as C. pose proof (ch_linked _ _ _ _ C) as Hl.
  assert (forall p, p ∈ ps -> cp_id p <> NONE_PAGE_ID) as Hall by apply (chain_not_none _ _ _ _ C).
  pose proof (linked_tails ps _ Hl Hall) as Ht.
  destruct ps as [| p l] eqn:Eps; [done |]. destruct (last (p :: l)) as [q |] eqn:El.
  2:{ by apply last_None in El. }
  exists q. split_and!; [done | | done]. destruct Hl as (Hp & _ & Hl).
  rewrite filter_cons_True by done. f_equal. eapply linked_heads; [exact Hl | apply Hall; by left |].
  intros x Hx. apply Hall. by right.
Qed.

(** ** The walk *)

(** The pages of [l] are marked. *)
Definition marks (visited : list bool) (l : list ChainPage) : Prop :=
  length visited = Z.to_nat (tf_page_count f) /\
  forall q, q ∈ ps -> visited !! Z.to_nat (cp_id q) = Some (bool_decide (cp_id q ∈ cp_id <$> l)).

Lemma marks_step visited l1 p l2 :
  ps = l1 ++ p :: l2 -> marks visited l1 ->
  index visited (cp_id p) = Ok false /\ marks (<[Z.to_nat (cp_id p) := true]> visited) (l1 ++ [p]).
Proof.
  intros E [Hlen Hm]. pose proof (fc_chain _ _ (fi_chain _ _ I)) as C.
  assert (p ∈ ps) as Hp by (rewrite E; clear; set_solver).
  pose proof (chain_nodup _ _ _ _ C) as Hnd. rewrite E, fmap_app, fmap_cons, NoDup_app in Hnd.
  destruct Hnd as (_ & Hd & _). split; [| split; [by rewrite length_insert |]].
  - unfold index. rewrite (Hm p Hp), bool_decide_false; [done |]. intros Hin. apply (Hd _ Hin). by left.
  - intros q Hq. pose proof (chain_range _ _ _ _ C p Hp). pose proof (chain_range _ _ _ _ C q Hq).
    destruct (decide (cp_id q = cp_id p)) as [Eq | Hne].
    + rewrite Eq, list_lookup_insert_eq by lia. f_equal. symmetry. apply bool_decide_true.
      rewrite fmap_app. apply elem_of_app. right. by left.
    + rewrite list_lookup_insert_ne by lia. rewrite (Hm q Hq). f_equal. apply bool_decide_ext.
      rewrite fmap_app, elem_of_app. change (cp_id <$> [p]) with [cp_id p]. rewrite list_elem_of_singleton.
      naive_solver.
Qed.

(** The link to the next page, as the walk checks it. *)
Lemma next_link l1 p l2 :
  ps = l1 ++ p :: l2 ->
  (if negb (ph_next_page (cp_header p) =? NONE_PAGE_ID) then Some (ph_next_page (cp_header p)) else None)
    = head_id l2 /\
  (forall b, head l2 = Some b -> ph_prev_page (cp_header b) = cp_id p).
Proof.
  intros E. pose proof (fc_chain _ _ (fi_chain _ _ I)) as C.
  destruct (chain_next _ _ _ _ C l1 p l2 E) as [Hn _].
  pose proof (head_id_not_none _ _ _ ps (l1 ++ [p]) l2 C ltac:(by rewrite <- app_assoc)) as Hnone.
  pose proof (ch_linked _ _ _ _ C) as Hl. rewrite E in Hl. apply linked_app in Hl as [_ (_ & _ & Hl2)].
  split.
  - rewrite Hn. destruct (head_id l2) as [b |]; [| done].
    change (link_of (Some b)) with b. destruct (Z.eqb_spec b NONE_PAGE_ID); [congruence | done].
  - intros b Hb. destruct l2 as [| b' l2]; [done |]. injection Hb as ->. by destruct Hl2.
Qed.

(** No page behind the walked ones has a newer record. *)
Definition bounded_by (m : option Z) (l : list ChainPage) : Prop :=
  forall mn q x, m = Some mn -> q ∈ l -> x ∈ cp_recs q -> r_ts x <= mn.

Lemma bounds_step l1 p l2 m :
  ps = l1 ++ p :: l2 -> bounded_by m (p :: l2) ->
  exists m',
    (match ts_bounds (cp_recs p) with
     | Some (min_ts, page_max) =>
         match m with
         | Some prev_min => if prev_min <? page_max then Err Decode else Ok (Some min_ts)
         | None => Ok (Some min_ts)
         end
     | None => Ok m
     end : RS (option Z)) = Ok m' /\ bounded_by m' l2.
Proof.
  intros E Hb. pose proof (ch_ordered _ _ _ _ (fc_chain _ _ (fi_chain _ _ I))) as Ho.
  rewrite E in Ho. apply ordered_mid in Ho as (_ & Hs & _ & _ & Hge & _).
  destruct (ts_bounds (cp_recs p)) as [[mn mx] |] eqn:Eb.
  - destruct (ts_bounds_some _ _ _ Hs Eb) as (_ & (a & Ha & Hmn) & (b & Hbm & Hmx)).
    exists (Some mn). split.
    + destruct m as [prev |]; [| done]. specialize (Hb prev p b eq_refl ltac:(by left) Hbm).
      destruct (Z.ltb_spec prev mx); [lia | done].
    + intros n q x [= <-] Hq Hx. specialize (Hge q Hq a x Ha Hx). lia.
  - exists m. split; [done |]. intros n q x Hm Hq. apply (Hb n q x Hm). by right.
Qed.

Lemma walk_ok l2 : forall l1 p fuel visited m,
  ps = l1 ++ p :: l2 -> (length l2 < fuel)%nat -> marks visited l1 -> bounded_by m (p :: l2) ->
  exists visited', walk_chain fuel file (cp_header <$> qs) (cp_id p) visited m = Ok visited' /\
    marks visited' ps.
Proof.
  induction l2 as [| b l2 IH]; intros l1 p fuel visited m E Hfuel Hm Hb;
    (destruct fuel as [| fuel]; [lia |]);
    (assert (p ∈ ps) as Hp by (rewrite E; clear; set_solver));
    destruct (marks_step _ _ _ _ E Hm) as [Ei Hm'];
    destruct (next_link _ _ _ E) as [En Eprev];
    destruct (page_on_disk p Hp) as (Hin & Hpg & _);
    destruct (bounds_step _ _ _ _ E Hb) as (m' & Em & Hb');
    pose proof (chain_max _ _ _ _ (fc_chain _ _ (fi_chain _ _ I)) p Hp) as Hmax;
    cbn [walk_chain];
    rewrite (res_bind_ok _ _ _ Ei), (res_bind_ok _ _ _ (header_at p Hp)); cbv zeta; rewrite En.
  - change (head_id []) with (@None Z). cbv iota. rewrite (res_bind_ok (Ok tt) _ tt eq_refl).
    rewrite (res_bind_ok _ _ _ (page_offset_max _ Hmax)), (res_bind_ok _ _ _ (read_page_at _ _ Hin)).
    rewrite (res_bind_ok _ _ _ (try_new_holds _ _ Hpg)), (res_bind_ok _ _ _ (bounds_holds _ _ Hpg)).
    rewrite (res_bind_ok _ _ _ Em). eexists. split; [reflexivity |]. by rewrite E.
  - change (head_id (b :: l2)) with (Some (cp_id b)). cbv iota.
    assert (b ∈ ps) as Hbin by (rewrite E; clear; set_solver).
    rewrite (res_bind_ok _ _ _ (header_at b Hbin)), (Eprev b eq_refl), Z.eqb_refl.
    rewrite (res_bind_ok (if negb true then _ else _) _ tt eq_refl).
    rewrite (res_bind_ok _ _ _ (page_offset_max _ Hmax)), (res_bind_ok _ _ _ (read_page_at _ _ Hin)).
    rewrite (res_bind_ok _ _ _ (try_new_holds _ _ Hpg)), (res_bind_ok _ _ _ (bounds_holds _ _ Hpg)).
    rewrite (res_bind_ok _ _ _ Em).
    apply (IH (l1 ++ [p])); [by rewrite <- app_assoc | cbn in Hfuel; lia | exact Hm' | exact Hb'].
Qed.

End pages.

Section open_clean.
Context `{PackagesOk} (f : TimeSeriesFile) (ps : list ChainPage).
Context (I : file_inv f ps) (Hclean : tf_dirty_pages f = ∅).

Lemma pages_by_id : exists qs, ps ≡ₚ qs /\ cp_id <$> qs = seqZ 0 (tf_page_count f).
Proof.
  pose proof (ch_ids _ _ _ _ (fc_chain _ _ (fi_chain _ _ I))) as Hp. symmetry in Hp.
  destruct (Permutation_map_inv cp_id _ Hp) as (qs & E & Hq). exists qs. by split.
Qed.

Lemma load_chain_metadata_ok hash :
  hash = tf_tuple_schema_hash f -> (hash <> 0 -> tf_tuple_format_version f <> 0) ->
  load_chain_metadata (ensure_file (tf_disk f)) (tf_page_count f) hash = Ok (head_id ps, tail_id ps).
Proof.
  intros Hh Hfmt. destruct pages_by_id as (qs & Hperm & Hqs).
  pose proof (fc_chain _ _ (fi_chain _ _ I)) as C. pose proof (chain_length _ _ _ _ C) as Hlen.
  unfold load_chain_metadata. destruct (Z.eqb_spec (tf_page_count f) 0) as [E0 | Hne].
  { destruct ps as [| p l]; [done |]. rewrite zlen_cons in Hlen. pose proof (zlen_nonneg l). lia. }
  rewrite (res_bind_ok _ _ _ (load_headers_ok f ps qs I Hclean Hperm Hqs hash Hh Hfmt)). cbv zeta.
  pose proof (chain_ends f ps qs I Hperm) as Hends.
  destruct ps as [| p l] eqn:Eps; [by rewrite <- Hlen in Hne |]. rewrite <- Eps in *.
  destruct Hends as (q & Hlast & Hheads & Htails).
  rewrite (filter_headers ps qs Hperm (fun h => ph_prev_page h = NONE_PAGE_ID) p Hheads).
  rewrite (filter_headers ps qs Hperm (fun h => ph_next_page h = NONE_PAGE_ID) q Htails).
  destruct (walk_ok f ps qs I Hclean Hperm Hqs l [] p (chain_fuel (tf_page_count f))
              (replicate (Z.to_nat (tf_page_count f)) false) None) as (visited & Ew & [Hvl Hv]).
  - exact Eps.
  - rewrite Eps, zlen_cons in Hlen. unfold chain_fuel, zlen in *. lia.
  - split; [apply length_replicate |]. intros x Hx. pose proof (chain_range _ _ _ _ C x Hx).
    rewrite lookup_replicate_2 by lia. done.
  - by intros ? ? ?.
  - rewrite (res_bind_ok _ _ _ Ew). assert (existsb negb visited = false) as ->.
    { apply not_true_iff_false. intros (b & Hb & Hneg)%existsb_exists.
      apply list_elem_of_In, list_elem_of_lookup in Hb as [i Hi].
      pose proof (lookup_lt_Some _ _ _ Hi) as Hlt. rewrite Hvl in Hlt.
      assert (Z.of_nat i ∈ cp_id <$> ps) as Hin by (rewrite (ch_ids _ _ _ _ C); apply elem_of_seqZ; lia).
      apply list_elem_of_fmap in Hin as (x & Ex & Hx). specialize (Hv x Hx).
      rewrite <- Ex, Nat2Z.id, Hi, bool_decide_true in Hv; [by injection Hv as -> |].
      rewrite Ex. apply list_elem_of_fmap. by exists x. }
    rewrite Eps. do 2 f_equal. unfold tail_id. rewrite <- Eps, Hlast. done.
Qed.

(** The metadata that opening a file with this schema hash gives it. *)
Definition opened_with (hash : Z) : Prop :=
  tf_tuple_schema_hash f = hash /\ tf_tuple_flags f = 0 /\
  tf_tuple_format_version f = if negb (hash =? 0) then 1 else 0.

Lemma open_inner_ok identity wal hash create :
  opened_with hash -> is_Some (tf_disk f) \/ create = true ->
  exists f', open_inner (tf_disk f) identity wal hash create = Ok f' /\ file_inv f' ps /\
    tf_identity f' = identity /\ tf_wal_backend f' = wal /\ tf_page_count f' = tf_page_count f /\
    tf_disk f' = Some (ensure_file (tf_disk f)) /\ tf_page_cache f' = ∅ /\ tf_dirty_pages f' = ∅ /\
    tf_tuple_schema_hash f' = hash /\ tf_tuple_flags f' = 0 /\
    tf_tuple_format_version f' = if negb (hash =? 0) then 1 else 0.
Proof.
  intros (Eh & Ef & Ev) Hdisk.
  pose proof (clean_len f ps I Hclean) as Hlen. pose proof (fi_chain _ _ I) as F.
  pose proof (fc_chain _ _ F) as C.
  assert (load_chain_metadata (ensure_file (tf_disk f)) (tf_page_count f) hash = Ok (head_id ps, tail_id ps)) as El.
  { apply load_chain_metadata_ok; [done |]. rewrite Ev. intros Hne.
    by destruct (Z.eqb_spec hash 0). }
  unfold open_inner.
  rewrite (res_bind_ok _ _ (ensure_file (tf_disk f)))
    by (destruct (tf_disk f), create; naive_solver).
  unfold file_len. rewrite Hlen, Z_mod_mult, Z_div_mult by done. cbn [Z.eqb negb].
  rewrite (res_bind_ok _ _ _ El). eexists. split; [reflexivity |].
  set (f' := mkTimeSeriesFile _ _ _ _ _ _ _ _ _ _ _ _ _).
  assert (forall id, 0 <= id < tf_page_count f -> file_img f' id = file_img f id) as Himg.
  { intros id Hid. destruct (shown_img f ps I id Hid) as [img Hi].
    pose proof (fi_clean _ _ I id Hid ltac:(rewrite Hclean; apply not_elem_of_empty)) as Hd.
    rewrite <- Hd in Hi |- *. unfold file_img. cbn [f' tf_page_cache tf_disk tf_page_count ensure_file default].
    rewrite lookup_empty, (proj2 (Z.leb_le _ _) (proj1 Hid)), (proj2 (Z.ltb_lt _ _) (proj2 Hid)). done. }
  split; [| by split_and!].
  split; cbn [f' tf_page_cache tf_disk tf_page_count tf_dirty_pages tf_next_ptr ensure_file default].
  - split; cbn [f' tf_open tf_head_raw tf_tail_raw tf_tuple_format_version tf_tuple_schema_hash
                tf_tuple_flags tf_page_count]; try done.
    + destruct C as [C1 C2 C3 C4 C5 C6]. split; try done.
      * rewrite Forall_forall in C1 |- *. intros p Hp. destruct (C1 p Hp) as (pg & Hi & Hpg).
        exists pg. split; [| done]. rewrite Himg; [done |]. apply (chain_range _ _ _ _ (fc_chain _ _ F) p Hp).
      * eapply Forall_impl; [exact C4 |]. intros p (P1 & P2 & P3). unfold page_meta. cbn.
        by rewrite P1, P2, P3, Eh, Ef, Ev.
    + rewrite <- Ev. apply F.
    + rewrite <- Eh. apply F.
  - by intros id ?%elem_of_empty.
  - intros id Hid _. rewrite (Himg id Hid).
    rewrite <- (fi_clean _ _ I id Hid) by (rewrite Hclean; apply not_elem_of_empty). done.
  - intros id img Hid. rewrite (Himg id Hid). by apply (fi_valid _ _ I).
  - exact (fi_len _ _ I).
  - intros id a Ha. by rewrite lookup_empty in Ha.
Qed.

End open_clean.

(** An empty data file opened without a log. *)
Definition empty_file (hash : Z) : TimeSeriesFile :=
  mkTimeSeriesFile None (Some []) true None ∅ 0 ∅ 0 NONE_PAGE_ID NONE_PAGE_ID
    (if negb (hash =? 0) then 1 else 0) hash 0.

Lemma empty_inv `{PackagesOk} hash : in_u64 hash -> file_inv (empty_file hash) [].
Proof.
  intros Hh. split; cbn [empty_file tf_page_count tf_dirty_pages tf_page_cache tf_disk tf_next_ptr].
  - split; [| reflexivity | reflexivity | reflexivity | | exact Hh | split; vm_compute; congruence].
    + split; [constructor | exact I | reflexivity | constructor | split; constructor
             | cbn; unfold MAX_PAGES; lia].
    + cbn [empty_file tf_tuple_format_version]. destruct (hash =? 0); split; vm_compute; congruence.
  - intros id []%elem_of_empty.
  - intros id Hid. lia.
  - intros id img Hid. lia.
  - vm_compute. congruence.
  - intros id a Ha. by rewrite lookup_empty in Ha.
Qed.
