(* ===== verification/RelationLog.v ===== *)
(** * The log of a relation file

    The log of a time-series file between its operations: some entries are on
    the synced chunk files, the others are in the queue.  Enqueueing an entry,
    flushing the log and restarting after a power loss keep it in order. *)

From S2P Require Import Prelude Errors Compat FileOps LogFrame WalFrames WalBackend WalDurability.
From S2P Require Import PageFormat PageBlock RecordSpec PageImage PhysLog Replay TsFile Chain TsChain TsPersist.

Section relation_log.
Context `{PackagesOk} `{MsgpackOk PLBatch}.

Notation frames := (log_frames RELATION_WAL_CHUNK_SIZE).
Notation entries := (log_entries RELATION_WAL_CHUNK_SIZE).

(** The entries [us] are synced, the entries [qs] are queued. *)
Record log_state (s : WorkerWALBackend) (us qs : list PLBatch) : Prop := mk_log_state {
  ls_chunk : cl_chunk_size (wb_log s) = RELATION_WAL_CHUNK_SIZE;
  ls_wal : wal_inv s (frames 0 us);
  ls_ok : log_ok RELATION_WAL_CHUNK_SIZE 0 (us ++ qs);
  ls_next : wb_next_lsn s = zlen (frames 0 (us ++ qs));
  ls_max : zlen (frames 0 (us ++ qs)) <= U64_MAX;
  ls_queue : queue_frames (wb_queue s) = frames (zlen (frames 0 us)) qs;
  ls_lsns : queue_lsns (wb_queue s) = seqZ (zlen (frames 0 us)) (zlen (queue_frames (wb_queue s)));
  ls_batches : batches_ok RELATION_WAL_CHUNK_SIZE (wb_queue s);
  ls_seq : cl_next_sequence (wb_log s) <= zlen (frames 0 us);
  ls_wait : exists base R, wait_inv base R (wb_flush_waiter s) /\ Forall (fun l => l < U64_MAX) R;
}.

Lemma chunk_size_enough : LOG_FRAME_HEADER_SIZE + LOG_FRAME_TAILER_SIZE < RELATION_WAL_CHUNK_SIZE.
Proof. done. Qed.

(** The frames of the synced entries and of the queue. *)
Lemma frames_app us qs :
  frames 0 (us ++ qs) = frames 0 us ++ frames (zlen (frames 0 us)) qs /\
  entries 0 (us ++ qs) = entries 0 us ++ entries (zlen (frames 0 us)) qs.
Proof. exact (log_frames_app RELATION_WAL_CHUNK_SIZE us qs 0). Qed.

Lemma log_enqueue now s us qs b s' :
  log_state s us qs -> logs_entry (Some s) b -> wal_after now (Some b) (Some s) = Some s' ->
  log_state s' us (qs ++ [b]).
Proof.
  intros [L1 L2 L3 L4 L5 L6 L7 L8 L9 L10] Hb E. unfold logs_entry in Hb. unfold wal_after in E.
  rewrite L1 in Hb, E. destruct Hb as [Hcs Hok].
  destruct (backend_serialize_ok b s) as (_ & _ & Hne); [by rewrite L1 | by rewrite L1 |].
  rewrite L1 in Hne. set (fs := entry_frames _ _ b) in *. injection E as <-.
  assert (frames 0 ((us ++ qs) ++ [b]) = frames 0 (us ++ qs) ++ fs) as Hfs.
  { rewrite (proj1 (frames_app (us ++ qs) [b])). cbn [log_frames]. by rewrite app_nil_r, <- L4. }
  assert (queue_frames (wb_queue s ++ [queued false now (wb_next_lsn s) fs]) = queue_frames (wb_queue s) ++ fs) as Hqf.
  { unfold queue_frames. rewrite fmap_app, concat_app. cbn. by rewrite app_nil_r. }
  assert (zlen (frames 0 (us ++ qs)) = zlen (frames 0 us) + zlen (queue_frames (wb_queue s))) as Hlen
    by (rewrite (proj1 (frames_app us qs)), zlen_app, L6; done).
  pose proof (zlen_nonneg fs). pose proof (zlen_nonneg (queue_frames (wb_queue s))).
  split; cbn [set_queue set_next_lsn wb_log wb_queue wb_next_lsn wb_flush_waiter]; try done.
  - by destruct L2.
  - rewrite app_assoc. apply log_ok_snoc; [done |]. by rewrite Z.add_0_l, <- L4.
  - rewrite app_assoc, Hfs, zlen_app. lia.
  - rewrite app_assoc, Hfs, zlen_app. destruct Hok as (bs & _ & _ & _ & Hmax).
    unfold fs, entry_frames in *. rewrite frames_of_length in *. lia.
  - rewrite Hqf, L6. rewrite (proj1 (log_frames_app RELATION_WAL_CHUNK_SIZE qs [b] _)).
    cbn [log_frames]. rewrite app_nil_r, <- L6, <- Hlen, <- L4. done.
  - unfold queue_lsns in *. rewrite fmap_app, concat_app, L7, Hqf, zlen_app, seqZ_app by lia. cbn.
    rewrite app_nil_r. do 2 f_equal. lia.
  - apply Forall_app. split; [done |]. constructor; [| constructor]. split; [done |].
    cbn [qb_frames queued]. eapply Forall_impl; [apply (entry_frames_size _ chunk_size_enough) |].
    intros f [? ?]. split; [done |]. unfold RELATION_WAL_CHUNK_SIZE, U64_MAX in *. lia.
Qed.

Lemma log_queue_nil s us qs : log_state s us qs -> wb_queue s = [] -> qs = [].
Proof.
  intros L Hq. destruct qs as [| q qs]; [done |]. exfalso.
  destruct (log_ok_app _ _ _ _ (ls_ok _ _ _ L)) as [_ Hok]. rewrite Z.add_0_l in Hok.
  pose proof (log_frames_pos _ chunk_size_enough _ _ Hok ltac:(done)) as Hpos.
  pose proof (ls_queue _ _ _ L) as E. rewrite Hq in E. rewrite <- E in Hpos. done.
Qed.

(** [flush_wal_async] on the log: the queue goes to the synced files. *)
Lemma log_commit s us qs :
  log_state s us qs ->
  exists s', (run_flush_log ;; fsync_unsynced_paths) s = (Ok tt, s') /\ log_state s' (us ++ qs) [].
Proof.
  intros [L1 L2 L3 L4 L5 L6 L7 L8 L9 (base & R & Hw & HR)].
  assert (zlen (frames 0 (us ++ qs)) = zlen (frames 0 us) + zlen (queue_frames (wb_queue s))) as Hlen
    by (rewrite (proj1 (frames_app us qs)), zlen_app, L6; done).
  assert (Forall (fun l => l < U64_MAX) (R ++ queue_lsns (wb_queue s))) as HR'.
  { apply Forall_app. split; [done |]. rewrite L7. apply Forall_forall. intros l Hl%elem_of_seqZ. lia. }
  destruct (run_flush_log_ok s (frames 0 us) base R L2) as (s1 & E & Hinv & Hq & Hw' & Hn & Hc & Hs);
    [by rewrite L1 | lia | done | done |].
  rewrite L6, <- (proj1 (frames_app us qs)) in Hinv.
  exists s1. split.
  - st_step by exact E. unfold fsync_unsynced_paths. st_step by reflexivity. st_step by reflexivity.
    rewrite (wv_unsynced _ _ Hinv), elements_empty. cbn [st_iter]. unfold mret, st_ret. f_equal.
    pose proof (wv_unsynced _ _ Hinv) as Eu. destruct s1. cbn in Eu. by rewrite Eu.
  - split; rewrite ?app_nil_r; try done.
    + congruence.
    + congruence.
    + rewrite Hq. done.
    + rewrite Hq. done.
    + rewrite Hq. constructor.
    + lia.
    + by exists base, (R ++ queue_lsns (wb_queue s)).
Qed.

(** Opening the log on the synced files. *)
Lemma log_restart s us qs :
  log_state s us qs ->
  exists s', WorkerWALBackend_new RELATION_WAL_CHUNK_SIZE WorkerLogBatching_default Commit (wb_synced s) = Ok s' /\
    log_state s' us [].
Proof.
  intros [L1 L2 L3 L4 L5 L6 L7 L8 L9 _]. destruct (log_ok_app _ _ _ _ L3) as [Hok _].
  destruct (log_frames_valid _ chunk_size_enough _ _ Hok) as [Hv Hl].
  destruct L2 as [(gs & Hr & Hgs) Hsy _ _]. rewrite <- Hgs in Hv.
  destruct (file_rep_chunks _ _ (lr_files _ _ _ Hr) Hv) as (cs & Hf & Hcs & Efst).
  assert (zlen cs = zlen gs) as Ecs by (unfold zlen; by rewrite <- Efst, length_fmap).
  assert (zlen (frames 0 us) <= U64_MAX) as Hmax.
  { rewrite (proj1 (frames_app us qs)), zlen_app in L5.
    pose proof (zlen_nonneg (frames (zlen (frames 0 us)) qs)). lia. }
  pose proof (lr_next _ _ _ Hr) as Hnx. rewrite Hsy.
  destruct (restart_ok RELATION_WAL_CHUNK_SIZE WorkerLogBatching_default (wb_files s) cs)
    as (s' & E & Hinv & Hq & Hn & Hw & Hseq & Hc); [done | done | lia | done |].
  rewrite Efst, Hgs in Hinv, Hn. exists s'. split; [exact E |].
  split; rewrite ?app_nil_r; try done.
  - rewrite Hn, Hl. destruct us as [| u us]; [done |].
    rewrite max_lsn_seqZ; [unfold saturating_add; lia | | done].
    by apply (log_frames_pos _ chunk_size_enough).
  - by rewrite Hq.
  - by rewrite Hq.
  - rewrite Hq. constructor.
  - lia.
  - by exists (wb_next_lsn s'), [].
Qed.

(** Recovery hands the synced entries over. *)
Lemma log_recover {S} s us qs (handle : PLBatch -> Z -> ST ErrorCode S unit) st :
  log_state s us qs ->
  recover_files handle (mret tt) (wb_files s) st = (handle_all handle (entries 0 us) ;; mret tt) st.
Proof.
  intros L. destruct (log_ok_app _ _ _ _ (ls_ok _ _ _ L)) as [Hok _].
  rewrite <- (wv_synced _ _ (ls_wal _ _ _ L)).
  eapply recover_synced; [exact (ls_wal _ _ _ L) | | by apply decode_loop_log, Hok].
  by apply (log_frames_valid _ chunk_size_enough).
Qed.

(** The log of a file whose data file exists and that was never written to. *)
Lemma log_new :
  exists s, WorkerWALBackend_new RELATION_WAL_CHUNK_SIZE WorkerLogBatching_default Commit ∅ = Ok s /\
    log_state s [] [].
Proof.
  destruct (restart_ok RELATION_WAL_CHUNK_SIZE WorkerLogBatching_default ∅ [])
    as (s & E & Hinv & Hq & Hn & Hw & Hseq & Hc); [done | constructor | done | |].
  { intros q. rewrite lookup_empty. by case_decide. }
  exists s. split; [exact E |]. split; try done.
  - by rewrite Hq.
  - by rewrite Hq.
  - rewrite Hq. constructor.
  - rewrite Hseq. done.
  - by exists (wb_next_lsn s), [].
Qed.

End relation_log.
