(* ===== verification/TsReplay.v ===== *)
(** * Replaying the log entry of a plan

    The replay of the entry of a plan on a data file that mirrors the pages
    of an open file: the data file then mirrors the pages of the plan.  The
    layout of a replayed page may differ from the original, as long as it has
    room; the records, the links and the metadata are the same. *)

From S2P Require Import Prelude Errors Compat FileOps LogFrame WalFrames WalBackend WalDurability.
From S2P Require Import PageFormat PageBlock RecordSpec RecordMap PageView PageInsert PageRebuild.
From S2P Require Import PageImage PhysLog Replay TsFile Chain TsChain TsRead TsWrite TsPlan TsRow TsPersist.
From S2P Require Import TsState TsFlush TsMutate TsOpen.

(** What replay restores of a page header. *)
Definition page_sig (h : PageHeader) : Z * Z * Z * Z * Z * Z :=
  (ph_page_id h, ph_prev_page h, ph_next_page h, ph_tuple_format_version h, ph_tuple_schema_hash h,
   ph_tuple_flags h).

Lemma page_sig_inv h h' : page_sig h = page_sig h' ->
  ph_page_id h = ph_page_id h' /\ ph_prev_page h = ph_prev_page h' /\ ph_next_page h = ph_next_page h' /\
  ph_tuple_format_version h = ph_tuple_format_version h' /\
  ph_tuple_schema_hash h = ph_tuple_schema_hash h' /\ ph_tuple_flags h = ph_tuple_flags h'.
Proof. unfold page_sig. intros E. by simplify_eq. Qed.

Lemma same_meta_sig h h' : same_meta h h' -> page_sig h' = page_sig h.
Proof. intros []. unfold page_sig. congruence. Qed.

(** The data file has the page, with an LSN below the bound. *)
Record mirrored `{Packages} (d : list byte) (bound : Z) (h : PageHeader) (rs : list Rec) : Prop :=
  mk_mirrored {
  mi_in : page_in d (ph_page_id h);
  mi_valid : validate_layout (page_at d (ph_page_id h)) = Ok tt;
  mi_holds : exists h', page_holds (page_at d (ph_page_id h)) h' rs /\ page_sig h' = page_sig h /\
               ph_lsn h' < bound;
}.

Record mirror `{Packages} (d : list byte) (bound : Z) (ps : list ChainPage) : Prop := mk_mirror {
  mr_len : zlen d = zlen ps * PAGE_SIZE;
  mr_pages : Forall (fun p => mirrored d bound (cp_header p) (cp_recs p)) ps;
}.

Definition page_lsn `{Packages} (pg : list byte) : Z :=
  match header pg with Ok h => ph_lsn h | _ => 0 end.

(** Replay has room for the operations of an entry. *)
Definition page_recs `{Packages} (f : TimeSeriesFile) (id : Z) : list Rec :=
  match file_img f id with
  | Some pg => match page_records pg with Ok rs => rec_of_pl <$> rs | _ => [] end
  | None => []
  end.

Definition op_replayable `{Packages} (f : TimeSeriesFile) (op : PLOp) : bool :=
  match op with
  | PageDelta_ d =>
      match pd_init d with
      | Some _ => padded_room (rec_of_pl <$> pd_upserts d)
      | None => replay_fits (foldl (fun rs k => spec_remove k rs) (page_recs f (pd_page_id d))
                               (key_of_pl <$> pd_removes d)) (rec_of_pl <$> pd_upserts d)
      end
  | _ => true
  end.

Definition replayable `{Packages} (f : TimeSeriesFile) (b : PLBatch) : bool :=
  forallb (fun e => forallb (op_replayable f) (pe_ops e)) (pb_entries b).

Section replay_plan.
Context `{PackagesOk}.

Lemma mirrored_weaken d b b' h rs : mirrored d b h rs -> b <= b' -> mirrored d b' h rs.
Proof. intros [? ? (h' & ? & ? & ?)] Hb. split; [done | done |]. exists h'. split_and!; [done | done | lia]. Qed.

Lemma mirrored_lsn d b h rs : mirrored d b h rs -> page_lsn (page_at d (ph_page_id h)) < b.
Proof.
  intros [_ _ (h' & Hh & _ & Hl)]. unfold page_lsn.
  by rewrite (header_view_decode _ _ (page_holds_header _ _ _ Hh)).
Qed.

(** The page does not change. *)
Lemma mirrored_same d d' b h rs :
  mirrored d b h rs -> page_in d' (ph_page_id h) -> page_at d' (ph_page_id h) = page_at d (ph_page_id h) ->
  mirrored d' b h rs.
Proof. intros [Hi Hv Hh] Hi' E. split; [done | by rewrite E | by rewrite E]. Qed.

(** A page holds one list of records under one header. *)
Lemma holds_inj pg h rs h' rs' : page_holds pg h rs -> page_holds pg h' rs' -> h = h' /\ rs = rs'.
Proof.
  intros H1 H2. split.
  - pose proof (header_view_decode _ _ (page_holds_header _ _ _ H1)) as E1.
    pose proof (header_view_decode _ _ (page_holds_header _ _ _ H2)) as E2. congruence.
  - pose proof (page_records_holds _ _ _ H1) as E1. rewrite (page_records_holds _ _ _ H2) in E1.
    injection E1 as E1. rewrite <- (rec_of_pl_of rs), <- (rec_of_pl_of rs'). congruence.
Qed.

(** ** One operation *)

Lemma page_recs_holds f id pg h rs :
  file_img f id = Some pg -> page_holds pg h rs -> page_recs f id = rs.
Proof.
  intros E Hp. unfold page_recs. rewrite E, (page_records_holds _ _ _ Hp). apply rec_of_pl_of.
Qed.

(** The file [d'] is [d] with the page replayed. *)
Record replayed (d d' : list byte) (id lsn : Z) (h : PageHeader) (rs : list Rec) : Prop := mk_replayed {
  rp_page : mirrored d' (lsn + 1) h rs;
  rp_lsn : lsn <= page_lsn (page_at d' id);
  rp_len : zlen d' = Z.max (zlen d) ((id + 1) * PAGE_SIZE);
  rp_other : forall j, j <> id -> page_in d j -> page_at d' j = page_at d j;
}.

Lemma replay_new d n id lsn img h rs op f :
  zlen d = n * PAGE_SIZE -> n <= id < MAX_PAGES -> in_u64 lsn -> 0 <= n ->
  page_holds img h rs -> keys_sorted rs -> ph_page_id h = id ->
  page_init_delta id img = Ok op -> op_replayable f op = true ->
  exists d', apply_recovered_op lsn op (Some d) = (Ok tt, Some d') /\ replayed d d' id lsn h rs.
Proof.
  intros Hlen Hid Hlsn Hn Hh Hs Hpid Eop Hroom. pose proof Eop as Eop'.
  rewrite (page_init_delta_holds id _ _ _ Hh) in Eop'. injection Eop' as <-.
  cbn [op_replayable pd_init pd_upserts] in Hroom. rewrite rec_of_pl_of in Hroom.
  assert (id * PAGE_SIZE <= U64_MAX) as Hoff by (unfold MAX_PAGES in Hid; unfold_bounds; plia).
  assert (page_in d id -> validate_layout (page_at d id) = Ok tt /\
            exists h0, header (page_at d id) = Ok h0 /\ ph_lsn h0 < lsn) as Hno
    by (intros [_ Hin]; plia).
  destruct (replay_init_ok d id lsn img h rs _ ltac:(lia) Hoff Hlsn Hno Hh Hs Hpid Eop Hroom)
    as (d' & h' & E & Hh' & E1 & E2 & E3 & E4 & E5 & E6 & El & Hv & Hl & Hoth).
  exists d'. split; [unfold apply_recovered_op; change (ensure_file (Some d)) with d; by rewrite E |].
  assert (page_in d' id) as Hin by (split; [lia | rewrite Hl; lia]).
  split; [| | done | done].
  - split; rewrite Hpid; [done | done |]. exists h'. split_and!; [done | | lia].
    unfold page_sig. congruence.
  - unfold page_lsn. rewrite (header_view_decode _ _ (page_holds_header _ _ _ Hh')). lia.
Qed.

(** The delta of a page that does not change. *)
Lemma diff_none h0 h rs0 rs :
  keys_sorted rs0 -> keys_sorted rs -> delta_links h0 h = None -> spec_diff rs0 rs = ([], []) ->
  rs0 = rs /\ ph_prev_page h0 = ph_prev_page h /\ ph_next_page h0 = ph_next_page h.
Proof.
  intros Hs0 Hs Hl Hd. pose proof (spec_apply_diff rs0 rs Hs0 Hs) as E. rewrite Hd in E.
  split; [exact E |]. unfold delta_links in Hl. by case_decide.
Qed.

(** The fields of the header that a plan keeps. *)
Definition kept_sig (h : PageHeader) : Z * Z * Z * Z :=
  (ph_page_id h, ph_tuple_format_version h, ph_tuple_schema_hash h, ph_tuple_flags h).

Lemma replay_old d id lsn old img h0 rs0 h rs op f :
  0 <= id < MAX_PAGES -> in_u64 lsn -> mirrored d lsn h0 rs0 -> ph_page_id h0 = id ->
  file_img f id = Some old -> page_holds old h0 rs0 -> page_holds img h rs ->
  keys_sorted rs0 -> keys_sorted rs -> kept_sig h = kept_sig h0 ->
  page_record_delta id old img = Ok (Some op) -> op_replayable f op = true ->
  exists d', apply_recovered_op lsn op (Some d) = (Ok tt, Some d') /\ replayed d d' id lsn h rs.
Proof.
  intros Hid Hlsn [Hin Hv (h1 & Hh1 & Hsig & Hlt)] Hpid Himg Hold Hnew Hs0 Hs Hkept Eop Hroom.
  rewrite Hpid in Hin, Hv, Hh1. injection Hsig as S1 S2 S3 S4 S5 S6. injection Hkept as K1 K2 K3 K4.
  rewrite (page_record_delta_holds id _ _ _ _ _ _ Hold Hnew) in Eop.
  assert (delta_links h1 h = delta_links h0 h) as El by (unfold delta_links; by rewrite S2, S3).
  pose proof (page_record_delta_holds id _ _ _ _ _ _ Hh1 Hnew) as Ed. rewrite El, Eop in Ed.
  assert (exists dl, op = PageDelta_ dl /\ pd_page_id dl = id /\ pd_init dl = None /\
            pd_removes dl = pl_key <$> (spec_diff rs0 rs).1 /\ pd_upserts dl = pl_of <$> (spec_diff rs0 rs).2)
    as (dl & -> & Hdid & Hdi & Hdr & Hdu).
  { destruct (delta_links h0 h), (spec_diff rs0 rs) as [[] []]; inversion Eop; by eexists. }
  unfold op_replayable in Hroom. rewrite Hdi, Hdid, Hdr, Hdu, (page_recs_holds _ _ _ _ _ Himg Hold),
    key_of_pl_key, rec_of_pl_of in Hroom.
  assert (id * PAGE_SIZE <= U64_MAX) as Hoff by (unfold MAX_PAGES in Hid; unfold_bounds; plia).
  destruct (replay_delta_ok d id lsn img h1 h rs0 rs dl Hin Hoff Hlsn Hh1 Hv Hnew Hs0 Hs Hlt Ed Hroom)
    as (d' & h' & E & Hh' & Hm & El' & Hv' & Hl & Hoth).
  exists d'. split; [unfold apply_recovered_op; change (ensure_file (Some d)) with d; by rewrite E |].
  assert (ph_page_id h = id) as Hhid by congruence.
  split; [| | done | done].
  - split; rewrite Hhid; [destruct Hin; split; [done | lia] | done |].
    exists h'. split_and!; [done | | lia]. rewrite (same_meta_sig _ _ Hm). unfold page_sig.
    cbn. congruence.
  - unfold page_lsn. rewrite (header_view_decode _ _ (page_holds_header _ _ _ Hh')). lia.
Qed.

(** ** The operations of a plan *)

(** The pages of the log operation are there, with an LSN at which replay
    skips the operation. *)
Definition op_covered (L : Z -> Z) (count lsn : Z) (op : PLOp) : Prop :=
  match op with
  | Create => True
  | Delete => False
  | PageDelta_ d => 0 <= pd_page_id d < count /\ lsn <= L (pd_page_id d)
  end.

Definition batch_covered (fid : PLFileId) (L : Z -> Z) (count lsn : Z) (b : PLBatch) : Prop :=
  Forall (fun e => pe_file e = fid -> Forall (op_covered L count lsn) (pe_ops e)) (pb_entries b).

Definition disk_lsn (d : list byte) (id : Z) : Z := page_lsn (page_at d id).

Definition write_target (w : PlannedPageWrite) (h : PageHeader) (rs : list Rec) : Prop :=
  page_holds (pw_image w) h rs /\ keys_sorted rs /\ ph_page_id h = pw_page_id w /\
  0 <= pw_page_id w < MAX_PAGES.

Definition write_source (f : TimeSeriesFile) (d : list byte) (lsn : Z) (w : PlannedPageWrite)
    (h : PageHeader) : Prop :=
  pw_page_id w < tf_page_count f ->
  exists old h0 rs0, file_img f (pw_page_id w) = Some old /\ page_holds old h0 rs0 /\
    keys_sorted rs0 /\ mirrored d lsn h0 rs0 /\ kept_sig h = kept_sig h0.

(** A write without a log operation. *)
Lemma replay_nothing f d lsn w h rs :
  write_target w h rs -> write_source f d lsn w h -> op_spec f w None -> mirrored d (lsn + 1) h rs.
Proof.
  intros (Hh & Hs & Hid & Hr) Hsrc Hop. unfold op_spec in Hop.
  destruct (Z.leb_spec (tf_page_count f) (pw_page_id w)) as [Hle | Hlt]; [by destruct Hop as (? & _ & [=]) |].
  destruct Hop as (old & Himg & Eop). destruct (Hsrc Hlt) as (old' & h0 & rs0 & Himg' & Hold & Hs0 & Hm & Hk).
  assert (old' = old) as -> by congruence. rewrite (page_record_delta_holds _ _ _ _ _ _ _ Hold Hh) in Eop.
  assert (delta_links h0 h = None /\ spec_diff rs0 rs = ([], [])) as [El Ed]
    by (destruct (delta_links h0 h), (spec_diff rs0 rs) as [[] []]; done).
  destruct (diff_none h0 h rs0 rs Hs0 Hs El Ed) as (-> & Ep & En). injection Hk as K1 K2 K3 K4.
  destruct Hm as [Hin Hv (h1 & Hh1 & Hsig & Hl)]. split; rewrite K1; [done | done |].
  exists h1. split_and!; [done | | lia]. rewrite Hsig. unfold page_sig. congruence.
Qed.

(** A write with one. *)
Lemma replay_something f d n lsn w h rs op :
  zlen d = n * PAGE_SIZE -> 0 <= n -> in_u64 lsn ->
  pw_page_id w < tf_page_count f \/ n <= pw_page_id w -> tf_page_count f <= n ->
  write_target w h rs -> write_source f d lsn w h -> op_spec f w (Some op) -> op_replayable f op = true ->
  exists d', apply_recovered_op lsn op (Some d) = (Ok tt, Some d') /\
    replayed d d' (pw_page_id w) lsn h rs /\
    exists dl, op = PageDelta_ dl /\ pd_page_id dl = pw_page_id w.
Proof.
  intros Hlen Hn Hlsn Hcase Hcn (Hh & Hs & Hid & Hr) Hsrc Hop Hroom. unfold op_spec in Hop.
  destruct (Z.leb_spec (tf_page_count f) (pw_page_id w)) as [Hle | Hlt].
  - destruct Hop as (init & Einit & [= <-]).
    destruct (replay_new d n (pw_page_id w) lsn (pw_image w) h rs op f) as (d' & E & Hrep); try done; [lia |].
    exists d'. split_and!; [done | done |]. rewrite (page_init_delta_holds _ _ _ _ Hh) in Einit.
    injection Einit as <-. by eexists.
  - destruct Hop as (old & Himg & Eop). destruct (Hsrc Hlt) as (old' & h0 & rs0 & Himg' & Hold & Hs0 & Hm & Hk).
    assert (old' = old) as -> by congruence.
    assert (ph_page_id h0 = pw_page_id w) as Hid0 by (injection Hk as K1 _ _ _; congruence).
    destruct (replay_old d (pw_page_id w) lsn old (pw_image w) h0 rs0 h rs op f) as (d' & E & Hrep); try done.
    exists d'. split_and!; [done | done |]. rewrite (page_record_delta_holds _ _ _ _ _ _ _ Hold Hh) in Eop.
    destruct (delta_links h0 h), (spec_diff rs0 rs) as [[] []]; inversion Eop; by eexists.
Qed.

Record replayed_all (lsn : Z) (ws : list PlannedPageWrite) (ops : list (option PLOp))
    (d d' : list byte) (n n' : Z) : Prop := mk_replayed_all {
  ra_len : zlen d' = n' * PAGE_SIZE;
  ra_grow : n <= n';
  ra_new : forall w, w ∈ ws -> pw_page_id w < n';
  ra_max : n' = n \/ exists w, w ∈ ws /\ n' = pw_page_id w + 1;
  ra_pages : forall w h rs, w ∈ ws -> write_target w h rs -> mirrored d' (lsn + 1) h rs;
  ra_other : forall j, page_in d j -> j ∉ pw_page_id <$> ws -> page_at d' j = page_at d j;
  ra_lsn : forall j, page_in d j -> disk_lsn d j <= disk_lsn d' j;
  ra_covered : Forall (op_covered (disk_lsn d') n' lsn) (omap id ops);
}.

Lemma page_in_len d n j : zlen d = n * PAGE_SIZE -> page_in d j <-> 0 <= j < n.
Proof. intros E. unfold page_in. rewrite E. unfold_bounds. plia. Qed.

Lemma replayed_nil lsn d n : zlen d = n * PAGE_SIZE -> replayed_all lsn [] [] d d n n.
Proof.
  intros Hlen. split; [done | lia | | by left | | done | lia | constructor].
  - intros w Hw. by apply elem_of_nil in Hw.
  - intros w h rs Hw. by apply elem_of_nil in Hw.
Qed.

(** A write without an operation in front. *)
Lemma replayed_skip lsn w ws ops d d' n n' h rs :
  zlen d = n * PAGE_SIZE -> pw_page_id w < n -> pw_page_id w ∉ pw_page_id <$> ws ->
  write_target w h rs -> mirrored d (lsn + 1) h rs ->
  replayed_all lsn ws ops d d' n n' -> replayed_all lsn (w :: ws) (None :: ops) d d' n n'.
Proof.
  intros Hlen Hid Hnew (Hh & Hs & Hpid & Hr) Hm [R1 R2 R3 R4 R5 R6 R7 R8].
  split; [exact R1 | exact R2 | | | | | exact R7 | exact R8].
  - intros w' [-> | Hw]%elem_of_cons; [lia | by apply R3].
  - destruct R4 as [-> | (w' & Hw & ->)]; [by left | right]. exists w'. split; [by right | done].
  - intros w' h' rs' [-> | Hw]%elem_of_cons Ht; [| exact (R5 w' _ _ Hw Ht)].
    destruct Ht as [Hh' _]. destruct (holds_inj _ _ _ _ _ Hh Hh') as [<- <-]. eapply mirrored_same; [exact Hm | |].
    + apply (page_in_len d' n' _ R1). rewrite Hpid. lia.
    + rewrite Hpid. apply R6; [| done]. apply (page_in_len d n _ Hlen). lia.
  - intros j Hj Hn. rewrite fmap_cons, not_elem_of_cons in Hn. apply R6; [done | tauto].
Qed.

(** A write with an operation in front. *)
Lemma replayed_step lsn w ws op dl ops d d1 d' n n' h rs :
  zlen d = n * PAGE_SIZE -> 0 <= n -> (page_in d (pw_page_id w) -> disk_lsn d (pw_page_id w) < lsn) ->
  pw_page_id w ∉ pw_page_id <$> ws -> write_target w h rs ->
  op = PageDelta_ dl -> pd_page_id dl = pw_page_id w ->
  replayed d d1 (pw_page_id w) lsn h rs ->
  replayed_all lsn ws ops d1 d' (Z.max n (pw_page_id w + 1)) n' ->
  replayed_all lsn (w :: ws) (Some op :: ops) d d' n n'.
Proof.
  intros Hlen Hn Hold Hnew (Hh & Hs & Hpid & Hr) -> Hdl [P1 P2 P3 P4] [R1 R2 R3 R4 R5 R6 R7 R8].
  assert (zlen d1 = Z.max n (pw_page_id w + 1) * PAGE_SIZE) as Hlen1 by (rewrite P3, Hlen; plia).
  assert (forall j, page_in d j -> page_in d1 j) as Hin
    by (intros j; rewrite (page_in_len _ _ _ Hlen), (page_in_len _ _ _ Hlen1); lia).
  assert (page_in d1 (pw_page_id w)) as Hw1 by (apply (page_in_len _ _ _ Hlen1); lia).
  split; [exact R1 | lia | | | | | |].
  - intros w' [-> | Hw]%elem_of_cons; [lia | by apply R3].
  - destruct R4 as [E | (w' & Hw & ->)]; [| right; exists w'; split; [by right | done]].
    destruct (Z.le_gt_cases n (pw_page_id w)); [right; exists w; split; [left | lia] | left; lia].
  - intros w' h' rs' [-> | Hw]%elem_of_cons Ht; [| exact (R5 w' _ _ Hw Ht)].
    destruct Ht as [Hh' _]. destruct (holds_inj _ _ _ _ _ Hh Hh') as [<- <-]. eapply mirrored_same; [exact P1 | |].
    + apply (page_in_len d' n' _ R1). rewrite Hpid. lia.
    + rewrite Hpid. by apply R6.
  - intros j Hj Hn'. rewrite fmap_cons, not_elem_of_cons in Hn'. destruct Hn' as [Hne Hn'].
    rewrite R6 by (done || by apply Hin). by apply P4.
  - intros j Hj. etrans; [| apply R7, Hin, Hj]. destruct (decide (j = pw_page_id w)) as [-> | Hne].
    + specialize (Hold Hj). unfold disk_lsn at 2. lia.
    + unfold disk_lsn. by rewrite P4.
  - constructor; [| exact R8]. cbn [op_covered]. rewrite Hdl. split; [lia |].
    etrans; [exact P2 | apply R7, Hw1].
Qed.

(** What the writes of a plan need of the data file. *)
Record replay_ready (f : TimeSeriesFile) (lsn : Z) (ws : list PlannedPageWrite) (d : list byte) (n : Z)
    : Prop := mk_replay_ready {
  rr_len : zlen d = n * PAGE_SIZE;
  rr_count : 0 <= tf_page_count f <= n;
  rr_sorted : StronglySorted Z.lt (pw_page_id <$> ws);
  rr_ids : forall w, w ∈ ws -> pw_page_id w < tf_page_count f \/ n <= pw_page_id w;
  rr_writes : forall w, w ∈ ws -> exists h rs, write_target w h rs /\ write_source f d lsn w h;
}.

Lemma ready_tail f lsn w ws d n : replay_ready f lsn (w :: ws) d n -> replay_ready f lsn ws d n.
Proof.
  intros [R1 R2 R3 R4 R5]. rewrite fmap_cons in R3. apply StronglySorted_inv in R3 as [R3 _].
  split; [done | done | done | |]; intros w' Hw; [apply R4 | apply R5]; by right.
Qed.

Lemma ready_head f lsn w ws d n :
  replay_ready f lsn (w :: ws) d n -> Forall (fun w' => pw_page_id w < pw_page_id w') ws.
Proof.
  intros [_ _ R3 _ _]. rewrite fmap_cons in R3. apply StronglySorted_inv in R3 as [_ R3].
  rewrite Forall_forall in R3. apply Forall_forall. intros w2 Hw. by apply R3, list_elem_of_fmap_2.
Qed.

Lemma ready_step f lsn w ws d d1 n h rs :
  replay_ready f lsn (w :: ws) d n -> replayed d d1 (pw_page_id w) lsn h rs ->
  replay_ready f lsn ws d1 (Z.max n (pw_page_id w + 1)).
Proof.
  intros R [P1 P2 P3 P4]. pose proof (ready_head _ _ _ _ _ _ R) as Hlt. rewrite Forall_forall in Hlt.
  destruct (ready_tail _ _ _ _ _ _ R) as [R1 R2 R3 R4 R5].
  assert (zlen d1 = Z.max n (pw_page_id w + 1) * PAGE_SIZE) as Hlen1 by (rewrite P3, R1; plia).
  split; [exact Hlen1 | lia | exact R3 | |].
  - intros w' Hw. specialize (Hlt w' Hw). destruct (R4 w' Hw); [by left | right; lia].
  - intros w' Hw. destruct (R5 w' Hw) as (h' & rs' & Ht & Hsrc). exists h', rs'. split; [exact Ht |].
    intros Hold. destruct (Hsrc Hold) as (old & h0 & rs0 & Himg & Hh & Hs & Hm & Hk).
    exists old, h0, rs0. split_and!; [done | done | done | | done].
    assert (ph_page_id h0 = pw_page_id w') as E0.
    { destruct Ht as (_ & _ & E & _). injection Hk as K _ _ _. congruence. }
    pose proof (mi_in _ _ _ _ Hm) as Hin. apply (mirrored_same d); [exact Hm | |].
    + apply (page_in_len _ _ _ Hlen1). apply (page_in_len _ _ _ R1) in Hin. lia.
    + apply P4; [| exact Hin]. rewrite E0. specialize (Hlt w' Hw). lia.
Qed.

Lemma replay_writes f lsn (Hlsn : in_u64 lsn) ws : forall ops d n,
  replay_ready f lsn ws d n -> Forall2 (op_spec f) ws ops ->
  Forall (fun op => op_replayable f op = true) (omap id ops) ->
  exists d' n', st_iter (apply_recovered_op lsn) (omap id ops) (Some d) = (Ok tt, Some d') /\
    replayed_all lsn ws ops d d' n n'.
Proof.
  induction ws as [| w ws IH]; intros ops d n R HF Hroom.
  { apply Forall2_nil_inv_l in HF as ->. exists d, n. split; [done | apply replayed_nil, R]. }
  apply Forall2_cons_inv_l in HF as (op & ops' & Hop & HF & ->).
  pose proof (ready_head _ _ _ _ _ _ R) as Hlt.
  assert (pw_page_id w ∉ pw_page_id <$> ws) as Hnew.
  { intros (w' & E & Hw)%list_elem_of_fmap. rewrite Forall_forall in Hlt. specialize (Hlt w' Hw). lia. }
  destruct (rr_writes _ _ _ _ _ R w) as (h & rs & Ht & Hsrc); [left |].
  pose proof (rr_len _ _ _ _ _ R) as Hlen. pose proof (rr_count _ _ _ _ _ R) as Hcount.
  assert (pw_page_id w < tf_page_count f \/ n <= pw_page_id w) as Hcase by (apply (rr_ids _ _ _ _ _ R); left).
  destruct op as [op |].
  - change (omap id (Some op :: ops')) with (op :: omap id ops') in *.
    inversion Hroom as [| ? ? Hroom1 Hroom2]; subst.
    destruct (replay_something f d n lsn w h rs op) as (d1 & E1 & Hrep & dl & Edl & Hdl); try done; [lia | lia |].
    destruct (IH ops' d1 _ (ready_step _ _ _ _ _ _ _ _ _ R Hrep) HF Hroom2) as (d' & n' & E & Hall).
    exists d', n'. split; [cbn [st_iter]; st_step by exact E1; exact E |].
    eapply replayed_step; [exact Hlen | lia | | exact Hnew | exact Ht | exact Edl | exact Hdl | exact Hrep | exact Hall].
    intros Hin. apply (page_in_len _ _ _ Hlen) in Hin.
    destruct (Hsrc ltac:(lia)) as (old & h0 & rs0 & _ & _ & _ & Hm & Hk).
    destruct Ht as (_ & _ & Eid & _). injection Hk as K _ _ _.
    unfold disk_lsn. rewrite <- Eid, K. by eapply mirrored_lsn.
  - change (omap id (None :: ops')) with (omap id ops') in *.
    destruct (IH ops' d n (ready_tail _ _ _ _ _ _ R) HF Hroom) as (d' & n' & E & Hall).
    exists d', n'. split; [exact E |]. pose proof (replay_nothing _ _ _ _ _ _ Ht Hsrc Hop) as Hm.
    eapply replayed_skip; [exact Hlen | | exact Hnew | exact Ht | exact Hm | exact Hall].
    pose proof (mi_in _ _ _ _ Hm) as Hin. apply (page_in_len _ _ _ Hlen) in Hin.
    destruct Ht as (_ & _ & Eid & _). lia.
Qed.

(** ** A whole plan *)

Lemma plan_sorted s : StronglySorted Z.lt (pw_page_id <$> mp_page_writes (into_plan s)).
Proof.
  destruct (plan_writes s) as [Hnd _]. revert Hnd. unfold into_plan. cbn [mp_page_writes].
  rewrite <- list_fmap_compose.
  pose proof (sort_stable_sorted (fun a b : Z * list byte => a.1 <=? b.1)
                ltac:(intros a b c; cbn; lia) ltac:(intros a b; cbn; lia)
                (map_to_list (ov_page_images (pn_overlay s)))) as Hs.
  set (l := sort_stable _ _) in *.
  change (pw_page_id ∘ (fun i : Z * list byte => mkPlannedPageWrite i.1 i.2)) with (fst : Z * list byte -> Z).
  intros Hnd. induction Hs as [| x l' Hs IH Hx]; [constructor |].
  rewrite fmap_cons in Hnd |- *. apply NoDup_cons in Hnd as [Hn Hnd]. constructor; [by apply IH |].
  rewrite Forall_forall in Hx. apply Forall_forall. intros id (y & -> & Hy)%list_elem_of_fmap.
  specialize (Hx y Hy). cbn in Hx. assert (x.1 <> y.1); [| lia].
  intros E. apply Hn. rewrite E. by apply list_elem_of_fmap_2.
Qed.

Section plan.
Context (f : TimeSeriesFile) (ps ps' : list ChainPage) (s : Planning) (d : list byte) (lsn : Z).
Context (I : file_inv f ps) (Ip : plan_inv f s ps') (Hm : mirror d lsn ps).

Lemma plan_write w :
  w ∈ mp_page_writes (into_plan s) <-> ov_page_images (pn_overlay s) !! pw_page_id w = Some (pw_image w).
Proof.
  destruct (plan_writes s) as [Hnd <-]. unfold writes_map. split.
  - intros Hw. apply elem_of_list_to_map_1; [by rewrite <- list_fmap_compose |].
    apply list_elem_of_fmap. by exists w.
  - intros Hi. apply elem_of_list_to_map_2 in Hi. apply list_elem_of_fmap in Hi as ([i img] & E & Hw).
    destruct w as [j img']. cbn in E. by injection E as -> ->.
Qed.

Lemma source_page id : 0 <= id < tf_page_count f ->
  exists p old, p ∈ ps /\ cp_id p = id /\ file_img f id = Some old /\
    page_holds old (cp_header p) (cp_recs p) /\ keys_sorted (cp_recs p) /\
    mirrored d lsn (cp_header p) (cp_recs p) /\ page_meta f p.
Proof.
  intros Hid. pose proof (fc_chain _ _ (fi_chain _ _ I)) as C.
  assert (id ∈ cp_id <$> ps) as Hin by (rewrite (ch_ids _ _ _ _ C); apply elem_of_seqZ; lia).
  apply list_elem_of_fmap in Hin as (p & -> & Hp). destruct (chain_page _ _ _ _ C p Hp) as (old & Hi & Hold).
  exists p, old. destruct (ch_ordered _ _ _ _ C) as [Hs _]. rewrite Forall_forall in Hs.
  pose proof (mr_pages _ _ _ Hm) as Hpages. rewrite Forall_forall in Hpages.
  pose proof (ch_meta _ _ _ _ C) as Hmeta. rewrite Forall_forall in Hmeta.
  exact (conj Hp (conj eq_refl (conj Hi (conj Hold (conj (Hs p Hp) (conj (Hpages p Hp) (Hmeta p Hp))))))).
Qed.

Lemma plan_target w : w ∈ mp_page_writes (into_plan s) ->
  exists p, p ∈ ps' /\ cp_id p = pw_page_id w /\ write_target w (cp_header p) (cp_recs p) /\ page_meta f p.
Proof.
  intros Hw%plan_write. destruct (plan_image_page _ _ _ _ _ Ip Hw) as (p & Hp & Eid & Hpg).
  pose proof (pi_chain _ _ _ Ip) as C. exists p.
  destruct (ch_ordered _ _ _ _ C) as [Hs _]. rewrite Forall_forall in Hs.
  pose proof (ch_meta _ _ _ _ C) as Hmeta. rewrite Forall_forall in Hmeta.
  pose proof (chain_max _ _ _ _ C p Hp) as Hmax. rewrite Eid in Hmax.
  exact (conj Hp (conj Eid (conj (conj Hpg (conj (Hs p Hp) (conj Eid Hmax))) (Hmeta p Hp)))).
Qed.

Lemma writes_ready : replay_ready f lsn (mp_page_writes (into_plan s)) d (tf_page_count f).
Proof.
  pose proof (fc_chain _ _ (fi_chain _ _ I)) as C. pose proof (ch_count _ _ _ _ C) as Hc.
  split; [| lia | apply plan_sorted | intros w _; lia |].
  - rewrite (mr_len _ _ _ Hm). by rewrite (chain_length _ _ _ _ C).
  - intros w Hw. destruct (plan_target w Hw) as (p & Hp & Eid & Ht & M1 & M2 & M3).
    exists (cp_header p), (cp_recs p). split; [exact Ht |]. intros Hlt.
    destruct Ht as (_ & _ & _ & Hr). destruct (source_page (pw_page_id w) ltac:(lia))
      as (p0 & old & Hp0 & Eid0 & Hi & Hold & Hs0 & Hm0 & N1 & N2 & N3).
    exists old, (cp_header p0), (cp_recs p0). split_and!; [done | done | done | done |].
    unfold kept_sig. rewrite M1, M2, M3, N1, N2, N3. unfold cp_id in Eid, Eid0. by rewrite Eid, Eid0.
Qed.

Lemma replayed_count ops d' n' :
  replayed_all lsn (mp_page_writes (into_plan s)) ops d d' (tf_page_count f) n' ->
  n' = ov_page_count (pn_overlay s).
Proof.
  intros [_ R2 R3 R4 _ _ _ _]. pose proof (pi_count _ _ _ Ip) as Hc.
  assert (n' <= ov_page_count (pn_overlay s)).
  { destruct R4 as [-> | (w & Hw%plan_write & ->)]; [lia |].
    assert (is_Some (ov_page_images (pn_overlay s) !! pw_page_id w)) as Hs by (by rewrite Hw).
    pose proof (pi_ids _ _ _ Ip _ Hs). lia. }
  destruct (Z.eq_dec (ov_page_count (pn_overlay s)) (tf_page_count f)) as [| Hne]; [lia |].
  destruct (pi_new _ _ _ Ip (ov_page_count (pn_overlay s) - 1)) as [img Hi]; [lia |].
  set (w := mkPlannedPageWrite (ov_page_count (pn_overlay s) - 1) img).
  pose proof (R3 w (proj2 (plan_write w) Hi)) as Hlt. cbn in Hlt. lia.
Qed.

(** A page that the plan does not write is the page of the file. *)
Lemma kept_page p : p ∈ ps' -> ov_page_images (pn_overlay s) !! cp_id p = None ->
  0 <= cp_id p < tf_page_count f /\ mirrored d lsn (cp_header p) (cp_recs p).
Proof.
  intros Hp Hn. pose proof (pi_chain _ _ _ Ip) as C. pose proof (chain_range _ _ _ _ C p Hp) as Hr.
  assert (cp_id p < tf_page_count f) as Hlt.
  { destruct (Z.lt_ge_cases (cp_id p) (tf_page_count f)); [done |].
    destruct (pi_new _ _ _ Ip (cp_id p)) as [? E]; [lia |]. congruence. }
  split; [lia |]. destruct (chain_page _ _ _ _ C p Hp) as (pg & Hi & Hpg). unfold pn_img in Hi.
  rewrite Hn, (filled_img _ _ (pi_filled _ _ _ Ip)) in Hi.
  destruct (source_page (cp_id p) ltac:(lia)) as (p0 & old & _ & _ & Hi0 & Hold & _ & Hm0 & _).
  assert (old = pg) as -> by congruence. by destruct (holds_inj _ _ _ _ _ Hold Hpg) as [<- <-].
Qed.

Lemma replayed_mirror ops d' n' :
  replayed_all lsn (mp_page_writes (into_plan s)) ops d d' (tf_page_count f) n' -> mirror d' (lsn + 1) ps'.
Proof.
  intros R. pose proof (replayed_count _ _ _ R) as En. destruct R as [R1 R2 R3 R4 R5 R6 R7 R8].
  pose proof (pi_chain _ _ _ Ip) as C. pose proof (rr_len _ _ _ _ _ writes_ready) as Hlen.
  split; [by rewrite R1, (chain_length _ _ _ _ C), En |].
  apply Forall_forall. intros p Hp.
  destruct (ov_page_images (pn_overlay s) !! cp_id p) as [img |] eqn:Hi.
  - set (w := mkPlannedPageWrite (cp_id p) img). pose proof (proj2 (plan_write w) Hi) as Hw.
    destruct (plan_target _ Hw) as (q & Hq & Eid & Ht & _). cbn [w pw_page_id] in Eid.
    assert (q = p) as -> by (eapply nodup_fmap_inj; [exact (chain_nodup _ _ _ _ C) | exact Hq | exact Hp | exact Eid]).
    exact (R5 _ _ _ Hw Ht).
  - destruct (kept_page p Hp Hi) as [Hr Hm0]. apply (mirrored_weaken _ lsn); [| lia].
    change (cp_id p) with (ph_page_id (cp_header p)) in Hr, Hi.
    assert (page_in d (ph_page_id (cp_header p))) as Hin by (apply (page_in_len _ _ _ Hlen); lia).
    eapply mirrored_same; [exact Hm0 | apply (page_in_len _ _ _ R1); lia | apply R6; [exact Hin |]].
    intros (w & Ew & Hw%plan_write)%list_elem_of_fmap. rewrite Ew in Hi. congruence.
Qed.

Lemma replay_plan_ok identity ops b :
  tf_identity f = Some identity -> in_u64 lsn ->
  Forall2 (op_spec f) (mp_page_writes (into_plan s)) ops ->
  entry_of_ops (tf_identity f) ops = Some b -> replayable f b = true ->
  exists d', handle_entry (pl_file_id identity) b lsn (Some d) = (Ok tt, Some d') /\
    mirror d' (lsn + 1) ps' /\
    (forall j, 0 <= j < tf_page_count f -> disk_lsn d j <= disk_lsn d' j) /\
    batch_covered (pl_file_id identity) (disk_lsn d') (ov_page_count (pn_overlay s)) lsn b.
Proof.
  intros Hid Hlsn Hops Hb Hroom. rewrite Hid in Hb. unfold entry_of_ops in Hb. cbn [mbind option_bind] in Hb.
  assert (b = mkPLBatch [mkPLEntry (pl_file_id identity) (omap id ops)]) as ->
    by (destruct (omap id ops); [done | by injection Hb as <-]). clear Hb.
  cbn [replayable pb_entries forallb pe_ops] in Hroom. rewrite andb_true_r in Hroom.
  assert (Forall (fun op => op_replayable f op = true) (omap id ops)) as HF.
  { apply Forall_forall. intros op Hop. rewrite forallb_forall in Hroom. by apply Hroom, list_elem_of_In. }
  destruct (replay_writes f lsn Hlsn _ ops d _ writes_ready Hops HF) as (d' & n' & E & R).
  exists d'. split_and!.
  - unfold handle_entry. cbn [pb_entries st_iter pe_file]. rewrite decide_True by done.
    unfold apply_recovered_entry. cbn [pe_ops]. by st_step by exact E.
  - by eapply replayed_mirror.
  - intros j Hj. apply (ra_lsn _ _ _ _ _ _ _ R), (page_in_len _ _ _ (rr_len _ _ _ _ _ writes_ready)), Hj.
  - rewrite <- (replayed_count _ _ _ R). constructor; [| constructor]. intros _. apply R.
Qed.

End plan.

(** ** Replaying what is already there *)

Lemma mirror_page f img count ps d bound id :
  chain f img count ps -> mirror d bound ps -> 0 <= id < count ->
  page_in d id /\ validate_layout (page_at d id) = Ok tt /\ disk_lsn d id < bound /\
  exists h, header (page_at d id) = Ok h /\ ph_lsn h = disk_lsn d id.
Proof.
  intros C Hm Hid.
  assert (id ∈ cp_id <$> ps) as Hin by (rewrite (ch_ids _ _ _ _ C); apply elem_of_seqZ; lia).
  apply list_elem_of_fmap in Hin as (p & -> & Hp).
  pose proof (mr_pages _ _ _ Hm) as HF. rewrite Forall_forall in HF. specialize (HF p Hp).
  pose proof (mirrored_lsn _ _ _ _ HF) as Hl. destruct HF as [H1 H2 (h & Hh & _ & _)].
  pose proof (header_view_decode _ _ (page_holds_header _ _ _ Hh)) as Eh.
  unfold cp_id, disk_lsn. split_and!; [done | done | done |]. exists h. split; [done |].
  unfold page_lsn. by rewrite Eh.
Qed.

Section covered.
Context (f : TimeSeriesFile) (img : Images) (count : Z) (ps : list ChainPage) (d : list byte) (bound : Z).
Context (C : chain f img count ps) (Hm : mirror d bound ps).

Lemma replay_op_covered lsn op :
  op_covered (disk_lsn d) count lsn op -> apply_recovered_op lsn op (Some d) = (Ok tt, Some d).
Proof.
  destruct op as [| | dl]; cbn [op_covered]; [done | done |]. intros [Hid Hl].
  destruct (mirror_page _ _ _ _ _ _ _ C Hm Hid) as (Hin & Hv & _ & h & Eh & El).
  pose proof (ch_count _ _ _ _ C). unfold apply_recovered_op. change (ensure_file (Some d)) with d.
  rewrite (replay_skip d (pd_page_id dl) lsn dl h); [done | done | done | | done | done | lia].
  unfold MAX_PAGES in *. unfold_bounds. plia.
Qed.

Lemma replay_batch_covered fid lsn b :
  batch_covered fid (disk_lsn d) count lsn b -> handle_entry fid b lsn (Some d) = (Ok tt, Some d).
Proof.
  intros Hb. unfold handle_entry. induction Hb as [| e es He Hb IH]; [done |]. cbn [st_iter].
  rewrite (st_bind_ok _ _ (Some d) tt (Some d)); [exact IH |].
  case_decide as Hfid; [| done]. specialize (He Hfid). unfold apply_recovered_entry.
  clear IH Hb. induction He as [| op ops Hop He IH]; [done |]. cbn [st_iter].
  st_step by (by apply replay_op_covered). exact IH.
Qed.

Lemma replay_all_covered fid es :
  Forall (fun e => batch_covered fid (disk_lsn d) count e.1 e.2) es ->
  handle_all (handle_entry fid) es (Some d) = (Ok tt, Some d).
Proof.
  unfold handle_all. induction 1 as [| [lsn b] es Hb HF IH]; [done |]. cbn [st_iter].
  st_step by (by apply replay_batch_covered). exact IH.
Qed.

End covered.

End replay_plan.
