(* ===== verification/TsRecovery.v ===== *)
(** * Recovery of a time-series file

    A file, its data file and its log belong together: replaying the synced
    entries on the data file gives the pages of the file at the last flush of
    the log, and replaying the queued ones as well gives the pages that
    readers see.  The operations of the file keep it so, as long as data pages
    are flushed behind the log and every write is logged. *)

From S2P Require Import Prelude Errors Compat FileOps LogFrame WalFrames WalBackend WalDurability.
From S2P Require Import PageFormat PageBlock RecordSpec RecordMap PageView PageInsert PageRebuild.
From S2P Require Import PageImage PhysLog Replay TsFile Chain TsChain TsRead TsWrite TsPlan TsRow TsPersist.
From S2P Require Import TsState TsFlush TsMutate TsOpen RelationLog TsReplay.

(** ** Chains with other headers *)

Section relabel.
Context `{PackagesOk} (k : ChainPage -> ChainPage) (ps : list ChainPage).
Context (Hsig : forall p, p ∈ ps -> page_sig (cp_header (k p)) = page_sig (cp_header p)).
Context (Hrecs : forall p, p ∈ ps -> cp_recs (k p) = cp_recs p).

Lemma relabel_id p : p ∈ ps -> cp_id (k p) = cp_id p.
Proof. intros Hp. by apply page_sig_inv, Hsig. Qed.

Lemma relabel_ids : cp_id <$> (k <$> ps) = cp_id <$> ps.
Proof.
  rewrite <- list_fmap_compose. apply list_fmap_ext. intros i p Hp.
  apply relabel_id. by eapply list_elem_of_lookup_2.
Qed.

Lemma relabel_recs : cp_recs <$> (k <$> ps) = cp_recs <$> ps.
Proof.
  rewrite <- list_fmap_compose. apply list_fmap_ext. intros i p Hp.
  apply Hrecs. by eapply list_elem_of_lookup_2.
Qed.

Lemma relabel_mirror d bound : mirror d bound ps -> mirror d bound (k <$> ps).
Proof.
  intros [M1 M2]. split; [by unfold zlen; rewrite length_fmap |].
  rewrite Forall_forall in M2. apply Forall_fmap, Forall_forall. intros p Hp. unfold compose.
  specialize (Hsig p Hp). rewrite (Hrecs p Hp). destruct (M2 p Hp) as [N1 N2 (h & N3 & N4 & N5)].
  assert (ph_page_id (cp_header (k p)) = ph_page_id (cp_header p)) as E
    by (by apply page_sig_inv).
  split; rewrite E; [done | done |]. exists h. split_and!; [done | congruence | done].
Qed.

End relabel.

Lemma relabel_linked (k : ChainPage -> ChainPage) (ps : list ChainPage) : forall prev next,
  (forall p, p ∈ ps -> page_sig (cp_header (k p)) = page_sig (cp_header p)) ->
  linked prev ps next -> linked prev (k <$> ps) next.
Proof.
  induction ps as [| p ps IH]; intros prev next Hs; [done |]. rewrite fmap_cons. cbn [linked].
  pose proof (Hs p (list_elem_of_here _ _)) as Hp. apply page_sig_inv in Hp as (E1 & E2 & E3 & _).
  unfold cp_id. rewrite E1, E2, E3. intros (Hprev & Hn & Hl). split_and!; [done | |].
  - rewrite Hn. destruct ps as [| q ps]; [done |]. rewrite fmap_cons. cbn [first_id].
    symmetry. apply (relabel_id k (p :: q :: ps) Hs). right. left.
  - apply IH; [intros q Hq; apply Hs; by right | done].
Qed.

(** ** The file on the disk *)

(** The page as the data file has it. *)
Definition page_of_disk `{Packages} (d : list byte) (p : ChainPage) : ChainPage :=
  mkChainPage (match header (page_at d (cp_id p)) with Ok h => h | _ => cp_header p end) (cp_recs p).

(** The file with the data file [d] and nothing in the cache. *)
Definition file_of_disk (d : list byte) (c : TimeSeriesFile) : TimeSeriesFile :=
  set_dirty_pages ∅ (set_page_cache ∅ (set_disk (Some d) c)).

Section disk.
Context `{PackagesOk} (c : TimeSeriesFile) (ps : list ChainPage) (d : list byte) (bound : Z).
Context (I : file_inv c ps) (Hm : mirror d bound ps).

Lemma page_of_disk_ok p : p ∈ ps ->
  page_in d (cp_id p) /\ validate_layout (page_at d (cp_id p)) = Ok tt /\
  page_holds (page_at d (cp_id p)) (cp_header (page_of_disk d p)) (cp_recs p) /\
  page_sig (cp_header (page_of_disk d p)) = page_sig (cp_header p).
Proof.
  intros Hp. pose proof (mr_pages _ _ _ Hm) as HF. rewrite Forall_forall in HF.
  destruct (HF p Hp) as [M1 M2 (h & M3 & M4 & _)]. unfold page_of_disk, cp_id in *.
  rewrite (header_view_decode _ _ (page_holds_header _ _ _ M3)). by split_and!.
Qed.

Lemma disk_img_page id : 0 <= id < tf_page_count c ->
  file_img (file_of_disk d c) id = Some (page_at d id) /\ validate_layout (page_at d id) = Ok tt.
Proof.
  intros Hid. destruct (mirror_page _ _ _ _ _ _ _ (fc_chain _ _ (fi_chain _ _ I)) Hm Hid) as ([_ Hin] & Hv & _).
  split; [| done]. unfold file_img, file_of_disk.
  cbn [set_dirty_pages set_page_cache set_disk tf_page_cache tf_disk tf_page_count].
  change (ensure_file (Some d)) with d. rewrite lookup_empty, (proj2 (Z.leb_le _ _) (proj1 Hid)), (proj2 (Z.ltb_lt _ _) (proj2 Hid)).
  cbv zeta. cbn [andb]. by rewrite (proj2 (Z.leb_le _ _) Hin).
Qed.

Lemma mirror_inv : file_inv (file_of_disk d c) (page_of_disk d <$> ps).
Proof.
  pose proof (fi_chain _ _ I) as F. pose proof (fc_chain _ _ F) as C.
  assert (forall p, p ∈ ps -> page_sig (cp_header (page_of_disk d p)) = page_sig (cp_header p)) as Hsig
    by (intros p Hp; by apply page_of_disk_ok).
  pose proof (relabel_ids (page_of_disk d) ps Hsig) as Hids.
  split; cbn [file_of_disk set_dirty_pages set_page_cache set_disk tf_page_cache tf_disk tf_page_count
              tf_dirty_pages]; try change (ensure_file (Some d)) with d.
  - destruct F as [_ F2 F3 F4 F5 F6 F7].
    split; cbn [file_of_disk set_dirty_pages set_page_cache set_disk tf_open tf_head_raw tf_tail_raw
                tf_tuple_format_version tf_tuple_schema_hash tf_tuple_flags tf_page_count]; try done.
    + destruct C as [C1 C2 C3 C4 C5 C6]. split; [| | by rewrite Hids | | | done].
      * apply Forall_fmap, Forall_forall. intros p Hp. unfold compose, page_shown.
        rewrite (relabel_id _ _ Hsig p Hp). exists (page_at d (cp_id p)).
        split; [| exact (proj1 (proj2 (proj2 (page_of_disk_ok p Hp))))].
        apply disk_img_page. by apply (chain_range _ _ _ _ (fc_chain _ _ (fi_chain _ _ I))).
      * by apply relabel_linked.
      * apply Forall_fmap, Forall_forall. intros p Hp. rewrite Forall_forall in C4.
        destruct (C4 p Hp) as (P1 & P2 & P3). specialize (Hsig p Hp). apply page_sig_inv in Hsig as (_ & _ & _ & S4 & S5 & S6).
        unfold compose, page_meta. rewrite S4, S5, S6. exact (conj P1 (conj P2 P3)).
      * eapply ordered_recs; [| exact C5]. symmetry. by apply relabel_recs.
    + by rewrite (head_id_ids _ _ Hids).
    + by rewrite (tail_id_ids _ _ Hids).
  - by intros id ?%elem_of_empty.
  - intros id Hid _. rewrite (proj1 (disk_img_page id Hid)). unfold disk_img.
    destruct (mirror_page _ _ _ _ _ _ _ C Hm Hid) as ([_ Hin] & _).
    change (ensure_file (tf_disk (file_of_disk d c))) with d. cbv zeta. by rewrite (proj2 (Z.leb_le _ _) Hin).
  - intros id img Hid. destruct (disk_img_page id Hid) as [-> Hv]. by intros [= <-].
  - rewrite (mr_len _ _ _ Hm), (chain_length _ _ _ _ C). done.
  - intros id a Ha. by rewrite lookup_empty in Ha.
Qed.

End disk.

(** ** Files that can be recovered *)

Definition file_lsn `{Packages} (f : TimeSeriesFile) (id : Z) : Z :=
  match file_img f id with Some img => page_lsn img | None => 0 end.

Section recovery.
Context `{PackagesOk} `{MsgpackOk PLBatch} (ident : TimeSeriesFileIdentity) (hash : Z).

Notation frames := (log_frames RELATION_WAL_CHUNK_SIZE).
Notation entries := (log_entries RELATION_WAL_CHUNK_SIZE).
Notation replay := (handle_all (handle_entry (pl_file_id ident))).

Definition covered (L : Z -> Z) (count : Z) (es : list (Z * PLBatch)) : Prop :=
  Forall (fun e => batch_covered (pl_file_id ident) L count e.1 e.2) es.

(** The file [f] shows the chain [ps]; its log has the synced entries [us]
    and the queued entries [qs].  The synced entries turn the data file into
    [dc], which has the pages of [c]; the queued ones turn it into [dq], which
    has the pages of [f].  Replay skips an entry on every page that has it. *)
Record recoverable (f c : TimeSeriesFile) (ps psc : list ChainPage) (s : WorkerWALBackend)
    (us qs : list PLBatch) (dc dq : list byte) : Prop := mk_recoverable {
  rc_inv : file_inv f ps;
  rc_opened : opened_with f hash;
  rc_ident : tf_identity f = Some ident;
  rc_wal : tf_wal_backend f = Some s;
  rc_disk : is_Some (tf_disk f);
  rc_log : log_state s us qs;
  rc_dirty : Z.of_nat (size (tf_dirty_pages f)) < DIRTY_PAGE_FLUSH_THRESHOLD;
  rc_cinv : file_inv c psc;
  rc_copened : opened_with c hash;
  rc_synced : replay (entries 0 us) (tf_disk f) = (Ok tt, Some dc);
  rc_cmirror : mirror dc (zlen (frames 0 us)) psc;
  rc_ccovered : covered (disk_lsn dc) (tf_page_count c) (entries 0 us);
  rc_queued : replay (entries (zlen (frames 0 us)) qs) (Some dc) = (Ok tt, Some dq);
  rc_mirror : mirror dq (zlen (frames 0 (us ++ qs))) ps;
  rc_qcovered : covered (disk_lsn dq) (tf_page_count f) (entries 0 (us ++ qs));
  rc_covered : covered (file_lsn f) (tf_page_count f) (entries 0 (us ++ qs));
  rc_below : forall id, 0 <= id < tf_page_count f -> file_lsn f id < zlen (frames 0 (us ++ qs));
}.

Lemma set_wal_inv w f ps : file_inv f ps -> file_inv (set_wal w f) ps.
Proof.
  intros [[C F2 F3 F4 F5 F6 F7] ? ? ? ? ?]. split; try done. split; try done.
  by eapply chain_ext; [| | | | exact C].
Qed.

Lemma covered_mono L L' n n' es :
  covered L n es -> n <= n' -> (forall id, 0 <= id < n -> L id <= L' id) -> covered L' n' es.
Proof.
  intros HF Hn HL. eapply Forall_impl; [exact HF |]. intros [lsn b] Hb. cbn [fst snd] in *.
  eapply Forall_impl; [exact Hb |]. intros e He Hfid. eapply Forall_impl; [exact (He Hfid) |].
  intros [| | dl]; cbn [op_covered]; [done | done |]. intros [Hid Hl]. specialize (HL _ Hid). lia.
Qed.

Lemma chain_index f ps id : file_inv f ps -> 0 <= id < tf_page_count f -> exists p, p ∈ ps /\ cp_id p = id.
Proof.
  intros I Hid. pose proof (fc_chain _ _ (fi_chain _ _ I)) as C.
  assert (id ∈ cp_id <$> ps) as Hin by (rewrite (ch_ids _ _ _ _ C); apply elem_of_seqZ; lia).
  apply list_elem_of_fmap in Hin as (p & -> & Hp). by exists p.
Qed.

(** The pages of a file without dirty pages have the LSNs of the data file. *)
Lemma clean_lsn f ps d id :
  file_inv f ps -> tf_dirty_pages f = ∅ -> tf_disk f = Some d -> 0 <= id < tf_page_count f ->
  file_lsn f id = disk_lsn d id.
Proof.
  intros I Hd Ed Hid. destruct (chain_index f ps id I Hid) as (p & Hp & <-).
  destruct (page_on_disk f ps I Hd p Hp) as (_ & _ & _ & Hi). rewrite Ed in Hi.
  change (ensure_file (Some d)) with d in Hi. unfold file_lsn. rewrite Hi. reflexivity.
Qed.

Lemma page_file_lsn f ps p : file_inv f ps -> p ∈ ps -> file_lsn f (cp_id p) = ph_lsn (cp_header p).
Proof.
  intros I Hp. destruct (chain_page _ _ _ _ (fc_chain _ _ (fi_chain _ _ I)) p Hp) as (pg & Hi & Hpg).
  unfold file_lsn, page_lsn. by rewrite Hi, (header_view_decode _ _ (page_holds_header _ _ _ Hpg)).
Qed.

(** A file whose pages are on the disk and whose log is synced. *)
Lemma recoverable_clean f ps s us d :
  file_inv f ps -> opened_with f hash -> tf_identity f = Some ident -> tf_wal_backend f = Some s ->
  log_state s us [] -> tf_dirty_pages f = ∅ -> tf_disk f = Some d -> mirror d (zlen (frames 0 us)) ps ->
  covered (disk_lsn d) (tf_page_count f) (entries 0 us) -> recoverable f f ps ps s us [] d d.
Proof.
  intros I Ho Ei Ew L Hdp Ed Hm Hc. pose proof (fc_chain _ _ (fi_chain _ _ I)) as C.
  assert (forall id, 0 <= id < tf_page_count f -> file_lsn f id = disk_lsn d id) as Hl
    by (intros id Hid; by apply (clean_lsn f ps)).
  pose proof (replay_all_covered _ _ _ _ _ _ C Hm _ _ Hc) as Hr.
  split; rewrite ?app_nil_r; try assumption; try done.
  - by rewrite Hdp, size_empty.
  - by rewrite Ed.
  - eapply covered_mono; [exact Hc | lia |]. intros id Hid. rewrite Hl by exact Hid. lia.
  - intros id Hid. rewrite Hl by exact Hid. by apply (mirror_page _ _ _ _ _ _ _ C Hm Hid).
Qed.

(** Reading. *)
Lemma recoverable_read f c ps psc s us qs dc dq f' :
  recoverable f c ps psc s us qs dc dq -> cache_filled f f' -> recoverable f' c ps psc s us qs dc dq.
Proof.
  intros R Hf. destruct (filled_fields _ _ Hf) as (Ei & Ed & _ & Ew & Edp & Ec & _ & _ & E1 & E2 & E3).
  assert (forall id, file_lsn f' id = file_lsn f id) as El
    by (intros id; unfold file_lsn; by rewrite (filled_img _ _ Hf)).
  destruct R as [R1 R2 R3 R4 R0 R5 R6 R7 R8 R9 R10 R11 R12 R13 R14 R15 R16].
  split; rewrite ?Ei, ?Ed, ?Ew, ?Edp, ?Ec; try assumption.
  - by eapply filled_inv.
  - unfold opened_with in *. by rewrite E1, E2, E3.
  - eapply covered_mono; [exact R15 | lia |]. intros id _. rewrite El. lia.
  - intros id Hid. rewrite El. by apply R16.
Qed.

(** Flushing the log. *)
Lemma recoverable_commit f c ps psc s us qs dc dq :
  recoverable f c ps psc s us qs dc dq ->
  exists s', flush_wal_async f = (Ok tt, set_wal (Some s') f) /\
    recoverable (set_wal (Some s') f) (set_wal (Some s') f) ps ps s' (us ++ qs) [] dq dq.
Proof.
  intros [R1 R2 R3 R4 R0 R5 R6 R7 R8 R9 R10 R11 R12 R13 R14 R15 R16].
  destruct (log_commit s us qs R5) as (s' & E & L). exists s'. split.
  - unfold flush_wal_async. st_step by reflexivity. rewrite R4. unfold on_wal. rewrite R4. by rewrite E.
  - pose proof (set_wal_inv (Some s') f ps R1) as I'.
    split; rewrite ?app_nil_r; try assumption; try done.
    change (tf_disk (set_wal (Some s') f)) with (tf_disk f).
    unfold handle_all in *. rewrite (proj2 (frames_app us qs)), st_iter_app. by st_step by exact R9.
Qed.

(** Opening the file after a power loss: the log has its synced chunk files. *)
Lemma recoverable_reopen f c ps psc s us qs dc dq :
  recoverable f c ps psc s us qs dc dq ->
  exists f' ps' s', open_relation_file (wb_synced s) ident hash true (tf_disk f) = (Ok f', Some dc) /\
    cp_recs <$> ps' = cp_recs <$> psc /\ recoverable f' f' ps' ps' s' us [] dc dc.
Proof.
  intros [R1 R2 R3 R4 R0 R5 R6 R7 R8 R9 R10 R11 R12 R13 R14 R15 R16].
  destruct (log_restart s us qs R5) as (s' & Es & L).
  pose proof (mirror_inv c psc dc _ R7 R10) as Id.
  destruct (open_inner_ok (file_of_disk dc c) _ Id eq_refl (Some ident) (Some s') hash true R8)
    as (f' & Eo & I' & Ei & Ew & Ec & Ed & Eca & Edp & E1 & E2 & E3); [by left; eexists |].
  set (ps' := page_of_disk dc <$> psc) in *.
  assert (forall p, p ∈ psc -> page_sig (cp_header (page_of_disk dc p)) = page_sig (cp_header p)) as Hsig
    by (intros p Hp; exact (proj2 (proj2 (proj2 (page_of_disk_ok psc dc _ R10 p Hp))))).
  assert (mirror dc (zlen (frames 0 us)) ps') as Hm by (by apply relabel_mirror).
  exists f', ps', s'. split_and!.
  - unfold open_relation_file. st_step by (unfold st_lift; rewrite Es; reflexivity).
    unfold recover_relation_file. st_step by (rewrite (log_recover _ _ _ _ _ L); st_step by exact R9; reflexivity).
    st_step by reflexivity. st_step by reflexivity.
    change (tf_disk (file_of_disk dc c)) with (Some dc) in Eo, Ed. change (ensure_file (Some dc)) with dc in Ed.
    st_step by (unfold st_lift; rewrite Eo; reflexivity). st_step by reflexivity. by rewrite Ed.
  - by apply relabel_recs.
  - change (ensure_file (tf_disk (file_of_disk dc c))) with dc in Ed.
    change (tf_page_count (file_of_disk dc c)) with (tf_page_count c) in Ec.
    apply recoverable_clean; try done. by rewrite Ec.
Qed.

(** Flushing the data pages behind the log. *)
Lemma recoverable_flush f c ps psc s us dc dq :
  recoverable f c ps psc s us [] dc dq ->
  exists f' d, flush f = (Ok tt, f') /\ recoverable f' f' ps ps s us [] d d.
Proof.
  intros [R1 R2 R3 R4 R0 R5 R6 R7 R8 R9 R10 R11 R12 R13 R14 R15 R16]. rewrite app_nil_r in *.
  destruct (flush_dirty_pages_ok f ps R1) as (d0 & E & I' & Hsome). destruct (Hsome R0) as [d ->].
  set (f' := set_dirty_pages ∅ (set_disk (Some d) f)) in *.
  assert (forall id, 0 <= id < tf_page_count f -> disk_lsn d id = file_lsn f id) as Hl.
  { intros id Hid. rewrite <- (clean_lsn f' ps d id I' eq_refl eq_refl Hid).
    destruct (chain_index f ps id R1 Hid) as (p & Hp & <-).
    by rewrite (page_file_lsn f' ps p I' Hp), (page_file_lsn f ps p R1 Hp). }
  exists f', d. split.
  { unfold flush. st_step by exact E. unfold file_ref, st_reads. by rewrite (fc_open _ _ (fi_chain _ _ I')). }
  apply recoverable_clean; [exact I' | exact R2 | exact R3 | exact R4 | exact R5 | reflexivity | reflexivity | |].
  - split; [by rewrite (chain_length _ _ _ _ (fc_chain _ _ (fi_chain _ _ I'))), <- (clean_len f' ps I' eq_refl) |].
    apply Forall_forall. intros p Hp. destruct (page_on_disk f' ps I' eq_refl p Hp) as (P1 & P2 & P3 & _).
    split; [exact P1 | exact P3 |]. exists (cp_header p). refine (conj P2 (conj eq_refl _)).
    rewrite <- (page_file_lsn f ps p R1 Hp).
    exact (R16 _ (chain_range _ _ _ _ (fc_chain _ _ (fi_chain _ _ R1)) p Hp)).
  - eapply covered_mono; [exact R15 | done |]. intros id Hid. rewrite Hl by exact Hid. lia.
Qed.

(** ** Writes behind the log *)

(** The operation that the log has of a page write is about that page. *)
Lemma op_spec_page f w op :
  op_spec f w (Some op) -> exists dl, op = PageDelta_ dl /\ pd_page_id dl = pw_page_id w.
Proof.
  unfold op_spec. destruct (_ <=? _).
  - intros (init & E & [= ->]). unfold page_init_delta in E.
    destruct (header (pw_image w)) as [h | |]; [| done | done]. cbn [mbind res_bind] in E.
    destruct (page_records (pw_image w)) as [rs | |]; [| done | done]. injection E as <-. by eexists.
  - intros (old & _ & E). unfold page_record_delta in E.
    destruct (header old) as [h0 | |]; [| done | done]. cbn [mbind res_bind] in E.
    destruct (header (pw_image w)) as [h | |]; [| done | done]. cbn [mbind res_bind] in E.
    destruct (slot_count old) as [n0 | |]; [| done | done]. cbn [mbind res_bind] in E.
    destruct (slot_count (pw_image w)) as [n | |]; [| done | done]. cbn [mbind res_bind] in E.
    destruct (record_diff _ _ _ _ _ _ _ _ _) as [[ks us] | |]; [| done | done]. cbn [mbind res_bind] in E.
    repeat case_match; simplify_eq; by eexists.
Qed.

Lemma ops_covered f L count lsn ws ops b :
  Forall2 (op_spec f) ws ops -> entry_of_ops (Some ident) ops = Some b ->
  (forall w, w ∈ ws -> 0 <= pw_page_id w < count /\ lsn <= L (pw_page_id w)) ->
  batch_covered (pl_file_id ident) L count lsn b.
Proof.
  intros HF Hb HL. unfold entry_of_ops in Hb. cbn [mbind option_bind] in Hb.
  assert (b = mkPLBatch [mkPLEntry (pl_file_id ident) (omap id ops)]) as ->
    by (destruct (omap id ops); [done | by injection Hb as <-]).
  constructor; [| constructor]. intros _. cbn [pe_ops]. clear Hb.
  induction HF as [| w op ws ops Hop HF IH]; [constructor |].
  assert (Forall (op_covered L count lsn) (omap id ops)) as Htl by (apply IH; intros w' Hw; apply HL; by right).
  destruct op as [op |]; [| exact Htl]. constructor; [| exact Htl].
  destruct (op_spec_page _ _ _ Hop) as (dl & -> & Edl). cbn [op_covered]. rewrite Edl. apply HL. left.
Qed.

Lemma mirror_weaken d n n' ps : mirror d n ps -> n <= n' -> mirror d n' ps.
Proof.
  intros [M1 M2] Hn. split; [exact M1 |]. eapply Forall_impl; [exact M2 |].
  intros p Hp. exact (mirrored_weaken _ _ _ _ _ Hp Hn).
Qed.

Lemma restamp_sig lsn M p : page_sig (cp_header (restamp lsn M p)) = page_sig (cp_header p).
Proof. unfold restamp. destruct (M !! cp_id p); [| done]. by destruct lsn. Qed.

Section write.
Context (f c : TimeSeriesFile) (ps psc : list ChainPage) (s : WorkerWALBackend).
Context (us qs : list PLBatch) (dc dq : list byte) (R : recoverable f c ps psc s us qs dc dq).
Context (now : Z) (b : PLBatch) (f1 f2 : TimeSeriesFile) (pl : Planning) (ps1 : list ChainPage).
Context (M : gmap Z (list byte)) (ops : list (option PLOp)).
Let lsn := zlen (frames 0 (us ++ qs)).
Let f' := set_meta (ov_page_count (pn_overlay pl)) ps1 f2.
Context (Ip : plan_inv f pl ps1) (Hf1 : cache_filled f f1).
Context (Hops : Forall2 (op_spec f) (mp_page_writes (into_plan pl)) ops).
Context (Hb : entry_of_ops (Some ident) ops = Some b).
Context (HM : images_sealed (Some lsn) (ov_page_images (pn_overlay pl)) M).
Context (Hpub : published (set_wal (wal_after now (Some b) (Some s)) f1) M f2).

Lemma written_inv : file_inv f' (restamp (Some lsn) M <$> ps1).
Proof. eapply published_inv; [apply R | exact Ip | exact Hf1 | exact HM | exact Hpub]. Qed.

(** The LSNs of the pages after the write. *)
Lemma written_lsn id : 0 <= id < tf_page_count f' ->
  (is_Some (M !! id) /\ file_lsn f' id = lsn) \/
  (0 <= id < tf_page_count f /\ M !! id = None /\ file_lsn f' id = file_lsn f id).
Proof.
  intros Hid. destruct (publish_fields f f1 f2 ps1 pl _ M Hf1 Hpub) as (_ & _ & _ & _ & _ & Ec & _).
  fold f' in Ec. destruct (M !! id) as [img |] eqn:EM; [left | right].
  - split; [by eexists |]. destruct (chain_index f' _ id written_inv Hid) as (p & Hp & <-).
    rewrite (page_file_lsn f' _ p written_inv Hp).
    apply list_elem_of_fmap in Hp as (q & -> & Hq). unfold restamp.
    destruct (restamp_fields (Some lsn) M q) as (_ & E & _). rewrite E in EM. by rewrite EM.
  - rewrite Ec in Hid. destruct (unwritten f ps1 pl (Some lsn) M Ip HM id EM Hid) as [Hid0 _].
    split_and!; [lia | lia | done |]. unfold file_lsn, f'.
    by rewrite (publish_img f f1 f2 ps1 pl _ (Some lsn) M Ip Hf1 HM Hpub id Hid), EM.
Qed.

Lemma plan_images w : w ∈ mp_page_writes (into_plan pl) ->
  is_Some (M !! pw_page_id w) /\ 0 <= pw_page_id w < tf_page_count f'.
Proof.
  intros Hw%plan_write. pose proof (HM (pw_page_id w)) as Hs. rewrite Hw in Hs.
  assert (is_Some (ov_page_images (pn_overlay pl) !! pw_page_id w)) as Hi by (by rewrite Hw).
  pose proof (pi_ids _ _ _ Ip _ Hi) as Hid.
  destruct (publish_fields f f1 f2 ps1 pl _ M Hf1 Hpub) as (_ & _ & _ & _ & _ & Ec & _). fold f' in Ec.
  rewrite Ec. destruct (M !! pw_page_id w); [| done]. split; [by eexists | exact Hid].
Qed.

Lemma written_covered :
  covered (file_lsn f') (tf_page_count f') (entries 0 (us ++ qs) ++ [(lsn, b)]) /\
  (forall id, 0 <= id < tf_page_count f' -> file_lsn f' id <= lsn).
Proof.
  destruct (publish_fields f f1 f2 ps1 pl _ M Hf1 Hpub) as (_ & _ & _ & _ & _ & Ec & _). fold f' in Ec.
  assert (forall id, 0 <= id < tf_page_count f' -> file_lsn f' id <= lsn) as Hle.
  { intros id Hid. destruct (written_lsn id Hid) as [[_ ->] | (Hid0 & _ & ->)]; [lia |].
    pose proof (rc_below _ _ _ _ _ _ _ _ _ R id Hid0). unfold lsn. lia. }
  split; [| exact Hle]. apply Forall_app. split.
  - pose proof (pi_count _ _ _ Ip) as Hc. eapply covered_mono; [exact (rc_covered _ _ _ _ _ _ _ _ _ R) | lia |].
    intros id Hid. destruct (written_lsn id ltac:(lia)) as [[_ ->] | (_ & _ & ->)]; [| lia].
    pose proof (rc_below _ _ _ _ _ _ _ _ _ R id Hid). unfold lsn. lia.
  - constructor; [| constructor]. cbn [fst snd]. eapply ops_covered; [exact Hops | exact Hb |].
    intros w Hw. destruct (plan_images w Hw) as [Hs Hid]. split; [exact Hid |].
    destruct (written_lsn _ Hid) as [[_ ->] | (_ & En & _)]; [lia |].
    rewrite En in Hs. by destruct Hs.
Qed.

Lemma queued_snoc : entries (zlen (frames 0 us)) (qs ++ [b]) = entries (zlen (frames 0 us)) qs ++ [(lsn, b)].
Proof.
  rewrite (proj2 (log_frames_app RELATION_WAL_CHUNK_SIZE qs [b] _)). cbn [log_entries].
  unfold lsn. by rewrite (proj1 (frames_app us qs)), zlen_app.
Qed.

Lemma recoverable_write s' :
  wal_after now (Some b) (Some s) = Some s' -> logs_entry (Some s) b -> replayable f b = true ->
  Z.of_nat (size (tf_dirty_pages f')) < DIRTY_PAGE_FLUSH_THRESHOLD ->
  exists dq', recoverable f' c (restamp (Some lsn) M <$> ps1) psc s' us (qs ++ [b]) dc dq'.
Proof.
  intros Hw Hlog Hroom Hdirty. destruct written_covered as [Hcov Hle].
  destruct (publish_fields f f1 f2 ps1 pl _ M Hf1 Hpub)
    as (Ed & _ & Ei & _ & _ & Ec & Ew & E1 & E2 & E3). fold f' in Ed, Ei, Ec, Ew, E1, E2, E3.
  pose proof written_inv as I'. pose proof R as [R1 R2 R3 R4 R0 R5 R6 R7 R8 R9 R10 R11 R12 R13 R14 R15 R16].
  pose proof (log_enqueue now s us qs b s' R5 Hlog Hw) as L.
  destruct (frames_app (us ++ qs) [b]) as [Ef Ee]. fold lsn in Ef, Ee. rewrite <- app_assoc in Ef, Ee.
  cbn [log_entries] in Ee.
  assert (lsn + 1 <= zlen (frames 0 (us ++ qs ++ [b]))) as Hlen.
  { rewrite Ef, zlen_app. fold lsn. cbn [log_frames]. rewrite app_nil_r.
    destruct (backend_serialize_ok b s) as (_ & _ & Hne);
      [by rewrite (ls_chunk _ _ _ R5) | unfold logs_entry in Hlog; by destruct Hlog |].
    rewrite (ls_chunk _ _ _ R5), (ls_next _ _ _ R5) in Hne. fold lsn in Hne.
    destruct (entry_frames _ lsn b) as [| x l]; [done |]. rewrite zlen_cons. pose proof (zlen_nonneg l). lia. }
  assert (in_u64 lsn) as Hlsn by (pose proof (ls_max _ _ _ R5); pose proof (zlen_nonneg (frames 0 (us ++ qs)));
    unfold lsn; mlia).
  rewrite <- R3 in Hb.
  destruct (replay_plan_ok f ps ps1 pl dq lsn R1 Ip R13 ident ops b R3 Hlsn Hops Hb Hroom)
    as (dq' & Er & Hm & Hmono & Hbc).
  exists dq'. split; rewrite ?Ed, ?Ei, ?Ee.
  - exact I'.
  - unfold opened_with. rewrite E1, E2, E3. exact R2.
  - exact R3.
  - by rewrite Ew.
  - exact R0.
  - exact L.
  - exact Hdirty.
  - exact R7.
  - exact R8.
  - exact R9.
  - exact R10.
  - exact R11.
  - rewrite queued_snoc. unfold handle_all in *. rewrite st_iter_app. st_step by exact R12. cbn [st_iter]. by st_step by exact Er.
  - apply relabel_mirror; [intros p _; apply restamp_sig | intros p _; apply restamp_fields |].
    by eapply mirror_weaken.
  - rewrite Ec. apply Forall_app. split; [| by constructor].
    pose proof (pi_count _ _ _ Ip). eapply covered_mono; [exact R14 | lia | exact Hmono].
  - exact Hcov.
  - intros id Hid. specialize (Hle id Hid). lia.
Qed.

End write.

End recovery.
