(* ===== verification/TimeSeries.v ===== *)
(** * Time-series files as an interface

    What a relation uses of its two files, with the laws it relies on, and the
    instance for the page files of [time_series_file.rs].  A file holds a list
    of records in the order in which a lookup meets them: the first record
    with a key is the one that counts, the others are shadowed. *)

From S2P Require Import Prelude Errors Compat FileOps LogFrame RecordSpec RecordMap PageImage PhysLog.
From S2P Require Import TsFile Chain TsChain TsRead TsWrite TsRow TsState TsMutate.

Class TimeSeries (F : Type) := {
  ts_get : Z -> Z -> ST ErrorCode F (option TimeSeriesRecord);
  ts_scan_range : Z -> Z -> ST ErrorCode F (list TimeSeriesRecord);
  ts_insert_batch : Z -> list (Z * Z * list byte) -> ST ErrorCode F unit;
}.

(** [ts_rep f rs]: the file [f] holds the records [rs].  [ts_room f rs]: the
    rows [rs] are well formed, and the file and its log do not run out of
    page numbers and log sequence numbers. *)
Class TimeSeriesOk (F : Type) `{TimeSeries F} := {
  ts_rep : F -> list Rec -> Prop;
  ts_room : F -> list Rec -> Prop;
  ts_get_law f rs ts id :
    ts_rep f rs ->
    exists res f', ts_get ts id f = (Ok res, f') /\ ts_rep f' rs /\
      ts_payload <$> res = to_map rs !! (ts, id);
  ts_scan_law f rs b e :
    ts_rep f rs ->
    exists rows f', ts_scan_range b e f = (Ok rows, f') /\ ts_rep f' rs /\
      entry_of <$> rows ≡ₚ filter (in_range b e) rs /\ StronglySorted key_le (entry_of <$> rows);
  ts_insert_law now f rs rows :
    ts_rep f rs -> ts_room f rows ->
    (exists f' rs', ts_insert_batch now (row_of <$> rows) f = (Ok tt, f') /\ ts_rep f' rs' /\
       to_map rs' = puts (to_map rs) rows /\ rs' ⊆+ rows ++ rs) \/
    (exists e f', ts_insert_batch now (row_of <$> rows) f = (Err e, f') /\ ts_rep f' rs);
  ts_insert_nil now f : ts_insert_batch now [] f = (Ok tt, f);
}.

(** ** Page files *)

Section page_files.
Context `{PackagesOk} `{MsgpackOk PLBatch}.

#[export] Instance page_file_series : TimeSeries TimeSeriesFile := {
  ts_get := file_get;
  ts_scan_range := scan_range;
  ts_insert_batch := insert_batch;
}.

Lemma chain_map_to_map ps : chain_map ps = to_map (chain_recs ps).
Proof.
  induction ps as [| p ps IH]; [done |]. rewrite chain_map_cons, IH. unfold chain_recs. rewrite fmap_cons. cbn [concat].
  by rewrite to_map_app.
Qed.

Definition file_holds (f : TimeSeriesFile) (rs : list Rec) : Prop := exists ps, file_inv f ps /\ chain_recs ps = rs.

Definition file_room (f : TimeSeriesFile) (rs : list Rec) : Prop :=
  Forall row_ok rs /\ tf_page_count f + zlen rs <= MAX_PAGES /\ log_room f (batch_entry f (row_of <$> rs)).

Lemma file_get_law f rs ts id :
  file_holds f rs ->
  exists res f', file_get ts id f = (Ok res, f') /\ file_holds f' rs /\
    ts_payload <$> res = to_map rs !! (ts, id).
Proof.
  intros (ps & I & <-). destruct (file_get_ok f ps ts id (fi_chain _ _ I)) as (res & f' & E & Hf & Hr).
  exists res, f'. split; [done |]. split; [exists ps; split; [by eapply filled_inv | done] |].
  rewrite <- chain_map_to_map. destruct res as [r |], (chain_map ps !! (ts, id)) as [v |]; try done.
  cbn in Hr |- *. injection Hr as _ _ ->. done.
Qed.

Lemma file_scan_law f rs b e :
  file_holds f rs ->
  exists rows f', scan_range b e f = (Ok rows, f') /\ file_holds f' rs /\
    entry_of <$> rows ≡ₚ filter (in_range b e) rs /\ StronglySorted key_le (entry_of <$> rows).
Proof.
  intros (ps & I & <-). destruct (Z.le_gt_cases b e) as [Hle | Hgt].
  - destruct (scan_range_ok f ps b e (fi_chain _ _ I) Hle) as (rows & f' & E & Hf & Hr).
    exists rows, f'. rewrite Hr. split; [done |]. split; [exists ps; split; [by eapply filled_inv | done] |].
    split; [apply sort_stable_perm | apply sort_rec_leb].
  - exists [], f. unfold scan_range. rewrite (proj2 (Z.ltb_lt _ _)) by lia.
    split; [done |]. split; [by exists ps |]. split; [| constructor].
    assert (filter (in_range b e) (chain_recs ps) = []) as ->; [| done].
    apply elem_of_nil_inv. intros r [[? ?] _]%list_elem_of_filter. lia.
Qed.

Lemma file_insert_law now f rs rows :
  file_holds f rs -> file_room f rows ->
  (exists f' rs', insert_batch now (row_of <$> rows) f = (Ok tt, f') /\ file_holds f' rs' /\
     to_map rs' = puts (to_map rs) rows /\ rs' ⊆+ rows ++ rs) \/
  (exists e f', insert_batch now (row_of <$> rows) f = (Err e, f') /\ file_holds f' rs).
Proof.
  intros (ps & I & <-) (HF & Hmax & Hlog).
  destruct (insert_batch_ok now f ps rows I HF Hmax Hlog)
    as [(f' & ps' & E & I' & Hm & Hr & _) | (f' & E & Hf & _)].
  - left. exists f', (chain_recs ps'). rewrite <- !chain_map_to_map. split_and!; try done. by exists ps'.
  - right. exists InsufficientBufferSpace, f'. split; [done |]. exists ps. split; [by eapply filled_inv | done].
Qed.

#[export] Instance page_file_series_ok : TimeSeriesOk TimeSeriesFile := {
  ts_rep := file_holds;
  ts_room := file_room;
  ts_get_law := file_get_law;
  ts_scan_law := file_scan_law;
  ts_insert_law := file_insert_law;
  ts_insert_nil := fun now f => eq_refl;
}.

End page_files.
