(* ===== verification/TsProperties.v ===== *)
(** * Properties of the time-series file

    What the file promises to the relation layer: reads see the records of
    the chain, an insertion or a deletion does exactly what it says or
    nothing, a flushed file can be reopened, and writers may go on during a
    flush.  The last theorems show where it does not keep its promises. *)

From S2P Require Import Prelude Errors Compat FileOps LogFrame WalFrames WalBackend WalDurability.
From S2P Require Import PageFormat PageBlock RecordSpec RecordMap PageView PageInsert PageRebuild.
From S2P Require Import PageImage PhysLog Replay PlCodec TsFile Chain TsChain TsRead TsWrite TsPlan TsRow.
From S2P Require Import TsPersist TsState TsFlush TsMutate TsOpen.

Section properties.
Context `{PackagesOk} `{MsgpackOk PLBatch}.

(** Point reads.  [get] on a file never fails and finds exactly the
    payload that the chain holds for the key, the one on the newest page if
    there are several; reading changes nothing but the page cache. *)
Theorem get_correct f ps ts id :
  file_inv f ps ->
  exists res f', file_get ts id f = (Ok res, f') /\ file_inv f' ps /\ cache_filled f f' /\
    entry_of <$> res = mkRec ts id <$> chain_map ps !! (ts, id).
Proof.
  intros I. destruct (file_get_ok f ps ts id (fi_chain _ _ I)) as (res & f' & E & Hf & Hr).
  exists res, f'. split_and!; [done | by eapply filled_inv | done | done].
Qed.

(** Range reads.  [scan_range] never fails and returns the records of all
    pages with a timestamp in the closed range, each as often as the chain
    holds it, in key order. *)
Theorem scan_range_correct f ps b e :
  file_inv f ps ->
  exists rows f', scan_range b e f = (Ok rows, f') /\ file_inv f' ps /\
    entry_of <$> rows ≡ₚ chain_range_recs b e ps /\ StronglySorted key_le (entry_of <$> rows).
Proof.
  intros I. destruct (Z.le_gt_cases b e) as [Hle | Hgt].
  - destruct (scan_range_ok f ps b e (fi_chain _ _ I) Hle) as (rows & f' & E & Hf & Hr).
    exists rows, f'. rewrite Hr.
    split_and!; [done | by eapply filled_inv | apply sort_stable_perm | apply sort_rec_leb].
  - exists [], f. unfold scan_range. rewrite (proj2 (Z.ltb_lt _ _)) by lia.
    split_and!; [done | done | | constructor]. unfold chain_range_recs.
    assert (filter (in_range b e) (concat (cp_recs <$> ps)) = []) as ->; [| done].
    apply elem_of_nil_inv. intros r [[? ?] _]%list_elem_of_filter. lia.
Qed.

(** C21: A batch of insertions is atomic.  Either every row is in the file
    afterwards, the later one of two rows with the same key winning, at most
    one page per row was added and the log has the entry of the batch in its
    queue; or the batch is refused with [InsufficientBufferSpace], because one
    of its rows has no room behind the rows before it, and nothing but the
    page cache changed. *)
Theorem insert_batch_correct now f ps rs :
  file_inv f ps -> Forall row_ok rs -> tf_page_count f + zlen rs <= MAX_PAGES ->
  log_room f (batch_entry f (row_of <$> rs)) ->
  (exists f' ps', insert_batch now (row_of <$> rs) f = (Ok tt, f') /\ file_inv f' ps' /\
     chain_map ps' = puts (chain_map ps) rs /\ tf_page_count f' <= tf_page_count f + zlen rs /\
     tf_wal_backend f' = wal_after now (batch_entry f (row_of <$> rs)) (tf_wal_backend f)) \/
  (exists f', insert_batch now (row_of <$> rs) f = (Err InsufficientBufferSpace, f') /\
     cache_filled f f' /\ rejected ps rs).
Proof.
  intros I HF Hmax Hlog. destruct (insert_batch_ok now f ps rs I HF Hmax Hlog)
    as [(f' & ps' & E & I' & Hm & _ & Hc & _ & Hw & _) | Herr]; [left | right; exact Herr].
  exists f', ps'. by split_and!.
Qed.

(** Which rows are accepted.  A single insertion succeeds exactly when
    the chain has room for the row: on the page where it belongs, on a page of
    its own at an end of the chain or in front of an older page, or on the two
    halves of a full page. *)
Theorem insert_accepted now f ps r :
  file_inv f ps -> row_ok r -> tf_page_count f < MAX_PAGES -> log_room f (batch_entry f [row_of r]) ->
  if accepts ps r then
    exists f' ps', file_insert now (r_ts r) (r_id r) (r_payload r) f = (Ok tt, f') /\ file_inv f' ps' /\
      chain_map ps' = <[rec_key r := r_payload r]> (chain_map ps) /\
      tf_page_count f' <= tf_page_count f + 1
  else exists f', file_insert now (r_ts r) (r_id r) (r_payload r) f = (Err InsufficientBufferSpace, f') /\
         cache_filled f f'.
Proof. intros I Hr Hmax Hlog. exact (insert_row_ok now f ps r I Hr Hmax Hlog). Qed.

(** C34: Deletion.  [delete] never fails on a file whose log has room, tells
    whether the key was there, and removes the record from the first page that
    has it; the key is gone unless an older page has it too, whose payload
    then shows again. *)
Theorem delete_correct now f ps ts id :
  let k := (ts, id) in
  file_inv f ps -> log_room f (first_page k ps ≫= delete_batch f k) ->
  exists f' ps', file_delete now ts id f = (Ok (bool_decide (is_Some (chain_map ps !! k))), f') /\
    file_inv f' ps' /\ chain_map ps' = chain_without k ps /\
    (shadowed k ps = None -> chain_map ps' = delete k (chain_map ps)) /\
    tf_wal_backend f' = wal_after now (first_page k ps ≫= delete_batch f k) (tf_wal_backend f).
Proof.
  intros k I Hlog. destruct (file_delete_ok now f ps k I Hlog) as (f' & ps' & E & I' & Hm & _ & _ & Hw & _).
  exists f', ps'. split_and!; [exact E | done | done | | done].
  intros Hs. rewrite Hm. unfold chain_without. by rewrite Hs.
Qed.

(** A flushed file can be reopened.  [flush] writes every dirty page;
    opening the data file then validates every page, finds the head and the
    tail and yields a file with the same chain. *)
Theorem flush_reopen f ps identity wal hash :
  file_inv f ps -> opened_with f hash ->
  exists f1 f2, flush f = (Ok tt, f1) /\ file_inv f1 ps /\ tf_dirty_pages f1 = ∅ /\
    open_inner (tf_disk f1) identity wal hash true = Ok f2 /\ file_inv f2 ps /\
    tf_page_count f2 = tf_page_count f.
Proof.
  intros I Hopen. destruct (flush_dirty_pages_ok f ps I) as (d & E & I1 & _).
  destruct (open_inner_ok _ ps I1 eq_refl identity wal hash true Hopen) as (f2 & E2 & I2 & _ & _ & Hc & _);
    [by right |].
  eexists _, f2. split_and!; [| exact I1 | done | exact E2 | exact I2 | exact Hc].
  unfold flush. st_step by exact E. unfold file_ref, st_reads.
  by rewrite (fc_open _ _ (fi_chain _ _ I1)).
Qed.

(** A flush does not lose the writes that overtake it.  The flush takes
    its images, a writer publishes a plan, and the flush then writes the
    images it took: the file keeps its invariant, and the dirty pages are
    exactly those of the plan, all others are on the disk. *)
Theorem flush_overtaken now f ps s ps' :
  file_inv f ps -> plan_inv f s ps' ->
  (forall b f1, build_pl_batch (into_plan s) (pn_file s) = (Ok b, f1) -> log_room f b) ->
  exists images f1 f2 ps'', dirty_page_images f = (Ok images, f) /\
    persist_plan now (into_plan s) (pn_file s) = (Ok tt, f1) /\
    flush_images images f1 = (Ok tt, f2) /\ file_inv f2 ps'' /\
    cp_recs <$> ps'' = cp_recs <$> ps' /\
    tf_dirty_pages f2 = dom (ov_page_images (pn_overlay s)).
Proof.
  intros I Ip Hlog. destruct (dirty_page_images_ok f ps I) as (images & Ei & [Hnd HP] & Hall).
  destruct (build_batch_ok f ps s ps' (fi_chain _ _ I) Ip) as (b & f0 & Eb & Hf0 & _).
  destruct (persist_ok now f ps s ps' b f0 (fi_chain _ _ I) Ip Hf0 Eb) as (M & f1 & HM & Hpub & Ep).
  { intros batch ->. exact (Hlog _ _ Eb). }
  set (g := set_meta (ov_page_count (pn_overlay s)) ps' f1) in *.
  assert (file_inv g (restamp (lsn_after b (tf_wal_backend f)) M <$> ps')) as I1
    by (by eapply published_inv).
  destruct (publish_fields f f0 f1 ps' s _ M Hf0 Hpub) as (_ & _ & _ & Ed & Ec & _).
  assert (dom M = dom (ov_page_images (pn_overlay s))) as Hdom.
  { apply set_eq. intros id. rewrite !elem_of_dom. specialize (HM id).
    destruct (M !! id), (ov_page_images (pn_overlay s) !! id); naive_solver. }
  destruct (flush_images_ok g _ images I1) as (f2 & Ef & I2 & (d & D & -> & HD & _)).
  { split; [exact Hnd |]. eapply Forall_impl; [exact HP |]. intros w [Hw E]. split; [| exact E].
    apply (published_pending (set_wal (wal_after now b (tf_wal_backend f)) f0) M f1); [exact Hpub | |].
    - change (tf_page_count f0 <= ov_page_count (pn_overlay s)).
      destruct (filled_fields _ _ Hf0) as (_ & _ & _ & _ & _ & -> & _). apply (pi_count _ _ _ Ip).
    - exact (filled_pending f f0 _ _ Hf0 Hw). }
  exists images, g, (set_dirty_pages D (set_disk d g)), (restamp (lsn_after b (tf_wal_backend f)) M <$> ps').
  split_and!; [exact Ei | exact Ep | exact Ef | exact I2 | apply restamp_recs |].
  cbn [set_dirty_pages tf_dirty_pages]. rewrite <- Hdom. apply set_eq. intros id. rewrite HD. unfold g. rewrite Ed.
  change (current (set_meta _ ps' f1)) with (current f1).
  by apply (overtaken_marks f f0 f1 (wal_after now b (tf_wal_backend f)) M images id Hf0 Hpub (conj Hnd HP)).
Qed.

(** C29: Opening a file ends on every file content and accepts nothing but a
    chain.  Given that each page of the file, whatever its bytes, passed the
    checks on single pages: when opening succeeds, all pages of the file form
    one chain, in which every page links to the next one and back, the first
    one has no predecessor and the last one no successor, and no record is
    newer than a record of a page in front of it; the head is the first page
    of the chain, and the tail is what the last page has as its own id.
    Otherwise it returns an error, or the links of the pages lead from the
    head to a page behind the end of the file, and the walk panics there. *)
Theorem open_checks_chain file page_count hash headers :
  0 < page_count -> mapM (load_header file hash) (seqZ 0 page_count) = Ok headers ->
  match load_chain_metadata file page_count hash with
  | Ok (head_id, tail_id) => exists ids,
      ids ≡ₚ seqZ 0 page_count /\ head ids = head_id /\
      (forall id h, head ids = Some id -> headers !! Z.to_nat id = Some h -> ph_prev_page h = NONE_PAGE_ID) /\
      links headers ids /\ StronglySorted (not_newer file) ids /\
      exists id h, last ids = Some id /\ headers !! Z.to_nat id = Some h /\ tail_id = Some (ph_page_id h)
  | Err _ => True
  | Panic => exists h x, h ∈ headers /\ ph_prev_page h = NONE_PAGE_ID /\ next_path headers (ph_page_id h) x /\ page_count <= x
  end.
Proof.
  intros Hc Eh. pose proof (load_chain_sound file page_count hash headers Hc Eh) as Hs.
  destruct (headers_loaded _ _ _ _ (Z.lt_le_incl _ _ Hc) Eh) as [Hlen _].
  destruct (load_chain_metadata file page_count hash) as [[hd tl] | |]; [| done | done].
  destruct Hs as [ids [Ha Hh Hf Hl Ht Ho]]. exists ids. rewrite Hlen in Ha. by split_and!.
Qed.

(** C28: Dirty pages are bounded.  A batch of rows that is accepted, and every
    deletion, leaves fewer dirty pages than the threshold, however many pages
    it has dirtied and however many there were; a refused batch leaves the
    dirty pages as they were. *)
Theorem dirty_pages_bounded now f ps :
  file_inv f ps ->
  (forall rs, rs <> [] -> Forall row_ok rs -> tf_page_count f + zlen rs <= MAX_PAGES ->
     log_room f (batch_entry f (row_of <$> rs)) ->
     exists res f' ps', insert_batch now (row_of <$> rs) f = (res, f') /\ file_inv f' ps' /\
       (res = Ok tt /\ Z.of_nat (size (tf_dirty_pages f')) < DIRTY_PAGE_FLUSH_THRESHOLD \/
        res = Err InsufficientBufferSpace /\ tf_dirty_pages f' = tf_dirty_pages f)) /\
  (forall ts id, log_room f (first_page (ts, id) ps ≫= delete_batch f (ts, id)) ->
     exists deleted f' ps', file_delete now ts id f = (Ok deleted, f') /\ file_inv f' ps' /\
       Z.of_nat (size (tf_dirty_pages f')) < DIRTY_PAGE_FLUSH_THRESHOLD).
Proof.
  intros I. split.
  - intros rs Hne HF Hmax Hlog. destruct (insert_batch_ok now f ps rs I HF Hmax Hlog)
      as [(f' & ps' & E & I' & _ & _ & _ & _ & _ & Hd) | (f' & E & Hfill & _)].
    + exists (Ok tt), f', ps'. destruct (Hd Hne) as [Hs _]. split_and!; [done | done | by left].
    + exists (Err InsufficientBufferSpace), f', ps. split_and!; [done | by eapply filled_inv |].
      right. split; [done |]. by destruct (filled_fields _ _ Hfill) as (_ & _ & _ & _ & ? & _).
  - intros ts id Hlog. destruct (file_delete_ok now f ps (ts, id) I Hlog) as (f' & ps' & E & I' & _ & _ & _ & _ & Hs & _).
    eexists _, f', ps'. by split_and!.
Qed.

End properties.

(** ** Examples *)

Module TsDemo.
Import PlCodec.
#[local] Existing Instance Reference.packages.
#[local] Existing Instance Reference.packages_ok.

Definition ident : TimeSeriesFileIdentity := mkTimeSeriesFileIdentity 1 2 0.

(** The log of a new worker with the creation of the file. *)
Definition no_log : WorkerWALBackend :=
  from_tail RELATION_WAL_CHUNK_SIZE WorkerLogBatching_default Commit ∅ (mkWorkerLogTail None 0 0 0).
Definition log0 : WorkerWALBackend := Eval vm_compute in (append_file_create ident no_log).2.

(** A new file with schema hash 7: it is what [open_relation_file] creates. *)
Definition file0 : TimeSeriesFile :=
  mkTimeSeriesFile (Some ident) (Some []) true (Some log0) ∅ 0 ∅ 0 NONE_PAGE_ID NONE_PAGE_ID 1 7 0.

Lemma file0_opened : open_relation_file ∅ ident 7 true None = (Ok file0, Some []).
Proof. vm_compute. reflexivity. Qed.

Lemma file0_inv : file_inv file0 [].
Proof.
  split; cbn [file0 tf_page_count tf_dirty_pages tf_page_cache tf_disk tf_next_ptr ensure_file default].
  - split; [| reflexivity | reflexivity | reflexivity | split; vm_compute; congruence
            | split; vm_compute; congruence | split; vm_compute; congruence].
    split; [constructor | exact I | reflexivity | constructor | split; constructor
           | cbn; unfold MAX_PAGES; lia].
  - intros id []%elem_of_empty.
  - intros id Hid. lia.
  - intros id img Hid. lia.
  - vm_compute. congruence.
  - intros id a Ha. by rewrite lookup_empty in Ha.
Qed.

(** Three records. *)
Definition demo_recs : list Rec := [mkRec 10 1 [x01]; mkRec 20 1 [x02; x03]; mkRec 15 2 []].
Definition demo_batch : PLBatch := Eval vm_compute in default (mkPLBatch []) (batch_entry file0 (row_of <$> demo_recs)).
Definition demo_file : TimeSeriesFile := Eval vm_compute in (insert_batch 0 (row_of <$> demo_recs) file0).2.

Lemma recs_ok (rs : list Rec) :
  forallb (fun r => (0 <=? r_ts r) && (r_ts r <=? U64_MAX) && (0 <=? r_id r) && (r_id r <=? U64_MAX) &&
             (zlen (r_payload r) <=? U32_MAX)) rs = true -> Forall row_ok rs.
Proof.
  intros E. apply Forall_forall. intros r Hr%list_elem_of_In.
  rewrite forallb_forall in E. specialize (E r Hr). unfold row_ok, in_u64. lia.
Qed.

(** The log has room for an entry, by evaluation. *)
Definition has_room (w : WorkerWALBackend) (b : PLBatch) : bool :=
  let cs := cl_chunk_size (wb_log w) in
  (LOG_FRAME_HEADER_SIZE + LOG_FRAME_TAILER_SIZE <? cs) && (0 <=? wb_next_lsn w) &&
  match to_vec b with
  | Some bs => (zlen bs <=? U32_MAX) && (wb_next_lsn w + zlen (entry_parts cs b) <=? U64_MAX)
  | None => false
  end.

Lemma has_room_ok f w b : tf_wal_backend f = Some w -> has_room w b = true -> log_room f (Some b).
Proof.
  intros Ew E. unfold log_room, logs_entry. rewrite Ew. unfold has_room in E.
  destruct (to_vec b) as [bs |] eqn:Eb; [| lia]. split; [lia |]. exists bs. split_and!; [done | lia | lia | lia].
Qed.

Lemma demo_room : log_room file0 (batch_entry file0 (row_of <$> demo_recs)).
Proof.
  assert (batch_entry file0 (row_of <$> demo_recs) = Some demo_batch) as -> by (vm_compute; reflexivity).
  apply (has_room_ok file0 log0); [done | by vm_compute].
Qed.

Lemma demo_recs_ok : Forall row_ok demo_recs.
Proof. apply recs_ok. by vm_compute. Qed.

Lemma demo_insert : insert_batch 0 (row_of <$> demo_recs) file0 = (Ok tt, demo_file).
Proof. vm_compute. reflexivity. Qed.

Lemma demo_inv : exists ps, file_inv demo_file ps /\ chain_map ps = puts ∅ demo_recs.
Proof.
  destruct (insert_batch_ok 0 file0 [] demo_recs file0_inv demo_recs_ok ltac:(by vm_compute) demo_room)
    as [(f' & ps & E & I & Hm & _) | (f' & E & _)]; rewrite demo_insert in E.
  - exists ps. apply (f_equal snd) in E. cbn [snd] in E. subst f'. split; [exact I | exact Hm].
  - by apply (f_equal fst) in E.
Qed.

Lemma get_correct_witness : exists ps, file_inv demo_file ps /\
  exists res f', file_get 20 1 demo_file = (Ok res, f') /\ file_inv f' ps /\ cache_filled demo_file f' /\
    entry_of <$> res = mkRec 20 1 <$> chain_map ps !! (20, 1).
Proof.
  destruct demo_inv as (ps & I & _). exists ps. split; [exact I |]. exact (get_correct demo_file ps 20 1 I).
Defined.

Lemma scan_range_correct_witness : exists ps, file_inv demo_file ps /\
  exists rows f', scan_range 12 20 demo_file = (Ok rows, f') /\ file_inv f' ps /\
    entry_of <$> rows ≡ₚ chain_range_recs 12 20 ps /\ StronglySorted key_le (entry_of <$> rows).
Proof.
  destruct demo_inv as (ps & I & _). exists ps. split; [exact I |].
  exact (scan_range_correct demo_file ps 12 20 I).
Defined.

Lemma insert_batch_correct_witness :
  (exists f' ps', insert_batch 0 (row_of <$> demo_recs) file0 = (Ok tt, f') /\ file_inv f' ps' /\
     chain_map ps' = puts (chain_map []) demo_recs /\ tf_page_count f' <= tf_page_count file0 + zlen demo_recs /\
     tf_wal_backend f' = wal_after 0 (batch_entry file0 (row_of <$> demo_recs)) (tf_wal_backend file0)) \/
  (exists f', insert_batch 0 (row_of <$> demo_recs) file0 = (Err InsufficientBufferSpace, f') /\
     cache_filled file0 f' /\ rejected [] demo_recs).
Proof.
  exact (insert_batch_correct 0 file0 [] demo_recs file0_inv demo_recs_ok ltac:(by vm_compute) demo_room).
Defined.

(** A fourth record for the file. *)
Definition demo_row : Rec := mkRec 20 2 [x07; x07].
Definition demo_log_after : WorkerWALBackend := Eval vm_compute in default no_log (tf_wal_backend demo_file).
Definition demo_row_batch : PLBatch :=
  Eval vm_compute in default (mkPLBatch []) (batch_entry demo_file [row_of demo_row]).

Lemma demo_row_room : log_room demo_file (batch_entry demo_file [row_of demo_row]).
Proof.
  assert (batch_entry demo_file [row_of demo_row] = Some demo_row_batch) as -> by (vm_compute; reflexivity).
  apply (has_room_ok demo_file demo_log_after); [vm_compute; reflexivity | by vm_compute].
Qed.

Lemma demo_row_ok : row_ok demo_row.
Proof. apply (Forall_inv (P := row_ok) (a := demo_row) (l := [])), recs_ok. by vm_compute. Qed.

Lemma insert_accepted_witness : exists ps, file_inv demo_file ps /\
  if accepts ps demo_row then
    exists f' ps', file_insert 0 20 2 [x07; x07] demo_file = (Ok tt, f') /\ file_inv f' ps' /\
      chain_map ps' = <[rec_key demo_row := [x07; x07]]> (chain_map ps) /\
      tf_page_count f' <= tf_page_count demo_file + 1
  else exists f', file_insert 0 20 2 [x07; x07] demo_file = (Err InsufficientBufferSpace, f') /\
         cache_filled demo_file f'.
Proof.
  destruct demo_inv as (ps & I & _). exists ps. split; [exact I |].
  exact (insert_accepted 0 demo_file ps demo_row I demo_row_ok ltac:(by vm_compute) demo_row_room).
Defined.

Definition demo_delete_batch : PLBatch :=
  mkPLBatch [mkPLEntry (pl_file_id ident) [PageDelta_ (mkPageDelta 0 None None [pl_key (15, 2)] [])]].

Lemma demo_delete_room ps : file_inv demo_file ps ->
  log_room demo_file (first_page (15, 2) ps ≫= delete_batch demo_file (15, 2)).
Proof.
  intros I. destruct (first_page (15, 2) ps) as [page_id |] eqn:E; [| done].
  apply first_page_in in E. rewrite (ch_ids _ _ _ _ (fc_chain _ _ (fi_chain _ _ I))) in E.
  apply elem_of_seqZ in E. assert (tf_page_count demo_file = 1) as Hc by (vm_compute; reflexivity).
  assert (page_id = 0) as -> by lia.
  change (log_room demo_file (delete_batch demo_file (15, 2) 0)).
  assert (delete_batch demo_file (15, 2) 0 = Some demo_delete_batch) as -> by (vm_compute; reflexivity).
  apply (has_room_ok demo_file demo_log_after); [vm_compute; reflexivity | by vm_compute].
Qed.

Lemma delete_correct_witness : exists ps, file_inv demo_file ps /\
  let k := (15, 2) in
  exists f' ps', file_delete 0 15 2 demo_file = (Ok (bool_decide (is_Some (chain_map ps !! k))), f') /\
    file_inv f' ps' /\ chain_map ps' = chain_without k ps /\
    (shadowed k ps = None -> chain_map ps' = delete k (chain_map ps)) /\
    tf_wal_backend f' = wal_after 0 (first_page k ps ≫= delete_batch demo_file k) (tf_wal_backend demo_file).
Proof.
  destruct demo_inv as (ps & I & _). exists ps. split; [exact I |].
  exact (delete_correct 0 demo_file ps 15 2 I (demo_delete_room ps I)).
Defined.

Lemma demo_opened : opened_with demo_file 7.
Proof. split; [| split]; vm_compute; reflexivity. Qed.

Lemma flush_reopen_witness : exists ps, file_inv demo_file ps /\
  exists f1 f2, flush demo_file = (Ok tt, f1) /\ file_inv f1 ps /\ tf_dirty_pages f1 = ∅ /\
    open_inner (tf_disk f1) (Some ident) None 7 true = Ok f2 /\ file_inv f2 ps /\
    tf_page_count f2 = tf_page_count demo_file.
Proof.
  destruct demo_inv as (ps & I & _). exists ps. split; [exact I |].
  exact (flush_reopen demo_file ps (Some ident) None 7 I demo_opened).
Defined.

(** The fourth record, planned and not yet published. *)
Definition demo_plan : Planning :=
  Eval vm_compute in (st_iter plan_row_insert [row_of demo_row] (mkPlanning demo_file (WriteOverlay_new demo_file))).2.

Lemma demo_planned :
  st_iter plan_row_insert (row_of <$> [demo_row]) (mkPlanning demo_file (WriteOverlay_new demo_file))
    = (Ok tt, demo_plan).
Proof. vm_compute. reflexivity. Qed.

Lemma demo_plan_inv : exists ps ps', file_inv demo_file ps /\ plan_inv demo_file demo_plan ps'.
Proof.
  destruct demo_inv as (ps & I & _).
  destruct (plan_rows_ok demo_file (inv_ready _ _ I) [demo_row] _ ps (plan_start _ _ I))
    as [(s' & ps' & E & Ip & _) | (s' & E & _)].
  - apply Forall_singleton, demo_row_ok.
  - by vm_compute.
  - rewrite demo_planned in E. apply (f_equal snd) in E. cbn [snd] in E. subst s'.
    exists ps, ps'. split; [exact I | exact Ip].
  - rewrite demo_planned in E. by apply (f_equal fst) in E.
Qed.

Lemma demo_plan_room b f1 :
  build_pl_batch (into_plan demo_plan) (pn_file demo_plan) = (Ok b, f1) -> log_room demo_file b.
Proof.
  intros E. assert ((build_pl_batch (into_plan demo_plan) (pn_file demo_plan)).1 = Ok (Some demo_row_batch)) as Eb
    by (vm_compute; reflexivity).
  rewrite E in Eb. cbn [fst] in Eb. injection Eb as ->.
  apply (has_room_ok demo_file demo_log_after); [vm_compute; reflexivity | by vm_compute].
Qed.

Lemma flush_overtaken_witness : exists ps', plan_inv demo_file demo_plan ps' /\
  exists images f1 f2 ps'', dirty_page_images demo_file = (Ok images, demo_file) /\
    persist_plan 0 (into_plan demo_plan) (pn_file demo_plan) = (Ok tt, f1) /\
    flush_images images f1 = (Ok tt, f2) /\ file_inv f2 ps'' /\
    cp_recs <$> ps'' = cp_recs <$> ps' /\
    tf_dirty_pages f2 = dom (ov_page_images (pn_overlay demo_plan)).
Proof.
  destruct demo_plan_inv as (ps & ps' & I & Ip). exists ps'. split; [exact Ip |].
  exact (flush_overtaken 0 demo_file ps demo_plan ps' I Ip demo_plan_room).
Defined.

Lemma dirty_pages_bounded_witness : exists ps, file_inv file0 ps /\
  exists res f' ps', insert_batch 0 (row_of <$> demo_recs) file0 = (res, f') /\ file_inv f' ps' /\
    (res = Ok tt /\ Z.of_nat (size (tf_dirty_pages f')) < DIRTY_PAGE_FLUSH_THRESHOLD \/
     res = Err InsufficientBufferSpace /\ tf_dirty_pages f' = tf_dirty_pages file0).
Proof.
  exists []. split; [exact file0_inv |]. destruct (dirty_pages_bounded 0 file0 [] file0_inv) as [Hi _].
  exact (Hi demo_recs ltac:(done) demo_recs_ok ltac:(by vm_compute) demo_room).
Defined.

Definition demo_disk : list byte := Eval vm_compute in ensure_file (tf_disk (flush demo_file).2).
Definition demo_headers : list PageHeader :=
  Eval vm_compute in match mapM (load_header demo_disk 7) (seqZ 0 1) with Ok hs => hs | _ => [] end.

Lemma open_checks_chain_witness :
  match load_chain_metadata demo_disk 1 7 with
  | Ok (head_id, tail_id) => exists ids,
      ids ≡ₚ seqZ 0 1 /\ head ids = head_id /\
      (forall id h, head ids = Some id -> demo_headers !! Z.to_nat id = Some h -> ph_prev_page h = NONE_PAGE_ID) /\
      links demo_headers ids /\ StronglySorted (not_newer demo_disk) ids /\
      exists id h, last ids = Some id /\ demo_headers !! Z.to_nat id = Some h /\ tail_id = Some (ph_page_id h)
  | Err _ => True
  | Panic => exists h x, h ∈ demo_headers /\ ph_prev_page h = NONE_PAGE_ID /\ next_path demo_headers (ph_page_id h) x /\ 1 <= x
  end.
Proof. apply open_checks_chain with (page_count := 1); [lia | vm_compute; reflexivity]. Defined.

End TsDemo.
