(* ===== verification/TsCrash.v ===== *)
(** * Sessions with power losses

    A session is a run of operations on a relation file, with power losses in
    between, that flushes the log before the data pages and logs every write.
    Whatever its operations, recovery opens the file again, and it answers as
    it did when the log was last flushed. *)

From S2P Require Import Prelude Errors Compat FileOps LogFrame WalFrames WalBackend WalDurability.
From S2P Require Import PageFormat PageBlock RecordSpec RecordMap PageView PageInsert PageRebuild.
From S2P Require Import PageImage PhysLog Replay PlCodec TsFile Chain TsChain TsRead TsWrite TsPlan TsRow.
From S2P Require Import TsPersist TsState TsFlush TsMutate TsOpen RelationLog TsReplay TsRecovery TsProperties.

(** Two files give the same answers to all reads. *)
Definition same_answers `{Packages} (f g : TimeSeriesFile) : Prop :=
  (forall ts id, exists r r', (file_get ts id f).1 = Ok r /\ (file_get ts id g).1 = Ok r' /\
     entry_of <$> r = entry_of <$> r') /\
  (forall b e, exists rows rows', (scan_range b e f).1 = Ok rows /\ (scan_range b e g).1 = Ok rows' /\
     entry_of <$> rows = entry_of <$> rows').

Section session.
Context `{PackagesOk} `{MsgpackOk PLBatch} (ident : TimeSeriesFileIdentity) (hash : Z).
Context (Hhash : in_u64 hash).

(** [session f c]: a run leads to the file [f]; [c] is the file right after
    the operation that made its contents durable, a flush of the log as a
    rule.  The file starts empty, with an empty log. *)
Inductive session : TimeSeriesFile -> TimeSeriesFile -> Prop :=
  | session_open f d :
      open_relation_file ∅ ident hash true (Some []) = (Ok f, d) -> session f f
  | session_get f c ts id r f' :
      session f c -> file_get ts id f = (r, f') -> session f' c
  | session_scan f c b e r f' :
      session f c -> scan_range b e f = (r, f') -> session f' c
  | session_insert f c now rs b f' :
      session f c -> Forall row_ok rs -> tf_page_count f + zlen rs <= MAX_PAGES ->
      batch_entry f (row_of <$> rs) = Some b -> log_room f (Some b) -> replayable f b = true ->
      insert_batch now (row_of <$> rs) f = (Ok tt, f') -> tf_dirty_pages f' <> ∅ -> session f' c
  | session_delete f c now k r f' :
      session f c -> (forall id, 0 <= id < tf_page_count f -> log_room f (delete_batch f k id)) ->
      file_delete now k.1 k.2 f = (Ok r, f') -> (r = true -> tf_dirty_pages f' <> ∅) -> session f' c
  | session_commit f c f' :
      session f c -> flush_wal_async f = (Ok tt, f') -> session f' f'
  | session_flush f c s f' :
      session f c -> tf_wal_backend f = Some s -> wb_queue s = [] ->
      flush f = (Ok tt, f') -> session f' f'
  | session_crash f c s f' d :
      session f c -> tf_wal_backend f = Some s ->
      open_relation_file (wb_synced s) ident hash true (tf_disk f) = (Ok f', d) -> session f' f'.

Lemma same_recs_answers f ps g qs :
  file_inv f ps -> file_inv g qs -> cp_recs <$> ps = cp_recs <$> qs -> same_answers f g.
Proof.
  intros If Ig E. split.
  - intros ts id. destruct (file_get_ok f ps ts id (fi_chain _ _ If)) as (r & f' & -> & _ & Hr).
    destruct (file_get_ok g qs ts id (fi_chain _ _ Ig)) as (r' & g' & -> & _ & Hr').
    exists r, r'. split_and!; [done | done |]. by rewrite Hr, Hr', (chain_map_recs _ _ E).
  - intros b e. destruct (Z.le_gt_cases b e) as [Hle | Hgt].
    + destruct (scan_range_ok f ps b e (fi_chain _ _ If) Hle) as (r & f' & -> & _ & Hr).
      destruct (scan_range_ok g qs b e (fi_chain _ _ Ig) Hle) as (r' & g' & -> & _ & Hr').
      exists r, r'. split_and!; [done | done |]. rewrite Hr, Hr'. unfold chain_range_recs. by rewrite E.
    + exists [], []. unfold scan_range. by rewrite (proj2 (Z.ltb_lt _ _)) by lia.
Qed.

(** The state of a session. *)
Definition settled (f c : TimeSeriesFile) : Prop :=
  exists ps psc s us qs dc dq, recoverable ident hash f c ps psc s us qs dc dq.

Lemma settled_read f c f' : settled f c -> cache_filled f f' -> settled f' c.
Proof.
  intros (ps & psc & s & us & qs & dc & dq & R) Hf. exists ps, psc, s, us, qs, dc, dq.
  by eapply recoverable_read.
Qed.

Lemma settled_inv f c : settled f c -> exists ps, file_inv f ps.
Proof. intros (ps & psc & s & us & qs & dc & dq & R). exists ps. apply R. Qed.

(** A write that is in the log. *)
Lemma settled_write f c now b f' :
  settled f c -> written now f (Some b) f' -> log_room f (Some b) -> replayable f b = true ->
  Z.of_nat (size (tf_dirty_pages f')) < DIRTY_PAGE_FLUSH_THRESHOLD -> settled f' c.
Proof.
  intros (ps & psc & s & us & qs & dc & dq & R) (pl & ps1 & f1 & M & f2 & ops & Hw) Hlog Hroom Hd.
  destruct Hw as (Ip & Hf1 & Hops & Hb & HM & Hpub & ->).
  pose proof (rc_wal _ _ _ _ _ _ _ _ _ _ _ R) as Ew. pose proof (rc_ident _ _ _ _ _ _ _ _ _ _ _ R) as Ei.
  pose proof (ls_next _ _ _ (rc_log _ _ _ _ _ _ _ _ _ _ _ R)) as En.
  rewrite Ew in *. rewrite Ei in Hb. cbn [lsn_after] in HM. rewrite En in HM. unfold log_room in Hlog. rewrite Ew in Hlog.
  destruct (wal_after now (Some b) (Some s)) as [s' |] eqn:Ea; [| done]. rewrite <- Ea in Hpub.
  destruct (recoverable_write ident hash f c ps psc s us qs dc dq R now b f1 f2 pl ps1 M ops Ip Hf1 Hops
              (eq_sym Hb) HM Hpub s' Ea Hlog Hroom Hd) as (dq' & R').
  by exists (restamp (Some (zlen (log_frames RELATION_WAL_CHUNK_SIZE 0 (us ++ qs)))) M <$> ps1), psc, s', us, (qs ++ [b]), dc, dq'.
Qed.

Lemma settled_open : exists f d, open_relation_file ∅ ident hash true (Some []) = (Ok f, d) /\ settled f f.
Proof.
  destruct log_new as (s & Es & L).
  destruct (open_inner_ok (empty_file hash) [] (empty_inv hash Hhash) eq_refl (Some ident) (Some s) hash true)
    as (f & Eo & I & Ei & Ew & Ec & Ed & Eca & Edp & E1 & E2 & E3); [by split_and! | by right |].
  change (tf_disk (empty_file hash)) with (Some (@nil byte)) in Eo, Ed.
  change (ensure_file (Some (@nil byte))) with (@nil byte) in Ed.
  exists f, (Some []). split.
  - unfold open_relation_file. st_step by (unfold st_lift; rewrite Es; reflexivity).
    unfold recover_relation_file. st_step by (rewrite (log_recover _ _ _ _ _ L); reflexivity).
    st_step by reflexivity. st_step by reflexivity.
    st_step by (unfold st_lift; rewrite Eo; reflexivity). st_step by reflexivity. by rewrite Ed.
  - exists [], [], s, [], [], [], []. apply recoverable_clean; try done.
    constructor.
Qed.

Lemma settled_insert f c now rs b f' :
  settled f c -> Forall row_ok rs -> tf_page_count f + zlen rs <= MAX_PAGES ->
  batch_entry f (row_of <$> rs) = Some b -> log_room f (Some b) -> replayable f b = true ->
  insert_batch now (row_of <$> rs) f = (Ok tt, f') -> tf_dirty_pages f' <> ∅ -> settled f' c.
Proof.
  intros Hs HF Hmax Eb Hlog Hroom E Hd. destruct (settled_inv _ _ Hs) as [ps I].
  assert (rs <> []) as Hne by (intros ->; rewrite batch_entry_nil in Eb; discriminate).
  destruct (insert_batch_ok now f ps rs I HF Hmax) as [(f1 & ps' & E1 & Hrest) | (f1 & E1 & _)];
    [by rewrite Eb | | rewrite E in E1; discriminate].
  rewrite E in E1. injection E1 as <-. destruct Hrest as (_ & _ & _ & _ & _ & _ & Hwr).
  destruct (Hwr Hne) as [Hsize Hw]. rewrite Eb in Hw. by eapply settled_write; [| exact (Hw Hd) | ..].
Qed.

Lemma settled_delete f c now k r f' :
  settled f c -> (forall id, 0 <= id < tf_page_count f -> log_room f (delete_batch f k id)) ->
  file_delete now k.1 k.2 f = (Ok r, f') -> (r = true -> tf_dirty_pages f' <> ∅) -> settled f' c.
Proof.
  intros Hs Hlog E Hd. destruct (settled_inv _ _ Hs) as [ps I].
  pose proof Hs as (? & ? & s & us & qs & dc & dq & R).
  assert (forall id, first_page k ps = Some id -> log_room f (delete_batch f k id)) as Hroom.
  { intros id Hp%first_page_in. pose proof (fc_chain _ _ (fi_chain _ _ I)) as C.
    rewrite (ch_ids _ _ _ _ C) in Hp. apply elem_of_seqZ in Hp. apply Hlog. lia. }
  destruct (file_delete_ok now f ps k I) as (f1 & ps' & E1 & _ & _ & _ & _ & _ & Hsize & Hwr & Hno).
  { destruct (first_page k ps) as [id |] eqn:Ep; [by apply Hroom | done]. }
  rewrite E in E1. injection E1 as -> <-. destruct (first_page k ps) as [id |] eqn:Ep.
  - cbn [mbind option_bind] in Hwr. specialize (Hroom id eq_refl).
    destruct (delete_batch f k id) as [b |] eqn:Eb.
    2:{ unfold delete_batch in Eb. by rewrite (rc_ident _ _ _ _ _ _ _ _ _ _ _ R) in Eb. }
    eapply settled_write; [exact Hs | apply Hwr; [by eexists |] | exact Hroom | | exact Hsize].
    + apply Hd, bool_decide_true. destruct (chain_map ps !! k) eqn:Ek; [by eexists |].
      apply first_page_none in Ek. congruence.
    + unfold delete_batch in Eb. rewrite (rc_ident _ _ _ _ _ _ _ _ _ _ _ R) in Eb.
      by injection Eb as <-.
  - eapply settled_read; [exact Hs |]. apply Hno; [done |]. apply (rc_dirty _ _ _ _ _ _ _ _ _ _ _ R).
Qed.

(** A settled file is recovered. *)
Lemma settled_crash f c s :
  settled f c -> tf_wal_backend f = Some s ->
  exists f' d, open_relation_file (wb_synced s) ident hash true (tf_disk f) = (Ok f', d) /\
    settled f' f' /\ same_answers f' c.
Proof.
  intros (ps & psc & s0 & us & qs & dc & dq & R) Es.
  pose proof (rc_wal _ _ _ _ _ _ _ _ _ _ _ R) as Ew. rewrite Es in Ew. injection Ew as <-.
  destruct (recoverable_reopen _ _ _ _ _ _ _ _ _ _ _ R) as (f' & ps' & s' & E & Hrecs & R').
  exists f', (Some dc). split; [exact E |]. split.
  - by exists ps', ps', s', us, [], dc, dc.
  - eapply same_recs_answers; [apply R' | apply R | exact Hrecs].
Qed.

Lemma session_settled f c : session f c -> settled f c.
Proof.
  induction 1 as [f d E | f c ts id r f' _ IH E | f c b e r f' _ IH E
    | f c now rs b f' _ IH HF Hmax Eb Hlog Hroom E Hd | f c now k r f' _ IH Hlog E Hd
    | f c f' _ IH E | f c s f' _ IH Es Hq E | f c s f' d _ IH Es E].
  - destruct settled_open as (f0 & d0 & E0 & Hs). rewrite E in E0. by injection E0 as <- _.
  - destruct (settled_inv _ _ IH) as [ps I].
    destruct (file_get_ok f ps ts id (fi_chain _ _ I)) as (r0 & f0 & E0 & Hf & _).
    rewrite E in E0. injection E0 as _ <-. by eapply settled_read.
  - destruct (settled_inv _ _ IH) as [ps I]. destruct (Z.le_gt_cases b e) as [Hle | Hgt].
    + destruct (scan_range_ok f ps b e (fi_chain _ _ I) Hle) as (r0 & f0 & E0 & Hf & _).
      rewrite E in E0. injection E0 as _ <-. by eapply settled_read.
    + unfold scan_range in E. rewrite (proj2 (Z.ltb_lt _ _)) in E by lia. by injection E as _ <-.
  - by eapply settled_insert.
  - by eapply settled_delete.
  - destruct IH as (ps & psc & s & us & qs & dc & dq & R).
    destruct (recoverable_commit _ _ _ _ _ _ _ _ _ _ _ R) as (s' & E0 & R'). rewrite E in E0.
    injection E0 as ->. by exists ps, ps, s', (us ++ qs), [], dq, dq.
  - destruct IH as (ps & psc & s0 & us & qs & dc & dq & R).
    assert (qs = []) as ->.
    { pose proof (rc_wal _ _ _ _ _ _ _ _ _ _ _ R) as Ew. rewrite Es in Ew. injection Ew as <-.
      by eapply log_queue_nil; [apply R |]. }
    destruct (recoverable_flush _ _ _ _ _ _ _ _ _ _ R) as (f0 & d & E0 & R'). rewrite E in E0.
    injection E0 as <-. by exists ps, ps, s0, us, [], d, d.
  - destruct (settled_crash f c s IH Es) as (f0 & d0 & E0 & Hs & _). rewrite E in E0. by injection E0 as <- _.
Qed.

End session.

(** C5: Crash recovery.  A session opens an existing empty data file with an empty
    log; it reads, inserts and deletes rows, flushes the log, flushes the pages
    while no log entry is queued, and loses its power, any number of times and
    in any order.  Its insertions and deletions succeed, have log entries that
    the log has room for ([log_room]), and leave their pages dirty, so that
    none of them flushes pages by itself; the log entry of an insertion is one
    whose replay has room on every page for each of its steps
    ([replayable]).  Another power loss then leaves a data file and a log from
    which the file opens again, and every read of it answers as it did when the
    contents were last made durable: all that was in the log when it was last
    flushed is there, and nothing else. *)
Theorem crash_recovery `{PackagesOk} `{MsgpackOk PLBatch} ident hash f c s :
  in_u64 hash -> session ident hash f c -> tf_wal_backend f = Some s ->
  exists f' d, open_relation_file (wb_synced s) ident hash true (tf_disk f) = (Ok f', d) /\
    session ident hash f' f' /\ same_answers f' c.
Proof.
  intros Hh Hs Es. destruct (settled_crash ident hash f c s (session_settled ident hash Hh f c Hs) Es)
    as (f' & d & E & _ & Ha).
  exists f', d. split_and!; [exact E | | exact Ha]. by eapply session_crash.
Qed.

(** ** A session *)

Module CrashDemo.
Import PlCodec TsDemo.
#[local] Existing Instance Reference.packages.
#[local] Existing Instance Reference.packages_ok.

(** The file is opened, three rows are inserted and committed, the pages are
    flushed, a row is deleted and another inserted, and the power is lost. *)
Definition run0 : TimeSeriesFile := Eval vm_compute in
  match (open_relation_file ∅ ident 7 true (Some [])).1 with Ok f => f | _ => file0 end.
Definition run1 : TimeSeriesFile := Eval vm_compute in (insert_batch 0 (row_of <$> demo_recs) run0).2.
Definition run2 : TimeSeriesFile := Eval vm_compute in (flush_wal_async run1).2.
Definition run3 : TimeSeriesFile := Eval vm_compute in (flush run2).2.
Definition run4 : TimeSeriesFile := Eval vm_compute in (file_delete 0 15 2 run3).2.
Definition run5 : TimeSeriesFile := Eval vm_compute in (insert_batch 0 (row_of <$> [demo_row]) run4).2.
Definition log_of (f : TimeSeriesFile) : WorkerWALBackend := default no_log (tf_wal_backend f).

Lemma run_insert f c rs f' b :
  session ident 7 f c -> batch_entry f (row_of <$> rs) = Some b ->
  insert_batch 0 (row_of <$> rs) f = (Ok tt, f') ->
  tf_wal_backend f = Some (log_of f) -> has_room (log_of f) b = true -> replayable f b = true ->
  Forall row_ok rs -> tf_page_count f + zlen rs <= MAX_PAGES -> tf_dirty_pages f' <> ∅ ->
  session ident 7 f' c.
Proof. intros Hs Eb E Ew Hr Hroom HF Hm Hd. eapply session_insert; try done. by eapply has_room_ok. Qed.

Lemma run3_session : session ident 7 run3 run3.
Proof.
  assert (session ident 7 run0 run0) as H0
    by (apply (session_open ident 7 run0 (Some [])); vm_compute; reflexivity).
  assert (session ident 7 run1 run0) as H1.
  { eapply (run_insert run0 run0 demo_recs); [exact H0 | vm_compute; reflexivity | vm_compute; reflexivity
      | reflexivity | vm_compute; reflexivity | vm_compute; reflexivity | exact demo_recs_ok
      | by vm_compute | done]. }
  assert (session ident 7 run2 run2) as H2
    by (eapply session_commit; [exact H1 | vm_compute; reflexivity]).
  eapply session_flush; [exact H2 | reflexivity | vm_compute; reflexivity | vm_compute; reflexivity].
Qed.

Lemma run5_session : session ident 7 run5 run3.
Proof.
  assert (session ident 7 run4 run3) as H4.
  { apply (session_delete ident 7 run3 run3 0 (15, 2) true run4); [exact run3_session | | vm_compute; reflexivity | done].
    intros id Hid. assert (tf_page_count run3 = 1) as Hc by (vm_compute; reflexivity).
    assert (id = 0) as -> by lia.
    assert (delete_batch run3 (15, 2) 0 = Some demo_delete_batch) as -> by (vm_compute; reflexivity).
    apply (has_room_ok run3 (log_of run3)); [reflexivity | by vm_compute]. }
  eapply (run_insert run4 run3 [demo_row]); [exact H4 | vm_compute; reflexivity | vm_compute; reflexivity
    | reflexivity | vm_compute; reflexivity | vm_compute; reflexivity | repeat constructor; apply demo_row_ok
    | by vm_compute | done].
Qed.

Lemma crash_recovery_witness :
  exists f' d, open_relation_file (wb_synced (log_of run5)) ident 7 true (tf_disk run5) = (Ok f', d) /\
    session ident 7 f' f' /\ same_answers f' run3.
Proof.
  apply (crash_recovery ident 7 run5 run3 (log_of run5)); [split; vm_compute; congruence | exact run5_session |].
  reflexivity.
Defined.

End CrashDemo.
