(* ===== verification/TsFindings.v ===== *)
(** * Where the time-series file does not keep its promises

    Concrete runs of the model, each evaluated from a new file, in which a
    committed row is lost after a crash, a deleted row comes back, or a file
    can no longer be opened. *)

From S2P Require Import Prelude Errors Compat FileOps LogFrame WalFrames WalBackend WalDurability.
From S2P Require Import PageFormat PageBlock RecordSpec PageImage PhysLog Replay PlCodec TsFile TsMutate TsProperties.

Module Runs.
Import PlCodec TsDemo.
#[local] Existing Instance Reference.packages.

(** What is left after a power loss: the synced part of the log and the data
    file, from which the file is opened again. *)
Definition synced_log (f : TimeSeriesFile) : gmap Z (list byte) :=
  match tf_wal_backend f with Some s => wb_synced s | None => ∅ end.
Definition reopen (f : TimeSeriesFile) : RS TimeSeriesFile :=
  (open_relation_file (synced_log f) ident 7 true (tf_disk f)).1.
Definition reopened (f : TimeSeriesFile) : TimeSeriesFile :=
  match reopen f with Ok f => f | _ => f end.

Definition row_a : Rec := mkRec 10 1 [x0a].
Definition row_b : Rec := mkRec 20 1 [x0b].
Definition put (r : Rec) : ST ErrorCode TimeSeriesFile unit :=
  file_insert 0 (r_ts r) (r_id r) (r_payload r).
Definition read (ts id : Z) (f : TimeSeriesFile) : RS (option Rec) :=
  match (file_get ts id f).1 with
  | Ok res => Ok (entry_of <$> res)
  | Err e => Err e
  | Panic => Panic
  end.

Definition unlogged1 : TimeSeriesFile := Eval vm_compute in ((put row_a ;; flush) file0).2.
Definition unlogged2 : TimeSeriesFile := Eval vm_compute in reopened unlogged1.
Definition unlogged3 : TimeSeriesFile := Eval vm_compute in ((put row_b ;; flush_wal_async) unlogged2).2.
Definition unlogged4 : TimeSeriesFile := Eval vm_compute in reopened unlogged3.

(** A flush does not wait for the log.  A row is inserted and the file
    flushed, which puts a page with the LSN of the row on the disk although
    the log is not synced.  After a power loss the log starts again below that
    LSN; a second row is inserted and its log entry is synced, and yet, after
    a second power loss, the replay skips that entry because the page looks
    newer, and the row is gone. *)
Theorem unlogged_flush_loses_commit :
  exists f1 f2 f3 f4, (put row_a ;; flush) file0 = (Ok tt, f1) /\ reopen f1 = Ok f2 /\
    (put row_b ;; flush_wal_async) f2 = (Ok tt, f3) /\ read 20 1 f3 = Ok (Some row_b) /\
    reopen f3 = Ok f4 /\ read 20 1 f4 = Ok None.
Proof.
  exists unlogged1, unlogged2, unlogged3, unlogged4.
  split_and!; vm_compute; reflexivity.
Qed.

Definition again1 : TimeSeriesFile := Eval vm_compute in ((put row_a ;; flush_wal_async ;; flush) file0).2.
Definition again2 : TimeSeriesFile := Eval vm_compute in ((put row_a ;; flush) again1).2.
Definition again3 : TimeSeriesFile := Eval vm_compute in ((put row_b ;; flush_wal_async) again2).2.
Definition again4 : TimeSeriesFile := Eval vm_compute in reopened again3.

(** A write that changes nothing.  A row is inserted, logged, synced and
    flushed; inserting the very same row again logs nothing but adds
    one to the LSN of the page, which is the LSN of the next entry.  The next
    row takes that LSN, is synced, and is lost by the replay after a power loss. *)
Theorem repeated_write_loses_commit :
  exists f1 f2 f3 f4, (put row_a ;; flush_wal_async ;; flush) file0 = (Ok tt, f1) /\
    (put row_a ;; flush) f1 = (Ok tt, f2) /\
    (put row_b ;; flush_wal_async) f2 = (Ok tt, f3) /\ read 20 1 f3 = Ok (Some row_b) /\
    reopen f3 = Ok f4 /\ read 20 1 f4 = Ok None.
Proof.
  exists again1, again2, again3, again4. split_and!; vm_compute; reflexivity.
Qed.

(** A file without a log, and rows of which three fill a page. *)
Definition standalone : TimeSeriesFile :=
  mkTimeSeriesFile None (Some []) true None ∅ 0 ∅ 0 NONE_PAGE_ID NONE_PAGE_ID 1 7 0.
Definition wide (ts id : Z) (b : byte) : Rec := mkRec ts id (replicate 1300 b).
Definition put_all (rs : list Rec) : ST ErrorCode TimeSeriesFile unit :=
  insert_batch 0 (row_of <$> rs).

Definition same_ts : list Rec := [wide 5 0 x00; wide 5 1 x01; wide 5 2 x02; wide 5 3 x03].
Definition four : TimeSeriesFile := Eval vm_compute in (put_all same_ts standalone).2.
Definition twice : TimeSeriesFile := Eval vm_compute in (put (mkRec 5 0 [xff]) four).2.
Definition once : TimeSeriesFile := Eval vm_compute in (file_delete 0 5 0 twice).2.

Lemma four_ok : put_all same_ts standalone = (Ok tt, four).
Proof. vm_compute. reflexivity. Qed.

(** A deleted row comes back.  Four rows with the same timestamp are
    split over two pages; writing a new payload for the first of them leaves
    the old version on its page and adds the new one to the other page.  A
    deletion of the row reports success and removes the new version only: the
    next read returns the old payload. *)
Theorem delete_resurrects :
  exists f1 f2 f3, put_all same_ts standalone = (Ok tt, f1) /\
    put (mkRec 5 0 [xff]) f1 = (Ok tt, f2) /\ read 5 0 f2 = Ok (Some (mkRec 5 0 [xff])) /\
    file_delete 0 5 0 f2 = (Ok true, f3) /\ read 5 0 f3 = Ok (Some (wide 5 0 x00)).
Proof.
  exists four, twice, once. split; [exact four_ok |]. split_and!; vm_compute; reflexivity.
Qed.

Definition three_pages : TimeSeriesFile := Eval vm_compute in (flush four).2.

(** A half-flushed file cannot be opened.  The same four rows make a
    chain in which the third page lies between the other two.  If the process
    dies before the third page reaches the disk, opening the file does not
    report damage but indexes the page headers out of range. *)
Theorem open_panics_on_missing_page :
  exists f1 f2 disk, put_all same_ts standalone = (Ok tt, f1) /\ flush f1 = (Ok tt, f2) /\
    tf_disk f2 = Some disk /\ zlen disk = 3 * PAGE_SIZE /\
    open_inner (Some (take (Z.to_nat (2 * PAGE_SIZE)) disk)) None None 7 false = Panic.
Proof.
  exists four, three_pages, (default [] (tf_disk three_pages)). split; [exact four_ok |].
  split_and!; vm_compute; reflexivity.
Qed.

End Runs.
