(* ===== verification/Snapshots.v ===== *)
(** * Snapshots

    Which versions a transaction sees: [server/worker_snapshot.rs], the
    transaction ids of a worker and the snapshots it hands out, and
    [contract/snapshot.rs], the snapshot that the version chains are read
    with. *)

From S2P Require Import Prelude Errors.

(** ** contract/timestamp.rs *)

Record Timestamp : Type := mkTimestamp {
  c_min : Z;
  c_max : Z;
}.

#[export] Instance timestamp_eq_dec : EqDecision Timestamp.
Proof. solve_decision. Defined.

Definition Timestamp_default : Timestamp := mkTimestamp 0 U64_MAX.

(** ** contract/snapshot.rs *)

Record RunningXList : Type := mkRunningXList {
  rx_creator_ts : Z;
  rx_running : list Z;
}.

Record Snapshot : Type := mkSnapshot {
  sn_creator_ts : Z;
  sn_lower_un_alloc_ts : Z;
  sn_upper_fin_ts : Z;
  sn_running : list Z;
}.

(** [is_sorted] of a slice. *)
Fixpoint is_sorted (l : list Z) : bool :=
  match l with
  | a :: (b :: _) as l => (a <=? b) && is_sorted l
  | _ => true
  end.

(** [contains] of a slice. *)
Definition contains_z (x : Z) (l : list Z) : bool := existsb (Z.eqb x) l.

Definition Snapshot_from (snapshot : RunningXList) : Res ErrorCode Snapshot :=
  let running := rx_running snapshot in
  let creator_ts := rx_creator_ts snapshot in
  if negb (is_sorted running) then Panic else
  let low_ts := match head running with None => creator_ts | Some v => v end in
  let upper_ts := match last running with None => creator_ts | Some v => v end in
  Ok (mkSnapshot creator_ts low_ts upper_ts running).

Definition Snapshot_is_visible (s : Snapshot) (xid : Z) : bool :=
  if xid =? sn_creator_ts s then true
  else if xid <? sn_upper_fin_ts s then true
  else if sn_lower_un_alloc_ts s <? xid then false
  else if contains_z xid (sn_running s) then false
  else true.

Definition is_tuple_visible (s : Snapshot) (tuple_ts : Timestamp) : bool :=
  negb (Snapshot_is_visible s (c_max tuple_ts)) && Snapshot_is_visible s (c_min tuple_ts).

(** ** server/worker_snapshot.rs *)

Record WorkerSnapshot : Type := mkWorkerSnapshot {
  ws_xid : Z;
  ws_running : list Z;
}.

Definition latest_committed : WorkerSnapshot := mkWorkerSnapshot (U64_MAX - 1) [].

(** [binary_search] of a sorted slice: the position of an equal element, or
    the position where the value belongs.  On a slice that is strictly sorted
    there is one answer, which the scan finds as well. *)
Fixpoint search_sorted (x : Z) (l : list Z) : nat + nat :=
  match l with
  | [] => inr 0%nat
  | y :: l =>
      if x =? y then inl 0%nat
      else if x <? y then inr 0%nat
      else match search_sorted x l with inl i => inl (S i) | inr i => inr (S i) end
  end.

Definition is_visible_to_snapshot (version_xid : Z) (snapshot : WorkerSnapshot) : bool :=
  if ws_xid snapshot <? version_xid then false
  else match search_sorted version_xid (ws_running snapshot) with inl _ => false | inr _ => true end.

Definition to_snapshot (s : WorkerSnapshot) : Res ErrorCode Snapshot :=
  Snapshot_from (mkRunningXList (ws_xid s) (ws_running s)).

Record WorkerSnapshotMgr : Type := mkWorkerSnapshotMgr {
  sm_next_ts : Z;
  sm_running : list Z;
}.

Definition WorkerSnapshotMgr_default : WorkerSnapshotMgr := mkWorkerSnapshotMgr 0 [].

Definition insert_sorted_unique (values : list Z) (value : Z) : list Z :=
  match search_sorted value values with
  | inl _ => values
  | inr index => insert_at index value values
  end.

(** [fetch_add(1) + 1]: the counter wraps around, the sum is checked. *)
Definition alloc_committed_ts : ST ErrorCode WorkerSnapshotMgr Z :=
  fun m =>
    let next := sm_next_ts m in
    (uadd next 1, mkWorkerSnapshotMgr ((next + 1) mod 18446744073709551616) (sm_running m)).

Definition mgr_begin_tx : ST ErrorCode WorkerSnapshotMgr WorkerSnapshot :=
  xid ← alloc_committed_ts;
  m ← st_get;
  st_put (mkWorkerSnapshotMgr (sm_next_ts m) (insert_sorted_unique (sm_running m) xid)) ;;
  mret (mkWorkerSnapshot xid (sm_running m)).

Definition observe_committed_ts (xid : Z) : ST ErrorCode WorkerSnapshotMgr unit :=
  st_modify (fun m => mkWorkerSnapshotMgr (Z.max (sm_next_ts m) xid) (sm_running m)).

Definition mgr_end_tx (xid : Z) : ST ErrorCode WorkerSnapshotMgr unit :=
  m ← st_get;
  match search_sorted xid (sm_running m) with
  | inl index => st_put (mkWorkerSnapshotMgr (sm_next_ts m) (delete index (sm_running m)))
  | inr _ => st_lift (Err EntityNotFound)
  end.

Definition oldest_running_xid (m : WorkerSnapshotMgr) : option Z := head (sm_running m).

Definition latest_xid (m : WorkerSnapshotMgr) : Z := sm_next_ts m.

(** ** Lemmas on sorted lists of ids *)

Lemma search_sorted_spec x l :
  StronglySorted Z.lt l ->
  match search_sorted x l with
  | inl i => l !! i = Some x
  | inr i => (i <= length l)%nat /\ Forall (fun y => y < x) (take i l) /\ Forall (fun y => x < y) (drop i l)
  end.
Proof.
  induction 1 as [| y l Hs IH Hy]; cbn [search_sorted]; [by split_and!; constructor |].
  destruct (Z.eqb_spec x y) as [-> | Hne]; [done |].
  destruct (Z.ltb_spec x y) as [Hlt | Hge].
  - split_and!; [lia | constructor |]. rewrite drop_0. constructor; [lia |].
    eapply Forall_impl; [exact Hy |]. cbn. lia.
  - destruct (search_sorted x l) as [i | i]; [exact IH |]. destruct IH as (Hi & H1 & H2).
    split_and!; [cbn; lia | | exact H2]. constructor; [lia | exact H1].
Qed.

Lemma search_sorted_elem x l :
  StronglySorted Z.lt l -> x ∈ l <-> exists i, search_sorted x l = inl i.
Proof.
  intros Hs. pose proof (search_sorted_spec x l Hs) as H. destruct (search_sorted x l) as [i | i].
  - split; [by exists i | intros _; by eapply list_elem_of_lookup_2].
  - split; [| by intros [? [=]]]. destruct H as (_ & H1 & H2).
    rewrite Forall_forall in H1, H2. rewrite <- (take_drop i l), elem_of_app.
    intros [Hx | Hx]; [specialize (H1 x Hx) | specialize (H2 x Hx)]; lia.
Qed.

Lemma insert_sorted_ok l x :
  StronglySorted Z.lt l ->
  StronglySorted Z.lt (insert_sorted_unique l x) /\ forall y, y ∈ insert_sorted_unique l x <-> y = x \/ y ∈ l.
Proof.
  intros Hs. unfold insert_sorted_unique. pose proof (search_sorted_spec x l Hs) as H.
  destruct (search_sorted x l) as [i | i].
  - split; [exact Hs |]. intros y. apply list_elem_of_lookup_2 in H. naive_solver.
  - destruct H as (Hi & H1 & H2). split.
    + unfold insert_at. apply StronglySorted_app_iff. rewrite <- (take_drop i l) in Hs.
      apply StronglySorted_app_iff in Hs as (S1 & S2 & S3). split_and!; [done | by constructor |].
      intros a b Ha Hb. rewrite Forall_forall in H1, H2. apply elem_of_cons in Hb as [-> | Hb]; [by apply H1 |].
      by apply S3.
    + intros y. unfold insert_at. rewrite elem_of_app, elem_of_cons. rewrite <- (take_drop i l) at 3.
      rewrite elem_of_app. naive_solver.
Qed.

Lemma delete_sorted_ok l x i :
  StronglySorted Z.lt l -> l !! i = Some x ->
  StronglySorted Z.lt (delete i l) /\ forall y, y ∈ delete i l <-> y <> x /\ y ∈ l.
Proof.
  intros Hs Hi. split; [by apply StronglySorted_delete |]. intros y. split.
  - intros Hy. apply list_elem_of_lookup in Hy as [j Hj]. rewrite list_lookup_delete in Hj. split.
    + intros ->. case_decide as Hd.
      * pose proof (StronglySorted_lookup _ _ _ _ _ _ Hs Hd Hj Hi). lia.
      * assert (i < S j)%nat as Hij by lia. pose proof (StronglySorted_lookup _ _ _ _ _ _ Hs Hij Hi Hj). lia.
    + case_decide; by eapply list_elem_of_lookup_2.
  - intros [Hne Hy]. by eapply elem_of_delete_ne.
Qed.

(** ** The ids of a worker *)

(** What happened to a snapshot manager, the last event first. *)
Inductive mgr_event : Type :=
| EvBegin (xid : Z)
| EvEnd (xid : Z)
| EvAlloc (xid : Z)
| EvObserve (xid : Z).

Inductive mgr_run : list mgr_event -> WorkerSnapshotMgr -> Prop :=
| run_new : mgr_run [] WorkerSnapshotMgr_default
| run_begin tr m s m' :
    mgr_run tr m -> mgr_begin_tx m = (Ok s, m') -> mgr_run (EvBegin (ws_xid s) :: tr) m'
| run_end tr m xid m' :
    mgr_run tr m -> mgr_end_tx xid m = (Ok tt, m') -> mgr_run (EvEnd xid :: tr) m'
| run_alloc tr m xid m' :
    mgr_run tr m -> alloc_committed_ts m = (Ok xid, m') -> mgr_run (EvAlloc xid :: tr) m'
| run_observe tr m xid m' :
    mgr_run tr m -> in_u64 xid -> observe_committed_ts xid m = (Ok tt, m') -> mgr_run (EvObserve xid :: tr) m'.

(** The transaction began and did not end. *)
Fixpoint active (tr : list mgr_event) (x : Z) : Prop :=
  match tr with
  | [] => False
  | EvBegin y :: tr => x = y \/ active tr x
  | EvEnd y :: tr => x <> y /\ active tr x
  | _ :: tr => active tr x
  end.

(** The id was handed out or reported by the log. *)
Definition event_id (e : mgr_event) : Z :=
  match e with EvBegin x | EvEnd x | EvAlloc x | EvObserve x => x end.

Record mgr_inv (tr : list mgr_event) (m : WorkerSnapshotMgr) : Prop := mk_mgr_inv {
  mi_next : in_u64 (sm_next_ts m);
  mi_sorted : StronglySorted Z.lt (sm_running m);
  mi_active : forall x, x ∈ sm_running m <-> active tr x;
  mi_ids : Forall (fun e => event_id e <= sm_next_ts m) tr;
  mi_below : forall x, x ∈ sm_running m -> 0 < x <= sm_next_ts m;
}.

Lemma alloc_inv m xid m' :
  in_u64 (sm_next_ts m) -> alloc_committed_ts m = (Ok xid, m') ->
  xid = sm_next_ts m + 1 /\ xid <= U64_MAX /\ m' = mkWorkerSnapshotMgr xid (sm_running m).
Proof.
  intros Hn. unfold alloc_committed_ts, uadd. destruct (Z.leb_spec (sm_next_ts m + 1) U64_MAX); [| done].
  intros [= <- <-]. split_and!; [done | done |]. f_equal. apply Z.mod_small. mlia.
Qed.

Lemma begin_inv m s m' :
  in_u64 (sm_next_ts m) -> mgr_begin_tx m = (Ok s, m') ->
  s = mkWorkerSnapshot (sm_next_ts m + 1) (sm_running m) /\ sm_next_ts m + 1 <= U64_MAX /\
  m' = mkWorkerSnapshotMgr (sm_next_ts m + 1) (insert_sorted_unique (sm_running m) (sm_next_ts m + 1)).
Proof.
  intros Hn. unfold mgr_begin_tx, mbind, st_bind.
  destruct (alloc_committed_ts m) as [[xid | |] m1] eqn:E; [| done | done].
  destruct (alloc_inv _ _ _ Hn E) as (-> & Hmax & ->). intros [= <- <-]. by split_and!.
Qed.

Lemma mgr_run_inv tr m : mgr_run tr m -> mgr_inv tr m.
Proof.
  induction 1 as [| tr m s m' _ [N S A I B] E | tr m xid m' _ [N S A I B] E | tr m xid m' _ [N S A I B] E
                  | tr m xid m' _ [N S A I B] Hxid E].
  - split; cbn [WorkerSnapshotMgr_default sm_next_ts sm_running]; [mlia | constructor | set_solver | constructor | set_solver].
  - destruct (begin_inv _ _ _ N E) as (-> & Hmax & ->). destruct (insert_sorted_ok _ (sm_next_ts m + 1) S) as [S' He].
    split; cbn [sm_next_ts sm_running ws_xid]; [mlia | exact S' | | |].
    + intros x. cbn [active]. by rewrite He, A.
    + constructor; [cbn; lia |]. eapply Forall_impl; [exact I |]. cbn. lia.
    + intros x [-> | Hx]%He; [mlia |]. specialize (B x Hx). lia.
  - unfold mgr_end_tx in E. cbn in E. unfold mbind, st_bind, st_get in E.
    pose proof (search_sorted_spec xid _ S) as Hs. destruct (search_sorted xid (sm_running m)) as [i |]; [| done].
    injection E as <-. destruct (delete_sorted_ok _ _ _ S Hs) as [S' He].
    split; cbn [sm_next_ts sm_running]; [done | exact S' | | |].
    + intros x. cbn [active]. by rewrite He, A.
    + constructor; [| exact I]. cbn. apply B. by eapply list_elem_of_lookup_2.
    + intros x [_ Hx]%He. by apply B.
  - destruct (alloc_inv _ _ _ N E) as (-> & Hmax & ->).
    split; cbn [sm_next_ts sm_running]; [mlia | exact S | exact A | |].
    + constructor; [cbn; lia |]. eapply Forall_impl; [exact I |]. cbn. lia.
    + intros x Hx. specialize (B x Hx). lia.
  - injection E as <-. split; cbn [sm_next_ts sm_running]; [mlia | exact S | exact A | |].
    + constructor; [cbn; lia |]. eapply Forall_impl; [exact I |]. cbn. lia.
    + intros x Hx. specialize (B x Hx). lia.
Qed.

(** The snapshot of a new transaction.  Whatever began, ended, committed or
    was recovered on the worker before, as long as there are ids left a new
    transaction can begin; it gets an id above all ids seen so far, and its
    snapshot sees exactly the ids up to its own whose transaction is not
    active. *)
Theorem begin_tx_snapshot tr m :
  mgr_run tr m -> sm_next_ts m < U64_MAX ->
  exists s m', mgr_begin_tx m = (Ok s, m') /\ mgr_run (EvBegin (ws_xid s) :: tr) m' /\
  Forall (fun e => event_id e < ws_xid s) tr /\
  forall v, is_visible_to_snapshot v s = true <-> v <= ws_xid s /\ ~ active tr v.
Proof.
  intros Hr Hmax. destruct (mgr_run_inv _ _ Hr) as [N S A I B]. destruct (mgr_begin_tx m) as [r m'] eqn:E.
  assert (exists s, r = Ok s) as [s ->].
  { unfold mgr_begin_tx, alloc_committed_ts, uadd, mbind, st_bind in E. rewrite (proj2 (Z.leb_le _ _)) in E by lia.
    injection E as <- _. by eexists. }
  exists s, m'. split; [done |]. split; [by eapply run_begin |]. destruct (begin_inv _ _ _ N E) as (-> & _ & _).
  cbn [ws_xid]. split; [eapply Forall_impl; [exact I |]; cbn; lia |]. intros v.
  unfold is_visible_to_snapshot. cbn [ws_xid ws_running]. rewrite <- A, search_sorted_elem by exact S.
  destruct (Z.ltb_spec (sm_next_ts m + 1) v); [split; [done | lia] |].
  destruct (search_sorted v (sm_running m)); naive_solver.
Qed.

(** Transactions 1 and 2 began, 1 ended; the next one is 3. *)
Lemma begin_tx_snapshot_witness :
  exists s m', mgr_begin_tx (mkWorkerSnapshotMgr 2 [2]) = (Ok s, m') /\
    mgr_run [EvBegin (ws_xid s); EvEnd 1; EvBegin 2; EvBegin 1] m' /\
    Forall (fun e => event_id e < ws_xid s) [EvEnd 1; EvBegin 2; EvBegin 1] /\
    forall v, is_visible_to_snapshot v s = true <-> v <= ws_xid s /\ ~ active [EvEnd 1; EvBegin 2; EvBegin 1] v.
Proof.
  apply (begin_tx_snapshot _ (mkWorkerSnapshotMgr 2 [2])); [| reflexivity].
  apply (run_end _ (mkWorkerSnapshotMgr 2 [1; 2])); [| reflexivity].
  apply (run_begin _ (mkWorkerSnapshotMgr 1 [1]) (mkWorkerSnapshot 2 [1])); [| reflexivity].
  apply (run_begin _ WorkerSnapshotMgr_default (mkWorkerSnapshot 1 [])); [apply run_new | reflexivity].
Defined.

(** ** The two notions of visibility *)

Lemma sorted_is_sorted l : StronglySorted Z.lt l -> is_sorted l = true.
Proof.
  induction 1 as [| x l Hs IH Hx]; [done |]. destruct l as [| y l]; [done |].
  change ((x <=? y) && is_sorted (y :: l) = true). rewrite IH, andb_true_r. apply Forall_inv in Hx. lia.
Qed.

Lemma contains_z_elem x l : contains_z x l = true <-> x ∈ l.
Proof.
  unfold contains_z. rewrite existsb_exists. setoid_rewrite <- list_elem_of_In. split.
  - intros (y & Hy & ->%Z.eqb_eq). exact Hy.
  - intros Hx. exists x. by rewrite Z.eqb_refl.
Qed.

(** What a snapshot of the version chains shows. *)
Lemma snapshot_visible_iff xid running v :
  StronglySorted Z.lt running -> Forall (fun r => r < xid) running ->
  exists s, to_snapshot (mkWorkerSnapshot xid running) = Ok s /\
    (Snapshot_is_visible s v = true <->
     v = xid \/ match last running with Some r => v < r | None => v < xid end).
Proof.
  intros Hs Hb. unfold to_snapshot, Snapshot_from. cbn [rx_running rx_creator_ts ws_xid ws_running].
  rewrite (sorted_is_sorted _ Hs). eexists. split; [reflexivity |].
  unfold Snapshot_is_visible. cbn [sn_creator_ts sn_lower_un_alloc_ts sn_upper_fin_ts sn_running].
  destruct (Z.eqb_spec v xid) as [-> | Hne]; [naive_solver |].
  destruct running as [| a l]; [cbn; destruct (Z.ltb_spec v xid), (Z.ltb_spec xid v); naive_solver lia |].
  destruct (exists_last (l := a :: l)) as (l0 & r & El); [done |]. rewrite El, last_snoc.
  assert (match head (l0 ++ [r]) with Some v => v | None => xid end = a) as Ea by (by rewrite <- El).
  rewrite Ea. destruct (Z.ltb_spec v r); [naive_solver |]. destruct (Z.ltb_spec a v); [naive_solver lia |].
  assert (a <= r) as Har.
  { rewrite El in Hs. apply StronglySorted_app_iff in Hs as (_ & _ & Hs). destruct l0 as [| b l0].
    - injection El as -> _. lia.
    - injection El as <- _. assert (a < r) by (apply Hs; set_solver). lia. }
  assert (v = r) as -> by lia. rewrite (proj2 (contains_z_elem r (l0 ++ [r]))) by set_solver. naive_solver lia.
Qed.

Lemma worker_visible_iff xid running v :
  StronglySorted Z.lt running ->
  is_visible_to_snapshot v (mkWorkerSnapshot xid running) = true <-> v <= xid /\ v ∉ running.
Proof.
  intros Hs. unfold is_visible_to_snapshot. cbn [ws_xid ws_running].
  rewrite search_sorted_elem by exact Hs. destruct (Z.ltb_spec xid v); [naive_solver lia |].
  destruct (search_sorted v running); naive_solver.
Qed.

Lemma bool_differ (a b : bool) (A B : Prop) : (a = true <-> A) -> (b = true <-> B) -> a <> b <-> ~ (A <-> B).
Proof. destruct a, b; naive_solver. Qed.

(** C26: The two notions of visibility differ.  [has_write_conflict] asks
    [WorkerSnapshot], the version chains are read with the [Snapshot] made of
    it.  They disagree on a version exactly if some transaction [r] is the
    youngest one running when the snapshot was taken and the version is of an
    older running transaction, which the chains show although it had not
    committed, or was committed by a transaction between [r] and the reader,
    which the chains hide. *)
Theorem snapshot_visibility_differs xid running v :
  StronglySorted Z.lt running -> Forall (fun r => r < xid) running ->
  exists s, to_snapshot (mkWorkerSnapshot xid running) = Ok s /\
    (Snapshot_is_visible s v <> is_visible_to_snapshot v (mkWorkerSnapshot xid running) <->
     exists r, last running = Some r /\ (v ∈ running /\ v < r \/ r < v < xid)).
Proof.
  intros Hs Hb. destruct (snapshot_visible_iff xid running v Hs Hb) as (s & E & Hv). exists s. split; [exact E |].
  rewrite (bool_differ _ _ _ _ Hv (worker_visible_iff xid running v Hs)).
  destruct (last running) as [r |] eqn:El.
  - pose proof El as (l & ->)%last_Some. rewrite Forall_app in Hb. destruct Hb as [Hb Hr%Forall_inv].
    apply StronglySorted_app_iff in Hs as (_ & _ & Hs).
    assert (forall y, y ∈ l ++ [r] -> y <= r) as Hle.
    { intros y [Hy | ->%list_elem_of_singleton]%elem_of_app; [| lia]. specialize (Hs y r Hy ltac:(set_solver)). lia. }
    assert (r ∈ l ++ [r]) as Hin by set_solver. rewrite Forall_forall in Hb.
    transitivity (v ∈ l ++ [r] /\ v < r \/ r < v < xid);
      [| split; [intros Hd; by exists r | by intros (? & [= <-] & Hd)]].
    destruct (decide (v ∈ l ++ [r])) as [Hv1 | Hv1].
    + pose proof (Hle v Hv1). split.
      * intros Hn. left. split; [done |]. destruct (Z.lt_ge_cases v r) as [| Hge]; [done |].
        exfalso. apply Hn. split; [lia | by intros [_ ?]].
      * intros Hd [H1 _]. destruct H1 as [_ Hv2]; [lia | done].
    + assert (v <> r) by (by intros ->). split.
      * intros Hn. right. destruct (Z.lt_ge_cases r v) as [Hlt | Hge].
        -- split; [done |]. destruct (Z.lt_ge_cases v xid) as [| Hge]; [done |]. exfalso. apply Hn.
           split; [intros ?; split; [lia | done] | lia].
        -- exfalso. apply Hn. split; [intros _; split; [lia | done] | lia].
      * intros [[? _] | Hd] [_ H1]; [done |]. assert (v = xid \/ v < r) by (apply H1; split; [lia | done]). lia.
  - apply last_None in El as ->. split; [| naive_solver]. intros Hn. exfalso. apply Hn.
    assert (v ∉ (@nil Z)) by apply not_elem_of_nil. naive_solver lia.
Qed.

Lemma snapshot_visibility_differs_witness :
  exists s, to_snapshot (mkWorkerSnapshot 9 [3; 5]) = Ok s /\
    (Snapshot_is_visible s 7 <> is_visible_to_snapshot 7 (mkWorkerSnapshot 9 [3; 5]) <->
     exists r, last [3; 5] = Some r /\ (7 ∈ [3; 5] /\ 7 < r \/ r < 7 < 9)).
Proof.
  apply snapshot_visibility_differs; repeat constructor.
Defined.
