(* ===== verification/Versions.v ===== *)
(** * Version chains

    The versions of a row in memory: [contract/version_tuple.rs],
    [contract/version_delta.rs], [contract/data_row.rs] and the byte deltas of
    [mudu/src/common/update_delta.rs].  A row keeps its newest versions in
    full and the transitions to the older ones as deltas; the theorems show
    that a read finds the version that the history of the row has for it. *)

From S2P Require Import Prelude Errors Snapshots.

(** ** contract/version_tuple.rs *)

Record VersionTuple : Type := mkVersionTuple {
  vt_timestamp : Timestamp;
  vt_buf : list byte;
  vt_deleted : bool;
}.

Definition VersionTuple_new (timestamp : Timestamp) (buf : list byte) : VersionTuple :=
  mkVersionTuple timestamp buf false.

Definition new_delete (timestamp : Timestamp) : VersionTuple := mkVersionTuple timestamp [] true.

Definition update_timestamp (ts : Timestamp) (v : VersionTuple) : VersionTuple :=
  mkVersionTuple ts (vt_buf v) (vt_deleted v).

(** ** mudu/src/common/update_delta.rs *)

Record UpdateDelta : Type := mkUpdateDelta {
  ud_offset : Z;
  ud_size : Z;
  ud_data : list byte;
}.

(** [to_replace_end]: the sum of two [u32]. *)
Definition to_replace_end (d : UpdateDelta) : Res ErrorCode Z :=
  if ud_offset d + ud_size d <=? U32_MAX then Ok (ud_offset d + ud_size d) else Panic.

(** The bytes of the range are replaced; the result undoes it. *)
Definition apply_to (d : UpdateDelta) : ST ErrorCode (list byte) UpdateDelta :=
  fun buf =>
    match to_replace_end d with
    | Ok e =>
        if zlen buf <? e then (Panic, buf) else
        (Ok (mkUpdateDelta (ud_offset d) (as_u32 (zlen (ud_data d))) (buf.[ud_offset d, ud_size d])),
         take (Z.to_nat (ud_offset d)) buf ++ ud_data d ++ drop (Z.to_nat e) buf)
    | Err e => (Err e, buf)
    | Panic => (Panic, buf)
    end.

(** ** contract/version_delta.rs *)

Record VersionDelta : Type := mkVersionDelta {
  vd_timestamp : Timestamp;
  vd_deleted : bool;
  vd_update : list UpdateDelta;
}.

(** ** contract/data_row.rs *)

Definition UNCOMPRESSED_VERSION_COUNT : Z := 4.

Record DataRowInner : Type := mkDataRowInner {
  dr_tid : Z;
  dr_tuple : list VersionTuple;
  dr_delta : list VersionDelta;
}.

Definition DataRow_new (tid : Z) : DataRowInner := mkDataRowInner tid [] [].

Definition build_version_delta (newer older : VersionTuple) : VersionDelta :=
  mkVersionDelta (vt_timestamp older) (vt_deleted older)
    [mkUpdateDelta 0 (as_u32 (zlen (vt_buf newer))) (vt_buf older)].

(** The deltas of a version are applied in order; what they undo is dropped. *)
Fixpoint apply_deltas (ds : list UpdateDelta) (buf : list byte) : Res ErrorCode (list byte) :=
  match ds with
  | [] => Ok buf
  | d :: ds => match apply_to d buf with
               | (Ok _, buf) => apply_deltas ds buf
               | (Err e, _) => Err e
               | (Panic, _) => Panic
               end
  end.

Definition apply_version_delta (version : VersionTuple) (delta : VersionDelta)
    : Res ErrorCode VersionTuple :=
  tuple ← apply_deltas (vd_update delta) (vt_buf version);
  Ok (if vd_deleted delta then new_delete (vd_timestamp delta)
      else VersionTuple_new (vd_timestamp delta) tuple).

Definition push_version (version : VersionTuple) (r : DataRowInner) : DataRowInner :=
  let tuple := dr_tuple r ++ [version] in
  mkDataRowInner (dr_tid r)
    (if UNCOMPRESSED_VERSION_COUNT <? zlen tuple then tail tuple else tuple) (dr_delta r).

Definition push_delta (delta : VersionDelta) (r : DataRowInner) : DataRowInner :=
  mkDataRowInner (dr_tid r) (dr_tuple r) (dr_delta r ++ [delta]).

Definition write_version (version : VersionTuple) (prev_version : option VersionDelta)
    : ST ErrorCode DataRowInner unit :=
  st_modify (fun r =>
    push_version version
      (match last (dr_tuple r) with
       | Some latest => push_delta (default (build_version_delta version latest) prev_version) r
       | None => r
       end)).

Definition write_version_shallow (version : VersionTuple) : ST ErrorCode DataRowInner unit :=
  st_modify (fun r =>
    push_version version
      (match last (dr_tuple r) with
       | Some latest =>
           push_delta (mkVersionDelta (vt_timestamp latest) (vt_deleted latest) [mkUpdateDelta 0 0 []]) r
       | None => r
       end)).

Definition row_read_latest (r : DataRowInner) : option VersionTuple := last (dr_tuple r).

(** [iter().rev().find(..)]. *)
Fixpoint find_last {A} (p : A -> bool) (l : list A) : option A :=
  match l with
  | [] => None
  | x :: l => match find_last p l with Some y => Some y | None => if p x then Some x else None end
  end.

(** The loop over the deltas: [n] of them are left. *)
Fixpoint delta_walk (snapshot : Snapshot) (delta : list VersionDelta) (n : nat) (version : VersionTuple)
    : Res ErrorCode (option (VersionTuple * bool)) :=
  match n with
  | O => Ok None
  | S index =>
      match delta !! index with
      | None => Panic
      | Some d =>
          version ← apply_version_delta version d;
          if is_tuple_visible snapshot (vt_timestamp version) then Ok (Some (version, false))
          else delta_walk snapshot delta index version
      end
  end.

Definition read_version_detailed (snapshot : Snapshot) (r : DataRowInner)
    : Res ErrorCode (option (VersionTuple * bool)) :=
  match find_last (fun v => is_tuple_visible snapshot (vt_timestamp v)) (dr_tuple r) with
  | Some version => Ok (Some (version, negb (bool_decide (vt_buf version = []))))
  | None =>
      match head (dr_tuple r) with
      | None => Ok None
      | Some version =>
          let older_version_count :=
            (length (dr_delta r) + 1 - length (dr_tuple r))%nat in
          delta_walk snapshot (dr_delta r) older_version_count version
      end
  end.

Definition read_version (snapshot : Snapshot) (r : DataRowInner) : Res ErrorCode (option VersionTuple) :=
  res ← read_version_detailed snapshot r;
  Ok (option_map fst res).

(** [apply_update_to_latest_sync]. *)
Definition apply_update_to_latest (timestamp : Timestamp)
    (compute : list byte -> Res ErrorCode (list byte)) : ST ErrorCode DataRowInner (list byte) :=
  r ← st_get;
  match row_read_latest r with
  | None => st_lift (Err EntityNotFound)
  | Some latest =>
      computed ← st_lift (compute (vt_buf latest));
      write_version_shallow (VersionTuple_new timestamp computed) ;;
      mret computed
  end.

(** ** Byte deltas *)

Definition delta_ok (d : UpdateDelta) (buf : list byte) : Prop :=
  0 <= ud_offset d /\ 0 <= ud_size d /\ ud_offset d + ud_size d <= U32_MAX /\
  ud_offset d + ud_size d <= zlen buf /\ zlen (ud_data d) <= U32_MAX.

Lemma apply_to_ok d buf :
  delta_ok d buf ->
  apply_to d buf =
    (Ok (mkUpdateDelta (ud_offset d) (zlen (ud_data d)) (buf.[ud_offset d, ud_size d])),
     take (Z.to_nat (ud_offset d)) buf ++ ud_data d ++ drop (Z.to_nat (ud_offset d + ud_size d)) buf).
Proof.
  intros (H1 & H2 & H3 & H4 & H5). unfold apply_to, to_replace_end.
  rewrite (proj2 (Z.leb_le _ _)) by lia. rewrite (proj2 (Z.ltb_ge _ _)) by lia.
  rewrite as_u32_small; [done |]. pose proof (zlen_nonneg (ud_data d)). mlia.
Qed.

(** A delta can be undone.  [apply_to] returns the compensating delta;
    applied to the changed bytes it gives back the original ones, and its own
    compensation is the delta that was applied first. *)
Theorem delta_undo d buf :
  delta_ok d buf -> ud_offset d + zlen (ud_data d) <= U32_MAX ->
  exists undo buf', apply_to d buf = (Ok undo, buf') /\ apply_to undo buf' = (Ok d, buf).
Proof.
  intros Hok Hmax. pose proof Hok as (H1 & H2 & H3 & H4 & H5). rewrite (apply_to_ok _ _ Hok).
  eexists _, _. split; [reflexivity |]. pose proof (zlen_nonneg (ud_data d)).
  assert (zlen (take (Z.to_nat (ud_offset d)) buf) = ud_offset d) as Ht
    by (unfold zlen in *; rewrite length_take; lia).
  assert (zlen (buf.[ud_offset d, ud_size d]) = ud_size d) as Hz by (apply zlen_zsub; lia).
  rewrite apply_to_ok; cbn [ud_offset ud_size ud_data].
  - rewrite Hz. f_equal.
    + do 2 f_equal. destruct d as [o n data]. cbn [ud_offset ud_size ud_data] in *. f_equal.
      rewrite zsub_app_r by lia. rewrite Ht, Z.sub_diag. rewrite zsub_app_l by lia. by apply zsub_all.
    + set (pre := take (Z.to_nat (ud_offset d)) buf) in *.
      set (post := drop (Z.to_nat (ud_offset d + ud_size d)) buf).
      assert (drop (Z.to_nat (ud_offset d + zlen (ud_data d))) (pre ++ ud_data d ++ post) = post) as ->
        by (rewrite app_assoc, drop_app_length'; [done |]; rewrite length_app; unfold zlen in *; lia).
      rewrite take_app_length' by (unfold zlen in *; lia). unfold pre, post, zsub.
      rewrite Z2Nat.inj_add, <- drop_drop, take_drop by lia. apply take_drop.
  - unfold delta_ok. cbn [ud_offset ud_size ud_data]. rewrite !zlen_app, Ht, Hz.
    pose proof (zlen_nonneg (drop (Z.to_nat (ud_offset d + ud_size d)) buf)). mlia.
Qed.

Lemma delta_undo_witness : exists undo buf',
  apply_to (mkUpdateDelta 1 2 [x09; x09; x09]) [x01; x02; x03; x04] = (Ok undo, buf') /\
  apply_to undo buf' = (Ok (mkUpdateDelta 1 2 [x09; x09; x09]), [x01; x02; x03; x04]).
Proof. apply delta_undo; [repeat split; vm_compute; congruence | vm_compute; congruence]. Defined.

(** ** Rows and their histories *)

(** What the writer stores: lengths fit in a [u32], a deletion has no payload. *)
Definition version_ok (v : VersionTuple) : Prop :=
  zlen (vt_buf v) <= U32_MAX /\ (vt_deleted v = true -> vt_buf v = []).

(** The delta that leads from a version to the one before it, for the two
    ways of writing. *)
Definition link (deep : bool) (newer older : VersionTuple) : VersionDelta :=
  if deep then build_version_delta newer older
  else mkVersionDelta (vt_timestamp older) (vt_deleted older) [mkUpdateDelta 0 0 []].

Definition write_row (deep : bool) (v : VersionTuple) : ST ErrorCode DataRowInner unit :=
  if deep then write_version v None else write_version_shallow v.

Fixpoint write_rows (deep : bool) (vs : list VersionTuple) : ST ErrorCode DataRowInner unit :=
  match vs with
  | [] => mret tt
  | v :: vs => write_row deep v ;; write_rows deep vs
  end.

(** The row [r] has the history [h], oldest version first. *)
Definition row_rep (deep : bool) (r : DataRowInner) (h : list VersionTuple) : Prop :=
  dr_tuple r = drop (length h - 4) h /\
  length (dr_delta r) = pred (length h) /\
  (forall i older newer, h !! i = Some older -> h !! S i = Some newer ->
     dr_delta r !! i = Some (link deep newer older)).

(** What a reconstructed version [v] has of the version [w] of the history. *)
Definition agrees (deep : bool) (v w : VersionTuple) : Prop :=
  vt_timestamp v = vt_timestamp w /\ vt_deleted v = vt_deleted w /\ (deep = true -> v = w).

Lemma agrees_refl deep v : agrees deep v v.
Proof. done. Qed.

Lemma last_drop_window (h : list VersionTuple) : last (drop (length h - 4) h) = last h.
Proof.
  destruct (decide (h = [])) as [-> | Hne]; [done |].
  rewrite !last_lookup, lookup_drop, length_drop.
  destruct h; [done |]. f_equal. cbn [length]. lia.
Qed.

Lemma window_app (h : list VersionTuple) (v : VersionTuple) :
  let l := drop (length h - 4) h ++ [v] in
  (if UNCOMPRESSED_VERSION_COUNT <? zlen l then tail l else l) =
  drop (length (h ++ [v]) - 4) (h ++ [v]).
Proof.
  cbn zeta. unfold UNCOMPRESSED_VERSION_COUNT, zlen. rewrite !length_app, length_drop. cbn [length].
  destruct (decide (length h < 4)%nat).
  - rewrite (proj2 (Z.ltb_ge _ _)) by lia.
    by replace (length h + 1 - 4)%nat with 0%nat by lia; replace (length h - 4)%nat with 0%nat by lia.
  - rewrite (proj2 (Z.ltb_lt _ _)) by lia. rewrite drop_app_le by lia.
    replace (length h + 1 - 4)%nat with (S (length h - 4)) by lia.
    destruct (drop (length h - 4) h) as [| x l] eqn:E.
    { apply (f_equal length) in E. rewrite length_drop in E. cbn in E. lia. }
    cbn [tail app]. f_equal. rewrite <- (drop_drop _ 1) || rewrite <- Nat.add_1_r, <- drop_drop, E. done.
Qed.

Lemma write_row_rep deep v r h :
  row_rep deep r h -> exists r', write_row deep v r = (Ok tt, r') /\ row_rep deep r' (h ++ [v]).
Proof.
  intros (Ht & Hl & Hd).
  exists (push_version v (match last h with Some w => push_delta (link deep v w) r | None => r end)).
  split.
  { destruct deep; cbn [write_row link]; unfold write_version, write_version_shallow, st_modify;
      rewrite Ht, last_drop_window; by destruct (last h). }
  destruct (last h) as [w |] eqn:Hw.
  - apply last_Some in Hw as [h' ->]. split_and!.
    + cbn [push_version push_delta dr_tuple]. rewrite Ht. apply window_app.
    + cbn [push_version push_delta dr_delta]. rewrite !length_app, Hl, length_app. cbn [length]. lia.
    + cbn [push_version push_delta dr_delta]. intros i older newer Ho Hn.
      rewrite length_app in Hl. cbn [length] in Hl.
      destruct (decide (S i < length (h' ++ [w]))%nat) as [Hi | Hi].
      * rewrite lookup_app_l in Hn, Ho by lia. rewrite lookup_app_l; [by apply Hd |].
        rewrite length_app in Hi. cbn [length] in Hi. lia.
      * pose proof (lookup_lt_Some _ _ _ Hn) as Hb. rewrite !length_app in Hi. rewrite !length_app in Hb. cbn [length] in Hi, Hb.
        assert (i = length h') as -> by lia.
        rewrite <- app_assoc in Ho. cbn [app] in Ho. rewrite list_lookup_middle in Ho by done.
        injection Ho as <-.
        replace (S (length h')) with (length (h' ++ [w])) in Hn by (rewrite length_app; cbn; lia).
        rewrite list_lookup_middle in Hn by done. injection Hn as <-.
        replace (length h') with (length (dr_delta r)) by lia. by apply list_lookup_middle.
  - apply last_None in Hw as ->. cbn [length] in Hl. destruct (dr_delta r) eqn:E; [| done].
    split_and!.
    + cbn [push_version dr_tuple]. rewrite Ht. apply (window_app []).
    + cbn [push_version dr_delta]. by rewrite E.
    + cbn [push_version dr_delta]. intros i older newer _ Hn. by destruct i.
Qed.

Lemma write_rows_rep deep vs r h :
  row_rep deep r h -> exists r', write_rows deep vs r = (Ok tt, r') /\ row_rep deep r' (h ++ vs).
Proof.
  revert r h. induction vs as [| v vs IH]; intros r h Hr.
  { exists r. by rewrite app_nil_r. }
  destruct (write_row_rep deep v r h Hr) as (r1 & E1 & H1).
  destruct (IH r1 (h ++ [v]) H1) as (r2 & E2 & H2). exists r2.
  rewrite <- app_assoc in H2. split; [| done]. cbn [write_rows]. st_step by exact E1. exact E2.
Qed.

Lemma apply_link_ok deep v newer older :
  agrees deep v newer -> version_ok newer -> version_ok older ->
  exists v', apply_version_delta v (link deep newer older) = Ok v' /\ agrees deep v' older.
Proof.
  intros (Hts & Hdel & Heq) [Hn _] [Ho Hod]. destruct deep; cbn [link].
  - rewrite (Heq eq_refl). unfold apply_version_delta, build_version_delta.
    cbn [vd_update vd_deleted vd_timestamp apply_deltas].
    pose proof (zlen_nonneg (vt_buf newer)).
    rewrite as_u32_small by mlia. rewrite apply_to_ok by (unfold delta_ok; cbn [ud_offset ud_size ud_data]; split_and!; mlia).
    cbn [ud_offset ud_size ud_data]. cbn [mbind res_bind].
    rewrite drop_ge by (unfold zlen; lia). rewrite app_nil_r. cbn [Z.to_nat take app].
    eexists. split; [reflexivity |]. destruct older as [ts b del]. cbn in *.
    destruct del; [| done]. rewrite Hod by done. done.
  - unfold apply_version_delta. cbn [vd_update vd_deleted vd_timestamp apply_deltas].
    rewrite apply_to_ok by (pose proof (zlen_nonneg (vt_buf v)); unfold delta_ok; cbn [ud_offset ud_size ud_data]; change (zlen (@nil byte)) with 0; split_and!; mlia).
    cbn [mbind res_bind]. eexists. split; [reflexivity |].
    destruct (vt_deleted older) eqn:E; by split_and!.
Qed.

Lemma find_last_app {A} (p : A -> bool) l x :
  find_last p (l ++ [x]) = if p x then Some x else find_last p l.
Proof. induction l as [| y l IH]; cbn; [by destruct (p x) |]. rewrite IH. by destruct (p x). Qed.

(** A version [v] that was read, and the version [w] of the history: a payload
    is called authoritative only when it is the one of the history. *)
Definition outcome (deep : bool) (w : option VersionTuple) (res : option (VersionTuple * bool)) : Prop :=
  match w, res with
  | None, None => True
  | Some w, Some (v, own) => agrees deep v w /\ (own = true -> v = w /\ vt_buf v <> [])
  | _, _ => False
  end.

Lemma delta_walk_ok deep snap r h n v w :
  row_rep deep r h -> Forall version_ok h -> h !! n = Some w -> agrees deep v w ->
  exists res, delta_walk snap (dr_delta r) n v = Ok res /\
    outcome deep (find_last (fun v => is_tuple_visible snap (vt_timestamp v)) (take n h)) res.
Proof.
  intros (_ & _ & Hd) Hok. revert v w. induction n as [| n IH]; intros v w Hw Hv.
  { by exists None. }
  assert (exists o, h !! n = Some o) as [o Ho]
    by (apply lookup_lt_is_Some; pose proof (lookup_lt_Some _ _ _ Hw); lia).
  cbn [delta_walk]. rewrite (Hd _ _ _ Ho Hw).
  rewrite Forall_lookup in Hok.
  destruct (apply_link_ok deep v w o Hv (Hok _ _ Hw) (Hok _ _ Ho)) as (v' & E & Ha).
  rewrite E. cbn [mbind res_bind]. rewrite (take_S_r _ _ _ Ho), find_last_app.
  destruct Ha as (Hts & ?). rewrite Hts.
  destruct (is_tuple_visible snap (vt_timestamp o)); [| by apply (IH v' o)].
  eexists. split; [reflexivity |]. by split.
Qed.

Lemma find_last_split {A} (p : A -> bool) n l :
  find_last p l = match find_last p (drop n l) with Some y => Some y | None => find_last p (take n l) end.
Proof.
  revert l. induction n as [| n IH]; intros [| x l]; cbn; [done | by repeat case_match | done |].
  rewrite IH. by repeat case_match.
Qed.

(** The visible version that [read_version_detailed] gives. *)
Lemma read_detailed_ok deep snap r h :
  row_rep deep r h -> Forall version_ok h ->
  exists res, read_version_detailed snap r = Ok res /\
    outcome deep (find_last (fun v => is_tuple_visible snap (vt_timestamp v)) h) res.
Proof.
  intros Hr Hok. pose proof Hr as (Ht & Hl & Hd). unfold read_version_detailed.
  rewrite (find_last_split _ (length h - 4) h), Ht.
  destruct (find_last _ (drop _ h)) as [v |].
  { eexists. split; [reflexivity |]. split; [apply agrees_refl |]. by intros ?%negb_true_iff%bool_decide_eq_false. }
  destruct (head (drop (length h - 4) h)) as [v |] eqn:Hv.
  - rewrite head_lookup, lookup_drop, Nat.add_0_r in Hv.
    assert ((length (dr_delta r) + 1 - length (drop (length h - 4) h))%nat = (length h - 4)%nat) as ->.
    { rewrite length_drop, Hl. pose proof (lookup_lt_Some _ _ _ Hv). lia. }
    by apply (delta_walk_ok deep snap r h _ v v).
  - rewrite head_None in Hv. apply (f_equal length) in Hv. rewrite length_drop in Hv.
    destruct h; [| cbn in Hv; lia]. by exists None.
Qed.

(** C25: A row answers reads from its whole history.  Whatever the number of
    versions written, and although only the newest four stay in memory in
    full, a read finds the newest version that the snapshot sees: with its
    time stamp and its deletion mark always, with its own payload when the
    versions were written in full, and, for metadata-only writes, with its
    own payload whenever the payload is reported to be authoritative.  The
    newest version is the last one written. *)
Theorem row_reads_history deep tid vs snap :
  Forall version_ok vs ->
  exists r res,
    write_rows deep vs (DataRow_new tid) = (Ok tt, r) /\
    row_read_latest r = last vs /\
    read_version_detailed snap r = Ok res /\
    outcome deep (find_last (fun v => is_tuple_visible snap (vt_timestamp v)) vs) res /\
    (deep = true ->
     read_version snap r = Ok (find_last (fun v => is_tuple_visible snap (vt_timestamp v)) vs)).
Proof.
  intros Hok. destruct (write_rows_rep deep vs (DataRow_new tid) []) as (r & E & Hr); [by split_and! |].
  cbn [app] in Hr. destruct (read_detailed_ok deep snap r vs Hr Hok) as (res & Eres & Ho).
  exists r, res. split_and!; [done | | done | done |].
  - destruct Hr as (Ht & _). unfold row_read_latest. rewrite Ht. apply last_drop_window.
  - intros ->. unfold read_version. rewrite Eres. cbn [mbind res_bind]. f_equal.
    destruct (find_last _ vs) as [w |], res as [[v own] |]; try done. cbn.
    destruct Ho as [(_ & _ & Heq) _]. by rewrite Heq.
Qed.

(** Six versions, the first two of which have left the window. *)
Definition demo_versions : list VersionTuple :=
  (fun x => VersionTuple_new (mkTimestamp x.1 U64_MAX) [x.2]) <$>
    [(1, x01); (2, x02); (3, x03); (4, x04); (5, x05); (6, x06)].

(** The snapshot of transaction 2, when none is running. *)
Definition demo_snapshot : Snapshot := mkSnapshot 2 2 2 [].

Lemma row_reads_history_witness :
  exists r res,
    write_rows true demo_versions (DataRow_new 1) = (Ok tt, r) /\
    row_read_latest r = last demo_versions /\
    read_version_detailed demo_snapshot r = Ok res /\
    outcome true (find_last (fun v => is_tuple_visible demo_snapshot
      (vt_timestamp v)) demo_versions) res /\
    (true = true -> read_version demo_snapshot r =
      Ok (find_last (fun v => is_tuple_visible demo_snapshot
        (vt_timestamp v)) demo_versions)).
Proof.
  apply row_reads_history. unfold demo_versions. cbn [fmap list_fmap].
  repeat (apply Forall_cons; split; [split; [vm_compute; congruence | done] |]). apply Forall_nil. done.
Defined.

(** The test [reads_compressed_old_versions_via_delta_chain]. *)
Example demo_reads_compressed :
  Snapshot_from (mkRunningXList 2 []) = Ok demo_snapshot /\
  read_version demo_snapshot
    (snd (write_rows true demo_versions (DataRow_new 1))) =
  Ok (Some (VersionTuple_new (mkTimestamp 2 U64_MAX) [x02])).
Proof. by vm_compute. Qed.

(** ** Deferred updates *)

(** The updates of a row, in the order in which they take its lock. *)
Fixpoint apply_updates (us : list (Timestamp * (list byte -> Res ErrorCode (list byte))))
    : ST ErrorCode DataRowInner unit :=
  match us with
  | [] => mret tt
  | (ts, f) :: us => apply_update_to_latest ts f ;; apply_updates us
  end.

(** The payload they compute, from the one before. *)
Fixpoint updates_payload (us : list (Timestamp * (list byte -> Res ErrorCode (list byte))))
    (buf : list byte) : Res ErrorCode (list byte) :=
  match us with
  | [] => Ok buf
  | (_, f) :: us => buf ← f buf; updates_payload us buf
  end.

(** Deferred updates of a row never overwrite each other: each computes
    from the payload that the one before it left, so that the row ends with
    the composition of all of them, every intermediate version is appended to
    the history, and the first error stops the sequence with the versions
    before it. *)
Theorem deferred_updates_compose r h v us :
  row_rep false r h -> last h = Some v ->
  exists r' vs,
    apply_updates us r = (match updates_payload us (vt_buf v) with
                          | Ok _ => Ok tt | Err e => Err e | Panic => Panic end, r') /\
    row_rep false r' (h ++ vs) /\ (length vs <= length us)%nat /\
    (forall buf, updates_payload us (vt_buf v) = Ok buf ->
       length vs = length us /\ option_map vt_buf (row_read_latest r') = Some buf).
Proof.
  revert r h v. induction us as [| [ts f] us IH]; intros r h v Hr Hv; cbn [apply_updates updates_payload].
  { exists r, []. rewrite app_nil_r. split_and!; [done.. |]. intros buf [= <-].
    split; [done |]. destruct Hr as (Ht & _). unfold row_read_latest. by rewrite Ht, last_drop_window, Hv. }
  assert (row_read_latest r = Some v) as Hl
    by (destruct Hr as (Ht & _); unfold row_read_latest; by rewrite Ht, last_drop_window).
  assert (apply_update_to_latest ts f r =
    (c ← st_lift (f (vt_buf v)); write_version_shallow (VersionTuple_new ts c) ;; mret c) r) as E1.
  { unfold apply_update_to_latest. st_step by reflexivity. by rewrite Hl. }
  destruct (f (vt_buf v)) as [c | e |] eqn:Hf.
  - destruct (write_row_rep false (VersionTuple_new ts c) r h Hr) as (r1 & E2 & Hr1).
    destruct (IH r1 _ (VersionTuple_new ts c) Hr1) as (r' & vs & E & Hrep & Hlen & Hok);
      [apply last_snoc |].
    exists r', (VersionTuple_new ts c :: vs). rewrite <- app_assoc in Hrep. cbn [app length] in *.
    split_and!; [| done | lia |].
    + cbn [write_row] in E2. st_step by (rewrite E1; st_step by reflexivity; st_step by exact E2; reflexivity).
      exact E.
    + intros buf Hb. destruct (Hok buf Hb). split; [lia | done].
  - exists r, []. rewrite app_nil_r. split_and!; [| done | cbn; lia | done]. unfold mbind, st_bind.
    by rewrite E1.
  - exists r, []. rewrite app_nil_r. split_and!; [| done | cbn; lia | done]. unfold mbind, st_bind.
    by rewrite E1.
Qed.
