(* ===== verification/Histories.v ===== *)
(** * Histories of writes

    The committed writes of a store in the order in which they were applied,
    and the versions of a row that they amount to. *)

From S2P Require Import Prelude Errors Snapshots Versions.

Definition new_value_version (xid : Z) (value : list byte) : VersionTuple :=
  VersionTuple_new (mkTimestamp xid U64_MAX) value.

(** The version that a staged row becomes. *)
Definition row_version (xid : Z) (value : option (list byte)) : VersionTuple :=
  match value with
  | Some value => new_value_version xid value
  | None => new_delete (mkTimestamp xid U64_MAX)
  end.

Definition live_value (version : option VersionTuple) : option (list byte) :=
  match version with Some v => if vt_deleted v then None else Some (vt_buf v) | None => None end.

(** A committed write: its key, its value or deletion, and its transaction. *)
Definition RowWrite : Type := list byte * option (list byte) * Z.

(** The versions of a key, oldest first. *)
Definition versions_of (ws : list RowWrite) (key : list byte) : list VersionTuple :=
  (fun w : RowWrite => row_version w.2 w.1.2) <$> filter (fun w : RowWrite => w.1.1 = key) ws.

Lemma versions_of_snoc ws key value xid key' :
  versions_of (ws ++ [(key, value, xid)]) key' =
  versions_of ws key' ++ if decide (key' = key) then [row_version xid value] else [].
Proof.
  unfold versions_of. rewrite filter_app, fmap_app, filter_cons, filter_nil. cbn [fst snd].
  case_decide as E; [subst; by rewrite decide_True |]. by rewrite decide_False by congruence.
Qed.

(** The version that a reader gets out of a history. *)
Definition reader (snapshot : option Snapshot) (h : list VersionTuple) : option VersionTuple :=
  match snapshot with
  | Some s => find_last (fun v => is_tuple_visible s (vt_timestamp v)) h
  | None => last h
  end.

(** A snapshot as it is made for the rows. *)
Definition row_snapshot (snapshot : option WorkerSnapshot) (s : option Snapshot) : Prop :=
  match snapshot, s with
  | Some w, Some s => to_snapshot w = Ok s
  | None, None => True
  | _, _ => False
  end.

Definition row_write_ok (w : RowWrite) : Prop := match w.1.2 with Some v => zlen v <= U32_MAX | None => True end.

Lemma versions_ok ws key : Forall row_write_ok ws -> Forall version_ok (versions_of ws key).
Proof.
  intros Hok. unfold versions_of. apply Forall_fmap, Forall_forall. intros [[k v] x] [_ Hin]%list_elem_of_filter.
  rewrite Forall_forall in Hok. specialize (Hok _ Hin). unfold row_write_ok in Hok. cbn in *.
  destruct v; split; cbn; [done | done | change (zlen (@nil byte)) with 0; mlia | done].
Qed.

(** The time stamp of a version. *)
Definition stamp (v : VersionTuple) : Z := c_min (vt_timestamp v).

(** The writes of a batch. *)
Definition row_writes (xid : Z) (rows : list (list byte * option (list byte))) : list RowWrite :=
  (fun p => (p.1, p.2, xid)) <$> rows.

(** The transaction is newer than the versions of the rows. *)
Definition newer_rows (ws : list RowWrite) (xid : Z) (rows : list (list byte * option (list byte))) : bool :=
  forallb (fun row => forallb (fun v => stamp v <? xid) (versions_of ws row.1)) rows.

Lemma versions_row_writes xid rows key :
  NoDup rows.*1 ->
  (forall value, (key, value) ∈ rows -> versions_of (row_writes xid rows) key = [row_version xid value]) /\
  (key ∉ rows.*1 -> versions_of (row_writes xid rows) key = []).
Proof.
  unfold versions_of, row_writes. induction rows as [| [key' value'] rows IH]; [by split; [intros ? ?%elem_of_nil |] |].
  cbn [fmap list_fmap]. intros [Hk Hnd]%NoDup_cons. destruct (IH Hnd) as [IH1 IH2]. cbn [fst snd].
  rewrite filter_cons. cbn [fst snd]. split.
  - intros value [[= -> ->] | Hin]%elem_of_cons.
    + rewrite decide_True by done. cbn. f_equal. by apply IH2.
    + rewrite decide_False; [by apply IH1 |]. intros ->. apply Hk. apply list_elem_of_fmap. by exists (key, value).
  - rewrite not_elem_of_cons. intros [Hne Hin]. rewrite decide_False by congruence. by apply IH2.
Qed.
