(* ===== verification/XLocks.v ===== *)
(** * Write locks

    The lock table of a worker ([server/x_lock_mgr.rs]): transactions take
    sets of keys atomically and wait in one FIFO queue per key.  Every
    acquisition attempt, registration, time-out and release is one step under
    the table's mutex; the wakeups that a step collects are delivered after
    the mutex is released, so that other steps can come between.  The theorems
    are about every interleaving of these steps. *)

From S2P Require Import Prelude Errors.

(** ** The lock table *)

(** [PhysicalRelationId] of [x_engine/tx_mgr.rs]. *)
Record PhysicalRelationId : Type := mkPhysicalRelationId {
  table_id : Z;
  partition_id : Z;
}.

#[export] Instance physical_relation_id_eq_dec : EqDecision PhysicalRelationId.
Proof. solve_decision. Defined.

#[export] Program Instance physical_relation_id_countable : Countable PhysicalRelationId :=
  inj_countable' (fun r => (table_id r, partition_id r)) (fun p => mkPhysicalRelationId p.1 p.2) _.
Next Obligation. by intros []. Qed.

Definition LockKey : Type := PhysicalRelationId * list byte.

(** [LockOwner]: the owner and the instant at which it took the key, in
    nanoseconds. *)
Definition LockOwner : Type := Z * Z.

Definition STATEMENT_LOCK_TTL : Z := 30 * 1000000000.

(** A queued [Waiter] is named by its [seq]. *)
Record KeyLockEntry : Type := mkKeyLockEntry {
  kl_owner : option LockOwner;
  kl_queue : list Z;
}.

#[export] Instance key_lock_entry_eq_dec : EqDecision KeyLockEntry.
Proof. solve_decision. Defined.

Definition KeyLockEntry_new : KeyLockEntry := mkKeyLockEntry None [].

Record LockState : Type := mkLockState {
  ls_tables : gmap PhysicalRelationId (gmap (list byte) KeyLockEntry);
  ls_next_waiter_seq : Z;
}.

Definition LockState_new : LockState := mkLockState ∅ 0.

(** [tables.get(relation_id).and_then(|map| map.get(key))]. *)
Definition entry_at (s : LockState) (rk : LockKey) : option KeyLockEntry :=
  map ← ls_tables s !! rk.1; map !! rk.2.

Definition set_tables (t : gmap PhysicalRelationId (gmap (list byte) KeyLockEntry)) (s : LockState) : LockState :=
  mkLockState t (ls_next_waiter_seq s).

(** Writing to the entry of a key, made with its map when there is none. *)
Definition put_entry (rk : LockKey) (e : KeyLockEntry) (s : LockState) : LockState :=
  set_tables (<[rk.1 := <[rk.2 := e]> (default ∅ (ls_tables s !! rk.1))]> (ls_tables s)) s.

(** An entry that is dropped when nobody owns the key or waits for it. *)
Definition keep_entry (e : KeyLockEntry) : option KeyLockEntry :=
  if bool_decide (kl_owner e = None) && bool_decide (kl_queue e = []) then None else Some e.

Definition put_or_remove (rk : LockKey) (e : KeyLockEntry) (s : LockState) : LockState :=
  match ls_tables s !! rk.1 with
  | None => s
  | Some map =>
      set_tables (<[rk.1 := partial_alter (fun _ => keep_entry e) rk.2 map]> (ls_tables s)) s
  end.

(** [if remove_relation { tables.remove(relation_id) }]. *)
Definition drop_empty (relation_id : PhysicalRelationId) (s : LockState) : LockState :=
  if bool_decide (ls_tables s !! relation_id = Some ∅) then set_tables (delete relation_id (ls_tables s)) s
  else s.

Definition owned_by (oid : Z) (e : KeyLockEntry) : bool :=
  match kl_owner e with Some (o, _) => o =? oid | None => false end.

Definition is_head (seq : Z) (queue : list Z) : bool :=
  match queue with head :: _ => head =? seq | [] => false end.

(** Whether an unowned key may be taken. *)
Definition granted (waiter : option Z) (queue : list Z) : bool :=
  match waiter with
  | Some seq => bool_decide (queue = []) || is_head seq queue
  | None => bool_decide (queue = [])
  end.

(** [retain(|queued| queued.seq != seq)]. *)
Definition leave (seq : Z) (queue : list Z) : list Z :=
  filter (fun q => q <> seq) queue.

(** The check pass of [try_acquire_locked], with the clock at [now]: decides
    whether all keys can be taken, and reclaims those of orphaned owners. *)
Fixpoint check_pass (now oid : Z) (waiter : option Z) (keys : list LockKey) (s : LockState) (wakes : list Z)
    : bool * LockState * list Z :=
  match keys with
  | [] => (true, s, wakes)
  | rk :: keys =>
      match entry_at s rk with
      | None => check_pass now oid waiter keys s wakes
      | Some e =>
          match kl_owner e with
          | Some (owner, acquired_at) =>
              if owner =? oid then check_pass now oid waiter keys s wakes
              else if now - acquired_at <=? STATEMENT_LOCK_TTL then (false, s, wakes)
              else
                let s := put_entry rk (mkKeyLockEntry None (kl_queue e)) s in
                let wakes := wakes ++ option_list (head (kl_queue e)) in
                if granted waiter (kl_queue e) then check_pass now oid waiter keys s wakes
                else (false, s, wakes)
          | None =>
              if granted waiter (kl_queue e) then check_pass now oid waiter keys s wakes
              else (false, s, wakes)
          end
      end
  end.

(** The take pass. *)
Fixpoint take_pass (now oid : Z) (waiter : option Z) (keys : list LockKey) (s : LockState) : LockState :=
  match keys with
  | [] => s
  | rk :: keys =>
      let e := default KeyLockEntry_new (entry_at s rk) in
      let owner := if owned_by oid e then kl_owner e else Some (oid, now) in
      let queue := match waiter with Some seq => leave seq (kl_queue e) | None => kl_queue e end in
      take_pass now oid waiter keys (put_entry rk (mkKeyLockEntry owner queue) s)
  end.

Definition try_acquire_locked (now oid : Z) (keys : list LockKey) (waiter : option Z) (s : LockState)
    : bool * LockState * list Z :=
  match check_pass now oid waiter keys s [] with
  | (true, s, wakes) => (true, take_pass now oid waiter keys s, wakes)
  | (false, s, wakes) => (false, s, wakes)
  end.

Fixpoint enqueue_locked (oid : Z) (keys : list LockKey) (seq : Z) (s : LockState) : LockState :=
  match keys with
  | [] => s
  | rk :: keys =>
      let s :=
        match entry_at s rk with
        | Some e =>
            if owned_by oid e then s
            else if bool_decide (seq ∈ kl_queue e) then s
            else put_entry rk (mkKeyLockEntry (kl_owner e) (kl_queue e ++ [seq])) s
        | None => put_entry rk (mkKeyLockEntry None [seq]) s
        end in
      enqueue_locked oid keys seq s
  end.

(** The body of the loop of [dequeue_locked]. *)
Definition dequeue_key (seq : Z) (rk : LockKey) (s : LockState) : LockState * list Z :=
  match entry_at s rk with
  | None => (drop_empty rk.1 s, [])
  | Some e =>
      let queue := leave seq (kl_queue e) in
      (drop_empty rk.1 (put_or_remove rk (mkKeyLockEntry (kl_owner e) queue) s),
       if is_head seq (kl_queue e) && bool_decide (kl_owner e = None) then option_list (head queue) else [])
  end.

Fixpoint dequeue_locked (keys : list LockKey) (seq : Z) (s : LockState) : LockState * list Z :=
  match keys with
  | [] => (s, [])
  | rk :: keys =>
      let (s, woken) := dequeue_key seq rk s in
      let (s, wakes) := dequeue_locked keys seq s in
      (s, woken ++ wakes)
  end.

(** The owner gives the key back; the head of the queue is to be woken. *)
Definition disown (oid : Z) (e : KeyLockEntry) : KeyLockEntry * list Z :=
  if owned_by oid e then (mkKeyLockEntry None (kl_queue e), option_list (head (kl_queue e))) else (e, []).

(** The body of the loop of [release]. *)
Definition release_key (oid : Z) (rk : LockKey) (s : LockState) : LockState * list Z :=
  match entry_at s rk with
  | None => (drop_empty rk.1 s, [])
  | Some e => (drop_empty rk.1 (put_or_remove rk (disown oid e).1 s), (disown oid e).2)
  end.

Fixpoint release_keys (oid : Z) (keys : list LockKey) (s : LockState) : LockState * list Z :=
  match keys with
  | [] => (s, [])
  | rk :: keys =>
      let (s, woken) := release_key oid rk s in
      let (s, wakes) := release_keys oid keys s in
      (s, woken ++ wakes)
  end.

(** [release_all]: the two nested [retain]; the wakeups come in the order of
    the maps. *)
Definition release_all_locked (oid : Z) (s : LockState) : LockState * list Z :=
  (set_tables (omap (fun map : gmap (list byte) KeyLockEntry =>
     let map := omap (fun e => keep_entry (disown oid e).1) map in
     if bool_decide (map = ∅) then None else Some map) (ls_tables s)) s,
   '(_, map) ← map_to_list (ls_tables s);
   '(_, e) ← map_to_list map;
   (disown oid e).2).

(** ** The lock manager and its waiters *)

(** A call of [lock_some] whose fast path failed.  It is parked once an
    attempt failed, until its latch is signalled or its deadline passes. *)
Record Request : Type := mkRequest {
  rq_oid : Z;
  rq_keys : list LockKey;
  rq_parked : bool;
}.

(** The manager, with the calls that wait: [xm_signals] are the waiters whose
    sticky signal is set, [xm_wakes] the wakeups that were collected under
    the mutex and are not sent yet. *)
Record XLockMgr : Type := mkXLockMgr {
  xm_lock : LockState;
  xm_wake_count : Z;
  xm_waiters : gmap Z Request;
  xm_wakes : list Z;
  xm_signals : gset Z;
}.

Definition XLockMgr_new : XLockMgr := mkXLockMgr LockState_new 0 ∅ [] ∅.

(** The mutex is released with state [s]; [send_wakes] has [wakes] to send. *)
Definition unlock (s : LockState) (wakes : list Z) (m : XLockMgr) : XLockMgr :=
  mkXLockMgr s (xm_wake_count m) (xm_waiters m) (xm_wakes m ++ wakes) (xm_signals m).

Definition set_waiters (ws : gmap Z Request) (m : XLockMgr) : XLockMgr :=
  mkXLockMgr (xm_lock m) (xm_wake_count m) ws (xm_wakes m) (xm_signals m).

Definition set_signals (sg : gset Z) (m : XLockMgr) : XLockMgr :=
  mkXLockMgr (xm_lock m) (xm_wake_count m) (xm_waiters m) (xm_wakes m) sg.

(** [try_lock_some], also the fast path of [lock_some]. *)
Definition try_lock_some (now oid : Z) (keys : list LockKey) : ST ErrorCode XLockMgr bool :=
  fun m =>
    let '(acquired, s, wakes) := try_acquire_locked now oid keys None (xm_lock m) in
    (Ok acquired, unlock s wakes m).

(** [lock_some] makes its waiter. *)
Definition lock_register (oid : Z) (keys : list LockKey) : ST ErrorCode XLockMgr Z :=
  fun m =>
    let seq := ls_next_waiter_seq (xm_lock m) in
    (uadd seq 1;; Ok seq,
     set_waiters (<[seq := mkRequest oid keys false]> (xm_waiters m))
       (unlock (mkLockState (ls_tables (xm_lock m)) ((seq + 1) mod 18446744073709551616)) [] m)).

(** One iteration of the loop of [lock_some], up to the check of the
    deadline: the attempt, and the registration when it failed. *)
Definition lock_attempt (now seq : Z) (rq : Request) : ST ErrorCode XLockMgr bool :=
  fun m =>
    match try_acquire_locked now (rq_oid rq) (rq_keys rq) (Some seq) (xm_lock m) with
    | (true, s, wakes) => (Ok true, set_waiters (delete seq (xm_waiters m)) (unlock s wakes m))
    | (false, s, wakes) =>
        let s := enqueue_locked (rq_oid rq) (rq_keys rq) seq s in
        (Ok false,
         set_waiters (<[seq := mkRequest (rq_oid rq) (rq_keys rq) true]> (xm_waiters m))
           (set_signals (xm_signals m ∖ {[seq]}) (unlock s wakes m)))
    end.

(** The deadline passed: [lock_some] leaves the queues and returns [false]. *)
Definition lock_timeout (seq : Z) (rq : Request) : ST ErrorCode XLockMgr bool :=
  fun m =>
    let (s, wakes) := dequeue_locked (rq_keys rq) seq (xm_lock m) in
    (Ok false, set_waiters (delete seq (xm_waiters m)) (unlock s wakes m)).

Definition release (oid : Z) (keys : list LockKey) : ST ErrorCode XLockMgr unit :=
  fun m => let (s, wakes) := release_keys oid keys (xm_lock m) in (Ok tt, unlock s wakes m).

Definition release_all (oid : Z) : ST ErrorCode XLockMgr unit :=
  fun m => let (s, wakes) := release_all_locked oid (xm_lock m) in (Ok tt, unlock s wakes m).

(** The body of the loop of [send_wakes]. *)
Definition send_wake (seq : Z) : ST ErrorCode XLockMgr unit :=
  st_modify (fun m =>
    mkXLockMgr (xm_lock m) ((xm_wake_count m + 1) mod 18446744073709551616) (xm_waiters m)
      (xm_wakes m) (xm_signals m ∪ {[seq]})).

(** What can happen to the manager. *)
Inductive lock_event : Type :=
| EvTry (now oid : Z) (keys : list LockKey)
| EvRegister (oid : Z) (keys : list LockKey)
| EvAttempt (now seq : Z)
| EvWake (seq : Z)
| EvTimer (seq : Z)
| EvTimeout (seq : Z)
| EvRelease (oid : Z) (keys : list LockKey)
| EvReleaseAll (oid : Z)
| EvSend (seq : Z).

(** A parked call runs again: [timeout(deadline - now, notified())] returns
    when the signal is set, or when the deadline passes ([EvTimer]). *)
Definition unpark (seq : Z) (rq : Request) (m : XLockMgr) : XLockMgr :=
  set_waiters (<[seq := mkRequest (rq_oid rq) (rq_keys rq) false]> (xm_waiters m)) m.

(** One step; [None] when the event cannot happen. *)
Definition lock_step (ev : lock_event) (m : XLockMgr) : option XLockMgr :=
  match ev with
  | EvTry now oid keys => Some (try_lock_some now oid keys m).2
  | EvRegister oid keys =>
      match lock_register oid keys m with (Ok _, m) => Some m | _ => None end
  | EvAttempt now seq =>
      rq ← xm_waiters m !! seq; if rq_parked rq then None else Some (lock_attempt now seq rq m).2
  | EvWake seq =>
      rq ← xm_waiters m !! seq;
      if rq_parked rq && bool_decide (seq ∈ xm_signals m) then Some (unpark seq rq m) else None
  | EvTimer seq => rq ← xm_waiters m !! seq; if rq_parked rq then Some (unpark seq rq m) else None
  | EvTimeout seq =>
      rq ← xm_waiters m !! seq; if rq_parked rq then Some (lock_timeout seq rq m).2 else None
  | EvRelease oid keys => Some (release oid keys m).2
  | EvReleaseAll oid => Some (release_all oid m).2
  | EvSend seq =>
      match list_find (eq seq) (xm_wakes m) with
      | None => None
      | Some (i, _) =>
          let m := mkXLockMgr (xm_lock m) (xm_wake_count m) (xm_waiters m) (delete i (xm_wakes m)) (xm_signals m) in
          Some (send_wake seq m).2
      end
  end.

Fixpoint lock_run (evs : list lock_event) (m : XLockMgr) : option XLockMgr :=
  match evs with
  | [] => Some m
  | ev :: evs => m ← lock_step ev m; lock_run evs m
  end.

(** ** The table seen by key *)

Definition view (s : LockState) (rk : LockKey) : option LockOwner * list Z :=
  match entry_at s rk with Some e => (kl_owner e, kl_queue e) | None => (None, []) end.

Definition owner_at (s : LockState) (rk : LockKey) : option LockOwner := (view s rk).1.
Definition queue_at (s : LockState) (rk : LockKey) : list Z := (view s rk).2.
Definition holder (s : LockState) (rk : LockKey) : option Z := option_map fst (owner_at s rk).

Lemma entry_put_entry rk e s rk' :
  entry_at (put_entry rk e s) rk' = if decide (rk' = rk) then Some e else entry_at s rk'.
Proof.
  destruct rk as [r k], rk' as [r' k']. unfold entry_at, put_entry, set_tables. cbn [fst snd ls_tables].
  destruct (decide (r' = r)) as [-> | Hr].
  - rewrite lookup_insert_eq. cbn [mbind option_bind]. destruct (decide (k' = k)) as [-> | Hk].
    + by rewrite lookup_insert_eq, decide_True.
    + rewrite lookup_insert_ne, decide_False by congruence. destruct (ls_tables s !! r); [done |].
      cbn. by rewrite lookup_empty.
  - by rewrite lookup_insert_ne, decide_False by congruence.
Qed.

Lemma view_put_entry rk e s rk' :
  view (put_entry rk e s) rk' = if decide (rk' = rk) then (kl_owner e, kl_queue e) else view s rk'.
Proof. unfold view. rewrite entry_put_entry. by case_decide. Qed.

Lemma view_keep_entry e :
  match keep_entry e with Some e => (kl_owner e, kl_queue e) | None => (None, []) end = (kl_owner e, kl_queue e).
Proof.
  unfold keep_entry. destruct (bool_decide_reflect (kl_owner e = None)) as [E |], (bool_decide_reflect (kl_queue e = [])) as [E' |];
    try done. by rewrite E, E'.
Qed.

Lemma view_put_or_remove rk e0 e s rk' :
  entry_at s rk = Some e0 ->
  view (put_or_remove rk e s) rk' = if decide (rk' = rk) then (kl_owner e, kl_queue e) else view s rk'.
Proof.
  destruct rk as [r k], rk' as [r' k']. unfold view, entry_at, put_or_remove, set_tables. cbn [fst snd].
  destruct (ls_tables s !! r) as [map |] eqn:Hm; [| done]. intros _. cbn [ls_tables].
  destruct (decide (r' = r)) as [-> | Hr].
  - rewrite lookup_insert_eq, Hm. cbn [mbind option_bind]. destruct (decide (k' = k)) as [-> | Hk].
    + rewrite lookup_partial_alter_eq, decide_True by done. apply view_keep_entry.
    + by rewrite lookup_partial_alter_ne, decide_False by congruence.
  - by rewrite lookup_insert_ne, decide_False by congruence.
Qed.

Lemma view_drop_empty r s rk : view (drop_empty r s) rk = view s rk.
Proof.
  unfold drop_empty. case_bool_decide as Hr; [| done]. unfold view, entry_at, set_tables. cbn [ls_tables].
  destruct (decide (rk.1 = r)) as [-> | Hne]; [| by rewrite lookup_delete_ne by done].
  rewrite lookup_delete_eq, Hr. cbn [mbind option_bind]. by rewrite lookup_empty.
Qed.

Lemma view_None s rk : entry_at s rk = None -> view s rk = (None, []).
Proof. unfold view. by intros ->. Qed.

Lemma view_Some s rk e : entry_at s rk = Some e -> view s rk = (kl_owner e, kl_queue e).
Proof. unfold view. by intros ->. Qed.

Lemma elem_of_leave seq q x : x ∈ leave seq q <-> x ∈ q /\ x <> seq.
Proof. unfold leave. rewrite list_elem_of_filter. tauto. Qed.

Lemma leave_notin seq q : seq ∉ q -> leave seq q = q.
Proof.
  induction q as [| x q IH]; [done |]. intros Hq. unfold leave in *. rewrite filter_cons, decide_True by set_solver.
  f_equal. apply IH. set_solver.
Qed.

Lemma leave_twice seq q : leave seq (leave seq q) = leave seq q.
Proof. apply leave_notin. rewrite elem_of_leave. tauto. Qed.

Lemma head_leave seq q x : is_head seq q = false -> head q = Some x -> head (leave seq q) = Some x.
Proof.
  destruct q as [| y q]; [done |]. cbn [is_head head]. intros H [= ->].
  unfold leave. rewrite filter_cons, decide_True by lia. done.
Qed.

Lemma is_head_spec seq q : is_head seq q = true <-> head q = Some seq.
Proof. destruct q as [| y q]; cbn; [done |]. rewrite Z.eqb_eq. split; congruence. Qed.

(** ** Acquisition *)

(** A key that an attempt can take. *)
Definition obtainable (oid : Z) (waiter : option Z) (s : LockState) (rk : LockKey) : Prop :=
  holder s rk = Some oid \/ owner_at s rk = None /\ granted waiter (queue_at s rk) = true.

(** From [s] to [s'] some owners past the time-to-live lost keys of [ks], and
    the heads of the queues of these keys are in [wakes]. *)
Definition reclaimed (now oid : Z) (ks : list LockKey) (s s' : LockState) (wakes : list Z) : Prop :=
  ls_next_waiter_seq s' = ls_next_waiter_seq s /\
  forall rk, queue_at s' rk = queue_at s rk /\
    (owner_at s' rk = owner_at s rk \/
     exists o at_, owner_at s rk = Some (o, at_) /\ o <> oid /\ STATEMENT_LOCK_TTL < now - at_ /\
       owner_at s' rk = None /\ rk ∈ ks /\ forall w, head (queue_at s rk) = Some w -> w ∈ wakes).

Lemma reclaimed_refl now oid ks s wakes : reclaimed now oid ks s s wakes.
Proof. split; [done |]. intros rk. split; [done | by left]. Qed.

Lemma reclaimed_trans now oid ks ks' s1 s2 s3 w1 w2 :
  reclaimed now oid ks s1 s2 w1 -> reclaimed now oid ks' s2 s3 w2 -> ks' ⊆ ks -> w1 ⊆ w2 ->
  reclaimed now oid ks s1 s3 w2.
Proof.
  intros [N1 H1] [N2 H2] Hk Hw. split; [congruence |]. intros rk.
  destruct (H1 rk) as [Q1 O1], (H2 rk) as [Q2 O2]. rewrite Q2, Q1. split; [done |].
  destruct O1 as [O1 | (o & a & E & Ho & Ht & E' & ? & Hh)]; destruct O2 as [O2 | (o2 & a2 & F & Ho2 & Ht2 & F' & ? & Hh2)].
  - left. congruence.
  - right. exists o2, a2. rewrite <- O1, <- Q1. split_and!; [done.. | by apply Hk | done].
  - right. exists o, a. rewrite O2. split_and!; [done.. |]. intros w Hq. apply Hw. by apply Hh.
  - congruence.
Qed.

Lemma obtainable_reclaimed now oid ks w s s' wakes rk :
  reclaimed now oid ks s s' wakes -> obtainable oid w s rk -> obtainable oid w s' rk.
Proof.
  intros [_ H]. destruct (H rk) as [Q O]. unfold obtainable, holder. rewrite Q.
  intros [Hh | [Hn Hg]].
  - left. destruct O as [-> | (o & a & E & Ho & _)]; [done |]. rewrite E in Hh. cbn in Hh. congruence.
  - right. split; [| done]. destruct O as [-> | (o & a & E & _)]; [done | congruence].
Qed.

Lemma reclaim_put now oid ks s rk e o at_ wakes :
  rk ∈ ks -> entry_at s rk = Some e -> kl_owner e = Some (o, at_) -> o <> oid -> STATEMENT_LOCK_TTL < now - at_ ->
  let s' := put_entry rk (mkKeyLockEntry None (kl_queue e)) s in
  reclaimed now oid ks s s' (wakes ++ option_list (head (kl_queue e))) /\
  owner_at s' rk = None /\ queue_at s' rk = kl_queue e.
Proof.
  intros Hk He Ho Hne Ht s'. unfold s', reclaimed, owner_at, queue_at.
  rewrite view_put_entry, decide_True by done. split; [| done]. split; [done |]. intros rk'.
  rewrite view_put_entry. case_decide as Hrk; [subst rk' | split; [done | by left]].
  rewrite (view_Some _ _ _ He). cbn [fst snd kl_owner kl_queue]. split; [done |].
  right. exists o, at_. split_and!; [done.. |]. intros w ->. apply elem_of_app. right. cbn. set_solver.
Qed.

(** What stops a failed attempt. *)
Definition obstacle (now oid : Z) (waiter : option Z) (s : LockState) (rk : LockKey) : Prop :=
  (exists o at_, owner_at s rk = Some (o, at_) /\ o <> oid /\ now - at_ <= STATEMENT_LOCK_TTL) \/
  owner_at s rk = None /\ granted waiter (queue_at s rk) = false.

Lemma check_pass_spec now oid w keys s wakes b s' wakes' :
  check_pass now oid w keys s wakes = (b, s', wakes') ->
  reclaimed now oid keys s s' wakes' /\ wakes ⊆ wakes' /\
  if b then Forall (obtainable oid w s') keys else Exists (obstacle now oid w s') keys.
Proof.
  revert s wakes. induction keys as [| rk keys IH]; intros s wakes; cbn [check_pass].
  { intros [= <- <- <-]. split_and!; [apply reclaimed_refl | done | constructor]. }
  assert (forall s1 wakes1, reclaimed now oid (rk :: keys) s s1 wakes1 -> wakes ⊆ wakes1 -> obtainable oid w s1 rk ->
    check_pass now oid w keys s1 wakes1 = (b, s', wakes') ->
    reclaimed now oid (rk :: keys) s s' wakes' /\ wakes ⊆ wakes' /\
    if b then Forall (obtainable oid w s') (rk :: keys) else Exists (obstacle now oid w s') (rk :: keys)) as Hnext.
  { intros s1 wakes1 Hr Hw Ho E. destruct (IH _ _ E) as (Hr' & Hw' & Hb). split_and!.
    - eapply reclaimed_trans; [done | done | set_solver | done].
    - set_solver.
    - destruct b; [| by right]. constructor; [by eapply obtainable_reclaimed | done]. }
  destruct (entry_at s rk) as [e |] eqn:He.
  2: { apply Hnext; [apply reclaimed_refl | done |]. right. unfold owner_at, queue_at. rewrite view_None by done. cbn. by destruct w. }
  pose proof (view_Some _ _ _ He) as Hv.
  destruct (kl_owner e) as [[o at_] |] eqn:Ho.
  - destruct (Z.eqb_spec o oid) as [-> | Hne].
    { apply Hnext; [apply reclaimed_refl | done |]. left. unfold holder, owner_at. by rewrite Hv. }
    destruct (Z.leb_spec (now - at_) STATEMENT_LOCK_TTL) as [Ht | Ht].
    { intros [= <- <- <-]. split_and!; [apply reclaimed_refl | done |]. left. left. exists o, at_.
      unfold owner_at. by rewrite Hv. }
    destruct (reclaim_put now oid (rk :: keys) s rk e o at_ wakes ltac:(set_solver) He Ho Hne Ht) as (Hr & Hn & Hq).
    destruct (granted w (kl_queue e)) eqn:Hg.
    + apply Hnext; [done | set_solver |]. right. by rewrite Hn, Hq.
    + intros [= <- <- <-]. split_and!; [done | set_solver |]. left. right. by rewrite Hn, Hq.
  - destruct (granted w (kl_queue e)) eqn:Hg.
    + apply Hnext; [apply reclaimed_refl | done |]. right. unfold owner_at, queue_at. by rewrite Hv.
    + intros [= <- <- <-]. split_and!; [apply reclaimed_refl | done |]. left. right. unfold owner_at, queue_at. by rewrite Hv.
Qed.

(** The owner of a key that [oid] takes. *)
Definition taken (now oid : Z) (owner : option LockOwner) : option LockOwner :=
  match owner with Some (o, a) => if o =? oid then Some (o, a) else Some (oid, now) | None => Some (oid, now) end.

Definition left_queue (waiter : option Z) (q : list Z) : list Z :=
  match waiter with Some seq => leave seq q | None => q end.

Lemma taken_twice now oid o : taken now oid (taken now oid o) = taken now oid o.
Proof. destruct o as [[o a] |]; cbn; [destruct (Z.eqb_spec o oid) |]; cbn; by rewrite ?Z.eqb_refl, ?(proj2 (Z.eqb_eq _ _)). Qed.

Lemma left_queue_twice w q : left_queue w (left_queue w q) = left_queue w q.
Proof. destruct w; [apply leave_twice | done]. Qed.

Lemma view_take_pass now oid w keys s rk :
  view (take_pass now oid w keys s) rk =
  if decide (rk ∈ keys) then (taken now oid (owner_at s rk), left_queue w (queue_at s rk)) else view s rk.
Proof.
  revert s. induction keys as [| k keys IH]; intros s; cbn [take_pass].
  { by rewrite decide_False by set_solver. }
  rewrite IH. unfold owner_at, queue_at. rewrite !view_put_entry. cbn [kl_owner kl_queue].
  assert ((if owned_by oid (default KeyLockEntry_new (entry_at s k)) then kl_owner (default KeyLockEntry_new (entry_at s k))
           else Some (oid, now)) = taken now oid (view s k).1) as ->.
  { unfold view. destruct (entry_at s k) as [e |]; cbn; [| done]. unfold owned_by, taken.
    destruct (kl_owner e) as [[o a] |]; [by destruct (o =? oid) | done]. }
  assert (match w with Some seq => leave seq (kl_queue (default KeyLockEntry_new (entry_at s k)))
          | None => kl_queue (default KeyLockEntry_new (entry_at s k)) end = left_queue w (view s k).2) as ->.
  { unfold view. by destruct (entry_at s k). }
  destruct (decide (rk = k)) as [-> | Hne].
  - rewrite (decide_True (P := k ∈ k :: keys)) by set_solver. cbn [fst snd].
    rewrite taken_twice, left_queue_twice. by case_decide.
  - destruct (decide (rk ∈ keys)).
    + by rewrite decide_True by set_solver.
    + by rewrite decide_False by set_solver.
Qed.

Lemma take_pass_seq now oid w keys s : ls_next_waiter_seq (take_pass now oid w keys s) = ls_next_waiter_seq s.
Proof. revert s. induction keys as [| k keys IH]; intros s; cbn [take_pass]; [done |]. by rewrite IH. Qed.

Lemma view_enqueue oid seq keys s rk :
  view (enqueue_locked oid keys seq s) rk =
  (owner_at s rk,
   if decide (rk ∈ keys /\ holder s rk <> Some oid /\ seq ∉ queue_at s rk) then queue_at s rk ++ [seq]
   else queue_at s rk).
Proof.
  revert s. induction keys as [| k keys IH]; intros s; cbn [enqueue_locked].
  { rewrite decide_False by set_solver. apply surjective_pairing. }
  match goal with |- context [enqueue_locked oid keys seq ?x] => set (s1 := x) end.
  assert (forall rk, view s1 rk = (owner_at s rk,
    if decide (rk = k /\ holder s k <> Some oid /\ seq ∉ queue_at s k) then queue_at s k ++ [seq] else queue_at s rk)) as H1.
  { intros rk'. unfold s1. destruct (entry_at s k) as [e |] eqn:He.
    - pose proof (view_Some _ _ _ He) as Hv. unfold holder, owner_at, queue_at, owned_by. rewrite Hv. cbn [fst snd].
      destruct (kl_owner e) as [[o a] |] eqn:Ho; cbn [option_map fst].
      + destruct (Z.eqb_spec o oid) as [-> | Hne].
        { rewrite decide_False by (by intros (_ & ? & ?)). apply surjective_pairing. }
        case_bool_decide as Hin.
        { rewrite decide_False by (by intros (_ & ? & ?)). apply surjective_pairing. }
        rewrite view_put_entry. destruct (decide (rk' = k)) as [-> | Hk]; [| rewrite decide_False by (by intros [? _]); apply surjective_pairing].
        rewrite decide_True by (split_and!; [done | congruence | done]). by rewrite Hv.
      + case_bool_decide as Hin.
        { rewrite decide_False by (by intros (_ & ? & ?)). apply surjective_pairing. }
        rewrite view_put_entry. destruct (decide (rk' = k)) as [-> | Hk]; [| rewrite decide_False by (by intros [? _]); apply surjective_pairing].
        rewrite decide_True by done. by rewrite Hv.
    - pose proof (view_None _ _ He) as Hv. rewrite view_put_entry. unfold holder, owner_at, queue_at. rewrite Hv.
      destruct (decide (rk' = k)) as [-> | Hk]; [| rewrite decide_False by (by intros [? _]); apply surjective_pairing].
      rewrite decide_True by (split_and!; [done | done | set_solver]). by rewrite Hv. }
  rewrite IH. assert (owner_at s1 rk = owner_at s rk) as Ho by (unfold owner_at at 1; by rewrite H1).
  assert (holder s1 rk = holder s rk) as Hho by (unfold holder; by rewrite Ho).
  assert (queue_at s1 rk = if decide (rk = k /\ holder s k <> Some oid /\ seq ∉ queue_at s k)
    then queue_at s k ++ [seq] else queue_at s rk) as Hq1 by (unfold queue_at at 1; by rewrite H1).
  rewrite Ho, Hho, Hq1. f_equal. clear Hq1 Hho Ho.
  destruct (decide (rk = k /\ holder s k <> Some oid /\ seq ∉ queue_at s k)) as [(-> & Hh & Hq) | Hn].
  - rewrite decide_False by set_solver. by rewrite decide_True by set_solver.
  - destruct (decide (rk ∈ keys /\ holder s rk <> Some oid /\ seq ∉ queue_at s rk)) as [(Hk & Hh & Hq) | Hn'].
    + by rewrite decide_True by set_solver.
    + rewrite decide_False; [done |]. intros (Hk & Hh & Hq). apply elem_of_cons in Hk as [-> | Hk]; tauto.
Qed.

Lemma enqueue_seq oid seq keys s : ls_next_waiter_seq (enqueue_locked oid keys seq s) = ls_next_waiter_seq s.
Proof.
  revert s. induction keys as [| k keys IH]; intros s; cbn [enqueue_locked]; [done |]. rewrite IH. by repeat case_match.
Qed.

(** A queue shrank by the departure of [seq]; where that was the head of the
    queue of an unowned key, the next one is in [wakes]. *)
Lemma dequeue_spec seq keys s s' wakes :
  dequeue_locked keys seq s = (s', wakes) ->
  ls_next_waiter_seq s' = ls_next_waiter_seq s /\
  forall rk, view s' rk = (owner_at s rk, if decide (rk ∈ keys) then leave seq (queue_at s rk) else queue_at s rk) /\
    (rk ∈ keys -> head (queue_at s rk) = Some seq -> owner_at s rk = None ->
     forall w, head (leave seq (queue_at s rk)) = Some w -> w ∈ wakes).
Proof.
  revert s wakes. induction keys as [| k keys IH]; intros s wakes; cbn [dequeue_locked].
  { intros [= <- <-]. split; [done |]. intros rk. rewrite decide_False by set_solver.
    split; [apply surjective_pairing | set_solver]. }
  destruct (dequeue_key seq k s) as [s1 woken] eqn:E1. destruct (dequeue_locked keys seq s1) as [s2 ws] eqn:E2.
  intros [= <- <-]. destruct (IH _ _ E2) as [Hn H].
  assert (ls_next_waiter_seq s1 = ls_next_waiter_seq s /\
    (forall rk, view s1 rk = (owner_at s rk, if decide (rk = k) then leave seq (queue_at s rk) else queue_at s rk)) /\
    (head (queue_at s k) = Some seq -> owner_at s k = None ->
     forall w, head (leave seq (queue_at s k)) = Some w -> w ∈ woken)) as (Hn1 & H1 & Hw).
  { revert E1. unfold dequeue_key. destruct (entry_at s k) as [e |] eqn:He; intros [= <- <-].
    - pose proof (view_Some _ _ _ He) as Hv. split_and!.
      + unfold drop_empty, put_or_remove, set_tables. by repeat case_match.
      + intros rk. rewrite view_drop_empty, (view_put_or_remove _ _ _ _ _ He).
        unfold owner_at, queue_at. case_decide; [subst; by rewrite Hv | apply surjective_pairing].
      + unfold owner_at, queue_at. rewrite Hv. cbn [fst snd]. intros Hh Ho w Hw. apply is_head_spec in Hh.
        rewrite Hh, bool_decide_true by done. cbn [andb]. rewrite Hw. cbn. set_solver.
    - pose proof (view_None _ _ He) as Hv. split_and!.
      + unfold drop_empty, set_tables. by case_match.
      + intros rk. rewrite view_drop_empty. unfold owner_at, queue_at.
        case_decide; [subst; by rewrite Hv | apply surjective_pairing].
      + unfold queue_at. by rewrite Hv. }
  split; [congruence |]. intros rk. destruct (H rk) as [Hv Hh]. unfold owner_at, queue_at in Hv, Hh.
  rewrite H1 in Hv, Hh. cbn [fst snd] in Hv, Hh. split.
  - rewrite Hv. f_equal. destruct (decide (rk = k)) as [-> | Hne].
    + rewrite (decide_True (P := k ∈ k :: keys)) by set_solver. case_decide; [apply leave_twice | done].
    + destruct (decide (rk ∈ keys)).
      * by rewrite decide_True by set_solver.
      * by rewrite decide_False by set_solver.
  - intros Hk Hq Ho w Hw'. apply elem_of_app. destruct (decide (rk = k)) as [-> | Hne]; [left; by apply Hw |].
    right. apply Hh; [set_solver | done..].
Qed.

(** Keys given back: those of [given] that [oid] owned have no owner any
    more, and the heads of their queues are in [wakes]. *)
Definition given_back (oid : Z) (given : LockKey -> Prop) (s s' : LockState) (wakes : list Z) : Prop :=
  ls_next_waiter_seq s' = ls_next_waiter_seq s /\
  forall rk, queue_at s' rk = queue_at s rk /\
    (given rk -> holder s rk = Some oid ->
     owner_at s' rk = None /\ forall w, head (queue_at s rk) = Some w -> w ∈ wakes) /\
    (~ (given rk /\ holder s rk = Some oid) -> owner_at s' rk = owner_at s rk).

Lemma owned_by_holder oid s rk e : entry_at s rk = Some e -> owned_by oid e = true <-> holder s rk = Some oid.
Proof.
  intros He. unfold holder, owner_at, owned_by. rewrite (view_Some _ _ _ He). cbn [fst].
  destruct (kl_owner e) as [[o a] |]; cbn; [rewrite Z.eqb_eq; split; congruence | done].
Qed.

Lemma disown_spec oid s rk e :
  entry_at s rk = Some e ->
  kl_queue (disown oid e).1 = queue_at s rk /\
  (holder s rk = Some oid -> kl_owner (disown oid e).1 = None /\
     forall w, head (queue_at s rk) = Some w -> w ∈ (disown oid e).2) /\
  (holder s rk <> Some oid -> kl_owner (disown oid e).1 = owner_at s rk).
Proof.
  intros He. pose proof (owned_by_holder oid s rk e He) as Hh. pose proof (view_Some _ _ _ He) as Hv.
  unfold disown. destruct (owned_by oid e).
  - unfold queue_at. rewrite Hv. cbn. split_and!; [done | | tauto]. intros _. split; [done |]. intros w ->. cbn. set_solver.
  - unfold queue_at, owner_at. rewrite Hv. cbn. split_and!; [done | | done]. intros Hx. by apply Hh in Hx.
Qed.

Lemma release_key_spec oid k s :
  given_back oid (eq k) s (release_key oid k s).1 (release_key oid k s).2.
Proof.
  unfold release_key. destruct (entry_at s k) as [e |] eqn:He; cbn [fst snd].
  - destruct (disown_spec oid s k e He) as (Hq & Hy & Hn). split.
    { unfold drop_empty, put_or_remove, set_tables. by repeat case_match. }
    intros rk. unfold queue_at at 1, owner_at. rewrite !view_drop_empty, !(view_put_or_remove _ _ _ _ _ He).
    destruct (decide (rk = k)) as [-> | Hne]; cbn [fst snd]; [| naive_solver].
    split_and!; [done | by intros _ | intros H; apply Hn; naive_solver].
  - split; [unfold drop_empty, set_tables; by case_match |]. intros rk.
    unfold queue_at, holder, owner_at. rewrite !view_drop_empty. split_and!; [done | | done].
    intros <-. by rewrite (view_None _ _ He).
Qed.

Lemma release_keys_spec oid keys s :
  given_back oid (fun rk => rk ∈ keys) s (release_keys oid keys s).1 (release_keys oid keys s).2.
Proof.
  revert s. induction keys as [| k keys IH]; intros s; cbn [release_keys].
  { split; [done |]. intros rk. split_and!; [done | set_solver | done]. }
  pose proof (release_key_spec oid k s) as [N1 H1]. destruct (release_key oid k s) as [s1 w1]. cbn [fst snd] in *.
  pose proof (IH s1) as [N2 H2]. destruct (release_keys oid keys s1) as [s2 w2]. cbn [fst snd] in *.
  split; [congruence |]. intros rk. destruct (H1 rk) as (Q1 & Y1 & O1), (H2 rk) as (Q2 & Y2 & O2).
  rewrite Q2, Q1. rewrite Q1 in Y2. unfold holder in *.
  destruct (decide (k = rk /\ option_map fst (owner_at s rk) = Some oid)) as [[-> Hh] | Hn].
  - destruct (Y1 eq_refl Hh) as [Hn1 Hw1]. rewrite Hn1 in *. split_and!; [done | | set_solver].
    intros _ _. split; [by apply O2; intros [_ ?] | set_solver].
  - rewrite (O1 Hn) in *. split_and!; [done | |].
    + intros Hk Hh. destruct (Y2 ltac:(set_solver) Hh). split; [done | set_solver].
    + intros H. apply O2. intros [Hk Hh]. apply H. split; [set_solver | done].
Qed.

Lemma release_all_spec oid s :
  given_back oid (fun _ => True) s (release_all_locked oid s).1 (release_all_locked oid s).2.
Proof.
  split; [done |]. intros rk. unfold release_all_locked. cbn [fst snd].
  assert (forall s', ls_tables s' = omap (fun map : gmap (list byte) KeyLockEntry =>
     let map := omap (fun e => keep_entry (disown oid e).1) map in
     if bool_decide (map = ∅) then None else Some map) (ls_tables s) ->
    entry_at s' rk = e ← entry_at s rk; keep_entry (disown oid e).1) as He.
  { intros s' E. unfold entry_at. rewrite E, lookup_omap. destruct (ls_tables s !! rk.1) as [map |]; [| done].
    cbn [mbind option_bind]. cbn zeta. case_bool_decide as Hm; cbn [mbind option_bind]; [| by rewrite lookup_omap].
    symmetry. change (omap (fun e => keep_entry (disown oid e).1) map !! rk.2 = None) || idtac.
    rewrite <- (lookup_omap (fun e => keep_entry (disown oid e).1) map rk.2), Hm. apply lookup_empty. }
  match goal with |- context [queue_at ?x rk = _] => specialize (He x eq_refl); set (s' := x) in * end.
  destruct (entry_at s rk) as [e |] eqn:Es; cbn [mbind option_bind] in He.
  - destruct (disown_spec oid s rk e Es) as (Hq & Hy & Hn).
    assert (view s' rk = (kl_owner (disown oid e).1, kl_queue (disown oid e).1)) as Hv
      by (unfold view; rewrite He; apply view_keep_entry).
    unfold queue_at at 1, owner_at at 1 2. rewrite Hv. cbn [fst snd].
    split_and!; [done | | intros H; apply Hn; naive_solver]. intros _ Hh. destruct (Hy Hh) as [Ho Hw].
    split; [done |]. intros w Hw'. specialize (Hw w Hw').
    unfold entry_at in Es. destruct (ls_tables s !! rk.1) as [map |] eqn:Em; [| done]. cbn [mbind option_bind] in Es.
    apply list_elem_of_bind. exists (rk.1, map). split; [| by apply elem_of_map_to_list].
    apply list_elem_of_bind. exists (rk.2, e). split; [done | by apply elem_of_map_to_list].
  - assert (view s' rk = (None, [])) as Hv by (unfold view; by rewrite He).
    unfold queue_at, holder, owner_at. rewrite Hv, (view_None _ _ Es). by split_and!.
Qed.

(** A key that an attempt at [now] can take, before the attempt. *)
Definition acquirable (now oid : Z) (waiter : option Z) (s : LockState) (rk : LockKey) : Prop :=
  holder s rk = Some oid \/
  (forall o at_, owner_at s rk = Some (o, at_) -> STATEMENT_LOCK_TTL < now - at_) /\
  granted waiter (queue_at s rk) = true.

Lemma obtainable_acquirable now oid ks w s s' wakes rk :
  reclaimed now oid ks s s' wakes -> obtainable oid w s' rk -> acquirable now oid w s rk.
Proof.
  intros [_ H]. destruct (H rk) as [Q O]. unfold obtainable, acquirable, holder. rewrite Q.
  intros [Hh | [Hn Hg]]; destruct O as [O | (o & a & E & Ho & Ht & E' & _ & _)].
  - left. by rewrite <- O.
  - by rewrite E' in Hh.
  - right. split; [| done]. intros o a E. congruence.
  - right. split; [| done]. intros o' a' E2. rewrite E in E2. injection E2 as <- <-. done.
Qed.

Lemma obstacle_acquirable now oid ks w s s' wakes rk :
  reclaimed now oid ks s s' wakes -> obstacle now oid w s' rk -> ~ acquirable now oid w s rk.
Proof.
  intros [_ H] Hob. destruct (H rk) as [Q O]. unfold acquirable, holder.
  destruct Hob as [(o & a & E & Ho & Ht) | [Hn Hg]].
  - destruct O as [O | (o' & a' & _ & _ & _ & E' & _)]; [| congruence]. rewrite O in E. rewrite E. cbn.
    intros [[= ?] | [Hx _]]; [done |]. specialize (Hx _ _ eq_refl). lia.
  - rewrite Q in Hg. intros [Hh | [_ Hx]]; [| congruence].
    destruct O as [O | (o' & a' & E & Hne & _)]; [by rewrite <- O, Hn in Hh |]. rewrite E in Hh. cbn in Hh. congruence.
Qed.

(** C20: An attempt takes all of its keys or none.  It succeeds exactly when
    every key is held by the caller already, or is unowned (or its owner is
    past the time-to-live) and the caller is first in line.  Then the caller
    owns every key and left their queues, and no other key changes.  When it
    fails no queue changes and nobody gains a key: the only owners that lose
    one are those past the time-to-live. *)
Theorem try_acquire_atomic now oid keys waiter s ok s' wakes :
  try_acquire_locked now oid keys waiter s = (ok, s', wakes) ->
  (ok = true <-> Forall (acquirable now oid waiter s) keys) /\
  (ok = true -> forall rk,
     (rk ∈ keys -> holder s' rk = Some oid /\ queue_at s' rk = left_queue waiter (queue_at s rk)) /\
     (rk ∉ keys -> view s' rk = view s rk)) /\
  (ok = false -> forall rk, queue_at s' rk = queue_at s rk /\
     (owner_at s' rk = owner_at s rk \/
      exists o at_, owner_at s rk = Some (o, at_) /\ o <> oid /\ STATEMENT_LOCK_TTL < now - at_ /\
        owner_at s' rk = None)).
Proof.
  unfold try_acquire_locked. destruct (check_pass now oid waiter keys s []) as [[b s1] w1] eqn:E.
  destruct (check_pass_spec _ _ _ _ _ _ _ _ _ E) as (Hr & _ & Hb).
  destruct b; intros [= <- <- <-].
  - split; [| split; [| done]].
    { split; [| done]. intros _. eapply Forall_impl; [exact Hb |]. intros rk. by apply (obtainable_acquirable _ _ _ _ _ _ _ _ Hr). }
    intros _ rk. destruct Hr as [_ Hr]. destruct (Hr rk) as [Q O].
    unfold holder, owner_at, queue_at at 1. rewrite view_take_pass. split.
    + intros Hk. rewrite decide_True by done. cbn [fst snd]. rewrite Q. split; [| done].
      unfold taken. destruct (owner_at s1 rk) as [[o a] |]; [| done]. destruct (Z.eqb_spec o oid); by subst.
    + intros Hk. rewrite decide_False by done.
      rewrite (surjective_pairing (view s1 rk)), (surjective_pairing (view s rk)).
      fold (owner_at s1 rk) (queue_at s1 rk) (owner_at s rk) (queue_at s rk). rewrite Q. f_equal.
      by destruct O as [-> | (o & a & _ & _ & _ & _ & ? & _)].
  - split; [| split; [done |]].
    { split; [done |]. intros Hf. apply Exists_exists in Hb as (rk & Hk & Ho).
      rewrite Forall_forall in Hf. exfalso. by apply (obstacle_acquirable _ _ _ _ _ _ _ _ Hr Ho), Hf. }
    intros _ rk. destruct Hr as [_ Hr]. destruct (Hr rk) as [Q O]. split; [done |].
    destruct O as [O | (o & a & ? & ? & ? & ? & _)]; [by left | right; by exists o, a].
Qed.

Definition demo_key (b : byte) : LockKey := (mkPhysicalRelationId 1 0, [b]).

(** Transaction 100 owns [k2] and a waiter is queued for it. *)
Definition demo_state : LockState :=
  put_entry (demo_key x02) (mkKeyLockEntry (Some (100, 0)) [7]) LockState_new.

(** An attempt that finds one key free and the other one held. *)
Definition demo_attempt : bool * LockState * list Z :=
  try_acquire_locked 5 200 [demo_key x01; demo_key x02] None demo_state.

Lemma try_acquire_atomic_witness :
  demo_attempt.1.1 = false /\
  (demo_attempt.1.1 = true <-> Forall (acquirable 5 200 None demo_state) [demo_key x01; demo_key x02]) /\
  (demo_attempt.1.1 = true -> forall rk,
     (rk ∈ [demo_key x01; demo_key x02] ->
      holder demo_attempt.1.2 rk = Some 200 /\
      queue_at demo_attempt.1.2 rk = left_queue None (queue_at demo_state rk)) /\
     (rk ∉ [demo_key x01; demo_key x02] -> view demo_attempt.1.2 rk = view demo_state rk)) /\
  (demo_attempt.1.1 = false -> forall rk, queue_at demo_attempt.1.2 rk = queue_at demo_state rk /\
     (owner_at demo_attempt.1.2 rk = owner_at demo_state rk \/
      exists o at_, owner_at demo_state rk = Some (o, at_) /\ o <> 200 /\ STATEMENT_LOCK_TTL < 5 - at_ /\
        owner_at demo_attempt.1.2 rk = None)).
Proof.
  split; [vm_compute; reflexivity |].
  apply (try_acquire_atomic 5 200 [demo_key x01; demo_key x02] None demo_state _ _ demo_attempt.2).
  by rewrite <- !surjective_pairing.
Defined.

(** ** Waiting *)

(** The waiter cannot take the key [rk]: it is owned, or another is first. *)
Definition behind (s : LockState) (w : Z) (rk : LockKey) : Prop :=
  w ∈ queue_at s rk /\ (owner_at s rk <> None \/ head (queue_at s rk) <> Some w).

(** Waiters other than [seq] stay behind where they are, or are woken. *)
Definition stays (seq : option Z) (s s' : LockState) (wakes : list Z) : Prop :=
  forall w rk, Some w <> seq -> behind s w rk -> w ∈ wakes \/ behind s' w rk.

Lemma stays_trans seq s1 s2 s3 w1 w2 :
  stays seq s1 s2 w1 -> stays seq s2 s3 w2 -> stays seq s1 s3 (w1 ++ w2).
Proof.
  intros H1 H2 w rk Hw Hb. destruct (H1 w rk Hw Hb) as [Hi | Hb1]; [set_solver |].
  destruct (H2 w rk Hw Hb1); [set_solver | by right].
Qed.

Lemma stays_reclaimed now oid ks seq s s' wakes : reclaimed now oid ks s s' wakes -> stays seq s s' wakes.
Proof.
  intros [_ H] w rk _ [Hin Hb]. destruct (H rk) as [Q O]. unfold behind. rewrite Q.
  destruct O as [-> | (o & a & E & _ & _ & E' & _ & Hh)]; [by right |].
  destruct (decide (head (queue_at s rk) = Some w)); [left; by apply Hh | right; split; [done | by right]].
Qed.

Lemma stays_given_back oid g seq s s' wakes : given_back oid g s s' wakes -> stays seq s s' wakes.
Proof.
  intros [_ H] w rk _ [Hin Hb]. destruct (H rk) as (Q & Y & O). unfold behind. rewrite Q.
  destruct (decide (w ∈ wakes)) as [Hw |  Hw]; [by left | right]. split; [done |].
  destruct (decide (head (queue_at s rk) = Some w)) as [Hh |]; [| by right].
  destruct Hb as [Ho | Hb]; [| done]. left. rewrite O; [done |]. intros [Hg Hold].
  destruct (Y Hg Hold) as [_ Hx]. by apply Hw, Hx.
Qed.

Lemma stays_take_pass now oid seq keys s : stays seq s (take_pass now oid seq keys s) [].
Proof.
  intros w rk Hw [Hin Hb]. right. unfold behind, owner_at, queue_at. rewrite view_take_pass.
  destruct (decide (rk ∈ keys)); [| done]. cbn [fst snd]. split.
  - destruct seq as [seq |]; cbn; [| done]. apply elem_of_leave. split; [done | congruence].
  - left. unfold taken. repeat case_match; done.
Qed.

Lemma stays_enqueue oid keys seq s : stays (Some seq) s (enqueue_locked oid keys seq s) [].
Proof.
  intros w rk Hw [Hin Hb]. right. unfold behind, owner_at at 1, queue_at at 1 2. rewrite view_enqueue. cbn [fst snd].
  case_decide; [| done]. split; [set_solver |]. destruct (queue_at s rk) as [| x q]; [set_solver |]. done.
Qed.

Lemma stays_dequeue keys seq s s' wakes : dequeue_locked keys seq s = (s', wakes) -> stays (Some seq) s s' wakes.
Proof.
  intros E w rk Hw [Hin Hb]. destruct (dequeue_spec _ _ _ _ _ E) as [_ H]. destruct (H rk) as [Hv Hh].
  unfold behind, owner_at at 1, queue_at at 1 2. rewrite Hv. cbn [fst snd].
  case_decide as Hk; [| by right].
  assert (w ∈ leave seq (queue_at s rk)) as Hl by (apply elem_of_leave; split; [done | congruence]).
  destruct (owner_at s rk) eqn:Ho; [right; split; [done | by left] |].
  destruct Hb as [? | Hb]; [done |].
  destruct (is_head seq (queue_at s rk)) eqn:His.
  - destruct (decide (head (leave seq (queue_at s rk)) = Some w)) as [Hx | Hx]; [| right; split; [done | by right]].
    left. by apply Hh; [| apply is_head_spec | |].
  - right. split; [done |]. right. destruct (head (queue_at s rk)) as [x |] eqn:Hx.
    + by rewrite (head_leave _ _ _ His Hx).
    + destruct (queue_at s rk); [set_solver | done].
Qed.

Lemma acquire_spec now oid keys w s b s' wakes :
  try_acquire_locked now oid keys w s = (b, s', wakes) ->
  ls_next_waiter_seq s' = ls_next_waiter_seq s /\ stays w s s' wakes /\
  (forall rk, queue_at s' rk = if b then if decide (rk ∈ keys) then left_queue w (queue_at s rk) else queue_at s rk
                               else queue_at s rk) /\
  if b then Forall (acquirable now oid w s) keys
  else reclaimed now oid keys s s' wakes /\ Exists (obstacle now oid w s') keys.
Proof.
  unfold try_acquire_locked. destruct (check_pass now oid w keys s []) as [[b1 s1] w1] eqn:E.
  destruct (check_pass_spec _ _ _ _ _ _ _ _ _ E) as (Hr & _ & Hb). pose proof Hr as [Hn Hq].
  destruct b1; intros [= <- <- <-].
  - split_and!.
    + by rewrite take_pass_seq.
    + rewrite <- (app_nil_r w1). eapply stays_trans; [by eapply stays_reclaimed | apply stays_take_pass].
    + intros rk. unfold queue_at at 1. rewrite view_take_pass. destruct (Hq rk) as [Q _]. rewrite <- Q. by case_decide.
    + eapply Forall_impl; [exact Hb |]. intros rk. by apply (obtainable_acquirable _ _ _ _ _ _ _ _ Hr).
  - split_and!; [done | by eapply stays_reclaimed | intros rk; apply Hq | exact Hr | exact Hb].
Qed.

Lemma acquire_succeeds now oid keys w s :
  Forall (acquirable now oid w s) keys -> exists s' wakes, try_acquire_locked now oid keys w s = (true, s', wakes).
Proof.
  intros Hf. unfold try_acquire_locked. destruct (check_pass now oid w keys s []) as [[b1 s1] w1] eqn:E.
  destruct (check_pass_spec _ _ _ _ _ _ _ _ _ E) as (Hr & _ & Hb). destruct b1; [by eexists _, _ |].
  apply Exists_exists in Hb as (rk & Hk & Ho). rewrite Forall_forall in Hf.
  exfalso. by apply (obstacle_acquirable _ _ _ _ _ _ _ _ Hr Ho), Hf.
Qed.

(** A waiter whose wakeup is under way. *)
Definition awake (m : XLockMgr) (w : Z) : Prop := w ∈ xm_signals m \/ w ∈ xm_wakes m.

Record lock_inv (m : XLockMgr) : Prop := mk_lock_inv {
  li_next : in_u64 (ls_next_waiter_seq (xm_lock m));
  li_seq : forall w rq, xm_waiters m !! w = Some rq -> w < ls_next_waiter_seq (xm_lock m);
  li_queued : forall w rk, w ∈ queue_at (xm_lock m) rk ->
    exists rq, xm_waiters m !! w = Some rq /\ rk ∈ rq_keys rq;
  li_wait : forall w rq, xm_waiters m !! w = Some rq -> rq_parked rq = true ->
    awake m w \/ exists rk, rk ∈ rq_keys rq /\ behind (xm_lock m) w rk;
}.

(** A step that leaves the waiters as they are. *)
Lemma lock_inv_unlock m s wakes :
  lock_inv m -> ls_next_waiter_seq s = ls_next_waiter_seq (xm_lock m) -> stays None (xm_lock m) s wakes ->
  (forall rk, queue_at s rk ⊆ queue_at (xm_lock m) rk) -> lock_inv (unlock s wakes m).
Proof.
  intros [N S Q W] Hn Hs Hq. unfold unlock. split; cbn.
  - by rewrite Hn.
  - intros w rq Hw. rewrite Hn. by eapply S.
  - intros w rk Hw. apply Q. by apply Hq.
  - intros w rq Hw Hp. destruct (W w rq Hw Hp) as [Ha | (rk & Hk & Hb)].
    + left. destruct Ha; [by left | right; cbn; set_solver].
    + destruct (Hs w rk ltac:(done) Hb); [left; right; cbn; set_solver | right; eauto].
Qed.

(** A step in which the waiter [seq] leaves. *)
Lemma lock_inv_leave m s wakes seq rq :
  lock_inv m -> xm_waiters m !! seq = Some rq ->
  ls_next_waiter_seq s = ls_next_waiter_seq (xm_lock m) -> stays (Some seq) (xm_lock m) s wakes ->
  (forall rk, queue_at s rk = if decide (rk ∈ rq_keys rq) then leave seq (queue_at (xm_lock m) rk)
                              else queue_at (xm_lock m) rk) ->
  lock_inv (set_waiters (delete seq (xm_waiters m)) (unlock s wakes m)).
Proof.
  intros [N S Q W] Hrq Hn Hs Hq. unfold set_waiters, unlock. split; cbn.
  - by rewrite Hn.
  - intros w rq' [_ Hw]%lookup_delete_Some. rewrite Hn. by eapply S.
  - intros w rk Hw. assert (w ∈ queue_at (xm_lock m) rk /\ w <> seq) as [Hw' Hne].
    { rewrite Hq in Hw. case_decide as Hk; [by apply elem_of_leave |]. split; [done |]. intros ->.
      destruct (Q _ _ Hw) as (rq' & Hrq' & Hk'). congruence. }
    destruct (Q _ _ Hw') as (rq' & Hrq' & Hk'). exists rq'. by rewrite lookup_delete_ne by done.
  - intros w rq' [Hne Hw]%lookup_delete_Some Hp. destruct (W w rq' Hw Hp) as [Ha | (rk & Hk & Hb)].
    + left. destruct Ha; [by left | right; cbn; set_solver].
    + destruct (Hs w rk ltac:(congruence) Hb); [left; right; cbn; set_solver | right; eauto].
Qed.

(** What a failed attempt leaves: the waiter is behind for one of its keys. *)
Lemma obstacle_behind now oid seq keys s rk :
  rk ∈ keys -> obstacle now oid (Some seq) s rk -> behind (enqueue_locked oid keys seq s) seq rk.
Proof.
  intros Hk Hob. assert (holder s rk <> Some oid) as Hh.
  { unfold holder. destruct Hob as [(o & a & -> & Ho & _) | [-> _]]; cbn; congruence. }
  unfold behind, owner_at at 1, queue_at at 1 2. rewrite view_enqueue. cbn [fst snd]. split.
  - case_decide as Hd; [set_solver |]. destruct (decide (seq ∈ queue_at s rk)); [done | tauto].
  - destruct Hob as [(o & a & -> & _) | [_ Hg]]; [by left |]. right.
    cbn [granted] in Hg. apply orb_false_iff in Hg as [Hne Hnh].
    destruct (queue_at s rk) as [| x q]; [by case_bool_decide |].
    cbn [is_head] in Hnh. case_decide; cbn; intros [= ->]; by rewrite Z.eqb_refl in Hnh.
Qed.

Lemma lock_inv_fail now seq rq m s wakes :
  lock_inv m -> xm_waiters m !! seq = Some rq ->
  try_acquire_locked now (rq_oid rq) (rq_keys rq) (Some seq) (xm_lock m) = (false, s, wakes) ->
  lock_inv (lock_attempt now seq rq m).2.
Proof.
  intros Hi Hrq E. unfold lock_attempt. rewrite E. cbn [snd]. destruct Hi as [N S Q W].
  destruct (acquire_spec _ _ _ _ _ _ _ _ E) as (Hn & Hs & Hq & Hr & Hob).
  set (s2 := enqueue_locked (rq_oid rq) (rq_keys rq) seq s).
  assert (ls_next_waiter_seq s2 = ls_next_waiter_seq (xm_lock m)) as Hn2 by (unfold s2; by rewrite enqueue_seq).
  pose proof (stays_trans _ _ _ _ _ _ Hs (stays_enqueue (rq_oid rq) (rq_keys rq) seq s)) as Hst.
  rewrite app_nil_r in Hst. fold s2 in Hst.
  unfold set_waiters, set_signals, unlock. split; cbn.
  - by rewrite Hn2.
  - intros w rq'. rewrite Hn2. intros [[<- _] | [_ Hw]]%lookup_insert_Some; by eapply S.
  - intros w rk Hw. destruct (decide (w = seq)) as [-> | Hne].
    + eexists. rewrite lookup_insert_eq. split; [done |]. cbn [rq_keys]. unfold queue_at, s2 in Hw. rewrite view_enqueue in Hw.
      cbn [snd] in Hw. case_decide as Hd; [tauto |]. rewrite Hq in Hw. destruct (Q _ _ Hw) as (rq' & Hrq' & Hk). congruence.
    + rewrite lookup_insert_ne by congruence. apply Q. rewrite <- Hq. unfold queue_at, s2 in Hw.
      rewrite view_enqueue in Hw. cbn [snd] in Hw. case_decide; [| done]. set_solver.
  - intros w rq' Hw Hp. apply lookup_insert_Some in Hw as [[<- <-] | [Hne Hw]].
    + right. apply Exists_exists in Hob as (rk & Hk & Ho). exists rk. split; [done |]. by eapply obstacle_behind.
    + destruct (W w rq' Hw Hp) as [Ha | (rk & Hk & Hb)].
      * left. destruct Ha; [left | right]; cbn; set_solver.
      * destruct (Hst w rk ltac:(congruence) Hb); [left; right; cbn; set_solver | right; eauto].
Qed.

Lemma lock_inv_unpark seq rq m : lock_inv m -> xm_waiters m !! seq = Some rq -> lock_inv (unpark seq rq m).
Proof.
  intros [N S Q W] Hrq. unfold unpark, set_waiters. split; cbn; [done | | |].
  - intros w rq' [[<- _] | [_ Hw]]%lookup_insert_Some; by eapply S.
  - intros w rk Hw. destruct (Q _ _ Hw) as (rq' & Hrq' & Hk). destruct (decide (seq = w)) as [-> | Hne].
    + eexists. rewrite lookup_insert_eq. split; [done |]. cbn. congruence.
    + exists rq'. by rewrite lookup_insert_ne.
  - intros w rq' [[_ <-] | [_ Hw]]%lookup_insert_Some; [done |]. apply (W _ _ Hw).
Qed.

Lemma lock_inv_register oid keys seq m m' :
  lock_inv m -> lock_register oid keys m = (Ok seq, m') ->
  seq = ls_next_waiter_seq (xm_lock m) /\ m' = set_waiters (<[seq := mkRequest oid keys false]> (xm_waiters m))
    (unlock (mkLockState (ls_tables (xm_lock m)) (seq + 1)) [] m) /\ lock_inv m'.
Proof.
  intros [N S Q W]. unfold lock_register, uadd. destruct (Z.leb_spec (ls_next_waiter_seq (xm_lock m) + 1) U64_MAX); [| done].
  intros [= <- <-]. rewrite Z.mod_small by mlia. split_and!; [done | done |]. split; cbn.
  - mlia.
  - intros w rq [[<- _] | [_ Hw]]%lookup_insert_Some; [lia |]. specialize (S _ _ Hw). lia.
  - intros w rk Hw. destruct (Q _ _ Hw) as (rq & Hrq & Hk). exists rq. rewrite lookup_insert_ne; [done |].
    specialize (S _ _ Hrq). lia.
  - intros w rq [[_ <-] | [_ Hw]]%lookup_insert_Some; [done |]. intros Hp.
    destruct (W _ _ Hw Hp) as [Ha | Hb]; [left | right; exact Hb].
    destruct Ha; [by left | right; cbn; set_solver].
Qed.

Lemma lock_inv_step ev m m' : lock_inv m -> lock_step ev m = Some m' -> lock_inv m'.
Proof.
  intros Hi. destruct ev as [now oid keys | oid keys | now seq | seq | seq | seq | oid keys | oid | seq]; cbn [lock_step].
  - intros [= <-]. unfold try_lock_some.
    destruct (try_acquire_locked now oid keys None (xm_lock m)) as [[b s] wakes] eqn:E. cbn [snd].
    destruct (acquire_spec _ _ _ _ _ _ _ _ E) as (Hn & Hs & Hq & _). apply lock_inv_unlock; [done.. |].
    intros rk. rewrite Hq. destruct b; [case_decide; done | done].
  - destruct (lock_register oid keys m) as [[seq | |] m1] eqn:E; [| done | done]. intros [= <-].
    by destruct (lock_inv_register _ _ _ _ _ Hi E) as (_ & _ & ?).
  - destruct (xm_waiters m !! seq) as [rq |] eqn:Hrq; [cbn [mbind option_bind] | done].
    destruct (rq_parked rq); [done |]. intros [= <-].
    destruct (try_acquire_locked now (rq_oid rq) (rq_keys rq) (Some seq) (xm_lock m)) as [[[] s] wakes] eqn:E;
      [| by eapply lock_inv_fail].
    destruct (acquire_spec _ _ _ _ _ _ _ _ E) as (Hn & Hs & Hq & _). unfold lock_attempt. rewrite E. cbn [snd].
    by eapply lock_inv_leave.
  - destruct (xm_waiters m !! seq) as [rq |] eqn:Hrq; [cbn [mbind option_bind] | done].
    destruct (_ && _); [| done]. intros [= <-]. by apply lock_inv_unpark.
  - destruct (xm_waiters m !! seq) as [rq |] eqn:Hrq; [cbn [mbind option_bind] | done].
    destruct (rq_parked rq); [| done]. intros [= <-]. by apply lock_inv_unpark.
  - destruct (xm_waiters m !! seq) as [rq |] eqn:Hrq; [cbn [mbind option_bind] | done].
    destruct (rq_parked rq); [| done]. intros [= <-]. unfold lock_timeout.
    destruct (dequeue_locked (rq_keys rq) seq (xm_lock m)) as [s wakes] eqn:E. cbn [snd].
    destruct (dequeue_spec _ _ _ _ _ E) as [Hn Hv]. eapply lock_inv_leave; [done.. | by eapply stays_dequeue |].
    intros rk. unfold queue_at at 1. destruct (Hv rk) as [-> _]. done.
  - intros [= <-]. unfold release. pose proof (release_keys_spec oid keys (xm_lock m)) as Hg.
    destruct (release_keys oid keys (xm_lock m)) as [s wakes]. cbn [fst snd] in *. pose proof Hg as [Hn Hq].
    apply lock_inv_unlock; [done.. | exact (stays_given_back _ _ _ _ _ _ Hg) |]. intros rk. by destruct (Hq rk) as [-> _].
  - intros Hm%(inj Some). subst m'. unfold release_all. pose proof (release_all_spec oid (xm_lock m)) as Hg.
    destruct (release_all_locked oid (xm_lock m)) as [s wakes]. cbn [fst snd] in *. pose proof Hg as [Hn Hq].
    apply lock_inv_unlock; [done.. | exact (stays_given_back _ _ _ _ _ _ Hg) |]. intros rk. by destruct (Hq rk) as [-> _].
  - destruct (list_find (eq seq) (xm_wakes m)) as [[i x] |] eqn:E; [| done]. intros [= <-].
    apply list_find_Some in E as (Hx & <- & _). destruct Hi as [N S Q W].
    unfold send_wake, st_modify. cbn [snd xm_lock xm_waiters xm_wakes xm_signals]. split; cbn; [done.. |].
    intros w rq Hw Hp. destruct (W w rq Hw Hp) as [Ha | Hb]; [left | by right].
    unfold awake in *. cbn. destruct Ha as [Ha | Ha]; [left; set_solver |].
    destruct (decide (w = seq)) as [-> | Hne]; [left; set_solver | right].
    by eapply elem_of_delete_ne.
Qed.

(** C14: No wakeup is lost.  In every state that the operations of the lock
    manager can reach, in any interleaving, a call of [lock_some] that is
    parked has its signal set, or a wakeup for it is about to be sent, or it
    could not proceed: it queues for a key that is owned or for which another
    waiter is first. *)
Theorem no_lost_wakeup evs m w rq :
  lock_run evs XLockMgr_new = Some m ->
  xm_waiters m !! w = Some rq -> rq_parked rq = true ->
  w ∈ xm_signals m \/ w ∈ xm_wakes m \/
  exists rk, rk ∈ rq_keys rq /\ w ∈ queue_at (xm_lock m) rk /\
    (owner_at (xm_lock m) rk <> None \/ head (queue_at (xm_lock m) rk) <> Some w).
Proof.
  intros Hr Hw Hp. assert (lock_inv m) as [_ _ _ W].
  { assert (lock_inv XLockMgr_new) as Hi by (split; cbn; [mlia | done | set_solver | done]).
    revert Hr Hi. generalize XLockMgr_new. clear. induction evs as [| ev evs IH]; cbn [lock_run]; intros m0.
    - by intros [= ->].
    - destruct (lock_step ev m0) as [m1 |] eqn:E; [| done]. cbn [mbind option_bind]. intros Hr Hi.
      by eapply IH, lock_inv_step. }
  destruct (W w rq Hw Hp) as [[Ha | Ha] | Hb]; [by left | by right; left | right; right; exact Hb].
Qed.

(** Transaction 1 holds a key, transaction 2 waits for it; the key is given
    back, and the wakeup is not sent yet. *)
Definition demo_wait : list lock_event :=
  [EvTry 0 1 [demo_key x01]; EvTry 0 2 [demo_key x01]; EvRegister 2 [demo_key x01]; EvAttempt 0 0;
   EvRelease 1 [demo_key x01]].

(** The state after a sequence of steps. *)
Definition state_after (evs : list lock_event) : XLockMgr := default XLockMgr_new (lock_run evs XLockMgr_new).

Lemma state_after_run evs :
  bool_decide (is_Some (lock_run evs XLockMgr_new)) = true -> lock_run evs XLockMgr_new = Some (state_after evs).
Proof. intros [m E]%bool_decide_eq_true. unfold state_after. by rewrite E. Qed.

Lemma no_lost_wakeup_witness :
  0 ∈ xm_signals (state_after demo_wait) \/ 0 ∈ xm_wakes (state_after demo_wait) \/
  exists rk, rk ∈ rq_keys (mkRequest 2 [demo_key x01] true) /\ 0 ∈ queue_at (xm_lock (state_after demo_wait)) rk /\
    (owner_at (xm_lock (state_after demo_wait)) rk <> None \/
     head (queue_at (xm_lock (state_after demo_wait)) rk) <> Some 0).
Proof.
  apply (no_lost_wakeup demo_wait); [apply state_after_run; vm_compute; reflexivity | vm_compute; reflexivity | reflexivity].
Defined.

(** ** Progress *)

(** A waiter that holds none of the keys it waits for. *)
Definition empty_handed (s : LockState) (rq : Request) : Prop :=
  Forall (fun rk => holder s rk <> Some (rq_oid rq)) (rq_keys rq).

Definition patient (m : XLockMgr) (ev : lock_event) : Prop :=
  match ev with
  | EvAttempt _ seq => match xm_waiters m !! seq with Some rq => empty_handed (xm_lock m) rq | None => True end
  | _ => True
  end.

#[export] Instance patient_dec m ev : Decision (patient m ev).
Proof. destruct ev; cbn [patient]; try apply _. case_match; apply _. Defined.

Inductive lock_reach : XLockMgr -> Prop :=
| reach_new : lock_reach XLockMgr_new
| reach_step ev m m' : lock_reach m -> patient m ev -> lock_step ev m = Some m' -> lock_reach m'.

(** The queues are in one order, that in which the waiters came, and a waiter
    is in the queues of all of its keys or of none. *)
Record fifo (q : LockKey -> list Z) (ws : gmap Z Request) (rank : Z -> nat) (bound : nat) : Prop := mk_fifo {
  ff_sorted : forall rk, StronglySorted (fun a b => rank a < rank b)%nat (q rk);
  ff_bound : forall rk w, w ∈ q rk -> (rank w < bound)%nat;
  ff_all : forall w rq rk rk', ws !! w = Some rq -> w ∈ q rk -> rk' ∈ rq_keys rq -> w ∈ q rk';
  ff_parked : forall w rq, ws !! w = Some rq -> rq_parked rq = true -> exists rk, w ∈ q rk;
}.

Definition fifo_inv (m : XLockMgr) : Prop :=
  exists rank bound, fifo (queue_at (xm_lock m)) (xm_waiters m) rank bound.

Lemma fifo_ext q q' ws rank bound : (forall rk, q' rk = q rk) -> fifo q ws rank bound -> fifo q' ws rank bound.
Proof. intros E [S B A P]. split; intros; rewrite ?E in *; eauto. destruct (P w rq) as [rk ?]; [done.. |]. exists rk. by rewrite E. Qed.

Lemma StronglySorted_filter {A} (R : A -> A -> Prop) (P : A -> Prop) `{!forall x, Decision (P x)} l :
  StronglySorted R l -> StronglySorted R (filter P l).
Proof.
  induction 1 as [| x l Hs IH Hx]; [constructor |]. rewrite filter_cons. case_decide; [| done].
  constructor; [done |]. rewrite Forall_forall in *. intros y [_ Hy]%list_elem_of_filter. by apply Hx.
Qed.

Lemma StronglySorted_weaken {A} (R R' : A -> A -> Prop) l :
  StronglySorted R l -> (forall a b, a ∈ l -> b ∈ l -> R a b -> R' a b) -> StronglySorted R' l.
Proof.
  induction 1 as [| x l Hs IH Hx]; intros H; constructor.
  - apply IH. intros a b Ha Hb. apply H; by right.
  - rewrite Forall_forall in *. intros y Hy. apply H; [by left | by right | by apply Hx].
Qed.

Lemma fifo_leave q q' ws rank bound seq rq :
  fifo q ws rank bound -> ws !! seq = Some rq ->
  (forall rk, q' rk = if decide (rk ∈ rq_keys rq) then leave seq (q rk) else q rk) ->
  fifo q' (delete seq ws) rank bound.
Proof.
  intros [S B A P] Hrq E.
  assert (forall rk w, w <> seq -> w ∈ q' rk <-> w ∈ q rk) as Hin.
  { intros rk w Hne. rewrite E. case_decide; [| done]. rewrite elem_of_leave. tauto. }
  assert (forall rk w, w ∈ q' rk -> w ∈ q rk) as Hsub.
  { intros rk w. rewrite E. case_decide; [| done]. rewrite elem_of_leave. tauto. }
  split.
  - intros rk. rewrite E. case_decide; [by apply StronglySorted_filter | done].
  - intros rk w Hw. eapply B. by apply Hsub.
  - intros w rq' rk rk' [Hne Hw]%lookup_delete_Some Hq Hk. rewrite Hin in * by done. by eapply A.
  - intros w rq' [Hne Hw]%lookup_delete_Some Hp. destruct (P _ _ Hw Hp) as [rk Hrk]. exists rk. by rewrite Hin by done.
Qed.

(** A waiter registers for all of its keys, or is registered already. *)
Lemma fifo_enqueue q q' ws rank bound seq rq :
  fifo q ws rank bound -> ws !! seq = Some rq -> rq_keys rq <> [] ->
  (forall rk, seq ∈ q rk -> rk ∈ rq_keys rq) ->
  (forall rk, q' rk = if decide (rk ∈ rq_keys rq /\ seq ∉ q rk) then q rk ++ [seq] else q rk) ->
  exists rank' bound', fifo q' (<[seq := mkRequest (rq_oid rq) (rq_keys rq) true]> ws) rank' bound'.
Proof.
  intros [S B A P] Hrq Hne Hown E.
  assert (forall rk w, w <> seq -> w ∈ q' rk <-> w ∈ q rk) as Hin.
  { intros rk w Hw. rewrite E. case_decide; [| done]. set_solver. }
  assert (forall rk, rk ∈ rq_keys rq -> seq ∈ q' rk) as Hseq.
  { intros rk Hk. rewrite E. case_decide as Hd; [set_solver |]. destruct (decide (seq ∈ q rk)); [done | tauto]. }
  assert (forall w rq' rk rk', <[seq := mkRequest (rq_oid rq) (rq_keys rq) true]> ws !! w = Some rq' ->
    w ∈ q' rk -> rk' ∈ rq_keys rq' -> w ∈ q' rk') as HA.
  { intros w rq' rk rk' Hw Hq Hk. apply lookup_insert_Some in Hw as [[<- <-] | [Hw Hrq']]; [by apply Hseq |].
    rewrite Hin in * by done. by eapply A. }
  assert (forall w rq', <[seq := mkRequest (rq_oid rq) (rq_keys rq) true]> ws !! w = Some rq' -> rq_parked rq' = true ->
    exists rk, w ∈ q' rk) as HP.
  { intros w rq' Hw Hp. apply lookup_insert_Some in Hw as [[<- _] | [Hw Hrq']].
    - destruct (rq_keys rq) as [| rk ks]; [done |]. exists rk. apply Hseq. set_solver.
    - destruct (P _ _ Hrq' Hp) as [rk Hrk]. exists rk. by rewrite Hin by done. }
  destruct (decide (Exists (fun rk => seq ∈ q rk) (rq_keys rq))) as [Hex | Hex].
  - apply Exists_exists in Hex as (rk0 & _ & Hrk0). exists rank, bound.
    assert (forall rk, q' rk = q rk) as Eq.
    { intros rk. rewrite E, decide_False; [done |]. intros [Hk Hn]. apply Hn. by eapply A. }
    split; [| | exact HA | exact HP]; intros; rewrite Eq in *; eauto.
  - assert (forall rk, seq ∉ q rk) as Hno.
    { intros rk Hx. apply Hex, Exists_exists. eauto. }
    exists (fun x => if decide (x = seq) then bound else rank x), (Datatypes.S bound).
    assert (forall rk, StronglySorted (fun a b => (if decide (a = seq) then bound else rank a) <
      (if decide (b = seq) then bound else rank b))%nat (q rk)) as HS.
    { intros rk. apply (StronglySorted_weaken _ _ _ (S rk)). intros a b Ha Hb Hab.
      rewrite !decide_False; [done | |]; intros ->; by apply (Hno rk). }
    split; [| | exact HA | exact HP].
    + intros rk. rewrite E. case_decide; [| apply HS].
      apply StronglySorted_app_iff. split_and!; [apply HS | repeat constructor |].
      intros a b Ha ->%list_elem_of_singleton.
      rewrite (decide_True (P := seq = seq)) by done. rewrite decide_False by (intros ->; by apply (Hno rk)). by eapply B.
    + intros rk w Hw. case_decide as Hd; [lia |]. rewrite Hin in Hw by done. specialize (B _ _ Hw). lia.
Qed.

Lemma fifo_insert q ws rank bound seq rq' :
  fifo q ws rank bound -> rq_parked rq' = false ->
  (forall rk, seq ∈ q rk -> exists rq, ws !! seq = Some rq /\ rq_keys rq = rq_keys rq') ->
  fifo q (<[seq := rq']> ws) rank bound.
Proof.
  intros [S B A P] Hp H. split; [done | done | |].
  - intros w rq rk rk' Hw Hq Hk. apply lookup_insert_Some in Hw as [[<- <-] | [_ Hw]]; [| by eapply A].
    destruct (H _ Hq) as (rq & Hrq & E). rewrite <- E in Hk. by eapply A.
  - intros w rq Hw Hp'. apply lookup_insert_Some in Hw as [[_ <-] | [_ Hw]]; [congruence | by eapply P].
Qed.

Lemma fifo_fail now seq rq m s wakes :
  lock_inv m -> fifo_inv m -> xm_waiters m !! seq = Some rq -> empty_handed (xm_lock m) rq ->
  try_acquire_locked now (rq_oid rq) (rq_keys rq) (Some seq) (xm_lock m) = (false, s, wakes) ->
  fifo_inv (lock_attempt now seq rq m).2.
Proof.
  intros Hi (rank & bound & Hf) Hrq He E. unfold lock_attempt. rewrite E. cbn [snd]. unfold fifo_inv.
  cbn [set_waiters set_signals unlock xm_lock xm_waiters].
  destruct (acquire_spec _ _ _ _ _ _ _ _ E) as (_ & _ & Hq & [_ Hr] & Hob).
  eapply (fifo_enqueue (queue_at (xm_lock m))); [exact Hf | done | | |].
  - intros Hn. rewrite Hn in Hob. by apply Exists_nil in Hob.
  - intros rk Hk. destruct (li_queued _ Hi _ _ Hk) as (rq' & Hrq' & ?). congruence.
  - intros rk. unfold queue_at at 1. rewrite view_enqueue. cbn [snd]. rewrite Hq.
    unfold empty_handed in He. rewrite Forall_forall in He.
    destruct (decide (rk ∈ rq_keys rq /\ seq ∉ queue_at (xm_lock m) rk)) as [[Hk Hs] | Hn].
    + rewrite decide_True; [done |]. split_and!; [done | | done]. specialize (He rk Hk).
      destruct (Hr rk) as [_ [O | (o & a & _ & _ & _ & O & _)]]; unfold holder in *; rewrite O; [done | done].
    + rewrite decide_False; [done | tauto].
Qed.

Lemma fifo_step ev m m' :
  lock_inv m -> fifo_inv m -> patient m ev -> lock_step ev m = Some m' -> fifo_inv m'.
Proof.
  intros Hi Hf Hpat. pose proof Hf as (rank & bound & HF).
  destruct ev as [now oid keys | oid keys | now seq | seq | seq | seq | oid keys | oid | seq]; cbn [lock_step].
  - intros [= <-]. unfold try_lock_some.
    destruct (try_acquire_locked now oid keys None (xm_lock m)) as [[b s] wakes] eqn:E. cbn [snd].
    destruct (acquire_spec _ _ _ _ _ _ _ _ E) as (_ & _ & Hq & _). exists rank, bound.
    eapply fifo_ext; [| exact HF]. intros rk. cbn [xm_lock unlock]. rewrite Hq. destruct b; [by case_decide | done].
  - destruct (lock_register oid keys m) as [[seq | |] m1] eqn:E; [| done | done]. intros [= <-].
    destruct (lock_inv_register _ _ _ _ _ Hi E) as (-> & -> & _). exists rank, bound.
    apply fifo_insert; [exact HF | done |]. intros rk Hk. cbn in Hk.
    destruct (li_queued _ Hi _ _ Hk) as (rq & Hrq & _). apply (li_seq _ Hi) in Hrq. lia.
  - destruct (xm_waiters m !! seq) as [rq |] eqn:Hrq; [cbn [mbind option_bind] | done].
    destruct (rq_parked rq); [done |]. intros [= <-].
    destruct (try_acquire_locked now (rq_oid rq) (rq_keys rq) (Some seq) (xm_lock m)) as [[[] s] wakes] eqn:E;
      [| cbn [patient] in Hpat; rewrite Hrq in Hpat; by eapply fifo_fail].
    destruct (acquire_spec _ _ _ _ _ _ _ _ E) as (_ & _ & Hq & _). unfold lock_attempt. rewrite E. cbn [snd].
    exists rank, bound. by eapply fifo_leave.
  - destruct (xm_waiters m !! seq) as [rq |] eqn:Hrq; [cbn [mbind option_bind] | done].
    destruct (_ && _); [| done]. intros [= <-]. exists rank, bound. apply fifo_insert; [done | done | by eauto].
  - destruct (xm_waiters m !! seq) as [rq |] eqn:Hrq; [cbn [mbind option_bind] | done].
    destruct (rq_parked rq); [| done]. intros [= <-]. exists rank, bound. apply fifo_insert; [done | done | by eauto].
  - destruct (xm_waiters m !! seq) as [rq |] eqn:Hrq; [cbn [mbind option_bind] | done].
    destruct (rq_parked rq); [| done]. intros [= <-]. unfold lock_timeout.
    destruct (dequeue_locked (rq_keys rq) seq (xm_lock m)) as [s wakes] eqn:E. cbn [snd].
    destruct (dequeue_spec _ _ _ _ _ E) as [_ Hv]. exists rank, bound. eapply fifo_leave; [done.. |].
    intros rk. cbn [xm_lock unlock set_waiters]. unfold queue_at at 1. by destruct (Hv rk) as [-> _].
  - intros Hm%(inj Some). subst m'. unfold release. pose proof (release_keys_spec oid keys (xm_lock m)) as [_ Hq].
    destruct (release_keys oid keys (xm_lock m)) as [s wakes]. cbn [fst snd] in *. exists rank, bound.
    eapply fifo_ext; [| exact HF]. apply Hq.
  - intros Hm%(inj Some). subst m'. unfold release_all. pose proof (release_all_spec oid (xm_lock m)) as [_ Hq].
    destruct (release_all_locked oid (xm_lock m)) as [s wakes]. cbn [fst snd] in *. exists rank, bound.
    eapply fifo_ext; [| exact HF]. apply Hq.
  - destruct (list_find (eq seq) (xm_wakes m)) as [[i x] |] eqn:E; [| done]. intros [= <-]. exists rank, bound. exact HF.
Qed.

Lemma lock_reach_inv m : lock_reach m -> lock_inv m /\ fifo_inv m.
Proof.
  induction 1 as [| ev m m' _ [Hi Hf] Hp E].
  - split; [split; cbn; [mlia | done | set_solver | done] |]. exists (fun _ => 0%nat), 0%nat.
    split; cbn; [constructor | set_solver | done | done].
  - split; [by eapply lock_inv_step | by eapply fifo_step].
Qed.

(** The first of the waiters: it heads the queues of all of its keys. *)
Lemma first_waiter m w0 rk0 :
  lock_inv m -> fifo_inv m -> w0 ∈ queue_at (xm_lock m) rk0 ->
  exists w rq, xm_waiters m !! w = Some rq /\ (exists rk, w ∈ queue_at (xm_lock m) rk) /\
    Forall (fun rk => head (queue_at (xm_lock m) rk) = Some w) (rq_keys rq).
Proof.
  intros Hi (rank & bound & [S B A P]). revert w0 rk0.
  enough (forall n w rk, (rank w < n)%nat -> w ∈ queue_at (xm_lock m) rk ->
    exists w rq, xm_waiters m !! w = Some rq /\ (exists rk, w ∈ queue_at (xm_lock m) rk) /\
      Forall (fun rk => head (queue_at (xm_lock m) rk) = Some w) (rq_keys rq)) as H 
    by (intros w0 rk0 Hw0; apply (H (Datatypes.S (rank w0)) w0 rk0); [lia | done]).
  induction n as [| n IH]; intros w rk Hn Hw; [lia |].
  destruct (li_queued _ Hi _ _ Hw) as (rq & Hrq & Hk).
  destruct (decide (Forall (fun rk => head (queue_at (xm_lock m) rk) = Some w) (rq_keys rq))) as [Hall | Hall].
  { exists w, rq. eauto. }
  apply not_Forall_Exists in Hall; [| apply _]. apply Exists_exists in Hall as (rk' & Hk' & Hh).
  pose proof (A _ _ _ _ Hrq Hw Hk') as Hw'. specialize (S rk').
  destruct (queue_at (xm_lock m) rk') as [| h q] eqn:Eq; [set_solver |].
  apply StronglySorted_inv in S as [_ S]. rewrite Forall_forall in S.
  apply elem_of_cons in Hw' as [-> | Hw']; [exfalso; apply Hh; by rewrite Eq |]. specialize (S _ Hw').
  apply (IH h rk'); [lia |]. rewrite Eq. set_solver.
Qed.

(** No transaction holds a key. *)
Definition idle (m : XLockMgr) : Prop := forall rk, owner_at (xm_lock m) rk = None.

(** The steps of a schedule without time-outs: wakeups are sent, signalled
    waiters try again, and transactions that got their keys give them back. *)
Definition serving (ev : lock_event) : Prop :=
  match ev with EvSend _ | EvWake _ | EvAttempt _ _ | EvReleaseAll _ => True | _ => False end.

(** A schedule from [m] to [m']. *)
Definition serves (m m' : XLockMgr) : Prop :=
  exists evs, Forall serving evs /\ lock_run evs m = Some m' /\ lock_reach m'.

Lemma lock_run_app evs1 evs2 m m1 : lock_run evs1 m = Some m1 -> lock_run (evs1 ++ evs2) m = lock_run evs2 m1.
Proof.
  revert m. induction evs1 as [| ev evs1 IH]; intros m; cbn [lock_run app]; [by intros [= ->] |].
  destruct (lock_step ev m); [| done]. cbn [mbind option_bind]. apply IH.
Qed.

Lemma serves_refl m : lock_reach m -> serves m m.
Proof. intros Hr. by exists []. Qed.

Lemma serves_step ev m m1 m2 :
  lock_reach m -> patient m ev -> serving ev -> lock_step ev m = Some m1 ->
  (lock_reach m1 -> serves m1 m2) -> serves m m2.
Proof.
  intros Hr Hp Hs E H. destruct (H (reach_step _ _ _ Hr Hp E)) as (evs & Hf & Er & Hr').
  exists (ev :: evs). split_and!; [by constructor | | done]. cbn [lock_run]. by rewrite E.
Qed.

Lemma serves_trans m1 m2 m3 : serves m1 m2 -> (lock_reach m2 -> serves m2 m3) -> serves m1 m3.
Proof.
  intros (evs & Hf & E & Hr) H. destruct (H Hr) as (evs' & Hf' & E' & Hr'). exists (evs ++ evs').
  split_and!; [by apply Forall_app_2 | | done]. by rewrite (lock_run_app _ _ _ _ E).
Qed.

(** A waiter that is awake gets to try again. *)
Lemma serves_ready m w rq :
  lock_reach m -> xm_waiters m !! w = Some rq -> (rq_parked rq = true -> awake m w) ->
  exists m1, serves m m1 /\ xm_lock m1 = xm_lock m /\
    xm_waiters m1 = <[w := mkRequest (rq_oid rq) (rq_keys rq) false]> (xm_waiters m).
Proof.
  intros Hr Hw Ha. destruct (rq_parked rq) eqn:Hp.
  2: { exists m. split_and!; [by apply serves_refl | done |]. symmetry. apply insert_id. rewrite Hw. destruct rq. cbn in Hp. by subst. }
  assert (exists m0, serves m m0 /\ xm_lock m0 = xm_lock m /\ xm_waiters m0 = xm_waiters m /\ w ∈ xm_signals m0) as
    (m0 & Hs & El & Ew & Hsig).
  { destruct (Ha eq_refl) as [Hsig | Hwk]; [exists m; by split_and!; [apply serves_refl | ..] |].
    assert (exists i, list_find (eq w) (xm_wakes m) = Some (i, w)) as [i Hi].
    { destruct (list_find_elem_of (eq w) _ _ Hwk eq_refl) as [[i x] Hi]. exists i.
      pose proof Hi as (_ & <- & _)%list_find_Some. done. }
    eexists. split_and!.
    - eapply (serves_step (EvSend w)); [done | done | done | cbn [lock_step]; rewrite Hi; reflexivity |]. apply serves_refl.
    - done.
    - done.
    - cbn. set_solver. }
  exists (unpark w rq m0). split_and!; [| done | by cbn; rewrite Ew].
  eapply serves_trans; [exact Hs |]. intros Hr0.
  eapply (serves_step (EvWake w)); [done | done | done | | apply serves_refl].
  cbn [lock_step]. rewrite Ew, Hw. cbn [mbind option_bind]. by rewrite Hp, bool_decide_true.
Qed.

(** One waiter is served. *)
Lemma serves_one m w rq :
  lock_reach m -> idle m -> xm_waiters m !! w = Some rq -> (rq_parked rq = true -> awake m w) ->
  Forall (fun rk => granted (Some w) (queue_at (xm_lock m) rk) = true) (rq_keys rq) ->
  exists m', serves m m' /\ idle m' /\ xm_waiters m' = delete w (xm_waiters m).
Proof.
  intros Hr Hidle Hw Ha Hg. destruct (serves_ready m w rq Hr Hw Ha) as (m1 & Hs1 & El & Ew).
  destruct (acquire_succeeds 0 (rq_oid rq) (rq_keys rq) (Some w) (xm_lock m)) as (s & wakes & E).
  { eapply Forall_impl; [exact Hg |]. intros rk Hgr. right. split; [| done]. intros o a. by rewrite Hidle. }
  set (m2 := set_waiters (delete w (xm_waiters m1)) (unlock s wakes m1)).
  exists (release_all (rq_oid rq) m2).2. split_and!.
  - eapply serves_trans; [exact Hs1 |]. intros Hr1.
    eapply (serves_step (EvAttempt 0 w) m1 m2); [done | | done | |].
    + cbn [patient]. case_match; [| done]. unfold empty_handed, holder. rewrite El. apply Forall_forall. intros rk _. by rewrite Hidle.
    + cbn [lock_step]. rewrite Ew, lookup_insert_eq. cbn [mbind option_bind rq_parked]. unfold lock_attempt.
      cbn [rq_oid rq_keys]. by rewrite El, E.
    + intros Hr2. by eapply (serves_step (EvReleaseAll (rq_oid rq))); [.. | apply serves_refl].
  - intros rk. unfold release_all. pose proof (release_all_spec (rq_oid rq) (xm_lock m2)) as [_ Hrel].
    destruct (release_all_locked (rq_oid rq) (xm_lock m2)) as [s' wakes']. cbn [fst snd xm_lock unlock] in *.
    destruct (Hrel rk) as (_ & Y & O).
    destruct (decide (holder (xm_lock m2) rk = Some (rq_oid rq))) as [Hh | Hh]; [by apply Y |].
    rewrite O by tauto. cbn [m2 set_waiters unlock xm_lock] in *.
    revert E. unfold try_acquire_locked. destruct (check_pass 0 _ _ _ _ []) as [[[] s1] w1] eqn:Ec; [| done].
    intros [= <- <-]. destruct (check_pass_spec _ _ _ _ _ _ _ _ _ Ec) as ([_ Hrc] & _ & _).
    revert Hh. unfold m2. cbn [set_waiters unlock xm_lock]. unfold holder, owner_at. rewrite view_take_pass.
    case_decide as Hk; cbn [fst].
    + intros Hh. exfalso. apply Hh. unfold taken. destruct (owner_at s1 rk) as [[o a] |]; [| done].
      destruct (Z.eqb_spec o (rq_oid rq)); by subst.
    + intros _. destruct (Hrc rk) as [_ [O1 | (? & ? & ? & ? & ? & O1 & _)]]; unfold owner_at in *; rewrite O1; [apply Hidle | done].
  - unfold release_all. destruct (release_all_locked (rq_oid rq) (xm_lock m2)). cbn [snd unlock xm_waiters].
    unfold m2. cbn [set_waiters xm_waiters]. rewrite Ew. apply delete_insert_eq.
Qed.

(** C15: Every waiter can be served.  Take any state of the lock manager that is
    reached by tries, registrations, attempts, wakeups, timers, time-outs and
    releases, where at each attempt of a registered waiter it holds none of the
    keys it waits for ([patient]), and in which no transaction holds a key.
    There is a schedule that grants every waiter all of its keys without a
    single time-out or timer: each waiter of the schedule runs because its
    signal was set by a wakeup that was already collected, its attempt
    succeeds, and the release of its keys wakes the next. *)
Theorem all_waiters_served m :
  lock_reach m -> idle m ->
  exists evs m', Forall serving evs /\ lock_run evs m = Some m' /\ xm_waiters m' = ∅ /\ idle m'.
Proof.
  remember (size (xm_waiters m)) as n eqn:Hn. revert m Hn. induction n as [| n IH]; intros m Hn Hr Hidle.
  { exists [], m. split_and!; [done | done | by apply map_size_empty_inv | done]. }
  destruct (lock_reach_inv m Hr) as [Hi Hf].
  assert (exists w rq, xm_waiters m !! w = Some rq /\ (rq_parked rq = true -> awake m w) /\
    Forall (fun rk => granted (Some w) (queue_at (xm_lock m) rk) = true) (rq_keys rq)) as (w & rq & Hw & Ha & Hg).
  { destruct (map_choose (xm_waiters m)) as (w0 & rq0 & Hw0); [intros E; rewrite E, map_size_empty in Hn; done |].
    destruct (decide (Exists (fun rk => queue_at (xm_lock m) rk <> []) (rq_keys rq0))) as [Hq | Hq].
    - apply Exists_exists in Hq as (rk & _ & Hq). destruct (queue_at (xm_lock m) rk) as [| w1 q] eqn:Eq; [done |].
      destruct (first_waiter m w1 rk Hi Hf) as (w & rq & Hw & _ & Hh); [rewrite Eq; set_solver |].
      exists w, rq. split_and!; [done | |].
      + intros Hp. destruct (li_wait _ Hi _ _ Hw Hp) as [Ha | (rk' & Hk & _ & [Ho | Hne])]; [done | by rewrite Hidle in Ho |].
        rewrite Forall_forall in Hh. by apply Hh in Hk.
      + eapply Forall_impl; [exact Hh |]. intros rk' E. cbn. apply is_head_spec in E. rewrite E. apply orb_true_r.
    - apply not_Exists_Forall in Hq; [| apply _]. exists w0, rq0. split_and!; [done | |].
      + intros Hp. destruct Hf as (rank & bound & Hff). destruct (ff_parked _ _ _ _ Hff _ _ Hw0 Hp) as [rk Hrk].
        destruct (li_queued _ Hi _ _ Hrk) as (rq' & Hrq' & Hk). assert (rq' = rq0) as -> by congruence.
        rewrite Forall_forall in Hq. specialize (Hq rk Hk). cbn in Hq. apply dec_stable in Hq. rewrite Hq in Hrk. set_solver.
      + eapply Forall_impl; [exact Hq |]. intros rk Hq'. cbn in Hq'. apply dec_stable in Hq'. by rewrite Hq'. }
  destruct (serves_one m w rq Hr Hidle Hw Ha Hg) as (m1 & (evs & Hev & Erun & Hr1) & Hidle1 & Ew).
  destruct (IH m1) as (evs' & m' & Hev' & Erun' & Hempty & Hidle'); [| done | done |].
  { rewrite Ew, map_size_delete, Hw. cbn. lia. }
  exists (evs ++ evs'), m'. split_and!; [by apply Forall_app_2 | | done | done]. by rewrite (lock_run_app _ _ _ _ Erun).
Qed.

(** Reachability and idleness, evaluated. *)
Fixpoint patient_run (evs : list lock_event) (m : XLockMgr) : bool :=
  match evs with
  | [] => true
  | ev :: evs => bool_decide (patient m ev) && match lock_step ev m with Some m => patient_run evs m | None => false end
  end.

Lemma patient_run_reach evs m :
  lock_reach m -> patient_run evs m = true -> exists m', lock_run evs m = Some m' /\ lock_reach m'.
Proof.
  revert m. induction evs as [| ev evs IH]; intros m Hr; cbn [patient_run lock_run]; [by exists m |].
  intros [Hp He]%andb_true_iff. apply bool_decide_eq_true in Hp.
  destruct (lock_step ev m) as [m1 |] eqn:E; [| done]. apply IH; [| done]. by eapply reach_step.
Qed.

Lemma state_after_reach evs : patient_run evs XLockMgr_new = true -> lock_reach (state_after evs).
Proof.
  intros H. destruct (patient_run_reach _ _ reach_new H) as (m & E & Hr). unfold state_after. by rewrite E.
Qed.

Definition unowned (t : gmap PhysicalRelationId (gmap (list byte) KeyLockEntry)) : Prop :=
  map_Forall (fun _ map => map_Forall (fun _ e => kl_owner e = None) map) t.

Lemma unowned_idle m : bool_decide (unowned (ls_tables (xm_lock m))) = true -> idle m.
Proof.
  intros H%bool_decide_eq_true rk. unfold owner_at, view, entry_at.
  destruct (ls_tables (xm_lock m) !! rk.1) as [map |] eqn:Em; [| done]. cbn [mbind option_bind].
  destruct (map !! rk.2) as [e |] eqn:Ee; [| done]. exact (H _ _ Em _ _ Ee).
Qed.

Lemma all_waiters_served_witness :
  exists evs m', Forall serving evs /\ lock_run evs (state_after demo_wait) = Some m' /\ xm_waiters m' = ∅ /\ idle m'.
Proof.
  apply all_waiters_served.
  - apply state_after_reach. vm_compute. reflexivity.
  - apply unowned_idle. vm_compute. reflexivity.
Defined.

(** Two statements can wait for each other.  Transactions that took a key
    each in an earlier statement and now wait for the key of the other are
    parked with no wakeup under way, although the documentation of
    [lock_some] excludes such a cycle: only their time-outs end it. *)
Theorem statement_locks_can_cycle :
  let m := state_after [EvTry 0 1 [demo_key x01]; EvTry 0 2 [demo_key x02];
                        EvTry 0 1 [demo_key x02]; EvRegister 1 [demo_key x02]; EvAttempt 0 0;
                        EvTry 0 2 [demo_key x01]; EvRegister 2 [demo_key x01]; EvAttempt 0 1] in
  holder (xm_lock m) (demo_key x01) = Some 1 /\ holder (xm_lock m) (demo_key x02) = Some 2 /\
  xm_waiters m !! 0 = Some (mkRequest 1 [demo_key x02] true) /\
  xm_waiters m !! 1 = Some (mkRequest 2 [demo_key x01] true) /\
  xm_wakes m = [] /\ bool_decide (xm_signals m = ∅) = true.
Proof. split_and!; vm_compute; reflexivity. Qed.
