(* ===== verification/BTree.v ===== *)
(** * Ordered maps

    [Ord] and [BTreeMap] of the standard library, for the maps that the code
    iterates over in key order: a map is the list of its entries, sorted by
    key. *)

From S2P Require Import Prelude.

(** ** Orders *)

Class Ord (K : Type) := ord_cmp : K -> K -> comparison.

Class OrdOk (K : Type) `{Ord K} : Prop := {
  ord_cmp_eq : forall a b, ord_cmp a b = Eq <-> a = b;
  ord_cmp_sym : forall a b, ord_cmp b a = CompOpp (ord_cmp a b);
  ord_cmp_trans : forall a b c, ord_cmp a b = Lt -> ord_cmp b c = Lt -> ord_cmp a c = Lt;
}.

Lemma ord_cmp_refl `{OrdOk K} a : ord_cmp a a = Eq.
Proof. by apply ord_cmp_eq. Qed.

Lemma ord_cmp_gt `{OrdOk K} a b : ord_cmp a b = Gt <-> ord_cmp b a = Lt.
Proof. rewrite (ord_cmp_sym a b). by destruct (ord_cmp a b). Qed.

Definition ord_lt `{Ord K} (a b : K) : bool := match ord_cmp a b with Lt => true | _ => false end.
Definition ord_le `{Ord K} (a b : K) : bool := match ord_cmp a b with Gt => false | _ => true end.

#[export] Instance z_ord : Ord Z := Z.compare.
#[export] Instance z_ord_ok : OrdOk Z.
Proof.
  split; unfold ord_cmp, z_ord.
  - apply Z.compare_eq_iff.
  - intros a b. apply Z.compare_antisym.
  - intros a b c. rewrite !Z.compare_lt_iff. lia.
Qed.

(** Derived orders compare field by field. *)
Definition pair_cmp `{Ord A, Ord B} (p q : A * B) : comparison :=
  match ord_cmp p.1 q.1 with Eq => ord_cmp p.2 q.2 | c => c end.

#[export] Instance prod_ord `{Ord A, Ord B} : Ord (A * B) := pair_cmp.

#[export] Instance prod_ord_ok `{OrdOk A, OrdOk B} : OrdOk (A * B).
Proof.
  split; unfold ord_cmp, prod_ord; unfold pair_cmp.
  - intros [a b] [a' b']. cbn [fst snd]. destruct (ord_cmp a a') eqn:E.
    + apply ord_cmp_eq in E as ->. rewrite ord_cmp_eq. naive_solver.
    + split; [done |]. intros [= -> ->]. by rewrite ord_cmp_refl in E.
    + split; [done |]. intros [= -> ->]. by rewrite ord_cmp_refl in E.
  - intros [a b] [a' b']. cbn [fst snd]. rewrite (ord_cmp_sym a a').
    destruct (ord_cmp a a'); cbn; [apply ord_cmp_sym | done | done].
  - intros [a b] [a' b'] [a'' b'']. cbn [fst snd].
    destruct (ord_cmp a a') eqn:E1; [apply ord_cmp_eq in E1 as -> | | done].
    + destruct (ord_cmp a' a''); [apply ord_cmp_trans | done | done].
    + intros _. destruct (ord_cmp a' a'') eqn:E2; [apply ord_cmp_eq in E2 as <-; by rewrite E1 | | done].
      by rewrite (ord_cmp_trans _ _ _ E1 E2).
Qed.

(** Slices are compared lexicographically. *)
Fixpoint slice_cmp {A} `{Ord A} (l1 l2 : list A) : comparison :=
  match l1, l2 with
  | [], [] => Eq
  | [], _ :: _ => Lt
  | _ :: _, [] => Gt
  | x :: l1, y :: l2 => match ord_cmp x y with Eq => slice_cmp l1 l2 | c => c end
  end.

#[export] Instance list_ord `{Ord A} : Ord (list A) := slice_cmp.

#[export] Instance list_ord_ok `{OrdOk A} : OrdOk (list A).
Proof.
  split; unfold ord_cmp, list_ord.
  - intros l1. induction l1 as [| x l1 IH]; intros [| y l2]; cbn; [done | done | done |].
    destruct (ord_cmp x y) eqn:E.
    + apply ord_cmp_eq in E as ->. rewrite IH. split; congruence.
    + split; [done |]. intros [= -> ->]. by rewrite ord_cmp_refl in E.
    + split; [done |]. intros [= -> ->]. by rewrite ord_cmp_refl in E.
  - intros l1. induction l1 as [| x l1 IH]; intros [| y l2]; cbn; [done | done | done |].
    rewrite (ord_cmp_sym x y). by destruct (ord_cmp x y); cbn.
  - intros l1. induction l1 as [| x l1 IH]; intros [| y l2] [| z l3]; cbn; try done.
    destruct (ord_cmp x y) eqn:E1; [apply ord_cmp_eq in E1 as -> | | done].
    + destruct (ord_cmp y z); [apply IH | done | done].
    + intros _. destruct (ord_cmp y z) eqn:E2; [apply ord_cmp_eq in E2 as <-; by rewrite E1 | | done].
      by rewrite (ord_cmp_trans _ _ _ E1 E2).
Qed.

#[export] Instance byte_ord : Ord byte := fun a b => N.compare (Byte.to_N a) (Byte.to_N b).
#[export] Instance byte_ord_ok : OrdOk byte.
Proof.
  split; unfold ord_cmp, byte_ord.
  - intros a b. rewrite N.compare_eq_iff. split; [| by intros ->]. intros E.
    apply (f_equal Byte.of_N) in E. rewrite !Byte.of_to_N in E. congruence.
  - intros a b. apply N.compare_antisym.
  - intros a b c. rewrite !N.compare_lt_iff. lia.
Qed.

(** ** Maps *)

Definition BTreeMap (K V : Type) : Type := list (K * V).

Definition bt_wf `{Ord K} {V} (m : BTreeMap K V) : Prop := StronglySorted (fun a b => ord_cmp a.1 b.1 = Lt) m.

Fixpoint bt_get `{Ord K} {V} (k : K) (m : BTreeMap K V) : option V :=
  match m with
  | [] => None
  | (k', v) :: m => match ord_cmp k k' with Eq => Some v | Lt => None | Gt => bt_get k m end
  end.

Fixpoint bt_insert `{Ord K} {V} (k : K) (v : V) (m : BTreeMap K V) : BTreeMap K V :=
  match m with
  | [] => [(k, v)]
  | (k', v') :: m' =>
      match ord_cmp k k' with
      | Eq => (k, v) :: m'
      | Lt => (k, v) :: m
      | Gt => (k', v') :: bt_insert k v m'
      end
  end.

(** Applying [f] to [entry(k).or_insert(d)]. *)
Definition bt_entry `{Ord K} {V} (k : K) (d : V) (f : V -> V) (m : BTreeMap K V) : BTreeMap K V :=
  bt_insert k (f (default d (bt_get k m))) m.

Section BTreeMap.
Context `{OrdOk K} {V : Type}.
Implicit Types m : BTreeMap K V.

Lemma bt_wf_cons k v m :
  bt_wf ((k, v) :: m) <-> bt_wf m /\ Forall (fun p => ord_cmp k p.1 = Lt) m.
Proof. split; [apply StronglySorted_inv | intros []; by constructor]. Qed.

Lemma bt_get_lt k m : Forall (fun p => ord_cmp k p.1 = Lt) m -> bt_get k m = None.
Proof. destruct m as [| [k' v] m]; cbn; [done |]. intros Hk%Forall_inv. cbn in Hk. by rewrite Hk. Qed.

Lemma bt_get_elem k v m : bt_wf m -> bt_get k m = Some v <-> (k, v) ∈ m.
Proof.
  induction m as [| [k' v'] m IH]; [set_solver |]. rewrite bt_wf_cons. intros [Hm Hk]. cbn [bt_get].
  rewrite elem_of_cons. destruct (ord_cmp k k') eqn:E.
  - apply ord_cmp_eq in E as ->. split; [intros [= ->]; by left |]. intros [[= ->] | Hin]; [done |].
    rewrite Forall_forall in Hk. apply Hk in Hin. cbn in Hin. by rewrite ord_cmp_refl in Hin.
  - split; [done |]. intros [[= -> ->] | Hin]; [by rewrite ord_cmp_refl in E |].
    rewrite Forall_forall in Hk. apply Hk in Hin. cbn in Hin.
    pose proof (ord_cmp_trans _ _ _ E Hin) as E2. by rewrite ord_cmp_refl in E2.
  - rewrite (IH Hm). split; [by right |]. intros [[= -> ->] | Hin]; [by rewrite ord_cmp_refl in E | done].
Qed.

Lemma bt_get_insert k v m j :
  bt_wf m -> bt_get j (bt_insert k v m) = match ord_cmp j k with Eq => Some v | _ => bt_get j m end.
Proof.
  induction m as [| [k' v'] m IH]; intros Hm; cbn [bt_insert bt_get].
  { by destruct (ord_cmp j k). }
  apply bt_wf_cons in Hm as [Hm Hk].
  destruct (ord_cmp k k') eqn:E; cbn [bt_get].
  - apply ord_cmp_eq in E as ->. by destruct (ord_cmp j k').
  - destruct (ord_cmp j k) eqn:Ej; [done | | done]. by rewrite (ord_cmp_trans _ _ _ Ej E).
  - destruct (ord_cmp j k') eqn:Ej.
    + apply ord_cmp_eq in Ej as ->. apply ord_cmp_gt in E. by rewrite E.
    + apply ord_cmp_gt in E. by rewrite (ord_cmp_trans _ _ _ Ej E).
    + by apply IH.
Qed.

Lemma bt_insert_elem k v m p :
  p ∈ bt_insert k v m -> p = (k, v) \/ p ∈ m.
Proof.
  induction m as [| [k' v'] m IH]; cbn [bt_insert]; [set_solver |].
  destruct (ord_cmp k k'); set_solver.
Qed.

Lemma bt_insert_wf k v m : bt_wf m -> bt_wf (bt_insert k v m).
Proof.
  induction m as [| [k' v'] m IH]; intros Hm; cbn [bt_insert].
  { constructor; constructor. }
  pose proof Hm as [Hm' Hk]%bt_wf_cons. destruct (ord_cmp k k') eqn:E.
  - apply ord_cmp_eq in E as ->. by apply bt_wf_cons.
  - apply bt_wf_cons. split; [done |]. constructor; [done |]. eapply Forall_impl; [exact Hk |].
    intros p. by apply ord_cmp_trans.
  - apply bt_wf_cons. split; [by apply IH |]. rewrite Forall_forall in Hk |- *.
    intros p [-> | Hp]%bt_insert_elem; [by apply ord_cmp_gt in E | by apply Hk].
Qed.

Lemma bt_get_insert_eq k v m : bt_wf m -> bt_get k (bt_insert k v m) = Some v.
Proof. intros Hm. by rewrite bt_get_insert, ord_cmp_refl. Qed.

Lemma bt_get_insert_ne k v m j : bt_wf m -> j <> k -> bt_get j (bt_insert k v m) = bt_get j m.
Proof.
  intros Hm Hne. rewrite bt_get_insert by done. destruct (ord_cmp j k) eqn:E; [| done | done].
  by apply ord_cmp_eq in E.
Qed.

(** Two maps with the same entries are equal. *)
Lemma bt_ext m1 m2 : bt_wf m1 -> bt_wf m2 -> (forall k, bt_get k m1 = bt_get k m2) -> m1 = m2.
Proof.
  revert m2. induction m1 as [| [k1 v1] m1 IH]; intros [| [k2 v2] m2] W1 W2 E; [done | | |].
  - specialize (E k2). cbn in E. by rewrite ord_cmp_refl in E.
  - specialize (E k1). cbn in E. by rewrite ord_cmp_refl in E.
  - pose proof W1 as [W1' H1]%bt_wf_cons. pose proof W2 as [W2' H2]%bt_wf_cons.
    assert (k1 = k2 /\ v1 = v2) as [-> ->].
    { pose proof (E k1) as E1. pose proof (E k2) as E2. cbn [bt_get] in E1, E2. rewrite ord_cmp_refl in E1, E2.
      destruct (ord_cmp k1 k2) eqn:Ec; [| done |].
      - apply ord_cmp_eq in Ec. naive_solver.
      - apply ord_cmp_gt in Ec. by rewrite Ec in E2. }
    f_equal. apply IH; [done | done |]. intros k. specialize (E k). cbn [bt_get] in E.
    destruct (ord_cmp k k2) eqn:Ec; [| | done].
    + apply ord_cmp_eq in Ec as ->. by rewrite !bt_get_lt.
    + rewrite !bt_get_lt; [done | |]; (eapply Forall_impl; [eassumption |]); intros p; by apply ord_cmp_trans.
Qed.

Lemma bt_wf_nil : bt_wf ([] : BTreeMap K V).
Proof. constructor. Qed.

Lemma bt_wf_keys m : bt_wf m -> NoDup m.*1.
Proof.
  induction m as [| [k v] m IH]; [constructor |]. rewrite bt_wf_cons. intros [Hm Hk]. cbn. constructor; [| by apply IH].
  intros ([k' v'] & -> & Hin)%list_elem_of_fmap. rewrite Forall_forall in Hk. apply Hk in Hin. cbn in Hin.
  by rewrite ord_cmp_refl in Hin.
Qed.

Lemma bt_insert_new k v m : bt_get k m = None -> bt_wf m -> bt_insert k v m ≡ₚ (k, v) :: m.
Proof.
  induction m as [| [k' v'] m IH]; cbn [bt_get bt_insert]; [done |]. intros Hk [Hm _]%bt_wf_cons.
  destruct (ord_cmp k k'); [done | done |]. rewrite IH by done. apply perm_swap.
Qed.

Lemma bt_insert_old k v0 m :
  bt_get k m = Some v0 -> exists r, m ≡ₚ (k, v0) :: r /\ forall v, bt_insert k v m ≡ₚ (k, v) :: r.
Proof.
  induction m as [| [k' v'] m IH]; cbn [bt_get bt_insert]; [done |].
  destruct (ord_cmp k k') eqn:E; [| done |].
  - apply ord_cmp_eq in E as ->. intros [= ->]. by exists m.
  - intros Hk. destruct (IH Hk) as (r & Hr & Hi). exists ((k', v') :: r). split.
    + rewrite Hr. apply perm_swap.
    + intros v. rewrite Hi. apply perm_swap.
Qed.

Lemma bt_filter_wf (f : K * V -> bool) m : bt_wf m -> bt_wf (List.filter f m).
Proof.
  induction 1 as [| p m Hm IH Hp]; cbn [List.filter]; [constructor |]. destruct (f p); [| exact IH].
  constructor; [exact IH |]. rewrite Forall_forall in Hp |- *. intros x Hx%list_elem_of_In.
  apply filter_In in Hx as [Hx _]. by apply Hp, list_elem_of_In.
Qed.

(** A map extended by the entries of another one. *)
Lemma bt_extend_wf (l : list (K * V)) m : bt_wf m -> bt_wf (foldl (fun m p => bt_insert p.1 p.2 m) m l).
Proof. revert m. induction l as [| p l IH]; intros m Hm; [done |]. cbn [foldl]. by apply IH, bt_insert_wf. Qed.

Lemma bt_get_extend (l : list (K * V)) m k :
  bt_wf m -> bt_wf l ->
  bt_get k (foldl (fun m p => bt_insert p.1 p.2 m) m l) = match bt_get k l with Some v => Some v | None => bt_get k m end.
Proof.
  revert m. induction l as [| [k' v'] l IH]; intros m Hm Hl; [done |]. pose proof Hl as [Hl' Hk]%bt_wf_cons. cbn [foldl fst snd].
  rewrite IH by auto using bt_insert_wf. cbn [bt_get]. destruct (ord_cmp k k') eqn:E.
  - apply ord_cmp_eq in E as ->. rewrite bt_get_insert_eq by done. by rewrite (bt_get_lt k' l).
  - rewrite bt_get_lt; [| eapply Forall_impl; [exact Hk |]; intros p; by apply ord_cmp_trans].
    apply bt_get_insert_ne; [done |]. intros ->. by rewrite ord_cmp_refl in E.
  - rewrite bt_get_insert_ne; [done | done |]. intros ->. by rewrite ord_cmp_refl in E.
Qed.
End BTreeMap.

(** Entries mapped or dropped, with their keys. *)
Lemma bt_omap_wf `{OrdOk K} {V W} (f : V -> option W) (m : BTreeMap K V) :
  bt_wf m -> bt_wf (omap (fun p : K * V => option_map (pair p.1) (f p.2)) m : BTreeMap K W).
Proof.
  induction 1 as [| p m Hm IH Hp]; cbn [omap list_omap]; [constructor |]. destruct (f p.2) as [w |]; [| exact IH]. cbn [option_map].
  constructor; [exact IH |]. rewrite Forall_forall in Hp. apply Forall_forall. intros q Hq. apply list_elem_of_omap in Hq as (x & Hx & E).
  destruct (f x.2); [| done]. injection E as <-. cbn. by apply Hp.
Qed.

Create HintDb btree.
#[export] Hint Resolve bt_insert_wf bt_wf_nil : btree.
