(* ===== verification/TxState.v ===== *)
(** * The write set of a transaction

    What a transaction stages before it commits and what it writes to the
    log: [wal/xl_data_op.rs], [wal/xl_entry.rs], [wal/xl_batch.rs],
    [server/worker_tx_manager.rs], and the delta assignments of
    [x_engine/api.rs] with their encoding in [server/x_contract/utils.rs]. *)

From S2P Require Import Prelude Errors LogFrame PlCodec Snapshots XLocks BTree.

(** ** Logical log entries *)

Record XLInsert : Type := mkXLInsert {
  xi_table_id : Z;
  xi_partition_id : Z;
  xi_tuple_id : Z;
  xi_key : list byte;
  xi_value : list byte;
}.

Record XLDelete : Type := mkXLDelete {
  xd_table_id : Z;
  xd_partition_id : Z;
  xd_tuple_id : Z;
  xd_key : list byte;
}.

Record XLUpdate : Type := mkXLUpdate {
  xu_table_id : Z;
  xu_partition_id : Z;
  xu_tuple_id : Z;
  xu_key : list byte;
  xu_delta : list byte;
}.

Inductive XLWrite : Type :=
| WInsert (i : XLInsert)
| WUpdate (u : XLUpdate)
| WDelete (d : XLDelete).

Definition xl_write_table_id (w : XLWrite) : Z :=
  match w with WInsert i => xi_table_id i | WUpdate u => xu_table_id u | WDelete d => xd_table_id d end.

Definition xl_write_partition_id (w : XLWrite) : Z :=
  match w with WInsert i => xi_partition_id i | WUpdate u => xu_partition_id u | WDelete d => xd_partition_id d end.

Inductive TxOp : Type :=
| TxBegin
| TxCommit
| TxAbort
| TxWrite (w : XLWrite).

Definition tx_op_table_id (op : TxOp) : option Z :=
  match op with TxWrite w => Some (xl_write_table_id w) | _ => None end.

Definition tx_op_partition_id (op : TxOp) : option Z :=
  match op with TxWrite w => Some (xl_write_partition_id w) | _ => None end.

Record XLEntry : Type := mkXLEntry {
  xe_xid : Z;
  xe_ops : list TxOp;
}.

Definition XLBatch : Type := list XLEntry.

(** ** Delta assignments *)

Inductive DeltaOp : Type := DAdd | DSub | DAddDeferred | DSubDeferred | DSubWrapDeferred.

Definition is_deferred (op : DeltaOp) : bool :=
  match op with DAddDeferred | DSubDeferred | DSubWrapDeferred => true | _ => false end.

Definition op_code (op : DeltaOp) : Z :=
  match op with DAdd => 0 | DSub => 1 | DAddDeferred => 2 | DSubDeferred => 3 | DSubWrapDeferred => 4 end.

Definition from_op_code (op : Z) : Res ErrorCode DeltaOp :=
  match op with
  | 0 => Ok DAdd
  | 1 => Ok DSub
  | 2 => Ok DAddDeferred
  | 3 => Ok DSubDeferred
  | 4 => Ok DSubWrapDeferred
  | _ => Err Decode
  end.

Record DeltaAssign : Type := mkDeltaAssign {
  da_attr : Z;
  da_op : DeltaOp;
  da_literal : list byte;
}.

(** What [rmp_serde] writes of a list of assignments. *)
Definition DeltaWire : Type := list (Z * Z * list byte).

Section Deltas.
Context `{Msgpack DeltaWire}.

Definition encode_delta_assigns (deltas : list DeltaAssign) : Res ErrorCode (list byte) :=
  match to_vec (L := DeltaWire) ((fun a => (da_attr a, op_code (da_op a), da_literal a)) <$> deltas) with
  | Some bs => Ok bs
  | None => Err Encode
  end.

Definition decode_delta_assigns (delta : list byte) : Res ErrorCode (list DeltaAssign) :=
  match from_slice (L := DeltaWire) delta with
  | Some wire => mapM (fun '(attr, op, literal) => o ← from_op_code op; Ok (mkDeltaAssign attr o literal)) wire
  | None => Err Decode
  end.
End Deltas.

(** ** server/worker_tx_manager.rs *)

Definition relation_key_ord (r : PhysicalRelationId) : Z * Z := (table_id r, partition_id r).

#[export] Instance physical_relation_id_ord : Ord PhysicalRelationId :=
  fun a b => ord_cmp (relation_key_ord a) (relation_key_ord b).

#[export] Instance physical_relation_id_ord_ok : OrdOk PhysicalRelationId.
Proof.
  split; unfold ord_cmp at 1, physical_relation_id_ord.
  - intros a b. rewrite (ord_cmp_eq (relation_key_ord a)). destruct a, b. unfold relation_key_ord. cbn. naive_solver.
  - intros a b. apply (ord_cmp_sym (relation_key_ord a)).
  - intros a b c. apply (ord_cmp_trans (relation_key_ord a)).
Qed.

(** A staged row: its new value, or a deletion. *)
Definition Rows : Type := BTreeMap (list byte) (option (list byte)).

Record WorkerTxState : Type := mkWorkerTxState {
  tx_kv_write : Rows;
  tx_relation_ops : BTreeMap PhysicalRelationId Rows;
  tx_deferred_deltas : BTreeMap LockKey (list DeltaAssign);
  tx_write_ops : list LockKey;
  tx_log_buffer : list TxOp;
  tx_kv_log_index : BTreeMap (list byte) nat;
  tx_relation_log_index : BTreeMap LockKey nat;
  tx_statement_lock_keys : BTreeMap LockKey unit;
  tx_remote_lock_owners : BTreeMap Z unit;
}.

Definition WorkerTxState_new : WorkerTxState := mkWorkerTxState [] [] [] [] [] [] [] [] [].

Record WorkerTxManager : Type := mkWorkerTxManager {
  tm_snapshot : WorkerSnapshot;
  tm_state : WorkerTxState;
}.

Definition WorkerTxManager_new (snapshot : WorkerSnapshot) : WorkerTxManager :=
  mkWorkerTxManager snapshot WorkerTxState_new.

Definition tx_xid (t : WorkerTxManager) : Z := ws_xid (tm_snapshot t).

(** The log buffer with the operation of a key: in its place when the key was
    written before, at the end otherwise. *)
Definition log_op {K} `{Ord K} (key : K) (op : TxOp) (index : BTreeMap K nat) (log : list TxOp)
    : Res ErrorCode (BTreeMap K nat * list TxOp) :=
  match bt_get key index with
  | Some idx => if (idx <? length log)%nat then Ok (index, <[idx := op]> log) else Panic
  | None => Ok (bt_insert key (length log) index, log ++ [op])
  end.

Definition state_kv_write (key : list byte) (opt_value : option (list byte)) (op : TxOp)
    : ST ErrorCode WorkerTxState unit :=
  s ← st_get;
  '(index, log) ← st_lift (log_op key op (tx_kv_log_index s) (tx_log_buffer s));
  st_put (mkWorkerTxState (bt_insert key opt_value (tx_kv_write s)) (tx_relation_ops s) (tx_deferred_deltas s)
    (tx_write_ops s) log index (tx_relation_log_index s) (tx_statement_lock_keys s) (tx_remote_lock_owners s)).

Definition stage_rel_write (key : LockKey) (opt_value : option (list byte)) (op : TxOp)
    : ST ErrorCode WorkerTxState unit :=
  s ← st_get;
  '(index, log) ← st_lift (log_op key op (tx_relation_log_index s) (tx_log_buffer s));
  st_put (mkWorkerTxState (tx_kv_write s) (bt_entry (V := Rows) key.1 [] (bt_insert key.2 opt_value) (tx_relation_ops s))
    (tx_deferred_deltas s) (tx_write_ops s) log (tx_kv_log_index s) index (tx_statement_lock_keys s)
    (tx_remote_lock_owners s)).

Definition tx_put (key value : list byte) : ST ErrorCode WorkerTxState unit :=
  state_kv_write key (Some value) (TxWrite (WInsert (mkXLInsert 0 0 0 key value))).

Definition tx_delete (key : list byte) : ST ErrorCode WorkerTxState unit :=
  state_kv_write key None (TxWrite (WDelete (mkXLDelete 0 0 0 key))).

Definition tx_get (key : list byte) (s : WorkerTxState) : option (option (list byte)) :=
  bt_get key (tx_kv_write s).

Definition put_relation (relation_id : PhysicalRelationId) (key value : list byte) : ST ErrorCode WorkerTxState unit :=
  stage_rel_write (relation_id, key) (Some value)
    (TxWrite (WInsert (mkXLInsert (table_id relation_id) (partition_id relation_id) 0 key value))).

Definition delete_relation (relation_id : PhysicalRelationId) (key : list byte) : ST ErrorCode WorkerTxState unit :=
  stage_rel_write (relation_id, key) None
    (TxWrite (WDelete (mkXLDelete (table_id relation_id) (partition_id relation_id) 0 key))).

Definition get_relation (relation_id : PhysicalRelationId) (key : list byte) (s : WorkerTxState)
    : option (option (list byte)) :=
  bt_get relation_id (tx_relation_ops s) ≫= bt_get key.

Definition is_key_in_range (key start_key end_key : list byte) : bool :=
  ord_le start_key key && (bool_decide (end_key = []) || ord_lt key end_key).

Definition staged_relation_items_in_range (relation_id : PhysicalRelationId) (start_key end_key : list byte)
    (s : WorkerTxState) : Rows :=
  match bt_get relation_id (tx_relation_ops s) with
  | Some rows => List.filter (fun p => is_key_in_range p.1 start_key end_key) rows
  | None => []
  end.

Definition staged_items_in_range (start_key end_key : list byte) (s : WorkerTxState) : Rows :=
  List.filter (fun p => is_key_in_range p.1 start_key end_key) (tx_kv_write s).

(** One log record per staging call. *)
Definition put_relation_deferred_deltas `{Msgpack DeltaWire} (relation_id : PhysicalRelationId) (key : list byte)
    (deltas : list DeltaAssign) : ST ErrorCode WorkerTxState unit :=
  if bool_decide (length deltas = 0%nat) then mret tt else
  s ← st_get;
  encoded ← st_lift (encode_delta_assigns deltas);
  st_put (mkWorkerTxState (tx_kv_write s) (tx_relation_ops s)
    (bt_entry (relation_id, key) [] (fun ds => ds ++ deltas) (tx_deferred_deltas s))
    (tx_write_ops s)
    (tx_log_buffer s ++
      [TxWrite (WUpdate (mkXLUpdate (table_id relation_id) (partition_id relation_id) 0 key encoded))])
    (tx_kv_log_index s) (tx_relation_log_index s) (tx_statement_lock_keys s) (tx_remote_lock_owners s)).

Definition get_relation_deltas (relation_id : PhysicalRelationId) (key : list byte) (s : WorkerTxState)
    : option (list DeltaAssign) :=
  bt_get (relation_id, key) (tx_deferred_deltas s).

(** The deltas grouped by relation. *)
Definition staged_relation_deltas (s : WorkerTxState)
    : BTreeMap PhysicalRelationId (BTreeMap (list byte) (list DeltaAssign)) :=
  foldl (fun grouped '((relation_id, key), deltas) => bt_entry relation_id [] (bt_insert key deltas) grouped)
    [] (tx_deferred_deltas s).

Definition tx_is_empty (s : WorkerTxState) : bool :=
  bool_decide (tx_kv_write s = []) && bool_decide (tx_relation_ops s = []) &&
  bool_decide (length (tx_deferred_deltas s) = 0%nat).

Definition kv_relation : PhysicalRelationId := mkPhysicalRelationId 0 0.

Definition set_write_ops (ops : list LockKey) (s : WorkerTxState) : WorkerTxState :=
  mkWorkerTxState (tx_kv_write s) (tx_relation_ops s) (tx_deferred_deltas s) ops (tx_log_buffer s)
    (tx_kv_log_index s) (tx_relation_log_index s) (tx_statement_lock_keys s) (tx_remote_lock_owners s).

(** The keys to lock, sorted. *)
Definition build_write_ops (s : WorkerTxState) : WorkerTxState :=
  set_write_ops (sort_stable ord_le
    (((fun p : list byte * option (list byte) => (kv_relation, p.1)) <$> tx_kv_write s) ++
     (x ← tx_relation_ops s; (fun p : list byte * option (list byte) => (x.1, p.1)) <$> x.2))) s.

Definition record_statement_lock (relation : PhysicalRelationId) (key : list byte) (s : WorkerTxState) : WorkerTxState :=
  mkWorkerTxState (tx_kv_write s) (tx_relation_ops s) (tx_deferred_deltas s) (tx_write_ops s) (tx_log_buffer s)
    (tx_kv_log_index s) (tx_relation_log_index s) (bt_insert (relation, key) tt (tx_statement_lock_keys s))
    (tx_remote_lock_owners s).

Definition has_statement_lock (relation : PhysicalRelationId) (key : list byte) (s : WorkerTxState) : bool :=
  match bt_get (relation, key) (tx_statement_lock_keys s) with Some _ => true | None => false end.

Definition statement_locked_keys (s : WorkerTxState) : list LockKey := (tx_statement_lock_keys s).*1.

Definition set_remote_lock_owners (owners : BTreeMap Z unit) (s : WorkerTxState) : WorkerTxState :=
  mkWorkerTxState (tx_kv_write s) (tx_relation_ops s) (tx_deferred_deltas s) (tx_write_ops s) (tx_log_buffer s)
    (tx_kv_log_index s) (tx_relation_log_index s) (tx_statement_lock_keys s) owners.

Definition record_remote_lock_owner (worker_id : Z) (s : WorkerTxState) : WorkerTxState :=
  set_remote_lock_owners (bt_insert worker_id tt (tx_remote_lock_owners s)) s.

Definition remote_lock_owners (s : WorkerTxState) : list Z := (tx_remote_lock_owners s).*1.

Definition clear_remote_lock_owners (s : WorkerTxState) : WorkerTxState := set_remote_lock_owners [] s.

Definition xl_batch (t : WorkerTxManager) : XLBatch :=
  [mkXLEntry (tx_xid t) (TxBegin :: tx_log_buffer (tm_state t) ++ [TxCommit])].

(** ** The log entry is the write set *)

Definition write_op (rk : LockKey) (v : option (list byte)) : TxOp :=
  match v with
  | Some v => TxWrite (WInsert (mkXLInsert (table_id rk.1) (partition_id rk.1) 0 rk.2 v))
  | None => TxWrite (WDelete (mkXLDelete (table_id rk.1) (partition_id rk.1) 0 rk.2))
  end.

(** The row that a log record writes. *)
Definition op_write (op : TxOp) : option (LockKey * option (list byte)) :=
  match op with
  | TxWrite (WInsert i) => Some ((mkPhysicalRelationId (xi_table_id i) (xi_partition_id i), xi_key i), Some (xi_value i))
  | TxWrite (WDelete d) => Some ((mkPhysicalRelationId (xd_table_id d) (xd_partition_id d), xd_key d), None)
  | _ => None
  end.

Lemma op_write_write_op rk v : op_write (write_op rk v) = Some (rk, v).
Proof. by destruct rk as [[t p] k], v. Qed.

(** The rows of a relation map, with their relation. *)
Definition rel_writes (m : BTreeMap PhysicalRelationId Rows) : list (LockKey * option (list byte)) :=
  x ← m; (fun p : list byte * option (list byte) => ((x.1, p.1), p.2)) <$> x.2.

(** All rows that a transaction writes. *)
Definition staged_writes (s : WorkerTxState) : list (LockKey * option (list byte)) :=
  ((fun p : list byte * option (list byte) => ((kv_relation, p.1), p.2)) <$> tx_kv_write s) ++
  rel_writes (tx_relation_ops s).

Definition staged_at (s : WorkerTxState) (rk : LockKey) : option (option (list byte)) :=
  if decide (rk.1 = kv_relation) then tx_get rk.2 s else get_relation rk.1 rk.2 s.

Definition index_at (s : WorkerTxState) (rk : LockKey) : option nat :=
  if decide (rk.1 = kv_relation) then bt_get rk.2 (tx_kv_log_index s) else bt_get rk (tx_relation_log_index s).

(** The index points at the record of a key. *)
Definition logged (log : list TxOp) (rk : LockKey) (staged : option (option (list byte))) (index : option nat) : Prop :=
  match staged with
  | Some v => exists i, index = Some i /\ log !! i = Some (write_op rk v)
  | None => index = None
  end.

Record tx_inv (s : WorkerTxState) : Prop := mk_tx_inv {
  ti_kv_wf : bt_wf (tx_kv_write s);
  ti_rel_wf : bt_wf (tx_relation_ops s) /\ forall r rows, bt_get r (tx_relation_ops s) = Some rows -> bt_wf rows;
  ti_kv_index_wf : bt_wf (tx_kv_log_index s);
  ti_rel_index_wf : bt_wf (tx_relation_log_index s);
  ti_logged : forall rk, logged (tx_log_buffer s) rk (staged_at s rk) (index_at s rk);
  ti_real : bt_get kv_relation (tx_relation_ops s) = None;
  ti_writes : omap op_write (tx_log_buffer s) ≡ₚ staged_writes s;
}.

(** The effect of writing the record of a key. *)
Lemma log_op_ok {K} `{OrdOk K} (key : K) rk v log index staged :
  logged log rk staged (bt_get key index) -> bt_wf index ->
  exists index' log',
    log_op key (write_op rk v) index log = Ok (index', log') /\ bt_wf index' /\
    (exists i, bt_get key index' = Some i /\ log' !! i = Some (write_op rk v)) /\
    (forall k, k <> key -> bt_get k index' = bt_get k index) /\
    (forall rk' v' i, rk' <> rk -> log !! i = Some (write_op rk' v') -> log' !! i = Some (write_op rk' v')) /\
    match staged with
    | None => omap op_write log' ≡ₚ (rk, v) :: omap op_write log
    | Some v0 => exists r, omap op_write log ≡ₚ (rk, v0) :: r /\ omap op_write log' ≡ₚ (rk, v) :: r
    end /\
    (forall B (f : TxOp -> option B), (forall rk v, f (write_op rk v) = None) -> omap f log' = omap f log).
Proof.
  intros Hl Hw. unfold log_op. destruct staged as [v0 |]; cbn [logged] in Hl.
  - destruct Hl as (i & Hx & Hi). rewrite Hx. pose proof (lookup_lt_Some _ _ _ Hi) as Hlt.
    rewrite (proj2 (Nat.ltb_lt _ _) Hlt). exists index, (<[i := write_op rk v]> log). split_and!; [done | done | | done | | |].
    + exists i. split; [done |]. by apply list_lookup_insert_eq.
    + intros rk' v' j Hne Hj. rewrite list_lookup_insert_ne; [done |]. intros ->. rewrite Hi in Hj.
      injection Hj as Hj. apply (f_equal op_write) in Hj. rewrite !op_write_write_op in Hj. congruence.
    + exists (omap op_write (take i log) ++ omap op_write (drop (S i) log)).
      rewrite insert_take_drop by done. rewrite <- (take_drop_middle _ _ _ Hi) at 1.
      rewrite !omap_app. cbn. rewrite !op_write_write_op. split; symmetry; apply Permutation_middle.
    + intros B f Hf. rewrite insert_take_drop by done. rewrite <- (take_drop_middle _ _ _ Hi) at 3.
      rewrite !omap_app. cbn. by rewrite !Hf.
  - rewrite Hl. exists (bt_insert key (length log) index), (log ++ [write_op rk v]).
    split_and!; [done | by apply bt_insert_wf | | | | |].
    + exists (length log). rewrite bt_get_insert_eq by done. split; [done |]. by apply list_lookup_middle.
    + intros k Hk. by apply bt_get_insert_ne.
    + intros rk' v' i _ Hi. rewrite lookup_app_l; [done |]. by eapply lookup_lt_Some.
    + rewrite omap_app. cbn. rewrite op_write_write_op. cbn. by rewrite Permutation_app_comm.
    + intros B f Hf. rewrite omap_app. cbn. rewrite Hf. apply app_nil_r.
Qed.

Lemma kv_writes_insert (key : list byte) (v : option (list byte)) (m : Rows) rest :
  bt_wf m ->
  let f := fun p : list byte * option (list byte) => ((kv_relation, p.1), p.2) in
  match bt_get key m with
  | None => (f <$> bt_insert key v m) ++ rest ≡ₚ ((kv_relation, key), v) :: (f <$> m) ++ rest
  | Some v0 => exists r, (f <$> m) ++ rest ≡ₚ ((kv_relation, key), v0) :: r /\
                         (f <$> bt_insert key v m) ++ rest ≡ₚ ((kv_relation, key), v) :: r
  end.
Proof.
  intros Hw f. destruct (bt_get key m) as [v0 |] eqn:E.
  - destruct (bt_insert_old _ _ _ E) as (r & Hr & Hi). exists ((f <$> r) ++ rest).
    split; [exact (Permutation_app_tail rest (Permutation_map f Hr)) |
            exact (Permutation_app_tail rest (Permutation_map f (Hi v)))].
  - exact (Permutation_app_tail rest (Permutation_map f (bt_insert_new _ v _ E Hw))).
Qed.

Lemma rel_writes_cons r rows m :
  rel_writes ((r, rows) :: m) = ((fun p : list byte * option (list byte) => ((r, p.1), p.2)) <$> rows) ++ rel_writes m.
Proof. done. Qed.

Lemma rel_writes_perm m m' : m ≡ₚ m' -> rel_writes m ≡ₚ rel_writes m'.
Proof. intros Hm. unfold rel_writes. by rewrite Hm. Qed.

Lemma rel_writes_insert r key (v : option (list byte)) (m : BTreeMap PhysicalRelationId Rows) rest :
  bt_wf m -> (forall r rows, bt_get r m = Some rows -> bt_wf rows) ->
  match bt_get r m ≫= bt_get key with
  | None => rest ++ rel_writes (bt_entry (V := Rows) r [] (bt_insert key v) m) ≡ₚ ((r, key), v) :: rest ++ rel_writes m
  | Some v0 => exists l, rest ++ rel_writes m ≡ₚ ((r, key), v0) :: l /\
                         rest ++ rel_writes (bt_entry (V := Rows) r [] (bt_insert key v) m) ≡ₚ ((r, key), v) :: l
  end.
Proof.
  intros Hm Hrows. unfold bt_entry. destruct (bt_get r m) as [rows |] eqn:Er; cbn [mbind option_bind default].
  - destruct (bt_insert_old _ _ _ Er) as (m0 & Hm0 & Hi). specialize (Hi (bt_insert key v rows)).
    pose proof (rel_writes_perm _ _ Hm0) as P0. pose proof (rel_writes_perm _ _ Hi) as P1.
    rewrite rel_writes_cons in P0, P1. change (id rows) with rows. specialize (Hrows _ _ Er). destruct (bt_get key rows) as [v0 |] eqn:Ek.
    + destruct (bt_insert_old _ _ _ Ek) as (l & Hl & Hli).
      set (f := fun p : list byte * option (list byte) => ((r, p.1), p.2)) in *.
      pose proof (Permutation_map f Hl : f <$> rows ≡ₚ f <$> _) as Hl1.
      pose proof (Permutation_map f (Hli v) : f <$> _ ≡ₚ f <$> _) as Hl2.
      exists (rest ++ (f <$> l) ++ rel_writes m0). rewrite Hl1 in P0. rewrite Hl2 in P1. rewrite P0, P1. cbn. split; symmetry; apply Permutation_middle.
    + set (f := fun p : list byte * option (list byte) => ((r, p.1), p.2)) in *.
      pose proof (Permutation_map f (bt_insert_new _ v _ Ek Hrows) : f <$> _ ≡ₚ f <$> _) as Hl1.
      rewrite Hl1 in P1. rewrite P0, P1. cbn. symmetry. apply Permutation_middle.
  - rewrite (rel_writes_perm _ _ (bt_insert_new _ _ _ Er Hm)), rel_writes_cons. cbn. symmetry. apply Permutation_middle.
Qed.

Lemma get_entry_relation r key (v : option (list byte)) (m : BTreeMap PhysicalRelationId Rows) rk :
  bt_wf m -> (forall r rows, bt_get r m = Some rows -> bt_wf rows) ->
  (bt_get rk.1 (bt_entry (V := Rows) r [] (bt_insert key v) m) ≫= bt_get rk.2) =
  if decide (rk = (r, key)) then Some v else bt_get rk.1 m ≫= bt_get rk.2.
Proof.
  intros Hm Hrows. destruct rk as [r' k']. unfold bt_entry. cbn [fst snd].
  assert (bt_wf (default [] (bt_get r m) : Rows)) as Hw.
  { destruct (bt_get r m) eqn:E; [by apply (Hrows r) | constructor]. }
  destruct (decide (r' = r)) as [-> | Hr].
  - rewrite bt_get_insert_eq by done. cbn [mbind option_bind]. destruct (decide (k' = key)) as [-> | Hk].
    + by rewrite bt_get_insert_eq, decide_True by done.
    + rewrite bt_get_insert_ne, decide_False by (done || congruence). by destruct (bt_get r m).
  - by rewrite bt_get_insert_ne, decide_False by (done || congruence).
Qed.

Lemma entry_rows_wf r key (v : option (list byte)) (m : BTreeMap PhysicalRelationId Rows) :
  bt_wf m -> (forall r rows, bt_get r m = Some rows -> bt_wf rows) ->
  forall r' rows, bt_get r' (bt_entry (V := Rows) r [] (bt_insert key v) m) = Some rows -> bt_wf rows.
Proof.
  intros Hm Hrows r' rows. unfold bt_entry. destruct (decide (r' = r)) as [-> | Hr].
  - rewrite bt_get_insert_eq by done. intros [= <-]. apply bt_insert_wf.
    destruct (bt_get r m) eqn:E; [by apply (Hrows r) | constructor].
  - rewrite bt_get_insert_ne by done. apply Hrows.
Qed.

Lemma logged_after log log' (staged staged' : LockKey -> option (option (list byte))) (index index' : LockKey -> option nat)
    rk v :
  (forall rk', logged log rk' (staged rk') (index rk')) ->
  (forall rk', staged' rk' = if decide (rk' = rk) then Some v else staged rk') ->
  (exists i, index' rk = Some i /\ log' !! i = Some (write_op rk v)) ->
  (forall rk', rk' <> rk -> index' rk' = index rk') ->
  (forall rk' v' i, rk' <> rk -> log !! i = Some (write_op rk' v') -> log' !! i = Some (write_op rk' v')) ->
  forall rk', logged log' rk' (staged' rk') (index' rk').
Proof.
  intros L Hs Hi Hio Hlo rk'. rewrite Hs. case_decide as Hrk; [subst; exact Hi |].
  rewrite (Hio _ Hrk). specialize (L rk'). unfold logged in *. destruct (staged rk'); [| done].
  destruct L as (i & -> & Hl). exists i. split; [done |]. by apply Hlo.
Qed.

(** Staging a row keeps the invariant; the row is staged, and nothing else. *)
Definition staged_ok (rk : LockKey) (v : option (list byte)) (s s' : WorkerTxState) : Prop :=
  tx_inv s' /\
  (forall rk', staged_at s' rk' = if decide (rk' = rk) then Some v else staged_at s rk') /\
  tx_deferred_deltas s' = tx_deferred_deltas s /\
  (forall B (f : TxOp -> option B), (forall rk v, f (write_op rk v) = None) ->
     omap f (tx_log_buffer s') = omap f (tx_log_buffer s)).

Lemma stage_kv_ok key v s :
  tx_inv s -> exists s', state_kv_write key v (write_op (kv_relation, key) v) s = (Ok tt, s') /\
    staged_ok (kv_relation, key) v s s'.
Proof.
  intros [Wkv [Wr Wrows] Wki Wri L Hreal Hw]. pose proof (L (kv_relation, key)) as Lk.
  unfold staged_at, index_at in Lk. rewrite !decide_True in Lk by done. cbn [snd] in Lk.
  destruct (log_op_ok key _ v _ _ _ Lk Wki) as (index & log & E & Wi & Hi & Hio & Hlo & Hp & Hf).
  eexists. split; [unfold state_kv_write; st_step by reflexivity; rewrite E; reflexivity |].
  assert (forall rk', (if decide (rk'.1 = kv_relation) then bt_get rk'.2 (bt_insert key v (tx_kv_write s))
    else get_relation rk'.1 rk'.2 s) = if decide (rk' = (kv_relation, key)) then Some v else staged_at s rk') as Hst.
  { intros [r' k']. unfold staged_at, tx_get. cbn [fst snd]. destruct (decide (r' = kv_relation)) as [-> | Hr].
    - destruct (decide (k' = key)) as [-> | Hk]; [by rewrite bt_get_insert_eq, decide_True |].
      by rewrite bt_get_insert_ne, decide_False by (done || congruence).
    - by rewrite decide_False by congruence. }
  split; [| split_and!; [exact Hst | done | exact Hf]].
  split; cbn [tx_kv_write tx_relation_ops tx_kv_log_index tx_relation_log_index tx_log_buffer];
    [by apply bt_insert_wf | done | done | done | | done |].
  - apply (logged_after (tx_log_buffer s) _ (staged_at s) _ (index_at s) _ (kv_relation, key) v L); [exact Hst | | | done].
    + unfold index_at. rewrite decide_True by done. exact Hi.
    + intros [r' k'] Hne. unfold index_at. cbn [fst snd tx_kv_log_index tx_relation_log_index]. case_decide; [| done].
      apply Hio. congruence.
  - unfold staged_writes. cbn [tx_kv_write tx_relation_ops].
    pose proof (kv_writes_insert key v (tx_kv_write s) (rel_writes (tx_relation_ops s)) Wkv) as Hk. cbv zeta in Hk.
    unfold tx_get in Hp. destruct (bt_get key (tx_kv_write s)).
    + destruct Hk as (r & H1 & H2), Hp as (r' & H3 & H4). rewrite H4, H2. apply Permutation_cons; [done |].
      apply (Permutation_cons_inv (a := (kv_relation, key, o))). rewrite <- H3, Hw. exact H1.
    + rewrite Hp, Hk, Hw. done.
Qed.

Lemma stage_rel_ok rk v s :
  rk.1 <> kv_relation -> tx_inv s ->
  exists s', stage_rel_write rk v (write_op rk v) s = (Ok tt, s') /\ staged_ok rk v s s'.
Proof.
  intros Hnz [Wkv [Wr Wrows] Wki Wri L Hreal Hw]. pose proof (L rk) as Lk.
  unfold staged_at, index_at in Lk. rewrite !decide_False in Lk by done.
  destruct (log_op_ok (K := LockKey) rk _ v _ _ _ Lk Wri) as (index & log & E & Wi & Hi & Hio & Hlo & Hp & Hf).
  eexists. split; [unfold stage_rel_write; st_step by reflexivity; rewrite E; reflexivity |].
  pose proof (get_entry_relation rk.1 rk.2 v (tx_relation_ops s)) as Hget. rewrite <- surjective_pairing in Hget.
  assert (forall rk', (if decide (rk'.1 = kv_relation) then bt_get rk'.2 (tx_kv_write s)
    else bt_get rk'.1 (bt_entry (V := Rows) rk.1 [] (bt_insert rk.2 v) (tx_relation_ops s)) ≫= bt_get rk'.2) =
    if decide (rk' = rk) then Some v else staged_at s rk') as Hst.
  { intros rk'. unfold staged_at, tx_get. case_decide as Hr; [| by apply Hget].
    rewrite decide_False by congruence. done. }
  split; [| split_and!; [exact Hst | done | exact Hf]].
  split; cbn [tx_kv_write tx_relation_ops tx_kv_log_index tx_relation_log_index tx_log_buffer];
    [done | split; [by apply bt_insert_wf | by apply entry_rows_wf] | done | done | | |].
  - apply (logged_after (tx_log_buffer s) _ (staged_at s) _ (index_at s) _ rk v L); [exact Hst | | | done].
    + unfold index_at. rewrite decide_False by done. exact Hi.
    + intros rk' Hne. unfold index_at. cbn [tx_kv_log_index tx_relation_log_index]. case_decide; [done |]. by apply Hio.
  - unfold bt_entry. by rewrite bt_get_insert_ne by done.
  - unfold staged_writes. cbn [tx_kv_write tx_relation_ops].
    match goal with |- _ ≡ₚ ?l ++ _ => pose proof (rel_writes_insert rk.1 rk.2 v (tx_relation_ops s) l Wr Wrows) as Hk end.
    rewrite <- surjective_pairing in Hk. unfold get_relation in Hp.
    destruct (bt_get rk.1 (tx_relation_ops s) ≫= bt_get rk.2).
    + destruct Hk as (r & H1 & H2), Hp as (r' & H3 & H4). rewrite H4, H2. apply Permutation_cons; [done |].
      apply (Permutation_cons_inv (a := (rk, o))). rewrite <- H3, Hw. exact H1.
    + rewrite Hp, Hk, Hw. done.
Qed.

(** ** Whole transactions *)

Lemma staged_elem s rk v : tx_inv s -> (rk, v) ∈ staged_writes s <-> staged_at s rk = Some v.
Proof.
  intros [Wkv [Wr Wrows] _ _ _ Hreal _]. unfold staged_writes, staged_at, tx_get, get_relation.
  rewrite elem_of_app. destruct rk as [r k]. cbn [fst snd].
  assert ((r, k, v) ∈ rel_writes (tx_relation_ops s) <-> bt_get r (tx_relation_ops s) ≫= bt_get k = Some v) as Hrel.
  { unfold rel_writes. rewrite list_elem_of_bind. setoid_rewrite list_elem_of_fmap. split.
    - intros ([r' rows] & (p & Hp & Hin) & Hm). cbn in Hp. injection Hp as -> -> ->.
      apply (bt_get_elem (V := Rows)) in Hm; [| done]. rewrite Hm. cbn. apply bt_get_elem; [by eapply Wrows |].
      by rewrite <- surjective_pairing.
    - destruct (bt_get r (tx_relation_ops s)) as [rows |] eqn:E; [| done]. cbn. intros Hk.
      apply bt_get_elem in Hk; [| by eapply Wrows]. exists (r, rows). split; [by exists (k, v) |]. by apply bt_get_elem. }
  rewrite Hrel, list_elem_of_fmap. case_decide as Hr.
  - subst r. rewrite Hreal. cbn. rewrite <- (bt_get_elem _ _ _ Wkv) || idtac. split.
    + intros [([k' v'] & [= -> ->] & Hin) | ?]; [| done]. by apply bt_get_elem.
    + intros Hk. left. exists (k, v). split; [done |]. by apply bt_get_elem.
  - split; [| by right]. intros [([k' v'] & [= -> -> ->] & _) | ?]; done.
Qed.

Lemma rel_writes_keys (m : BTreeMap PhysicalRelationId Rows) rk :
  rk ∈ (rel_writes m).*1 -> rk.1 ∈ m.*1.
Proof.
  intros ([rk' v] & -> & Hin)%list_elem_of_fmap. unfold rel_writes in Hin.
  apply list_elem_of_bind in Hin as ([r rows] & (p & [= -> ->] & _)%list_elem_of_fmap & Hm).
  apply list_elem_of_fmap. by exists (r, rows).
Qed.

Lemma row_keys (r : PhysicalRelationId) (rows : Rows) :
  bt_wf rows -> NoDup ((fun p : list byte * option (list byte) => ((r, p.1), p.2)) <$> rows).*1.
Proof.
  intros Hw. replace (((fun p : list byte * option (list byte) => ((r, p.1), p.2)) <$> rows).*1) with (pair r <$> rows.*1).
  - apply NoDup_fmap; [by intros ?? [= ->] | by apply bt_wf_keys].
  - clear Hw. induction rows as [| p rows IH]; [done |]. cbn in *. by f_equal.
Qed.

Lemma staged_nodup s : tx_inv s -> NoDup (staged_writes s).*1.
Proof.
  intros [Wkv [Wr Wrows] _ _ _ Hreal _]. unfold staged_writes. rewrite fmap_app. apply NoDup_app. split_and!.
  - by apply row_keys.
  - intros rk Hk Hr. apply list_elem_of_fmap in Hk as (p & -> & (q & -> & _)%list_elem_of_fmap).
    apply rel_writes_keys in Hr. cbn in Hr. apply list_elem_of_fmap in Hr as ([r rows] & Er & Hm). cbn in Er. subst r.
    apply bt_get_elem in Hm; [| done]. congruence.
  - clear Hreal. induction (tx_relation_ops s) as [| [r rows] m IH]; [constructor |].
    pose proof Wr as [Wm Hr]%bt_wf_cons. rewrite rel_writes_cons, fmap_app. apply NoDup_app. split_and!.
    + apply row_keys, (Wrows r). apply bt_get_elem; [done | by left].
    + intros rk Hk Hin. apply list_elem_of_fmap in Hk as (p & -> & (q & -> & _)%list_elem_of_fmap).
      apply rel_writes_keys in Hin. cbn in Hin. pose proof (bt_wf_keys _ Wr) as Hnd. cbn in Hnd.
      apply NoDup_cons in Hnd as [Hnin _]. done.
    + apply IH; [done |]. intros r' rows' E. apply bt_get_elem in E; [| done]. apply (Wrows r').
      apply bt_get_elem; [done | by right].
Qed.

(** What a client stages. *)
Inductive tx_request : Type :=
| RPut (key value : list byte)
| RDelete (key : list byte)
| RPutRelation (relation_id : PhysicalRelationId) (key value : list byte)
| RDeleteRelation (relation_id : PhysicalRelationId) (key : list byte)
| RDeferred (relation_id : PhysicalRelationId) (key : list byte) (deltas : list DeltaAssign).

(** The row that a request writes, and the assignments it defers. *)
Definition request_write (r : tx_request) : option (LockKey * option (list byte)) :=
  match r with
  | RPut key value => Some ((kv_relation, key), Some value)
  | RDelete key => Some ((kv_relation, key), None)
  | RPutRelation relation_id key value => Some ((relation_id, key), Some value)
  | RDeleteRelation relation_id key => Some ((relation_id, key), None)
  | RDeferred _ _ _ => None
  end.

Definition request_deltas (rk : LockKey) (r : tx_request) : list DeltaAssign :=
  match r with RDeferred relation_id key ds => if decide ((relation_id, key) = rk) then ds else [] | _ => [] end.

(** The last row written to a key. *)
Definition last_write (reqs : list tx_request) (rk : LockKey) : option (option (list byte)) :=
  foldl (fun v r => match request_write r with
                    | Some (rk', v') => if decide (rk' = rk) then Some v' else v
                    | None => v
                    end) None reqs.

Section Requests.
Context `{MsgpackOk DeltaWire}.

Lemma from_op_code_op_code op : from_op_code (op_code op) = Ok op.
Proof. by destruct op. Qed.

Lemma decode_encode_deltas ds bs : encode_delta_assigns ds = Ok bs -> decode_delta_assigns bs = Ok ds.
Proof.
  unfold encode_delta_assigns, decode_delta_assigns. destruct (to_vec _) as [b |] eqn:E; [| done].
  intros [= <-]. rewrite (from_to_vec _ _ E). clear E. induction ds as [| [a op l] ds IH]; [done |].
  cbn [fmap list_fmap mapM]. cbn [da_attr da_op da_literal]. rewrite from_op_code_op_code. cbn [mbind res_bind].
  change (list_fmap _ _ ?f ds) with (f <$> ds). by rewrite IH.
Qed.

Definition run_request (r : tx_request) : ST ErrorCode WorkerTxState unit :=
  match r with
  | RPut key value => tx_put key value
  | RDelete key => tx_delete key
  | RPutRelation relation_id key value => put_relation relation_id key value
  | RDeleteRelation relation_id key => delete_relation relation_id key
  | RDeferred relation_id key deltas => put_relation_deferred_deltas relation_id key deltas
  end.

Fixpoint run_requests (rs : list tx_request) : ST ErrorCode WorkerTxState unit :=
  match rs with
  | [] => mret tt
  | r :: rs => run_request r ;; run_requests rs
  end.

(** Relations have an id other than that of the key/value map, and deltas can
    be encoded. *)
Definition request_ok (r : tx_request) : Prop :=
  match r with
  | RPut _ _ | RDelete _ => True
  | RPutRelation relation_id _ _ | RDeleteRelation relation_id _ => relation_id <> kv_relation
  | RDeferred relation_id _ ds => exists bs, encode_delta_assigns ds = Ok bs
  end.

(** The assignments of a key in the log, in order. *)
Definition op_deltas (rk : LockKey) (op : TxOp) : option (list DeltaAssign) :=
  match op with
  | TxWrite (WUpdate u) =>
      if decide ((mkPhysicalRelationId (xu_table_id u) (xu_partition_id u), xu_key u) = rk)
      then match decode_delta_assigns (xu_delta u) with Ok ds => Some ds | _ => None end else None
  | _ => None
  end.

Definition logged_deltas (rk : LockKey) (log : list TxOp) : list DeltaAssign := concat (omap (op_deltas rk) log).

Definition deltas_inv (s : WorkerTxState) : Prop :=
  bt_wf (tx_deferred_deltas s) /\
  forall rk, default [] (bt_get rk (tx_deferred_deltas s)) = logged_deltas rk (tx_log_buffer s).

(** One request. *)
Lemma request_step r s :
  tx_inv s -> deltas_inv s -> request_ok r ->
  exists s', run_request r s = (Ok tt, s') /\ tx_inv s' /\ deltas_inv s' /\
    (forall rk, staged_at s' rk = match request_write r with
                                  | Some (rk', v) => if decide (rk' = rk) then Some v else staged_at s rk
                                  | None => staged_at s rk end) /\
    (forall rk, default [] (bt_get rk (tx_deferred_deltas s')) =
                default [] (bt_get rk (tx_deferred_deltas s)) ++ request_deltas rk r).
Proof.
  intros Hi [Wd Hd] Hr.
  assert (forall rk v, request_write r = Some (rk, v) ->
    (exists s', run_request r s = (Ok tt, s') /\ staged_ok rk v s s') ->
    (forall rk, request_deltas rk r = []) ->
    exists s', run_request r s = (Ok tt, s') /\ tx_inv s' /\ deltas_inv s' /\
    (forall rk, staged_at s' rk = match request_write r with
                                  | Some (rk', v) => if decide (rk' = rk) then Some v else staged_at s rk
                                  | None => staged_at s rk end) /\
    (forall rk, default [] (bt_get rk (tx_deferred_deltas s')) =
                default [] (bt_get rk (tx_deferred_deltas s)) ++ request_deltas rk r)) as Hstage.
  { intros rk v Ew (s' & E & Hi' & Hst & Hdd & Hf) Hnd. exists s'. rewrite Ew. unfold deltas_inv. rewrite Hdd.
    split_and!; [done | done | done | | |].
    - intros rk'. rewrite Hd. unfold logged_deltas. by rewrite Hf by (intros [[] ?] []; done).
    - intros rk'. rewrite Hst. destruct (decide (rk' = rk)) as [-> | Hne]; [by rewrite decide_True |].
      by rewrite decide_False by congruence.
    - intros rk'. by rewrite Hnd, app_nil_r. }
  destruct r as [key value | key | rid key value | rid key | rid key ds].
  - eapply Hstage; [reflexivity | by apply (stage_kv_ok key (Some value)) | done].
  - eapply Hstage; [reflexivity | by apply (stage_kv_ok key None) | done].
  - eapply Hstage; [reflexivity | by apply (stage_rel_ok (rid, key) (Some value)) | done].
  - eapply Hstage; [reflexivity | by apply (stage_rel_ok (rid, key) None) | done].
  - destruct Hr as [bs Hbs]. cbn [run_request request_write request_deltas]. unfold put_relation_deferred_deltas.
    case_bool_decide as Hlen.
    { exists s. split; [done |]. split; [done |]. split; [done |]. split; [done |]. intros rk. destruct ds; [| done]. case_decide; by rewrite app_nil_r. }
    eexists. split; [st_step by reflexivity; st_step by (rewrite Hbs; reflexivity); reflexivity |].
    assert (forall rk, default [] (bt_get rk (bt_entry (rid, key) [] (fun l => l ++ ds) (tx_deferred_deltas s))) =
      default [] (bt_get rk (tx_deferred_deltas s)) ++ if decide ((rid, key) = rk) then ds else []) as Hget.
    { intros rk. unfold bt_entry. destruct (decide ((rid, key) = rk)) as [<- | Hne].
      - by rewrite bt_get_insert_eq.
      - by rewrite bt_get_insert_ne, app_nil_r by (done || congruence). }
    split; [| split; [| split]]; cbn [tx_deferred_deltas].
    + destruct Hi as [Wkv Wr Wki Wri L Hreal Hw]. split; cbn; [done | done | done | done | | done |].
      * intros rk. specialize (L rk). unfold logged in *.
        change (staged_at _ rk) with (staged_at s rk). change (index_at _ rk) with (index_at s rk).
        destruct (staged_at s rk); [| done]. destruct L as (i & Ei & Hl). exists i. split; [done |].
        rewrite lookup_app_l; [done |]. by eapply lookup_lt_Some.
      * rewrite omap_app. cbn. by rewrite app_nil_r.
    + split; [by apply bt_insert_wf |]. intros rk. cbn [tx_deferred_deltas tx_log_buffer]. rewrite Hget, Hd.
      unfold logged_deltas. rewrite omap_app, concat_app. f_equal. cbn. destruct rid as [t p]. cbn.
      rewrite (decode_encode_deltas _ _ Hbs). case_decide; cbn; by rewrite ?app_nil_r.
    + done.
    + exact Hget.
Qed.

Lemma requests_ok reqs : Forall request_ok reqs -> forall s, tx_inv s -> deltas_inv s ->
  exists s', run_requests reqs s = (Ok tt, s') /\ tx_inv s' /\ deltas_inv s' /\
    (forall rk, staged_at s' rk = foldl (fun v r => match request_write r with
       | Some (rk', v') => if decide (rk' = rk) then Some v' else v | None => v end) (staged_at s rk) reqs) /\
    (forall rk, default [] (bt_get rk (tx_deferred_deltas s')) =
                default [] (bt_get rk (tx_deferred_deltas s)) ++ (r ← reqs; request_deltas rk r)).
Proof.
  induction 1 as [| r reqs Hr _ IH]; intros s Hi Hd.
  { exists s. split; [done |]. split; [done |]. split; [done |]. split; [done |]. intros rk. by rewrite app_nil_r. }
  destruct (request_step r s Hi Hd Hr) as (s1 & E1 & Hi1 & Hd1 & Hs1 & Hx1).
  destruct (IH s1 Hi1 Hd1) as (s2 & E2 & Hi2 & Hd2 & Hs2 & Hx2). exists s2. cbn [run_requests].
  split; [by st_step by exact E1; exact E2 |]. split; [done |]. split; [done |]. split.
  - intros rk. rewrite Hs2. cbn [foldl]. by rewrite Hs1.
  - intros rk. rewrite Hx2, Hx1. by rewrite <- app_assoc.
Qed.

Lemma tx_inv_new : tx_inv WorkerTxState_new /\ deltas_inv WorkerTxState_new.
Proof.
  split.
  - split; [constructor | split; [constructor | done] | constructor | constructor | | done | done].
    intros rk. unfold logged, staged_at, index_at. by case_decide.
  - split; [constructor | done].
Qed.

(** C24: The log entry of a transaction is its write set.  Staging never fails,
    whatever is written, overwritten or deleted in whatever order; the batch
    is one entry that begins and commits, with exactly one record for every
    row written, holding the last value staged for it; a read of the staged
    state returns that value; and the assignments deferred for a row are
    logged in the order in which they were staged. *)
Theorem write_set_logged snapshot reqs :
  Forall request_ok reqs ->
  exists s, run_requests reqs WorkerTxState_new = (Ok tt, s) /\
    xl_batch (mkWorkerTxManager snapshot s) =
      [mkXLEntry (ws_xid snapshot) (TxBegin :: tx_log_buffer s ++ [TxCommit])] /\
    NoDup (omap op_write (tx_log_buffer s)).*1 /\
    (forall rk v, (rk, v) ∈ omap op_write (tx_log_buffer s) <-> last_write reqs rk = Some v) /\
    (forall rk, staged_at s rk = last_write reqs rk) /\
    (forall rk, default [] (get_relation_deltas rk.1 rk.2 s) = r ← reqs; request_deltas rk r) /\
    (forall rk, logged_deltas rk (tx_log_buffer s) = r ← reqs; request_deltas rk r).
Proof.
  intros Hr. destruct tx_inv_new as [Hi Hd].
  destruct (requests_ok reqs Hr _ Hi Hd) as (s & E & Hi' & Hd' & Hs & Hx). exists s.
  assert (forall rk, staged_at s rk = last_write reqs rk) as Hst
    by (intros rk; rewrite Hs; unfold last_write, staged_at; cbn; by case_decide).
  split; [done |]. split; [done |]. split.
  { rewrite (ti_writes _ Hi'). by apply staged_nodup. }
  split; [intros rk v; rewrite (ti_writes _ Hi'), staged_elem by done; by rewrite Hst |]. split; [done |]. split.
  - intros rk. unfold get_relation_deltas. rewrite <- surjective_pairing. apply Hx.
  - intros rk. destruct Hd' as [_ Hl]. rewrite <- Hl. apply Hx.
Qed.
End Requests.

(** The codec of the examples. *)
Import PlCodec.

#[local] Instance demo_wire : Msgpack DeltaWire := list_msgpack.
#[local] Instance demo_wire_ok : MsgpackOk DeltaWire := list_msgpack_ok.

(** A row is written twice, another deleted, and a delta is deferred. *)
Definition demo_requests : list tx_request :=
  let r := mkPhysicalRelationId 7 0 in
  [RPut [x01] [x0a]; RPutRelation r [x01] [x0b]; RPut [x01] [x0c]; RDeleteRelation r [x02];
   RDeferred r [x03] [mkDeltaAssign 1 DAddDeferred [x00; x00; x00; x01]]].

Lemma write_set_logged_witness :
  exists s, run_requests demo_requests WorkerTxState_new = (Ok tt, s) /\
    xl_batch (mkWorkerTxManager (mkWorkerSnapshot 1 []) s) =
      [mkXLEntry (ws_xid (mkWorkerSnapshot 1 [])) (TxBegin :: tx_log_buffer s ++ [TxCommit])] /\
    NoDup (omap op_write (tx_log_buffer s)).*1 /\
    (forall rk v, (rk, v) ∈ omap op_write (tx_log_buffer s) <-> last_write demo_requests rk = Some v) /\
    (forall rk, staged_at s rk = last_write demo_requests rk) /\
    (forall rk, default [] (get_relation_deltas rk.1 rk.2 s) = r ← demo_requests; request_deltas rk r) /\
    (forall rk, logged_deltas rk (tx_log_buffer s) = r ← demo_requests; request_deltas rk r).
Proof.
  apply (write_set_logged (mkWorkerSnapshot 1 []) demo_requests). unfold demo_requests.
  repeat (apply Forall_cons; split); [done | done | done | done | | apply Forall_nil; done].
  cbn [request_ok]. eexists. vm_compute. reflexivity.
Defined.
