(* ===== verification/KvStore.v ===== *)
(** * The key/value store of a worker

    The key/value part of [server/worker_storage.rs]: version rows by key,
    point and range reads, conflict checks and the application of commits. *)

From S2P Require Import Prelude Errors Snapshots Versions Histories XLocks BTree TxState.

(** ** Rows *)

Notation KvStore := (gmap (list byte) DataRowInner).

(** [write_version_to_kv_store] and its [async] twin. *)
Definition write_version_to_kv_store (key : list byte) (value : option (list byte)) (xid : Z)
    : ST ErrorCode KvStore unit :=
  fun kv =>
    let row := default (DataRow_new 0) (kv !! key) in
    match write_version (row_version xid value) None row with
    | (Ok _, row) => (Ok tt, <[key := row]> kv)
    | (Err e, row) => (Err e, kv)
    | (Panic, row) => (Panic, kv)
    end.

Definition worker_put_local (key value : list byte) (xid : Z) : ST ErrorCode KvStore unit :=
  write_version_to_kv_store key (Some value) xid.

Definition worker_delete_local (key : list byte) (xid : Z) : ST ErrorCode KvStore unit :=
  write_version_to_kv_store key None xid.

(** ** Reads *)

(** The version of a row that a reader gets, with a snapshot or without. *)
Definition read_row (snapshot : option WorkerSnapshot) (row : DataRowInner) : Res ErrorCode (option VersionTuple) :=
  match snapshot with
  | Some snapshot => s ← to_snapshot snapshot; read_version s row
  | None => Ok (row_read_latest row)
  end.

Definition kv_get (key : list byte) (snapshot : option WorkerSnapshot) (kv : KvStore)
    : Res ErrorCode (option (list byte)) :=
  version ← match kv !! key with Some row => read_row snapshot row | None => Ok None end;
  Ok (live_value version).

Definition kv_in_range (start_key end_key key : list byte) : bool :=
  if bool_decide (end_key = []) then ord_le start_key key else ord_le start_key key && ord_lt key end_key.

(** The items of [kv_range] before they are sorted. *)
Fixpoint kv_items (snapshot : option WorkerSnapshot) (rows : list (list byte * DataRowInner))
    : Res ErrorCode (list (list byte * list byte)) :=
  match rows with
  | [] => Ok []
  | (key, row) :: rows =>
      visible ← read_row snapshot row;
      items ← kv_items snapshot rows;
      Ok (match live_value visible with Some value => (key, value) :: items | None => items end)
  end.

Definition kv_range (start_key end_key : list byte) (snapshot : option WorkerSnapshot) (kv : KvStore)
    : Res ErrorCode (list (list byte * list byte)) :=
  items ← kv_items snapshot (List.filter (fun p => kv_in_range start_key end_key p.1) (map_to_list kv));
  Ok (sort_stable (fun a b => ord_le a.1 b.1) items).

(** ** Commits *)

Definition row_latest_version (row : DataRowInner) : option VersionTuple := row_read_latest row.

(** Whether the newest version of a key is one that the snapshot does not
    see. *)
Definition kv_conflict (snapshot : WorkerSnapshot) (kv : KvStore) (key : list byte) : bool :=
  match kv !! key ≫= row_latest_version with
  | Some latest => negb (is_visible_to_snapshot (c_min (vt_timestamp latest)) snapshot)
  | None => false
  end.

Fixpoint ensure_no_kv_conflicts (snapshot : WorkerSnapshot) (kv_rows : Rows) (kv : KvStore) : Res ErrorCode unit :=
  match kv_rows with
  | [] => Ok tt
  | (key, _) :: kv_rows =>
      if kv_conflict snapshot kv key then Err Transaction else ensure_no_kv_conflicts snapshot kv_rows kv
  end.

(** [apply_kv_rows_async]. *)
Fixpoint apply_kv_rows (xid : Z) (kv_rows : Rows) : ST ErrorCode KvStore unit :=
  match kv_rows with
  | [] => mret tt
  | (key, value) :: kv_rows => write_version_to_kv_store key value xid ;; apply_kv_rows xid kv_rows
  end.

(** ** Histories *)

Fixpoint write_all (ws : list RowWrite) : ST ErrorCode KvStore unit :=
  match ws with
  | [] => mret tt
  | (key, value, xid) :: ws => write_version_to_kv_store key value xid ;; write_all ws
  end.

Definition kv_rep (kv : KvStore) (ws : list RowWrite) : Prop :=
  forall key, row_rep true (default (DataRow_new 0) (kv !! key)) (versions_of ws key) /\
    (kv !! key = None -> versions_of ws key = []).

Lemma write_kv_ok kv ws key value xid :
  kv_rep kv ws -> exists kv', write_version_to_kv_store key value xid kv = (Ok tt, kv') /\
    kv_rep kv' (ws ++ [(key, value, xid)]).
Proof.
  intros Hkv. destruct (Hkv key) as [Hr _]. unfold write_version_to_kv_store.
  destruct (write_row_rep true (row_version xid value) _ _ Hr) as (row & E & Hrow). cbn [write_row] in E.
  rewrite E. eexists. split; [reflexivity |]. intros key'. rewrite versions_of_snoc.
  destruct (decide (key' = key)) as [-> | Hne].
  - rewrite lookup_insert_eq. split; [exact Hrow | done].
  - rewrite lookup_insert_ne, app_nil_r by congruence. apply Hkv.
Qed.

Lemma write_all_ok ws : forall kv ws0, kv_rep kv ws0 ->
  exists kv', write_all ws kv = (Ok tt, kv') /\ kv_rep kv' (ws0 ++ ws).
Proof.
  induction ws as [| [[key value] xid] ws IH]; intros kv ws0 Hkv.
  { exists kv. by rewrite app_nil_r. }
  destruct (write_kv_ok kv ws0 key value xid Hkv) as (kv1 & E1 & H1).
  destruct (IH kv1 _ H1) as (kv2 & E2 & H2). exists kv2. rewrite <- app_assoc in H2.
  split; [| done]. cbn [write_all]. st_step by exact E1. exact E2.
Qed.

Lemma kv_rep_empty : kv_rep ∅ [].
Proof. intros key. rewrite lookup_empty. by split; [split_and! |]. Qed.

Lemma read_row_ok snapshot s row h :
  row_snapshot snapshot s -> row_rep true row h -> Forall version_ok h ->
  read_row snapshot row = Ok (reader s h).
Proof.
  intros Hs Hr Hok. destruct snapshot as [w |], s as [s |]; try done; cbn [read_row reader].
  - cbn in Hs. rewrite Hs. cbn [mbind res_bind]. unfold read_version.
    destruct (read_detailed_ok true s row h Hr Hok) as (res & E & Ho). rewrite E. cbn [mbind res_bind]. f_equal.
    destruct (find_last _ h) as [v |], res as [[v' own] |]; try done. cbn.
    destruct Ho as [(_ & _ & Heq) _]. by rewrite Heq.
  - destruct Hr as (Ht & _). unfold row_read_latest. by rewrite Ht, last_drop_window.
Qed.

Lemma kv_get_ok kv ws snapshot s key :
  kv_rep kv ws -> Forall row_write_ok ws -> row_snapshot snapshot s ->
  kv_get key snapshot kv = Ok (live_value (reader s (versions_of ws key))).
Proof.
  intros Hkv Hok Hs. destruct (Hkv key) as [Hr Hn]. unfold kv_get.
  destruct (kv !! key) as [row |].
  - by rewrite (read_row_ok _ s row _ Hs Hr (versions_ok ws key Hok)).
  - rewrite Hn by done. by destruct s.
Qed.

Lemma kv_items_ok snapshot s (g : list byte -> list VersionTuple) rows :
  (forall key row, (key, row) ∈ rows -> row_rep true row (g key) /\ Forall version_ok (g key)) ->
  row_snapshot snapshot s ->
  exists items, kv_items snapshot rows = Ok items /\
    (forall key value, (key, value) ∈ items <-> key ∈ rows.*1 /\ live_value (reader s (g key)) = Some value) /\
    (NoDup rows.*1 -> NoDup items.*1).
Proof.
  intros Hrows Hs. induction rows as [| [key row] rows IH]; [exists []; split_and!; [done | set_solver | done] |].
  destruct IH as (items & E & Hin & Hnd); [intros; apply Hrows; by right |].
  destruct (Hrows key row) as [Hr Hok]; [by left |].
  cbn [kv_items]. rewrite (read_row_ok _ s _ _ Hs Hr Hok), E. cbn [mbind res_bind]. eexists. split; [reflexivity |].
  change ((key, row) :: rows).*1 with (key :: rows.*1). split.
  - intros k v. destruct (live_value (reader s (g key))) as [value |] eqn:El.
    + rewrite elem_of_cons, Hin. set_solver.
    + rewrite Hin, elem_of_cons. split; [tauto |]. intros [[-> | Hk] Hv]; [congruence | done].
  - intros [Hk Hd]%NoDup_cons. destruct (live_value _); [| by apply Hnd]. cbn. apply NoDup_cons. split; [| by apply Hnd].
    intros ([k v] & -> & Hkv)%list_elem_of_fmap. apply Hin in Hkv as [? _]. done.
Qed.

Lemma ord_le_total `{OrdOk K} (a b : K) : ord_le a b = true \/ ord_le b a = true.
Proof. unfold ord_le. rewrite (ord_cmp_sym a b). destruct (ord_cmp a b); cbn; auto. Qed.

Lemma ord_le_trans `{OrdOk K} (a b c : K) : ord_le a b = true -> ord_le b c = true -> ord_le a c = true.
Proof.
  unfold ord_le. destruct (ord_cmp a b) eqn:E1; [apply ord_cmp_eq in E1 as -> | | done]; [done |].
  destruct (ord_cmp b c) eqn:E2; [apply ord_cmp_eq in E2 as <-; by rewrite E1 | | done].
  by rewrite (ord_cmp_trans _ _ _ E1 E2).
Qed.

(** Sorting items with distinct keys. *)
Lemma sort_items_ok `{OrdOk K} {V} (items : list (K * V)) :
  NoDup items.*1 ->
  StronglySorted (fun a b => ord_cmp a.1 b.1 = Lt) (sort_stable (fun a b => ord_le a.1 b.1) items).
Proof.
  intros Hnd. assert (StronglySorted (fun a b : K * V => ord_le a.1 b.1 = true) (sort_stable (fun a b => ord_le a.1 b.1) items)) as Hs.
  { apply sort_stable_sorted; [intros a b c; apply ord_le_trans | intros a b; apply ord_le_total]. }
  assert (NoDup (sort_stable (fun a b => ord_le a.1 b.1) items).*1) as Hnd'
    by (by rewrite (Permutation_map fst (sort_stable_perm _ items))).
  induction Hs as [| a l Hs IH Ha]; [constructor |]. apply NoDup_cons in Hnd' as [Hn Hnd']. constructor; [by apply IH |].
  rewrite Forall_forall in Ha |- *. intros b Hb. specialize (Ha b Hb). unfold ord_le in Ha.
  destruct (ord_cmp a.1 b.1) eqn:E; [| done | done]. apply ord_cmp_eq in E. exfalso. apply Hn. rewrite E.
  by apply list_elem_of_fmap_2.
Qed.

Lemma nodup_filter_keys {K V} (f : K * V -> bool) (l : list (K * V)) : NoDup l.*1 -> NoDup (List.filter f l).*1.
Proof.
  induction l as [| p l IH]; [done |]. intros [Hn Hnd]%NoDup_cons. cbn [List.filter]. destruct (f p); [| by apply IH].
  apply NoDup_cons. split; [| by apply IH]. intros (q & E & Hq)%list_elem_of_fmap. apply Hn, list_elem_of_fmap.
  exists q. split; [done |]. rewrite list_elem_of_In, filter_In, <- list_elem_of_In in Hq. tauto.
Qed.

Lemma kv_range_ok kv ws snapshot s start_key end_key :
  kv_rep kv ws -> Forall row_write_ok ws -> row_snapshot snapshot s ->
  exists items, kv_range start_key end_key snapshot kv = Ok items /\
    StronglySorted (fun a b => ord_cmp a.1 b.1 = Lt) items /\
    forall key value, (key, value) ∈ items <->
      kv_in_range start_key end_key key = true /\ live_value (reader s (versions_of ws key)) = Some value.
Proof.
  intros Hkv Hok Hs. unfold kv_range. set (rows := List.filter _ (map_to_list kv)).
  assert (forall key row, (key, row) ∈ rows <-> kv_in_range start_key end_key key = true /\ kv !! key = Some row) as Hrows.
  { intros key row. unfold rows. rewrite list_elem_of_In, filter_In, <- list_elem_of_In, elem_of_map_to_list. tauto. }
  destruct (kv_items_ok snapshot s (versions_of ws) rows) as (items & Ei & Hin & Hnd); [| done |].
  { intros key row [_ Hrow]%Hrows. destruct (Hkv key) as [Hr _]. rewrite Hrow in Hr. split; [done | by apply versions_ok]. }
  rewrite Ei. cbn [mbind res_bind]. eexists. split; [reflexivity |]. split.
  - apply sort_items_ok, Hnd, nodup_filter_keys, NoDup_fst_map_to_list.
  - intros key value. rewrite sort_stable_perm, Hin. split.
    + intros [([k r] & -> & Hkr)%list_elem_of_fmap Hv]. apply Hrows in Hkr as [? _]. done.
    + intros [Hr Hv]. split; [| done]. destruct (kv !! key) as [row |] eqn:Ek.
      * apply list_elem_of_fmap. exists (key, row). split; [done |]. by apply Hrows.
      * destruct (Hkv key) as [_ Hn]. rewrite Hn in Hv by done. by destruct s.
Qed.

(** Reads of the key/value store return what was committed.  After any
    sequence of writes, a point read gives the newest version that the reader
    may see (the newest one of all without a snapshot), and nothing when it is
    a deletion; a range read gives exactly the live keys of the range with
    their values, in ascending order, each once. *)
Theorem kv_reads_history ws snapshot s :
  Forall row_write_ok ws -> row_snapshot snapshot s ->
  exists kv, write_all ws ∅ = (Ok tt, kv) /\
    (forall key, kv_get key snapshot kv = Ok (live_value (reader s (versions_of ws key)))) /\
    forall start_key end_key, exists items,
      kv_range start_key end_key snapshot kv = Ok items /\
      StronglySorted (fun a b => ord_cmp a.1 b.1 = Lt) items /\
      forall key value, (key, value) ∈ items <->
        kv_in_range start_key end_key key = true /\ live_value (reader s (versions_of ws key)) = Some value.
Proof.
  intros Hok Hs. destruct (write_all_ok ws ∅ [] kv_rep_empty) as (kv & E & Hkv). cbn [app] in Hkv.
  exists kv. split; [done |]. split; [intros key; by apply kv_get_ok |]. intros start_key end_key. by apply kv_range_ok.
Qed.

(** Two keys, one of them deleted again by a transaction that the reader does
    not see. *)
Definition demo_writes : list RowWrite :=
  [([x01], Some [x0a], 1); ([x02], Some [x0b], 2); ([x01], Some [x0c], 3); ([x02], None, 4)].

Lemma kv_reads_history_witness :
  exists kv, write_all demo_writes ∅ = (Ok tt, kv) /\
    (forall key, kv_get key (Some (mkWorkerSnapshot 3 [])) kv =
       Ok (live_value (reader (Some (mkSnapshot 3 3 3 [])) (versions_of demo_writes key)))) /\
    forall start_key end_key, exists items,
      kv_range start_key end_key (Some (mkWorkerSnapshot 3 [])) kv = Ok items /\
      StronglySorted (fun a b => ord_cmp a.1 b.1 = Lt) items /\
      forall key value, (key, value) ∈ items <->
        kv_in_range start_key end_key key = true /\
        live_value (reader (Some (mkSnapshot 3 3 3 [])) (versions_of demo_writes key)) = Some value.
Proof.
  apply kv_reads_history; [| reflexivity]. unfold demo_writes.
  repeat (apply Forall_cons; split; [vm_compute; try congruence; done |]). apply Forall_nil. done.
Defined.
