(* ===== verification/Relation.v ===== *)
(** * Relations

    A partition of a table ([storage/relation/relation.rs]): an ordered index
    from keys to version rows in memory, a file of keys and a file of values,
    both addressed by the id of the writing transaction and the tuple id of
    the row.  The files are used through the interface of [TimeSeries]; the
    index is that of [index/btree/btree_index.rs], ordered by the comparator
    of the table. *)

From S2P Require Import Prelude Errors RecordSpec RecordMap PageImage TsRead TsMutate TimeSeries.
From S2P Require Import Snapshots Versions Histories BTree.

(** ** Keys *)

Record KeyTuple : Type := mkKeyTuple { key_bytes : list byte }.

#[export] Instance key_tuple_eq_dec : EqDecision KeyTuple.
Proof. solve_decision. Defined.

(** [std::ops::Bound]. *)
Inductive Bound (A : Type) : Type :=
  | Included (a : A)
  | Excluded (a : A)
  | Unbounded.

Arguments Included {A} a.
Arguments Excluded {A} a.
Arguments Unbounded {A}.

Definition bound_map {A B} (f : A -> B) (b : Bound A) : Bound B :=
  match b with Included a => Included (f a) | Excluded a => Excluded (f a) | Unbounded => Unbounded end.

Section bounds.
Context `{Ord K}.

Definition above (lower : Bound K) (k : K) : bool :=
  match lower with Included a => ord_le a k | Excluded a => ord_lt a k | Unbounded => true end.

Definition below (upper : Bound K) (k : K) : bool :=
  match upper with Included b => ord_le k b | Excluded b => ord_lt k b | Unbounded => true end.

(** [BTreeMap::range] panics on a range that starts behind its end, or that
    excludes its only key. *)
Definition range_valid (lower upper : Bound K) : bool :=
  match lower, upper with
  | Unbounded, _ | _, Unbounded => true
  | Excluded a, Excluded b => ord_lt a b
  | Included a, Included b | Included a, Excluded b | Excluded a, Included b => ord_le a b
  end.

Definition bt_range {V} (lower upper : Bound K) (m : BTreeMap K V) : Res ErrorCode (BTreeMap K V) :=
  if range_valid lower upper
  then Ok (List.filter (fun p => above lower p.1 && below upper p.1) m)
  else Panic.
End bounds.

(** ** The relation *)

Record Relation (F : Type) : Type := mkRelation {
  rl_index : BTreeMap KeyTuple DataRowInner;
  rl_key_file : F;
  rl_value_file : F;
  rl_next_tuple_id : Z;
}.

Arguments mkRelation {F} _ _ _ _.
Arguments rl_index {F} _.
Arguments rl_key_file {F} _.
Arguments rl_value_file {F} _.
Arguments rl_next_tuple_id {F} _.

Section relation.
Context `{TimeSeries F} `{Ord KeyTuple}.

Notation RL := (ST ErrorCode (Relation F)).

Definition set_index (index : BTreeMap KeyTuple DataRowInner) (rel : Relation F) : Relation F :=
  mkRelation index (rl_key_file rel) (rl_value_file rel) (rl_next_tuple_id rel).

Definition set_next_tuple_id (id : Z) (rel : Relation F) : Relation F :=
  mkRelation (rl_index rel) (rl_key_file rel) (rl_value_file rel) id.

Definition on_key_file {A} (m : ST ErrorCode F A) : RL A :=
  fun rel => let (r, f) := m (rl_key_file rel) in
             (r, mkRelation (rl_index rel) f (rl_value_file rel) (rl_next_tuple_id rel)).

Definition on_value_file {A} (m : ST ErrorCode F A) : RL A :=
  fun rel => let (r, f) := m (rl_value_file rel) in
             (r, mkRelation (rl_index rel) (rl_key_file rel) f (rl_next_tuple_id rel)).

(** An operation on the row of a key.  Rows are shared: what is written to the
    row that was looked up is seen through the index. *)
Definition on_row {A} (key : KeyTuple) (m : ST ErrorCode DataRowInner A) : RL A :=
  fun rel => match bt_get key (rl_index rel) with
             | Some row => let (r, row) := m row in (r, set_index (bt_insert key row (rl_index rel)) rel)
             | None => (Err Internal, rel)
             end.

(** *** Reads *)

(** [read_visible_version_async]: an error counts as no version. *)
Definition read_visible_version (row : DataRowInner) (snapshot : Snapshot) : Res ErrorCode (option (VersionTuple * bool)) :=
  match read_version_detailed snapshot row with
  | Ok visible => Ok visible
  | Err _ => Ok None
  | Panic => Panic
  end.

Definition not_deleted (visible : option (VersionTuple * bool)) : option (VersionTuple * bool) :=
  match visible with
  | Some (version, own) => if vt_deleted version then None else Some (version, own)
  | None => None
  end.

Definition visible_meta (key : KeyTuple) (snapshot : WorkerSnapshot) : RL (option (Z * VersionTuple * bool)) :=
  rel ← st_get;
  match bt_get key (rl_index rel) with
  | None => mret None
  | Some row =>
      snapshot ← st_lift (to_snapshot snapshot);
      visible ← st_lift (read_visible_version row snapshot);
      mret (option_map (fun p => (dr_tid row, fst p, snd p)) (not_deleted visible))
  end.

Definition has_visible_version (key : KeyTuple) (snapshot : WorkerSnapshot) : RL bool :=
  meta ← visible_meta key snapshot;
  mret (match meta with Some _ => true | None => false end).

(** [read_value_payload]; [visible_payloads_async] does the same. *)
Definition read_value_payload (timestamp tuple_id : Z) : RL (list byte) :=
  record ← on_value_file (ts_get timestamp tuple_id);
  match record with
  | Some record => mret (ts_payload record)
  | None => st_lift (Err EntityNotFound)
  end.

Definition visible_value (key : KeyTuple) (snapshot : WorkerSnapshot) : RL (option (list byte)) :=
  meta ← visible_meta key snapshot;
  match (meta : option (Z * VersionTuple * bool)) with
  | None => mret None
  | Some (tuple_id, version, payload_authoritative) =>
      if payload_authoritative then mret (Some (vt_buf version)) else
      payload ← read_value_payload (c_min (vt_timestamp version)) tuple_id;
      mret (Some payload)
  end.

Definition visible_payloads (key : list byte) (row : DataRowInner) (snapshot : Snapshot)
    : RL (option (list byte * list byte)) :=
  visible ← st_lift (read_visible_version row snapshot);
  match not_deleted visible with
  | None => mret None
  | Some (version, payload_authoritative) =>
      if payload_authoritative then mret (Some (key, vt_buf version)) else
      value ← read_value_payload (c_min (vt_timestamp version)) (dr_tid row);
      mret (Some (key, value))
  end.

(** The loop of [visible_range]. *)
Fixpoint visible_rows (rows : BTreeMap KeyTuple DataRowInner) (snapshot : Snapshot)
    : RL (list (list byte * list byte)) :=
  match rows with
  | [] => mret []
  | (key, row) :: rows =>
      pair ← visible_payloads (key_bytes key) row snapshot;
      items ← visible_rows rows snapshot;
      mret (option_list pair ++ items)
  end.

Definition visible_range (lower upper : Bound (list byte)) (snapshot : WorkerSnapshot)
    : RL (list (list byte * list byte)) :=
  rel ← st_get;
  rows ← st_lift (bt_range (bound_map mkKeyTuple lower) (bound_map mkKeyTuple upper) (rl_index rel));
  snapshot ← st_lift (to_snapshot snapshot);
  visible_rows rows snapshot.

Definition has_write_conflict (key : KeyTuple) (snapshot : WorkerSnapshot) (rel : Relation F) : bool :=
  match bt_get key (rl_index rel) ≫= row_read_latest with
  | Some latest => negb (is_visible_to_snapshot (c_min (vt_timestamp latest)) snapshot)
  | None => false
  end.

(** *** Writes *)

(** [fetch_add]. *)
Definition alloc_tuple_id : RL Z :=
  fun rel => (Ok (rl_next_tuple_id rel),
              set_next_tuple_id ((rl_next_tuple_id rel + 1) mod 18446744073709551616) rel).

(** The reservation of a row for a key, under the latch of its stripe. *)
Definition resolve_row (key : list byte) : RL Z :=
  rel ← st_get;
  match bt_get (mkKeyTuple key) (rl_index rel) with
  | Some row => mret (dr_tid row)
  | None =>
      tuple_id ← alloc_tuple_id;
      st_modify (fun rel => set_index (bt_insert (mkKeyTuple key) (DataRow_new tuple_id) (rl_index rel)) rel) ;;
      mret tuple_id
  end.

Fixpoint resolve_rows (keys : list (list byte)) : RL (list Z) :=
  match keys with
  | [] => mret []
  | key :: keys => tuple_id ← resolve_row key; ids ← resolve_rows keys; mret (tuple_id :: ids)
  end.

(** The rows of the two files. *)
Definition key_rows (xid : Z) (rows : list (list byte * option (list byte))) (ids : list Z)
    : list (Z * Z * list byte) :=
  zip_with (fun row id => (xid, id, row.1)) rows ids.

Definition value_rows (xid : Z) (rows : list (list byte * option (list byte))) (ids : list Z)
    : list (Z * Z * list byte) :=
  omap (fun p => option_map (fun value => (xid, p.2, value)) p.1.2) (zip rows ids).

(** [futures::join!] of the two insertions: both run, the first error is
    reported. *)
Definition insert_both (now : Z) (krows vrows : list (Z * Z * list byte)) : RL unit :=
  fun rel =>
    let (key_result, rel) := on_key_file (ts_insert_batch now krows) rel in
    let (value_result, rel) := on_value_file (ts_insert_batch now vrows) rel in
    (match key_result with Ok _ => value_result | r => r end, rel).

Fixpoint publish_rows (xid : Z) (rows : list (list byte * option (list byte))) : RL unit :=
  match rows with
  | [] => mret tt
  | (key, value) :: rows =>
      on_row (mkKeyTuple key)
        (write_version_shallow (match value with
                                | Some value => VersionTuple_new (mkTimestamp xid U64_MAX) value
                                | None => new_delete (mkTimestamp xid U64_MAX)
                                end)) ;;
      publish_rows xid rows
  end.

(** [write_rows], with the clock of the log at [now]. *)
Definition relation_write_rows (now : Z) (rows : list (list byte * option (list byte))) (xid : Z) : RL unit :=
  match rows with
  | [] => mret tt
  | _ =>
      ids ← resolve_rows rows.*1;
      insert_both now (key_rows xid rows ids) (value_rows xid rows ids) ;;
      publish_rows xid rows
  end.

Definition write_value (now : Z) (key value : list byte) (xid : Z) : RL unit :=
  relation_write_rows now [(key, Some value)] xid.

Definition write_delete (now : Z) (key : list byte) (xid : Z) : RL unit :=
  relation_write_rows now [(key, None)] xid.

(** The versions that [write_rows_delta] computes and publishes; [update] is
    the closure over [apply_value_update_with_deltas]. *)
Fixpoint compute_rows {D} (update : D -> list byte -> Res ErrorCode (list byte)) (xid : Z)
    (rows : list (list byte * D)) : RL (list (list byte * option (list byte))) :=
  match rows with
  | [] => mret []
  | (key, deltas) :: rows =>
      computed ← on_row (mkKeyTuple key) (apply_update_to_latest (mkTimestamp xid U64_MAX) (update deltas));
      computed_rows ← compute_rows update xid rows;
      mret ((key, Some computed) :: computed_rows)
  end.

Definition write_rows_delta {D} (update : D -> list byte -> Res ErrorCode (list byte)) (now : Z)
    (rows : list (list byte * D)) (xid : Z) : RL unit :=
  match rows with
  | [] => mret tt
  | _ =>
      ids ← resolve_rows rows.*1;
      computed_rows ← compute_rows update xid rows;
      insert_both now (key_rows xid computed_rows ids) (value_rows xid computed_rows ids)
  end.

(** *** Opening *)

(** The loop of [rebuild_from_files_async]: the result is the greatest tuple
    id. *)
Fixpoint rebuild_rows (rows : list TimeSeriesRecord) (max_tuple_id : Z) : RL Z :=
  match rows with
  | [] => mret max_tuple_id
  | key_row :: rows =>
      let tuple_id := ts_tuple_id key_row in
      let key_tuple := mkKeyTuple (ts_payload key_row) in
      rel ← st_get;
      row ← match bt_get key_tuple (rl_index rel) with
            | Some row => if dr_tid row =? tuple_id then mret row else st_lift (Err Decode)
            | None => mret (DataRow_new tuple_id)
            end;
      let timestamp := mkTimestamp (ts_timestamp key_row) U64_MAX in
      value ← on_value_file (ts_get (ts_timestamp key_row) tuple_id);
      let version := match value with
                     | Some _ => VersionTuple_new timestamp []
                     | None => new_delete timestamp
                     end in
      st_modify (fun rel => set_index (bt_insert key_tuple row (rl_index rel)) rel) ;;
      on_row key_tuple (write_version_shallow version) ;;
      rebuild_rows rows (Z.max max_tuple_id tuple_id)
  end.

Definition rebuild_from_files : RL unit :=
  rows ← on_key_file (ts_scan_range 0 U64_MAX);
  max_tuple_id ← rebuild_rows rows 0;
  st_modify (set_next_tuple_id (Z.max (Z.min (max_tuple_id + 1) U64_MAX) 1)).

(** [new], from the results of opening the two files. *)
Definition Relation_new (key_file value_file : Res ErrorCode F) : Res ErrorCode (Relation F) :=
  key_file ← key_file;
  value_file ← value_file;
  match rebuild_from_files (mkRelation [] key_file value_file 1) with
  | (Ok _, rel) => Ok rel
  | (Err _, _) => Err Storage
  | (Panic, _) => Panic
  end.

End relation.
