(* ===== verification/RelationProperties.v ===== *)
(** * What relations guarantee

    The histories of the rows of a relation, and the invariant under which its
    index, its key file and its value file agree with them. *)

From S2P Require Import Prelude Errors RecordSpec RecordMap PageImage TsRead TsMutate TimeSeries.
From S2P Require Import Snapshots Versions Histories BTree Relation.

(** ** Versions and their sketches in memory *)

(** The version that was written last with a time stamp. *)
Definition stamped (ts : Z) (h : list VersionTuple) : option VersionTuple := find_last (fun v => stamp v =? ts) h.

(** What the memory has of a version: everything but, perhaps, its payload. *)
Definition sketch (m v : VersionTuple) : Prop :=
  vt_timestamp m = vt_timestamp v /\ vt_deleted m = vt_deleted v /\ (vt_buf m <> [] -> vt_buf m = vt_buf v).

(** What relations write. *)
Definition stored (v : VersionTuple) : Prop := version_ok v /\ c_max (vt_timestamp v) = U64_MAX /\ in_u64 (stamp v).

Lemma sketch_refl v : sketch v v.
Proof. done. Qed.

Lemma sketch_find (p : Timestamp -> bool) hm h :
  Forall2 sketch hm h ->
  match find_last (fun v => p (vt_timestamp v)) hm, find_last (fun v => p (vt_timestamp v)) h with
  | Some m, Some v => sketch m v
  | None, None => True
  | _, _ => False
  end.
Proof.
  induction 1 as [| m v hm h Hs HF IH]; cbn [find_last]; [done |].
  destruct (find_last _ hm), (find_last _ h); [done.. |]. destruct Hs as (Et & ?). rewrite Et.
  by destruct (p (vt_timestamp v)).
Qed.

Lemma sketch_ok hm h : Forall2 sketch hm h -> Forall stored h -> Forall version_ok hm.
Proof.
  induction 1 as [| m v hm h (Et & Ed & Eb) HF IH]; [constructor |]. intros [[[Hl Hd] _] Hh]%Forall_cons.
  apply Forall_cons. split; [| by apply IH]. unfold version_ok in *. rewrite Ed. destruct (decide (vt_buf m = [])) as [E | E].
  - rewrite E. split; [change (zlen (@nil byte)) with 0; mlia | done].
  - by rewrite (Eb E).
Qed.

(** A version that is found by its time stamp is the last one with it. *)
Lemma find_last_stamped (p : Z -> bool) h v :
  find_last (fun v => p (stamp v)) h = Some v -> stamped (stamp v) h = Some v.
Proof.
  unfold stamped. induction h as [| w h IH]; cbn [find_last]; [done |].
  destruct (find_last _ h) as [y |] eqn:E.
  - intros [= ->]. by rewrite IH.
  - destruct (p (stamp w)) eqn:Hp; [| done]. intros [= ->]. rewrite Z.eqb_refl.
    destruct (find_last (fun v0 => stamp v0 =? stamp v) h) as [y |] eqn:Ey; [| done]. exfalso.
    assert (forall l, find_last (fun v => p (stamp v)) l = None -> find_last (fun v0 => stamp v0 =? stamp v) l = None) as Hn.
    { clear -Hp. induction l as [| x l IHl]; cbn; [done |]. destruct (find_last _ l); [done |].
      destruct (p (stamp x)) eqn:Hx; [done |]. intros _. rewrite IHl by done.
      destruct (Z.eqb_spec (stamp x) (stamp v)) as [E |]; [| done]. rewrite E in Hx. congruence. }
    by rewrite (Hn h E) in Ey.
Qed.

Lemma find_last_ext {A} (p q : A -> bool) l : (forall x, x ∈ l -> p x = q x) -> find_last p l = find_last q l.
Proof.
  induction l as [| x l IH]; intros Hpq; cbn; [done |]. rewrite IH by (intros; apply Hpq; by right).
  by rewrite (Hpq x) by left.
Qed.

Lemma find_last_elem {A} (p : A -> bool) l x : find_last p l = Some x -> x ∈ l /\ p x = true.
Proof.
  induction l as [| y l IH]; cbn; [done |]. destruct (find_last p l) as [z |].
  - intros [= ->]. destruct IH; [done |]. split; [by right | done].
  - destruct (p y) eqn:E; [| done]. intros [= ->]. split; [by left | done].
Qed.

(** For stored versions the visibility is one of time stamps. *)
Lemma visible_by_stamp s h v :
  Forall stored h -> find_last (fun v => is_tuple_visible s (vt_timestamp v)) h = Some v -> stamped (stamp v) h = Some v.
Proof.
  intros Hh. rewrite (find_last_ext _ (fun v => is_tuple_visible s (mkTimestamp (stamp v) U64_MAX))).
  - apply find_last_stamped with (p := fun ts => is_tuple_visible s (mkTimestamp ts U64_MAX)).
  - intros x Hx. rewrite Forall_forall in Hh. destruct (Hh x Hx) as (_ & Hm & _). unfold stamp. rewrite <- Hm.
    by destruct (vt_timestamp x).
Qed.

(** ** Records of a batch *)

Lemma puts_other rs : forall m k, k ∉ rec_key <$> rs -> puts m rs !! k = m !! k.
Proof.
  induction rs as [| r rs IH]; intros m k Hk; [done |]. rewrite fmap_cons, not_elem_of_cons in Hk.
  cbn [puts foldl]. rewrite IH by tauto. apply lookup_insert_ne. intros E. by destruct Hk as [[] _].
Qed.

Lemma puts_elem rs : forall m r, NoDup (rec_key <$> rs) -> r ∈ rs -> puts m rs !! rec_key r = Some (r_payload r).
Proof.
  induction rs as [| x rs IH]; intros m r Hnd Hr; [by apply elem_of_nil in Hr |].
  rewrite fmap_cons in Hnd. apply NoDup_cons in Hnd as [Hx Hnd]. apply elem_of_cons in Hr as [-> | Hr].
  - cbn [puts foldl]. rewrite puts_other by done. apply lookup_insert_eq.
  - by apply (IH _ r).
Qed.

(** ** The invariant *)

Section relation_properties.
Context `{TimeSeriesOk F} `{OrdOk KeyTuple}.
Implicit Types (rel : Relation F) (h : KeyTuple -> list VersionTuple).

Definition tid_of (index : BTreeMap KeyTuple DataRowInner) (k : KeyTuple) : option Z := dr_tid <$> bt_get k index.

(** The rows of the index have the histories [h]. *)
Record index_rep (index : BTreeMap KeyTuple DataRowInner) h : Prop := mk_index_rep {
  ir_wf : bt_wf index;
  ir_stored : forall k, Forall stored (h k);
  ir_row : forall k row, bt_get k index = Some row -> exists hm, row_rep false row hm /\ Forall2 sketch hm (h k);
  ir_none : forall k, bt_get k index = None -> h k = [];
}.

(** The relation has the histories [h]; [vrs] are the records of its value
    file.  Tuple ids name keys, and the value file has the payload of every
    version that counts. *)
Record rel_rep rel h (vrs : list Rec) : Prop := mk_rel_rep {
  rr_values : ts_rep (rl_value_file rel) vrs;
  rr_index : index_rep (rl_index rel) h;
  rr_ids : forall k id, tid_of (rl_index rel) k = Some id -> 1 <= id < rl_next_tuple_id rel;
  rr_inj : forall k1 k2 id, tid_of (rl_index rel) k1 = Some id -> tid_of (rl_index rel) k2 = Some id -> k1 = k2;
  rr_payload : forall k id ts v, tid_of (rl_index rel) k = Some id -> stamped ts (h k) = Some v ->
                 vt_deleted v = false -> to_map vrs !! (ts, id) = Some (vt_buf v);
}.

(** Another value file with the same records. *)
Lemma rep_value_file rel h vrs f :
  rel_rep rel h vrs -> ts_rep f vrs ->
  rel_rep (mkRelation (rl_index rel) (rl_key_file rel) f (rl_next_tuple_id rel)) h vrs.
Proof. intros [] Hf. by split. Qed.

(** ** Reads *)

(** What a reader of a row gets. *)
Definition answer (s : Snapshot) (h : list VersionTuple) : option (list byte) :=
  live_value (find_last (fun v => is_tuple_visible s (vt_timestamp v)) h).

(** A relation that differs in its value file only, and there only in the
    cache. *)
Definition looked_at rel rel' : Prop :=
  rl_index rel' = rl_index rel /\ rl_key_file rel' = rl_key_file rel /\ rl_next_tuple_id rel' = rl_next_tuple_id rel.

Lemma read_payload_ok rel h vrs k row v :
  rel_rep rel h vrs -> bt_get k (rl_index rel) = Some row -> stamped (stamp v) (h k) = Some v -> vt_deleted v = false ->
  exists rel', read_value_payload (stamp v) (dr_tid row) rel = (Ok (vt_buf v), rel') /\
    rel_rep rel' h vrs /\ looked_at rel rel'.
Proof.
  intros R Hk Hv Hd. pose proof (rr_payload _ _ _ R k (dr_tid row) _ v ltac:(unfold tid_of; by rewrite Hk) Hv Hd) as Hp.
  destruct (ts_get_law (rl_value_file rel) vrs (stamp v) (dr_tid row) (rr_values _ _ _ R)) as (res & f' & E & Hf & Hr).
  rewrite Hp in Hr. destruct res as [record |]; [| done]. cbn in Hr. injection Hr as Hr.
  eexists. split; [| split; [by apply (rep_value_file rel h vrs f') | done]].
  unfold read_value_payload. st_step by (unfold on_value_file; rewrite E; reflexivity). cbn. by rewrite Hr.
Qed.

(** The visible version of a row in memory. *)
Lemma row_visible s row (hm h : list VersionTuple) :
  row_rep false row hm -> Forall2 sketch hm h -> Forall stored h ->
  exists res, read_visible_version row s = Ok res /\
    match find_last (fun v => is_tuple_visible s (vt_timestamp v)) h, res with
    | None, None => True
    | Some v, Some (m, own) => vt_timestamp m = vt_timestamp v /\ vt_deleted m = vt_deleted v /\ (own = true -> vt_buf m = vt_buf v)
    | _, _ => False
    end.
Proof.
  intros Hr Hs Hh. destruct (read_detailed_ok false s row hm Hr (sketch_ok _ _ Hs Hh)) as (res & E & Ho).
  exists res. unfold read_visible_version. rewrite E. split; [done |].
  pose proof (sketch_find (is_tuple_visible s) hm h Hs) as Hf.
  destruct (find_last _ hm) as [m |], (find_last _ h) as [v |], res as [[m' own] |]; try done.
  destruct Ho as ((Et & Ed & _) & Hown), Hf as (Et' & Ed' & Hb). split_and!; [congruence.. |].
  intros ->. destruct (Hown eq_refl) as [-> Hne]. by apply Hb.
Qed.

(** Reading the payload of the visible version of a row. *)
Lemma read_row_value rel h vrs k row s :
  rel_rep rel h vrs -> bt_get k (rl_index rel) = Some row ->
  exists visible, read_visible_version row s = Ok visible /\
    match not_deleted visible with
    | None => answer s (h k) = None
    | Some (version, true) => answer s (h k) = Some (vt_buf version)
    | Some (version, false) => exists payload rel', answer s (h k) = Some payload /\
        read_value_payload (c_min (vt_timestamp version)) (dr_tid row) rel = (Ok payload, rel') /\
        rel_rep rel' h vrs /\ looked_at rel rel'
    end.
Proof.
  intros R Hk. destruct (ir_row _ _ (rr_index _ _ _ R) k row Hk) as (hm & Hr & Hs).
  destruct (row_visible s row hm (h k) Hr Hs (ir_stored _ _ (rr_index _ _ _ R) k)) as (visible & E & Hv). exists visible. split; [done |].
  unfold answer. destruct (find_last _ (h k)) as [v |] eqn:Ef, visible as [[m own] |]; try done. cbn [not_deleted live_value].
  destruct Hv as (Et & Ed & Hown). rewrite Ed. destruct (vt_deleted v) eqn:Edv; [done |].
  destruct own; [by rewrite Hown |]. pose proof (visible_by_stamp s _ v (ir_stored _ _ (rr_index _ _ _ R) k) Ef) as Hst.
  destruct (read_payload_ok rel h vrs k row v R Hk Hst Edv) as (rel' & Er & R' & Hl). exists (vt_buf v), rel'.
  rewrite Et. done.
Qed.

Lemma looked_at_refl rel : looked_at rel rel.
Proof. done. Qed.

Lemma visible_value_ok rel h vrs k snapshot s :
  rel_rep rel h vrs -> to_snapshot snapshot = Ok s ->
  exists rel', visible_value k snapshot rel = (Ok (answer s (h k)), rel') /\ rel_rep rel' h vrs /\ looked_at rel rel'.
Proof.
  intros R Hs. unfold visible_value, visible_meta. destruct (bt_get k (rl_index rel)) as [row |] eqn:Hk.
  - destruct (read_row_value rel h vrs k row s R Hk) as (visible & E & Hv).
    assert (visible_meta k snapshot rel =
      (Ok (option_map (fun p => (dr_tid row, fst p, snd p)) (not_deleted visible)), rel)) as Em.
    { unfold visible_meta. st_step by reflexivity. rewrite Hk.
      st_step by (unfold st_lift; rewrite Hs; reflexivity). by st_step by (unfold st_lift; rewrite E; reflexivity). }
    st_step by exact Em. destruct (not_deleted visible) as [[version [|]] |]; cbn [option_map fst snd].
    + exists rel. by rewrite Hv.
    + destruct Hv as (payload & rel' & Ha & Er & R' & Hl). exists rel'. st_step by exact Er. by rewrite Ha.
    + exists rel. by rewrite Hv.
  - exists rel. split; [| done]. unfold answer. rewrite (ir_none _ _ (rr_index _ _ _ R) k Hk). unfold mbind, st_bind, st_get. by rewrite Hk.
Qed.

Definition range_item (s : Snapshot) h (k : KeyTuple) : option (list byte * list byte) :=
  (fun value => (key_bytes k, value)) <$> answer s (h k).

Lemma visible_rows_ok rows s h vrs : forall rel,
  rel_rep rel h vrs -> (forall k row, (k, row) ∈ rows -> bt_get k (rl_index rel) = Some row) ->
  exists rel', visible_rows rows s rel = (Ok (omap (range_item s h) rows.*1), rel') /\ rel_rep rel' h vrs /\ looked_at rel rel'.
Proof.
  induction rows as [| [k row] rows IH]; intros rel R Hrows; [by exists rel |].
  destruct (read_row_value rel h vrs k row s R (Hrows k row ltac:(by left))) as (visible & E & Hv).
  assert (exists rel1, visible_payloads (key_bytes k) row s rel = (Ok (range_item s h k), rel1) /\
    rel_rep rel1 h vrs /\ looked_at rel rel1) as (rel1 & E1 & R1 & Hl1).
  { unfold visible_payloads, range_item. st_step by (unfold st_lift; rewrite E; reflexivity).
    destruct (not_deleted visible) as [[version [|]] |].
    - exists rel. by rewrite Hv.
    - destruct Hv as (payload & rel' & Ha & Er & R' & Hl). exists rel'. st_step by exact Er. by rewrite Ha.
    - exists rel. by rewrite Hv. }
  destruct Hl1 as (Ei & Ek & En). destruct (IH rel1 R1) as (rel2 & E2 & R2 & Ei2 & Ek2 & En2).
  { intros k' row' Hin. rewrite Ei. apply Hrows. by right. }
  exists rel2. split; [| split; [done | unfold looked_at; split_and!; congruence]]. cbn [visible_rows].
  st_step by exact E1. st_step by exact E2. cbn. by destruct (range_item s h k).
Qed.

Lemma items_sorted s h (rows : BTreeMap KeyTuple DataRowInner) :
  bt_wf rows ->
  StronglySorted (fun a b => ord_cmp (mkKeyTuple a.1) (mkKeyTuple b.1) = Lt) (omap (range_item s h) rows.*1).
Proof.
  induction 1 as [| [k row] l Hl IH Hp]; cbn; [constructor |].
  unfold range_item at 1. destruct (answer s (h k)) as [value |]; cbn; [| exact IH]. constructor; [exact IH |].
  apply Forall_forall. intros [key v] (k' & (p & -> & Hk')%list_elem_of_fmap & Hi)%list_elem_of_omap.
  unfold range_item in Hi. destruct (answer s (h p.1)); [| done]. injection Hi as <- <-. cbn.
  rewrite Forall_forall in Hp. specialize (Hp _ Hk'). by destruct k, p as [[] ?].
Qed.

(** The keys of a range that have a live value. *)
Lemma visible_range_ok rel h vrs lower upper snapshot s :
  rel_rep rel h vrs -> to_snapshot snapshot = Ok s ->
  range_valid (bound_map mkKeyTuple lower) (bound_map mkKeyTuple upper) = true ->
  exists items rel', visible_range lower upper snapshot rel = (Ok items, rel') /\ rel_rep rel' h vrs /\ looked_at rel rel' /\
    StronglySorted (fun a b => ord_cmp (mkKeyTuple a.1) (mkKeyTuple b.1) = Lt) items /\
    forall key value, (key, value) ∈ items <->
      above (bound_map mkKeyTuple lower) (mkKeyTuple key) && below (bound_map mkKeyTuple upper) (mkKeyTuple key) = true /\
      answer s (h (mkKeyTuple key)) = Some value.
Proof.
  intros R Hs Hv. unfold visible_range, bt_range. rewrite Hv.
  set (rows := List.filter (fun p => above (bound_map mkKeyTuple lower) p.1 && below (bound_map mkKeyTuple upper) p.1) (rl_index rel)).
  assert (forall k row, (k, row) ∈ rows <-> bt_get k (rl_index rel) = Some row /\
    above (bound_map mkKeyTuple lower) k && below (bound_map mkKeyTuple upper) k = true) as Hrows.
  { intros k row. unfold rows. rewrite list_elem_of_In, filter_In, <- list_elem_of_In, bt_get_elem by apply (rr_index _ _ _ R). done. }
  destruct (visible_rows_ok rows s h vrs rel R) as (rel' & E & R' & Hl); [intros k row Hk; by apply Hrows in Hk as [? _] |].
  eexists _, rel'. split; [st_step by reflexivity; st_step by reflexivity; st_step by (unfold st_lift; rewrite Hs; reflexivity); exact E |].
  split_and!; [done | done | |].
  - apply items_sorted, bt_filter_wf, (rr_index _ _ _ R).
  - intros key value. rewrite list_elem_of_omap. unfold range_item. split.
    + intros (k & ([k' row] & -> & Hk)%list_elem_of_fmap & Hi). apply Hrows in Hk as [_ Hk]. cbn in Hi, Hk |- *.
      destruct (answer s (h k')) eqn:Ea; [| done]. injection Hi as <- <-. by destruct k'.
    + intros [Hk Ha]. exists (mkKeyTuple key). rewrite Ha. split; [| done].
      destruct (bt_get (mkKeyTuple key) (rl_index rel)) as [row |] eqn:Eg.
      * apply list_elem_of_fmap. exists (mkKeyTuple key, row). split; [done |]. by apply Hrows.
      * unfold answer in Ha. by rewrite (ir_none _ _ (rr_index _ _ _ R) _ Eg) in Ha.
Qed.

(** ** Writes *)

(** The histories behind a batch. *)
Definition extended h (xid : Z) (rows : list (list byte * option (list byte))) (k : KeyTuple) : list VersionTuple :=
  h k ++ versions_of (row_writes xid rows) (key_bytes k).

(** Reservations only add rows without versions. *)
Definition grown rel rel' : Prop :=
  (forall k id, tid_of (rl_index rel) k = Some id -> tid_of (rl_index rel') k = Some id) /\
  rl_key_file rel' = rl_key_file rel /\ rl_value_file rel' = rl_value_file rel.

Lemma grown_refl rel : grown rel rel.
Proof. done. Qed.

Lemma grown_trans rel1 rel2 rel3 : grown rel1 rel2 -> grown rel2 rel3 -> grown rel1 rel3.
Proof. intros (A1 & B1 & C1) (A2 & B2 & C2). split_and!; [eauto | congruence | congruence]. Qed.

Lemma tid_of_insert index k row k' :
  bt_wf index -> tid_of (bt_insert k row index) k' = if decide (k' = k) then Some (dr_tid row) else tid_of index k'.
Proof.
  intros Hw. unfold tid_of. case_decide as E; [subst; by rewrite bt_get_insert_eq | by rewrite bt_get_insert_ne].
Qed.

Lemma row_rep_new id : row_rep false (DataRow_new id) [].
Proof. by split_and!. Qed.

Lemma index_rep_new index h k id :
  index_rep index h -> bt_get k index = None -> index_rep (bt_insert k (DataRow_new id) index) h.
Proof.
  intros [Hw Hs Hr Hn] Hk. split; [by apply bt_insert_wf | done | |].
  - intros k' row. destruct (decide (k' = k)) as [-> |]; [| rewrite bt_get_insert_ne by done; apply Hr].
    rewrite bt_get_insert_eq by done. intros [= <-]. exists []. rewrite (Hn k Hk). by split; [apply row_rep_new |].
  - intros k'. destruct (decide (k' = k)) as [-> |]; [by rewrite bt_get_insert_eq |].
    rewrite bt_get_insert_ne by done. apply Hn.
Qed.

Lemma resolve_row_ok rel h vrs key :
  rel_rep rel h vrs -> 1 <= rl_next_tuple_id rel < U64_MAX ->
  exists id rel', resolve_row key rel = (Ok id, rel') /\ rel_rep rel' h vrs /\ grown rel rel' /\
    tid_of (rl_index rel') (mkKeyTuple key) = Some id /\ rl_next_tuple_id rel <= rl_next_tuple_id rel' <= rl_next_tuple_id rel + 1.
Proof.
  intros R Hn. unfold resolve_row. destruct (bt_get (mkKeyTuple key) (rl_index rel)) as [row |] eqn:Hk.
  - exists (dr_tid row), rel. split_and!; [| done | done | unfold tid_of; by rewrite Hk | lia | lia].
    st_step by reflexivity. by rewrite Hk.
  - pose proof (rr_index _ _ _ R) as I. pose proof (ir_wf _ _ I) as Hw.
    assert (rl_next_tuple_id rel + 1 < 18446744073709551616) as Hlt by mlia.
    eexists (rl_next_tuple_id rel), _. split.
    { st_step by reflexivity. rewrite Hk. st_step by reflexivity. st_step by reflexivity. reflexivity. }
    rewrite Z.mod_small by lia. cbn [rl_index set_index set_next_tuple_id rl_next_tuple_id].
    assert (forall k id, tid_of (rl_index rel) k = Some id -> k <> mkKeyTuple key) as Hne.
    { intros k id Hid ->. unfold tid_of in Hid. by rewrite Hk in Hid. }
    split_and!; [| | by rewrite tid_of_insert, decide_True | lia | lia].
    + split; cbn [rl_index set_index set_next_tuple_id rl_next_tuple_id rl_value_file]; [apply R | by apply index_rep_new | | |].
      * intros k id. rewrite tid_of_insert by done. case_decide; [intros [= <-]; cbn; lia |].
        intros Hid. pose proof (rr_ids _ _ _ R k id Hid). lia.
      * intros k1 k2 id. rewrite !tid_of_insert by done. case_decide; case_decide; subst; [done | | | apply (rr_inj _ _ _ R)].
        -- intros [= <-] Hid. pose proof (rr_ids _ _ _ R k2 _ Hid). cbn in *. lia.
        -- intros Hid [= <-]. pose proof (rr_ids _ _ _ R k1 _ Hid). cbn in *. lia.
      * intros k id ts v. rewrite tid_of_insert by done. case_decide; [| apply (rr_payload _ _ _ R)].
        subst k. intros _. by rewrite (ir_none _ _ I _ Hk).
    + split_and!; [| done | done]. intros k id Hid. cbn [rl_index set_index]. rewrite tid_of_insert by done.
      by rewrite decide_False by eauto.
Qed.

Lemma resolve_rows_ok keys h vrs : forall rel,
  rel_rep rel h vrs -> 1 <= rl_next_tuple_id rel -> rl_next_tuple_id rel + zlen keys <= U64_MAX ->
  exists ids rel', resolve_rows keys rel = (Ok ids, rel') /\ rel_rep rel' h vrs /\ grown rel rel' /\
    Forall2 (fun key id => tid_of (rl_index rel') (mkKeyTuple key) = Some id) keys ids /\
    rl_next_tuple_id rel <= rl_next_tuple_id rel' <= rl_next_tuple_id rel + zlen keys.
Proof.
  induction keys as [| key keys IH]; intros rel R Hn Hmax.
  { exists [], rel. change (zlen (@nil (list byte))) with 0. split_and!; [done.. | lia | lia]. }
  rewrite zlen_cons in Hmax |- *. pose proof (zlen_nonneg keys).
  destruct (resolve_row_ok rel h vrs key R ltac:(lia)) as (id & rel1 & E1 & R1 & G1 & Hid & Hn1).
  destruct (IH rel1 R1 ltac:(lia) ltac:(lia)) as (ids & rel2 & E2 & R2 & G2 & HF & Hn2).
  exists (id :: ids), rel2. split_and!; [| done | by eapply grown_trans | | lia | lia].
  - cbn [resolve_rows]. st_step by exact E1. by st_step by exact E2.
  - constructor; [by apply G2 | done].
Qed.

(** A version on top of a row. *)
Lemma index_rep_write index h k row m v :
  index_rep index h -> bt_get k index = Some row -> sketch m v -> stored v ->
  exists row', write_version_shallow m row = (Ok tt, row') /\ dr_tid row' = dr_tid row /\
    index_rep (bt_insert k row' index) (fun k' => if decide (k' = k) then h k ++ [v] else h k').
Proof.
  intros [Hw Hs Hr Hn] Hk Hm Hv. destruct (Hr k row Hk) as (hm & Hrep & HF).
  destruct (write_row_rep false m row hm Hrep) as (row' & E & Hrep'). exists row'. split; [done |]. split.
  { cbn [write_row] in E. unfold write_version_shallow, st_modify in E. injection E as <-. by destruct (last (dr_tuple row)). }
  split; [by apply bt_insert_wf | | |].
  - intros k'. case_decide; [| done]. apply Forall_app. split; [apply Hs | by apply Forall_singleton].
  - intros k' r. case_decide as E'; [subst k' |].
    + rewrite bt_get_insert_eq by done. intros [= <-]. exists (hm ++ [m]). split; [done |]. by apply Forall2_app; [| constructor].
    + rewrite bt_get_insert_ne by done. apply Hr.
  - intros k'. case_decide as E'; [subst k'; by rewrite bt_get_insert_eq | rewrite bt_get_insert_ne by done; apply Hn].
Qed.

Lemma stored_version xid value : in_u64 xid -> row_write_ok ([], value, xid) -> stored (row_version xid value).
Proof.
  intros Hx Hv. unfold row_write_ok in Hv. cbn in Hv. split; [| by destruct value].
  destruct value; split; cbn; [done | done | change (zlen (@nil byte)) with 0; mlia | done].
Qed.

Lemma publish_rows_ok xid rows : forall rel h,
  index_rep (rl_index rel) h -> in_u64 xid -> Forall row_write_ok (row_writes xid rows) ->
  Forall (fun key => is_Some (tid_of (rl_index rel) (mkKeyTuple key))) rows.*1 ->
  exists index', publish_rows xid rows rel = (Ok tt, set_index index' rel) /\
    index_rep index' (extended h xid rows) /\ forall k, tid_of index' k = tid_of (rl_index rel) k.
Proof.
  induction rows as [| [key value] rows IH]; intros rel h I Hx Hok Hin.
  { exists (rl_index rel). split; [by destruct rel |]. split; [| done]. destruct I as [Hw Hs Hr Hn].
    split; [done | | |]; unfold extended; cbn; intros k; [by rewrite app_nil_r | rewrite app_nil_r; apply Hr | rewrite app_nil_r; apply Hn]. }
  cbn in Hin. apply Forall_cons in Hin as [[id Hid] Hin]. unfold tid_of in Hid.
  destruct (bt_get (mkKeyTuple key) (rl_index rel)) as [row |] eqn:Hk; [| done].
  cbn in Hok. apply Forall_cons in Hok as [Hv Hok].
  assert (stored (row_version xid value)) as Hst by (apply stored_version; [done | exact Hv]).
  destruct (index_rep_write _ h _ row _ _ I Hk (sketch_refl _) Hst) as (row' & E & Ht & I').
  assert (forall k, tid_of (bt_insert (mkKeyTuple key) row' (rl_index rel)) k = tid_of (rl_index rel) k) as Hids.
  { intros k. rewrite tid_of_insert by apply I. case_decide; [subst; unfold tid_of; by rewrite Hk, Ht | done]. }
  destruct (IH (set_index (bt_insert (mkKeyTuple key) row' (rl_index rel)) rel) _ I' Hx Hok) as (index' & E' & I'' & Hids').
  { eapply Forall_impl; [exact Hin |]. cbn [rl_index set_index]. intros k. by rewrite Hids. }
  exists index'. split; [| split].
  - cbn [publish_rows]. st_step by (unfold on_row; rewrite Hk; unfold row_version, new_value_version in E; by destruct value; rewrite E). exact E'.
  - destruct I'' as [Hw Hs Hr Hn]. assert (forall k, extended (fun k' => if decide (k' = mkKeyTuple key) then h (mkKeyTuple key) ++ [row_version xid value] else h k') xid rows k =
      extended h xid ((key, value) :: rows) k) as Eh.
    { intros [k]. unfold extended, row_writes, versions_of. rewrite fmap_cons, filter_cons. cbn [fst snd key_bytes].
      destruct (decide (key = k)) as [-> | Hne].
      - rewrite decide_True by done. by rewrite <- app_assoc.
      - rewrite decide_False by congruence. done. }
    split; [done | | |]; intros k; rewrite <- Eh; [apply Hs | apply Hr | apply Hn].
  - intros k. by rewrite Hids', <- Hids.
Qed.

(** *** The records of a batch *)

Definition key_recs (xid : Z) (rows : list (list byte * option (list byte))) (ids : list Z) : list Rec :=
  zip_with (fun row id => mkRec xid id row.1) rows ids.

Definition value_recs (xid : Z) (rows : list (list byte * option (list byte))) (ids : list Z) : list Rec :=
  omap (fun p => mkRec xid p.2 <$> p.1.2) (zip rows ids).

Lemma key_rows_recs xid rows ids : key_rows xid rows ids = row_of <$> key_recs xid rows ids.
Proof.
  unfold key_rows, key_recs. revert ids. induction rows as [| row rows IH]; intros [| id ids]; cbn; [done.. | by rewrite IH].
Qed.

Lemma value_rows_recs xid rows ids : value_rows xid rows ids = row_of <$> value_recs xid rows ids.
Proof.
  unfold value_rows, value_recs. induction (zip rows ids) as [| [[key [value |]] id] l IH]; cbn; [done | by rewrite IH | done].
Qed.

(** The ids that were reserved for the rows. *)
Definition batch_ids (index : BTreeMap KeyTuple DataRowInner) (rows : list (list byte * option (list byte))) (ids : list Z) : Prop :=
  Forall2 (fun key id => tid_of index (mkKeyTuple key) = Some id) rows.*1 ids.

Section batch.
Context (index : BTreeMap KeyTuple DataRowInner) (xid : Z).
Context (Hinj : forall k1 k2 id, tid_of index k1 = Some id -> tid_of index k2 = Some id -> k1 = k2).

Lemma key_recs_elem rows ids r :
  batch_ids index rows ids -> r ∈ key_recs xid rows ids ->
  r_ts r = xid /\ r_payload r ∈ rows.*1 /\ tid_of index (mkKeyTuple (r_payload r)) = Some (r_id r).
Proof.
  unfold batch_ids. revert ids. induction rows as [| [key value] rows IH]; intros ids HF; cbn in *.
  { by intros ?%elem_of_nil. }
  inversion HF as [| ? id ? ids' Hid HF']; subst. intros [-> | Hr]%elem_of_cons; [split_and!; [done | by left | done] |].
  destruct (IH _ HF' Hr) as (? & ? & ?). split_and!; [done | by right | done].
Qed.

Lemma key_recs_in rows ids key id :
  batch_ids index rows ids -> key ∈ rows.*1 -> tid_of index (mkKeyTuple key) = Some id -> mkRec xid id key ∈ key_recs xid rows ids.
Proof.
  unfold batch_ids. revert ids. induction rows as [| [key' value] rows IH]; intros ids HF; cbn in *.
  { by intros ?%elem_of_nil. }
  inversion HF as [| ? id' ? ids' Hid HF']; subst. intros [-> | Hr]%elem_of_cons Hk.
  - rewrite Hid in Hk. injection Hk as ->. by left.
  - right. by apply IH.
Qed.

Lemma value_recs_elem rows ids r :
  batch_ids index rows ids -> r ∈ value_recs xid rows ids ->
  r_ts r = xid /\ exists key, (key, Some (r_payload r)) ∈ rows /\ tid_of index (mkKeyTuple key) = Some (r_id r).
Proof.
  unfold batch_ids, value_recs. revert ids. induction rows as [| [key value] rows IH]; intros ids HF; cbn in *.
  { by intros ?%elem_of_nil. }
  inversion HF as [| ? id ? ids' Hid HF']; subst. cbn [zip zip_with omap list_omap snd fst].
  assert (r ∈ omap (fun p : list byte * option (list byte) * Z => mkRec xid p.2 <$> p.1.2) (zip rows ids') ->
    r_ts r = xid /\ exists key0, (key0, Some (r_payload r)) ∈ (key, value) :: rows /\ tid_of index (mkKeyTuple key0) = Some (r_id r)) as Htl.
  { intros Hr. destruct (IH _ HF' Hr) as (? & k & ? & ?). split; [done |]. exists k. split; [by right | done]. }
  destruct value as [value |]; cbn; [| exact Htl]. intros [-> | Hr]%elem_of_cons; [| by apply Htl].
  split; [done |]. exists key. split; [by left | done].
Qed.

Lemma value_recs_in rows ids key value id :
  batch_ids index rows ids -> (key, Some value) ∈ rows -> tid_of index (mkKeyTuple key) = Some id ->
  mkRec xid id value ∈ value_recs xid rows ids.
Proof.
  unfold batch_ids, value_recs. revert ids. induction rows as [| [key' value'] rows IH]; intros ids HF; cbn in *.
  { by intros ?%elem_of_nil. }
  inversion HF as [| ? id' ? ids' Hid HF']; subst. cbn [zip zip_with omap list_omap snd fst].
  intros [[= <- <-] | Hr]%elem_of_cons Hk.
  - rewrite Hid in Hk. injection Hk as ->. cbn. by left.
  - specialize (IH _ HF' Hr Hk). destruct value'; cbn; [by right | done].
Qed.

Lemma batch_ids_nodup rows ids : batch_ids index rows ids -> NoDup rows.*1 -> NoDup ids.
Proof.
  unfold batch_ids. induction 1 as [| key id keys ids Hid HF IH]; [constructor |]. intros [Hk Hnd]%NoDup_cons.
  apply NoDup_cons. split; [| by apply IH]. intros Hin. apply Hk. clear -Hinj Hid HF Hin.
  induction HF as [| key' id' keys ids Hid' HF IH]; [by apply elem_of_nil in Hin |].
  apply elem_of_cons in Hin as [-> | Hin]; [| right; by apply IH].
  pose proof (Hinj _ _ _ Hid Hid') as [= ->]. by left.
Qed.

Lemma key_recs_nodup rows ids : batch_ids index rows ids -> NoDup rows.*1 -> NoDup (rec_key <$> key_recs xid rows ids).
Proof.
  intros HF Hnd. pose proof (batch_ids_nodup rows ids HF Hnd) as Hids.
  assert (rec_key <$> key_recs xid rows ids = pair xid <$> ids) as ->.
  { apply Forall2_length in HF. rewrite length_fmap in HF. unfold key_recs. clear -HF. revert ids HF.
    induction rows as [| row rows IH]; intros [| id ids] E; cbn in *; [done.. |]. unfold rec_key at 1. cbn. by rewrite IH by lia. }
  apply NoDup_fmap; [| done]. by intros ? ? [= ->].
Qed.

Lemma value_recs_nodup rows ids : batch_ids index rows ids -> NoDup rows.*1 -> NoDup (rec_key <$> value_recs xid rows ids).
Proof.
  intros HF Hnd. pose proof (batch_ids_nodup rows ids HF Hnd) as Hids. unfold value_recs. clear HF Hnd Hinj.
  revert rows. induction Hids as [| id ids Hid Hnd IH]; intros [| [key [value |]] rows]; cbn; try (by constructor); [| apply IH].
  apply NoDup_cons. split; [| apply IH]. unfold rec_key at 1. cbn. intros (r & E & Hr)%list_elem_of_fmap.
  apply list_elem_of_omap in Hr as ([[k v] i] & Hi & Er). cbn in Er. destruct v; [| done]. cbn in Er. injection Er as <-.
  cbn in E. injection E as ->. apply Hid. by eapply elem_of_zip_r.
Qed.
End batch.

(** *** A batch *)

Lemma stamped_snoc ts l v : stamped ts (l ++ [v]) = if stamp v =? ts then Some v else stamped ts l.
Proof. unfold stamped. by rewrite find_last_app. Qed.

Lemma stamp_row_version xid value : stamp (row_version xid value) = xid.
Proof. by destruct value. Qed.

(** The value file behind a batch. *)
Lemma payload_extended index h vrs xid rows ids :
  (forall k1 k2 id, tid_of index k1 = Some id -> tid_of index k2 = Some id -> k1 = k2) ->
  (forall k id ts v, tid_of index k = Some id -> stamped ts (h k) = Some v ->
     vt_deleted v = false -> to_map vrs !! (ts, id) = Some (vt_buf v)) ->
  batch_ids index rows ids -> NoDup rows.*1 ->
  forall k id ts v, tid_of index k = Some id -> stamped ts (extended h xid rows k) = Some v ->
    vt_deleted v = false -> puts (to_map vrs) (value_recs xid rows ids) !! (ts, id) = Some (vt_buf v).
Proof.
  intros Hinj Hp HF Hnd [key] id ts v Hid Hv Hd. unfold extended in Hv. cbn [key_bytes] in Hv.
  pose proof (value_recs_nodup index xid Hinj rows ids HF Hnd) as Hvn.
  destruct (versions_row_writes xid rows key Hnd) as [Hw1 Hw2].
  assert (stamped ts (h (mkKeyTuple key)) = Some v -> (key ∈ rows.*1 -> ts <> xid) ->
    puts (to_map vrs) (value_recs xid rows ids) !! (ts, id) = Some (vt_buf v)) as Hold.
  { intros Hst Hne. rewrite puts_other; [by eapply Hp |]. intros (r & E & Hr)%list_elem_of_fmap.
    destruct (value_recs_elem index xid rows ids r HF Hr) as (Hts & k & Hk & Htid). injection E as -> ->.
    pose proof (Hinj _ _ _ Hid Htid) as [= ->]. apply Hne; [| done]. apply list_elem_of_fmap. by exists (k, Some (r_payload r)). }
  destruct (decide (key ∈ rows.*1)) as [Hin | Hin].
  - apply list_elem_of_fmap in Hin as ([k value] & -> & Hin). cbn [fst] in *. rewrite (Hw1 value Hin), stamped_snoc, stamp_row_version in Hv.
    destruct (Z.eqb_spec xid ts) as [<- | Hne]; [| by apply Hold].
    injection Hv as <-. destruct value as [value |]; [| done].
    by apply (puts_elem _ (to_map vrs) (mkRec xid id value) Hvn), (value_recs_in index xid rows ids k).
  - rewrite Hw2, app_nil_r in Hv by done. by apply Hold.
Qed.

(** The room that a batch needs in the files. *)
Definition batch_room (rel : Relation F) (rows : list (list byte * option (list byte))) (xid : Z) : Prop :=
  1 <= rl_next_tuple_id rel /\ rl_next_tuple_id rel + zlen rows <= U64_MAX /\ in_u64 xid /\
  forall ids rel', resolve_rows rows.*1 rel = (Ok ids, rel') ->
    ts_room (rl_key_file rel) (key_recs xid rows ids) /\ ts_room (rl_value_file rel) (value_recs xid rows ids).

(** No row of the batch has a version of the transaction yet. *)
Definition fresh_xid h (xid : Z) (rows : list (list byte * option (list byte))) : Prop :=
  forall key, key ∈ rows.*1 -> xid ∉ stamp <$> h (mkKeyTuple key).

Lemma value_file_rep rel h vrs f vrs' :
  rel_rep rel h vrs -> ts_rep f vrs' ->
  (forall k id ts v, tid_of (rl_index rel) k = Some id -> stamped ts (h k) = Some v ->
     vt_deleted v = false -> to_map vrs' !! (ts, id) = Some (vt_buf v)) ->
  forall kf, rel_rep (mkRelation (rl_index rel) kf f (rl_next_tuple_id rel)) h vrs'.
Proof. intros [] Hf Hp kf. by split. Qed.

Lemma insert_both_cases now rel h krs vrs xid rows ids :
  rel_rep rel h vrs -> ts_rep (rl_key_file rel) krs ->
  ts_room (rl_key_file rel) (key_recs xid rows ids) -> ts_room (rl_value_file rel) (value_recs xid rows ids) ->
  exists res kf vf krs' vrs',
    insert_both now (key_rows xid rows ids) (value_rows xid rows ids) rel =
      (res, mkRelation (rl_index rel) kf vf (rl_next_tuple_id rel)) /\
    ts_rep kf krs' /\ ts_rep vf vrs' /\ krs' ⊆+ key_recs xid rows ids ++ krs /\ vrs' ⊆+ value_recs xid rows ids ++ vrs /\
    match res with
    | Ok _ => to_map krs' = puts (to_map krs) (key_recs xid rows ids) /\ to_map vrs' = puts (to_map vrs) (value_recs xid rows ids)
    | Err _ => to_map vrs' = to_map vrs \/ to_map vrs' = puts (to_map vrs) (value_recs xid rows ids)
    | Panic => False
    end.
Proof.
  intros R Hk Rk Rv. unfold insert_both, on_key_file, on_value_file.
  rewrite key_rows_recs, value_rows_recs. cbn [rl_index rl_key_file rl_value_file rl_next_tuple_id].
  assert (forall f rs rows, ts_rep f rs -> ts_room f rows -> exists f' rs', ts_rep f' rs' /\ rs' ⊆+ rows ++ rs /\
    ((ts_insert_batch now (row_of <$> rows) f = (Ok tt, f') /\ to_map rs' = puts (to_map rs) rows) \/
     (exists e, ts_insert_batch now (row_of <$> rows) f = (Err e, f') /\ to_map rs' = to_map rs))) as Hins.
  { intros f rs rows' Hf Hr. destruct (ts_insert_law now f rs rows' Hf Hr) as [(f' & rs' & E & Hf' & Hm & Hs) | (e & f' & E & Hf')].
    - exists f', rs'. split_and!; [done | done | by left].
    - exists f', rs. split_and!; [done | by apply submseteq_inserts_l | right; by exists e]. }
  destruct (Hins _ _ _ Hk Rk) as (kf & krs' & Hkf & Hks & Hkr).
  destruct (Hins _ _ _ (rr_values _ _ _ R) Rv) as (vf & vrs' & Hvf & Hvs & Hvr).
  destruct Hkr as [[Ek Hkm] | (e & Ek & Hkm)]; rewrite Ek; cbn [rl_index rl_key_file rl_value_file rl_next_tuple_id]; destruct Hvr as [[Ev Hvm] | (e' & Ev & Hvm)]; rewrite Ev;
    eexists _, kf, vf, krs', vrs'; (split; [reflexivity |]); split_and!; eauto.
Qed.

Lemma write_rows_ok now rows xid rel h krs vrs :
  rel_rep rel h vrs -> ts_rep (rl_key_file rel) krs -> batch_room rel rows xid ->
  Forall row_write_ok (row_writes xid rows) -> NoDup rows.*1 ->
  exists res rel' ids krs' vrs', relation_write_rows now rows xid rel = (res, rel') /\
    batch_ids (rl_index rel') rows ids /\
    (forall k id, tid_of (rl_index rel) k = Some id -> tid_of (rl_index rel') k = Some id) /\
    rl_next_tuple_id rel <= rl_next_tuple_id rel' <= rl_next_tuple_id rel + zlen rows /\
    ts_rep (rl_key_file rel') krs' /\ krs' ⊆+ key_recs xid rows ids ++ krs /\ vrs' ⊆+ value_recs xid rows ids ++ vrs /\
    match res with
    | Ok _ => rel_rep rel' (extended h xid rows) vrs' /\
        to_map krs' = puts (to_map krs) (key_recs xid rows ids) /\ to_map vrs' = puts (to_map vrs) (value_recs xid rows ids)
    | Err _ => fresh_xid h xid rows -> rel_rep rel' h vrs'
    | Panic => False
    end.
Proof.
  intros R Hk (Hn & Hmax & Hx & Hroom) Hok Hnd. destruct (decide (rows = [])) as [-> | Hne].
  { eexists _, rel, [], krs, vrs. split; [reflexivity |]. change (zlen (@nil (list byte * option (list byte)))) with 0.
    split_and!; [constructor | done | lia | lia | done | done | done | | done | done].
    destruct R as [Hv [Hw Hs Hr Hno] Hi Hj Hp].
    assert (forall k, extended h xid [] k = h k) as Eh by (intros k; apply app_nil_r).
    split; [done | split; [done | | |] | done | done |]; intros k; rewrite Eh; [apply Hs | apply Hr | apply Hno | apply Hp]. }
  destruct (resolve_rows_ok rows.*1 h vrs rel R Hn) as (ids & rel1 & E1 & R1 & (Hgr & Ekf & Evf) & HF & Hn1);
    [unfold zlen in *; by rewrite length_fmap |].
  assert (zlen rows.*1 = zlen rows) as Ez by (unfold zlen; by rewrite length_fmap).
  destruct (Hroom _ _ E1) as [Rk Rv]. rewrite <- Ekf in Rk, Hk. rewrite <- Evf in Rv.
  destruct (insert_both_cases now rel1 h krs vrs xid rows ids R1 Hk Rk Rv)
    as (res & kf & vf & krs' & vrs' & E2 & Hkf & Hvf & Hks & Hvs & Hres).
  assert (relation_write_rows now rows xid rel =
    (insert_both now (key_rows xid rows ids) (value_rows xid rows ids) ;; publish_rows xid rows) rel1) as Ew.
  { unfold relation_write_rows. destruct rows; [done |]. by st_step by exact E1. }
  assert (forall k id ts v, tid_of (rl_index rel1) k = Some id -> stamped ts (extended h xid rows k) = Some v ->
    vt_deleted v = false -> puts (to_map vrs) (value_recs xid rows ids) !! (ts, id) = Some (vt_buf v)) as Hput
    by (apply payload_extended; [apply R1 | apply R1 | done | done]).
  destruct res as [[] | e |]; [| | done].
  - destruct Hres as [Hkm Hvm].
    destruct (publish_rows_ok xid rows (mkRelation (rl_index rel1) kf vf (rl_next_tuple_id rel1)) h (rr_index _ _ _ R1) Hx Hok)
      as (index' & E3 & I' & Hids).
    { cbn [rl_index]. clear -HF. induction HF; constructor; [by eexists | done]. }
    cbn [rl_index] in Hids. eexists _, _, ids, krs', vrs'. split; [rewrite Ew; st_step by exact E2; exact E3 |].
    cbn [set_index rl_index rl_key_file rl_value_file rl_next_tuple_id].
    split_and!; [| intros k id; rewrite Hids; apply Hgr | lia | lia | done | done | done | | done | done].
    + unfold batch_ids. clear -HF Hids. induction HF; constructor; [by rewrite Hids | done].
    + split; cbn [set_index rl_index rl_key_file rl_value_file rl_next_tuple_id]; [done | done | | |].
      * intros k id. rewrite Hids. apply (rr_ids _ _ _ R1).
      * intros k1 k2 id. rewrite !Hids. apply (rr_inj _ _ _ R1).
      * intros k id ts v. rewrite Hids, Hvm. apply Hput.
  - eexists _, _, ids, krs', vrs'. split; [rewrite Ew; unfold mbind, st_bind; rewrite E2; reflexivity |].
    cbn [rl_index rl_key_file rl_next_tuple_id]. split_and!; [done | done | lia | lia | done | done | done |].
    intros Hfresh. apply (value_file_rep rel1 h vrs); [done | done |]. destruct Hres as [-> | ->]; [apply R1 |].
    intros k id ts v Hid Hst Hd. destruct (decide (key_bytes k ∈ rows.*1 /\ ts = xid)) as [[Hin ->] | Hno].
    + exfalso. apply (Hfresh _ Hin). destruct k. apply list_elem_of_fmap. apply find_last_elem in Hst as [Hel Hq].
      exists v. split; [lia | done].
    + apply (Hput k id ts v Hid); [| done]. unfold extended.
      destruct (versions_row_writes xid rows (key_bytes k) Hnd) as [Hw1 Hw2].
      destruct (decide (key_bytes k ∈ rows.*1)) as [Hin | Hin]; [| by rewrite Hw2, app_nil_r].
      apply list_elem_of_fmap in Hin as ([k' value] & Ek' & Hin). cbn in Ek'. subst k'. rewrite (Hw1 value Hin), stamped_snoc, stamp_row_version.
      destruct (Z.eqb_spec xid ts) as [<- |]; [| done]. exfalso. apply Hno. split; [| done].
      apply list_elem_of_fmap. by exists (key_bytes k, value).
Qed.

(** ** The files *)

(** The two files tell the histories [h], when every row was written in the
    order of the transaction ids: the key file has one record for every
    version, and the value file has one for those that are not deletions. *)
Record files_rep rel h (krs vrs : list Rec) : Prop := mk_files_rep {
  fr_keys : ts_rep (rl_key_file rel) krs;
  fr_nodup : NoDup (rec_key <$> krs);
  fr_recs : forall r, r ∈ krs -> tid_of (rl_index rel) (mkKeyTuple (r_payload r)) = Some (r_id r) /\
              r_ts r ∈ stamp <$> h (mkKeyTuple (r_payload r));
  fr_versions : forall k id v, tid_of (rl_index rel) k = Some id -> v ∈ h k -> (stamp v, id) ∈ rec_key <$> krs;
  fr_dead : forall k id v, tid_of (rl_index rel) k = Some id -> v ∈ h k -> vt_deleted v = true ->
              to_map vrs !! (stamp v, id) = None;
  fr_values : forall ts id, is_Some (to_map vrs !! (ts, id)) ->
                exists k, tid_of (rl_index rel) k = Some id /\ ts ∈ stamp <$> h k;
  fr_sorted : forall k, StronglySorted Z.lt (stamp <$> h k);
}.

(** The transaction is newer than all versions of the rows it writes. *)
Definition newer_xid h (xid : Z) (rows : list (list byte * option (list byte))) : Prop :=
  forall key, key ∈ rows.*1 -> Forall (fun v => stamp v < xid) (h (mkKeyTuple key)).

Lemma newer_fresh h xid rows : newer_xid h xid rows -> fresh_xid h xid rows.
Proof.
  intros Hn key Hk (v & -> & Hv)%list_elem_of_fmap. specialize (Hn key Hk). rewrite Forall_forall in Hn.
  specialize (Hn v Hv). lia.
Qed.

(** What a batch adds to a history. *)
Lemma extended_elem h xid rows k v :
  NoDup rows.*1 -> v ∈ extended h xid rows k ->
  v ∈ h k \/ exists value, (key_bytes k, value) ∈ rows /\ v = row_version xid value.
Proof.
  intros Hnd [Hv | Hv]%elem_of_app; [by left | right].
  destruct (versions_row_writes xid rows (key_bytes k) Hnd) as [Hw1 Hw2].
  destruct (decide (key_bytes k ∈ rows.*1)) as [Hin | Hin]; [| by rewrite Hw2 in Hv; [apply elem_of_nil in Hv |]].
  apply list_elem_of_fmap in Hin as ([k' value] & Ek & Hin). cbn in Ek. subst k'.
  rewrite (Hw1 value Hin), list_elem_of_singleton in Hv. by exists value.
Qed.

Lemma extended_stamp h xid rows key : key ∈ rows.*1 -> xid ∈ stamp <$> extended h xid rows (mkKeyTuple key).
Proof.
  intros ([k value] & -> & Hin)%list_elem_of_fmap. unfold extended. rewrite fmap_app. apply elem_of_app. right.
  apply list_elem_of_fmap. exists (row_version xid value). split; [by rewrite stamp_row_version |].
  unfold versions_of. apply list_elem_of_fmap. exists (k, value, xid). split; [done |].
  apply list_elem_of_filter. split; [done |]. apply list_elem_of_fmap. by exists (k, value).
Qed.

Lemma extended_sub h xid rows k ts : ts ∈ stamp <$> h k -> ts ∈ stamp <$> extended h xid rows k.
Proof. intros Hts. unfold extended. rewrite fmap_app. apply elem_of_app. by left. Qed.

Section files_write.
Context (rel rel' : Relation F) (h : KeyTuple -> list VersionTuple) (krs vrs krs' vrs' : list Rec).
Context (xid : Z) (rows : list (list byte * option (list byte))) (ids : list Z).
Context (R : files_rep rel h krs vrs) (Hnew : newer_xid h xid rows) (Hnr : NoDup rows.*1).
Context (Hinj : forall k1 k2 id, tid_of (rl_index rel') k1 = Some id -> tid_of (rl_index rel') k2 = Some id -> k1 = k2).
Context (Hnone : forall k, tid_of (rl_index rel) k = None -> h k = []).
Context (HF : batch_ids (rl_index rel') rows ids).
Context (Hgr : forall k id, tid_of (rl_index rel) k = Some id -> tid_of (rl_index rel') k = Some id).
Context (Hsub : krs' ⊆+ key_recs xid rows ids ++ krs).
Context (Hkm : to_map krs' = puts (to_map krs) (key_recs xid rows ids)).
Context (Hvm : to_map vrs' = puts (to_map vrs) (value_recs xid rows ids)).

(** The old versions of a row have the same tuple id. *)
Lemma old_tid k id v : tid_of (rl_index rel') k = Some id -> v ∈ h k -> tid_of (rl_index rel) k = Some id.
Proof.
  intros Hid Hv. destruct (tid_of (rl_index rel) k) as [id0 |] eqn:E0.
  - apply Hgr in E0. congruence.
  - rewrite Hnone in Hv by done. by apply elem_of_nil in Hv.
Qed.

(** The records of the batch are about the rows of the batch. *)
Lemma value_rec_key k id ts :
  tid_of (rl_index rel') k = Some id -> (ts, id) ∈ rec_key <$> value_recs xid rows ids ->
  ts = xid /\ exists value, (key_bytes k, Some value) ∈ rows.
Proof.
  intros Hid (r & E & Hin)%list_elem_of_fmap. destruct (value_recs_elem _ xid rows ids r HF Hin) as (Ets & key & Hkey & Hid').
  injection E as -> ->. pose proof (Hinj _ _ _ Hid Hid') as ->. split; [done |]. by eexists.
Qed.

Lemma files_write_nodup : NoDup (rec_key <$> krs').
Proof.
  pose proof (fmap_submseteq rec_key _ _ Hsub) as Hs. rewrite fmap_app in Hs.
  eapply submseteq_nodup; [exact Hs |]. apply NoDup_app. split_and!; [by eapply key_recs_nodup | | apply R].
  intros key (r & -> & Hin)%list_elem_of_fmap (r' & E & Hin')%list_elem_of_fmap.
  destruct (key_recs_elem _ xid rows ids r HF Hin) as (Ets & Hp & Hid).
  destruct (fr_recs _ _ _ _ R r' Hin') as [Hid' Hst]. injection E as E1 E2. apply Hgr in Hid'. rewrite <- E2 in Hid'.
  pose proof (Hinj _ _ _ Hid Hid') as [= Ep]. rewrite <- Ep, <- E1, Ets in Hst.
  by apply (newer_fresh _ _ _ Hnew) in Hst.
Qed.

Lemma files_write_recs r : r ∈ krs' ->
  tid_of (rl_index rel') (mkKeyTuple (r_payload r)) = Some (r_id r) /\ r_ts r ∈ stamp <$> extended h xid rows (mkKeyTuple (r_payload r)).
Proof.
  intros Hin. apply (elem_of_submseteq _ _ _ Hin), elem_of_app in Hsub as [Hin' | Hin'].
  - destruct (key_recs_elem _ xid rows ids r HF Hin') as (Ets & Hp & Hid). split; [done |]. rewrite Ets. by apply extended_stamp.
  - destruct (fr_recs _ _ _ _ R r Hin') as [Hid Hst]. split; [by apply Hgr | by apply extended_sub].
Qed.

Lemma files_write_versions k id v :
  tid_of (rl_index rel') k = Some id -> v ∈ extended h xid rows k -> (stamp v, id) ∈ rec_key <$> krs'.
Proof.
  intros Hid Hin. apply to_map_is_some. rewrite Hkm.
  assert (forall k, k ∈ rec_key <$> key_recs xid rows ids -> is_Some (puts (to_map krs) (key_recs xid rows ids) !! k)) as Hput.
  { intros ? (r & -> & Hr)%list_elem_of_fmap. eexists. by apply puts_elem; [eapply key_recs_nodup |]. }
  apply extended_elem in Hin as [Hin | (value & Hin & ->)]; [| | done].
  - pose proof (fr_versions _ _ _ _ R k id v (old_tid k id v Hid Hin) Hin) as Hv. apply to_map_is_some in Hv.
    destruct (decide ((stamp v, id) ∈ rec_key <$> key_recs xid rows ids)); [by apply Hput | by rewrite puts_other].
  - rewrite stamp_row_version. apply Hput. destruct k as [key].
    apply (list_elem_of_fmap_2 rec_key _ (mkRec xid id key)), (key_recs_in (rl_index rel')); [done | | done].
    by apply (list_elem_of_fmap_2 fst _ (key, value)).
Qed.

Lemma files_write_dead k id v :
  tid_of (rl_index rel') k = Some id -> v ∈ extended h xid rows k -> vt_deleted v = true -> to_map vrs' !! (stamp v, id) = None.
Proof.
  intros Hid Hin Hdel. rewrite Hvm. apply extended_elem in Hin as [Hin | (value & Hin & ->)]; [| | done].
  - rewrite puts_other; [by eapply (fr_dead _ _ _ _ R k); [eapply old_tid | |] |].
    intros [Ets (value & Hkey)]%(value_rec_key k); [| done].
    assert (Forall (fun v => stamp v < xid) (h k)) as Hlt by (destruct k; apply Hnew; by apply (list_elem_of_fmap_2 fst _ (_, Some value))).
    rewrite Forall_forall in Hlt. specialize (Hlt v Hin). lia.
  - destruct value; [done |]. rewrite stamp_row_version, puts_other.
    + destruct (to_map vrs !! (xid, id)) eqn:E; [| done]. exfalso.
      destruct (fr_values _ _ _ _ R xid id) as (k' & Hk & Hst); [by rewrite E |]. apply Hgr in Hk. pose proof (Hinj _ _ _ Hid Hk) as <-.
      destruct k as [key]. apply (newer_fresh _ _ _ Hnew key); [| done]. by apply (list_elem_of_fmap_2 fst _ (key, None)).
    + intros [_ (value & Hkey)]%(value_rec_key k); [| done]. pose proof (nodup_keys_eq _ _ _ _ Hnr Hin Hkey). discriminate.
Qed.

Lemma files_write_values ts id :
  is_Some (to_map vrs' !! (ts, id)) -> exists k, tid_of (rl_index rel') k = Some id /\ ts ∈ stamp <$> extended h xid rows k.
Proof.
  intros Hsome. rewrite Hvm in Hsome. destruct (decide ((ts, id) ∈ rec_key <$> value_recs xid rows ids)) as [Hin | Hin].
  - apply list_elem_of_fmap in Hin as (r & E & Hin). destruct (value_recs_elem _ xid rows ids r HF Hin) as (Ets & key & Hkey & Hid).
    injection E as -> ->. exists (mkKeyTuple key). split; [done |]. rewrite Ets. apply extended_stamp. by apply (list_elem_of_fmap_2 fst _ (key, Some (r_payload r))).
  - rewrite puts_other in Hsome by done. destruct (fr_values _ _ _ _ R ts id Hsome) as (k & Hk & Hst). exists k.
    split; [by apply Hgr | by apply extended_sub].
Qed.

Lemma files_write_sorted k : StronglySorted Z.lt (stamp <$> extended h xid rows k).
Proof.
  unfold extended. rewrite fmap_app. destruct (versions_row_writes xid rows (key_bytes k) Hnr) as [Hw1 Hw2].
  destruct (decide (key_bytes k ∈ rows.*1)) as [Hin | Hin]; [| rewrite Hw2 by done; cbn; rewrite app_nil_r; apply R].
  pose proof (Hnew _ Hin) as Hlt. apply list_elem_of_fmap in Hin as ([k' value] & Ek & Hin). cbn in Ek. subst k'.
  rewrite (Hw1 value Hin). cbn. rewrite stamp_row_version. apply StronglySorted_app_iff. split; [apply R |]. split; [repeat constructor |].
  intros a b (v & -> & Hin')%list_elem_of_fmap ->%list_elem_of_singleton. rewrite Forall_forall in Hlt. destruct k. by apply Hlt.
Qed.

Lemma files_rep_write : ts_rep (rl_key_file rel') krs' -> files_rep rel' (extended h xid rows) krs' vrs'.
Proof.
  intros Hk. split; [exact Hk | exact files_write_nodup | exact files_write_recs | exact files_write_versions
    | exact files_write_dead | exact files_write_values | exact files_write_sorted].
Qed.
End files_write.

(** ** Opening *)

Lemma bt_insert_same (index : BTreeMap KeyTuple DataRowInner) k row :
  bt_wf index -> bt_get k index = Some row -> bt_insert k row index = index.
Proof.
  intros Hw Hk. apply bt_ext; [by apply bt_insert_wf | done |]. intros k'.
  destruct (decide (k' = k)) as [-> |]; [by rewrite bt_get_insert_eq | by rewrite bt_get_insert_ne].
Qed.

Section rebuild.
Context (h : KeyTuple -> list VersionTuple) (krs vrs : list Rec) (ids : KeyTuple -> option Z).
Context (Hinj : forall k1 k2 id, ids k1 = Some id -> ids k2 = Some id -> k1 = k2).
Context (Hstored : forall k, Forall stored (h k)).
Context (Hpayload : forall k id ts v, ids k = Some id -> stamped ts (h k) = Some v ->
           vt_deleted v = false -> to_map vrs !! (ts, id) = Some (vt_buf v)).
Context (Hrecs : forall r, r ∈ krs -> ids (mkKeyTuple (r_payload r)) = Some (r_id r) /\
           r_ts r ∈ stamp <$> h (mkKeyTuple (r_payload r))).
Context (Hdead : forall k id v, ids k = Some id -> v ∈ h k -> vt_deleted v = true -> to_map vrs !! (stamp v, id) = None).
Context (Hsorted : forall k, StronglySorted Z.lt (stamp <$> h k)).

(** The version of a record of the key file. *)
Definition rec_version (r : Rec) : option VersionTuple := stamped (r_ts r) (h (mkKeyTuple (r_payload r))).

(** The histories that some of the records tell. *)
Definition told (rs : list Rec) (k : KeyTuple) : list VersionTuple :=
  omap rec_version (filter (fun r => r_payload r = key_bytes k) rs).

Lemma rec_version_ok r :
  r ∈ krs -> exists v, rec_version r = Some v /\ v ∈ h (mkKeyTuple (r_payload r)) /\ stamp v = r_ts r.
Proof.
  intros [_ (v & E & Hv)%list_elem_of_fmap]%Hrecs. unfold rec_version, stamped.
  destruct (find_last _ _) as [w |] eqn:Ef; [apply find_last_elem in Ef as [? ?]; exists w; split_and!; [done | done | lia] |].
  exfalso. rewrite E in Ef. clear -Hv Ef. induction (h _) as [| x l IH]; [by apply elem_of_nil in Hv |]. cbn in Ef.
  destruct (find_last _ l) eqn:El; [done |]. apply elem_of_cons in Hv as [-> | Hv]; [by rewrite Z.eqb_refl in Ef |].
  by apply IH.
Qed.

(** The version that is rebuilt from a record. *)
Lemma rebuilt_sketch r v payload :
  r ∈ krs -> rec_version r = Some v -> payload = to_map vrs !! (r_ts r, r_id r) ->
  sketch (match payload with
          | Some _ => VersionTuple_new (mkTimestamp (r_ts r) U64_MAX) []
          | None => new_delete (mkTimestamp (r_ts r) U64_MAX)
          end) v.
Proof.
  intros Hr Hv ->. destruct (rec_version_ok r Hr) as (v' & Ev & Hin & Hst). rewrite Hv in Ev. injection Ev as <-.
  destruct (Hrecs r Hr) as [Hid _].
  assert (vt_timestamp v = mkTimestamp (r_ts r) U64_MAX) as Et.
  { pose proof (Hstored (mkKeyTuple (r_payload r))) as Hs. rewrite Forall_forall in Hs. destruct (Hs v Hin) as (_ & Hm & _).
    unfold stamp in Hst. destruct (vt_timestamp v). cbn in *. congruence. }
  unfold sketch. rewrite Et. destruct (vt_deleted v) eqn:Ed.
  - by rewrite <- Hst, (Hdead _ _ v Hid Hin Ed).
  - by rewrite (Hpayload _ _ _ v Hid Hv Ed).
Qed.

Lemma told_snoc rs r v k :
  rec_version r = Some v -> told (rs ++ [r]) k = if decide (k = mkKeyTuple (r_payload r)) then told rs k ++ [v] else told rs k.
Proof.
  intros Hv. unfold told. rewrite filter_app, omap_app, filter_cons, filter_nil. destruct k as [key].
  destruct (decide (r_payload r = key)) as [E | E]; cbn [key_bytes].
  - rewrite (decide_True _ _ E), decide_True by congruence. cbn. by rewrite Hv.
  - rewrite (decide_False _ _ E), decide_False by congruence. cbn. apply app_nil_r.
Qed.

(** The state of the loop behind the records [rs]. *)
Definition rebuilding rel (rs : list Rec) : Prop :=
  ts_rep (rl_value_file rel) vrs /\ index_rep (rl_index rel) (told rs) /\
  forall k id, tid_of (rl_index rel) k = Some id <-> exists r, r ∈ rs /\ mkKeyTuple (r_payload r) = k /\ r_id r = id.

Lemma index_rep_ext index h1 h2 : (forall k, h1 k = h2 k) -> index_rep index h1 -> index_rep index h2.
Proof. intros E [Hw Hs Hr Hn]. split; [done | intros k; rewrite <- E; apply Hs | intros k; rewrite <- E; apply Hr | intros k; rewrite <- E; apply Hn]. Qed.

(** The reserved row of a record. *)
Lemma rebuild_row_ok rel rs e :
  rebuilding rel rs -> rs ⊆ krs -> entry_of e ∈ krs ->
  exists row index, (match bt_get (mkKeyTuple (ts_payload e)) (rl_index rel) with
                     | Some row => if dr_tid row =? ts_tuple_id e then mret row else st_lift (Err Decode)
                     | None => mret (DataRow_new (ts_tuple_id e))
                     end) rel = (Ok row, rel) /\
    index = bt_insert (mkKeyTuple (ts_payload e)) row (rl_index rel) /\ index_rep index (told rs) /\
    bt_get (mkKeyTuple (ts_payload e)) index = Some row /\ dr_tid row = ts_tuple_id e.
Proof.
  intros (Hv & I & Hids) Hsub He. destruct (Hrecs _ He) as [Hid _]. cbn [entry_of r_payload r_id] in Hid.
  destruct (bt_get (mkKeyTuple (ts_payload e)) (rl_index rel)) as [row |] eqn:Hk.
  - assert (dr_tid row = ts_tuple_id e) as Et.
    { destruct (proj1 (Hids (mkKeyTuple (ts_payload e)) (dr_tid row))) as (r & Hr & Ek & Ei); [unfold tid_of; by rewrite Hk |].
      destruct (Hrecs r (Hsub _ Hr)) as [Hid' _]. rewrite Ek, Ei in Hid'. congruence. }
    exists row, (rl_index rel). rewrite (bt_insert_same _ _ _ (ir_wf _ _ I) Hk). split; [| done].
    by rewrite (proj2 (Z.eqb_eq _ _) Et).
  - eexists (DataRow_new (ts_tuple_id e)), _. split; [done |]. split; [done |].
    split; [by apply index_rep_new |]. split; [by apply bt_get_insert_eq, I | done].
Qed.

Lemma rebuild_step rel rs e rest mx :
  rebuilding rel rs -> rs ⊆ krs -> entry_of e ∈ krs ->
  exists rel', rebuild_rows (e :: rest) mx rel = rebuild_rows rest (Z.max mx (ts_tuple_id e)) rel' /\
    rebuilding rel' (rs ++ [entry_of e]) /\ rl_key_file rel' = rl_key_file rel.
Proof.
  intros B Hsub He. pose proof B as (Hv & I & Hids). destruct (rebuild_row_ok rel rs e B Hsub He) as (row & index & Er & Ei & I' & Hg & Et).
  destruct (ts_get_law (rl_value_file rel) vrs (ts_timestamp e) (ts_tuple_id e) Hv) as (res & f' & Eg & Hf & Hr).
  destruct (rec_version_ok _ He) as (v & Ev & Hin & Hst).
  pose proof (rebuilt_sketch (entry_of e) v _ He Ev Hr) as Hsk.
  assert (stored v) as Hstv by (pose proof (Hstored (mkKeyTuple (ts_payload e))) as Hs; rewrite Forall_forall in Hs; by apply Hs).
  destruct (index_rep_write index (told rs) _ row _ v I' Hg Hsk Hstv) as (row' & Ew & Et' & I'').
  exists (mkRelation (bt_insert (mkKeyTuple (ts_payload e)) row' index) (rl_key_file rel) f' (rl_next_tuple_id rel)). split.
  - cbn [rebuild_rows]. st_step by reflexivity. st_step by exact Er.
    st_step by (unfold on_value_file; rewrite Eg; reflexivity). st_step by reflexivity.
    st_step by (unfold on_row, set_index; cbn [rl_index rl_key_file rl_value_file rl_next_tuple_id]; rewrite <- Ei, Hg;
      cbn [entry_of r_ts] in Ew; destruct res; cbn in Ew; rewrite Ew; reflexivity). reflexivity.
  - split; [| done]. split; [done |]. cbn [rl_index]. split.
    + eapply index_rep_ext; [| exact I'']. intros k. rewrite (told_snoc rs (entry_of e) v k Ev). cbn [entry_of r_payload].
      case_decide; [by subst | done].
    + intros k id. rewrite tid_of_insert by apply I'. rewrite Et', Et. cbn [entry_of].
      assert (k <> mkKeyTuple (ts_payload e) -> tid_of index k = tid_of (rl_index rel) k) as Hother.
      { intros Hne. rewrite Ei, tid_of_insert by apply I. by rewrite decide_False. }
      split.
      * case_decide as Ek; [intros [= <-]; exists (entry_of e); split; [apply elem_of_app; right; by left | by subst] |].
        rewrite Hother by done. intros (r & Hr' & ? & ?)%Hids. exists r. split; [apply elem_of_app; by left | done].
      * intros (r & [Hr' | ->%list_elem_of_singleton]%elem_of_app & <- & <-); [| by rewrite decide_True].
        case_decide as Ek; [| rewrite Hother by done; apply Hids; by exists r].
        destruct (Hrecs r (Hsub _ Hr')) as [H1' _], (Hrecs _ He) as [H2' _]. cbn in H2'. rewrite Ek in H1'. congruence.
Qed.

Lemma rebuild_rows_ok rows : forall rel rs mx,
  rebuilding rel rs -> rs ++ (entry_of <$> rows) ⊆ krs ->
  exists rel' mx', rebuild_rows rows mx rel = (Ok mx', rel') /\ rebuilding rel' (rs ++ (entry_of <$> rows)) /\
    rl_key_file rel' = rl_key_file rel /\ mx <= mx' /\ Forall (fun e => ts_tuple_id e <= mx') rows /\
    (mx' = mx \/ exists e, e ∈ rows /\ ts_tuple_id e = mx').
Proof.
  induction rows as [| e rows IH]; intros rel rs mx B Hsub.
  { exists rel, mx. rewrite app_nil_r. split_and!; [done | done | done | done | constructor | by left]. }
  rewrite fmap_cons in Hsub |- *.
  destruct (rebuild_step rel rs e rows mx B) as (rel1 & E & B1 & Hk1); [set_solver | set_solver |].
  replace (rs ++ entry_of e :: (entry_of <$> rows)) with ((rs ++ [entry_of e]) ++ (entry_of <$> rows)) in * by (by rewrite <- app_assoc).
  destruct (IH rel1 _ (Z.max mx (ts_tuple_id e)) B1 Hsub) as (rel2 & mx' & E2 & B2 & Hk2 & Hle & HF & Hmx).
  exists rel2, mx'. rewrite E. split_and!; [done | done | congruence | lia | constructor; [lia | done] |].
  destruct Hmx as [-> | (e' & He' & <-)]; [| right; exists e'; split; [by right | done]].
  destruct (Z.max_spec mx (ts_tuple_id e)) as [[_ ->] | [_ ->]]; [right; exists e; split; [by left | done] | by left].
Qed.

(** All records together tell the histories. *)
Lemma told_sorted rs k :
  StronglySorted key_le rs -> NoDup (rec_key <$> rs) -> rs ⊆ krs -> StronglySorted Z.lt (stamp <$> told rs k).
Proof.
  induction 1 as [| r l Hs IH Hr]; intros Hnd Hin; [constructor |]. rewrite fmap_cons in Hnd. apply NoDup_cons in Hnd as [Hn Hnd].
  assert (l ⊆ krs) as Hin' by set_solver. assert (r ∈ krs) as Hrk by set_solver.
  unfold told. rewrite filter_cons. case_decide as Ek; [| by apply IH].
  destruct (rec_version_ok r Hrk) as (v & Ev & Hv & Est). cbn. rewrite Ev. cbn. constructor; [by apply IH |]. apply Forall_forall.
  intros x (w & -> & (r' & [Ek' Hr']%list_elem_of_filter & Ew)%list_elem_of_omap)%list_elem_of_fmap.
  destruct (rec_version_ok r' (Hin' _ Hr')) as (w' & Ew' & _ & Est'). rewrite Ew in Ew'. injection Ew' as <-.
  rewrite Forall_forall in Hr. specialize (Hr r' Hr'). unfold key_le in Hr.
  destruct (Hrecs r Hrk) as [H1' _], (Hrecs r' (Hin' _ Hr')) as [H2' _]. rewrite Ek in H1'. rewrite Ek', H1' in H2'. injection H2' as Eid.
  assert (r_ts r <> r_ts r'); [| lia]. intros Ets. apply Hn. apply list_elem_of_fmap. exists r'. split; [unfold rec_key; congruence | done].
Qed.

Lemma told_elem rs k v :
  rs ≡ₚ krs -> (forall v, v ∈ h k -> exists r, r ∈ krs /\ r_payload r = key_bytes k /\ r_ts r = stamp v) ->
  v ∈ told rs k <-> v ∈ h k.
Proof.
  intros Hp Hall. unfold told. rewrite list_elem_of_omap. destruct k as [key]. cbn [key_bytes] in *. split.
  - intros (r & [Ek Hr]%list_elem_of_filter & Ev). rewrite Hp in Hr. destruct (rec_version_ok r Hr) as (w & Ew & Hw & _).
    rewrite Ev in Ew. injection Ew as <-. by rewrite <- Ek.
  - intros Hv. destruct (Hall v Hv) as (r & Hr & Ek & Ets). exists r. rewrite list_elem_of_filter, Hp. split; [done |].
    destruct (rec_version_ok r Hr) as (w & Ew & Hw & Est). rewrite Ew. f_equal. rewrite Ek in Hw.
    apply (nodup_fmap_inj stamp (h (mkKeyTuple key))); [apply strictly_sorted_nodup, Hsorted | done | done | congruence].
Qed.

Lemma told_all rs k :
  rs ≡ₚ krs -> StronglySorted key_le rs -> NoDup (rec_key <$> krs) ->
  (forall v, v ∈ h k -> exists r, r ∈ krs /\ r_payload r = key_bytes k /\ r_ts r = stamp v) -> told rs k = h k.
Proof.
  intros Hp Hs Hnd Hall.
  assert (StronglySorted Z.lt (stamp <$> told rs k)) as Ht
    by (apply told_sorted; [done | rewrite (Permutation_map rec_key Hp); exact Hnd | intros r Hr; by rewrite <- Hp]).
  apply (sorting.StronglySorted_unique_strong (fun a b => stamp a < stamp b)).
  - intros a b _ _ ? ?. lia.
  - by apply (StronglySorted_fmap_iff stamp Z.lt).
  - by apply (StronglySorted_fmap_iff stamp Z.lt).
  - apply NoDup_Permutation; [| | intros v; by apply told_elem]; eapply NoDup_fmap_1, strictly_sorted_nodup; [exact Ht | apply Hsorted].
Qed.

End rebuild.

Lemma tid_none index h k : index_rep index h -> tid_of index k = None -> h k = [].
Proof. intros I Hk. apply (ir_none _ _ I). unfold tid_of in Hk. by destruct (bt_get k index). Qed.

Lemma recs_in_range rel h krs vrs : index_rep (rl_index rel) h -> files_rep rel h krs vrs -> Forall (in_range 0 U64_MAX) krs.
Proof.
  intros I Fr. apply Forall_forall. intros r Hr. destruct (fr_recs _ _ _ _ Fr r Hr) as [_ (v & E & Hv)%list_elem_of_fmap].
  pose proof (ir_stored _ _ I (mkKeyTuple (r_payload r))) as Hst. rewrite Forall_forall in Hst.
  destruct (Hst v Hv) as (_ & _ & ?). unfold in_range, in_u64 in *. lia.
Qed.

(** The loop of [rebuild_from_files] over the files of a relation. *)
Lemma rebuild_ok rel0 h krs vrs kf vf :
  rel_rep rel0 h vrs -> files_rep rel0 h krs vrs -> ts_rep kf krs -> ts_rep vf vrs -> 1 <= rl_next_tuple_id rel0 ->
  exists rows rel mx, on_key_file (ts_scan_range 0 U64_MAX) (mkRelation [] kf vf 1) =
      (Ok rows, mkRelation [] (rl_key_file rel) vf 1) /\
    rebuild_rows rows 0 (mkRelation [] (rl_key_file rel) vf 1) = (Ok mx, rel) /\
    ts_rep (rl_key_file rel) krs /\ ts_rep (rl_value_file rel) vrs /\ index_rep (rl_index rel) h /\
    (forall k id, tid_of (rl_index rel) k = Some id <-> exists r, r ∈ krs /\ mkKeyTuple (r_payload r) = k /\ r_id r = id) /\
    0 <= mx < rl_next_tuple_id rel0 /\ (forall r, r ∈ krs -> r_id r <= mx).
Proof.
  intros R Fr Hk Hv Hn0. pose proof (rr_index _ _ _ R) as I0.
  destruct (ts_scan_law kf krs 0 U64_MAX Hk) as (rows & kf' & Es & Hk' & Hp & Hs).
  rewrite (filter_all _ _ (recs_in_range rel0 h krs vrs I0 Fr)) in Hp.
  destruct (rebuild_rows_ok h krs vrs (tid_of (rl_index rel0)) (rr_inj _ _ _ R) (ir_stored _ _ I0) (rr_payload _ _ _ R)
    (fr_recs _ _ _ _ Fr) (fr_dead _ _ _ _ Fr) (fr_sorted _ _ _ _ Fr) rows (mkRelation [] kf' vf 1) [] 0)
    as (rel & mx & Er & (Hv2 & I2 & Hids) & Ekf & Hmx & HF & Hmx').
  { split; [exact Hv |]. split; [| by intros k id; split; [| intros (r & ?%elem_of_nil & _)]].
    split; [apply bt_wf_nil | intros k; constructor | done | done]. }
  { cbn [app]. intros r Hr. by rewrite <- Hp. }
  cbn [app rl_key_file] in *. exists rows, rel, mx. rewrite Ekf. split; [unfold on_key_file; cbn [rl_key_file]; by rewrite Es |].
  split; [done |]. split; [done |]. split; [done |]. split; [| split; [| split]].
  - eapply index_rep_ext; [| exact I2]. intros k.
    apply (told_all h krs vrs (tid_of (rl_index rel0)) (rr_inj _ _ _ R) (ir_stored _ _ I0) (rr_payload _ _ _ R)
      (fr_recs _ _ _ _ Fr) (fr_dead _ _ _ _ Fr) (fr_sorted _ _ _ _ Fr)); [done | done | apply Fr |].
    intros v Hin. destruct (tid_of (rl_index rel0) k) as [id |] eqn:Ek; [| by rewrite (tid_none _ _ _ I0 Ek) in Hin; apply elem_of_nil in Hin].
    pose proof (fr_versions _ _ _ _ Fr k id v Ek Hin) as (r & E & Hr)%list_elem_of_fmap. injection E as E1 E2. exists r.
    split; [done |]. split; [| done]. destruct (fr_recs _ _ _ _ Fr r Hr) as [Hid _]. rewrite <- E2 in Hid.
    pose proof (rr_inj _ _ _ R _ _ _ Ek Hid) as ->. done.
  - intros k id. rewrite Hids. by setoid_rewrite Hp.
  - split; [lia |]. destruct Hmx' as [-> | (e & He & <-)]; [lia |].
    assert (entry_of e ∈ krs) as Hin by (rewrite <- Hp; by apply list_elem_of_fmap_2).
    destruct (fr_recs _ _ _ _ Fr _ Hin) as [Hid _]. apply (rr_ids _ _ _ R) in Hid. cbn in Hid. lia.
  - intros r Hr. rewrite <- Hp in Hr. apply list_elem_of_fmap in Hr as (e & -> & He). rewrite Forall_forall in HF. by apply HF.
Qed.

(** The files of a relation rebuild it. *)
Lemma relation_new_ok rel0 h krs vrs kf vf :
  rel_rep rel0 h vrs -> files_rep rel0 h krs vrs -> ts_rep kf krs -> ts_rep vf vrs ->
  1 <= rl_next_tuple_id rel0 <= U64_MAX ->
  exists rel, Relation_new (Ok kf) (Ok vf) = Ok rel /\ rel_rep rel h vrs /\ files_rep rel h krs vrs /\
    1 <= rl_next_tuple_id rel <= rl_next_tuple_id rel0.
Proof.
  intros R Fr Hk Hv Hn0.
  destruct (rebuild_ok rel0 h krs vrs kf vf R Fr Hk Hv) as (rows & rel2 & mx & Es & Er & Hk2 & Hv2 & I2 & Hids & Hmx & Hmax); [lia |].
  assert (forall k id, tid_of (rl_index rel2) k = Some id -> tid_of (rl_index rel0) k = Some id) as Hsub.
  { intros k id (r & Hr & <- & <-)%Hids. apply (fr_recs _ _ _ _ Fr r Hr). }
  exists (set_next_tuple_id (Z.max (Z.min (mx + 1) U64_MAX) 1) rel2). split.
  { unfold Relation_new. cbn [mbind res_bind]. unfold rebuild_from_files, mbind, st_bind. by rewrite Es, Er. }
  cbn [set_next_tuple_id rl_next_tuple_id]. split; [| split; [| lia]].
  - split; cbn [rl_value_file rl_index rl_next_tuple_id set_next_tuple_id]; [done | done | | |].
    + intros k id Hid. pose proof (rr_ids _ _ _ R _ _ (Hsub _ _ Hid)). split; [lia |].
      apply Hids in Hid as (r & Hr & _ & <-). specialize (Hmax r Hr). lia.
    + intros k1 k2 id H1' H2'. by eapply (rr_inj _ _ _ R); apply Hsub.
    + intros k id ts v Hid. by apply (rr_payload _ _ _ R), Hsub.
  - split; cbn [rl_value_file rl_index rl_next_tuple_id rl_key_file set_next_tuple_id].
    + done.
    + apply Fr.
    + intros r Hr. split; [| by apply (fr_recs _ _ _ _ Fr)]. apply Hids. by exists r.
    + intros k id v Hid. by apply (fr_versions _ _ _ _ Fr), Hsub.
    + intros k id v Hid. by apply (fr_dead _ _ _ _ Fr), Hsub.
    + intros ts id Hsome. destruct (fr_values _ _ _ _ Fr ts id Hsome) as (k & Hk0 & Hin). exists k. split; [| done].
      apply list_elem_of_fmap in Hin as (v & -> & Hin). pose proof (fr_versions _ _ _ _ Fr k id v Hk0 Hin) as (r & E & Hr)%list_elem_of_fmap.
      injection E as E1 E2. apply Hids. exists r. split; [done |]. split; [| done].
      destruct (fr_recs _ _ _ _ Fr r Hr) as [Hid _]. rewrite <- E2 in Hid. by apply (rr_inj _ _ _ R _ _ _ Hid).
    + apply Fr.
Qed.

(** ** Runs of a relation *)

(** A file with the same records, as it is found when it is opened again. *)
Definition same_records (f f' : F) : Prop := forall rs, ts_rep f rs -> ts_rep f' rs.

(** [rel_reach rel ws ordered]: the relation [rel] is reached by the accepted
    batches [ws]; [ordered] tells whether all rows were written in the order
    of the transaction ids and no batch was refused. *)
Inductive rel_reach : Relation F -> list RowWrite -> bool -> Prop :=
  | reach_new kf vf rel :
      ts_rep kf [] -> ts_rep vf [] -> Relation_new (Ok kf) (Ok vf) = Ok rel -> rel_reach rel [] true
  | reach_written rel ws ordered now rows xid rel' :
      rel_reach rel ws ordered -> batch_room rel rows xid -> Forall row_write_ok (row_writes xid rows) -> NoDup rows.*1 ->
      relation_write_rows now rows xid rel = (Ok tt, rel') ->
      rel_reach rel' (ws ++ row_writes xid rows) (ordered && newer_rows ws xid rows)
  | reach_refused rel ws ordered now rows xid e rel' :
      rel_reach rel ws ordered -> batch_room rel rows xid -> Forall row_write_ok (row_writes xid rows) -> NoDup rows.*1 ->
      newer_rows ws xid rows = true -> relation_write_rows now rows xid rel = (Err e, rel') ->
      rel_reach rel' ws false
  | reach_value rel ws ordered key snapshot s res rel' :
      rel_reach rel ws ordered -> to_snapshot snapshot = Ok s ->
      visible_value key snapshot rel = (res, rel') -> rel_reach rel' ws ordered
  | reach_range rel ws ordered lower upper snapshot s res rel' :
      rel_reach rel ws ordered -> to_snapshot snapshot = Ok s ->
      range_valid (bound_map mkKeyTuple lower) (bound_map mkKeyTuple upper) = true ->
      visible_range lower upper snapshot rel = (res, rel') -> rel_reach rel' ws ordered
  | reach_reopened rel ws kf vf rel' :
      rel_reach rel ws true -> same_records (rl_key_file rel) kf -> same_records (rl_value_file rel) vf ->
      Relation_new (Ok kf) (Ok vf) = Ok rel' -> rel_reach rel' ws true.

Definition history (ws : list RowWrite) (k : KeyTuple) : list VersionTuple := versions_of ws (key_bytes k).

Definition reach_inv rel (ws : list RowWrite) (ordered : bool) : Prop :=
  exists krs vrs, rel_rep rel (history ws) vrs /\ ts_rep (rl_key_file rel) krs /\ 1 <= rl_next_tuple_id rel <= U64_MAX /\
    (ordered = true -> files_rep rel (history ws) krs vrs).

Lemma newer_rows_xid ws xid rows : newer_rows ws xid rows = true -> newer_xid (history ws) xid rows.
Proof.
  intros Hn key (row & -> & Hrow)%list_elem_of_fmap. unfold newer_rows in Hn. rewrite forallb_forall in Hn.
  specialize (Hn row (proj1 (list_elem_of_In _ _) Hrow)). cbn beta in Hn. rewrite forallb_forall in Hn. apply Forall_forall. intros v Hv.
  specialize (Hn v (proj1 (list_elem_of_In _ _) Hv)). lia.
Qed.

Lemma history_app ws xid rows k : extended (history ws) xid rows k = history (ws ++ row_writes xid rows) k.
Proof. unfold extended, history, versions_of. by rewrite filter_app, fmap_app. Qed.

Lemma rel_rep_ext rel h1 h2 vrs : (forall k, h1 k = h2 k) -> rel_rep rel h1 vrs -> rel_rep rel h2 vrs.
Proof. intros E [A B C D G]. split; [done | by eapply index_rep_ext | done | done | intros k; rewrite <- E; apply G]. Qed.

Lemma files_rep_ext rel h1 h2 krs vrs : (forall k, h1 k = h2 k) -> files_rep rel h1 krs vrs -> files_rep rel h2 krs vrs.
Proof.
  intros E [A B C D G I J]. split; [done | done | | | | |].
  - intros r. rewrite <- E. apply C.
  - intros k. rewrite <- E. apply D.
  - intros k. rewrite <- E. apply G.
  - intros ts id Hs. destruct (I ts id Hs) as (k & ? & ?). exists k. by rewrite <- E.
  - intros k. rewrite <- E. apply J.
Qed.

Lemma new_rep kf vf :
  ts_rep kf [] -> ts_rep vf [] ->
  rel_rep (mkRelation [] kf vf 1) (history []) [] /\ files_rep (mkRelation [] kf vf 1) (history []) [] [].
Proof.
  intros Hk Hv. split.
  - split; [done | | done | done | done]. split; [apply bt_wf_nil | intros k; constructor | done | done].
  - split; [done | constructor | by intros r ?%elem_of_nil | by intros k id v _ ?%elem_of_nil | done | | intros k; constructor].
    intros ts id [v Hs]. change (to_map []) with (∅ : gmap (Z * Z) (list byte)) in Hs. by rewrite lookup_empty in Hs.
Qed.

Lemma looked_reach rel rel' ws ordered vrs krs :
  looked_at rel rel' -> rel_rep rel' (history ws) vrs -> ts_rep (rl_key_file rel) krs -> 1 <= rl_next_tuple_id rel <= U64_MAX ->
  (ordered = true -> files_rep rel (history ws) krs vrs) -> reach_inv rel' ws ordered.
Proof.
  intros (Ei & Ek & En) R Hk Hn Hf. exists krs, vrs. rewrite Ek, En. split_and!; [done | done | lia | lia |].
  intros Ho. destruct (Hf Ho) as [A B C D G I J]. split; rewrite ?Ei, ?Ek; done.
Qed.

Lemma reach_inv_ok rel ws ordered : rel_reach rel ws ordered -> reach_inv rel ws ordered.
Proof.
  induction 1 as [kf vf rel Hk Hv E | rel ws o now rows xid rel' Hr IH Hroom Hok Hnd E | rel ws o now rows xid e rel' Hr IH Hroom Hok Hnd Hnew E
    | rel ws o key snapshot s res rel' Hr IH Hs E | rel ws o lower upper snapshot s res rel' Hr IH Hs Hrv E | rel ws kf vf rel' Hr IH Hk Hv E].
  - destruct (new_rep kf vf Hk Hv) as [R Fr].
    destruct (relation_new_ok _ _ _ _ kf vf R Fr Hk Hv) as (rel' & E' & R' & Fr' & Hn); [cbn; mlia |].
    rewrite E in E'. injection E' as <-. exists [], []. cbn [rl_next_tuple_id] in Hn. split_and!; [done | apply Fr' | lia | mlia | done].
  - destruct IH as (krs & vrs & R & Hk & Hn & Hf).
    destruct (write_rows_ok now rows xid rel _ krs vrs R Hk Hroom Hok Hnd)
      as (res & rel1 & ids & krs' & vrs' & E' & Hids & Hgr & Hn' & Hk' & Hsub & _ & Hres). rewrite E in E'. injection E' as <- <-.
    destruct Hres as (R' & Hkm & Hvm). destruct Hroom as (_ & Hmax & _). exists krs', vrs'.
    split_and!; [eapply rel_rep_ext; [apply history_app | done] | done | lia | lia |]. intros [Ho Hw]%andb_true_iff.
    eapply files_rep_ext; [apply history_app |]. eapply (files_rep_write rel rel' _ krs vrs krs' vrs' xid rows ids); try done.
    + by apply Hf.
    + by apply newer_rows_xid.
    + apply R'.
    + intros k. apply tid_none, R.
  - destruct IH as (krs & vrs & R & Hk & Hn & Hf).
    destruct (write_rows_ok now rows xid rel _ krs vrs R Hk Hroom Hok Hnd)
      as (res & rel1 & ids & krs' & vrs' & E' & Hids & Hgr & Hn' & Hk' & Hsub & _ & Hres). rewrite E in E'. injection E' as <- <-.
    destruct Hroom as (_ & Hmax & _). exists krs', vrs'. split_and!; [by apply Hres, newer_fresh, newer_rows_xid | done | lia | lia | done].
  - destruct IH as (krs & vrs & R & Hk & Hn & Hf).
    destruct (visible_value_ok rel _ vrs key snapshot s R Hs) as (rel1 & E' & R' & Hl). rewrite E in E'. injection E' as _ <-.
    by eapply looked_reach.
  - destruct IH as (krs & vrs & R & Hk & Hn & Hf).
    destruct (visible_range_ok rel _ vrs lower upper snapshot s R Hs Hrv) as (items & rel1 & E' & R' & Hl & _). rewrite E in E'. injection E' as _ <-.
    by eapply looked_reach.
  - destruct IH as (krs & vrs & R & Hk' & Hn & Hf).
    destruct (relation_new_ok rel _ krs vrs kf vf R (Hf eq_refl) (Hk _ Hk') (Hv _ (rr_values _ _ _ R)) Hn) as (rel1 & E' & R' & Fr' & Hn').
    rewrite E in E'. injection E' as <-. exists krs, vrs. split_and!; [done | apply Fr' | lia | lia | done].
Qed.

End relation_properties.
