(* ===== verification/RelationRuns.v ===== *)
(** * Runs of relations

    What a relation answers after any run of its operations, and that a
    relation over page files comes back after a restart. *)

From S2P Require Import Prelude Errors Compat FileOps LogFrame PhysLog PlCodec RecordSpec RecordMap PageImage.
From S2P Require Import TsFile Chain TsChain TsRead TsWrite TsState TsFlush TsMutate TsOpen TimeSeries TsProperties.
From S2P Require Import Snapshots Versions Histories BTree Relation RelationProperties.

Section runs.
Context `{TimeSeriesOk F} `{OrdOk KeyTuple}.

Lemma conflict_ok (rel : Relation F) h vrs k snapshot :
  rel_rep rel h vrs ->
  has_write_conflict k snapshot rel =
    match last (h k) with Some v => negb (is_visible_to_snapshot (stamp v) snapshot) | None => false end.
Proof.
  intros R. unfold has_write_conflict. destruct (bt_get k (rl_index rel)) as [row |] eqn:Hk; cbn [mbind option_bind].
  - destruct (ir_row _ _ (rr_index _ _ _ R) k row Hk) as (hm & (Ht & _) & HF). unfold row_read_latest.
    rewrite Ht, last_drop_window. destruct (Forall2_last _ _ _ HF) as [m v (Et & _) |]; [| done]. unfold stamp. by rewrite Et.
  - by rewrite (ir_none _ _ (rr_index _ _ _ R) k Hk).
Qed.

(** The relation answers every read of a snapshot from the versions [ws]: a
    point read with the newest visible version, a range with the live keys of
    the range, in order; and it checks conflicts against the newest version. *)
Definition answers_history (rel : Relation F) (ws : list RowWrite) (snapshot : WorkerSnapshot) (s : Snapshot) : Prop :=
  (forall key, exists rel', visible_value (mkKeyTuple key) snapshot rel =
     (Ok (live_value (reader (Some s) (versions_of ws key))), rel')) /\
  (forall lower upper, range_valid (bound_map mkKeyTuple lower) (bound_map mkKeyTuple upper) = true ->
     exists items rel', visible_range lower upper snapshot rel = (Ok items, rel') /\
       StronglySorted (fun a b => ord_cmp (mkKeyTuple a.1) (mkKeyTuple b.1) = Lt) items /\
       forall key value, (key, value) ∈ items <->
         above (bound_map mkKeyTuple lower) (mkKeyTuple key) && below (bound_map mkKeyTuple upper) (mkKeyTuple key) = true /\
         live_value (reader (Some s) (versions_of ws key)) = Some value) /\
  (forall key, has_write_conflict (mkKeyTuple key) snapshot rel =
     match last (versions_of ws key) with Some v => negb (is_visible_to_snapshot (stamp v) snapshot) | None => false end).

Lemma reach_answers (rel : Relation F) ws ordered snapshot s :
  rel_reach rel ws ordered -> to_snapshot snapshot = Ok s -> answers_history rel ws snapshot s.
Proof.
  intros (krs & vrs & R & _)%reach_inv_ok Hs. split; [| split].
  - intros key. destruct (visible_value_ok rel _ vrs (mkKeyTuple key) snapshot s R Hs) as (rel' & E & _). by exists rel'.
  - intros lower upper Hv. destruct (visible_range_ok rel _ vrs lower upper snapshot s R Hs Hv) as (items & rel' & E & _ & _ & Hi).
    by exists items, rel'.
  - intros key. by apply (conflict_ok rel (history ws) vrs).
Qed.


(** The files of an ordered run rebuild the relation. *)
Lemma relation_reopens (rel : Relation F) ws kf vf :
  rel_reach rel ws true -> same_records (rl_key_file rel) kf -> same_records (rl_value_file rel) vf ->
  exists rel', Relation_new (Ok kf) (Ok vf) = Ok rel' /\ rel_reach rel' ws true /\
    (forall k id, tid_of (rl_index rel') k = Some id -> 1 <= id < rl_next_tuple_id rel').
Proof.
  intros Hr Hk Hv. pose proof (reach_inv_ok _ _ _ Hr) as (krs & vrs & R & Hkr & Hn & Hf).
  destruct (relation_new_ok rel _ krs vrs kf vf R (Hf eq_refl) (Hk _ Hkr) (Hv _ (rr_values _ _ _ R)) Hn) as (rel' & E & R' & _).
  exists rel'. split; [done |]. split; [by eapply reach_reopened | apply R'].
Qed.
End runs.

(** ** Relations over page files *)

Section page_files.
Context `{PackagesOk} `{MsgpackOk PLBatch} `{OrdOk KeyTuple}.

Lemma flush_open_ok f ps identity wal hash :
  file_inv f ps -> opened_with f hash ->
  exists f1 f2, flush f = (Ok tt, f1) /\ open_inner (tf_disk f1) identity wal hash true = Ok f2 /\ same_records f f2.
Proof.
  intros I Hopen.
  assert (forall ps, file_inv f ps -> exists f1 f2, flush f = (Ok tt, f1) /\
    open_inner (tf_disk f1) identity wal hash true = Ok f2 /\ file_inv f2 ps) as Hfo.
  { clear ps I. intros ps I. destruct (flush_dirty_pages_ok f ps I) as (d & E & I1 & _).
    destruct (open_inner_ok _ ps I1 eq_refl identity wal hash true Hopen) as (f2 & E2 & I2 & _); [by right |].
    eexists _, f2. split; [| by split; [exact E2 |]].
    unfold flush. st_step by exact E. unfold file_ref, st_reads. by rewrite (fc_open _ _ (fi_chain _ _ I1)). }
  destruct (Hfo ps I) as (f1 & f2 & E1 & E2 & _). exists f1, f2. split; [done |]. split; [done |].
  intros rs (ps' & I' & <-). destruct (Hfo ps' I') as (f1' & f2' & E1' & E2' & I2). rewrite E1 in E1'. injection E1' as <-.
  rewrite E2 in E2'. injection E2' as <-. by exists ps'.
Qed.

(** C7: A relation survives a restart.  Take a run of the relation in which every
    row was newer than the ones of its key before it and no batch was refused.
    Flushing the two page files, opening them and rebuilding the relation from
    them never fails.  Every point read, range read and conflict check, with
    the present or a past snapshot, then answers from the same history as
    before; further batches and restarts go on as in the run; and the tuple
    ids that are handed out next are new. *)
Theorem relation_restart (rel : Relation TimeSeriesFile) ws kid vid kwal vwal khash vhash :
  rel_reach rel ws true -> opened_with (rl_key_file rel) khash -> opened_with (rl_value_file rel) vhash ->
  exists kf1 vf1 kf2 vf2 rel',
    flush (rl_key_file rel) = (Ok tt, kf1) /\ flush (rl_value_file rel) = (Ok tt, vf1) /\
    open_inner (tf_disk kf1) kid kwal khash true = Ok kf2 /\ open_inner (tf_disk vf1) vid vwal vhash true = Ok vf2 /\
    Relation_new (Ok kf2) (Ok vf2) = Ok rel' /\ rel_reach rel' ws true /\
    (forall snapshot s, to_snapshot snapshot = Ok s -> answers_history rel ws snapshot s /\ answers_history rel' ws snapshot s) /\
    (forall k id, tid_of (rl_index rel') k = Some id -> 1 <= id < rl_next_tuple_id rel').
Proof.
  intros Hr Hko Hvo. pose proof (reach_inv_ok _ _ _ Hr) as (krs & vrs & R & (kps & Ik & _) & _).
  destruct (rr_values _ _ _ R) as (vps & Iv & _).
  destruct (flush_open_ok _ kps kid kwal khash Ik Hko) as (kf1 & kf2 & Ek1 & Ek2 & Hk).
  destruct (flush_open_ok _ vps vid vwal vhash Iv Hvo) as (vf1 & vf2 & Ev1 & Ev2 & Hv).
  destruct (relation_reopens rel ws kf2 vf2 Hr Hk Hv) as (rel' & E & Hr' & Hid).
  exists kf1, vf1, kf2, vf2, rel'. split_and!; [done.. | | done]. intros snapshot s Hs. split; by eapply reach_answers.
Qed.
End page_files.

(** ** Examples *)

Module RelDemo.
Import PlCodec TsDemo.
#[local] Existing Instance Reference.packages.
#[local] Existing Instance Reference.packages_ok.

(** Keys are compared as byte strings. *)
Definition key_cmp (a b : KeyTuple) : comparison := slice_cmp (key_bytes a) (key_bytes b).
#[local] Instance key_tuple_ord : Ord KeyTuple := key_cmp.
#[local] Instance key_tuple_ord_ok : OrdOk KeyTuple.
Proof.
  split; unfold ord_cmp, key_tuple_ord, key_cmp.
  - intros [a] [b]. cbn [key_bytes]. pose proof (ord_cmp_eq a b) as E. unfold ord_cmp, list_ord in E. rewrite E. split; congruence.
  - intros [a] [b]. apply (ord_cmp_sym (K := list byte) a b).
  - intros [a] [b] [c]. apply (ord_cmp_trans (K := list byte) a b c).
Qed.

Lemma ran_ok {E S A} (p : Res E A * S) a : p.1 = Ok a -> p = (Ok a, p.2).
Proof. destruct p. cbn. by intros ->. Qed.

Lemma ran_err {E S A} (p : Res E A * S) e : p.1 = Err e -> p = (Err e, p.2).
Proof. destruct p. cbn. by intros ->. Qed.

Definition demo_rel0 : Relation TimeSeriesFile := mkRelation [] file0 file0 1.

(** A transaction that writes two rows. *)
Definition demo_rows : list (list byte * option (list byte)) := [([x05], Some [x0a]); ([x03], Some [])].
Definition demo_rel1 : Relation TimeSeriesFile := (relation_write_rows 0 demo_rows 1 demo_rel0).2.

Lemma demo_new : Relation_new (Ok file0) (Ok file0) = Ok demo_rel0.
Proof. vm_compute. reflexivity. Qed.

Lemma file0_holds : file_holds file0 [].
Proof. exists []. split; [exact file0_inv | done]. Qed.

Lemma demo_written : relation_write_rows 0 demo_rows 1 demo_rel0 = (Ok tt, demo_rel1).
Proof.
  unfold demo_rel1. apply (ran_ok (relation_write_rows 0 demo_rows 1 demo_rel0) tt). vm_compute. reflexivity.
Qed.

Definition demo_krecs : list Rec := [mkRec 1 1 [x05]; mkRec 1 2 [x03]].
Definition demo_vrecs : list Rec := [mkRec 1 1 [x0a]; mkRec 1 2 []].

Lemma demo_file_room rs b :
  batch_entry file0 (row_of <$> rs) = Some b -> has_room log0 b = true -> Forall row_ok rs -> zlen rs <= 10 -> file_room file0 rs.
Proof. intros Eb Hr Hok Hz. split; [done |]. split; [cbn; unfold MAX_PAGES; lia |]. rewrite Eb. by apply (has_room_ok file0 log0). Qed.

Lemma demo_batch_room : batch_room demo_rel0 demo_rows 1.
Proof.
  split; [done |]. split; [by vm_compute |]. split; [split; by vm_compute |]. intros ids rel' E.
  assert (ids = [1; 2]) as -> by (vm_compute in E; congruence). split.
  - eapply (demo_file_room demo_krecs); [vm_compute; reflexivity | by vm_compute | by apply recs_ok; vm_compute | by vm_compute].
  - eapply (demo_file_room demo_vrecs); [vm_compute; reflexivity | by vm_compute | by apply recs_ok; vm_compute | by vm_compute].
Qed.

Lemma demo_reach : rel_reach demo_rel1 (row_writes 1 demo_rows) true.
Proof.
  apply (reach_written demo_rel0 [] true 0 demo_rows 1 demo_rel1); [| exact demo_batch_room | | | exact demo_written].
  - exact (reach_new file0 file0 demo_rel0 file0_holds file0_holds demo_new).
  - repeat (apply Forall_cons; split; [by vm_compute |]). by apply Forall_nil.
  - apply (bool_decide_unpack _). by vm_compute.
Qed.


Lemma demo_opened_with : opened_with (rl_key_file demo_rel1) 7 /\ opened_with (rl_value_file demo_rel1) 7.
Proof. by vm_compute. Qed.

Lemma relation_restart_witness :
  exists kf1 vf1 kf2 vf2 rel',
    flush (rl_key_file demo_rel1) = (Ok tt, kf1) /\ flush (rl_value_file demo_rel1) = (Ok tt, vf1) /\
    open_inner (tf_disk kf1) None None 7 true = Ok kf2 /\ open_inner (tf_disk vf1) None None 7 true = Ok vf2 /\
    Relation_new (Ok kf2) (Ok vf2) = Ok rel' /\
    rel_reach rel' (row_writes 1 demo_rows) true /\
    (forall snapshot s, to_snapshot snapshot = Ok s -> answers_history demo_rel1 (row_writes 1 demo_rows) snapshot s /\
       answers_history rel' (row_writes 1 demo_rows) snapshot s) /\
    (forall k id, tid_of (rl_index rel') k = Some id -> 1 <= id < rl_next_tuple_id rel').
Proof.
  exact (relation_restart demo_rel1 _ None None None None 7 7 demo_reach (proj1 demo_opened_with) (proj2 demo_opened_with)).
Defined.

(** ** A refused batch *)

(** The relation that is opened on the flushed files of another one. *)
Definition restarted (rel : Relation TimeSeriesFile) : Res ErrorCode (Relation TimeSeriesFile) :=
  Relation_new (open_inner (tf_disk (flush (rl_key_file rel)).2) (Some ident) None 7 true)
               (open_inner (tf_disk (flush (rl_value_file rel)).2) (Some ident) None 7 true).

(** A row that does not fit on a page. *)
Definition big_row : list (list byte * option (list byte)) := [([x05], Some (replicate 4096 x01))].
Definition demo_rel2 : Relation TimeSeriesFile := (relation_write_rows 0 big_row 2 demo_rel1).2.

(** A refused row deletes the one before it.  The batch with a value that
    is too large for a page is refused, and the row keeps its value; but its
    key is in the key file already, so that the relation that is opened the
    next time takes the transaction for a deletion and the row is gone. *)
Theorem refused_write_hides_row :
  relation_write_rows 0 big_row 2 demo_rel1 = (Err InsufficientBufferSpace, demo_rel2) /\
  (visible_value (mkKeyTuple [x05]) latest_committed demo_rel2).1 = Ok (Some [x0a]) /\
  exists rel3, restarted demo_rel2 = Ok rel3 /\
    (visible_value (mkKeyTuple [x05]) latest_committed rel3).1 = Ok None.
Proof.
  split; [unfold demo_rel2; apply (ran_err (relation_write_rows 0 big_row 2 demo_rel1)); vm_compute; reflexivity |].
  split; [vm_compute; reflexivity |].
  assert (match restarted demo_rel2 with
          | Ok rel3 => (visible_value (mkKeyTuple [x05]) latest_committed rel3).1 = Ok None | _ => False end) as E
    by (vm_compute; reflexivity).
  destruct (restarted demo_rel2) as [rel3 | |]; [by exists rel3 | done | done].
Qed.
End RelDemo.
