(* ===== verification/Storage.v ===== *)
(** * The storage of a worker

    The relation part of [server/worker_storage.rs]: the relations of a
    worker by table and partition, reads and staged writes of transactions,
    the preparation and application of commits, cross-partition writes and
    the replay of the logical log; the key/value part is that of [KvStore].

    The storage uses relations through the interface [RelationOps], which
    [Relation] implements, and the catalog through [Catalog]. *)

From S2P Require Import Prelude Errors LogFrame Snapshots Versions Histories XLocks BTree TxState KvStore Relation.

(** What the storage does with a relation; writes take the clock of the log. *)
Class RelationOps (R : Type) := {
  ro_value : list byte -> WorkerSnapshot -> ST ErrorCode R (option (list byte));
  ro_range : Bound (list byte) -> Bound (list byte) -> WorkerSnapshot -> ST ErrorCode R (list (list byte * list byte));
  ro_conflict : list byte -> WorkerSnapshot -> R -> bool;
  ro_write_rows : Z -> list (list byte * option (list byte)) -> Z -> ST ErrorCode R unit;
  ro_write_rows_delta : (list DeltaAssign -> list byte -> Res ErrorCode (list byte)) -> Z ->
                          list (list byte * list DeltaAssign) -> Z -> ST ErrorCode R unit;
}.

(** What the storage asks the catalog and the tables: the description of a
    table ([get_table_by_id]), the relation that is opened for a partition
    ([Relation::new]), and the update of a row by delta assignments
    ([apply_value_update_with_deltas]). *)
Class Catalog (R TableDesc : Type) := {
  get_table_by_id : Z -> Res ErrorCode TableDesc;
  open_relation : PhysicalRelationId -> TableDesc -> Res ErrorCode R;
  apply_deltas_to_value : TableDesc -> list DeltaAssign -> list byte -> Res ErrorCode (list byte);
}.

Record WorkerStorage (R : Type) : Type := mkWorkerStorage {
  st_default_partition_id : Z;
  st_relation_store : gmap PhysicalRelationId R;
  st_kv_store : KvStore;
  st_applied_cross_tx : gset (Z * Z);
}.

Arguments mkWorkerStorage {R} _ _ _ _.
Arguments st_default_partition_id {R} _.
Arguments st_relation_store {R} _.
Arguments st_kv_store {R} _.
Arguments st_applied_cross_tx {R} _.

Definition DEFAULT_UNPARTITIONED_TABLE_PARTITION_ID : Z := 0.

Definition WorkerStorage_new {R} (partition_id : Z) : WorkerStorage R := mkWorkerStorage partition_id ∅ ∅ ∅.

(** A commit that passed the conflict checks. *)
Record PreparedWorkerCommit : Type := mkPreparedWorkerCommit {
  pc_xid : Z;
  pc_relation_rows : BTreeMap PhysicalRelationId Rows;
  pc_relation_deltas : BTreeMap PhysicalRelationId (BTreeMap (list byte) (list DeltaAssign));
  pc_kv_rows : Rows;
  pc_batch : XLBatch;
}.

Section storage.
Context {R TableDesc : Type} `{RelationOps R} `{Catalog R TableDesc} `{Msgpack DeltaWire}.

Notation WS := (ST ErrorCode (WorkerStorage R)).

Definition set_relations (m : gmap PhysicalRelationId R) (s : WorkerStorage R) : WorkerStorage R :=
  mkWorkerStorage (st_default_partition_id s) m (st_kv_store s) (st_applied_cross_tx s).

Definition on_kv {A} (m : ST ErrorCode KvStore A) : WS A :=
  fun s => let (r, kv) := m (st_kv_store s) in
           (r, mkWorkerStorage (st_default_partition_id s) (st_relation_store s) kv (st_applied_cross_tx s)).

(** [physical_partition_id] and [relation_id]. *)
Definition physical_partition_id (partition_id : option Z) (s : WorkerStorage R) : Z :=
  default (st_default_partition_id s) partition_id.

Definition physical_id (oid : Z) (partition_id : option Z) (s : WorkerStorage R) : PhysicalRelationId :=
  mkPhysicalRelationId oid (physical_partition_id partition_id s).

(** An operation on a relation of the store ([get_relation_by_id_async]). *)
Definition on_relation {A} (relation_id : PhysicalRelationId) (m : ST ErrorCode R A) : WS A :=
  fun s => match st_relation_store s !! relation_id with
           | Some rel => let (r, rel) := m rel in (r, set_relations (<[relation_id := rel]> (st_relation_store s)) s)
           | None => (Err EntityNotFound, s)
           end.

(** [create_relation_index_for_partition_async]. *)
Definition create_relation_index (relation_id : PhysicalRelationId) (table_desc : TableDesc) : WS unit :=
  s ← st_get;
  match st_relation_store s !! relation_id with
  | Some _ => mret tt
  | None =>
      rel ← st_lift (open_relation relation_id table_desc);
      st_put (set_relations (<[relation_id := rel]> (st_relation_store s)) s)
  end.

(** [ensure_relation_index]. *)
Definition ensure_relation_index (relation_id : PhysicalRelationId) : WS unit :=
  s ← st_get;
  match st_relation_store s !! relation_id with
  | Some _ => mret tt
  | None =>
      table_desc ← st_lift (get_table_by_id (table_id relation_id));
      create_relation_index relation_id table_desc
  end.

(** *** Tables *)

(** [apply_create_table_local_async] and [apply_drop_table_local_async];
    [table_desc] is that of the schema. *)
Definition apply_create_table_local (oid : Z) (table_desc : Res ErrorCode TableDesc) : WS unit :=
  table_desc ← st_lift table_desc;
  create_relation_index (mkPhysicalRelationId oid DEFAULT_UNPARTITIONED_TABLE_PARTITION_ID) table_desc.

Definition apply_drop_table_local (oid : Z) : WS unit :=
  st_modify (fun s => set_relations (delete (mkPhysicalRelationId oid (st_default_partition_id s)) (st_relation_store s)) s).

(** [create_partitioned_relations_async], for the partitions of the rule. *)
Fixpoint create_partitioned_relations (oid : Z) (partitions : list Z) (table_desc : TableDesc) : WS unit :=
  match partitions with
  | [] => mret tt
  | partition :: partitions =>
      create_relation_index (mkPhysicalRelationId oid partition) table_desc ;;
      create_partitioned_relations oid partitions table_desc
  end.

(** [bootstrap_table_local_async]; [binding] has the partitions of the table. *)
Definition bootstrap_table_local (oid : Z) (table_desc : Res ErrorCode TableDesc) (binding : option (list Z)) : WS unit :=
  table_desc ← st_lift table_desc;
  match binding with
  | Some partitions => create_partitioned_relations oid partitions table_desc
  | None => create_relation_index (mkPhysicalRelationId oid DEFAULT_UNPARTITIONED_TABLE_PARTITION_ID) table_desc
  end.

(** *** Reads *)

(** [read_visible_relation_value]: the relation is created when the first
    lookup misses it. *)
Definition read_visible_relation_value (relation_id : PhysicalRelationId) (key : list byte) (snapshot : WorkerSnapshot)
    : WS (option (list byte)) :=
  s ← st_get;
  (match st_relation_store s !! relation_id with
   | Some _ => mret tt
   | None => ensure_relation_index relation_id
   end) ;;
  on_relation relation_id (ro_value key snapshot).

Definition range_visible_relation (relation_id : PhysicalRelationId) (lower upper : Bound (list byte))
    (snapshot : WorkerSnapshot) : WS (list (list byte * list byte)) :=
  ensure_relation_index relation_id ;;
  on_relation relation_id (ro_range lower upper snapshot).

Definition get_on_partition (oid : Z) (partition_id : option Z) (key : list byte) (txm : WorkerTxManager)
    : WS (option (list byte)) :=
  s ← st_get;
  let relation_id := physical_id oid partition_id s in
  match get_relation relation_id key (tm_state txm) with
  | Some staged => mret staged
  | None =>
      match get_relation_deltas relation_id key (tm_state txm) with
      | Some deltas =>
          desc ← st_lift (get_table_by_id oid);
          current ← read_visible_relation_value relation_id key latest_committed;
          match current with
          | Some value => updated ← st_lift (apply_deltas_to_value desc deltas value); mret (Some updated)
          | None => mret None
          end
      | None => read_visible_relation_value relation_id key latest_committed
      end
  end.

Definition bounds_to_scan (lower upper : Bound (list byte)) : list byte * list byte :=
  let key b := match b with Included key | Excluded key => key | Unbounded => [] end in
  (key lower, key upper).

(** The overlay of the staged rows over the committed ones. *)
Definition merge_items (base_items : list (list byte * list byte)) (staged_items : Rows) : list (list byte * list byte) :=
  let merged := foldl (fun m p => bt_insert p.1 (Some p.2) m) ([] : Rows) base_items in
  let merged := foldl (fun m p => bt_insert p.1 p.2 m) merged staged_items in
  omap (fun p : list byte * option (list byte) => option_map (fun value => (p.1, value)) p.2) merged.

Definition range_on_partition (oid : Z) (partition_id : option Z) (lower upper : Bound (list byte))
    (txm : WorkerTxManager) : WS (list (list byte * list byte)) :=
  s ← st_get;
  let relation_id := physical_id oid partition_id s in
  base_items ← range_visible_relation relation_id lower upper latest_committed;
  let '(start_key, end_key) := bounds_to_scan lower upper in
  mret (merge_items base_items (staged_relation_items_in_range relation_id start_key end_key (tm_state txm))).

(** *** Staged writes *)

Definition ensure_no_relation_write_conflict (relation_id : PhysicalRelationId) (key : list byte) (snapshot : WorkerSnapshot)
    : WS unit :=
  ensure_relation_index relation_id ;;
  conflict ← on_relation relation_id (fun rel => (Ok (ro_conflict key snapshot rel), rel));
  if (conflict : bool) then st_lift (Err Transaction) else mret tt.

(** An operation on the state of the transaction. *)
Definition on_tx {A} (txm : WorkerTxManager) (m : ST ErrorCode WorkerTxState A) : WS WorkerTxManager :=
  fun s => let (r, t) := m (tm_state txm) in
           (match r with
            | Ok _ => Ok (mkWorkerTxManager (tm_snapshot txm) t)
            | Err e => Err e
            | Panic => Panic
            end, s).

Definition put_on_partition (oid : Z) (partition_id : option Z) (key value : list byte) (txm : WorkerTxManager)
    : WS WorkerTxManager :=
  s ← st_get;
  let relation_id := physical_id oid partition_id s in
  (if has_statement_lock relation_id key (tm_state txm) then mret tt
   else ensure_no_relation_write_conflict relation_id key (tm_snapshot txm)) ;;
  on_tx txm (put_relation relation_id key value).

Definition remove_on_partition (oid : Z) (partition_id : option Z) (key : list byte) (txm : WorkerTxManager)
    : WS (option (list byte) * WorkerTxManager) :=
  s ← st_get;
  let relation_id := physical_id oid partition_id s in
  let statement_locked := has_statement_lock relation_id key (tm_state txm) in
  (if statement_locked then mret tt
   else ensure_no_relation_write_conflict relation_id key (tm_snapshot txm)) ;;
  current ← match get_relation relation_id key (tm_state txm) with
            | Some staged => mret staged
            | None => read_visible_relation_value relation_id key
                        (if statement_locked then latest_committed else tm_snapshot txm)
            end;
  match current with
  | Some _ => txm ← on_tx txm (delete_relation relation_id key); mret (current, txm)
  | None => mret (current, txm)
  end.

(** *** Commits *)

(** The keys of one relation: those of [skip] are not checked. *)
Fixpoint check_rows (relation_id : PhysicalRelationId) (snapshot : WorkerSnapshot) (skip : list LockKey) (rows : Rows) (rel : R)
    : Res ErrorCode unit :=
  match rows with
  | [] => Ok tt
  | (key, _) :: rows =>
      if bool_decide ((relation_id, key) ∈ skip) then check_rows relation_id snapshot skip rows rel
      else if ro_conflict key snapshot rel then Err Transaction
      else check_rows relation_id snapshot skip rows rel
  end.

Fixpoint ensure_no_relation_conflicts (snapshot : WorkerSnapshot) (relation_rows : BTreeMap PhysicalRelationId Rows)
    (conflict_skip : list LockKey) : WS unit :=
  match relation_rows with
  | [] => mret tt
  | (relation_id, rows) :: relation_rows =>
      ensure_relation_index relation_id ;;
      on_relation relation_id (fun rel => (check_rows relation_id snapshot conflict_skip rows rel, rel)) ;;
      ensure_no_relation_conflicts snapshot relation_rows conflict_skip
  end.

Definition prepare_commit_parts (snapshot : WorkerSnapshot) (xid : Z) (relation_rows : BTreeMap PhysicalRelationId Rows)
    (relation_deltas : BTreeMap PhysicalRelationId (BTreeMap (list byte) (list DeltaAssign)))
    (kv_rows : Rows) (batch : XLBatch) (conflict_skip : list LockKey) : WS PreparedWorkerCommit :=
  ensure_no_relation_conflicts snapshot relation_rows conflict_skip ;;
  (s ← st_get; st_lift (ensure_no_kv_conflicts snapshot kv_rows (st_kv_store s))) ;;
  mret (mkPreparedWorkerCommit xid relation_rows relation_deltas kv_rows batch).

Definition prepare_commit (txm : WorkerTxManager) : WS PreparedWorkerCommit :=
  prepare_commit_parts (tm_snapshot txm) (tx_xid txm) (tx_relation_ops (tm_state txm))
    (staged_relation_deltas (tm_state txm)) (tx_kv_write (tm_state txm)) (xl_batch txm)
    (statement_locked_keys (tm_state txm)).

Definition prepare_worker_kv_commit (snapshot : WorkerSnapshot) (xid : Z) (items : Rows) (batch : XLBatch)
    : WS PreparedWorkerCommit :=
  prepare_commit_parts snapshot xid [] [] items batch [].

Definition prepare_worker_kv_autocommit (xid : Z) (key : list byte) (value : option (list byte)) (batch : XLBatch)
    : PreparedWorkerCommit :=
  mkPreparedWorkerCommit xid [] [] [(key, value)] batch.

Fixpoint apply_relation_rows (now xid : Z) (relation_rows : BTreeMap PhysicalRelationId Rows) : WS unit :=
  match relation_rows with
  | [] => mret tt
  | (relation_id, rows) :: relation_rows =>
      ensure_relation_index relation_id ;;
      on_relation relation_id (ro_write_rows now rows xid) ;;
      apply_relation_rows now xid relation_rows
  end.

Fixpoint apply_relation_deferred_deltas (now xid : Z)
    (relation_deltas : BTreeMap PhysicalRelationId (BTreeMap (list byte) (list DeltaAssign))) : WS unit :=
  match relation_deltas with
  | [] => mret tt
  | (relation_id, rows) :: relation_deltas =>
      ensure_relation_index relation_id ;;
      desc ← st_lift (get_table_by_id (table_id relation_id));
      on_relation relation_id (ro_write_rows_delta (apply_deltas_to_value desc) now rows xid) ;;
      apply_relation_deferred_deltas now xid relation_deltas
  end.

Definition apply_prepared_commit (now : Z) (prepared : PreparedWorkerCommit) : WS unit :=
  apply_relation_rows now (pc_xid prepared) (pc_relation_rows prepared) ;;
  apply_relation_deferred_deltas now (pc_xid prepared) (pc_relation_deltas prepared) ;;
  on_kv (apply_kv_rows (pc_xid prepared) (pc_kv_rows prepared)).

(** *** Replay *)

Definition replay_relation (relation_id : PhysicalRelationId) (m : ST ErrorCode R unit) : WS unit :=
  ensure_relation_index relation_id ;; on_relation relation_id m.

Definition apply_relation_replay_insert (now xid : Z) (i : XLInsert) : WS unit :=
  replay_relation (mkPhysicalRelationId (xi_table_id i) (xi_partition_id i))
    (ro_write_rows now [(xi_key i, Some (xi_value i))] xid).

Definition apply_relation_replay_delete (now xid : Z) (d : XLDelete) : WS unit :=
  replay_relation (mkPhysicalRelationId (xd_table_id d) (xd_partition_id d))
    (ro_write_rows now [(xd_key d, None)] xid).

Definition apply_relation_replay_update (now xid : Z) (u : XLUpdate) : WS unit :=
  let relation_id := mkPhysicalRelationId (xu_table_id u) (xu_partition_id u) in
  ensure_relation_index relation_id ;;
  desc ← st_lift (get_table_by_id (xu_table_id u));
  deltas ← st_lift (decode_delta_assigns (xu_delta u));
  on_relation relation_id (ro_write_rows_delta (apply_deltas_to_value desc) now [(xu_key u, deltas)] xid).

Definition replay_op (now xid : Z) (op : TxOp) : WS unit :=
  match op with
  | TxWrite (WInsert i) =>
      if (xi_table_id i =? 0) && (xi_partition_id i =? 0) then on_kv (worker_put_local (xi_key i) (xi_value i) xid)
      else apply_relation_replay_insert now xid i
  | TxWrite (WDelete d) =>
      if (xd_table_id d =? 0) && (xd_partition_id d =? 0) then on_kv (worker_delete_local (xd_key d) xid)
      else apply_relation_replay_delete now xid d
  | TxWrite (WUpdate u) => apply_relation_replay_update now xid u
  | _ => mret tt
  end.

Fixpoint replay_ops (now xid : Z) (ops : list TxOp) : WS unit :=
  match ops with
  | [] => mret tt
  | op :: ops => replay_op now xid op ;; replay_ops now xid ops
  end.

Fixpoint replay_batch (now : Z) (batch : XLBatch) : WS unit :=
  match batch with
  | [] => mret tt
  | entry :: batch => replay_ops now (xe_xid entry) (xe_ops entry) ;; replay_batch now batch
  end.

(** *** Cross-partition writes *)

(** The writes of the transaction by partition, in order. *)
Definition by_partition (writes : list XLWrite) : BTreeMap Z (list XLWrite) :=
  foldl (fun m w => bt_entry (xl_write_partition_id w) [] (fun ws => ws ++ [w]) m) [] writes.

Fixpoint apply_cross_writes (now tx_id : Z) (writes : list XLWrite) : WS unit :=
  match writes with
  | [] => mret tt
  | WInsert i :: writes => apply_relation_replay_insert now tx_id i ;; apply_cross_writes now tx_id writes
  | WDelete d :: writes => apply_relation_replay_delete now tx_id d ;; apply_cross_writes now tx_id writes
  | WUpdate _ :: _ => st_lift (Err NotImplemented)
  end.

Fixpoint apply_partitions (now tx_id : Z) (partitions : BTreeMap Z (list XLWrite)) : WS unit :=
  match partitions with
  | [] => mret tt
  | (partition, writes) :: partitions =>
      s ← st_get;
      (if bool_decide ((tx_id, partition) ∈ st_applied_cross_tx s) then mret tt
       else
         apply_cross_writes now (tx_id mod 18446744073709551616) writes ;;
         st_modify (fun s => mkWorkerStorage (st_default_partition_id s) (st_relation_store s) (st_kv_store s)
           ({[(tx_id, partition)]} ∪ st_applied_cross_tx s))) ;;
      apply_partitions now tx_id partitions
  end.

(** [apply_cross_partition_tx_async]; the id of the transaction is cut to 64
    bits for its versions. *)
Definition apply_cross_partition_tx (now tx_id : Z) (partition_write_set : list XLWrite) : WS unit :=
  apply_partitions now tx_id (by_partition partition_write_set).

End storage.
