(* ===== verification/RelationLaws.v ===== *)
(** * What relations promise to the storage

    The laws of the interface [RelationOps] of [Storage], and that the
    relations over time series files obey them. *)

From S2P Require Import Prelude Errors TimeSeries Snapshots Versions Histories BTree TxState Relation RelationProperties RelationRuns Storage.

(** A relation stands for the writes it accepted, in the order in which they
    were applied; only the versions of each key matter.  A batch can be
    refused; when its transaction is newer than the versions of its rows the
    relation then answers as before. *)
Class RelationOk (R : Type) `{RelationOps R} := {
  ro_rep : R -> list RowWrite -> Prop;
  ro_room : R -> list (list byte * option (list byte)) -> Z -> Prop;
  ro_rep_ext rel ws ws' :
    (forall key, versions_of ws key = versions_of ws' key) -> ro_rep rel ws -> ro_rep rel ws';
  ro_value_law rel ws key snapshot s :
    ro_rep rel ws -> to_snapshot snapshot = Ok s ->
    exists rel', ro_value key snapshot rel = (Ok (live_value (reader (Some s) (versions_of ws key))), rel') /\
      ro_rep rel' ws;
  ro_conflict_law rel ws key snapshot :
    ro_rep rel ws ->
    ro_conflict key snapshot rel =
      match last (versions_of ws key) with Some v => negb (is_visible_to_snapshot (stamp v) snapshot) | None => false end;
  ro_write_law now rel ws rows xid :
    ro_rep rel ws -> ro_room rel rows xid -> Forall row_write_ok (row_writes xid rows) -> NoDup rows.*1 ->
    (exists rel', ro_write_rows now rows xid rel = (Ok tt, rel') /\ ro_rep rel' (ws ++ row_writes xid rows)) \/
    (exists e rel', ro_write_rows now rows xid rel = (Err e, rel') /\ (newer_rows ws xid rows = true -> ro_rep rel' ws));
}.

Section relation_store.
Context `{TimeSeriesOk F} `{OrdOk KeyTuple}.

#[export] Instance relation_ops : RelationOps (Relation F) := {
  ro_value key snapshot := visible_value (mkKeyTuple key) snapshot;
  ro_range := visible_range;
  ro_conflict key snapshot rel := has_write_conflict (mkKeyTuple key) snapshot rel;
  ro_write_rows := relation_write_rows;
  ro_write_rows_delta := write_rows_delta;
}.

#[export] Program Instance relation_ok : RelationOk (Relation F) := {
  ro_rep rel ws := reach_inv rel ws false;
  ro_room := batch_room;
}.
Next Obligation.
  intros rel ws ws' E (krs & vrs & R & Hk & Hn & _). exists krs, vrs.
  split_and!; [| done | lia | lia | done]. eapply rel_rep_ext; [| exact R]. intros k. apply E.
Qed.
Next Obligation.
  intros rel ws key snapshot s (krs & vrs & R & Hk & Hn & _) Hs.
  destruct (visible_value_ok rel _ vrs (mkKeyTuple key) snapshot s R Hs) as (rel' & E & R' & Hl). exists rel'.
  split; [exact E | by eapply (looked_reach rel)].
Qed.
Next Obligation.
  intros rel ws key snapshot (krs & vrs & R & _). apply (conflict_ok rel (history ws) vrs (mkKeyTuple key) snapshot R).
Qed.
Next Obligation.
  intros now rel ws rows xid (krs & vrs & R & Hk & Hn & _) Hroom Hok Hnd.
  destruct (write_rows_ok now rows xid rel _ krs vrs R Hk Hroom Hok Hnd)
    as (res & rel' & ids & krs' & vrs' & E & _ & _ & Hn' & Hk' & _ & _ & Hres). pose proof Hroom as (_ & Hmax & _).
  destruct res as [[] | e |]; [left | right | done].
  - exists rel'. split; [exact E |]. destruct Hres as [R' _]. exists krs', vrs'.
    split_and!; [eapply rel_rep_ext; [apply history_app | done] | done | lia | lia | done].
  - exists e, rel'. split; [exact E |]. intros Hw. exists krs', vrs'.
    split_and!; [by apply Hres, newer_fresh, newer_rows_xid | done | lia | lia | done].
Qed.

(** The runs of [rel_reach] give relations that stand for their writes. *)
Lemma reach_ro_rep (rel : Relation F) ws ordered : rel_reach rel ws ordered -> ro_rep rel ws.
Proof.
  intros (krs & vrs & R & Hk & Hn & _)%reach_inv_ok. exists krs, vrs. split_and!; [done | done | lia | lia | done].
Qed.
End relation_store.
