(* ===== verification/StorageProperties.v ===== *)
(** * Correctness of the storage of a worker

    The storage stands for the sequence of committed writes that it applied:
    reads answer from it, a commit appends its rows, and the replay of a log
    appends the rows of its records. *)

From S2P Require Import Prelude Errors LogFrame Snapshots Versions Histories XLocks BTree TxState KvStore Storage RelationLaws.

(** ** Histories of all relations *)

(** A committed write of a worker; the key/value rows have the relation
    [kv_relation]. *)
Notation Write := (LockKey * option (list byte) * Z)%type.

Implicit Types (W : list Write) (r : PhysicalRelationId) (rk : LockKey).

(** The writes of one relation. *)
Definition hist W r : list RowWrite :=
  (fun w : Write => (w.1.1.2, w.1.2, w.2)) <$> filter (fun w : Write => w.1.1.1 = r) W.

(** The versions of one row. *)
Definition versions_at W rk : list VersionTuple := versions_of (hist W rk.1) rk.2.

Lemma hist_app W1 W2 r : hist (W1 ++ W2) r = hist W1 r ++ hist W2 r.
Proof. unfold hist. by rewrite filter_app, fmap_app. Qed.

Lemma versions_of_app ws1 ws2 key : versions_of (ws1 ++ ws2) key = versions_of ws1 key ++ versions_of ws2 key.
Proof. unfold versions_of. by rewrite filter_app, fmap_app. Qed.

Lemma versions_at_app W1 W2 rk : versions_at (W1 ++ W2) rk = versions_at W1 rk ++ versions_at W2 rk.
Proof. unfold versions_at. by rewrite hist_app, versions_of_app. Qed.

Lemma versions_at_cons w W rk :
  versions_at (w :: W) rk = (if decide (w.1.1 = rk) then [row_version w.2 w.1.2] else []) ++ versions_at W rk.
Proof.
  change (w :: W) with ([w] ++ W). rewrite versions_at_app. f_equal. destruct w as [[[r k] v] x], rk as [r' k'].
  unfold versions_at, versions_of, hist. cbn [fst snd]. rewrite filter_cons, filter_nil. cbn [fst snd].
  destruct (decide (r = r')) as [<- | Hr]; [| by rewrite decide_False by congruence].
  cbn [fmap list_fmap]. rewrite filter_cons, filter_nil. cbn [fst snd].
  destruct (decide (k = k')) as [<- | Hk]; [by rewrite decide_True | by rewrite decide_False by congruence].
Qed.

Lemma versions_at_filter W rk :
  versions_at W rk = (fun w : Write => row_version w.2 w.1.2) <$> filter (fun w : Write => w.1.1 = rk) W.
Proof.
  induction W as [| w W IH]; [done |]. rewrite versions_at_cons, IH, filter_cons. by case_decide.
Qed.

Definition write_key (w : Write) : LockKey := w.1.1.

Lemma versions_at_none W rk : rk ∉ write_key <$> W -> versions_at W rk = [].
Proof.
  intros Hn. induction W as [| w W IH]; [done |]. rewrite fmap_cons, not_elem_of_cons in Hn.
  rewrite versions_at_cons, decide_False, IH by (unfold write_key in *; naive_solver). done.
Qed.

(** Rows of a transaction that are written once each: their order does not
    matter. *)
Lemma versions_at_perm W1 W2 rk : W1 ≡ₚ W2 -> NoDup (write_key <$> W1) -> versions_at W1 rk = versions_at W2 rk.
Proof.
  intros HP. induction HP as [| w l1 l2 HP IH | w1 w2 l | l1 l2 l3 HP1 IH1 HP2 IH2]; intros Hnd; [done | | |].
  - apply NoDup_cons in Hnd as [_ Hnd]. by rewrite !versions_at_cons, IH.
  - rewrite !fmap_cons, NoDup_cons, elem_of_cons in Hnd. rewrite !versions_at_cons. unfold write_key in Hnd.
    destruct (decide (w1.1.1 = rk)), (decide (w2.1.1 = rk)); try done. naive_solver congruence.
  - rewrite IH1 by done. apply IH2. by rewrite <- HP1.
Qed.

(** ** Transactions without deferred assignments *)

Definition op_plain (op : TxOp) : Prop := match op with TxWrite (WUpdate _) => False | _ => True end.

(** A transaction that stages rows only, with values of a length that fits. *)
Definition tx_plain (t : WorkerTxManager) : Prop :=
  tx_inv (tm_state t) /\ tx_deferred_deltas (tm_state t) = [] /\
  Forall op_plain (tx_log_buffer (tm_state t)) /\
  Forall (fun w : LockKey * option (list byte) => row_write_ok (w.1.2, w.2, tx_xid t)) (staged_writes (tm_state t)).

Definition op_update (op : TxOp) : option XLUpdate := match op with TxWrite (WUpdate u) => Some u | _ => None end.

Definition request_plain (r : tx_request) : Prop :=
  match r with
  | RPut _ value => zlen value <= U32_MAX
  | RPutRelation relation_id _ value => relation_id <> kv_relation /\ zlen value <= U32_MAX
  | RDelete _ => True
  | RDeleteRelation relation_id _ => relation_id <> kv_relation
  | RDeferred _ _ _ => False
  end.

Lemma request_plain_step `{Msgpack DeltaWire} (r : tx_request) (s : WorkerTxState) :
  request_plain r -> tx_inv s ->
  exists rk v s', run_request r s = (Ok tt, s') /\ staged_ok rk v s s' /\
    match v with Some v => zlen v <= U32_MAX | None => True end.
Proof.
  intros Hr Hi. destruct r as [key value | key | rid key value | rid key | ]; [| | | | done]; cbn [request_plain run_request] in *.
  - destruct (stage_kv_ok key (Some value) s Hi) as (s' & E & Hs). by exists (kv_relation, key), (Some value), s'.
  - destruct (stage_kv_ok key None s Hi) as (s' & E & Hs). by exists (kv_relation, key), None, s'.
  - destruct (stage_rel_ok (rid, key) (Some value) s ltac:(apply Hr) Hi) as (s' & E & Hs).
    exists (rid, key), (Some value), s'. split_and!; [exact E | exact Hs | apply Hr].
  - destruct (stage_rel_ok (rid, key) None s Hr Hi) as (s' & E & Hs). by exists (rid, key), None, s'.
Qed.

(** Transactions that are staged by requests of clients. *)
Lemma requests_plain `{Msgpack DeltaWire} snapshot (reqs : list tx_request) :
  Forall request_plain reqs -> forall s, tx_plain (mkWorkerTxManager snapshot s) ->
  exists s', run_requests reqs s = (Ok tt, s') /\ tx_plain (mkWorkerTxManager snapshot s').
Proof.
  induction 1 as [| r reqs Hr _ IH]; intros s Hs; [by exists s |]. destruct Hs as (Hi & Hd & Hp & Hok). cbn [tm_state] in *.
  destruct (request_plain_step r s Hr Hi) as (rk & v & s1 & E1 & (Hi1 & Hst & Hd1 & Hf) & Hv).
  destruct (IH s1) as (s2 & E2 & H2).
  { split; [done |]. cbn [tm_state]. split; [congruence |]. split.
    - specialize (Hf _ op_update ltac:(by intros [[] ?] [])).
      assert (forall log, Forall op_plain log <-> omap op_update log = []) as Hiff.
      { clear. intros log. induction log as [| op log IH]; [done |]. rewrite Forall_cons, IH. cbn [omap list_omap].
        destruct op as [| | | []]; cbn; naive_solver. }
      apply Hiff. rewrite Hf. by apply Hiff.
    - apply Forall_forall. intros [rk' v'] Hin. apply staged_elem in Hin; [| done]. rewrite Hst in Hin. case_decide.
      + injection Hin as <-. exact Hv.
      + apply staged_elem in Hin; [| done]. rewrite Forall_forall in Hok. by apply (Hok (rk', v')). }
  exists s2. split; [| done]. cbn [run_requests]. by st_step by exact E1.
Qed.

Lemma tx_plain_new snapshot : tx_plain (WorkerTxManager_new snapshot).
Proof.
  split; [| split_and!; constructor]. split; [constructor | split; [constructor | done] | constructor | constructor | | done | done].
  intros rk. unfold logged, staged_at, index_at. by case_decide.
Qed.

(** ** The storage and its history *)

Section storage_properties.
Context {R TableDesc : Type} `{RelationOk R} `{Catalog R TableDesc} `{Msgpack DeltaWire}.

Implicit Types s : WorkerStorage R.

(** [base] has the writes of the relations as they are found when they are
    opened. *)
Context (base : PhysicalRelationId -> list RowWrite).

Record storage_rep s W : Prop := mk_storage_rep {
  sr_kv : kv_rep (st_kv_store s) (hist W kv_relation);
  sr_rel : forall r rel, r <> kv_relation -> st_relation_store s !! r = Some rel -> ro_rep rel (base r ++ hist W r);
  sr_none : forall r, r <> kv_relation -> st_relation_store s !! r = None -> hist W r = [];
}.

(** What opening a relation gives. *)
Definition opens : Prop :=
  forall r desc rel, open_relation r desc = Ok rel -> ro_rep rel (base r).

Lemma hist_nil_versions W r : hist W r = [] <-> forall key, versions_at W (r, key) = [].
Proof.
  unfold versions_at. cbn [fst snd]. split; [by intros -> |]. intros Hv. destruct (hist W r) as [| [[k v] x] ws]; [done |].
  specialize (Hv k). unfold versions_of in Hv. rewrite filter_cons, decide_True in Hv by done. done.
Qed.

Lemma storage_rep_ext s W W' :
  (forall rk, versions_at W rk = versions_at W' rk) -> storage_rep s W -> storage_rep s W'.
Proof.
  intros E [Kv Rel None]. split.
  - intros key. specialize (E (kv_relation, key)). unfold versions_at in E. cbn [fst snd] in E. rewrite <- E. apply Kv.
  - intros r rel Hk Hr. apply (ro_rep_ext _ (base r ++ hist W r)); [| by apply Rel]. intros key.
    rewrite !versions_of_app. f_equal. apply (E (r, key)).
  - intros r Hk Hr. apply hist_nil_versions. intros key. rewrite <- E. revert key. apply hist_nil_versions. by apply None.
Qed.

Lemma storage_rep_new p : storage_rep (WorkerStorage_new p) [].
Proof. split; cbn; [apply kv_rep_empty | intros r rel _; by rewrite lookup_empty | done]. Qed.

(** The relation that a lookup finds, or opens. *)
Definition finds s r (rel : R) : Prop :=
  st_relation_store s !! r = Some rel \/
  st_relation_store s !! r = None /\
    exists desc, get_table_by_id (table_id r) = Ok desc /\ open_relation r desc = Ok rel.

Context (Hopens : opens).

Lemma ensure_found s r rel :
  finds s r rel -> exists s', ensure_relation_index r s = (Ok tt, s') /\
    s' = set_relations (<[r := rel]> (st_relation_store s)) s.
Proof.
  intros [E | (E & desc & Ed & Eo)]; unfold ensure_relation_index; (st_step by reflexivity); rewrite E.
  - exists s. split; [done |]. unfold set_relations. rewrite insert_id by done. by destruct s.
  - st_step by (rewrite Ed; reflexivity). unfold create_relation_index. st_step by reflexivity. rewrite E.
    st_step by (rewrite Eo; reflexivity). eexists. split; reflexivity.
Qed.

(** Looking for a relation that cannot be opened changes nothing. *)
Lemma ensure_cases s r :
  (exists rel, finds s r rel) \/ (forall res s', ensure_relation_index r s = (res, s') -> res <> Ok tt /\ s' = s).
Proof.
  unfold ensure_relation_index, finds. destruct (st_relation_store s !! r) as [rel |] eqn:E; [left; exists rel; by left |].
  unfold mbind, st_bind, st_get. rewrite E.
  destruct (get_table_by_id (table_id r)) as [desc | e |] eqn:Ed; cbn; [| right; by intros ?? [= <- <-]..].
  unfold create_relation_index, mbind, st_bind, st_get. rewrite E.
  destruct (open_relation r desc) as [rel | e |] eqn:Eo; cbn; [| right; by intros ?? [= <- <-]..].
  left. exists rel. right. split; [done |]. by exists desc.
Qed.

Lemma finds_rep s W r rel : storage_rep s W -> r <> kv_relation -> finds s r rel -> ro_rep rel (base r ++ hist W r).
Proof.
  intros Rep Hk [E | (E & desc & _ & Eo)]; [by apply Rep |].
  rewrite (sr_none _ _ Rep r Hk E), app_nil_r. by eapply Hopens.
Qed.

(** A relation is replaced by one that stands for more writes. *)
Lemma storage_rep_set s W W' r rel :
  storage_rep s W -> r <> kv_relation -> (forall r', r' <> r -> hist W' r' = hist W r') ->
  ro_rep rel (base r ++ hist W' r) -> storage_rep (set_relations (<[r := rel]> (st_relation_store s)) s) W'.
Proof.
  intros [Kv Rel None] Hk Hother Hrel. split; cbn.
  - by rewrite Hother by congruence.
  - intros r' rel' Hk'. rewrite lookup_insert_Some. intros [[<- <-] | [Hne Hr]]; [done |]. rewrite Hother by done. by apply Rel.
  - intros r' Hk' [Hr Hne]%lookup_insert_None. rewrite Hother by congruence. by apply None.
Qed.

(** *** Reads *)

Lemma read_relation_ok s W r key snapshot sn rel :
  storage_rep s W -> r <> kv_relation -> to_snapshot snapshot = Ok sn -> finds s r rel ->
  exists s', read_visible_relation_value r key snapshot s =
    (Ok (live_value (reader (Some sn) (versions_of (base r ++ hist W r) key))), s') /\ storage_rep s' W.
Proof.
  intros Rep Hk Hs Hf. pose proof (finds_rep _ _ _ _ Rep Hk Hf) as Hrel.
  destruct (ro_value_law rel _ key snapshot sn Hrel Hs) as (rel' & E & Hrel').
  exists (set_relations (<[r := rel']> (st_relation_store s)) s). split; [| by eapply storage_rep_set].
  unfold read_visible_relation_value. st_step by reflexivity.
  assert (exists s1, (match st_relation_store s !! r with Some _ => mret tt | None => ensure_relation_index r end) s = (Ok tt, s1) /\
    st_relation_store s1 !! r = Some rel /\ set_relations (<[r := rel']> (st_relation_store s1)) s1 =
    set_relations (<[r := rel']> (st_relation_store s)) s) as (s1 & E1 & E2 & E3).
  { destruct (st_relation_store s !! r) as [rel1 |] eqn:Er.
    - exists s. destruct Hf as [Hf | [Hf _]]; [| congruence]. split_and!; (done || congruence).
    - destruct (ensure_found s r rel Hf) as (s1 & Es & ->). eexists. split; [exact Es |]. unfold set_relations. cbn.
      by rewrite lookup_insert_eq, insert_insert_eq. }
  st_step by exact E1. unfold on_relation. by rewrite E2, E, E3.
Qed.
Lemma read_relation_rep s W r key snapshot sn res s' :
  storage_rep s W -> r <> kv_relation -> to_snapshot snapshot = Ok sn ->
  read_visible_relation_value r key snapshot s = (res, s') -> storage_rep s' W.
Proof.
  intros Rep Hk Hs E. destruct (ensure_cases s r) as [[rel Hf] | Hn].
  - destruct (read_relation_ok s W r key snapshot sn rel Rep Hk Hs Hf) as (s1 & E1 & Rep1). rewrite E in E1. by injection E1 as -> ->.
  - unfold read_visible_relation_value, mbind, st_bind, st_get in E.
    destruct (ensure_relation_index r s) as [res1 s1] eqn:E1. destruct (Hn _ _ eq_refl) as [Hne ->].
    destruct (st_relation_store s !! r) as [rel |] eqn:Er.
    { exfalso. unfold ensure_relation_index, mbind, st_bind, st_get in E1. rewrite Er in E1. by injection E1 as <-. }
    rewrite E1 in E. by destruct res1 as [[] | |]; [| injection E as <- <- ..].
Qed.

(** *** Writes *)

(** The rows of one relation, or the key/value rows, written at once. *)
Notation Part := (PhysicalRelationId * Rows)%type.

Definition apply_part (now xid : Z) (p : Part) : ST ErrorCode (WorkerStorage R) unit :=
  if decide (p.1 = kv_relation) then on_kv (apply_kv_rows xid p.2)
  else ensure_relation_index p.1 ;; on_relation p.1 (ro_write_rows now p.2 xid).

Fixpoint apply_parts (now xid : Z) (ps : list Part) : ST ErrorCode (WorkerStorage R) unit :=
  match ps with
  | [] => mret tt
  | p :: ps => apply_part now xid p ;; apply_parts now xid ps
  end.

Definition part_writes (xid : Z) (p : Part) : list Write :=
  (fun q : list byte * option (list byte) => ((p.1, q.1), q.2, xid)) <$> p.2.

Definition parts_writes (xid : Z) (ps : list Part) : list Write := p ← ps; part_writes xid p.

Definition rows_part_ok (xid : Z) (p : Part) : Prop := NoDup p.2.*1 /\ Forall row_write_ok (row_writes xid p.2).

Definition part_room s (xid : Z) (p : Part) : Prop :=
  p.1 <> kv_relation -> forall rel, finds s p.1 rel -> ro_room rel p.2 xid.

(** Every part finds room behind the parts before it. *)
Fixpoint parts_room (now xid : Z) (ps : list Part) s : Prop :=
  match ps with
  | [] => True
  | p :: ps => part_room s xid p /\ forall s', apply_part now xid p s = (Ok tt, s') -> parts_room now xid ps s'
  end.

(** The relation of a part cannot be opened, or it refuses the rows. *)
Definition part_refused (now xid : Z) (p : Part) s : Prop :=
  p.1 <> kv_relation /\
  ((forall rel, ~ finds s p.1 rel) \/ exists rel e rel', finds s p.1 rel /\ ro_write_rows now p.2 xid rel = (Err e, rel')).

Lemma hist_part xid p r : hist (part_writes xid p) r = if decide (r = p.1) then row_writes xid p.2 else [].
Proof.
  destruct p as [r' rows]. unfold hist, part_writes, row_writes. cbn [fst snd]. case_decide as E.
  - subst r'. induction rows as [| [k v] rows IH]; [done |]. rewrite !fmap_cons, filter_cons, decide_True by done.
    rewrite fmap_cons. by rewrite IH.
  - induction rows as [| [k v] rows IH]; [done |]. rewrite !fmap_cons, filter_cons, decide_False by (cbn; congruence). exact IH.
Qed.

Lemma apply_kv_ok xid rows : forall kv ws, kv_rep kv ws ->
  exists kv', apply_kv_rows xid rows kv = (Ok tt, kv') /\ kv_rep kv' (ws ++ row_writes xid rows).
Proof.
  induction rows as [| [k v] rows IH]; intros kv ws Hkv; [exists kv; by rewrite app_nil_r |].
  destruct (write_kv_ok kv ws k v xid Hkv) as (kv1 & E1 & W1). destruct (IH kv1 _ W1) as (kv2 & E2 & W2).
  exists kv2. rewrite <- app_assoc in W2. split; [| exact W2]. cbn [apply_kv_rows]. st_step by exact E1. exact E2.
Qed.

Lemma apply_part_ok now xid p s W s' :
  storage_rep s W -> rows_part_ok xid p -> part_room s xid p -> apply_part now xid p s = (Ok tt, s') ->
  storage_rep s' (W ++ part_writes xid p).
Proof.
  intros Rep [Hnd Hok] Hroom. unfold apply_part. case_decide as Hk.
  - destruct (apply_kv_ok xid p.2 _ _ (sr_kv _ _ Rep)) as (kv & E & Hkv). unfold on_kv. rewrite E. intros [= <-].
    split; cbn.
    + rewrite hist_app, hist_part, decide_True by done. exact Hkv.
    + intros r rel Hr E'. rewrite hist_app, hist_part, decide_False, app_nil_r by congruence. by apply Rep.
    + intros r Hr E'. rewrite hist_app, hist_part, decide_False, app_nil_r by congruence. by apply Rep.
  - intros E. destruct (ensure_cases s p.1) as [[rel Hf] | Hn].
    + destruct (ensure_found s p.1 rel Hf) as (s1 & E1 & ->). erewrite st_bind_ok in E by exact E1. cbv beta in E.
      unfold on_relation, set_relations in E. cbn [st_relation_store] in E. rewrite lookup_insert_eq in E.
      pose proof (finds_rep _ _ _ _ Rep Hk Hf) as Hrel.
      destruct (ro_write_law now rel _ p.2 xid Hrel (Hroom Hk rel Hf) Hok Hnd) as [(rel' & Ew & Hrel') | (e & rel' & Ew & _)];
        rewrite Ew in E; [| done].
      injection E as <-. rewrite insert_insert_eq. apply (storage_rep_set s W); [done | done | |].
      * intros r' Hne. by rewrite hist_app, hist_part, decide_False, app_nil_r.
      * by rewrite hist_app, hist_part, decide_True, app_assoc.
    + unfold mbind, st_bind in E. destruct (ensure_relation_index p.1 s) as [res s1] eqn:E1.
      destruct (Hn _ _ eq_refl) as [Hne ->]. by destruct res as [[] | |].
Qed.

Lemma finds_eq s r rel rel' : finds s r rel -> finds s r rel' -> rel = rel'.
Proof.
  intros [E | (E & desc & Ed & Eo)] [E' | (E' & desc' & Ed' & Eo')]; rewrite E in E'; [congruence | done | done |].
  rewrite Ed in Ed'. injection Ed' as <-. congruence.
Qed.

Lemma apply_part_cases now xid p s W :
  storage_rep s W -> rows_part_ok xid p -> part_room s xid p ->
  match apply_part now xid p s with
  | (Ok tt, s') => storage_rep s' (W ++ part_writes xid p)
  | _ => part_refused now xid p s
  end.
Proof.
  intros Rep Hp Hroom. destruct (apply_part now xid p s) as [res s'] eqn:E.
  assert (res = Ok tt \/ part_refused now xid p s) as [-> | Hr]; [| by eapply apply_part_ok | by destruct res as [[] | |]; [eapply apply_part_ok | ..]].
  destruct Hp as [Hnd Hok]. unfold apply_part in E. case_decide as Hk.
  { destruct (apply_kv_ok xid p.2 _ _ (sr_kv _ _ Rep)) as (kv & Ekv & _). unfold on_kv in E. rewrite Ekv in E. injection E as <- <-. by left. }
  destruct (ensure_cases s p.1) as [[rel Hf] | Hn].
  - destruct (ensure_found s p.1 rel Hf) as (s1 & E1 & ->). erewrite st_bind_ok in E by exact E1. cbv beta in E.
    unfold on_relation, set_relations in E. cbn [st_relation_store] in E. rewrite lookup_insert_eq in E.
    destruct (ro_write_law now rel _ p.2 xid (finds_rep _ _ _ _ Rep Hk Hf) (Hroom Hk rel Hf) Hok Hnd) as [(rel' & Ew & _) | (e & rel' & Ew & _)].
    + rewrite Ew in E. injection E as <- <-. by left.
    + right. split; [done |]. right. by exists rel, e, rel'.
  - right. split; [done |]. left. intros rel Hf. destruct (ensure_found s p.1 rel Hf) as (s1 & E1 & _). by destruct (Hn _ _ E1).
Qed.

(** Parts of several transactions, one after the other. *)
Notation Step := (Z * Part)%type.

Fixpoint apply_steps (now : Z) (ps : list Step) : ST ErrorCode (WorkerStorage R) unit :=
  match ps with
  | [] => mret tt
  | p :: ps => apply_part now p.1 p.2 ;; apply_steps now ps
  end.

(** Every relation that is found has room for the rows. *)
Fixpoint steps_room (now : Z) (ps : list Step) s : Prop :=
  match ps with
  | [] => True
  | p :: ps => part_room s p.1 p.2 /\ forall s', apply_part now p.1 p.2 s = (Ok tt, s') -> steps_room now ps s'
  end.

(** The first part that is not applied is refused by its relation. *)
Fixpoint steps_refused (now : Z) (ps : list Step) s : Prop :=
  match ps with
  | [] => False
  | p :: ps => part_refused now p.1 p.2 s \/ exists s', apply_part now p.1 p.2 s = (Ok tt, s') /\ steps_refused now ps s'
  end.

Lemma refused_relation now ps : forall s, steps_refused now ps s -> exists p, p ∈ ps /\ p.2.1 <> kv_relation.
Proof.
  induction ps as [| p ps IH]; intros s; [done |]. intros [[Hk _] | (s' & _ & Hr)]; [exists p; split; [by left | done] |].
  destruct (IH _ Hr) as (q & Hq & Hk). exists q. split; [by right | done].
Qed.

Definition steps_writes (ps : list Step) : list Write := p ← ps; part_writes p.1 p.2.

Lemma apply_steps_cases now ps : forall s W,
  storage_rep s W -> Forall (fun p => rows_part_ok p.1 p.2) ps -> steps_room now ps s ->
  match apply_steps now ps s with
  | (Ok tt, s') => storage_rep s' (W ++ steps_writes ps)
  | _ => steps_refused now ps s
  end.
Proof.
  induction ps as [| p ps IH]; intros s W Rep Hok Hroom; [by rewrite app_nil_r |].
  apply Forall_cons in Hok as [Hp Hok]. destruct Hroom as [Hr Hroom]. pose proof (apply_part_cases now p.1 p.2 s W Rep Hp Hr) as Hc.
  cbn [apply_steps steps_refused]. unfold mbind, st_bind. destruct (apply_part now p.1 p.2 s) as [[[] | |] s1] eqn:E; [| by left..].
  specialize (IH s1 _ Hc Hok (Hroom _ eq_refl)). unfold steps_writes in *. rewrite bind_cons, app_assoc.
  destruct (apply_steps now ps s1) as [[[] | |] s2]; [done | right; by exists s1..].
Qed.

(** *** Commits and replay in parts *)

Definition prepared_parts (p : PreparedWorkerCommit) : list Part := pc_relation_rows p ++ [(kv_relation, pc_kv_rows p)].

Lemma st_bind_assoc {A B C} (m : ST ErrorCode (WorkerStorage R) A) (f : A -> ST ErrorCode (WorkerStorage R) B)
    (g : B -> ST ErrorCode (WorkerStorage R) C) s : (x ← m; y ← f x; g y) s = (y ← (x ← m; f x); g y) s.
Proof. unfold mbind, st_bind. by destruct (m s) as [[] ?]. Qed.

Lemma st_bind_ext {A B} (m : ST ErrorCode (WorkerStorage R) A) (f g : A -> ST ErrorCode (WorkerStorage R) B) s :
  (forall x s, f x s = g x s) -> (x ← m; f x) s = (x ← m; g x) s.
Proof. intros E. unfold mbind, st_bind. destruct (m s) as [[] ?]; [apply E | done | done]. Qed.

Lemma apply_parts_app now xid ps1 ps2 s :
  apply_parts now xid (ps1 ++ ps2) s = (apply_parts now xid ps1 ;; apply_parts now xid ps2) s.
Proof.
  revert s. induction ps1 as [| p ps1 IH]; intros s; [done |]. cbn [app apply_parts]. rewrite <- st_bind_assoc.
  apply st_bind_ext. intros _ s'. apply IH.
Qed.

Lemma apply_relation_rows_parts now xid (m : BTreeMap PhysicalRelationId Rows) s :
  kv_relation ∉ m.*1 -> apply_relation_rows now xid m s = apply_parts now xid m s.
Proof.
  revert s. induction m as [| [r rows] m IH]; intros s Hk; [done |]. rewrite fmap_cons, not_elem_of_cons in Hk.
  cbn [apply_relation_rows apply_parts]. unfold apply_part. cbn [fst snd] in *. rewrite decide_False by naive_solver.
  rewrite st_bind_assoc. apply st_bind_ext. intros _ s'. apply IH. naive_solver.
Qed.

(** The application of a commit without deferred assignments. *)
Lemma apply_prepared_parts now p s :
  pc_relation_deltas p = [] -> kv_relation ∉ (pc_relation_rows p).*1 ->
  apply_prepared_commit now p s = apply_parts now (pc_xid p) (prepared_parts p) s.
Proof.
  intros Hd Hk. unfold apply_prepared_commit, prepared_parts. rewrite apply_parts_app, Hd.
  unfold mbind, st_bind. rewrite <- apply_relation_rows_parts by done.
  destruct (apply_relation_rows now _ _ s) as [[] s1]; [| done | done]. cbn [apply_relation_deferred_deltas apply_parts].
  unfold mbind, st_bind, apply_part. cbn [fst snd]. rewrite decide_True by done.
  cbn. by destruct (on_kv _ s1) as [[[] | |] s2].
Qed.

(** The part that a log record writes. *)
Definition op_part (op : TxOp) : option Part :=
  option_map (fun w : LockKey * option (list byte) => (w.1.1, [(w.1.2, w.2)])) (op_write op).

Lemma replay_op_part now xid op s :
  op_plain op -> replay_op now xid op s = match op_part op with Some p => apply_part now xid p s | None => (Ok tt, s) end.
Proof.
  assert (forall t p, ((t =? 0) && (p =? 0) = true <-> mkPhysicalRelationId t p = kv_relation)) as Hk.
  { intros t p. rewrite andb_true_iff, !Z.eqb_eq. unfold kv_relation. split; [by intros [-> ->] | by intros [= -> ->]]. }
  destruct op as [| | | [i | u | d]]; try done; intros _; unfold op_part, apply_part; cbn [op_write option_map replay_op fst snd].
  - destruct (_ && _) eqn:E.
    + apply Hk in E. rewrite decide_True by done. unfold on_kv, worker_put_local. cbn [apply_kv_rows].
      unfold mbind, st_bind. by destruct (write_version_to_kv_store _ _ _ _) as [[[] | |] ?].
    + rewrite decide_False; [done |]. intros ?%Hk. congruence.
  - destruct (_ && _) eqn:E.
    + apply Hk in E. rewrite decide_True by done. unfold on_kv, worker_delete_local. cbn [apply_kv_rows].
      unfold mbind, st_bind. by destruct (write_version_to_kv_store _ _ _ _) as [[[] | |] ?].
    + rewrite decide_False; [done |]. intros ?%Hk. congruence.
Qed.

Lemma replay_ops_parts now xid ops s :
  Forall op_plain ops -> replay_ops now xid ops s = apply_parts now xid (omap op_part ops) s.
Proof.
  intros Hp. revert s. induction Hp as [| op ops Hop Hp IH]; intros s; [done |]. cbn [replay_ops omap list_omap].
  unfold mbind at 1, st_bind at 1. rewrite replay_op_part by done.
  destruct (op_part op) as [p |]; cbn [apply_parts]; [| apply IH].
  unfold mbind, st_bind. destruct (apply_part now xid p s) as [[] ?]; [apply IH | done | done].
Qed.

(** *** Ranges *)

(** The overlay shows the staged rows, and the others of the storage. *)
Lemma merge_items_ok (base_items : list (list byte * list byte)) (staged : Rows) :
  bt_wf (V := list byte) base_items -> bt_wf staged ->
  bt_wf (V := list byte) (merge_items base_items staged) /\
  forall key value, (key, value) ∈ merge_items base_items staged <->
    match bt_get key staged with Some v => v = Some value | None => (key, value) ∈ base_items end.
Proof.
  intros Hb Hs. unfold merge_items.
  replace (foldl (fun m p => bt_insert p.1 (Some p.2) m) ([] : Rows) base_items)
    with (foldl (fun m p => bt_insert p.1 p.2 m) ([] : Rows) (omap (fun p : list byte * list byte => option_map (pair p.1) (Some (Some p.2))) base_items)).
  2: { generalize ([] : Rows). clear Hb. induction base_items as [| p l IH]; intros m; [done |]. cbn [omap list_omap option_map foldl fst snd]. apply IH. }
  match goal with |- context [foldl _ _ (omap ?f base_items)] => set (m0 := omap f base_items) end. pose proof (bt_omap_wf (fun v => Some (Some v)) base_items Hb) as Hm0. fold m0 in Hm0.
  set (m1 := foldl _ (foldl _ _ m0) staged).
  assert (bt_wf m1) as Hm1 by apply bt_extend_wf, bt_extend_wf, bt_wf_nil. split.
  - exact (bt_omap_wf (fun v => v) m1 Hm1).
  - intros key value. rewrite list_elem_of_omap.
    assert (bt_get key m1 = match bt_get key staged with Some v => Some v | None => bt_get key m0 end) as Hg.
    { unfold m1. rewrite bt_get_extend; [| apply bt_extend_wf, bt_wf_nil | done]. rewrite bt_get_extend by (apply bt_wf_nil || done).
      by destruct (bt_get key staged), (bt_get key m0). }
    transitivity (bt_get key m1 = Some (Some value)).
    { rewrite bt_get_elem by done. split.
      - intros ([k [v |]] & Hin & E); [| done]. by injection E as <- <-.
      - intros Hin. by exists (key, Some value). }
    rewrite Hg. destruct (bt_get key staged) as [v |]; [split; [by intros [= ->] | by intros ->] |].
    rewrite bt_get_elem by done. unfold m0. rewrite list_elem_of_omap. split.
    + intros (p & Hin & E). injection E as <- <-. by destruct p.
    + intros Hin. by exists (key, value).
Qed.

(** *** Conflict checks *)

(** The versions of a row, with those found when its relation was opened. *)
Definition row_versions W rk : list VersionTuple := versions_of (base rk.1 ++ hist W rk.1) rk.2.

Definition newest_visible W (snapshot : WorkerSnapshot) rk : Prop :=
  match last (row_versions W rk) with Some v => is_visible_to_snapshot (stamp v) snapshot = true | None => True end.

Lemma check_rows_ok r snapshot skip rows rel W :
  ro_rep rel (base r ++ hist W r) -> check_rows r snapshot skip rows rel = Ok tt ->
  forall key, key ∈ rows.*1 -> (r, key) ∉ skip -> newest_visible W snapshot (r, key).
Proof.
  intros Hrel. induction rows as [| [k v] rows IH]; cbn [check_rows]; [by intros _ key ?%elem_of_nil |].
  rewrite (ro_conflict_law rel _ k snapshot Hrel).
  intros E key. rewrite fmap_cons, elem_of_cons. cbn [fst]. intros [-> | Hin] Hs.
  - rewrite bool_decide_false in E by done. unfold newest_visible, row_versions. cbn [fst snd].
    destruct (last _) as [u |]; [| done]. by destruct (is_visible_to_snapshot _ _).
  - apply IH; [| done | done]. case_bool_decide; [done |]. by destruct (last _) as [u |]; [destruct (is_visible_to_snapshot _ _) |].
Qed.

Lemma relation_conflicts_ok snapshot skip (m : BTreeMap PhysicalRelationId Rows) : forall s W res s',
  storage_rep s W -> kv_relation ∉ m.*1 -> ensure_no_relation_conflicts snapshot m skip s = (res, s') ->
  storage_rep s' W /\
  (res = Ok tt -> forall r rows key, (r, rows) ∈ m -> key ∈ rows.*1 -> (r, key) ∉ skip -> newest_visible W snapshot (r, key)).
Proof.
  induction m as [| [r rows] m IH]; intros s W res s' Rep Hk E.
  { injection E as <- <-. split; [done |]. intros _ r rows key ?%elem_of_nil. done. }
  rewrite fmap_cons, not_elem_of_cons in Hk. destruct Hk as [Hr Hk]. cbn [fst] in Hr.
  cbn [ensure_no_relation_conflicts] in E. destruct (ensure_cases s r) as [[rel Hf] | Hn].
  - destruct (ensure_found s r rel Hf) as (s1 & E1 & ->). erewrite st_bind_ok in E by exact E1. cbv beta in E.
    pose proof (finds_rep _ _ _ _ Rep (not_eq_sym Hr) Hf) as Hrel.
    assert (storage_rep (set_relations (<[r := rel]> (st_relation_store s)) s) W) as Rep1
      by (by apply (storage_rep_set s W)).
    unfold mbind, st_bind at 1 in E. unfold on_relation in E. cbn [st_relation_store set_relations] in E.
    rewrite lookup_insert_eq in E. unfold set_relations in E, Rep1. cbn in E. rewrite insert_insert_eq in E.
    destruct (check_rows r snapshot skip rows rel) as [[] | e |] eqn:Ec;
      [| by injection E as <- <- | by injection E as <- <-].
    destruct (IH _ _ _ _ Rep1 Hk E) as [Rep' Hc]. split; [done |].
    intros Hres r' rows' key [[= -> ->] | Hin]%elem_of_cons; [by eapply check_rows_ok | by eapply Hc].
  - unfold mbind, st_bind in E. destruct (ensure_relation_index r s) as [res1 s1] eqn:E1.
    destruct (Hn _ _ eq_refl) as [Hne ->]. by destruct res1 as [[] | |]; [| injection E as <- <- ..].
Qed.

Lemma kv_conflicts_ok snapshot rows kv ws :
  kv_rep kv ws -> ensure_no_kv_conflicts snapshot rows kv = Ok tt -> forall key, key ∈ rows.*1 ->
  match last (versions_of ws key) with Some v => is_visible_to_snapshot (stamp v) snapshot = true | None => True end.
Proof.
  intros Hkv. induction rows as [| [k v] rows IH]; [by intros _ key ?%elem_of_nil |].
  cbn [ensure_no_kv_conflicts]. destruct (kv_conflict snapshot kv k) eqn:E; [done |]. intros E' key.
  rewrite fmap_cons, elem_of_cons. intros [-> | Hin]; [| by apply IH]. cbn [fst]. unfold kv_conflict in E.
  destruct (Hkv k) as [(Ht & _) Hn]. destruct (kv !! k) as [row |]; cbn in E.
  - unfold row_latest_version, row_read_latest in E. cbn in Ht. rewrite Ht, last_drop_window in E.
    destruct (last _) as [u |]; [| done]. unfold stamp. by destruct (is_visible_to_snapshot _ _).
  - by rewrite Hn.
Qed.

(** *** Transactions *)

Context (Hbase : base kv_relation = []).

(** What the commit of a transaction writes. *)
Definition tx_parts (t : WorkerTxManager) : list Part :=
  tx_relation_ops (tm_state t) ++ [(kv_relation, tx_kv_write (tm_state t))].

Definition tx_writes (t : WorkerTxManager) : list Write := parts_writes (tx_xid t) (tx_parts t).

Lemma tx_relations_real t : tx_inv (tm_state t) -> kv_relation ∉ (tx_relation_ops (tm_state t)).*1.
Proof.
  intros Hi ([r rows] & Er & Hin)%list_elem_of_fmap. cbn in Er. subst r. apply bt_get_elem in Hin; [| apply Hi].
  by rewrite (ti_real _ Hi) in Hin.
Qed.

Lemma prepare_commit_ok t s W res s' :
  storage_rep s W -> tx_plain t -> prepare_commit t s = (res, s') ->
  storage_rep s' W /\
  (forall p, res = Ok p ->
     pc_xid p = tx_xid t /\ pc_batch p = xl_batch t /\ pc_relation_deltas p = [] /\ prepared_parts p = tx_parts t /\
     forall rk, rk ∈ write_key <$> tx_writes t -> rk ∉ statement_locked_keys (tm_state t) \/ rk.1 = kv_relation ->
       newest_visible W (tm_snapshot t) rk).
Proof.
  intros Rep (Hi & Hd & _ & _) E. unfold prepare_commit, prepare_commit_parts in E.
  pose proof (tx_relations_real t Hi) as Hk.
  unfold mbind, st_bind at 1 in E. destruct (ensure_no_relation_conflicts _ _ _ s) as [[[] | |] s1] eqn:E1;
    destruct (relation_conflicts_ok _ _ _ _ _ _ _ Rep Hk E1) as [Rep1 Hc]; [| by injection E as <- <- ..].
  cbn in E. destruct (ensure_no_kv_conflicts _ _ _) as [[] | |] eqn:E2; cbn in E; injection E as <- <-;
    (split; [done |]); [| done | done].
  intros p [= <-]. unfold prepared_parts, staged_relation_deltas. cbn. rewrite Hd. split_and!; [done | done | done | done |].
  intros rk (w & -> & Hw)%list_elem_of_fmap Hs. unfold tx_writes, parts_writes, tx_parts in Hw.
  apply list_elem_of_bind in Hw as ([r rows] & (q & -> & Hq)%list_elem_of_fmap & Hin). unfold write_key in *. cbn [fst snd] in *.
  apply elem_of_app in Hin as [Hin | [= -> ->]%list_elem_of_singleton].
  - destruct Hs as [Hs | ->]; [eapply (Hc eq_refl); [done | by apply list_elem_of_fmap_2 | done] |].
    exfalso. apply Hk. apply list_elem_of_fmap. by exists (kv_relation, rows).
  - unfold newest_visible, row_versions. cbn [fst snd]. rewrite Hbase. cbn [app].
    by apply (kv_conflicts_ok _ _ _ _ (sr_kv _ _ Rep1) E2), list_elem_of_fmap_2.
Qed.

Definition tx_write (xid : Z) (w : LockKey * option (list byte)) : Write := (w.1, w.2, xid).

Lemma tx_writes_staged t : tx_writes t ≡ₚ tx_write (tx_xid t) <$> staged_writes (tm_state t).
Proof.
  unfold tx_writes, tx_parts, parts_writes, staged_writes. rewrite bind_app, bind_singleton, fmap_app, Permutation_app_comm.
  apply Permutation_app; [apply reflexive_eq; unfold part_writes; by rewrite <- list_fmap_compose |].
  apply reflexive_eq. unfold rel_writes. induction (tx_relation_ops (tm_state t)) as [| [r rows] m IH]; [done |].
  rewrite !bind_cons, fmap_app, IH. f_equal. unfold part_writes. by rewrite <- list_fmap_compose.
Qed.

Lemma tx_writes_nodup t : tx_plain t -> NoDup (write_key <$> tx_writes t).
Proof.
  intros (Hi & _). rewrite tx_writes_staged, <- list_fmap_compose. exact (staged_nodup _ Hi).
Qed.

Lemma tx_parts_ok t : tx_plain t -> Forall (rows_part_ok (tx_xid t)) (tx_parts t).
Proof.
  intros (Hi & _ & _ & Hok).
  assert (Forall (fun w : Write => row_write_ok (w.1.1.2, w.1.2, w.2)) (tx_write (tx_xid t) <$> staged_writes (tm_state t))) as Hok'
    by (by apply Forall_fmap). clear Hok. rename Hok' into Hok.
  rewrite <- tx_writes_staged in Hok. unfold tx_writes, parts_writes in Hok. apply Forall_forall. intros p Hp. split.
  - unfold tx_parts in Hp. apply elem_of_app in Hp as [Hp | ->%list_elem_of_singleton]; [| apply bt_wf_keys, Hi].
    apply bt_wf_keys. destruct (ti_rel_wf _ Hi) as [Wm Wr]. apply (Wr p.1), bt_get_elem; [done |]. by destruct p.
  - unfold row_writes. apply Forall_fmap, Forall_forall. intros q Hq. rewrite Forall_forall in Hok.
    specialize (Hok ((p.1, q.1), q.2, tx_xid t)). apply Hok, list_elem_of_bind. exists p. split; [| done].
    by apply (list_elem_of_fmap_2 (fun q : list byte * option (list byte) => ((p.1, q.1), q.2, tx_xid t))).
Qed.

(** *** The log *)

Definition entry_writes (e : XLEntry) : list Write := tx_write (xe_xid e) <$> omap op_write (xe_ops e).

Definition batch_writes (b : XLBatch) : list Write := e ← b; entry_writes e.

Lemma op_parts_writes xid ops : parts_writes xid (omap op_part ops) = tx_write xid <$> omap op_write ops.
Proof.
  induction ops as [| op ops IH]; [done |]. unfold parts_writes in *. cbn [omap list_omap]. unfold op_part at 1.
  destruct (op_write op) as [[[r k] v] |]; [| exact IH]. cbn [option_map]. rewrite bind_cons, fmap_cons.
  change (list_omap _ _ ?f ops) with (omap f ops). by rewrite IH.
Qed.

(** The batch of a transaction has its rows. *)
Lemma tx_batch_versions t rk : tx_plain t -> versions_at (batch_writes (xl_batch t)) rk = versions_at (tx_writes t) rk.
Proof.
  intros Ht. pose proof Ht as (Hi & _). symmetry. apply versions_at_perm; [| by apply tx_writes_nodup].
  rewrite tx_writes_staged. unfold batch_writes, xl_batch. rewrite bind_singleton. unfold entry_writes. cbn [xe_xid xe_ops].
  change (TxBegin :: ?l) with ([TxBegin] ++ l). rewrite !omap_app. cbn. rewrite app_nil_r. by rewrite (ti_writes _ Hi).
Qed.

(** Records that can be replayed: no update record, and values of a length
    that fits. *)
Definition entry_plain (e : XLEntry) : Prop :=
  Forall op_plain (xe_ops e) /\ Forall (fun w : Write => row_write_ok (w.1.1.2, w.1.2, w.2)) (entry_writes e).

Lemma op_parts_ok xid ops :
  Forall (fun w : Write => row_write_ok (w.1.1.2, w.1.2, w.2)) (tx_write xid <$> omap op_write ops) ->
  Forall (rows_part_ok xid) (omap op_part ops).
Proof.
  induction ops as [| op ops IH]; [done |]. cbn [omap list_omap]. unfold op_part at 1.
  destruct (op_write op) as [[[r k] v] |]; [| exact IH]. cbn [option_map]. rewrite fmap_cons, !Forall_cons.
  intros [Hw Hok]. split; [| by apply IH]. split; cbn; [apply NoDup_singleton | by apply Forall_singleton].
Qed.

Definition batch_steps (b : XLBatch) : list Step := e ← b; pair (xe_xid e) <$> omap op_part (xe_ops e).

Lemma apply_steps_app now ps1 ps2 s : apply_steps now (ps1 ++ ps2) s = (apply_steps now ps1 ;; apply_steps now ps2) s.
Proof.
  revert s. induction ps1 as [| p ps1 IH]; intros s; [done |]. cbn [app apply_steps]. rewrite <- st_bind_assoc.
  apply st_bind_ext. intros _ s'. apply IH.
Qed.

Lemma apply_parts_steps now xid ps s : apply_parts now xid ps s = apply_steps now (pair xid <$> ps) s.
Proof.
  revert s. induction ps as [| p ps IH]; intros s; [done |]. rewrite fmap_cons. cbn [apply_parts apply_steps fst snd].
  apply st_bind_ext. intros _ s'. apply IH.
Qed.

Lemma replay_batch_steps now b s : Forall entry_plain b -> replay_batch now b s = apply_steps now (batch_steps b) s.
Proof.
  intros Hb. revert s. induction Hb as [| e b [Hp _] Hb IH]; intros s; [done |]. unfold batch_steps in *. rewrite bind_cons, apply_steps_app.
  cbn [replay_batch]. unfold mbind at 1 2, st_bind. rewrite replay_ops_parts, apply_parts_steps by done.
  destruct (apply_steps now _ s) as [[[] | |] s1]; [apply IH | done | done].
Qed.

Lemma batch_steps_writes b : steps_writes (batch_steps b) = batch_writes b.
Proof.
  unfold steps_writes, batch_steps, batch_writes. induction b as [| e b IH]; [done |]. rewrite !bind_cons, bind_app, IH. f_equal.
  unfold entry_writes. rewrite <- op_parts_writes. unfold parts_writes. induction (omap op_part (xe_ops e)) as [| p ps IHp]; [done |].
  by rewrite fmap_cons, !bind_cons, IHp.
Qed.

Lemma batch_steps_ok b : Forall entry_plain b -> Forall (fun p => rows_part_ok p.1 p.2) (batch_steps b).
Proof.
  induction 1 as [| e b [_ Hok] Hb IH]; [constructor |]. unfold batch_steps in *. rewrite bind_cons. apply Forall_app. split; [| done].
  apply Forall_fmap. eapply Forall_impl; [by apply op_parts_ok |]. done.
Qed.

Lemma tx_entry_plain t : tx_plain t -> Forall entry_plain (xl_batch t).
Proof.
  intros (Hi & _ & Hp & Hok). apply Forall_singleton. split; cbn [xe_ops].
  - apply Forall_cons. split; [done |]. apply Forall_app. split; [done |]. by apply Forall_singleton.
  - unfold entry_writes. cbn [xe_xid xe_ops]. change (TxBegin :: ?l) with ([TxBegin] ++ l). rewrite !omap_app. cbn.
    rewrite app_nil_r, (ti_writes _ Hi). by apply Forall_fmap.
Qed.
End storage_properties.
