(* ===== verification/Worker.v ===== *)
(** * Transactions of a worker

    [server/x_contract/kv.rs]: the operations of [WorkerXContract] on its
    snapshot manager, lock table, storage and logical log.  A commit takes its
    locks, checks for conflicts, appends its batch to the log, applies its
    rows and gives the locks back; other tasks of the worker run between these
    phases, so that each of them is a definition of its own.

    The log is the list of the batches in the order of their log sequence
    numbers, with the answers of the coming calls into it: an append, a flush
    or the wait for durability can fail.  What these calls do to the files of
    the log is in [WalBackend] and [WalDurability]. *)

From S2P Require Import Prelude Errors LogFrame Snapshots Versions Histories XLocks BTree TxState KvStore Storage.

Record WorkerXContract (R : Type) : Type := mkWorkerXContract {
  wx_snapshot_mgr : WorkerSnapshotMgr;
  wx_storage : WorkerStorage R;
  wx_tx_lock : XLockMgr;
  wx_log : option (list XLBatch);
  wx_log_answers : list (option ErrorCode);
}.

Arguments mkWorkerXContract {R} _ _ _ _ _.
Arguments wx_snapshot_mgr {R} _.
Arguments wx_storage {R} _.
Arguments wx_tx_lock {R} _.
Arguments wx_log {R} _.
Arguments wx_log_answers {R} _.

(** [STATEMENT_LOCK_TIMEOUT], in nanoseconds. *)
Definition STATEMENT_LOCK_TIMEOUT : Z := 5000 * 1000000.

Definition single_put_batch (xid : Z) (key value : list byte) : XLBatch :=
  [mkXLEntry xid [TxBegin; TxWrite (WInsert (mkXLInsert 0 0 0 key value)); TxCommit]].

Definition single_delete_batch (xid : Z) (key : list byte) : XLBatch :=
  [mkXLEntry xid [TxBegin; TxWrite (WDelete (mkXLDelete 0 0 0 key)); TxCommit]].

Section worker.
Context {R TableDesc : Type} `{RelationOps R} `{Catalog R TableDesc} `{Msgpack DeltaWire}.

Notation WX := (ST ErrorCode (WorkerXContract R)).

Definition WorkerXContract_new (partition_id : Z) : WorkerXContract R :=
  mkWorkerXContract WorkerSnapshotMgr_default (WorkerStorage_new partition_id) XLockMgr_new (Some []) [].

(** Operations on a part of the worker. *)
Definition on_mgr {A} (m : ST ErrorCode WorkerSnapshotMgr A) : WX A :=
  fun w => let (r, mgr) := m (wx_snapshot_mgr w) in (r, mkWorkerXContract mgr (wx_storage w) (wx_tx_lock w) (wx_log w) (wx_log_answers w)).

Definition on_storage {A} (m : ST ErrorCode (WorkerStorage R) A) : WX A :=
  fun w => let (r, s) := m (wx_storage w) in (r, mkWorkerXContract (wx_snapshot_mgr w) s (wx_tx_lock w) (wx_log w) (wx_log_answers w)).

Definition on_lock {A} (m : ST ErrorCode XLockMgr A) : WX A :=
  fun w => let (r, l) := m (wx_tx_lock w) in (r, mkWorkerXContract (wx_snapshot_mgr w) (wx_storage w) l (wx_log w) (wx_log_answers w)).

(** A call into the log, when there is one: the next of its answers, or
    success behind the last of them. *)
Definition log_call : WX unit :=
  fun w =>
    match wx_log w, wx_log_answers w with
    | Some _, answer :: answers =>
        (match answer with Some e => Err e | None => Ok tt end,
         mkWorkerXContract (wx_snapshot_mgr w) (wx_storage w) (wx_tx_lock w) (wx_log w) answers)
    | _, _ => (Ok tt, w)
    end.

(** The batch gets the next log sequence numbers, when there is a log:
    [serialize_entry], [frame_lsns] and [enqueue_group_commit], or [append]. *)
Definition append_batch (batch : XLBatch) : WX unit :=
  log_call ;;
  st_modify (fun w => mkWorkerXContract (wx_snapshot_mgr w) (wx_storage w) (wx_tx_lock w)
    (option_map (fun log => log ++ [batch]) (wx_log w)) (wx_log_answers w)).

(** *** Transactions *)

Definition worker_begin_tx : WX WorkerTxManager :=
  snapshot ← on_mgr mgr_begin_tx; mret (WorkerTxManager_new snapshot).

Definition worker_rollback_tx (tx_mgr : WorkerTxManager) : WX unit :=
  on_lock (release_all (tx_xid tx_mgr)) ;;
  on_mgr (mgr_end_tx (tx_xid tx_mgr)).

(** *** Single writes *)

(** [worker_put_async] and [worker_delete_async] up to the end of the append;
    the application to the storage comes later. *)
Definition autocommit_log (key : list byte) (value : option (list byte)) : WX PreparedWorkerCommit :=
  xid ← on_mgr alloc_committed_ts;
  let batch := match value with
               | Some value => single_put_batch xid key value
               | None => single_delete_batch xid key
               end in
  let prepared := prepare_worker_kv_autocommit xid key value batch in
  append_batch (pc_batch prepared) ;;
  mret prepared.

Definition worker_put (now : Z) (key value : list byte) : WX unit :=
  prepared ← autocommit_log key (Some value); on_storage (apply_prepared_commit now prepared).

Definition worker_delete (now : Z) (key : list byte) : WX unit :=
  prepared ← autocommit_log key None; on_storage (apply_prepared_commit now prepared).

(** *** Reads *)

Definition worker_get (key : list byte) : WX (option (list byte)) :=
  fun w => (kv_get key None (st_kv_store (wx_storage w)), w).

Definition worker_get_with_snapshot (snapshot : WorkerSnapshot) (key : list byte) : WX (option (list byte)) :=
  fun w => (kv_get key (Some snapshot) (st_kv_store (wx_storage w)), w).

Definition worker_range_scan (start_key end_key : list byte) : WX (list (list byte * list byte)) :=
  fun w => (kv_range start_key end_key None (st_kv_store (wx_storage w)), w).

Definition worker_range_scan_with_snapshot (snapshot : WorkerSnapshot) (start_key end_key : list byte)
    : WX (list (list byte * list byte)) :=
  fun w => (kv_range start_key end_key (Some snapshot) (st_kv_store (wx_storage w)), w).

(** *** Commits *)

Definition worker_commit_put_batch (now : Z) (snapshot : WorkerSnapshot) (xid : Z) (items : Rows) (batch : XLBatch)
    : WX unit :=
  if bool_decide (items = []) then on_mgr (mgr_end_tx xid) else
  prepared ← on_storage (prepare_worker_kv_commit snapshot xid items batch);
  append_batch (pc_batch prepared) ;;
  log_call ;;
  on_storage (apply_prepared_commit now prepared) ;;
  on_mgr (mgr_end_tx xid).

(** The keys that a commit locks. *)
Definition commit_keys (tx : WorkerTxManager) : list LockKey := tx_write_ops (build_write_ops (tm_state tx)).

(** [lock_some] when no other task runs meanwhile: its waiter is woken by the
    deadline only. *)
Definition lock_some_alone (now timeout oid : Z) (keys : list LockKey) : ST ErrorCode XLockMgr bool :=
  fast ← try_lock_some now oid keys;
  if (fast : bool) then mret true else
  seq ← lock_register oid keys;
  let rq := mkRequest oid keys false in
  first ← lock_attempt now seq rq;
  if (first : bool) then mret true else
  second ← lock_attempt (now + timeout) seq rq;
  if (second : bool) then mret true else
  lock_timeout seq rq.

Definition acquire_commit_locks (now oid : Z) (keys : list LockKey) : WX unit :=
  acquired ← on_lock (lock_some_alone now STATEMENT_LOCK_TIMEOUT oid keys);
  if (acquired : bool) then mret tt else st_lift (Err Transaction).

(** The end of a commit, whether its rows were applied or not. *)
Definition commit_finish (lock_owner : Z) (tx : WorkerTxManager) : WX unit :=
  on_lock (release_all lock_owner) ;; worker_rollback_tx tx.

(** The part of a commit whose result is kept until the locks are given back. *)
Definition commit_log_apply (now : Z) (prepared : PreparedWorkerCommit) : WX unit :=
  append_batch (pc_batch prepared) ;; on_storage (apply_prepared_commit now prepared).

(** [drive_group_commit_flush] comes when the locks are given back, and its
    error before the result; then [wait_group_commit_advanced]. *)
Definition commit_prepared (now lock_owner : Z) (tx : WorkerTxManager) (prepared : PreparedWorkerCommit) : WX unit :=
  fun w =>
    match commit_log_apply now prepared w with
    | (Panic, w) => (Panic, w)
    | (result, w) => (commit_finish lock_owner tx ;; log_call ;; st_lift result ;; log_call) w
    end.

(** [worker_commit_tx_with_lock_owner_async] without interleaving. *)
Definition worker_commit_tx_with_lock_owner (now : Z) (tx : WorkerTxManager) (lock_owner : Z) : WX unit :=
  if tx_is_empty (tm_state tx) then commit_finish lock_owner tx else
  acquire_commit_locks now lock_owner (commit_keys tx) ;;
  prepared ← on_storage (prepare_commit tx);
  commit_prepared now lock_owner tx prepared.

Definition worker_commit_tx (now : Z) (tx : WorkerTxManager) : WX unit :=
  worker_commit_tx_with_lock_owner now tx (tx_xid tx).

(** *** Recovery *)

Definition replay_worker_log_batch (now : Z) (batch : XLBatch) : WX unit :=
  (match xe_xid <$> batch with
   | [] => mret tt
   | x :: xs => on_mgr (observe_committed_ts (foldl Z.max x xs))
   end) ;;
  on_storage (replay_batch now batch).

(** The batches of the log, one after the other. *)
Fixpoint replay_worker_log (now : Z) (log : list XLBatch) : WX unit :=
  match log with
  | [] => mret tt
  | batch :: log => replay_worker_log_batch now batch ;; replay_worker_log now log
  end.

(** *** Statement locks *)

(** [acquire_statement_lock] of [x_contract/ops.rs]. *)
Definition acquire_statement_lock (now : Z) (relation_id : PhysicalRelationId) (key : list byte) (tx : WorkerTxManager)
    : WX WorkerTxManager :=
  acquired ← on_lock (lock_some_alone now STATEMENT_LOCK_TIMEOUT (tx_xid tx) [(relation_id, key)]);
  if (acquired : bool) then mret (mkWorkerTxManager (tm_snapshot tx) (record_statement_lock relation_id key (tm_state tx)))
  else st_lift (Err Transaction).

End worker.
