(* ===== verification/CommitOrder.v ===== *)
(** * Concurrent commits

    The commits of a worker run as tasks of their own: every phase of a
    commit ([Worker]), every application of the rows of one relation, and
    every step on the lock table can come between the phases of another
    commit.  Over all interleavings the log and the storage see the writes of
    a row in the same order, the first of two conflicting commits wins, and
    the replay of the log restores what readers saw. *)

From S2P Require Import Prelude Errors LogFrame Snapshots Versions Histories XLocks BTree TxState KvStore Storage RelationLaws StorageProperties Worker.

(** ** Locks that stay *)

(** The step does not take a key from an owner [o] that took it at [at_]. *)
Definition spares (o at_ : Z) (ev : lock_event) : Prop :=
  match ev with
  | EvTry now _ _ | EvAttempt now _ => now - at_ <= STATEMENT_LOCK_TTL
  | EvRelease oid _ | EvReleaseAll oid => oid <> o
  | _ => True
  end.

Lemma acquire_owner now oid keys w s b s' wakes rk o at_ :
  try_acquire_locked now oid keys w s = (b, s', wakes) -> owner_at s rk = Some (o, at_) ->
  now - at_ <= STATEMENT_LOCK_TTL -> owner_at s' rk = Some (o, at_).
Proof.
  unfold try_acquire_locked. destruct (check_pass now oid w keys s []) as [[b1 s1] w1] eqn:E.
  destruct (check_pass_spec _ _ _ _ _ _ _ _ _ E) as ([_ Hr] & _ & Hb). destruct (Hr rk) as [_ Ho].
  intros Hs Hown Ht. assert (owner_at s1 rk = Some (o, at_)) as H1.
  { destruct Ho as [Ho | (o' & a' & E' & _ & Ht' & _)]; [congruence |]. rewrite Hown in E'. injection E' as <- <-. lia. }
  destruct b1; injection Hs as <- <- <-; [| done]. unfold owner_at. rewrite view_take_pass. case_decide as Hk; [| done].
  cbn [fst]. rewrite H1. cbn. rewrite Forall_forall in Hb. destruct (Hb rk Hk) as [Hh | [Hn _]]; [| congruence].
  unfold holder in Hh. rewrite H1 in Hh. injection Hh as ->. by rewrite Z.eqb_refl.
Qed.

Lemma acquire_holder now oid keys w s s' wakes rk :
  try_acquire_locked now oid keys w s = (true, s', wakes) -> rk ∈ keys -> holder s' rk = Some oid.
Proof.
  unfold try_acquire_locked. destruct (check_pass now oid w keys s []) as [[[] s1] w1]; intros [= <- <-] Hk.
  unfold holder, owner_at. rewrite view_take_pass, decide_True by done. cbn [fst]. unfold taken.
  destruct (owner_at s1 rk) as [[o a] |]; [| done]. by destruct (Z.eqb_spec o oid) as [-> |].
Qed.

Lemma given_back_owner oid g s s' wakes rk o at_ :
  given_back oid g s s' wakes -> owner_at s rk = Some (o, at_) -> oid <> o -> owner_at s' rk = Some (o, at_).
Proof.
  intros [_ Hg] Hown Hne. destruct (Hg rk) as (_ & _ & Hk). rewrite Hk; [done |]. intros [_ Hh]. unfold holder in Hh.
  rewrite Hown in Hh. cbn in Hh. congruence.
Qed.

Lemma lock_step_owner ev m m' rk o at_ :
  lock_step ev m = Some m' -> owner_at (xm_lock m) rk = Some (o, at_) -> spares o at_ ev ->
  owner_at (xm_lock m') rk = Some (o, at_).
Proof.
  destruct ev as [now oid keys | oid keys | now seq | seq | seq | seq | oid keys | oid | seq];
    cbn [lock_step spares]; intros Hs Hown Hsp.
  - injection Hs as <-. unfold try_lock_some. destruct (try_acquire_locked _ _ _ _ _) as [[b s] wakes] eqn:E. cbn.
    by eapply acquire_owner.
  - unfold lock_register in Hs. destruct (uadd _ _); [| done | done]. by injection Hs as <-.
  - destruct (xm_waiters m !! seq) as [rq |]; [| done]. cbn in Hs. destruct (rq_parked rq); [done |]. injection Hs as <-.
    unfold lock_attempt. destruct (try_acquire_locked _ _ _ _ _) as [[[] s] wakes] eqn:E; cbn; [by eapply acquire_owner |].
    unfold owner_at. rewrite view_enqueue. cbn. by eapply acquire_owner.
  - destruct (xm_waiters m !! seq) as [rq |]; [| done]. cbn in Hs. by destruct (_ && _); [injection Hs as <- |].
  - destruct (xm_waiters m !! seq) as [rq |]; [| done]. cbn in Hs. by destruct (rq_parked rq); [injection Hs as <- |].
  - destruct (xm_waiters m !! seq) as [rq |]; [| done]. cbn in Hs. destruct (rq_parked rq); [| done]. injection Hs as <-.
    unfold lock_timeout. destruct (dequeue_locked _ _ _) as [s wakes] eqn:E. cbn.
    destruct (dequeue_spec _ _ _ _ _ E) as [_ Hv]. destruct (Hv rk) as [Hv' _]. unfold owner_at. by rewrite Hv'.
  - injection Hs as <-. unfold release. pose proof (release_keys_spec oid keys (xm_lock m)) as Hg.
    destruct (release_keys _ _ _) as [s wakes]. exact (given_back_owner _ _ _ _ _ _ _ _ Hg Hown Hsp).
  - injection Hs as <-. exact (given_back_owner _ _ _ _ _ _ _ _ (release_all_spec oid (xm_lock m)) Hown Hsp).
  - destruct (list_find _ _) as [[i ?] |]; [| done]. by injection Hs as <-.
Qed.

(** ** The system *)

(** Where a commit is: waiting for its locks, holding them, checked for
    conflicts, or in the log with the parts that are still to be applied. *)
Inductive Phase : Type :=
| Locking
| Locked
| Prepared (prepared : PreparedWorkerCommit)
| Logged (rest : list (PhysicalRelationId * Rows)).

(** The worker, its commits under way by transaction id, and what happened:
    the writes that the storage applied and the transactions in the log. *)
Record System (R : Type) : Type := mkSystem {
  sy_worker : WorkerXContract R;
  sy_commits : gmap Z (WorkerTxManager * Phase);
  sy_applied : list (LockKey * option (list byte) * Z);
  sy_logged : list WorkerTxManager;
}.

Arguments mkSystem {R} _ _ _ _.
Arguments sy_worker {R} _.
Arguments sy_commits {R} _.
Arguments sy_applied {R} _.
Arguments sy_logged {R} _.

Definition critical (ph : Phase) : Prop := ph <> Locking.

#[export] Instance critical_dec ph : Decision (critical ph).
Proof. destruct ph; [right; by intros [] | left; done..]. Defined.

(** Reads the fields of a system. *)
Ltac sys_fields := cbn [sy_worker sy_commits sy_applied sy_logged] in *.

(** The step does not take a key from a commit that holds its locks: the
    commit is faster than the time-to-live of locks, and nobody else gives its
    locks back. *)
Definition spares_commits (commits : gmap Z (WorkerTxManager * Phase)) (m : XLockMgr) (ev : lock_event) : Prop :=
  forall xid t ph rk at_, commits !! xid = Some (t, ph) -> critical ph -> rk ∈ commit_keys t ->
    owner_at (xm_lock m) rk = Some (xid, at_) -> spares xid at_ ev.

(** The step gives the keys to the commit: [lock_some] returns [true]. *)
Definition acquires (ev : lock_event) (m : XLockMgr) (xid : Z) (keys : list LockKey) : Prop :=
  match ev with
  | EvTry now oid ks => oid = xid /\ ks = keys /\ (try_lock_some now oid ks m).1 = Ok true
  | EvAttempt now seq =>
      exists rq, xm_waiters m !! seq = Some rq /\ rq_parked rq = false /\ rq_oid rq = xid /\ rq_keys rq = keys /\
        (lock_attempt now seq rq m).1 = Ok true
  | _ => False
  end.

Lemma acquires_holder ev m m' xid keys :
  acquires ev m xid keys -> lock_step ev m = Some m' -> forall rk, rk ∈ keys -> holder (xm_lock m') rk = Some xid.
Proof.
  destruct ev as [now oid ks | | now seq | | | | | |]; try done; cbn [acquires lock_step].
  - intros (-> & -> & Ha) [= <-] rk Hk. unfold try_lock_some in *.
    destruct (try_acquire_locked now xid keys None (xm_lock m)) as [[b s] wakes] eqn:E. cbn in *. injection Ha as ->.
    by eapply acquire_holder.
  - intros (rq & -> & Hp & <- & <- & Ha) Hs rk Hk. cbn in Hs. rewrite Hp in Hs. injection Hs as <-. unfold lock_attempt in *.
    destruct (try_acquire_locked now _ _ _ _) as [[[] s] wakes] eqn:E; [| done]. cbn. by eapply acquire_holder.
Qed.

Section system.
Context {R TableDesc : Type} `{RelationOk R} `{Catalog R TableDesc} `{Msgpack DeltaWire}.
Context (base : PhysicalRelationId -> list RowWrite).

Implicit Types (w : WorkerXContract R) (t : WorkerTxManager) (s : System R).

Definition with_lock (m : XLockMgr) w : WorkerXContract R :=
  mkWorkerXContract (wx_snapshot_mgr w) (wx_storage w) m (wx_log w) (wx_log_answers w).

(** One step of some task of the worker. *)
Inductive sys_step : System R -> System R -> Prop :=
  | step_begin w cs ap lg t w' :
      worker_begin_tx w = (Ok t, w') -> sys_step (mkSystem w cs ap lg) (mkSystem w' cs ap lg)
  | step_read w cs ap lg r key snapshot sn res w' :
      r <> kv_relation -> to_snapshot snapshot = Ok sn ->
      on_storage (read_visible_relation_value r key snapshot) w = (res, w') ->
      sys_step (mkSystem w cs ap lg) (mkSystem w' cs ap lg)
  | step_lock w cs ap lg ev m :
      lock_step ev (wx_tx_lock w) = Some m -> spares_commits cs (wx_tx_lock w) ev ->
      sys_step (mkSystem w cs ap lg) (mkSystem (with_lock m w) cs ap lg)
  | step_start w cs ap lg t :
      cs !! tx_xid t = None -> tx_plain t -> tx_is_empty (tm_state t) = false ->
      sys_step (mkSystem w cs ap lg) (mkSystem w (<[tx_xid t := (t, Locking)]> cs) ap lg)
  | step_acquired w cs ap lg t ev m :
      cs !! tx_xid t = Some (t, Locking) -> lock_step ev (wx_tx_lock w) = Some m -> spares_commits cs (wx_tx_lock w) ev ->
      acquires ev (wx_tx_lock w) (tx_xid t) (commit_keys t) ->
      sys_step (mkSystem w cs ap lg) (mkSystem (with_lock m w) (<[tx_xid t := (t, Locked)]> cs) ap lg)
  | step_timeout w cs ap lg t :
      cs !! tx_xid t = Some (t, Locking) ->
      sys_step (mkSystem w cs ap lg) (mkSystem w (delete (tx_xid t) cs) ap lg)
  | step_prepared w cs ap lg t p w' :
      cs !! tx_xid t = Some (t, Locked) -> on_storage (prepare_commit t) w = (Ok p, w') ->
      sys_step (mkSystem w cs ap lg) (mkSystem w' (<[tx_xid t := (t, Prepared p)]> cs) ap lg)
  | step_refused w cs ap lg t e w' :
      cs !! tx_xid t = Some (t, Locked) -> on_storage (prepare_commit t) w = (Err e, w') ->
      sys_step (mkSystem w cs ap lg) (mkSystem w' (delete (tx_xid t) cs) ap lg)
  | step_unlogged w cs ap lg t p e w1 res w' :
      cs !! tx_xid t = Some (t, Prepared p) -> append_batch (pc_batch p) w = (Err e, w1) ->
      commit_finish (tx_xid t) t w1 = (res, w') ->
      sys_step (mkSystem w cs ap lg) (mkSystem w' (delete (tx_xid t) cs) ap lg)
  | step_logged w cs ap lg t p w' :
      cs !! tx_xid t = Some (t, Prepared p) -> append_batch (pc_batch p) w = (Ok tt, w') ->
      sys_step (mkSystem w cs ap lg) (mkSystem w' (<[tx_xid t := (t, Logged (prepared_parts p))]> cs) ap (lg ++ [t]))
  | step_applied w cs ap lg t now part rest w' :
      cs !! tx_xid t = Some (t, Logged (part :: rest)) -> part_room (wx_storage w) (tx_xid t) part ->
      on_storage (apply_part now (tx_xid t) part) w = (Ok tt, w') ->
      sys_step (mkSystem w cs ap lg)
        (mkSystem w' (<[tx_xid t := (t, Logged rest)]> cs) (ap ++ part_writes (tx_xid t) part) lg)
  | step_finished w cs ap lg t res w' :
      cs !! tx_xid t = Some (t, Logged []) -> commit_finish (tx_xid t) t w = (res, w') ->
      sys_step (mkSystem w cs ap lg) (mkSystem w' (delete (tx_xid t) cs) ap lg)
  | step_log_call w cs ap lg res w' :
      log_call w = (res, w') -> sys_step (mkSystem w cs ap lg) (mkSystem w' cs ap lg)
  | step_rollback w cs ap lg t res w' :
      cs !! tx_xid t = None -> worker_rollback_tx t w = (res, w') ->
      sys_step (mkSystem w cs ap lg) (mkSystem w' cs ap lg).

(** The systems that are reached from a worker without transactions. *)
Inductive sys_reach : System R -> Prop :=
  | sys_new w : storage_rep base (wx_storage w) [] -> wx_log w = Some [] -> sys_reach (mkSystem w ∅ [] [])
  | sys_next s s' : sys_reach s -> sys_step s s' -> sys_reach s'.

Definition logged_writes (lg : list WorkerTxManager) : list (LockKey * option (list byte) * Z) := t ← lg; tx_writes t.

(** What a commit has in the log and not in the storage yet. *)
Definition owed (xid : Z) (ph : Phase) : list (LockKey * option (list byte) * Z) :=
  match ph with Logged rest => parts_writes xid rest | _ => [] end.

Record sys_inv s : Prop := mk_sys_inv {
  si_storage : storage_rep base (wx_storage (sy_worker s)) (sy_applied s);
  si_log : wx_log (sy_worker s) = Some (xl_batch <$> sy_logged s);
  si_txs : Forall tx_plain (sy_logged s);
  si_commit : forall xid t ph, sy_commits s !! xid = Some (t, ph) -> tx_xid t = xid /\ tx_plain t;
  si_locked : forall xid t ph rk, sy_commits s !! xid = Some (t, ph) -> critical ph -> rk ∈ commit_keys t ->
    holder (xm_lock (wx_tx_lock (sy_worker s))) rk = Some xid;
  si_prepared : forall xid t p, sy_commits s !! xid = Some (t, Prepared p) ->
    pc_batch p = xl_batch t /\ prepared_parts p = tx_parts t /\
    forall rk, rk ∈ write_key <$> tx_writes t -> rk ∉ statement_locked_keys (tm_state t) \/ rk.1 = kv_relation ->
      newest_visible base (sy_applied s) (tm_snapshot t) rk;
  si_rest : forall xid t rest, sy_commits s !! xid = Some (t, Logged rest) -> exists done, tx_parts t = done ++ rest;
  si_owed : forall xid t ph rk, sy_commits s !! xid = Some (t, ph) -> critical ph -> rk ∈ commit_keys t ->
    versions_at (logged_writes (sy_logged s)) rk = versions_at (sy_applied s) rk ++ versions_at (owed xid ph) rk;
  si_free : forall rk, (forall xid t ph, sy_commits s !! xid = Some (t, ph) -> critical ph -> rk ∉ commit_keys t) ->
    versions_at (logged_writes (sy_logged s)) rk = versions_at (sy_applied s) rk;
  si_wins : forall l1 t l2 rk, sy_logged s = l1 ++ t :: l2 -> rk ∈ write_key <$> tx_writes t ->
    rk ∉ statement_locked_keys (tm_state t) \/ rk.1 = kv_relation ->
    newest_visible base (logged_writes l1) (tm_snapshot t) rk;
}.

(** *** Helpers *)

Lemma commit_keys_iff t rk : rk ∈ commit_keys t <-> rk ∈ write_key <$> tx_writes t.
Proof.
  rewrite tx_writes_staged, <- list_fmap_compose. unfold commit_keys, build_write_ops. cbn [tx_write_ops set_write_ops].
  rewrite sort_stable_perm. unfold staged_writes, rel_writes. rewrite fmap_app, !elem_of_app. apply Morphisms_Prop.or_iff_morphism.
  - by rewrite <- list_fmap_compose.
  - induction (tx_relation_ops (tm_state t)) as [| [r rows] m IH]; [done |].
    rewrite !bind_cons, fmap_app, !elem_of_app, IH. by rewrite <- list_fmap_compose.
Qed.

Lemma part_keys t p rk : p ∈ tx_parts t -> rk ∈ write_key <$> part_writes (tx_xid t) p -> rk ∈ commit_keys t.
Proof.
  intros Hp (w & -> & Hw)%list_elem_of_fmap. apply commit_keys_iff, list_elem_of_fmap_2, list_elem_of_bind. by exists p.
Qed.

Lemma part_versions t p rk : p ∈ tx_parts t -> rk ∉ commit_keys t -> versions_at (part_writes (tx_xid t) p) rk = [].
Proof. intros Hp Hk. apply versions_at_none. intros Hin. by eapply Hk, part_keys. Qed.

Lemma tx_versions t rk : rk ∉ commit_keys t -> versions_at (tx_writes t) rk = [].
Proof. rewrite commit_keys_iff. apply versions_at_none. Qed.

Lemma newest_visible_ext W W' snapshot rk :
  versions_at W rk = versions_at W' rk -> newest_visible base W snapshot rk -> newest_visible base W' snapshot rk.
Proof.
  unfold newest_visible, row_versions. rewrite !versions_of_app. change (versions_of (hist ?X rk.1) rk.2) with (versions_at X rk).
  by intros ->.
Qed.

(** A row is locked by one commit. *)
Lemma one_holder s xid1 t1 ph1 xid2 t2 ph2 rk :
  sys_inv s -> sy_commits s !! xid1 = Some (t1, ph1) -> sy_commits s !! xid2 = Some (t2, ph2) ->
  critical ph1 -> critical ph2 -> rk ∈ commit_keys t1 -> rk ∈ commit_keys t2 -> xid1 = xid2.
Proof.
  intros I E1 E2 C1 C2 K1 K2. pose proof (si_locked _ I _ _ _ _ E1 C1 K1). pose proof (si_locked _ I _ _ _ _ E2 C2 K2). congruence.
Qed.

(** *** Steps that leave the commits as they are *)

Lemma inv_frame w w' cs ap lg :
  sys_inv (mkSystem w cs ap lg) -> storage_rep base (wx_storage w') ap -> wx_log w' = wx_log w ->
  (forall xid t ph rk, cs !! xid = Some (t, ph) -> critical ph -> rk ∈ commit_keys t ->
     holder (xm_lock (wx_tx_lock w')) rk = Some xid) ->
  sys_inv (mkSystem w' cs ap lg).
Proof.
  intros [A B C D E F G O P Q] Hs Hl Hh. split; sys_fields; try done. by rewrite Hl.
Qed.

Lemma inv_lock_step w cs ap lg ev m :
  sys_inv (mkSystem w cs ap lg) -> lock_step ev (wx_tx_lock w) = Some m -> spares_commits cs (wx_tx_lock w) ev ->
  sys_inv (mkSystem (with_lock m w) cs ap lg).
Proof.
  intros I Hs Hsp. apply (inv_frame w); [done | apply I | done |]. intros xid t ph rk E C K. cbn [with_lock wx_tx_lock].
  pose proof (si_locked _ I _ _ _ _ E C K) as Hh. sys_fields. unfold holder in *.
  destruct (owner_at (xm_lock (wx_tx_lock w)) rk) as [[o a] |] eqn:Ho; [| done]. cbn in Hh. injection Hh as ->.
  by rewrite (lock_step_owner _ _ _ _ _ _ Hs Ho (Hsp _ _ _ _ _ E C K Ho)).
Qed.

(** A commit that owes nothing leaves. *)
Lemma inv_leave w cs ap lg xid t ph :
  sys_inv (mkSystem w cs ap lg) -> cs !! xid = Some (t, ph) -> owed xid ph = [] -> sys_inv (mkSystem w (delete xid cs) ap lg).
Proof.
  intros [A B C D E F G O P Q] Hc Ho. split; sys_fields; try done.
  - intros x t' ph' [_ Hx]%lookup_delete_Some. by apply D in Hx.
  - intros x t' ph' rk [_ Hx]%lookup_delete_Some. by apply (E x).
  - intros x t' p' [_ Hx]%lookup_delete_Some. by apply (F x).
  - intros x t' rest [_ Hx]%lookup_delete_Some. by apply (G x t').
  - intros x t' ph' rk [_ Hx]%lookup_delete_Some. by apply O.
  - intros rk Hfree. destruct (decide (critical ph /\ rk ∈ commit_keys t)) as [[Hcr Hk] | Hn].
    + by rewrite (O _ _ _ _ Hc Hcr Hk), Ho, app_nil_r.
    + apply P. intros x t' ph' Hx. destruct (decide (x = xid)) as [-> | Hne].
      * rewrite Hc in Hx. injection Hx as <- <-. intros ? ?. by apply Hn.
      * apply (Hfree x t' ph'). by rewrite lookup_delete_ne.
Qed.

(** *** Steps of one commit *)

Lemma inv_start w cs ap lg t :
  sys_inv (mkSystem w cs ap lg) -> cs !! tx_xid t = None -> tx_plain t ->
  sys_inv (mkSystem w (<[tx_xid t := (t, Locking)]> cs) ap lg).
Proof.
  intros [A B C D E F G O P Q] Hc Ht. split; sys_fields; try done.
  - intros x t' ph' [[<- [= <- <-]] | [_ Hx]]%lookup_insert_Some; [done | by apply D in Hx].
  - intros x t' ph' rk [[<- [= <- <-]] | [_ Hx]]%lookup_insert_Some; [by intros [] | by apply (E x)].
  - intros x t' p' [[<- [=]] | [_ Hx]]%lookup_insert_Some. exact (F x t' p' Hx).
  - intros x t' rest [[<- [=]] | [_ Hx]]%lookup_insert_Some. by apply (G x t').
  - intros x t' ph' rk [[<- [= <- <-]] | [_ Hx]]%lookup_insert_Some; [by intros [] | by apply O].
  - intros rk Hfree. apply P. intros x t' ph' Hx. apply (Hfree x t' ph'). rewrite lookup_insert_ne; [done |]. congruence.
Qed.

Lemma inv_acquired w cs ap lg t ev m :
  sys_inv (mkSystem w cs ap lg) -> cs !! tx_xid t = Some (t, Locking) -> lock_step ev (wx_tx_lock w) = Some m ->
  spares_commits cs (wx_tx_lock w) ev -> acquires ev (wx_tx_lock w) (tx_xid t) (commit_keys t) ->
  sys_inv (mkSystem (with_lock m w) (<[tx_xid t := (t, Locked)]> cs) ap lg).
Proof.
  intros I Hc Hs Hsp Ha. pose proof (inv_lock_step _ _ _ _ _ _ I Hs Hsp) as [A B C D E F G O P Q].
  pose proof (acquires_holder _ _ _ _ _ Ha Hs) as Hh. split; sys_fields; try done.
  - intros x t' ph' [[<- [= <- <-]] | [_ Hx]]%lookup_insert_Some; [by apply (D _ _ Locking) | by apply D in Hx].
  - intros x t' ph' rk [[<- [= <- <-]] | [_ Hx]]%lookup_insert_Some; [intros _; apply Hh | by apply (E x)].
  - intros x t' p' [[<- [=]] | [_ Hx]]%lookup_insert_Some. exact (F x t' p' Hx).
  - intros x t' rest [[<- [=]] | [_ Hx]]%lookup_insert_Some. by apply (G x t').
  - intros x t' ph' rk [[<- [= <- <-]] | [_ Hx]]%lookup_insert_Some; [| by apply O]. intros _ Hk. cbn [owed].
    change (versions_at [] rk) with (@nil VersionTuple). rewrite app_nil_r. apply P. intros x t' ph' Hx Hcr Hk'.
    pose proof (E _ _ _ _ Hx Hcr Hk') as Hx'. cbn [with_lock wx_tx_lock] in Hx'. rewrite (Hh _ Hk) in Hx'. injection Hx' as <-.
    rewrite Hc in Hx. injection Hx as <- <-. by destruct Hcr.
  - intros rk Hfree. apply P. intros x t' ph' Hx Hcr. apply (Hfree x t' ph'); [| done]. rewrite lookup_insert_ne; [done |].
    intros <-. rewrite Hc in Hx. injection Hx as <- <-. by destruct Hcr.
Qed.

(** The phase of a commit with locks changes, and nothing is owed before and
    after. *)
Lemma inv_phase w cs ap lg t ph ph' :
  sys_inv (mkSystem w cs ap lg) -> cs !! tx_xid t = Some (t, ph) -> critical ph -> owed (tx_xid t) ph = [] ->
  critical ph' -> owed (tx_xid t) ph' = [] -> (forall rest, ph' <> Logged rest) ->
  (forall p, ph' = Prepared p -> pc_batch p = xl_batch t /\ prepared_parts p = tx_parts t /\
     forall rk, rk ∈ write_key <$> tx_writes t -> rk ∉ statement_locked_keys (tm_state t) \/ rk.1 = kv_relation ->
       newest_visible base ap (tm_snapshot t) rk) ->
  sys_inv (mkSystem w (<[tx_xid t := (t, ph')]> cs) ap lg).
Proof.
  intros [A B C D E F G O P Q] Hc Hcr Ho Hcr' Ho' Hnl Hp. split; sys_fields; try done.
  - intros x t' ph1 [[<- [= <- <-]] | [_ Hx]]%lookup_insert_Some; [by apply (D _ _ ph) | by apply D in Hx].
  - intros x t' ph1 rk [[<- [= <- <-]] | [_ Hx]]%lookup_insert_Some; [intros _; by apply (E _ _ ph) | by apply (E x)].
  - intros x t' p' [[<- [= <- ->]] | [_ Hx]]%lookup_insert_Some; [by apply Hp | by apply (F x)].
  - intros x t' rest [[<- [= <- ->]] | [_ Hx]]%lookup_insert_Some; [by destruct (Hnl rest) | by apply (G x t')].
  - intros x t' ph1 rk [[<- [= <- <-]] | [_ Hx]]%lookup_insert_Some; [| by apply O]. intros _ Hk.
    rewrite Ho', (O _ _ _ _ Hc Hcr Hk), Ho. done.
  - intros rk Hfree. apply P. intros x t' ph1 Hx Hcr1. destruct (decide (x = tx_xid t)) as [-> | Hne].
    + rewrite Hc in Hx. injection Hx as <- <-. apply (Hfree (tx_xid t) t ph'); [| done]. by rewrite lookup_insert_eq.
    + apply (Hfree x t' ph1); [| done]. by rewrite lookup_insert_ne.
Qed.

(** What an append leaves. *)
Definition logged_worker (batch : XLBatch) (answers : list (option ErrorCode)) w : WorkerXContract R :=
  mkWorkerXContract (wx_snapshot_mgr w) (wx_storage w) (wx_tx_lock w) (option_map (fun log => log ++ [batch]) (wx_log w)) answers.

Lemma append_batch_ok batch w w' :
  append_batch batch w = (Ok tt, w') -> exists answers, w' = logged_worker batch answers w.
Proof.
  unfold append_batch, log_call, mbind, st_bind, st_modify, logged_worker.
  destruct (wx_log w) as [log |] eqn:El, (wx_log_answers w) as [| [e |] answers] eqn:Ea; cbn; rewrite ?El, ?Ea; intros [= <-]; by eexists.
Qed.

Lemma append_batch_err batch w e w' :
  append_batch batch w = (Err e, w') -> exists answers,
    w' = mkWorkerXContract (wx_snapshot_mgr w) (wx_storage w) (wx_tx_lock w) (wx_log w) answers.
Proof.
  unfold append_batch, log_call, mbind, st_bind, st_modify.
  destruct (wx_log w) as [log |] eqn:El, (wx_log_answers w) as [| [e' |] answers] eqn:Ea; cbn; intros [= <- <-]; by eexists.
Qed.

Lemma inv_logged w cs ap lg t p w' :
  sys_inv (mkSystem w cs ap lg) -> cs !! tx_xid t = Some (t, Prepared p) -> append_batch (pc_batch p) w = (Ok tt, w') ->
  sys_inv (mkSystem w' (<[tx_xid t := (t, Logged (prepared_parts p))]> cs) ap (lg ++ [t])).
Proof.
  intros I Hc [answers ->]%append_batch_ok. pose proof I as [A B C D E F G O P Q]. sys_fields.
  destruct (F _ _ _ Hc) as (Hb & Hparts & Hvis). destruct (D _ _ _ Hc) as [_ Ht].
  assert (forall rk, rk ∈ commit_keys t -> versions_at (logged_writes lg) rk = versions_at ap rk) as Hsame.
  { intros rk Hk. rewrite (O _ _ _ _ Hc ltac:(done) Hk). apply app_nil_r. }
  assert (forall rk, versions_at (logged_writes (lg ++ [t])) rk = versions_at (logged_writes lg) rk ++ versions_at (tx_writes t) rk) as Happ.
  { intros rk. unfold logged_writes. by rewrite bind_app, bind_singleton, versions_at_app. }
  split; sys_fields; cbn [logged_worker wx_storage wx_log wx_tx_lock].
  - done.
  - rewrite B, Hb, fmap_app. done.
  - apply Forall_app. split; [done |]. by apply Forall_singleton.
  - intros x t' ph1 [[<- [= <- <-]] | [_ Hx]]%lookup_insert_Some; [done | by apply D in Hx].
  - intros x t' ph1 rk [[<- [= <- <-]] | [_ Hx]]%lookup_insert_Some; [intros _; by apply (E _ _ _ _ Hc) | by apply (E x)].
  - intros x t' p' [[<- [=]] | [_ Hx]]%lookup_insert_Some. exact (F x t' p' Hx).
  - intros x t' rest [[<- [= <- <-]] | [_ Hx]]%lookup_insert_Some; [by exists [] | by apply (G x t')].
  - intros x t' ph1 rk [[<- [= <- <-]] | [Hne Hx]]%lookup_insert_Some; intros Hcr Hk; rewrite Happ.
    + rewrite Hsame by done. cbn [owed]. by rewrite Hparts.
    + rewrite tx_versions, app_nil_r; [exact (O x t' ph1 rk Hx Hcr Hk) |]. intros Hk'. apply Hne. by eapply (one_holder _ _ _ _ _ _ _ rk I Hc Hx).
  - intros rk Hfree. rewrite Happ, tx_versions, app_nil_r.
    + apply P. intros x t' ph1 Hx Hcr. destruct (decide (x = tx_xid t)) as [-> | Hne].
      * rewrite Hc in Hx. injection Hx as <- <-. apply (Hfree (tx_xid t) t (Logged (prepared_parts p))); [| done]. by rewrite lookup_insert_eq.
      * apply (Hfree x t' ph1); [| done]. by rewrite lookup_insert_ne.
    + apply (Hfree (tx_xid t) t (Logged (prepared_parts p))); [| done]. by rewrite lookup_insert_eq.
  - intros l1 t' l2 rk Hl Hk Hskip. destruct (decide (l2 = [])) as [-> | Hne].
    + apply app_inj_tail in Hl as [<- <-]. eapply newest_visible_ext; [| by apply Hvis]. symmetry. by apply Hsame, commit_keys_iff.
    + destruct (exists_last Hne) as (l3 & x & ->). rewrite app_comm_cons, app_assoc in Hl.
      apply app_inj_tail in Hl as [-> <-]. by apply (Q l1 t' l3).
Qed.

Lemma inv_applied w cs ap lg t now part rest w' :
  sys_inv (mkSystem w cs ap lg) -> opens base -> cs !! tx_xid t = Some (t, Logged (part :: rest)) ->
  part_room (wx_storage w) (tx_xid t) part -> on_storage (apply_part now (tx_xid t) part) w = (Ok tt, w') ->
  sys_inv (mkSystem w' (<[tx_xid t := (t, Logged rest)]> cs) (ap ++ part_writes (tx_xid t) part) lg).
Proof.
  intros I Hopen Hc Hroom Happly. pose proof I as [A B C D E F G O P Q]. sys_fields.
  destruct (G _ _ _ Hc) as [dn Hdn]. destruct (D _ _ _ Hc) as [_ Ht].
  assert (part ∈ tx_parts t) as Hin by (rewrite Hdn; set_solver).
  unfold on_storage in Happly. destruct (apply_part now (tx_xid t) part (wx_storage w)) as [r st] eqn:Ea.
  injection Happly as -> <-.
  assert (forall x t' ph' rk, cs !! x = Some (t', ph') -> x <> tx_xid t -> critical ph' -> rk ∈ commit_keys t' ->
    versions_at (ap ++ part_writes (tx_xid t) part) rk = versions_at ap rk) as Hother.
  { intros x t' ph' rk Hx Hne Hcr Hk. rewrite versions_at_app, part_versions, app_nil_r; [done | done |].
    intros Hk'. apply Hne. by eapply (one_holder _ _ _ _ _ _ _ rk I Hx Hc). }
  split; sys_fields; cbn [wx_storage wx_log wx_tx_lock]; try done.
  - eapply apply_part_ok; [done | done | | done | done]. pose proof (tx_parts_ok t Ht) as Hp. rewrite Forall_forall in Hp. by apply Hp.
  - intros x t' ph1 [[<- [= <- <-]] | [_ Hx]]%lookup_insert_Some; [done | by apply D in Hx].
  - intros x t' ph1 rk [[<- [= <- <-]] | [_ Hx]]%lookup_insert_Some; [intros _; by apply (E _ _ _ _ Hc) | by apply (E x)].
  - intros x t' p' [[<- [=]] | [Hne Hx]]%lookup_insert_Some. destruct (F _ _ _ Hx) as (H1' & H2' & Hv). split_and!; [done | done |].
    intros rk Hk Hskip. eapply newest_visible_ext; [| by apply Hv]. symmetry. eapply Hother; [done | done | done |]. by apply commit_keys_iff.
  - intros x t' rest' [[<- [= <- <-]] | [_ Hx]]%lookup_insert_Some; [| by apply (G x t')]. exists (dn ++ [part]). by rewrite <- app_assoc.
  - intros x t' ph1 rk [[<- [= <- <-]] | [Hne Hx]]%lookup_insert_Some; intros Hcr Hk.
    + rewrite (O _ _ _ _ Hc ltac:(done) Hk). cbn [owed]. unfold parts_writes. by rewrite bind_cons, !versions_at_app, app_assoc.
    + rewrite (Hother x t' ph1 rk) by done. exact (O x t' ph1 rk Hx Hcr Hk).
  - intros rk Hfree. assert (rk ∉ commit_keys t) as Hk
      by (apply (Hfree (tx_xid t) t (Logged rest)); [by rewrite lookup_insert_eq | done]).
    rewrite versions_at_app, part_versions, app_nil_r by done. apply P. intros x t' ph1 Hx Hcr.
    destruct (decide (x = tx_xid t)) as [-> | Hne]; [rewrite Hc in Hx; by injection Hx as <- <- |].
    apply (Hfree x t' ph1); [| done]. by rewrite lookup_insert_ne.
Qed.

Lemma commit_finish_parts xid t w res w' :
  commit_finish xid t w = (res, w') ->
  wx_storage w' = wx_storage w /\ wx_log w' = wx_log w /\
  wx_tx_lock w' = (release_all (tx_xid t) (release_all xid (wx_tx_lock w)).2).2.
Proof.
  unfold commit_finish, worker_rollback_tx, mbind, st_bind, on_lock, on_mgr, release_all. cbn.
  destruct (mgr_end_tx _ _) as [r m]. by intros [= <- <-].
Qed.

Lemma release_all_keeps oid m rk o : oid <> o -> holder (xm_lock m) rk = Some o -> holder (xm_lock (release_all oid m).2) rk = Some o.
Proof.
  unfold holder. destruct (owner_at (xm_lock m) rk) as [[o' a] |] eqn:E; [| done]. intros Hne [= ->].
  change (xm_lock (release_all oid m).2) with (release_all_locked oid (xm_lock m)).1.
  by rewrite (given_back_owner _ _ _ _ _ _ _ _ (release_all_spec oid (xm_lock m)) E Hne).
Qed.

Lemma inv_finished w cs ap lg t res w' :
  sys_inv (mkSystem w (delete (tx_xid t) cs) ap lg) -> commit_finish (tx_xid t) t w = (res, w') ->
  sys_inv (mkSystem w' (delete (tx_xid t) cs) ap lg).
Proof.
  intros I E. destruct (commit_finish_parts _ _ _ _ _ E) as (Es & El & Ek). apply (inv_frame w).
  - done.
  - rewrite Es. apply I.
  - done.
  - intros x t' ph rk Hx Hcr Hk. pose proof Hx as [Hne _]%lookup_delete_Some. rewrite Ek.
    apply release_all_keeps; [done |]. apply release_all_keeps; [done |]. by apply (si_locked _ I _ t' ph).
Qed.

Context (Hopens : opens base) (Hbase : base kv_relation = []).

Lemma sys_step_inv s s' : sys_inv s -> sys_step s s' -> sys_inv s'.
Proof.
  intros I Hst. destruct Hst as [w cs ap lg t w' E | w cs ap lg r key sn0 sn res w' Hr Hs E | w cs ap lg ev m Hs Hsp
    | w cs ap lg t Hc Ht _ | w cs ap lg t ev m Hc Hs Hsp Ha | w cs ap lg t Hc | w cs ap lg t p w' Hc E | w cs ap lg t e w' Hc E
    | w cs ap lg t p e w1 res w' Hc Eb E | w cs ap lg t p w' Hc E | w cs ap lg t now part rest w' Hc Hroom E | w cs ap lg t res w' Hc E
    | w cs ap lg res w' E | w cs ap lg t res w' Hc E].
  - unfold worker_begin_tx, mbind, st_bind, on_mgr in E. destruct (mgr_begin_tx _) as [[] m]; [| done | done].
    injection E as <- <-. apply (inv_frame w); [done | apply I | done | apply I].
  - unfold on_storage in E. destruct (read_visible_relation_value _ _ _ _) as [r' st] eqn:Er. injection E as <- <-.
    apply (inv_frame w); [done | | done | apply I]. by eapply (read_relation_rep base Hopens); [apply I | | |].
  - by eapply inv_lock_step.
  - by apply inv_start.
  - by eapply inv_acquired.
  - by eapply inv_leave.
  - unfold on_storage in E. destruct (prepare_commit t (wx_storage w)) as [r st] eqn:Ep. injection E as -> <-.
    destruct (si_commit _ I _ _ _ Hc) as [_ Ht].
    destruct (prepare_commit_ok base Hopens Hbase _ _ _ _ _ (si_storage _ I) Ht Ep) as [Rep Hp].
    destruct (Hp p eq_refl) as (_ & Hb & _ & Hparts & Hvis).
    apply (inv_phase _ _ _ _ _ Locked); try done; [| by intros q [= <-]].
    apply (inv_frame w); [done | done | done | apply I].
  - unfold on_storage in E. destruct (prepare_commit t (wx_storage w)) as [r st] eqn:Ep. injection E as -> <-.
    destruct (si_commit _ I _ _ _ Hc) as [_ Ht].
    destruct (prepare_commit_ok base Hopens Hbase _ _ _ _ _ (si_storage _ I) Ht Ep) as [Rep _].
    apply (inv_leave _ _ _ _ _ t Locked); [| done | done]. apply (inv_frame w); [done | done | done | apply I].
  - destruct (append_batch_err _ _ _ _ Eb) as [answers ->]. eapply inv_finished; [| exact E].
    apply (inv_leave _ _ _ _ _ t (Prepared p)); [| done | done]. by apply (inv_frame w); [| apply I | | apply I].
  - by eapply inv_logged.
  - by eapply inv_applied.
  - eapply inv_finished; [| exact E]. by apply (inv_leave _ _ _ _ _ t (Logged [])).
  - assert (w' = mkWorkerXContract (wx_snapshot_mgr w) (wx_storage w) (wx_tx_lock w) (wx_log w) (wx_log_answers w')) as Ew.
    { unfold log_call in E. destruct (wx_log w) eqn:El, (wx_log_answers w) as [| [e |] answers]; injection E as _ <-; cbn; rewrite <- ?El; by destruct w. }
    rewrite Ew. apply (inv_frame w); [done | apply I | done | apply I].
  - unfold worker_rollback_tx, mbind, st_bind, on_lock, on_mgr, release_all in E. cbn in E.
    destruct (mgr_end_tx _ _) as [r m]. injection E as _ <-. apply (inv_frame w); [done | apply I | done |].
    intros x t' ph rk Hx Hcr Hk. apply (release_all_keeps (tx_xid t) (wx_tx_lock w)); [| by apply (si_locked _ I _ t' ph)].
    intros <-. sys_fields. congruence.
Qed.

Lemma sys_reach_inv s : sys_reach s -> sys_inv s.
Proof.
  induction 1 as [w Hs Hl | s s' _ IH Hst]; [| by eapply sys_step_inv].
  split; sys_fields; try done. intros l1 t l2 rk Hl'. by destruct l1.
Qed.

(** *** The commit of the code is a run of steps *)

(** The system with one commit under way, or none. *)
Definition alone w t (ph : Phase) ap lg : System R := mkSystem w (<[tx_xid t := (t, ph)]> ∅) ap lg.
Definition idle w ap lg : System R := mkSystem w ∅ ap lg.

Lemma alone_spares t m ev : spares_commits (<[tx_xid t := (t, Locking)]> ∅) m ev.
Proof.
  intros xid t' ph rk a [[_ [= _ <-]] | [_ Hx]]%lookup_insert_Some; [by intros [] | by rewrite lookup_empty in Hx].
Qed.

Lemma alone_next w t ph ap lg w' ph' ap' lg' :
  sys_reach (alone w t ph ap lg) ->
  sys_step (alone w t ph ap lg) (mkSystem w' (<[tx_xid t := (t, ph')]> (<[tx_xid t := (t, ph)]> ∅)) ap' lg') ->
  sys_reach (alone w' t ph' ap' lg').
Proof. intros Hr Hs. unfold alone. rewrite <- (insert_insert_eq ∅ (tx_xid t) (t, ph') (t, ph)). by eapply sys_next. Qed.

Lemma alone_leaves w t ph ap lg w' :
  sys_reach (alone w t ph ap lg) ->
  sys_step (alone w t ph ap lg) (mkSystem w' (delete (tx_xid t) (<[tx_xid t := (t, ph)]> ∅)) ap lg) ->
  sys_reach (idle w' ap lg).
Proof.
  intros Hr Hs. unfold idle. rewrite delete_insert_id in Hs by apply lookup_empty. by eapply sys_next.
Qed.

Lemma alone_lock w t ap lg ev m :
  sys_reach (alone w t Locking ap lg) -> lock_step ev (wx_tx_lock w) = Some m -> sys_reach (alone (with_lock m w) t Locking ap lg).
Proof. intros Hr Hs. eapply sys_next; [exact Hr |]. eapply step_lock; [exact Hs | apply alone_spares]. Qed.

Lemma alone_acquired w t ap lg ev m :
  sys_reach (alone w t Locking ap lg) -> lock_step ev (wx_tx_lock w) = Some m ->
  acquires ev (wx_tx_lock w) (tx_xid t) (commit_keys t) -> sys_reach (alone (with_lock m w) t Locked ap lg).
Proof.
  intros Hr Hs Ha. eapply alone_next; [exact Hr |]. eapply step_acquired; [apply lookup_insert_eq | exact Hs | apply alone_spares | exact Ha].
Qed.

(** The attempts of [lock_some_alone] on a registered waiter. *)
Lemma attempt_run w t ap lg now seq b m :
  let rq := mkRequest (tx_xid t) (commit_keys t) false in
  sys_reach (alone w t Locking ap lg) -> xm_waiters (wx_tx_lock w) !! seq = Some rq ->
  lock_attempt now seq rq (wx_tx_lock w) = (Ok b, m) ->
  sys_reach (alone (with_lock m w) t (if b then Locked else Locking) ap lg) /\
  (b = false -> xm_waiters m !! seq = Some (mkRequest (tx_xid t) (commit_keys t) true)).
Proof.
  intros rq Hr Hw E.
  assert (lock_step (EvAttempt now seq) (wx_tx_lock w) = Some m) as Hs by (cbn [lock_step]; rewrite Hw; cbn [mbind option_bind rq_parked rq]; by rewrite E).
  destruct b; split; try done.
  - eapply alone_acquired; [exact Hr | exact Hs |]. exists rq. split_and!; try done. by rewrite E.
  - by eapply alone_lock.
  - intros _. unfold lock_attempt in E. destruct (try_acquire_locked _ _ _ _ _) as [[[] s'] wakes]; [done |].
    injection E as <-. apply lookup_insert_eq.
Qed.

(** The deadline lets a parked waiter run again; the attempt is the same as
    on the manager before. *)
Lemma unparked_attempt now seq rq m :
  lock_attempt now seq rq (unpark seq rq m) = lock_attempt now seq rq m.
Proof.
  unfold lock_attempt, unpark. cbn [set_waiters xm_lock].
  destruct (try_acquire_locked _ _ _ _ _) as [[[] s] wakes]; cbn; unfold set_waiters, unlock, set_signals; cbn; f_equal; f_equal.
  - apply delete_insert_eq.
  - apply insert_insert_eq.
Qed.

Lemma lock_alone_run w t ap lg now timeout b m :
  sys_reach (alone w t Locking ap lg) ->
  lock_some_alone now timeout (tx_xid t) (commit_keys t) (wx_tx_lock w) = (Ok b, m) ->
  sys_reach (alone (with_lock m w) t (if b then Locked else Locking) ap lg).
Proof.
  intros Hr E. unfold lock_some_alone, mbind, st_bind in E. set (rq := mkRequest (tx_xid t) (commit_keys t) false) in *.
  destruct (try_lock_some now (tx_xid t) (commit_keys t) (wx_tx_lock w)) as [[[] | |] m1] eqn:E1; try done.
  { injection E as <- <-. eapply (alone_acquired _ _ _ _ (EvTry now (tx_xid t) (commit_keys t))); [exact Hr | cbn [lock_step]; by rewrite E1 |].
    cbn [acquires]. by rewrite E1. }
  assert (sys_reach (alone (with_lock m1 w) t Locking ap lg)) as Hr1
    by (eapply (alone_lock _ _ _ _ (EvTry now (tx_xid t) (commit_keys t))); [exact Hr | cbn [lock_step]; by rewrite E1]).
  destruct (lock_register (tx_xid t) (commit_keys t) m1) as [[seq | |] m2] eqn:E2; try done.
  assert (sys_reach (alone (with_lock m2 (with_lock m1 w)) t Locking ap lg)) as Hr2
    by (eapply (alone_lock _ _ _ _ (EvRegister (tx_xid t) (commit_keys t))); [exact Hr1 | cbn [lock_step with_lock wx_tx_lock]; by rewrite E2]).
  assert (xm_waiters m2 !! seq = Some rq) as Hw2.
  { unfold lock_register in E2. apply pair_equal_spec in E2 as [(? & _ & [= <-])%res_bind_inv <-]. apply lookup_insert_eq. }
  destruct (lock_attempt now seq rq m2) as [[b3 | |] m3] eqn:E3; try done.
  destruct (attempt_run _ _ _ _ _ _ _ _ Hr2 Hw2 E3) as [Hr3 Hp3]. destruct b3; [injection E as <- <-; exact Hr3 |].
  specialize (Hp3 eq_refl).
  assert (sys_reach (alone (with_lock (unpark seq rq m3) (with_lock m3 (with_lock m2 (with_lock m1 w)))) t Locking ap lg)) as Hr4.
  { eapply (alone_lock _ _ _ _ (EvTimer seq)); [exact Hr3 |]. cbn [lock_step with_lock wx_tx_lock]. by rewrite Hp3. }
  destruct (lock_attempt (now + timeout) seq rq m3) as [[b5 | |] m5] eqn:E5; try done.
  rewrite <- unparked_attempt in E5.
  destruct (attempt_run _ _ _ _ _ _ _ _ Hr4 ltac:(apply lookup_insert_eq) E5) as [Hr5 Hp5].
  destruct b5; [injection E as <- <-; exact Hr5 |]. specialize (Hp5 eq_refl).
  destruct (lock_timeout seq rq m5) as [[b6 | |] m6] eqn:E6; try done. injection E as -> ->.
  assert (b = false) as -> by (unfold lock_timeout in E6; destruct (dequeue_locked _ _ _); by injection E6 as <- _).
  eapply (alone_lock _ _ _ _ (EvTimeout seq)) in Hr5; [exact Hr5 |]. cbn [lock_step with_lock wx_tx_lock]. rewrite Hp5. cbn [mbind option_bind rq_parked].
  change (lock_timeout seq (mkRequest (tx_xid t) (commit_keys t) true) m5) with (lock_timeout seq rq m5). by rewrite E6.
Qed.

Lemma apply_run lg t now : forall ps w w' ap,
  sys_reach (alone w t (Logged ps) ap lg) -> parts_room now (tx_xid t) ps (wx_storage w) ->
  on_storage (apply_parts now (tx_xid t) ps) w = (Ok tt, w') ->
  sys_reach (alone w' t (Logged []) (ap ++ parts_writes (tx_xid t) ps) lg).
Proof.
  induction ps as [| p ps IH]; intros w w' ap Hr Hroom E.
  { unfold on_storage in E. cbn in E. injection E as <-. rewrite app_nil_r. by destruct w. }
  destruct Hroom as [Hp Hroom]. unfold on_storage in E. cbn [apply_parts] in E. unfold mbind, st_bind in E.
  destruct (apply_part now (tx_xid t) p (wx_storage w)) as [[[] | |] s1] eqn:E1; [| done | done].
  set (w1 := mkWorkerXContract (wx_snapshot_mgr w) s1 (wx_tx_lock w) (wx_log w) (wx_log_answers w)).
  assert (sys_reach (alone w1 t (Logged ps) (ap ++ part_writes (tx_xid t) p) lg)) as Hr1.
  { eapply alone_next; [exact Hr |]. eapply step_applied; [apply lookup_insert_eq | exact Hp |]. unfold on_storage. by rewrite E1. }
  unfold parts_writes. rewrite bind_cons, app_assoc. apply (IH w1); [exact Hr1 | by apply Hroom |]. exact E.
Qed.

Lemma log_call_log w res w' : log_call w = (res, w') -> wx_log w' = wx_log w.
Proof. unfold log_call. destruct (wx_log w) eqn:El, (wx_log_answers w) as [| [e |] answers]; intros [= _ <-]; done. Qed.

Lemma lock_alone_no_err now timeout oid keys m e m' : lock_some_alone now timeout oid keys m <> (Err e, m').
Proof.
  unfold lock_some_alone, mbind, st_bind. destruct (try_lock_some now oid keys m) as [r m1] eqn:E1.
  assert (exists b, r = Ok b) as [b ->] by (unfold try_lock_some in E1; destruct (try_acquire_locked _ _ _ _ _) as [[b s] wk]; injection E1 as <- _; by exists b).
  destruct b; [done |]. destruct (lock_register oid keys m1) as [[seq | e' |] m2] eqn:E2; [| | done].
  2:{ unfold lock_register, uadd in E2. destruct (_ <=? _); discriminate. }
  assert (forall n m, exists b m', lock_attempt n seq (mkRequest oid keys false) m = (Ok b, m')) as Ha.
  { intros n m3. unfold lock_attempt. destruct (try_acquire_locked _ _ _ _ _) as [[[] s] wk]; by do 2 eexists. }
  destruct (Ha now m2) as (b3 & m3 & ->). destruct b3; [done |]. destruct (Ha (now + timeout) m3) as (b5 & m5 & ->). destruct b5; [done |].
  unfold lock_timeout. by destruct (dequeue_locked _ _ _).
Qed.

Lemma acquire_commit_locks_eq now oid keys w :
  acquire_commit_locks now oid keys w =
    let (r, m) := lock_some_alone now STATEMENT_LOCK_TIMEOUT oid keys (wx_tx_lock w) in
    (match r with Ok true => Ok tt | Ok false => Err Transaction | Err e => Err e | Panic => Panic end, with_lock m w).
Proof.
  unfold acquire_commit_locks, on_lock, mbind, st_bind. by destruct (lock_some_alone _ _ _ _ _) as [[[] | |] m].
Qed.

(** What is done with a commit once its phases are over changes nothing but the
    answers of the log. *)
Lemma commit_end_log t (r : Res ErrorCode unit) w res w' :
  (commit_finish (tx_xid t) t ;; log_call ;; st_lift r ;; log_call) w = (res, w') -> wx_log w' = wx_log w.
Proof.
  unfold mbind, st_bind. destruct (commit_finish (tx_xid t) t w) as [r1 w1] eqn:E1. destruct (commit_finish_parts _ _ _ _ _ E1) as (_ & El & _).
  destruct r1 as [[] | |]; [| by intros [= _ <-]..]. destruct (log_call w1) as [r2 w2] eqn:E2. pose proof (log_call_log _ _ _ E2) as El2.
  destruct r2 as [[] | |]; [| intros [= _ <-]; congruence..]. unfold st_lift. destruct r as [[] | |]; [| intros [= _ <-]; congruence..].
  intros E3. pose proof (log_call_log _ _ _ E3). congruence.
Qed.

(** It ends without a commit under way. *)
Lemma commit_end_run t (r : Res ErrorCode unit) w ap lg res w' :
  (forall res w1, commit_finish (tx_xid t) t w = (res, w1) -> sys_reach (idle w1 ap lg)) ->
  (commit_finish (tx_xid t) t ;; log_call ;; st_lift r ;; log_call) w = (res, w') -> sys_reach (idle w' ap lg).
Proof.
  intros Hf. unfold mbind, st_bind. destruct (commit_finish (tx_xid t) t w) as [r1 w1] eqn:E1. specialize (Hf _ _ eq_refl).
  destruct r1 as [[] | |]; [| by intros [= _ <-]..]. destruct (log_call w1) as [r2 w2] eqn:E2.
  assert (sys_reach (idle w2 ap lg)) as Hr2 by (eapply sys_next; [exact Hf | by eapply step_log_call]).
  destruct r2 as [[] | |]; [| by intros [= _ <-]..]. unfold st_lift. destruct r as [[] | |]; [| by intros [= _ <-]..].
  intros E3. eapply sys_next; [exact Hr2 | by eapply step_log_call].
Qed.

Lemma commit_end_ok t (r : Res ErrorCode unit) w w' :
  (commit_finish (tx_xid t) t ;; log_call ;; st_lift r ;; log_call) w = (Ok tt, w') -> r = Ok tt.
Proof.
  unfold mbind, st_bind, st_lift. destruct (commit_finish _ _ w) as [[[] | |] w1]; [| done | done].
  destruct (log_call w1) as [[[] | |] w2]; [| done | done]. by destruct r as [[] | |].
Qed.

(** The part behind the conflict check. *)
Lemma commit_prepared_run now t p w ap lg res w' :
  sys_reach (alone w t (Prepared p) ap lg) -> wx_log w = Some (xl_batch <$> lg) ->
  pc_xid p = tx_xid t -> pc_relation_deltas p = [] -> prepared_parts p = tx_parts t -> tx_inv (tm_state t) ->
  parts_room now (tx_xid t) (tx_parts t) (wx_storage w) -> commit_prepared now (tx_xid t) t p w = (res, w') ->
  (res = Ok tt -> sys_reach (idle w' (ap ++ tx_writes t) (lg ++ [t]))) /\
  (forall e, res = Err e -> wx_log w' = wx_log w -> sys_reach (idle w' ap lg)).
Proof.
  intros Hr Hlog Hx Hd Hp Hi Hroom E. unfold commit_prepared, commit_log_apply, mbind, st_bind at 1 in E.
  destruct (append_batch (pc_batch p) w) as [[[] | e1 |] w1] eqn:E1; cbv iota in E.
  - destruct (append_batch_ok _ _ _ E1) as [answers ->].
    assert (sys_reach (alone (logged_worker (pc_batch p) answers w) t (Logged (tx_parts t)) ap (lg ++ [t]))) as Hr1.
    { rewrite <- Hp. eapply alone_next; [exact Hr |]. eapply step_logged; [apply lookup_insert_eq | exact E1]. }
    destruct (on_storage (apply_prepared_commit now p) (logged_worker (pc_batch p) answers w)) as [r2 w2] eqn:E2.
    assert (wx_log w2 = Some ((xl_batch <$> lg) ++ [pc_batch p])) as Hl2.
    { unfold on_storage in E2. destruct (apply_prepared_commit _ _ _). injection E2 as _ <-. cbn. by rewrite Hlog. }
    destruct r2 as [[] | e2 |]; [| | by injection E as <- <-].
    + split.
      * intros _. refine (commit_end_run t (Ok tt) w2 _ _ _ _ _ E). intros r3 w3 E3.
        assert (on_storage (apply_parts now (tx_xid t) (tx_parts t)) (logged_worker (pc_batch p) answers w) = (Ok tt, w2)) as E2'.
        { unfold on_storage in *. rewrite apply_prepared_parts, Hx, Hp in E2; [done | done |].
          unfold prepared_parts, tx_parts in Hp. apply app_inj_tail in Hp as [-> _]. by apply tx_relations_real. }
        pose proof (apply_run _ t now (tx_parts t) _ _ _ Hr1 Hroom E2') as Hr2.
        eapply alone_leaves; [exact Hr2 |]. eapply step_finished; [apply lookup_insert_eq | exact E3].
      * intros e _ Hsame. rewrite (commit_end_log _ _ _ _ _ E), Hl2, Hlog in Hsame. injection Hsame as Hsame.
        apply (f_equal length) in Hsame. rewrite length_app in Hsame. cbn in Hsame. lia.
    + split.
      * intros ->. by apply commit_end_ok in E.
      * intros e _ Hsame. rewrite (commit_end_log _ _ _ _ _ E), Hl2, Hlog in Hsame. injection Hsame as Hsame.
        apply (f_equal length) in Hsame. rewrite length_app in Hsame. cbn in Hsame. lia.
  - split; [intros ->; by apply commit_end_ok in E |]. intros e _ _. refine (commit_end_run t (Err e1) w1 _ _ _ _ _ E). intros r3 w3 E3.
    eapply alone_leaves; [exact Hr |]. eapply step_unlogged; [apply lookup_insert_eq | exact E1 | exact E3].
  - by injection E as <- <-.
Qed.

Lemma commit_run s now t res w' :
  sys_reach s -> sy_commits s = ∅ -> tx_plain t -> tx_is_empty (tm_state t) = false ->
  (forall p w1, on_storage (prepare_commit t) (sy_worker s) = (Ok p, w1) -> parts_room now (tx_xid t) (tx_parts t) (wx_storage w1)) ->
  worker_commit_tx_with_lock_owner now t (tx_xid t) (sy_worker s) = (res, w') ->
  (res = Ok tt -> sys_reach (mkSystem w' ∅ (sy_applied s ++ tx_writes t) (sy_logged s ++ [t]))) /\
  (forall e, res = Err e -> wx_log w' = wx_log (sy_worker s) -> sys_reach (mkSystem w' ∅ (sy_applied s) (sy_logged s))).
Proof.
  destruct s as [w cs ap lg]. sys_fields. intros Hr -> Ht Hne Hroom E. unfold worker_commit_tx_with_lock_owner in E. rewrite Hne in E.
  pose proof (sys_reach_inv _ Hr) as I.
  assert (sys_reach (alone w t Locking ap lg)) as Hr0
    by (eapply sys_next; [exact Hr |]; by apply step_start; [apply lookup_empty | |]).
  unfold mbind in E. unfold st_bind at 1 in E. rewrite acquire_commit_locks_eq in E.
  destruct (lock_some_alone now STATEMENT_LOCK_TIMEOUT (tx_xid t) (commit_keys t) (wx_tx_lock w)) as [[b | e |] m] eqn:El;
    [| by apply lock_alone_no_err in El | by injection E as <- <-].
  pose proof (lock_alone_run _ _ _ _ _ _ _ _ Hr0 El) as Hr1. destruct b.
  2:{ injection E as <- <-. split; [done |]. intros _ _ _. eapply alone_leaves; [exact Hr1 |]. apply step_timeout, lookup_insert_eq. }
  unfold st_bind at 1 in E. unfold on_storage at 1 in E. cbn [with_lock wx_storage wx_snapshot_mgr wx_tx_lock wx_log wx_log_answers] in E.
  destruct (prepare_commit t (wx_storage w)) as [r st] eqn:Ep.
  set (w2 := mkWorkerXContract (wx_snapshot_mgr w) st m (wx_log w) (wx_log_answers w)) in *.
  assert (on_storage (prepare_commit t) (with_lock m w) = (r, w2)) as Ep' by (unfold on_storage; cbn; by rewrite Ep).
  destruct (prepare_commit_ok base Hopens Hbase _ _ _ _ _ (si_storage _ I) Ht Ep) as [_ Hp].
  destruct r as [p | e |]; [| | by injection E as <- <-].
  - destruct (Hp p eq_refl) as (Hx & _ & Hd & Hparts & _).
    apply (commit_prepared_run now t p w2 ap lg res w'); try done.
    + eapply alone_next; [exact Hr1 |]. eapply step_prepared; [apply lookup_insert_eq | exact Ep'].
    + exact (si_log _ I).
    + apply Ht.
    + apply (Hroom p (mkWorkerXContract (wx_snapshot_mgr w) st (wx_tx_lock w) (wx_log w) (wx_log_answers w))). unfold on_storage. by rewrite Ep.
  - injection E as <- <-. split; [done |]. intros _ _ _. eapply alone_leaves; [exact Hr1 |].
    eapply step_refused; [apply lookup_insert_eq | exact Ep'].
Qed.

End system.

(** ** Theorems *)

(** The rows that the batches of a log write. *)
Definition log_writes (log : list XLBatch) : list (LockKey * option (list byte) * Z) := b ← log; batch_writes b.

Lemma log_writes_versions lg rk :
  Forall tx_plain lg -> versions_at (log_writes (xl_batch <$> lg)) rk = versions_at (logged_writes lg) rk.
Proof.
  induction 1 as [| t lg Ht _ IH]; [done |]. unfold log_writes, logged_writes in *.
  rewrite fmap_cons, !bind_cons, !versions_at_app, IH. f_equal. by apply tx_batch_versions.
Qed.

Section theorems.
Context {R TableDesc : Type} `{RelationOk R} `{Catalog R TableDesc} `{Msgpack DeltaWire}.

(** C1: The log has the writes of every row in the order in which the storage
    applies them, over all interleavings of the phases of transaction commits
    with each other, with lock requests, time-outs and releases, with reads,
    rollbacks and failing calls into the log.  What the storage has of a row is
    what the log has, except for the one commit that is between the log and the
    storage, whose rows come last.

    The conditions are in the steps: the transactions have no deferred deltas;
    commits are faster than the time-to-live of locks and nobody else gives
    their locks back ([spares_commits]); no row is refused by a relation and
    the relations have room; single writes outside of transactions, which take
    no locks, are left out.

    The phases are those of the code: when no commit is under way, a call of
    [worker_commit_tx_with_lock_owner] that succeeds is a run of steps that
    leaves the transaction in the log and in the storage, and one that fails
    before the log is a run that leaves both as they were. *)
Theorem log_order_is_apply_order base (s : System R) :
  opens base -> base kv_relation = [] -> sys_reach base s ->
  (exists log, wx_log (sy_worker s) = Some log /\
    storage_rep base (wx_storage (sy_worker s)) (sy_applied s) /\
    forall rk,
      versions_at (log_writes log) rk = versions_at (sy_applied s) rk \/
      exists xid t rest, sy_commits s !! xid = Some (t, Logged rest) /\ rk ∈ commit_keys t /\
        versions_at (log_writes log) rk = versions_at (sy_applied s) rk ++ versions_at (parts_writes xid rest) rk) /\
  (forall now t res w',
    sy_commits s = ∅ -> tx_plain t -> tx_is_empty (tm_state t) = false ->
    (forall p w1, on_storage (prepare_commit t) (sy_worker s) = (Ok p, w1) -> parts_room now (tx_xid t) (tx_parts t) (wx_storage w1)) ->
    worker_commit_tx_with_lock_owner now t (tx_xid t) (sy_worker s) = (res, w') ->
    (res = Ok tt -> sys_reach base (mkSystem w' ∅ (sy_applied s ++ tx_writes t) (sy_logged s ++ [t]))) /\
    (forall e, res = Err e -> wx_log w' = wx_log (sy_worker s) -> sys_reach base (mkSystem w' ∅ (sy_applied s) (sy_logged s)))).
Proof.
  intros Ho Hb Hr. split; [| intros now t res w' Hc Ht Hne Hroom E; by eapply (commit_run base Ho Hb s)].
  pose proof (sys_reach_inv base Ho Hb s Hr) as [A B C D E F G O P Q].
  exists (xl_batch <$> sy_logged s). split; [done |]. split; [done |]. intros rk. rewrite log_writes_versions by done.
  destruct (decide (map_Exists (fun xid c => critical c.2 /\ rk ∈ commit_keys c.1) (sy_commits s))) as [He | Hn].
  - destruct He as (xid & [t ph] & Hx & Hcr & Hk). cbn [fst snd] in *. rewrite (O _ _ _ _ Hx Hcr Hk).
    destruct ph as [| | p | rest]; [by destruct Hcr | left; apply app_nil_r | left; apply app_nil_r |].
    right. by exists xid, t, rest.
  - left. apply P. intros xid t ph Hx Hcr Hk. apply Hn. by exists xid, (t, ph).
Qed.

(** C2: The first of two conflicting commits wins.  In every state reached as
    above, and under the same conditions, take a transaction in the log and a
    row it wrote that is one of the key/value map, or one that no statement of
    the transaction had locked; for rows of relations that a statement has
    locked the conflict check is left out.  The snapshot of the transaction
    sees the version of that row that the log has before it: no transaction
    that was running when this one began, or began later, committed the row in
    between. *)
Theorem first_committer_wins base (s : System R) l1 t l2 rk :
  opens base -> base kv_relation = [] -> sys_reach base s ->
  sy_logged s = l1 ++ t :: l2 -> rk ∈ commit_keys t ->
  rk ∉ statement_locked_keys (tm_state t) \/ rk.1 = kv_relation ->
  match last (versions_of (base rk.1) rk.2 ++ versions_at (log_writes (xl_batch <$> l1)) rk) with
  | Some v => is_visible_to_snapshot (stamp v) (tm_snapshot t) = true
  | None => True
  end.
Proof.
  intros Ho Hb Hr Hl Hk Hs. pose proof (sys_reach_inv base Ho Hb s Hr) as I. pose proof (si_txs _ _ I) as Ht. rewrite Hl in Ht.
  apply Forall_app in Ht as [Ht _]. rewrite log_writes_versions by done. apply commit_keys_iff in Hk.
  pose proof (si_wins _ _ I l1 t l2 rk Hl Hk Hs) as Hv. unfold newest_visible, row_versions in Hv. by rewrite versions_of_app in Hv.
Qed.
End theorems.
