(* ===== verification/WorkerRecovery.v ===== *)
(** * Recovery of a worker

    A worker is restarted: the relations are opened with what the files have,
    and the log is replayed from its start.  Readers then see what they saw
    before, and new transactions get new ids. *)

From S2P Require Import Prelude Errors LogFrame Snapshots Versions Histories XLocks BTree TxState KvStore Storage RelationLaws StorageProperties Worker CommitOrder.

(** Versions that come again later do not matter to readers. *)
Lemma find_last_none {A} (p : A -> bool) l : find_last p l = None <-> forall x, x ∈ l -> p x = false.
Proof.
  induction l as [| y l IH]; cbn [find_last]; [split; [by intros _ x ?%elem_of_nil | done] |].
  destruct (find_last p l) as [z |] eqn:E.
  - split; [done |]. intros Hn. exfalso. assert (Some z = None) by (apply IH; intros x Hx; apply Hn; by right). done.
  - destruct (p y) eqn:Ep.
    + split; [done |]. intros Hn. rewrite (Hn y) in Ep by left. done.
    + split; [| done]. intros _ x [-> | Hx]%elem_of_cons; [done | by apply IH].
Qed.

Lemma find_last_absorb {A} (p : A -> bool) l1 l2 : (forall x, x ∈ l1 -> x ∈ l2) -> find_last p (l1 ++ l2) = find_last p l2.
Proof.
  intros Hs. rewrite (find_last_split p (length l1)), drop_app_length, take_app_length.
  destruct (find_last p l2) as [x |] eqn:E; [done |]. apply find_last_none. intros x Hx.
  rewrite find_last_none in E. by apply E, Hs.
Qed.

Lemma reader_absorb s h1 h2 : (forall v, v ∈ h1 -> v ∈ h2) -> reader (Some s) (h1 ++ h2) = reader (Some s) h2.
Proof. apply find_last_absorb. Qed.

Section recovery.
Context {R TableDesc : Type} `{RelationOk R} `{Catalog R TableDesc} `{Msgpack DeltaWire}.
Context (base : PhysicalRelationId -> list RowWrite) (Hopens : opens base).

Implicit Types w : WorkerXContract R.

(** The parts that the log writes, in order. *)
Definition log_steps (log : list XLBatch) : list (Z * (PhysicalRelationId * Rows)) := b ← log; batch_steps b.

Lemma foldl_max_le x xs y : y ∈ x :: xs -> y <= foldl Z.max x xs.
Proof.
  assert (forall xs x, x <= foldl Z.max x xs) as Hx.
  { clear. intros xs. induction xs as [| z xs IH]; intros x; cbn [foldl]; [lia |]. specialize (IH (Z.max x z)). lia. }
  revert x. induction xs as [| z xs IH]; intros x; cbn [foldl]; [intros ->%list_elem_of_singleton; lia |].
  intros [-> | [-> | Hy]%elem_of_cons]%elem_of_cons.
  - specialize (Hx xs (Z.max x z)). lia.
  - specialize (Hx xs (Z.max x z)). lia.
  - apply IH. by right.
Qed.

(** Replaying a batch observes its transaction ids and applies its parts. *)
Lemma replay_batch_step now b w : Forall entry_plain b ->
  exists w', replay_worker_log_batch now b w = ((apply_steps now (batch_steps b) (wx_storage w)).1, w') /\
    wx_storage w' = (apply_steps now (batch_steps b) (wx_storage w)).2 /\
    sm_next_ts (wx_snapshot_mgr w) <= sm_next_ts (wx_snapshot_mgr w') /\
    Forall (fun e => xe_xid e <= sm_next_ts (wx_snapshot_mgr w')) b.
Proof.
  intros Hb. rewrite <- replay_batch_steps by done. destruct (replay_batch now b (wx_storage w)) as [res s'] eqn:E.
  unfold replay_worker_log_batch, mbind, st_bind. destruct (xe_xid <$> b) as [| x xs] eqn:Ex; unfold on_storage.
  - cbn. rewrite E. eexists. split_and!; [done | done | cbn; lia |]. by destruct b.
  - unfold on_mgr. cbn. rewrite E. eexists. split_and!; [done | done | cbn; lia |]. apply Forall_forall. intros e He.
    assert (xe_xid e ∈ x :: xs) as Hx by (rewrite <- Ex; by apply list_elem_of_fmap_2). apply foldl_max_le in Hx. cbn. lia.
Qed.

Lemma replay_log_steps now log : forall w, Forall (Forall entry_plain) log ->
  exists w', replay_worker_log now log w = ((apply_steps now (log_steps log) (wx_storage w)).1, w') /\
    wx_storage w' = (apply_steps now (log_steps log) (wx_storage w)).2 /\
    sm_next_ts (wx_snapshot_mgr w) <= sm_next_ts (wx_snapshot_mgr w') /\
    ((apply_steps now (log_steps log) (wx_storage w)).1 = Ok tt -> Forall (fun e => xe_xid e <= sm_next_ts (wx_snapshot_mgr w')) (concat log)).
Proof.
  induction log as [| b log IH]; intros w Hp; [exists w; split_and!; [done | done | lia | constructor] |].
  apply Forall_cons in Hp as [Hb Hp]. destruct (replay_batch_step now b w Hb) as (w1 & E1 & Es & Hn & Hx).
  unfold log_steps in *. rewrite bind_cons, apply_steps_app. cbn [replay_worker_log].
  destruct (apply_steps now (batch_steps b) (wx_storage w)) as [[[] | e |] s1] eqn:Ea; cbn [fst snd] in *.
  - erewrite (st_bind_ok _ _ _ _ _ E1), (st_bind_ok _ _ _ _ _ Ea). rewrite <- Es.
    destruct (IH w1 Hp) as (w2 & E2 & Es2 & Hn2 & Hx2). exists w2. split_and!; [done | done | lia |]. intros Ho. cbn [concat].
    apply Forall_app. split; [| by apply Hx2]. eapply Forall_impl; [exact Hx |]. cbn. lia.
  - exists w1. unfold mbind, st_bind. by rewrite E1, Ea.
  - exists w1. unfold mbind, st_bind. by rewrite E1, Ea.
Qed.

Lemma log_steps_writes log : steps_writes (log_steps log) = log_writes log.
Proof.
  unfold log_steps, log_writes. induction log as [| b log IH]; [done |]. unfold steps_writes in *.
  rewrite !bind_cons, bind_app, IH. f_equal. apply batch_steps_writes.
Qed.

(** The replay of the log applies all its writes, or a relation refuses some. *)
Lemma replay_log_cases now log w W :
  storage_rep base (wx_storage w) W -> Forall (Forall entry_plain) log -> steps_room now (log_steps log) (wx_storage w) ->
  match replay_worker_log now log w with
  | (Ok tt, w') => storage_rep base (wx_storage w') (W ++ log_writes log) /\
      Forall (fun e => xe_xid e <= sm_next_ts (wx_snapshot_mgr w')) (concat log)
  | _ => steps_refused now (log_steps log) (wx_storage w)
  end.
Proof.
  intros Rep Hp Hroom. destruct (replay_log_steps now log w Hp) as (w' & E & Es & _ & Hx). rewrite E.
  assert (Forall (fun p => rows_part_ok p.1 p.2) (log_steps log)) as Hok.
  { apply Forall_bind. eapply Forall_impl; [exact Hp |]. apply batch_steps_ok. }
  pose proof (apply_steps_cases base Hopens now _ _ _ Rep Hok Hroom) as Hc. rewrite log_steps_writes in Hc.
  destruct (apply_steps now _ (wx_storage w)) as [[[] | |] s1]; [| done | done]. cbn [fst snd] in *. rewrite Es. split; [done | by apply Hx].
Qed.
End recovery.

Section restart.
Context {R TableDesc : Type} `{RelationOk R} `{Msgpack DeltaWire}.

(** No commit is between the log and the storage. *)
Definition drained (s : System R) : Prop := forall xid t ph, sy_commits s !! xid = Some (t, ph) -> owed xid ph = [].

Lemma drained_log (C : Catalog R TableDesc) base s :
  opens base -> base kv_relation = [] -> sys_reach base s -> drained s ->
  exists log, wx_log (sy_worker s) = Some log /\ Forall (Forall entry_plain) log /\
    storage_rep base (wx_storage (sy_worker s)) (log_writes log).
Proof.
  intros Ho Hb Hr Hs. pose proof (sys_reach_inv base Ho Hb s Hr) as I. exists (xl_batch <$> sy_logged s).
  split; [apply I |]. pose proof (si_txs _ _ I) as Ht. split.
  - apply Forall_fmap. eapply Forall_impl; [exact Ht |]. intros t. apply tx_entry_plain.
  - eapply storage_rep_ext; [| apply I]. intros rk. rewrite log_writes_versions by done. symmetry.
    destruct (decide (map_Exists (fun xid c => critical c.2 /\ rk ∈ commit_keys c.1) (sy_commits s))) as [He | Hn].
    + destruct He as (xid & [t ph] & Hx & Hcr & Hk). rewrite (si_owed _ _ I _ _ _ _ Hx Hcr Hk), (Hs _ _ _ Hx). apply app_nil_r.
    + apply (si_free _ _ I). intros xid t ph Hx Hcr Hk. apply Hn. by exists xid, (t, ph).
Qed.

Lemma log_rows_ok log r : Forall (Forall entry_plain) log -> Forall row_write_ok (hist (log_writes log) r).
Proof.
  intros Hl. unfold hist. apply Forall_fmap, Forall_forall. intros w [_ Hw]%list_elem_of_filter.
  unfold log_writes, batch_writes in Hw. apply list_elem_of_bind in Hw as (b & Hw & Hb).
  apply list_elem_of_bind in Hw as (e & Hw & He). rewrite Forall_forall in Hl. specialize (Hl b Hb). rewrite Forall_forall in Hl.
  destruct (Hl e He) as [_ Hok]. rewrite Forall_forall in Hok. by apply Hok.
Qed.

Lemma kv_same_reads kv1 kv2 ws snapshot sn :
  kv_rep kv1 ws -> kv_rep kv2 ws -> Forall row_write_ok ws -> row_snapshot snapshot sn ->
  (forall key, kv_get key snapshot kv1 = kv_get key snapshot kv2) /\
  forall start_key end_key, kv_range start_key end_key snapshot kv1 = kv_range start_key end_key snapshot kv2.
Proof.
  intros H1' H2' Hok Hs. split.
  - intros key. by rewrite (kv_get_ok kv1 ws snapshot sn), (kv_get_ok kv2 ws snapshot sn).
  - intros a b. destruct (kv_range_ok kv1 ws snapshot sn a b) as (i1 & E1 & S1 & M1); [done.. |].
    destruct (kv_range_ok kv2 ws snapshot sn a b) as (i2 & E2 & S2 & M2); [done.. |]. rewrite E1, E2. f_equal.
    apply bt_ext; [done | done |]. intros key. apply option_eq. intros value. by rewrite !bt_get_elem, M1, M2.
Qed.

(** C3: The replay of the log restores the worker.  Take a new database and any
    run of its commits, as in the order of the log, in which the storage
    refused nothing, up to a moment when no commit is between the log and the
    storage.  A restarted worker opened its relations with whatever part of the
    logged versions the files had, and these have room for the rows of the
    log.  When the worker replays the log from its start, either a relation
    of the log cannot be opened or refuses its rows, and the replay stops
    there; or the replay succeeds, the worker answers every point read of rows
    and every point and range read of key/value items, with every snapshot, as
    the old worker does, and all ids of the log are below the next id that it
    hands out.  A log of key/value items alone is always replayed. *)
Theorem replay_restores_reads (live cat : Catalog R TableDesc) (found : PhysicalRelationId -> list RowWrite) s now w0 log :
  @opens R TableDesc _ _ live (fun _ => []) -> @sys_reach R TableDesc _ _ live (fun _ => []) s -> drained s ->
  wx_log (sy_worker s) = Some log ->
  @opens R TableDesc _ _ cat found ->
  (forall rk v, v ∈ versions_of (found rk.1) rk.2 -> v ∈ versions_at (log_writes log) rk) ->
  storage_rep found (wx_storage w0) [] -> @steps_room R TableDesc _ _ cat now (log_steps log) (wx_storage w0) ->
  match @replay_worker_log R TableDesc _ cat _ now log w0 with
  | (Ok tt, w1) =>
      let kv_live := st_kv_store (wx_storage (sy_worker s)) in
      let kv_new := st_kv_store (wx_storage w1) in
      (forall snapshot sn, row_snapshot snapshot sn ->
         (forall key, kv_get key snapshot kv_new = kv_get key snapshot kv_live) /\
         forall start_key end_key, kv_range start_key end_key snapshot kv_new = kv_range start_key end_key snapshot kv_live) /\
      (forall r key snapshot sn rel rel', r <> kv_relation -> to_snapshot snapshot = Ok sn ->
         @finds R TableDesc live (wx_storage (sy_worker s)) r rel -> @finds R TableDesc cat (wx_storage w1) r rel' ->
         exists v s1 s2,
           @read_visible_relation_value R TableDesc _ live r key snapshot (wx_storage (sy_worker s)) = (Ok v, s1) /\
           @read_visible_relation_value R TableDesc _ cat r key snapshot (wx_storage w1) = (Ok v, s2)) /\
      Forall (fun e => xe_xid e <= sm_next_ts (wx_snapshot_mgr w1)) (concat log)
  | _ => @steps_refused R TableDesc _ cat now (log_steps log) (wx_storage w0) /\ exists p, p ∈ log_steps log /\ p.2.1 <> kv_relation
  end.
Proof.
  intros Ho Hr Hs Hlog Hc Hfound Rep0 Ht.
  destruct (drained_log live (fun _ => []) s Ho eq_refl Hr Hs) as (log' & E & Hp & Rep). rewrite Hlog in E. injection E as <-.
  pose proof (replay_log_cases found Hc now log w0 [] Rep0 Hp Ht) as Hcases.
  destruct (@replay_worker_log R TableDesc _ cat _ now log w0) as [[[] | e |] w1]; [| split; [done | by eapply refused_relation]..].
  destruct Hcases as [Rep1 Hids]. cbn zeta. split; [| split; [| done]].
  - intros snapshot sn Hsn. apply (kv_same_reads _ _ (hist (log_writes log) kv_relation) snapshot sn);
      [apply Rep1 | apply Rep | by apply log_rows_ok | done].
  - intros r key snapshot sn rel rel' Hk Hsn Hf Hf'.
    destruct (read_relation_ok (fun _ => []) Ho _ _ r key snapshot sn rel Rep Hk Hsn Hf) as (s1 & E1 & _).
    destruct (read_relation_ok found Hc _ _ r key snapshot sn rel' Rep1 Hk Hsn Hf') as (s2 & E2 & _).
    eexists _, s1, s2. split; [exact E1 |]. rewrite E2. cbn [app]. rewrite versions_of_app.
    by rewrite reader_absorb by (intros v; apply (Hfound (r, key))).
Qed.
End restart.
