(* ===== verification/WorkerExamples.v ===== *)
(** * Runs of a worker

    Concrete runs: the witnesses of the theorems on commits and recovery, and
    runs that show where the worker does not do what it means to. *)

From S2P Require Import Prelude Errors Compat FileOps LogFrame PhysLog PlCodec RecordSpec RecordMap PageImage.
From S2P Require Import TsFile Chain TsChain TsRead TsWrite TsState TsFlush TsMutate TsOpen TimeSeries TsProperties.
From S2P Require Import Snapshots Versions Histories XLocks BTree TxState KvStore Relation RelationProperties RelationRuns.
From S2P Require Import Storage RelationLaws StorageProperties Worker CommitOrder WorkerRecovery.

Module WorkerDemo.
Import PlCodec TsDemo RelDemo.
#[local] Existing Instance Reference.packages.
#[local] Existing Instance Reference.packages_ok.
#[local] Existing Instance key_tuple_ord.
#[local] Existing Instance key_tuple_ord_ok.
#[local] Instance worker_wire : Msgpack DeltaWire := list_msgpack.
#[local] Instance worker_wire_ok : MsgpackOk DeltaWire := list_msgpack_ok.

(** A catalog in which every table is a new one. *)
#[local] Instance demo_catalog : Catalog (Relation TimeSeriesFile) unit := {
  get_table_by_id _ := Ok tt;
  open_relation _ _ := Ok demo_rel0;
  apply_deltas_to_value _ _ v := Ok v;
}.

Notation Demo := (WorkerXContract (Relation TimeSeriesFile)).

Definition demo_relation : PhysicalRelationId := mkPhysicalRelationId 7 0.

(** A transaction that writes a row of a relation and a key/value item. *)
Definition worker_requests : list tx_request := [RPutRelation demo_relation [x05] [x0a]; RPut [x01] [x0b]].

Definition demo_tx : WorkerTxManager :=
  mkWorkerTxManager (mkWorkerSnapshot 1 []) (run_requests worker_requests WorkerTxState_new).2.

Definition demo_start : Demo := (worker_begin_tx (WorkerXContract_new 0)).2.

Lemma demo_opens : opens (R := Relation TimeSeriesFile) (fun _ => []).
Proof.
  intros r desc rel [= <-]. exact (reach_ro_rep _ _ _ (reach_new file0 file0 demo_rel0 file0_holds file0_holds demo_new)).
Qed.

Lemma demo_tx_plain : tx_plain demo_tx.
Proof.
  destruct (requests_plain (mkWorkerSnapshot 1 []) worker_requests) with (s := WorkerTxState_new) as (st & E & Ht).
  - unfold worker_requests. repeat (apply Forall_cons; split; [by vm_compute |]). by apply Forall_nil.
  - apply tx_plain_new.
  - unfold demo_tx. by rewrite E.
Qed.

(** *** A commit, phase by phase *)

Definition rel_part : PhysicalRelationId * Rows := (demo_relation, [([x05], Some [x0a])]).
Definition kv_part : PhysicalRelationId * Rows := (kv_relation, [([x01], Some [x0b])]).

Definition demo_prepared : PreparedWorkerCommit :=
  mkPreparedWorkerCommit 1 [rel_part] [] kv_part.2 (xl_batch demo_tx).

Definition demo_locked : Demo := with_lock (try_lock_some 0 1 (commit_keys demo_tx) (wx_tx_lock demo_start)).2 demo_start.
Definition demo_checked : Demo := (on_storage (prepare_commit demo_tx) demo_locked).2.
Definition demo_logged : Demo := (append_batch (pc_batch demo_prepared) demo_checked).2.
Definition demo_half : Demo := (on_storage (apply_part 0 1 rel_part) demo_logged).2.
Definition demo_done : Demo := (on_storage (apply_part 0 1 kv_part) demo_half).2.
Definition demo_ended : Demo := (commit_finish 1 demo_tx demo_done).2.

Definition worker_log : list XLBatch := [xl_batch demo_tx].
Definition demo_applied : list (LockKey * option (list byte) * Z) := part_writes 1 rel_part ++ part_writes 1 kv_part.

Lemma demo_rel_opened rel : finds (wx_storage demo_logged) demo_relation rel -> rel = demo_rel0.
Proof.
  assert (st_relation_store (wx_storage demo_logged) !! demo_relation = Some demo_rel0) as E by (vm_compute; reflexivity).
  intros [E' | [E' _]]; rewrite E in E'; [by injection E' | done].
Qed.

Lemma rel_part_room : batch_room demo_rel0 rel_part.2 1.
Proof.
  split; [done |]. split; [by vm_compute |]. split; [split; by vm_compute |]. intros ids rel' E.
  assert (ids = [1]) as -> by (vm_compute in E; congruence). split.
  - eapply (demo_file_room [mkRec 1 1 [x05]]);
      [vm_compute; reflexivity | by vm_compute | by apply recs_ok; vm_compute | by vm_compute].
  - eapply (demo_file_room [mkRec 1 1 [x0a]]);
      [vm_compute; reflexivity | by vm_compute | by apply recs_ok; vm_compute | by vm_compute].
Qed.

Definition demo_phase (w : Demo) (ph : Phase) (applied : list (LockKey * option (list byte) * Z)) (logged : list WorkerTxManager)
    : System (Relation TimeSeriesFile) := mkSystem w {[1 := (demo_tx, ph)]} applied logged.

Definition demo_system : System (Relation TimeSeriesFile) := mkSystem demo_ended ∅ demo_applied [demo_tx].

Notation demo_reach := (sys_reach (R := Relation TimeSeriesFile) (fun _ => [])).

(** A step that changes the phase of the commit. *)
Lemma demo_next w ph ap lg w' ph' ap' lg' :
  demo_reach (demo_phase w ph ap lg) ->
  sys_step (demo_phase w ph ap lg) (mkSystem w' (<[tx_xid demo_tx := (demo_tx, ph')]> {[1 := (demo_tx, ph)]}) ap' lg') ->
  demo_reach (demo_phase w' ph' ap' lg').
Proof.
  intros Hr Hs. eapply sys_next; [exact Hr |]. unfold demo_phase at 2.
  rewrite <- (insert_singleton_eq 1 (demo_tx, ph') (demo_tx, ph)). exact Hs.
Qed.

Lemma demo_lookup ph : ({[1 := (demo_tx, ph)]} : gmap Z (WorkerTxManager * Phase)) !! tx_xid demo_tx = Some (demo_tx, ph).
Proof. apply lookup_singleton_eq. Qed.

Lemma demo_reach_locked : demo_reach (demo_phase demo_locked Locked [] []).
Proof.
  apply (demo_next demo_start Locking [] []).
  - apply (sys_next _ (mkSystem demo_start ∅ [] [])).
    + apply sys_new; [apply storage_rep_new | reflexivity].
    + apply (step_start demo_start ∅ [] [] demo_tx); [done | exact demo_tx_plain | vm_compute; reflexivity].
  - apply (step_acquired demo_start _ [] [] demo_tx (EvTry 0 1 (commit_keys demo_tx))); [apply demo_lookup | reflexivity | |].
    + intros xid t ph rk at_ [<- [= <- <-]]%lookup_singleton_Some Hcr. by destruct Hcr.
    + split; [done |]. split; [done |]. vm_compute. reflexivity.
Qed.

Lemma demo_reach_logged : demo_reach (demo_phase demo_logged (Logged [rel_part; kv_part]) [] [demo_tx]).
Proof.
  apply (demo_next demo_checked (Prepared demo_prepared) [] []).
  - apply (demo_next demo_locked Locked [] [] _ _ _ _ demo_reach_locked).
    apply (step_prepared demo_locked _ [] [] demo_tx demo_prepared); [apply demo_lookup |].
    unfold demo_checked. apply (ran_ok (on_storage (prepare_commit demo_tx) demo_locked)). vm_compute. reflexivity.
  - apply (step_logged demo_checked _ [] [] demo_tx demo_prepared); [apply demo_lookup | reflexivity].
Qed.

Lemma demo_reach_half : demo_reach (demo_phase demo_half (Logged [kv_part]) (part_writes 1 rel_part) [demo_tx]).
Proof.
  apply (demo_next _ _ _ _ _ _ _ _ demo_reach_logged).
  apply (step_applied demo_logged _ [] [demo_tx] demo_tx 0 rel_part [kv_part]); [apply demo_lookup | |].
  - intros _ rel ->%demo_rel_opened. exact rel_part_room.
  - change (tx_xid demo_tx) with 1. unfold demo_half.
    apply (ran_ok (on_storage (apply_part 0 1 rel_part) demo_logged)). vm_compute. reflexivity.
Qed.

Lemma demo_reach_done : demo_reach (demo_phase demo_done (Logged []) demo_applied [demo_tx]).
Proof.
  apply (demo_next _ _ _ _ _ _ _ _ demo_reach_half).
  apply (step_applied demo_half _ (part_writes 1 rel_part) [demo_tx] demo_tx 0 kv_part []); [apply demo_lookup | by intros [] |].
  change (tx_xid demo_tx) with 1. unfold demo_done.
  apply (ran_ok (on_storage (apply_part 0 1 kv_part) demo_half)). vm_compute. reflexivity.
Qed.

Lemma demo_sys_reach : demo_reach demo_system.
Proof.
  eapply sys_next; [exact demo_reach_done |].
  pose proof (step_finished demo_done {[1 := (demo_tx, Logged [])]} demo_applied [demo_tx] demo_tx _ _ (demo_lookup _)
    (surjective_pairing (commit_finish (tx_xid demo_tx) demo_tx demo_done))) as Hst.
  rewrite (delete_singleton_eq (M := gmap Z) 1) in Hst. exact Hst.
Qed.

(** *** Its witness *)

Definition demo_new : System (Relation TimeSeriesFile) := mkSystem demo_start ∅ [] [].

Lemma demo_new_reach : demo_reach demo_new.
Proof. apply sys_new; [apply storage_rep_new | reflexivity]. Qed.

Lemma demo_commit_room p w1 :
  on_storage (prepare_commit demo_tx) demo_start = (Ok p, w1) -> parts_room 0 (tx_xid demo_tx) (tx_parts demo_tx) (wx_storage w1).
Proof.
  intros E. assert (w1 = (on_storage (prepare_commit demo_tx) demo_start).2) as -> by (by rewrite E).
  replace (tx_parts demo_tx) with [rel_part; kv_part] by (vm_compute; reflexivity).
  split; [| intros s' _; split; [by intros [] | done]]. intros _ rel Hf.
  assert (st_relation_store (wx_storage (on_storage (prepare_commit demo_tx) demo_start).2) !! demo_relation = Some demo_rel0) as Es
    by (vm_compute; reflexivity).
  assert (rel = demo_rel0) as -> by (destruct Hf as [E' | [E' _]]; cbn [rel_part fst] in E'; rewrite Es in E'; [by injection E' | done]).
  exact rel_part_room.
Qed.

(** The commit by the code, and a state in the middle of it. *)
Lemma log_order_is_apply_order_witness :
  demo_reach (mkSystem (worker_commit_tx_with_lock_owner 0 demo_tx 1 demo_start).2 ∅ (tx_writes demo_tx) [demo_tx]) /\
  exists log, wx_log demo_half = Some log /\ storage_rep (fun _ => []) (wx_storage demo_half) (part_writes 1 rel_part) /\
    forall rk,
      versions_at (log_writes log) rk = versions_at (part_writes 1 rel_part) rk \/
      exists xid t rest,
        ({[1 := (demo_tx, Logged [kv_part])]} : gmap Z (WorkerTxManager * Phase)) !! xid = Some (t, Logged rest) /\ rk ∈ commit_keys t /\
        versions_at (log_writes log) rk = versions_at (part_writes 1 rel_part) rk ++ versions_at (parts_writes xid rest) rk.
Proof.
  split.
  - destruct (log_order_is_apply_order (fun _ => []) demo_new demo_opens eq_refl demo_new_reach) as [_ Hrun].
    apply (Hrun 0 demo_tx (Ok tt) _ eq_refl demo_tx_plain); [vm_compute; reflexivity | exact demo_commit_room | | reflexivity].
    apply (ran_ok (worker_commit_tx_with_lock_owner 0 demo_tx 1 demo_start)). vm_compute. reflexivity.
  - refine (proj1 _).
    exact (log_order_is_apply_order (fun _ => []) (demo_phase demo_half (Logged [kv_part]) (part_writes 1 rel_part) [demo_tx])
      demo_opens eq_refl demo_reach_half).
Defined.

(** *** A second transaction *)

(** It begins when the first one is done, and overwrites the item. *)
Definition demo_tx2 : WorkerTxManager :=
  mkWorkerTxManager (mkWorkerSnapshot 2 []) (run_requests [RPut [x01] [x0c]] WorkerTxState_new).2.

Definition demo_begun : Demo := (worker_begin_tx demo_ended).2.
Definition demo_locked2 : Demo := with_lock (try_lock_some 9 2 (commit_keys demo_tx2) (wx_tx_lock demo_begun)).2 demo_begun.
Definition demo_prepared2 : PreparedWorkerCommit := mkPreparedWorkerCommit 2 [] [] [([x01], Some [x0c])] (xl_batch demo_tx2).
Definition demo_checked2 : Demo := (on_storage (prepare_commit demo_tx2) demo_locked2).2.
Definition demo_logged2 : Demo := (append_batch (pc_batch demo_prepared2) demo_checked2).2.

Lemma demo_tx2_plain : tx_plain demo_tx2.
Proof.
  destruct (requests_plain (mkWorkerSnapshot 2 []) [RPut [x01] [x0c]]) with (s := WorkerTxState_new) as (st & E & Ht).
  - apply Forall_singleton. by vm_compute.
  - apply tx_plain_new.
  - unfold demo_tx2. by rewrite E.
Qed.

Definition demo_commits2 : gmap Z (WorkerTxManager * Phase) :=
  <[tx_xid demo_tx2 := (demo_tx2, Logged [(kv_relation, [([x01], Some [x0c])])])]>
  (<[tx_xid demo_tx2 := (demo_tx2, Prepared demo_prepared2)]>
  (<[tx_xid demo_tx2 := (demo_tx2, Locked)]> (<[tx_xid demo_tx2 := (demo_tx2, Locking)]> ∅))).

Definition demo_system2 : System (Relation TimeSeriesFile) :=
  mkSystem demo_logged2 demo_commits2 demo_applied [demo_tx; demo_tx2].

Lemma demo_sys_reach2 : demo_reach demo_system2.
Proof.
  assert (demo_reach (mkSystem demo_locked2 (<[tx_xid demo_tx2 := (demo_tx2, Locked)]> (<[tx_xid demo_tx2 := (demo_tx2, Locking)]> ∅))
    demo_applied [demo_tx])) as H1.
  { eapply sys_next; [eapply sys_next; [eapply sys_next; [exact demo_sys_reach |] |] |].
    - apply (step_begin demo_ended _ _ _ (WorkerTxManager_new (mkWorkerSnapshot 2 [])) demo_begun).
      unfold demo_begun. apply (ran_ok (worker_begin_tx demo_ended)). vm_compute. reflexivity.
    - apply (step_start demo_begun ∅ _ _ demo_tx2); [done | exact demo_tx2_plain | vm_compute; reflexivity].
    - apply (step_acquired demo_begun _ _ _ demo_tx2 (EvTry 9 2 (commit_keys demo_tx2))); [apply lookup_insert_eq | reflexivity | |].
      + intros xid t ph rk at_ [[_ [= _ <-]] | [_ Hx]]%lookup_insert_Some Hcr; [destruct Hcr; reflexivity |].
        rewrite lookup_empty in Hx. discriminate Hx.
      + split; [done |]. split; [done |]. vm_compute. reflexivity. }
  eapply sys_next; [eapply sys_next; [exact H1 |] |].
  - apply (step_prepared demo_locked2 _ _ _ demo_tx2 demo_prepared2 demo_checked2); [apply lookup_insert_eq |].
    unfold demo_checked2. apply (ran_ok (on_storage (prepare_commit demo_tx2) demo_locked2)). vm_compute. reflexivity.
  - apply (step_logged demo_checked2 _ _ [demo_tx] demo_tx2 demo_prepared2 demo_logged2); [apply lookup_insert_eq | reflexivity].
Qed.

Lemma first_committer_wins_witness :
  match last (versions_of [] [x01] ++ versions_at (log_writes (xl_batch <$> [demo_tx])) (kv_relation, [x01])) with
  | Some v => is_visible_to_snapshot (stamp v) (tm_snapshot demo_tx2) = true
  | None => True
  end.
Proof.
  apply (first_committer_wins (fun _ => []) demo_system2 [demo_tx] demo_tx2 [] (kv_relation, [x01]));
    [exact demo_opens | reflexivity | exact demo_sys_reach2 | reflexivity | | by right].
  replace (commit_keys demo_tx2) with [(kv_relation, [x01])] by (vm_compute; reflexivity). by left.
Defined.

(** *** A restart *)

Lemma demo_steps : log_steps worker_log = [(1, rel_part); (1, kv_part)].
Proof. vm_compute. reflexivity. Qed.

Lemma demo_steps_room : steps_room 0 (log_steps worker_log) (wx_storage (WorkerXContract_new 0 : Demo)).
Proof.
  rewrite demo_steps. split; [| intros s' _; split; [intros Hk; by destruct Hk | by intros]].
  intros _ rel [E | (_ & desc & _ & Eo)]; [discriminate E |].
  injection Eo as <-. exact rel_part_room.
Qed.

Lemma replay_restores_reads_witness :
  match replay_worker_log 0 worker_log (WorkerXContract_new 0 : Demo) with
  | (Ok tt, w1) => kv_get [x01] (Some (mkWorkerSnapshot 2 [])) (st_kv_store (wx_storage w1)) =
      kv_get [x01] (Some (mkWorkerSnapshot 2 [])) (st_kv_store (wx_storage demo_ended))
  | _ => False
  end.
Proof.
  assert (exists w1, replay_worker_log 0 worker_log (WorkerXContract_new 0 : Demo) = (Ok tt, w1)) as [w1 E].
  { eexists. apply (ran_ok (replay_worker_log 0 worker_log (WorkerXContract_new 0 : Demo)) tt). vm_compute. reflexivity. }
  assert (drained demo_system) as Hd by (intros xid t ph Hx; discriminate Hx).
  pose proof (replay_restores_reads demo_catalog demo_catalog (fun _ => []) demo_system 0 (WorkerXContract_new 0) worker_log
    demo_opens demo_sys_reach Hd eq_refl demo_opens (fun rk v Hv => False_ind _ (proj1 (elem_of_nil v) Hv)) (storage_rep_new _ 0) demo_steps_room) as Hc.
  rewrite E in Hc |- *. destruct Hc as (Hkv & _). apply (Hkv (Some (mkWorkerSnapshot 2 [])) (Some (mkSnapshot 2 2 2 []))). reflexivity.
Defined.
End WorkerDemo.
