(* ===== verification/Sessions.v ===== *)
(** * Sessions

    [server/worker_session_manager.rs] and the session operations of
    [server/worker.rs]: sessions belong to connections, hold at most one
    transaction, and run their reads and writes in it or, without one, as
    transactions of their own. *)

From S2P Require Import Prelude Errors LogFrame Snapshots Versions Histories XLocks BTree TxState KvStore Storage Worker.

Record SessionContext : Type := mkSessionContext {
  sc_tx_manager : option WorkerTxManager;
  sc_is_admin : bool;
}.

Record WorkerSessionManager : Type := mkWorkerSessionManager {
  wm_session_owner : gmap Z Z;
  wm_connection_sessions : gmap Z (gset Z);
  wm_session_contexts : gmap Z SessionContext;
  wm_active_sessions : Z;
}.

Definition WorkerSessionManager_new : WorkerSessionManager := mkWorkerSessionManager ∅ ∅ ∅ 0.

Notation SM := (ST ErrorCode WorkerSessionManager).

(** The atomic counter of active sessions wraps around. *)
Definition count_sessions (n : Z) (m : WorkerSessionManager) : Z := (wm_active_sessions m + n) mod 18446744073709551616.

(** The tries of [create_session_with_admin]: an id that [new_xid] returns, with
    the error of [SessionContext::new] for it, if there is one (it builds an
    SQL parser, which is a package). *)
Definition session_try : Type := Z * option ErrorCode.

Definition insert_session_owner (session_id conn_id : Z) : SM unit :=
  st_modify (fun m => mkWorkerSessionManager (<[session_id := conn_id]> (wm_session_owner m)) (wm_connection_sessions m)
    (wm_session_contexts m) (wm_active_sessions m)).

Definition remove_session_owner (session_id : Z) : SM unit :=
  st_modify (fun m => mkWorkerSessionManager (delete session_id (wm_session_owner m)) (wm_connection_sessions m)
    (wm_session_contexts m) (wm_active_sessions m)).

(** The session enters the contexts and the sessions of its connection, and is
    counted. *)
Definition insert_session (session_id conn_id : Z) (context : SessionContext) : SM unit :=
  st_modify (fun m => mkWorkerSessionManager (wm_session_owner m)
    (<[conn_id := {[session_id]} ∪ default ∅ (wm_connection_sessions m !! conn_id)]> (wm_connection_sessions m))
    (<[session_id := context]> (wm_session_contexts m))
    (count_sessions 1 m)).

(** [create_session_with_admin]: the loop goes on until an id is free, and
    [None] is a loop that has used up its tries.  The error of
    [SessionContext::new] leaves with the owner already inserted. *)
Fixpoint create_session_with_admin (conn_id : Z) (is_admin : bool) (tries : list session_try) : SM (option Z) :=
  match tries with
  | [] => mret None
  | (session_id, failure) :: tries =>
      m ← st_get;
      match wm_session_owner m !! session_id with
      | Some _ => create_session_with_admin conn_id is_admin tries
      | None =>
          insert_session_owner session_id conn_id ;;
          match failure with
          | Some e => st_lift (Err e)
          | None =>
              match wm_session_contexts m !! session_id with
              | Some _ => remove_session_owner session_id ;; create_session_with_admin conn_id is_admin tries
              | None => insert_session session_id conn_id (mkSessionContext None is_admin) ;; mret (Some session_id)
              end
          end
      end
  end.

Definition create_session (conn_id : Z) (tries : list session_try) : SM (option Z) := create_session_with_admin conn_id false tries.

(** What is left when the session is gone. *)
Definition remove_session (conn_id session_id : Z) (m : WorkerSessionManager) : WorkerSessionManager :=
  mkWorkerSessionManager (delete session_id (wm_session_owner m))
    (match wm_connection_sessions m !! conn_id with
     | Some sessions => <[conn_id := sessions ∖ {[session_id]}]> (wm_connection_sessions m)
     | None => wm_connection_sessions m
     end)
    (delete session_id (wm_session_contexts m))
    (count_sessions (-1) m).

Definition close_session (conn_id session_id : Z) : SM bool :=
  m ← st_get;
  match wm_session_owner m !! session_id with
  | Some owner_conn_id =>
      if owner_conn_id =? conn_id then st_put (remove_session conn_id session_id m) ;; mret true
      else st_lift (Err Transaction)
  | None => mret false
  end.

(** The body of the loop of [close_connection_sessions]. *)
Definition drop_session (session_id : Z) (m : WorkerSessionManager) : WorkerSessionManager :=
  mkWorkerSessionManager (delete session_id (wm_session_owner m)) (wm_connection_sessions m)
    (delete session_id (wm_session_contexts m))
    (match wm_session_owner m !! session_id with Some _ => count_sessions (-1) m | None => wm_active_sessions m end).

(** [close_connection_sessions]; the ids come in the order of the map. *)
Definition close_connection_sessions (conn_id : Z) : SM (list Z) :=
  m ← st_get;
  match wm_connection_sessions m !! conn_id with
  | Some session_ids =>
      let m := mkWorkerSessionManager (wm_session_owner m) (delete conn_id (wm_connection_sessions m))
                 (wm_session_contexts m) (wm_active_sessions m) in
      st_put (foldl (fun m session_id => drop_session session_id m) m (elements session_ids)) ;;
      mret (elements session_ids)
  | None => mret []
  end.

Definition conn_id_for_session (session_id : Z) : SM Z :=
  m ← st_get;
  match wm_session_owner m !! session_id with Some conn_id => mret conn_id | None => st_lift (Err EntityNotFound) end.

Definition open_session (session_id : Z) (tries : list session_try) : SM (option Z) :=
  conn_id ← conn_id_for_session session_id; create_session conn_id tries.

Definition close_session_by_id (session_id : Z) : SM unit :=
  conn_id ← conn_id_for_session session_id;
  closed ← close_session conn_id session_id;
  if (closed : bool) then mret tt else st_lift (Err EntityNotFound).

Definition session_context (session_id : Z) : SM SessionContext :=
  m ← st_get;
  match wm_session_contexts m !! session_id with Some context => mret context | None => st_lift (Err EntityNotFound) end.

Definition is_session_admin (session_id : Z) : SM bool :=
  context ← session_context session_id; mret (sc_is_admin context).

Definition ensure_session_owned_by_connection (conn_id session_id : Z) : SM unit :=
  m ← st_get;
  match wm_session_owner m !! session_id with
  | Some owner_conn_id => if owner_conn_id =? conn_id then mret tt else st_lift (Err Transaction)
  | None => st_lift (Err EntityNotFound)
  end.

Definition has_session_tx (session_id : Z) : SM bool :=
  context ← session_context session_id;
  mret (match sc_tx_manager context with Some _ => true | None => false end).

(** [set_tx_manager] of the context of a session. *)
Definition set_session_tx (session_id : Z) (context : SessionContext) (tx_mgr : option WorkerTxManager) : SM unit :=
  st_modify (fun m => mkWorkerSessionManager (wm_session_owner m) (wm_connection_sessions m)
    (<[session_id := mkSessionContext tx_mgr (sc_is_admin context)]> (wm_session_contexts m)) (wm_active_sessions m)).

Definition begin_session_tx (session_id : Z) (tx_mgr : WorkerTxManager) : SM unit :=
  context ← session_context session_id;
  match sc_tx_manager context with
  | Some _ => st_lift (Err EntityAlreadyExists)
  | None => set_session_tx session_id context (Some tx_mgr)
  end.

Definition take_session_tx (session_id : Z) : SM WorkerTxManager :=
  context ← session_context session_id;
  match sc_tx_manager context with
  | Some tx_mgr => set_session_tx session_id context None ;; mret tx_mgr
  | None => st_lift (Err EntityNotFound)
  end.

Definition staged_tx (stage : ST ErrorCode WorkerTxState unit) (tx_mgr : WorkerTxManager) : Res ErrorCode WorkerTxManager :=
  let (r, st) := stage (tm_state tx_mgr) in
  _ ← r; Ok (mkWorkerTxManager (tm_snapshot tx_mgr) st).

(** [with_session_tx] with a closure that stages into the transaction, when
    there is one; the result tells whether there is. *)
Definition stage_in_session (session_id : Z) (stage : ST ErrorCode WorkerTxState unit) : SM bool :=
  context ← session_context session_id;
  match sc_tx_manager context with
  | Some tx_mgr =>
      tx_mgr ← st_lift (staged_tx stage tx_mgr);
      set_session_tx session_id context (Some tx_mgr) ;;
      mret true
  | None => mret false
  end.

(** ** The worker *)

Inductive WorkerExecute : Type := BeginTx | CommitTx | RollbackTx.

Record SessionWorker (R : Type) : Type := mkSessionWorker {
  sw_session_manager : WorkerSessionManager;
  sw_contract : WorkerXContract R;
}.

Arguments mkSessionWorker {R} _ _.
Arguments sw_session_manager {R} _.
Arguments sw_contract {R} _.

Section session_worker.
Context {R TableDesc : Type} `{RelationOps R} `{Catalog R TableDesc} `{Msgpack DeltaWire}.

Notation SW := (ST ErrorCode (SessionWorker R)).

Definition on_sessions {A} (m : SM A) : SW A :=
  fun w => let (r, s) := m (sw_session_manager w) in (r, mkSessionWorker s (sw_contract w)).

Definition on_contract {A} (m : ST ErrorCode (WorkerXContract R) A) : SW A :=
  fun w => let (r, c) := m (sw_contract w) in (r, mkSessionWorker (sw_session_manager w) c).

(** [execute_tx_async], for transactions whose rows are all of this worker:
    then [worker_commit_routed_tx_async] is [worker_commit_tx_async], and an
    abort is a rollback. *)
Definition execute_tx (now session_id : Z) (instruction : WorkerExecute) : SW unit :=
  match instruction with
  | BeginTx =>
      tx_mgr ← on_contract worker_begin_tx;
      on_sessions (begin_session_tx session_id tx_mgr)
  | CommitTx =>
      tx_mgr ← on_sessions (take_session_tx session_id);
      on_contract (worker_commit_tx now tx_mgr)
  | RollbackTx =>
      tx_mgr ← on_sessions (take_session_tx session_id);
      on_contract (worker_rollback_tx tx_mgr)
  end.

Definition put_in_session (now session_id : Z) (key value : list byte) : SW unit :=
  handled ← on_sessions (stage_in_session session_id (tx_put key value));
  if (handled : bool) then mret tt else on_contract (worker_put now key value).

Definition delete_in_session (now session_id : Z) (key : list byte) : SW unit :=
  handled ← on_sessions (stage_in_session session_id (tx_delete key));
  if (handled : bool) then mret tt else on_contract (worker_delete now key).

Definition get_in_session (session_id : Z) (key : list byte) : SW (option (list byte)) :=
  context ← on_sessions (session_context session_id);
  match sc_tx_manager context with
  | Some tx_manager =>
      match tx_get key (tm_state tx_manager) with
      | Some value => mret value
      | None => on_contract (worker_get_with_snapshot (tm_snapshot tx_manager) key)
      end
  | None => on_contract (worker_get key)
  end.

Definition range_in_session (session_id : Z) (start_key end_key : list byte) : SW (list (list byte * list byte)) :=
  context ← on_sessions (session_context session_id);
  let staged := match sc_tx_manager context with
                | Some tx_manager => staged_items_in_range start_key end_key (tm_state tx_manager)
                | None => []
                end in
  base_items ← match sc_tx_manager context with
               | Some tx_manager => on_contract (worker_range_scan_with_snapshot (tm_snapshot tx_manager) start_key end_key)
               | None => on_contract (worker_range_scan start_key end_key)
               end;
  mret (merge_items base_items staged).

Definition get_for_connection (conn_id session_id : Z) (key : list byte) : SW (option (list byte)) :=
  on_sessions (ensure_session_owned_by_connection conn_id session_id) ;; get_in_session session_id key.

Definition put_for_connection (now conn_id session_id : Z) (key value : list byte) : SW unit :=
  on_sessions (ensure_session_owned_by_connection conn_id session_id) ;; put_in_session now session_id key value.

Definition range_for_connection (conn_id session_id : Z) (start_key end_key : list byte) : SW (list (list byte * list byte)) :=
  on_sessions (ensure_session_owned_by_connection conn_id session_id) ;; range_in_session session_id start_key end_key.

End session_worker.
