(* ===== verification/SessionProperties.v ===== *)
(** * Correctness of sessions

    The tables of the session manager agree with each other whatever happens,
    and a session sees its own writes over its snapshot. *)

From S2P Require Import Prelude Errors LogFrame PlCodec Snapshots Versions Histories XLocks BTree TxState KvStore Storage StorageProperties Worker Sessions.

(** ** The tables of the manager *)

(** What holds whatever happens: a session with a context has an owner, and a
    connection lists its sessions that have one. *)
Record sessions_wf (m : WorkerSessionManager) : Prop := mk_sessions_wf {
  wf_contexts : forall sid, wm_session_owner m !! sid = None -> wm_session_contexts m !! sid = None;
  wf_connections : forall sid conn,
    sid ∈ default ∅ (wm_connection_sessions m !! conn) <->
    wm_session_owner m !! sid = Some conn /\ is_Some (wm_session_contexts m !! sid);
  wf_txs : forall sid context tx, wm_session_contexts m !! sid = Some context -> sc_tx_manager context = Some tx ->
    tx_inv (tm_state tx);
}.

(** And what holds as long as every context is made. *)
Record sessions_full (m : WorkerSessionManager) : Prop := mk_sessions_full {
  full_contexts : forall sid, is_Some (wm_session_owner m !! sid) -> is_Some (wm_session_contexts m !! sid);
  full_count : wm_active_sessions m = Z.of_nat (size (wm_session_owner m)) mod 18446744073709551616;
}.

Lemma count_mod (n k x : Z) : x = n mod 18446744073709551616 -> (x + k) mod 18446744073709551616 = (n + k) mod 18446744073709551616.
Proof. intros ->. by rewrite Zplus_mod_idemp_l. Qed.

Lemma sessions_wf_new : sessions_wf WorkerSessionManager_new.
Proof.
  split; cbn.
  - done.
  - intros sid conn. rewrite !lookup_empty. cbn. split; [set_solver | by intros []].
  - intros sid context tx. by rewrite lookup_empty.
Qed.

Lemma sessions_full_new : sessions_full WorkerSessionManager_new.
Proof. split; [| done]. intros sid. cbn. rewrite lookup_empty. by intros []. Qed.

(** The result of [create_session_with_admin]: the first try whose id is free. *)
Definition taken (m : WorkerSessionManager) (t : session_try) : Prop := is_Some (wm_session_owner m !! t.1).

Definition made_session (conn_id : Z) (is_admin : bool) (t : session_try) (m : WorkerSessionManager) : WorkerSessionManager :=
  let m := (insert_session_owner t.1 conn_id m).2 in
  match t.2 with
  | Some _ => m
  | None => (insert_session t.1 conn_id (mkSessionContext None is_admin) m).2
  end.

Lemma create_session_taken conn is_admin tries m :
  Forall (taken m) tries -> create_session_with_admin conn is_admin tries m = (Ok None, m).
Proof.
  induction 1 as [| [sid failure] tries [c Ec] _ IH]; [done |]. cbn [create_session_with_admin].
  unfold mbind, st_bind, st_get. cbn in Ec. by rewrite Ec.
Qed.

Lemma create_session_free conn is_admin t rest m : forall tries,
  sessions_wf m -> Forall (taken m) tries -> wm_session_owner m !! t.1 = None ->
  create_session_with_admin conn is_admin (tries ++ t :: rest) m =
    (match t.2 with Some e => Err e | None => Ok (Some t.1) end, made_session conn is_admin t m).
Proof.
  intros tries Wf Ht Ho. destruct t as [sid failure]. cbn [fst snd] in *.
  induction Ht as [| [x f] tries [c Ec] _ IH]; cbn [app create_session_with_admin]; unfold mbind, st_bind, st_get.
  - rewrite Ho. cbn. destruct failure; [done |]. by rewrite (wf_contexts _ Wf sid Ho).
  - cbn in Ec. by rewrite Ec.
Qed.

Lemma first_free (m : WorkerSessionManager) (tries : list session_try) :
  Forall (taken m) tries \/
  exists before t rest, tries = before ++ t :: rest /\ Forall (taken m) before /\ wm_session_owner m !! t.1 = None.
Proof.
  induction tries as [| t tries IH]; [by left |]. destruct (wm_session_owner m !! t.1) eqn:Eo.
  - destruct IH as [IH | (b & t' & rest & -> & Hb & Ht)].
    + left. constructor; [by exists z | done].
    + right. exists (t :: b), t', rest. split; [done |]. split; [| done]. constructor; [by exists z | done].
  - right. by exists [], t, tries.
Qed.

Lemma made_session_wf conn is_admin t m :
  sessions_wf m -> wm_session_owner m !! t.1 = None -> sessions_wf (made_session conn is_admin t m).
Proof.
  intros [Wc Wn Wt] Ho. destruct t as [sid failure]. cbn in Ho. pose proof (Wc _ Ho) as Hc.
  destruct failure; unfold made_session; cbn; split; cbn.
  - intros x [Hx _]%lookup_insert_None. by apply Wc.
  - intros x c. rewrite Wn, lookup_insert_Some. split; intros [Hx Hs]; (split; [| done]).
    + right. split; [congruence | done].
    + destruct Hx as [[<- _] | [_ Hx]]; [| done]. rewrite Hc in Hs. by destruct Hs.
  - done.
  - intros x. rewrite !lookup_insert_None. naive_solver.
  - intros x c. rewrite lookup_insert_Some. destruct (decide (x = sid)) as [-> | Hx].
    + rewrite lookup_insert_eq. destruct (decide (c = conn)) as [-> | Hc'].
      * rewrite lookup_insert_eq. cbn. split; [by eauto | set_solver].
      * rewrite lookup_insert_ne, Wn, Ho by done. naive_solver.
    + rewrite (lookup_insert_ne (wm_session_contexts m)) by done. destruct (decide (c = conn)) as [-> | Hc'].
      * rewrite lookup_insert_eq. cbn. rewrite elem_of_union, elem_of_singleton, Wn. naive_solver.
      * rewrite lookup_insert_ne, Wn by done. naive_solver.
  - intros x context tx. rewrite lookup_insert_Some. intros [[_ <-] | [_ Hx]]; [done | by eapply Wt].
Qed.

Lemma made_session_full conn is_admin sid m :
  sessions_full m -> wm_session_owner m !! sid = None -> sessions_full (made_session conn is_admin (sid, None) m).
Proof.
  intros [Fc Fk] Ho. split; cbn.
  - intros x. rewrite !lookup_insert_is_Some'. naive_solver.
  - unfold count_sessions. cbn. rewrite (count_mod _ _ _ Fk), map_size_insert_None by done. f_equal. lia.
Qed.

Lemma create_session_wf conn is_admin tries m :
  sessions_wf m ->
  let (res, m') := create_session_with_admin conn is_admin tries m in
  sessions_wf m' /\ res <> Panic /\ (Forall (fun t => t.2 = None) tries -> sessions_full m -> sessions_full m').
Proof.
  intros Wf. destruct (first_free m tries) as [Ht | (b & t & rest & -> & Hb & Ho)].
  - by rewrite create_session_taken.
  - rewrite create_session_free by done. split_and!.
    + by apply made_session_wf.
    + by destruct (t.2).
    + intros Hmade Hf. apply Forall_app in Hmade as [_ [Hm _]%Forall_cons]. destruct t as [sid failure]. cbn in Hm. subst failure.
      by apply made_session_full.
Qed.

Lemma size_delete_count (o : gmap Z Z) sid c x :
  o !! sid = Some c -> x = Z.of_nat (size o) mod 18446744073709551616 ->
  (x + -1) mod 18446744073709551616 = Z.of_nat (size (delete sid o)) mod 18446744073709551616.
Proof.
  intros Eo Hx. rewrite (count_mod _ _ _ Hx), map_size_delete, Eo. f_equal.
  assert (size o <> 0%nat) by (intros ->%map_size_empty_inv; by rewrite lookup_empty in Eo). lia.
Qed.

Lemma delete_full (o : gmap Z Z) (cs : gmap Z SessionContext) sid x :
  (forall y, is_Some (o !! y) -> is_Some (cs !! y)) -> is_Some (delete sid o !! x) -> is_Some (delete sid cs !! x).
Proof. intros Fc. rewrite !lookup_delete_is_Some. naive_solver. Qed.

Lemma remove_session_wf m conn sid :
  sessions_wf m -> wm_session_owner m !! sid = Some conn -> sessions_wf (remove_session conn sid m).
Proof.
  intros [Wc Wn Wt] Eo. split; cbn.
  - intros x. rewrite !lookup_delete_None. naive_solver.
  - intros x c. rewrite lookup_delete_Some, lookup_delete_is_Some.
    transitivity (x ∈ default ∅ (wm_connection_sessions m !! c) /\ x <> sid); [| rewrite Wn; naive_solver].
    destruct (wm_connection_sessions m !! conn) as [ss |] eqn:Es.
    + destruct (decide (c = conn)) as [-> | Hc]; [rewrite lookup_insert_eq, Es; cbn; set_solver |].
      rewrite lookup_insert_ne by done. split; [| by intros []]. intros Hx. split; [done |]. intros ->. apply Wn in Hx as [Hx _]. congruence.
    + split; [| by intros []]. intros Hx. split; [done |]. intros ->. pose proof Hx as [Ho _]%Wn. rewrite Eo in Ho. injection Ho as <-.
      rewrite Es in Hx. set_solver.
  - intros x context tx. rewrite lookup_delete_Some. intros [_ Hx]. by eapply Wt.
Qed.

Lemma remove_session_full m conn sid :
  sessions_full m -> wm_session_owner m !! sid = Some conn -> sessions_full (remove_session conn sid m).
Proof.
  intros [Fc Fk] Eo. split; cbn.
  - intros x. by apply delete_full.
  - by eapply size_delete_count.
Qed.

(** The sessions of a connection that is gone are dropped one by one. *)
Definition wf_but (pending : list Z) (conn : Z) (m : WorkerSessionManager) : Prop :=
  (forall sid, wm_session_owner m !! sid = None -> wm_session_contexts m !! sid = None) /\
  (forall sid c, sid ∈ default ∅ (wm_connection_sessions m !! c) \/ c = conn /\ sid ∈ pending <->
     wm_session_owner m !! sid = Some c /\ is_Some (wm_session_contexts m !! sid)) /\
  wm_connection_sessions m !! conn = None /\
  (forall sid context tx, wm_session_contexts m !! sid = Some context -> sc_tx_manager context = Some tx -> tx_inv (tm_state tx)).

Lemma drop_session_wf sid pending conn m :
  sid ∉ pending -> wf_but (sid :: pending) conn m ->
  wf_but pending conn (drop_session sid m) /\ (sessions_full m -> sessions_full (drop_session sid m)).
Proof.
  intros Hn (Wc & Wn & Wg & Wt).
  assert (wm_session_owner m !! sid = Some conn /\ is_Some (wm_session_contexts m !! sid)) as [Eo _]
    by (apply Wn; right; split; [done | by left]).
  split.
  - split_and!; cbn [drop_session wm_session_owner wm_session_contexts wm_connection_sessions].
    + intros x. rewrite !lookup_delete_None. naive_solver.
    + intros x c. rewrite lookup_delete_Some, lookup_delete_is_Some.
      transitivity ((x ∈ default ∅ (wm_connection_sessions m !! c) \/ c = conn /\ x ∈ sid :: pending) /\ x <> sid); [| rewrite Wn; naive_solver].
      rewrite elem_of_cons. split; [| naive_solver]. intros Hx. split; [naive_solver |]. intros ->. destruct Hx as [Hx | [_ Hx]]; [| done].
      assert (wm_session_owner m !! sid = Some c) as Ec by (apply Wn; by left). rewrite Eo in Ec. injection Ec as <-.
      rewrite Wg in Hx. set_solver.
    + done.
    + intros x context tx. rewrite lookup_delete_Some. intros [_ Hx]. by eapply Wt.
  - intros [Fc Fk]. split; cbn.
    + intros x. by apply delete_full.
    + rewrite Eo. by eapply size_delete_count.
Qed.

Lemma drop_sessions_wf conn : forall pending m,
  NoDup pending -> wf_but pending conn m ->
  let m' := foldl (fun m sid => drop_session sid m) m pending in
  wf_but [] conn m' /\ (sessions_full m -> sessions_full m') /\
  forall sid, wm_session_owner m' !! sid = if decide (sid ∈ pending) then None else wm_session_owner m !! sid.
Proof.
  induction pending as [| x pending IH]; intros m Hnd Wf; [done |]. apply NoDup_cons in Hnd as [Hn Hnd].
  destruct (drop_session_wf _ _ _ _ Hn Wf) as [Wf1 Hf1]. destruct (IH _ Hnd Wf1) as (Wf2 & Hf2 & Ho). cbn [foldl].
  split; [done |]. split; [by auto |]. intros sid. rewrite Ho. cbn. destruct (decide (sid = x)) as [-> | Hx].
  - rewrite lookup_delete_eq, (decide_True (P := x ∈ x :: pending)) by (by left). by destruct (decide _).
  - rewrite lookup_delete_ne by done. destruct (decide (sid ∈ pending)); [by rewrite decide_True by (by right) |].
    by rewrite decide_False by (rewrite elem_of_cons; naive_solver).
Qed.

Lemma close_connection_wf conn m :
  sessions_wf m ->
  let (res, m') := close_connection_sessions conn m in
  sessions_wf m' /\ res <> Panic /\ (sessions_full m -> sessions_full m') /\
  forall sid, wm_session_owner m' !! sid = Some conn <-> wm_session_owner m !! sid = Some conn /\ wm_session_contexts m !! sid = None.
Proof.
  intros [Wc Wn Wt]. unfold close_connection_sessions, mbind, st_bind, st_get.
  destruct (wm_connection_sessions m !! conn) as [ss |] eqn:Es; cbn [st_put].
  - set (m0 := mkWorkerSessionManager _ _ _ _).
    assert (wf_but (elements ss) conn m0) as W0.
    { split; [done |]. split; [| split; [apply lookup_delete_eq | done]]. intros sid c. cbn. rewrite <- Wn. destruct (decide (c = conn)) as [-> | Hc].
      - rewrite Es, lookup_delete_eq. cbn. rewrite elem_of_elements. set_solver.
      - rewrite lookup_delete_ne by done. naive_solver. }
    destruct (drop_sessions_wf conn _ _ (NoDup_elements ss) W0) as ((Wc' & Wn' & Wg' & Wt') & Hf & Ho). split_and!.
    + split; [done | | done]. intros sid c. rewrite <- Wn'. set_solver.
    + done.
    + intros [Fc Fk]. apply Hf. by split.
    + intros sid. rewrite Ho. specialize (Wn sid conn). rewrite Es in Wn. cbn in Wn. cbn [m0 wm_session_owner].
      destruct (decide (sid ∈ elements ss)) as [Hin%elem_of_elements | Hin]; rewrite ?elem_of_elements in Hin.
      * split; [done |]. intros [_ Hc]. apply Wn in Hin as [_ []]. congruence.
      * split; [| by intros []]. intros Hs. split; [done |]. apply eq_None_not_Some. naive_solver.
  - split_and!; [by split | done | done |]. intros sid. specialize (Wn sid conn). rewrite Es in Wn. cbn in Wn.
    split; [| by intros []]. intros Hs. split; [done |]. apply eq_None_not_Some. intros Hc. set_solver.
Qed.

(** The transaction of a session changes. *)
Lemma set_tx_wf sid context tx m :
  sessions_wf m -> wm_session_contexts m !! sid = Some context ->
  (forall t, tx = Some t -> tx_inv (tm_state t)) ->
  sessions_wf (set_session_tx sid context tx m).2 /\ (sessions_full m -> sessions_full (set_session_tx sid context tx m).2).
Proof.
  intros [Wc Wn Wt] Ec Ht.
  assert (forall x c, <[sid := c]> (wm_session_contexts m) !! x = None <-> wm_session_contexts m !! x = None) as Hn.
  { intros x c. rewrite lookup_insert_None. naive_solver. }
  split; [split | intros [Fc Fk]; split]; cbn; try done.
  - intros x Hx. by apply Hn, Wc.
  - intros x c. by rewrite Wn, <- !not_eq_None_Some, Hn.
  - intros x c t. rewrite lookup_insert_Some. intros [[_ <-] | [_ Hx]]; [apply Ht | by eapply Wt].
  - intros x Hx. rewrite <- not_eq_None_Some, Hn, not_eq_None_Some. by apply Fc.
Qed.

(** The requests to the manager. *)
Inductive session_op : Type :=
| SoCreate (conn_id : Z) (is_admin : bool) (tries : list session_try)
| SoOpen (session_id : Z) (tries : list session_try)
| SoClose (conn_id session_id : Z)
| SoCloseById (session_id : Z)
| SoCloseConnection (conn_id : Z)
| SoBegin (session_id : Z) (snapshot : WorkerSnapshot)
| SoTake (session_id : Z)
| SoStage (session_id : Z) (key : list byte) (value : option (list byte)).

Definition stage_kv (key : list byte) (value : option (list byte)) : ST ErrorCode WorkerTxState unit :=
  match value with Some value => tx_put key value | None => tx_delete key end.

Definition run_session_op (op : session_op) : SM unit :=
  match op with
  | SoCreate conn_id is_admin tries => create_session_with_admin conn_id is_admin tries ;; mret tt
  | SoOpen session_id tries => open_session session_id tries ;; mret tt
  | SoClose conn_id session_id => close_session conn_id session_id ;; mret tt
  | SoCloseById session_id => close_session_by_id session_id
  | SoCloseConnection conn_id => close_connection_sessions conn_id ;; mret tt
  | SoBegin session_id snapshot => begin_session_tx session_id (WorkerTxManager_new snapshot)
  | SoTake session_id => take_session_tx session_id ;; mret tt
  | SoStage session_id key value => stage_in_session session_id (stage_kv key value) ;; mret tt
  end.

(** The contexts of the request are all made. *)
Definition contexts_made (op : session_op) : Prop :=
  match op with SoCreate _ _ tries | SoOpen _ tries => Forall (fun t => t.2 = None) tries | _ => True end.

Lemma stage_kv_step key value s :
  tx_inv s -> exists s', stage_kv key value s = (Ok tt, s') /\ staged_ok (kv_relation, key) value s s'.
Proof. intros Hi. destruct value; by apply stage_kv_ok. Qed.

Lemma session_op_wf op m :
  sessions_wf m ->
  let (res, m') := run_session_op op m in
  sessions_wf m' /\ res <> Panic /\ (contexts_made op -> sessions_full m -> sessions_full m').
Proof.
  intros Wf. destruct op as [conn adm tries | sid tries | conn sid | sid | conn | sid snapshot | sid | sid key value];
    cbn [run_session_op contexts_made]; unfold open_session, create_session, close_session_by_id, close_session, conn_id_for_session, begin_session_tx,
      take_session_tx, stage_in_session, session_context, mbind, st_bind, st_get.
  - pose proof (create_session_wf conn adm tries m Wf) as Hc. destruct (create_session_with_admin conn adm tries m) as [[x | e |] m1]; naive_solver.
  - destruct (wm_session_owner m !! sid) as [conn |]; [| done]. cbn.
    pose proof (create_session_wf conn false tries m Wf) as Hc. destruct (create_session_with_admin conn false tries m) as [[x | e |] m1]; naive_solver.
  - destruct (wm_session_owner m !! sid) as [c |] eqn:Eo; [| done]. destruct (Z.eqb_spec c conn) as [-> |]; [| done].
    cbn. split_and!; [by apply remove_session_wf | done | intros _ Hf; by apply remove_session_full].
  - destruct (wm_session_owner m !! sid) as [c |] eqn:Eo; cbn; [| done]. rewrite Eo, Z.eqb_refl. cbn.
    split_and!; [by apply remove_session_wf | done | intros _ Hf; by apply remove_session_full].
  - pose proof (close_connection_wf conn m Wf) as Hc. destruct (close_connection_sessions conn m) as [[x | e |] m1]; naive_solver.
  - destruct (wm_session_contexts m !! sid) as [c |] eqn:Ec; cbn; [| done].
    destruct (sc_tx_manager c); [done |].
    destruct (set_tx_wf sid c (Some (WorkerTxManager_new snapshot)) m) as [W F]; [done | done | intros t [= <-]; apply tx_plain_new | by auto].
  - destruct (wm_session_contexts m !! sid) as [c |] eqn:Ec; cbn; [| done].
    destruct (sc_tx_manager c); [| done]. destruct (set_tx_wf sid c None m) as [W F]; by auto.
  - destruct (wm_session_contexts m !! sid) as [c |] eqn:Ec; cbn; [| done].
    destruct (sc_tx_manager c) as [t |] eqn:Et; [| done].
    destruct (stage_kv_step key value _ (wf_txs _ Wf _ _ _ Ec Et)) as (st & E & Hst & _). unfold staged_tx. rewrite E. cbn.
    destruct (set_tx_wf sid c (Some (mkWorkerTxManager (tm_snapshot t) st)) m) as [W F]; [done | done | by intros t' [= <-] | by auto].
Qed.

Definition run_session_ops (ops : list session_op) : WorkerSessionManager :=
  foldl (fun m op => (run_session_op op m).2) WorkerSessionManager_new ops.

Lemma session_ops_wf ops :
  sessions_wf (run_session_ops ops) /\ (Forall contexts_made ops -> sessions_full (run_session_ops ops)).
Proof.
  unfold run_session_ops. pose proof sessions_wf_new as Wf. pose proof sessions_full_new as Ff. revert Wf Ff. generalize WorkerSessionManager_new.
  assert (forall m, sessions_wf m -> sessions_wf (foldl (fun m op => (run_session_op op m).2) m ops) /\
    (Forall contexts_made ops -> sessions_full m -> sessions_full (foldl (fun m op => (run_session_op op m).2) m ops))) as Hall.
  { induction ops as [| op ops IH]; intros m Wf; [done |]. cbn [foldl]. pose proof (session_op_wf op m Wf) as Hop.
    destruct (run_session_op op m) as [r m1]. destruct Hop as (W1 & _ & F1). destruct (IH m1 W1) as [W2 F2].
    split; [done |]. intros [Ho Hos]%Forall_cons Hf. by auto. }
  intros m Wf Ff. destruct (Hall m Wf) as [W F]. by auto.
Qed.

(** C23: The tables of the session manager after any requests, refused and
    failed ones included.  A session with a context has an owner, a connection
    lists exactly the sessions it owns that have a context, every staged write
    set is well-formed, and no request panics.  A creation takes the first id
    that is free: when the context is made, the session has both; when making
    it fails, the error is returned and the owner stays without a context, and
    closing the connection later removes all its sessions but these.  As long
    as no context has failed, every owner has a context and the counter is the
    number of sessions. *)
Theorem sessions_consistent ops :
  let m := run_session_ops ops in
  (forall sid, wm_session_owner m !! sid = None -> wm_session_contexts m !! sid = None) /\
  (forall sid conn, sid ∈ default ∅ (wm_connection_sessions m !! conn) <->
     wm_session_owner m !! sid = Some conn /\ is_Some (wm_session_contexts m !! sid)) /\
  (forall sid context tx, wm_session_contexts m !! sid = Some context -> sc_tx_manager context = Some tx ->
     tx_inv (tm_state tx)) /\
  (forall op, (run_session_op op m).1 <> Panic) /\
  (forall conn is_admin before sid failure after,
     Forall (fun t => is_Some (wm_session_owner m !! t.1)) before -> wm_session_owner m !! sid = None ->
     exists m', create_session_with_admin conn is_admin (before ++ (sid, failure) :: after) m =
         (match failure with Some e => Err e | None => Ok (Some sid) end, m') /\
       wm_session_owner m' = <[sid := conn]> (wm_session_owner m) /\
       wm_session_contexts m' !! sid = (match failure with Some _ => None | None => Some (mkSessionContext None is_admin) end)) /\
  (forall conn sid, wm_session_owner (close_connection_sessions conn m).2 !! sid = Some conn <->
     wm_session_owner m !! sid = Some conn /\ wm_session_contexts m !! sid = None) /\
  (Forall contexts_made ops ->
     (forall sid, is_Some (wm_session_owner m !! sid) -> is_Some (wm_session_contexts m !! sid)) /\
     wm_active_sessions m = Z.of_nat (size (wm_session_owner m)) mod 18446744073709551616).
Proof.
  destruct (session_ops_wf ops) as [Wf Ff]. cbn zeta. split_and!; try apply Wf.
  - intros op. pose proof (session_op_wf op _ Wf) as Hop. destruct (run_session_op op _) as [r m1]. apply Hop.
  - intros conn adm before sid failure after Hb Hsid. eexists. split; [by rewrite (create_session_free _ _ (sid, failure)) |].
    destruct failure; (split; [done |]); cbn; [by apply Wf | apply lookup_insert_eq].
  - intros conn sid. pose proof (close_connection_wf conn _ Wf) as Hc. destruct (close_connection_sessions conn _) as [r m1]. by apply Hc.
  - intros Hm. destruct (Ff Hm) as [Fc Fk]. by split.
Qed.

(** ** Reads and writes of a session *)

Section session_writes.
Context {R TableDesc : Type} `{RelationOps R} `{Catalog R TableDesc} `{Msgpack DeltaWire}.

Implicit Types w : SessionWorker R.

(** A put or a delete of a session. *)
Definition write_in_session (now session_id : Z) (p : list byte * option (list byte)) : ST ErrorCode (SessionWorker R) unit :=
  match p.2 with
  | Some value => put_in_session now session_id p.1 value
  | None => delete_in_session now session_id p.1
  end.

Fixpoint writes_in_session (now session_id : Z) (ps : list (list byte * option (list byte))) : ST ErrorCode (SessionWorker R) unit :=
  match ps with
  | [] => mret tt
  | p :: ps => write_in_session now session_id p ;; writes_in_session now session_id ps
  end.

(** The session [sid] is in the transaction [tx]. *)
Definition in_tx w (sid : Z) (tx : WorkerTxManager) : Prop :=
  exists context, wm_session_contexts (sw_session_manager w) !! sid = Some context /\ sc_tx_manager context = Some tx.

(** What the last of the writes left of a key. *)
Definition last_put (ps : list (list byte * option (list byte))) (key : list byte) (before : option (option (list byte)))
    : option (option (list byte)) :=
  foldl (fun v p => if decide (p.1 = key) then Some p.2 else v) before ps.

(** From [w] to [w'] nothing changed but the transaction of the session. *)
Definition only_session (sid : Z) w w' : Prop :=
  sw_contract w' = sw_contract w /\
  wm_session_owner (sw_session_manager w') = wm_session_owner (sw_session_manager w) /\
  forall sid', sid' <> sid -> wm_session_contexts (sw_session_manager w') !! sid' = wm_session_contexts (sw_session_manager w) !! sid'.

Lemma write_in_session_ok now sid p w tx :
  in_tx w sid tx -> tx_inv (tm_state tx) ->
  exists w' tx', write_in_session now sid p w = (Ok tt, w') /\ in_tx w' sid tx' /\ tx_inv (tm_state tx') /\
    tm_snapshot tx' = tm_snapshot tx /\ only_session sid w w' /\
    forall key, tx_get key (tm_state tx') = if decide (p.1 = key) then Some p.2 else tx_get key (tm_state tx).
Proof.
  intros (c & Ec & Et) Hi. destruct (stage_kv_step p.1 p.2 _ Hi) as (st & E & Hi' & Hst & _).
  set (tx' := mkWorkerTxManager (tm_snapshot tx) st).
  set (w' := mkSessionWorker (set_session_tx sid c (Some tx') (sw_session_manager w)).2 (sw_contract w)).
  exists w', tx'. assert (on_sessions (stage_in_session sid (stage_kv p.1 p.2)) w = (Ok true, w')) as Hs.
  { unfold on_sessions, stage_in_session, session_context, mbind, st_bind, st_get. rewrite Ec. cbn. rewrite Et. unfold staged_tx. by rewrite E. }
  split_and!.
  - unfold write_in_session, put_in_session, delete_in_session, stage_kv in *. destruct p as [k [v |]]; cbn [fst snd] in *; by st_step by exact Hs.
  - exists (mkSessionContext (Some tx') (sc_is_admin c)). split; [apply lookup_insert_eq | done].
  - done.
  - done.
  - split; [done |]. split; [done |]. intros sid' Hne. cbn. by rewrite lookup_insert_ne.
  - intros key. specialize (Hst (kv_relation, key)). unfold staged_at in Hst. rewrite !decide_True in Hst by done. cbn [snd] in Hst.
    cbn [tx' tm_state]. rewrite Hst. destruct (decide (p.1 = key)) as [-> | Hne]; [by rewrite decide_True | by rewrite decide_False by congruence].
Qed.

Lemma writes_in_session_ok now sid ps : forall w tx,
  in_tx w sid tx -> tx_inv (tm_state tx) ->
  exists w' tx', writes_in_session now sid ps w = (Ok tt, w') /\ in_tx w' sid tx' /\ tx_inv (tm_state tx') /\
    tm_snapshot tx' = tm_snapshot tx /\ only_session sid w w' /\
    forall key, tx_get key (tm_state tx') = last_put ps key (tx_get key (tm_state tx)).
Proof.
  induction ps as [| p ps IH]; intros w tx Hin Hi.
  { exists w, tx. split_and!; try done. }
  destruct (write_in_session_ok now sid p w tx Hin Hi) as (w1 & tx1 & E1 & Hin1 & Hi1 & Hs1 & (O1 & O2 & O3) & Hg1).
  destruct (IH w1 tx1 Hin1 Hi1) as (w2 & tx2 & E2 & Hin2 & Hi2 & Hs2 & (P1 & P2 & P3) & Hg2).
  exists w2, tx2. split_and!; [| done | done | congruence | |].
  - cbn [writes_in_session]. st_step by exact E1. exact E2.
  - split; [congruence |]. split; [congruence |]. intros sid' Hne. by rewrite P3, O3.
  - intros key. rewrite Hg2, Hg1. done.
Qed.

Lemma kv_in_range_eq start_key end_key key : is_key_in_range key start_key end_key = kv_in_range start_key end_key key.
Proof. unfold is_key_in_range, kv_in_range. case_bool_decide; cbn; [by rewrite andb_true_r | done]. Qed.

(** C22: A session sees its own writes over its snapshot.  In a transaction, any
    puts and deletes succeed and change nothing but the staged writes of this
    session; afterwards a read gives what the last of them left of the key,
    and what the snapshot shows of all other keys; and a range read gives
    exactly the keys of the range that such reads find, in order. *)
Theorem session_sees_its_writes now sid ps w tx ws sn :
  in_tx w sid tx -> tx_inv (tm_state tx) -> kv_rep (st_kv_store (wx_storage (sw_contract w))) ws ->
  Forall row_write_ok ws -> to_snapshot (tm_snapshot tx) = Ok sn ->
  let seen key := match last_put ps key (tx_get key (tm_state tx)) with
                  | Some value => value
                  | None => live_value (reader (Some sn) (versions_of ws key))
                  end in
  exists w', writes_in_session now sid ps w = (Ok tt, w') /\ only_session sid w w' /\
    (forall key, get_in_session sid key w' = (Ok (seen key), w')) /\
    forall start_key end_key, exists items, range_in_session sid start_key end_key w' = (Ok items, w') /\
      StronglySorted (fun a b => ord_cmp a.1 b.1 = Lt) items /\
      forall key value, (key, value) ∈ items <-> kv_in_range start_key end_key key = true /\ seen key = Some value.
Proof.
  intros Hin Hi Hkv Hok Hsn seen.
  destruct (writes_in_session_ok now sid ps w tx Hin Hi) as (w' & tx' & E & (c & Ec & Et) & Hi' & Hs & Ho & Hg).
  exists w'. pose proof Ho as (Oc & _). split; [done |]. split; [done |].
  assert (forall key, kv_get key (Some (tm_snapshot tx')) (st_kv_store (wx_storage (sw_contract w'))) =
    Ok (live_value (reader (Some sn) (versions_of ws key)))) as Hget.
  { intros key. rewrite Oc, Hs. by apply kv_get_ok. }
  assert (on_sessions (R := R) (session_context sid) w' = (Ok c, w')) as Hc.
  { unfold on_sessions, session_context, mbind, st_bind, st_get. rewrite Ec. by destruct w'. }
  split.
  - intros key. unfold get_in_session. st_step by exact Hc. rewrite Et, Hg. unfold seen.
    destruct (last_put ps key _); [done |]. unfold on_contract, worker_get_with_snapshot. rewrite Hget. by destruct w'.
  - intros a b. destruct (kv_range_ok _ ws (Some (tm_snapshot tx')) (Some sn) a b Hkv Hok) as (items & Er & Hsorted & Hitems); [by rewrite Hs |].
    rewrite <- Oc in Er.
    assert (bt_wf (staged_items_in_range a b (tm_state tx'))) as Hst by apply bt_filter_wf, Hi'.
    destruct (merge_items_ok items (staged_items_in_range a b (tm_state tx')) Hsorted Hst) as [Hm1 Hm2].
    eexists. split; [| split; [exact Hm1 |]].
    + unfold range_in_session. st_step by exact Hc. rewrite Et.
      st_step by (unfold on_contract, worker_range_scan_with_snapshot; rewrite Er; reflexivity). by destruct w'.
    + intros key value. rewrite Hm2. unfold seen. rewrite <- Hg. unfold tx_get.
      assert (forall v, bt_get key (staged_items_in_range a b (tm_state tx')) = Some v <->
        kv_in_range a b key = true /\ bt_get key (tx_kv_write (tm_state tx')) = Some v) as Hb.
      { intros v. rewrite bt_get_elem by done. unfold staged_items_in_range. rewrite list_elem_of_In, filter_In, <- list_elem_of_In.
        cbn [fst]. rewrite kv_in_range_eq, bt_get_elem by apply Hi'. tauto. }
      destruct (bt_get key (staged_items_in_range a b (tm_state tx'))) as [v |] eqn:Eb.
      * destruct (proj1 (Hb v) eq_refl) as [Hr ->]. naive_solver.
      * rewrite Hitems. destruct (bt_get key (tx_kv_write (tm_state tx'))) as [v |]; [| done].
        destruct (kv_in_range a b key); [| naive_solver]. exfalso. specialize (proj2 (Hb v) ltac:(done)). done.
Qed.
End session_writes.
