(* ===== verification/WorkerFindings.v ===== *)
(** * Runs of sessions and transactions

    The witness of the theorem on sessions, and runs in which the worker does
    not do what it means to: ids and locks that are never given back, single
    writes whose order is not that of the log, ranges that miss staged rows,
    and tables that stay when they are dropped. *)

From S2P Require Import Prelude Errors Compat LogFrame PhysLog PlCodec TsFile TimeSeries TsProperties.
From S2P Require Import Snapshots Versions Histories XLocks BTree TxState KvStore Relation RelationProperties RelationRuns.
From S2P Require Import Storage RelationLaws StorageProperties Worker CommitOrder WorkerRecovery.
From S2P Require Import WorkerExamples Sessions SessionProperties.

(** ** Refused commits *)

Lemma lock_alone_owner now timeout oid keys m m' rk :
  lock_some_alone now timeout oid keys m = (Ok true, m') -> rk ∈ keys -> exists at_, owner_at (xm_lock m') rk = Some (oid, at_).
Proof.
  assert (forall s, holder s rk = Some oid -> exists at_, owner_at s rk = Some (oid, at_)) as Hh.
  { intros s. unfold holder. destruct (owner_at s rk) as [[o a] |]; [| done]. intros [= ->]. by exists a. }
  assert (forall n seq m m', lock_attempt n seq (mkRequest oid keys false) m = (Ok true, m') -> rk ∈ keys ->
    exists at_, owner_at (xm_lock m') rk = Some (oid, at_)) as Ha.
  { intros n seq m1 m1' E Hk. unfold lock_attempt in E. destruct (try_acquire_locked _ _ _ _ _) as [[[] s] wk] eqn:Et; [| done].
    injection E as <-. apply Hh. by eapply acquire_holder. }
  unfold lock_some_alone, mbind, st_bind. destruct (try_lock_some now oid keys m) as [[[] | |] m1] eqn:E1; try done.
  - intros [= <-] Hk. unfold try_lock_some in E1. destruct (try_acquire_locked _ _ _ _ _) as [[b s] wk] eqn:Et.
    injection E1 as -> <-. apply Hh. by eapply acquire_holder.
  - destruct (lock_register oid keys m1) as [[seq | |] m2]; try done.
    destruct (lock_attempt now seq _ m2) as [[[] | |] m3] eqn:E3; try done; [intros [= <-]; by eapply Ha |].
    destruct (lock_attempt (now + timeout) seq _ m3) as [[[] | |] m5] eqn:E5; try done; [intros [= <-]; by eapply Ha |].
    unfold lock_timeout. by destruct (dequeue_locked _ _ _).
Qed.

Lemma held_refuses now oid keys m rk o at_ :
  owner_at (xm_lock m) rk = Some (o, at_) -> oid <> o -> now - at_ <= STATEMENT_LOCK_TTL -> rk ∈ keys ->
  (try_lock_some now oid keys m).1 = Ok false.
Proof.
  intros Ho Hne Ht Hk. unfold try_lock_some. destruct (try_acquire_locked _ _ _ _ _) as [[[] s] wk] eqn:E; [| done].
  pose proof (acquire_owner _ _ _ _ _ _ _ _ _ _ _ E Ho Ht) as Ho'. pose proof (acquire_holder _ _ _ _ _ _ _ _ E Hk) as Hh.
  unfold holder in Hh. rewrite Ho' in Hh. cbn in Hh. congruence.
Qed.

Section refused.
Context {R TableDesc : Type} `{RelationOps R} `{Catalog R TableDesc} `{Msgpack DeltaWire}.

(** C35: A commit that is refused by the conflict check does not clean up.  It
    returns the error with every key of the transaction still locked: until
    the time-to-live has passed, a lock request of any other transaction for
    one of these keys is refused.  And the transaction still counts as
    running: it is in the snapshot of every transaction that begins next. *)
Theorem refused_commit_leaks now t lock_owner (w w1 : WorkerXContract R) e w' :
  tx_is_empty (tm_state t) = false ->
  acquire_commit_locks now lock_owner (commit_keys t) w = (Ok tt, w1) ->
  on_storage (prepare_commit t) w1 = (Err e, w') ->
  worker_commit_tx_with_lock_owner now t lock_owner w = (Err e, w') /\
  (forall rk, rk ∈ commit_keys t -> exists at_, owner_at (xm_lock (wx_tx_lock w')) rk = Some (lock_owner, at_) /\
     forall later oid keys, oid <> lock_owner -> rk ∈ keys -> later - at_ <= STATEMENT_LOCK_TTL ->
       (try_lock_some later oid keys (wx_tx_lock w')).1 = Ok false) /\
  wx_snapshot_mgr w' = wx_snapshot_mgr w /\
  (tx_xid t ∈ sm_running (wx_snapshot_mgr w) ->
     forall t2 w2, worker_begin_tx w' = (Ok t2, w2) -> tx_xid t ∈ ws_running (tm_snapshot t2)).
Proof.
  intros Hne El Ep.
  assert (worker_commit_tx_with_lock_owner now t lock_owner w = (Err e, w')) as Hc.
  { unfold worker_commit_tx_with_lock_owner. rewrite Hne. st_step by exact El. by apply st_bind_err. }
  rewrite acquire_commit_locks_eq in El.
  destruct (lock_some_alone _ _ _ _ _) as [[[] | |] m] eqn:Em; try done. injection El as <-.
  unfold on_storage in Ep. destruct (prepare_commit t _) as [r st] eqn:Est. injection Ep as -> <-. cbn [wx_tx_lock wx_snapshot_mgr with_lock].
  split; [done |]. split; [| split; [done |]].
  - intros rk Hk. destruct (lock_alone_owner _ _ _ _ _ _ _ Em Hk) as [at_ Ho]. exists at_. split; [done |].
    intros later oid keys Ho' Hk' Ht. by eapply held_refuses.
  - intros Hrun t2 w2. unfold worker_begin_tx, on_mgr, mgr_begin_tx, alloc_committed_ts, mbind, st_bind. cbn.
    destruct (uadd _ _) as [x | |]; cbn; [| done | done]. intros [= <- <-]. exact Hrun.
Qed.
End refused.

Module WorkerRuns.
Import PlCodec TsDemo RelDemo WorkerDemo.
#[local] Existing Instance Reference.packages.
#[local] Existing Instance Reference.packages_ok.
#[local] Existing Instance key_tuple_ord.
#[local] Existing Instance key_tuple_ord_ok.
#[local] Existing Instance WorkerDemo.worker_wire.
#[local] Existing Instance demo_catalog.

Notation DemoSessions := (SessionWorker (Relation TimeSeriesFile)).

(** A transaction with a key/value put. *)
Definition put_tx (xid : Z) (running : list Z) (key value : list byte) : WorkerTxManager :=
  mkWorkerTxManager (mkWorkerSnapshot xid running) (tx_put key value WorkerTxState_new).2.

(** *** A refused commit *)

(** Transactions 1 and 2 run at the same time and write the same key. *)
Definition clash0 : Demo := (worker_begin_tx (worker_begin_tx (WorkerXContract_new 0)).2).2.
Definition clash1 : Demo := (worker_commit_tx 0 (put_tx 1 [] [x01] [x0a]) clash0).2.
Definition clash2 : Demo := (worker_commit_tx 0 (put_tx 2 [1] [x01] [x0b]) clash1).2.
Definition clash3 : Demo := (worker_put 0 [x02] [x0c] clash2).2.

Definition clash_tx : WorkerTxManager := put_tx 2 [1] [x01] [x0b].
Definition clash_locked : Demo := (acquire_commit_locks 0 2 (commit_keys clash_tx) clash1).2.
Definition clash_refused : Demo := (on_storage (prepare_commit clash_tx) clash_locked).2.

Lemma refused_commit_leaks_witness :
  (worker_commit_tx 0 (put_tx 1 [] [x01] [x0a]) clash0).1 = Ok tt /\
  exists w', worker_commit_tx_with_lock_owner 0 clash_tx 2 clash1 = (Err Transaction, w') /\
    (exists at_, owner_at (xm_lock (wx_tx_lock w')) (kv_relation, [x01]) = Some (2, at_)) /\
    forall t2 w2, worker_begin_tx w' = (Ok t2, w2) -> 2 ∈ ws_running (tm_snapshot t2).
Proof.
  split; [vm_compute; reflexivity |].
  destruct (refused_commit_leaks 0 clash_tx 2 clash1 clash_locked Transaction clash_refused) as (Hc & Hk & _ & Hr).
  - vm_compute. reflexivity.
  - apply (ran_ok (acquire_commit_locks 0 2 (commit_keys clash_tx) clash1)). vm_compute. reflexivity.
  - apply (ran_err (on_storage (prepare_commit clash_tx) clash_locked)). vm_compute. reflexivity.
  - eexists. split; [exact Hc |]. split.
    + destruct (Hk (kv_relation, [x01])) as (at_ & Ho & _).
      { replace (commit_keys clash_tx) with [(kv_relation, [x01])] by (vm_compute; reflexivity). by left. }
      by exists at_.
    + intros t2 w2. apply Hr. replace (sm_running (wx_snapshot_mgr clash1)) with [2] by (vm_compute; reflexivity). by left.
Defined.

(** From then on the snapshots of new transactions hide all later commits: an
    item that was put after the refusal, and that a read without a transaction
    finds, is missing in every new transaction. *)
Theorem refusal_hides_commits :
  (worker_get [x02] clash3).1 = Ok (Some [x0c]) /\
  exists t w, worker_begin_tx clash3 = (Ok t, w) /\ tx_xid t = 4 /\
    (worker_get_with_snapshot (tm_snapshot t) [x02] w).1 = Ok None.
Proof.
  split; [vm_compute; reflexivity |].
  exists (WorkerTxManager_new (mkWorkerSnapshot 4 [2])), (worker_begin_tx clash3).2.
  split; [apply (ran_ok (worker_begin_tx clash3)); vm_compute; reflexivity |]. split; vm_compute; reflexivity.
Qed.

(** *** Two single writes *)

Definition first_logged : Demo := (autocommit_log [x01] (Some [x0a]) (WorkerXContract_new 0)).2.
Definition both_logged : Demo := (autocommit_log [x01] (Some [x0b]) first_logged).2.
Definition put_prepared (xid : Z) (value : list byte) : PreparedWorkerCommit :=
  prepare_worker_kv_autocommit xid [x01] (Some value) (single_put_batch xid [x01] value).
Definition both_applied : Demo :=
  (on_storage (apply_prepared_commit 0 (put_prepared 1 [x0a])) (on_storage (apply_prepared_commit 0 (put_prepared 2 [x0b])) both_logged).2).2.

(** Single writes take no lock between the log and the storage.  When two
    puts of a key are in the log one after the other and the second is applied
    first, readers get the first value until the worker is restarted, and the
    second one afterwards. *)
Theorem single_writes_can_reorder :
  wx_log both_applied = Some [single_put_batch 1 [x01] [x0a]; single_put_batch 2 [x01] [x0b]] /\
  (worker_get [x01] both_applied).1 = Ok (Some [x0a]) /\
  exists w, replay_worker_log 0 [single_put_batch 1 [x01] [x0a]; single_put_batch 2 [x01] [x0b]] (WorkerXContract_new 0 : Demo) = (Ok tt, w) /\
    (worker_get [x01] w).1 = Ok (Some [x0b]).
Proof.
  do 2 (split; [vm_compute; reflexivity |]).
  exists (replay_worker_log 0 [single_put_batch 1 [x01] [x0a]; single_put_batch 2 [x01] [x0b]] (WorkerXContract_new 0 : Demo)).2.
  split; [apply (ran_ok (replay_worker_log 0 _ (WorkerXContract_new 0 : Demo))) |]; vm_compute; reflexivity.
Qed.

(** *** Sessions *)

Definition sessions0 : DemoSessions :=
  mkSessionWorker (create_session 1 [(10, None); (11, None)] WorkerSessionManager_new).2 (WorkerXContract_new 0).
Definition begun1 : DemoSessions := (execute_tx 0 10 BeginTx sessions0).2.
Definition begun2 : DemoSessions := (execute_tx 0 10 BeginTx begun1).2.
Definition ended2 : DemoSessions := (execute_tx 0 10 RollbackTx begun2).2.
Definition put2 : DemoSessions := (put_in_session 0 10 [x02] [x0c] ended2).2.
Definition begun3 : DemoSessions := (execute_tx 0 10 BeginTx put2).2.

(** A transaction that is begun twice hides all later commits.  The second
    request is refused, as documented, but a transaction was begun for it that
    nobody ends; after the rollback of the first one, an item that the session
    puts is found outside of transactions and by none of the transactions that
    begin later. *)
Theorem begin_twice_hides_commits :
  (execute_tx 0 10 BeginTx begun1).1 = Err EntityAlreadyExists /\
  (execute_tx 0 10 RollbackTx begun2).1 = Ok tt /\
  sm_running (wx_snapshot_mgr (sw_contract ended2)) = [2] /\
  (put_in_session 0 10 [x02] [x0c] ended2).1 = Ok tt /\
  (get_in_session 10 [x02] put2).1 = Ok (Some [x0c]) /\
  (execute_tx 0 10 BeginTx put2).1 = Ok tt /\
  (get_in_session 10 [x02] begun3).1 = Ok None.
Proof. repeat split; vm_compute; reflexivity. Qed.

Lemma session_sees_its_writes_witness :
  let seen key := match last_put [([x01], Some [x0a]); ([x02], None)] key (tx_get key WorkerTxState_new) with
                  | Some value => value
                  | None => live_value (reader (Some (mkSnapshot 1 1 1 [])) (versions_of [] key))
                  end in
  exists w', writes_in_session 0 10 [([x01], Some [x0a]); ([x02], None)] begun1 = (Ok tt, w') /\ only_session 10 begun1 w' /\
    (forall key, get_in_session 10 key w' = (Ok (seen key), w')) /\
    forall start_key end_key, exists items, range_in_session 10 start_key end_key w' = (Ok items, w') /\
      StronglySorted (fun a b => ord_cmp a.1 b.1 = Lt) items /\
      forall key value, (key, value) ∈ items <-> kv_in_range start_key end_key key = true /\ seen key = Some value.
Proof.
  apply (session_sees_its_writes 0 10 [([x01], Some [x0a]); ([x02], None)] begun1 (WorkerTxManager_new (mkWorkerSnapshot 1 [])) []
    (mkSnapshot 1 1 1 [])).
  - exists (mkSessionContext (Some (WorkerTxManager_new (mkWorkerSnapshot 1 []))) false). split; vm_compute; reflexivity.
  - apply tx_plain_new.
  - exact kv_rep_empty.
  - constructor.
  - reflexivity.
Defined.

(** *** Ranges and tables *)

Definition staged_tx5 : WorkerTxManager :=
  mkWorkerTxManager (mkWorkerSnapshot 1 []) (put_relation demo_relation [x05] [x0a] WorkerTxState_new).2.

Notation DemoStorage := (WorkerStorage (Relation TimeSeriesFile)).

(** A range read of a transaction misses its own row at an inclusive upper
    bound, and shows it at an exclusive lower bound. *)
Theorem range_bounds_of_staged_rows :
  (get_on_partition 7 (Some 0) [x05] staged_tx5 (WorkerStorage_new 0 : DemoStorage)).1 = Ok (Some [x0a]) /\
  (range_on_partition 7 (Some 0) (Included [x01]) (Included [x05]) staged_tx5 (WorkerStorage_new 0 : DemoStorage)).1 = Ok [] /\
  (range_on_partition 7 (Some 0) (Excluded [x05]) Unbounded staged_tx5 (WorkerStorage_new 0 : DemoStorage)).1 = Ok [([x05], [x0a])].
Proof. repeat split; vm_compute; reflexivity. Qed.

Definition created (p : Z) : DemoStorage := (apply_create_table_local 7 (Ok tt) (WorkerStorage_new p)).2.

(** A dropped table stays.  On a worker whose default partition is not the
    one of unpartitioned tables, dropping a table leaves its relation. *)
Theorem dropped_table_stays :
  (apply_create_table_local 7 (Ok tt) (WorkerStorage_new 5 : DemoStorage)).1 = Ok tt /\
  (apply_drop_table_local 7 (created 5)).1 = Ok tt /\
  st_relation_store (apply_drop_table_local 7 (created 5)).2 !! mkPhysicalRelationId 7 0 = Some demo_rel0 /\
  st_relation_store (apply_drop_table_local 7 (created 0)).2 !! mkPhysicalRelationId 7 0 = None.
Proof. repeat split; vm_compute; reflexivity. Qed.
End WorkerRuns.
