(* ===== verification/Tuples.v ===== *)
(** * Tuples

    [mudu_contract/src/tuple/]: the bytes of a row.  A tuple has a bitmap of
    its NULL fields, a slot with offset and length for each field of variable
    length, the fields of fixed length, and the data the slots point to.  What
    the layer needs of the data types ([mudu_type]) is the class [TypeFns];
    [DataTypes] has its instance. *)

From S2P Require Import Prelude Errors Compat Versions.

(** ** Integers in network byte order: [mudu/src/common/endian.rs] *)

Section endian.
Context `{Packages}.

(** The bytes of [byteorder::NetworkEndian] are those of [LittleEndian] in
    reverse order; reading and writing a slice that is too short panics. *)
Definition be_bytes (n : nat) (v : Z) : list byte := reverse (le_write n v).
Definition be_read {E} (n : nat) (buf : list byte) : Res E Z :=
  if zlen buf <? Z.of_nat n then Panic else Ok (le_read n (reverse (take n buf))).
Definition be_write {E} (n : nat) (v : Z) : ST E (list byte) unit := copy_from_slice 0 (Z.of_nat n) (be_bytes n v).
End endian.

(** ** Data types as tuples see them *)

(** [mudu_type/src/type_error.rs]. *)
Inductive TyEC : Type := TypeConvertFailed | InsufficientSpace | FatalInternalError | ParamParseError.

Definition to_m_err (ec : TyEC) : ErrorCode :=
  match ec with
  | TypeConvertFailed | ParamParseError => TypeConversionFailed
  | InsufficientSpace => InsufficientBufferSpace
  | FatalInternalError => FatalInternal
  end.

(** The functions of a type that are found by its family: the length of its
    values if that is fixed, the order of types, the binary format, the
    default value and, for some families, the comparison of values. *)
Class TypeFns (Ty V : Type) := {
  type_len : Ty -> Res TyEC (option Z);
  type_cmp : Ty -> Ty -> RS comparison;
  type_send : V -> Ty -> Res TyEC (list byte);
  type_recv : list byte -> Ty -> Res TyEC (V * Z);
  type_default : Ty -> Res TyEC V;
  type_order : Ty -> option (V -> V -> Res TyEC comparison);
  type_equal : Ty -> option (V -> V -> Res TyEC bool);
}.

(** ** slot.rs *)

Record Slot : Type := mkSlot {
  sl_off : Z;
  sl_len : Z;
}.

Definition SLOT_SIZE : Z := 8.

Section slot.
Context `{Packages}.

Definition Slot_from_binary (binary : list byte) : RS Slot :=
  if zlen binary <? SLOT_SIZE then Err Decode else
  off ← be_read 4 binary;
  rest ← slice 4 (zlen binary) binary;
  len ← be_read 4 rest;
  Ok (mkSlot off len).

Definition Slot_to_binary (s : Slot) : ST ErrorCode (list byte) unit :=
  binary ← st_get;
  if zlen binary <? SLOT_SIZE then st_lift (Err Encode) else
  be_write 4 (sl_off s) ;; on_slice 4 (zlen binary) (be_write 4 (sl_len s)).

Definition Slot_to_binary_buf (s : Slot) : RS (list byte) :=
  match (be_write 4 (sl_off s) ;; on_slice 4 SLOT_SIZE (be_write 4 (sl_len s))) (zeros SLOT_SIZE) with
  | (Ok _, buf) => Ok buf
  | (Err e, _) => Err e
  | (Panic, _) => Panic
  end.
End slot.

(** ** bitmap.rs *)

Record Bitmap : Type := mkBitmap {
  bm_bits : Z;
  bm_bytes : list byte;
}.

Definition div_ceil (a b : Z) : Z := (a + b - 1) / b.

Definition bitmap_align_up (value align : Z) : Z := if value =? 0 then 0 else div_ceil value align * align.

Definition aligned_byte_len (bits : Z) : Z := bitmap_align_up (div_ceil bits 8) 8.

Definition Bitmap_new (bits : Z) : Bitmap := mkBitmap bits (zeros (aligned_byte_len bits)).

Definition Bitmap_from_bytes (bits : Z) (bytes : list byte) : RS Bitmap :=
  let expected := aligned_byte_len bits in
  if zlen bytes <? expected then Err Decode else
  bytes ← slice 0 expected bytes;
  Ok (mkBitmap bits bytes).

Definition check_index (bit_idx : Z) (b : Bitmap) : RS unit :=
  if bm_bits b <=? bit_idx then Err IndexOutOfRange else Ok tt.

(** [bytes[bit_idx / 8]]; an index out of range panics. *)
Definition bitmap_byte (bit_idx : Z) (b : Bitmap) : RS Z :=
  match bm_bytes b !! Z.to_nat (bit_idx / 8) with Some x => Ok (Reference.byte_val x) | None => Panic end.

Definition Bitmap_get (bit_idx : Z) (b : Bitmap) : RS bool :=
  check_index bit_idx b ;;
  x ← bitmap_byte bit_idx b;
  Ok (negb (Z.land x (Z.shiftl 1 (bit_idx mod 8)) =? 0)).

Definition Bitmap_set (bit_idx : Z) (value : bool) (b : Bitmap) : RS Bitmap :=
  check_index bit_idx b ;;
  x ← bitmap_byte bit_idx b;
  let mask := Z.shiftl 1 (bit_idx mod 8) in
  let x := if value then Z.lor x mask else Z.land x (Z.lxor mask 255) in
  Ok (mkBitmap (bm_bits b) (<[Z.to_nat (bit_idx / 8) := Reference.byte_of x]> (bm_bytes b))).

(** ** field_desc.rs and tuple_binary_desc.rs *)

Record FieldDesc (Ty : Type) : Type := mkFieldDesc {
  fd_is_fixed_len : bool;
  fd_slot : Slot;
  fd_type_obj : Ty;
  fd_nullable : bool;
  fd_null_bit_idx : option Z;
}.

Arguments mkFieldDesc {Ty} _ _ _ _ _.
Arguments fd_is_fixed_len {Ty} _.
Arguments fd_slot {Ty} _.
Arguments fd_type_obj {Ty} _.
Arguments fd_nullable {Ty} _.
Arguments fd_null_bit_idx {Ty} _.

Record TupleBinaryDesc (Ty : Type) : Type := mkTupleBinaryDesc {
  td_fixed : list (FieldDesc Ty);
  td_var : list (FieldDesc Ty);
  td_all : list (FieldDesc Ty);
  td_fixed_count : Z;
  td_var_count : Z;
  td_total_fixed_size : Z;
  td_type_desc : list Ty;
  td_nullable_count : Z;
  td_row_format_version : Z;
}.

Arguments mkTupleBinaryDesc {Ty} _ _ _ _ _ _ _ _ _.
Arguments td_fixed {Ty} _.
Arguments td_var {Ty} _.
Arguments td_all {Ty} _.
Arguments td_fixed_count {Ty} _.
Arguments td_var_count {Ty} _.
Arguments td_total_fixed_size {Ty} _.
Arguments td_type_desc {Ty} _.
Arguments td_nullable_count {Ty} _.
Arguments td_row_format_version {Ty} _.

(** Addition of [u32] with the overflow check. *)
Definition add_u32 {E} (a b : Z) : Res E Z := if a + b <=? U32_MAX then Ok (a + b) else Panic.

Section desc.
Context {Ty V : Type} `{TypeFns Ty V}.

Notation TypedField := (Ty * bool * option Z)%type.

Fixpoint is_normalized (types : list Ty) : RS bool :=
  match types with
  | t1 :: ((t2 :: _) as types) =>
      ord ← type_cmp t1 t2;
      if bool_decide (ord = Gt) then Ok false else is_normalized types
  | _ => Ok true
  end.

(** The bits of the nullable fields. *)
Definition count_nullable (typed_fields : list TypedField) : Z :=
  foldl (fun n f => match snd f with Some idx => Z.max n (idx + 1) | None => n end) 0 typed_fields.

Definition nullability_ok (f : TypedField) : bool :=
  match snd f with Some _ => snd (fst f) | None => negb (snd (fst f)) end.

(** The size of the fixed fields and the numbers of both kinds of fields. *)
Fixpoint field_sizes (typed_fields : list TypedField) (total fixed var : Z) : RS (Z * Z * Z) :=
  match typed_fields with
  | [] => Ok (total, fixed, var)
  | (ty, _, _) :: typed_fields =>
      len ← map_err (fun _ => InvalidType) (type_len ty);
      match len with
      | Some len => field_sizes typed_fields (total + len) (fixed + 1) var
      | None => field_sizes typed_fields total fixed (var + 1)
      end
  end.

(** The loop that gives every field its place: fixed fields one after the
    other, and a slot for every other field. *)
Fixpoint layout_fields (typed_fields : list TypedField) (offset_slot_var offset_data_fixed : Z)
    : RS (list (FieldDesc Ty) * list (FieldDesc Ty) * list (FieldDesc Ty)) :=
  match typed_fields with
  | [] => Ok ([], [], [])
  | (ty, nullable, null_bit_idx) :: typed_fields =>
      len ← map_err (fun _ => InvalidType) (type_len ty);
      match len with
      | Some data_len =>
          let field := mkFieldDesc true (mkSlot offset_data_fixed data_len) ty nullable null_bit_idx in
          next ← add_u32 offset_data_fixed data_len;
          '(all, fixed, var) ← layout_fields typed_fields offset_slot_var next;
          Ok (field :: all, field :: fixed, var)
      | None =>
          let field := mkFieldDesc false (mkSlot offset_slot_var SLOT_SIZE) ty nullable null_bit_idx in
          next ← add_u32 offset_slot_var SLOT_SIZE;
          '(all, fixed, var) ← layout_fields typed_fields next offset_data_fixed;
          Ok (field :: all, fixed, field :: var)
      end
  end.

Definition from_typed_fields (typed_fields : list TypedField) (row_format_version : Z) : RS (TupleBinaryDesc Ty) :=
  let type_desc := (fun f : TypedField => fst (fst f)) <$> typed_fields in
  normalized ← is_normalized type_desc;
  if negb normalized then Err Parse else
  let nullable_count := count_nullable typed_fields in
  if negb (forallb nullability_ok typed_fields) then Err Parse else
  '(total_fixed_size, fixed_count, var_count) ← field_sizes typed_fields 0 0 0;
  let offset_slot_begin := aligned_byte_len nullable_count in
  '(all, fixed, var) ← layout_fields typed_fields (as_u32 offset_slot_begin) (as_u32 (offset_slot_begin + var_count * SLOT_SIZE));
  Ok (mkTupleBinaryDesc fixed var all fixed_count var_count total_fixed_size type_desc nullable_count row_format_version).

(** [TupleBinaryDesc::from]: no field is nullable. *)
Definition desc_from (type_desc : list Ty) : RS (TupleBinaryDesc Ty) :=
  from_typed_fields ((fun ty => (ty, false, None)) <$> type_desc) 0.

Implicit Types desc : TupleBinaryDesc Ty.

Definition field_count desc : Z := zlen (td_type_desc desc).
Definition total_slot_size desc : Z := td_var_count desc * SLOT_SIZE.
Definition null_bitmap_size desc : Z := aligned_byte_len (td_nullable_count desc).
Definition meta_size desc : Z := null_bitmap_size desc + total_slot_size desc.
Definition min_tuple_size desc : Z := meta_size desc + td_total_fixed_size desc.

Definition get_field_desc (idx : Z) desc : RS (FieldDesc Ty) :=
  match td_all desc !! Z.to_nat idx with Some field => Ok field | None => Panic end.

End desc.

(** [_normalized] sorts the types by exchanges, and their payloads along. *)
Section normalized.
Context {Ty V T : Type} `{TypeFns Ty V}.
Implicit Types vec : list (Ty * T).

(** The exchange of positions [i] and [j] when they are in the wrong order;
    the code exchanges indices into the vector. *)
Definition exchange_step (i j : nat) vec : RS (list (Ty * T)) :=
  match vec !! i, vec !! j with
  | Some a, Some b =>
      ord ← map_err (fun _ => InvalidType) (type_cmp (fst a) (fst b));
      Ok (if bool_decide (ord = Gt) then <[i := b]> (<[j := a]> vec) else vec)
  | _, _ => Panic
  end.

(** The inner loop, for the [n] positions from [j] on. *)
Fixpoint exchange_row (i j n : nat) vec : RS (list (Ty * T)) :=
  match n with
  | O => Ok vec
  | S n => vec ← exchange_step i j vec; exchange_row i (S j) n vec
  end.

(** The outer loop, for the [n] positions from [i] on. *)
Fixpoint exchange_rows (i n : nat) vec : RS (list (Ty * T)) :=
  match n with
  | O => Ok vec
  | S n => vec ← exchange_row i (S i) n vec; exchange_rows (S i) n vec
  end.

Definition normalized_type_desc_vec vec : RS (list Ty * list T) :=
  vec ← exchange_rows 0 (length vec) vec;
  Ok (vec.*1, vec.*2).
End normalized.

(** ** read_datum.rs and write_value.rs *)

Section access.
Context {Ty V : Type} `{TypeFns Ty V} `{Packages}.
Implicit Types (tuple : list byte) (field : FieldDesc Ty) (desc : TupleBinaryDesc Ty).

Definition read_slot field tuple : RS Slot :=
  let off := sl_off (fd_slot field) in
  if zlen tuple <? off + SLOT_SIZE then Err IndexOutOfRange else
  bytes ← slice off (off + SLOT_SIZE) tuple;
  slot ← Slot_from_binary bytes;
  if zlen tuple <? sl_off slot + sl_len slot then Err IndexOutOfRange else Ok slot.

Definition read_data_capacity (index : Z) desc tuple : RS Z :=
  if field_count desc <=? index then Err IndexOutOfRange else
  field ← get_field_desc index desc;
  if fd_is_fixed_len field then Ok (sl_len (fd_slot field)) else
  slot ← read_slot field tuple;
  if index + 1 =? field_count desc then usub (zlen tuple) (sl_off (fd_slot field)) else
  field_next ← get_field_desc (index + 1) desc;
  if fd_is_fixed_len field_next then Panic else
  slot_next ← read_slot field_next tuple;
  if (sl_off slot_next <? sl_off slot) || (zlen tuple <? sl_off slot_next + sl_len slot_next) then Err InvalidTuple else
  let size := sl_off slot_next - sl_off slot in
  if size <? sl_len slot then Err InvalidTuple else Ok size.

Definition read_fixed_len_value (offset size : Z) tuple : RS (list byte) :=
  if zlen tuple <? offset + size then Err IndexOutOfRange else slice offset (offset + size) tuple.

Definition read_var_len_value (offset : Z) tuple : RS (list byte) :=
  if zlen tuple <? offset + SLOT_SIZE then Err IndexOutOfRange else
  bytes ← slice offset (offset + SLOT_SIZE) tuple;
  slot ← Slot_from_binary bytes;
  if zlen tuple <? sl_off slot + sl_len slot then Err IndexOutOfRange else
  slice (sl_off slot) (sl_off slot + sl_len slot) tuple.

(** [read_binary_data], and [FieldDesc::get]. *)
Definition read_binary_data field tuple : RS (list byte) :=
  if fd_is_fixed_len field then read_fixed_len_value (sl_off (fd_slot field)) (sl_len (fd_slot field)) tuple
  else read_var_len_value (sl_off (fd_slot field)) tuple.

Definition write_slot_to_buf (value_offset value_size : Z) : ST ErrorCode (list byte) unit :=
  buf ← st_get;
  if zlen buf <? SLOT_SIZE then st_lift (Err NotImplemented) else
  Slot_to_binary (mkSlot (as_u32 value_offset) (as_u32 value_size)).

Definition write_slot_to_tuple field (value_offset value_size : Z) : ST ErrorCode (list byte) unit :=
  if fd_is_fixed_len field then mret tt else
  tuple ← st_get;
  let slot_offset := sl_off (fd_slot field) in
  if zlen tuple <? slot_offset + SLOT_SIZE then st_lift (Err IndexOutOfRange) else
  on_slice slot_offset (slot_offset + SLOT_SIZE) (write_slot_to_buf value_offset value_size).

(** The size that was written, or the size that would be needed. *)
Definition write_value_to_buf (value : list byte) : ST ErrorCode (list byte) (Z + Z) :=
  buf ← st_get;
  if zlen buf <? zlen value then mret (inr (zlen value)) else
  copy_from_slice 0 (zlen value) value ;; mret (inl (zlen value)).

Definition write_value_to_tuple (value_offset : Z) (value : list byte) : ST ErrorCode (list byte) (Z + Z) :=
  tuple ← st_get;
  on_slice value_offset (zlen tuple) (write_value_to_buf value).

(** ** build_tuple.rs *)

(** [Vec::resize] with zero bytes. *)
Definition resize (n : Z) (l : list byte) : list byte := take (Z.to_nat n) l ++ zeros (n - zlen l).

(** The loop of [build_tuple_into]. *)
Fixpoint fill_fields (fields : list (FieldDesc Ty)) (vec : list (list byte)) (offset : Z)
    : ST ErrorCode (list byte) (Z + Z) :=
  match fields, vec with
  | field :: fields, v :: vec =>
      r ← write_value_to_tuple offset v;
      match r with
      | inl size => write_slot_to_tuple field offset size ;; fill_fields fields vec (offset + size)
      | inr _ => mret r
      end
  | _, _ => mret (inl offset)
  end.

Definition build_tuple_into (vec : list (list byte)) desc : ST ErrorCode (list byte) (Z + Z) :=
  if negb (zlen vec =? field_count desc) then st_lift (Err Parse) else
  tuple ← st_get;
  if zlen tuple <? min_tuple_size desc then mret (inr (min_tuple_size desc)) else
  fill_fields (td_all desc) vec (meta_size desc).

(** The loop that doubles the tuple until the value fits; [fuel] bounds the
    number of attempts. *)
Fixpoint write_growing (fuel : nat) (offset : Z) (v : list byte) : ST ErrorCode (list byte) Z :=
  match fuel with
  | O => st_lift Panic
  | S fuel =>
      r ← write_value_to_tuple offset v;
      match r with
      | inl size => mret size
      | inr _ => st_modify (fun tuple => resize (zlen tuple * 2) tuple) ;; write_growing fuel offset v
      end
  end.

(** A tuple that is not empty is doubled less often than that. *)
Definition growth_fuel (offset : Z) (v : list byte) : nat := S (S (Z.to_nat (offset + zlen v))).

Fixpoint build_fields (fields : list (FieldDesc Ty)) (vec : list (list byte)) (offset : Z) : ST ErrorCode (list byte) Z :=
  match fields, vec with
  | field :: fields, v :: vec =>
      size ← write_growing (growth_fuel offset v) offset v;
      write_slot_to_tuple field offset size ;;
      build_fields fields vec (offset + size)
  | _, _ => mret offset
  end.

Definition build_tuple (vec : list (list byte)) desc : RS (list byte) :=
  if negb (zlen vec =? field_count desc) then Err Parse else
  match build_fields (td_all desc) vec (meta_size desc) (zeros (min_tuple_size desc)) with
  | (Ok offset, tuple) => Ok (resize offset tuple)
  | (Err e, _) => Err e
  | (Panic, _) => Panic
  end.

End access.

(** ** nullable_tuple.rs *)

Inductive NullableValue (V : Type) : Type :=
| Null
| Value (v : V).
Arguments Null {V}.
Arguments Value {V} v.

Section nullable.
Context {Ty V : Type} `{TypeFns Ty V} `{Packages}.
Implicit Types (tuple : list byte) (field : FieldDesc Ty) (desc : TupleBinaryDesc Ty).

(** One value of the loop of [TupleBuilder::build]. *)
Definition put_field field (value : NullableValue V) (var_data_offset : Z) (bitmap : Bitmap) tuple
    : RS (Bitmap * list byte * Z) :=
  match value with
  | Null =>
      match fd_null_bit_idx field with
      | None => Err InvalidTuple
      | Some bit_idx => bitmap ← Bitmap_set bit_idx true bitmap; Ok (bitmap, tuple, var_data_offset)
      end
  | Value value =>
      bitmap ← match fd_null_bit_idx field with Some bit_idx => Bitmap_set bit_idx false bitmap | None => Ok bitmap end;
      binary ← map_err (fun _ => InvalidType) (type_send value (fd_type_obj field));
      let slot := fd_slot field in
      let m := if fd_is_fixed_len field then copy_from_slice (sl_off slot) (sl_off slot + sl_len slot) binary
               else st_modify (fun tuple => tuple ++ binary) ;;
                    on_slice (sl_off slot) (sl_off slot + SLOT_SIZE)
                      (Slot_to_binary (mkSlot (as_u32 var_data_offset) (as_u32 (zlen binary)))) in
      match m tuple with
      | (Ok _, tuple) =>
          Ok (bitmap, tuple, if fd_is_fixed_len field then var_data_offset else var_data_offset + zlen binary)
      | (Err e, _) => Err e
      | (Panic, _) => Panic
      end
  end.

Fixpoint put_fields (fields : list (FieldDesc Ty)) (values : list (NullableValue V)) (var_data_offset : Z)
    (bitmap : Bitmap) tuple : RS (Bitmap * list byte) :=
  match fields, values with
  | field :: fields, value :: values =>
      '(bitmap, tuple, var_data_offset) ← put_field field value var_data_offset bitmap tuple;
      put_fields fields values var_data_offset bitmap tuple
  | _, _ => Ok (bitmap, tuple)
  end.

(** [TupleBuilder::build]. *)
Definition build_nullable desc (values : list (NullableValue V)) : RS (list byte) :=
  if negb (zlen values =? field_count desc) then Err Parse else
  '(bitmap, tuple) ← put_fields (td_all desc) values (min_tuple_size desc) (Bitmap_new (td_nullable_count desc))
                       (zeros (min_tuple_size desc));
  match copy_from_slice 0 (null_bitmap_size desc) (bm_bytes bitmap) tuple with
  | (Ok _, tuple) => Ok tuple
  | (Err e, _) => Err e
  | (Panic, _) => Panic
  end.

Definition is_null tuple desc (col_idx : Z) : RS bool :=
  if field_count desc <=? col_idx then Err IndexOutOfRange else
  field ← get_field_desc col_idx desc;
  if zlen tuple <? min_tuple_size desc then Err Decode else
  match fd_null_bit_idx field with
  | None => Ok false
  | Some bit_idx =>
      bytes ← slice 0 (null_bitmap_size desc) tuple;
      bitmap ← Bitmap_from_bytes (td_nullable_count desc) bytes;
      Bitmap_get bit_idx bitmap
  end.

(** The bytes of a field that is not NULL. *)
Definition field_bytes field tuple : RS (list byte) :=
  if fd_is_fixed_len field
  then slice (sl_off (fd_slot field)) (sl_off (fd_slot field) + sl_len (fd_slot field)) tuple
  else
    bytes ← slice (sl_off (fd_slot field)) (sl_off (fd_slot field) + SLOT_SIZE) tuple;
    slot ← Slot_from_binary bytes;
    if zlen tuple <? sl_off slot + sl_len slot then Err IndexOutOfRange else
    slice (sl_off slot) (sl_off slot + sl_len slot) tuple.

Definition read_value tuple desc (col_idx : Z) : RS (NullableValue V) :=
  null ← is_null tuple desc col_idx;
  if (null : bool) then Ok Null else
  field ← get_field_desc col_idx desc;
  bytes ← field_bytes field tuple;
  '(value, _) ← map_err (fun _ => TypeConversionFailed) (type_recv bytes (fd_type_obj field));
  Ok (Value value).

(** ** update_tuple.rs *)

(** The slots and the data of the fields behind the updated one. *)
Fixpoint shift_fields (fields : list (FieldDesc Ty)) tuple (offset : Z) : RS (list byte * list byte) :=
  match fields with
  | [] => Ok ([], [])
  | field :: fields =>
      binary ← read_binary_data field tuple;
      slot ← Slot_to_binary_buf (mkSlot (as_u32 offset) (as_u32 (zlen binary)));
      '(slots, data) ← shift_fields fields tuple (offset + zlen binary);
      Ok (slot ++ slots, binary ++ data)
  end.

Definition update_tuple (index : Z) (value : list byte) desc tuple : RS (list UpdateDelta) :=
  if field_count desc <=? index then Err Internal else
  field ← get_field_desc index desc;
  if fd_is_fixed_len field
  then Ok [mkUpdateDelta (as_u32 (sl_off (fd_slot field))) (as_u32 (sl_len (fd_slot field))) value]
  else
    slot ← read_slot field tuple;
    capacity ← read_data_capacity index desc tuple;
    let slot_off := sl_off (fd_slot field) in
    new_slot ← Slot_to_binary_buf (mkSlot (as_u32 (sl_off slot)) (as_u32 (zlen value)));
    if zlen value <=? capacity then
      Ok [mkUpdateDelta (as_u32 slot_off) SLOT_SIZE new_slot;
          mkUpdateDelta (as_u32 (sl_off slot)) (as_u32 (sl_len slot)) value]
    else
      '(slots, data) ← shift_fields (drop (Z.to_nat index + 1) (td_all desc)) tuple (sl_off slot + zlen value);
      rest ← usub (zlen tuple) (sl_off slot);
      Ok [mkUpdateDelta (as_u32 slot_off) (as_u32 (SLOT_SIZE * (field_count desc - index))) (new_slot ++ slots);
          mkUpdateDelta (as_u32 (sl_off slot)) (as_u32 rest) (value ++ data)].

(** ** comparator.rs *)

(** The values of one field of two tuples. *)
Definition compare_binary {A} (compare : Ty -> V -> V -> RS A) field (b1 b2 : list byte) : RS A :=
  match type_recv b1 (fd_type_obj field), type_recv b2 (fd_type_obj field) with
  | Ok (v1, _), Ok (v2, _) => compare (fd_type_obj field) v1 v2
  | Panic, _ | _, Panic => Panic
  | _, _ => Err InvalidTuple
  end.

Definition compare_binary_ordering (ty : Ty) (v1 v2 : V) : RS comparison :=
  match type_order ty with
  | None => Err UnsupportedOperation
  | Some f => map_err (fun _ => ComparisonFailed) (f v1 v2)
  end.

Definition compare_binary_equal (ty : Ty) (v1 v2 : V) : RS bool :=
  match type_equal ty with
  | None => Err UnsupportedOperation
  | Some f => map_err (fun _ => ComparisonFailed) (f v1 v2)
  end.

(** The loops of [_iter_value]; [None] when no field decided. *)
Fixpoint iter_fields {A} (compare : Ty -> V -> V -> RS A) (need_return : A -> bool) (fields : list (FieldDesc Ty))
    (tuple1 tuple2 : list byte) : RS (option A) :=
  match fields with
  | [] => Ok None
  | field :: fields =>
      b1 ← read_binary_data field tuple1;
      b2 ← read_binary_data field tuple2;
      ord ← compare_binary compare field b1 b2;
      if need_return ord then Ok (Some ord) else iter_fields compare need_return fields tuple1 tuple2
  end.

Definition iter_value {A} (compare : Ty -> V -> V -> RS A) (need_return : A -> bool) (ret : A) desc
    (tuple1 tuple2 : list byte) : RS A :=
  r ← iter_fields compare need_return (td_fixed desc) tuple1 tuple2;
  match r with
  | Some r => Ok r
  | None => r ← iter_fields compare need_return (td_var desc) tuple1 tuple2; Ok (default ret r)
  end.

Definition tuple_compare desc (tuple1 tuple2 : list byte) : RS comparison :=
  iter_value compare_binary_ordering (fun ord => negb (bool_decide (ord = Eq))) Eq desc tuple1 tuple2.

Definition tuple_equal desc (tuple1 tuple2 : list byte) : RS bool :=
  iter_value compare_binary_equal negb true desc tuple1 tuple2.

End nullable.
