(* ===== verification/TupleLayout.v ===== *)
(** * The layout of tuples

    The laws of data types that tuples rely on, and what the codecs of slots
    and bitmaps and the descriptors of tuples give: every field has a place of
    its own. *)

From S2P Require Import Prelude Errors Compat Versions Tuples.

(** What tuples need of the data types.  [tv_ok] are the values of a type:
    they have a binary form, of the fixed length if the type has one, that is
    read back.  Types are totally preordered, those of fixed length first. *)
Class TypeFnsOk (Ty V : Type) `{TypeFns Ty V} := {
  tv_ok : Ty -> V -> Prop;
  type_le : Ty -> Ty -> Prop;
  type_len_ok ty : exists len, type_len ty = Ok len /\ match len with Some n => 0 < n <= U32_MAX | None => True end;
  type_send_ok ty v : tv_ok ty v -> exists bs, type_send v ty = Ok bs /\ type_recv bs ty = Ok (v, zlen bs) /\
    match type_len ty with Ok (Some n) => zlen bs = n | _ => True end;
  type_cmp_ok a b : exists ord, type_cmp a b = Ok ord /\ (ord <> Gt <-> type_le a b);
  type_le_trans a b c : type_le a b -> type_le b c -> type_le a c;
  type_le_total a b : type_le a b \/ type_le b a;
  type_le_fixed a b : type_le a b -> type_len a = Ok None -> type_len b = Ok None;
}.

(** ** Bytes in the middle of a buffer *)

Lemma zput_mid {A} off (a b x z : list A) : off = zlen a -> zlen x = zlen z -> zput off x (a ++ z ++ b) = a ++ x ++ b.
Proof.
  intros -> E. unfold zput, zlen in *. rewrite Nat2Z.id. rewrite take_app_length' by done. f_equal. f_equal.
  rewrite drop_app_ge by lia. rewrite drop_app_length' by lia. done.
Qed.

Lemma zsub_mid {A} off n (a b x : list A) : off = zlen a -> n = zlen x -> (a ++ x ++ b).[off, n] = x.
Proof.
  intros -> ->. pose proof (zlen_nonneg x). rewrite zsub_app_r, Z.sub_diag, zsub_app_l by lia. by apply zsub_all.
Qed.

Lemma zput_full_app {A} (x z b : list A) : zlen x = zlen z -> zput 0 x (z ++ b) = x ++ b.
Proof. intros E. by apply (zput_mid 0 [] b x z). Qed.

Lemma zeros_add n m : 0 <= n -> 0 <= m -> zeros (n + m) = zeros n ++ zeros m.
Proof. intros Hn Hm. unfold zeros. by rewrite Z2Nat.inj_add, replicate_add by lia. Qed.

(** The bytes between [a] and [b], given by the lengths in front of them. *)
Lemma slice_mid {E A} off e (a b x : list A) : off = zlen a -> e = off + zlen x -> slice (E := E) off e (a ++ x ++ b) = Ok x.
Proof.
  intros -> ->. pose proof (zlen_nonneg a). pose proof (zlen_nonneg b). pose proof (zlen_nonneg x).
  rewrite slice_ok by (rewrite ?zlen_app; lia). by rewrite zsub_mid by lia.
Qed.

(** ** Slots *)

Section slots.
Context `{PackagesOk}.

Lemma be_bytes_length n v : length (be_bytes n v) = n.
Proof. unfold be_bytes. by rewrite length_reverse, le_write_length. Qed.

Lemma zlen_be_bytes n v : zlen (be_bytes n v) = Z.of_nat n.
Proof. unfold zlen. by rewrite be_bytes_length. Qed.

Lemma be_read_bytes {E} n v rest : 0 <= v < 256 ^ Z.of_nat n -> be_read (E := E) n (be_bytes n v ++ rest) = Ok v.
Proof.
  intros Hv. unfold be_read. rewrite zlen_app, zlen_be_bytes. pose proof (zlen_nonneg rest).
  rewrite (proj2 (Z.ltb_ge _ _)) by lia. rewrite take_app_length' by (symmetry; apply be_bytes_length).
  unfold be_bytes. by rewrite reverse_involutive, le_read_write.
Qed.

Lemma be_read_all {E} n v : 0 <= v < 256 ^ Z.of_nat n -> be_read (E := E) n (be_bytes n v) = Ok v.
Proof. intros Hv. rewrite <- (app_nil_r (be_bytes n v)). by apply be_read_bytes. Qed.

Lemma be_write_ok {E} n v buf : Z.of_nat n <= zlen buf -> be_write (E := E) n v buf = (Ok tt, zput 0 (be_bytes n v) buf).
Proof. intros Hn. unfold be_write. rewrite copy_from_slice_ok by (rewrite ?zlen_be_bytes; lia). done. Qed.

Definition slot_bytes (s : Slot) : list byte := be_bytes 4 (sl_off s) ++ be_bytes 4 (sl_len s).

Lemma zlen_slot_bytes s : zlen (slot_bytes s) = SLOT_SIZE.
Proof. unfold slot_bytes. by rewrite zlen_app, !zlen_be_bytes. Qed.

Definition slot_ok (s : Slot) : Prop := in_u32 (sl_off s) /\ in_u32 (sl_len s).

Lemma slot_roundtrip s : slot_ok s -> Slot_from_binary (slot_bytes s) = Ok s.
Proof.
  intros [Ho Hl]. unfold Slot_from_binary. rewrite zlen_slot_bytes. cbn [Z.ltb Z.compare SLOT_SIZE Pos.compare Pos.compare_cont].
  unfold slot_bytes. rewrite be_read_bytes by mlia. cbn [mbind res_bind].
  rewrite slice_ok; [| done | by rewrite zlen_app, !zlen_be_bytes]. cbn [mbind res_bind].
  rewrite zsub_app_r; [| done | by rewrite zlen_be_bytes]. rewrite zlen_be_bytes. change (4 - Z.of_nat 4) with 0.
  rewrite zsub_all by (by rewrite zlen_be_bytes). rewrite <- (app_nil_r (be_bytes 4 (sl_len s))), be_read_bytes by mlia.
  cbn [mbind res_bind]. by destruct s.
Qed.

Lemma slot_write s buf : zlen buf = SLOT_SIZE -> Slot_to_binary s buf = (Ok tt, slot_bytes s).
Proof.
  intros Hl. unfold SLOT_SIZE in Hl. assert (zlen (zput 0 (be_bytes 4 (sl_off s)) buf) = 8) as Hz
    by (rewrite zlen_zput; rewrite ?zlen_be_bytes; lia).
  unfold Slot_to_binary. st_step by reflexivity. rewrite Hl. cbn [Z.ltb Z.compare SLOT_SIZE Pos.compare Pos.compare_cont].
  st_step by (apply be_write_ok; lia). rewrite on_slice_ok by (rewrite ?Hz; lia).
  rewrite be_write_ok by (rewrite zlen_zsub; rewrite ?Hz; lia). f_equal.
  assert (forall l : list byte, zlen l = 4 -> forall x, zlen x = 4 -> zput 0 x l = x) as Hput.
  { intros l E x Ex. unfold zput. cbn [Z.to_nat take app Nat.add]. rewrite drop_ge by (unfold zlen in *; lia). apply app_nil_r. }
  rewrite Hput by (rewrite ?zlen_zsub, ?zlen_be_bytes; rewrite ?Hz; lia).
  pose proof (zput_adjacent 0 (be_bytes 4 (sl_off s)) (be_bytes 4 (sl_len s)) buf) as Ha. rewrite !zlen_be_bytes in Ha.
  change (0 + Z.of_nat 4) with 4 in Ha. rewrite Ha by lia. change (be_bytes 4 (sl_off s) ++ be_bytes 4 (sl_len s)) with (slot_bytes s).
  unfold zput. cbn [Z.to_nat take app Nat.add]. rewrite drop_ge; [apply app_nil_r |].
  pose proof (zlen_slot_bytes s). unfold zlen, SLOT_SIZE in *. lia.
Qed.

Lemma slot_buf s : Slot_to_binary_buf s = Ok (slot_bytes s).
Proof.
  pose proof (slot_write s (zeros SLOT_SIZE) (zlen_zeros SLOT_SIZE ltac:(done))) as E. unfold Slot_to_binary in E.
  unfold mbind at 1, st_bind at 1, st_get in E. rewrite zlen_zeros in E by done.
  cbn [Z.ltb Z.compare SLOT_SIZE Pos.compare Pos.compare_cont] in E. unfold Slot_to_binary_buf. unfold SLOT_SIZE in *. by rewrite E.
Qed.
End slots.

(** ** Bitmaps *)

Definition bit_at (b : Bitmap) (i : Z) : bool :=
  match bm_bytes b !! Z.to_nat (i / 8) with Some x => Z.testbit (Reference.byte_val x) (i mod 8) | None => false end.

Definition bitmap_wf (b : Bitmap) : Prop := 0 <= bm_bits b /\ zlen (bm_bytes b) = aligned_byte_len (bm_bits b).

Lemma div_ceil_bound a b : 0 < b -> a <= div_ceil a b * b < a + b.
Proof.
  intros Hb. unfold div_ceil. pose proof (Z.div_mod (a + b - 1) b ltac:(lia)). pose proof (Z.mod_pos_bound (a + b - 1) b Hb). nia.
Qed.

Lemma aligned_bound bits : 0 <= bits -> 0 <= aligned_byte_len bits /\ bits <= 8 * aligned_byte_len bits.
Proof.
  intros Hb. unfold aligned_byte_len, bitmap_align_up. pose proof (div_ceil_bound bits 8 ltac:(lia)).
  destruct (Z.eqb_spec (div_ceil bits 8) 0); [lia |]. pose proof (div_ceil_bound (div_ceil bits 8) 8 ltac:(lia)). lia.
Qed.

Lemma bitmap_new_wf bits : 0 <= bits -> bitmap_wf (Bitmap_new bits).
Proof. intros Hb. split; [done |]. apply zlen_zeros. by apply aligned_bound. Qed.

Lemma bitmap_byte_ok b i : bitmap_wf b -> 0 <= i < bm_bits b ->
  exists x, bm_bytes b !! Z.to_nat (i / 8) = Some x /\ bitmap_byte i b = Ok (Reference.byte_val x).
Proof.
  intros [Hb Hl] Hi. pose proof (aligned_bound _ Hb) as [_ Ha]. pose proof (Z.div_mod i 8 ltac:(lia)).
  pose proof (Z.mod_pos_bound i 8 ltac:(lia)). unfold zlen in Hl.
  destruct (lookup_lt_is_Some_2 (bm_bytes b) (Z.to_nat (i / 8))) as [x Hx]; [lia |].
  exists x. unfold bitmap_byte. by rewrite Hx.
Qed.

Lemma shiftl_1_testbit k j : 0 <= k -> Z.testbit (Z.shiftl 1 k) j = bool_decide (j = k).
Proof.
  intros Hk. rewrite Z.shiftl_1_l. case_bool_decide as E; [subst j; by apply Z.pow2_bits_true |].
  apply Z.pow2_bits_false. congruence.
Qed.

Lemma land_bit x k : 0 <= k -> negb (Z.land x (Z.shiftl 1 k) =? 0) = Z.testbit x k.
Proof.
  intros Hk. destruct (Z.testbit x k) eqn:E.
  - apply negb_true_iff, Z.eqb_neq. intros E0. assert (Z.testbit (Z.land x (Z.shiftl 1 k)) k = false) as E1 by (rewrite E0; apply Z.bits_0).
    by rewrite Z.land_spec, E, shiftl_1_testbit, bool_decide_eq_true_2 in E1 by done.
  - apply negb_false_iff, Z.eqb_eq, Z.bits_inj'. intros j Hj. rewrite Z.land_spec, shiftl_1_testbit, Z.bits_0 by done.
    case_bool_decide; [subst j; by rewrite E | apply andb_false_r].
Qed.

Lemma bitmap_get_ok b i : bitmap_wf b -> 0 <= i < bm_bits b -> Bitmap_get i b = Ok (bit_at b i).
Proof.
  intros Hw Hi. destruct (bitmap_byte_ok b i Hw Hi) as (x & Hx & E). unfold Bitmap_get, check_index, bit_at.
  rewrite (proj2 (Z.leb_gt _ _)) by lia. cbn [mbind res_bind]. rewrite E, Hx. cbn [mbind res_bind]. f_equal.
  apply land_bit. apply Z.mod_pos_bound. lia.
Qed.

Lemma testbit_byte_of x k : 0 <= k < 8 -> Z.testbit (Reference.byte_val (Reference.byte_of x)) k = Z.testbit x k.
Proof. intros Hk. rewrite Reference.byte_val_of. change 256 with (2 ^ 8). by rewrite Z.mod_pow2_bits_low by lia. Qed.

Lemma set_byte_testbit (value : bool) x k j : 0 <= k < 8 -> 0 <= j < 8 ->
  Z.testbit (if value then Z.lor x (Z.shiftl 1 k) else Z.land x (Z.lxor (Z.shiftl 1 k) 255)) j =
  if bool_decide (j = k) then value else Z.testbit x j.
Proof.
  intros Hk Hj. assert (Z.testbit 255 j = true) as E255 by (change 255 with (Z.ones 8); by apply Z.ones_spec_low).
  destruct value.
  - rewrite Z.lor_spec, shiftl_1_testbit by lia. case_bool_decide; [apply orb_true_r | apply orb_false_r].
  - rewrite Z.land_spec, Z.lxor_spec, shiftl_1_testbit, E255 by lia. case_bool_decide; [apply andb_false_r | apply andb_true_r].
Qed.

Lemma bitmap_set_ok b i value : bitmap_wf b -> 0 <= i < bm_bits b ->
  exists b', Bitmap_set i value b = Ok b' /\ bitmap_wf b' /\ bm_bits b' = bm_bits b /\
    forall j, 0 <= j -> bit_at b' j = if bool_decide (j = i) then value else bit_at b j.
Proof.
  intros Hw Hi. destruct (bitmap_byte_ok b i Hw Hi) as (x & Hx & E). unfold Bitmap_set, check_index.
  rewrite (proj2 (Z.leb_gt _ _)) by lia. cbn [mbind res_bind]. rewrite E. cbn [mbind res_bind]. eexists. split; [reflexivity |].
  split; [by split; [apply Hw | unfold zlen; cbn; rewrite length_insert; apply Hw] |]. split; [done |]. intros j Hj.
  unfold bit_at. cbn [bm_bytes]. pose proof (Z.mod_pos_bound i 8 ltac:(lia)) as Mi. pose proof (Z.mod_pos_bound j 8 ltac:(lia)) as Mj.
  pose proof (Z.div_mod i 8 ltac:(lia)) as Di. pose proof (Z.div_mod j 8 ltac:(lia)) as Dj.
  destruct (decide (j / 8 = i / 8)) as [Eq | Ne].
  - rewrite Eq, list_lookup_insert_eq, Hx by (by eapply lookup_lt_Some). rewrite testbit_byte_of, set_byte_testbit by lia.
    assert (j mod 8 = i mod 8 <-> j = i) as Hb by lia. do 2 case_bool_decide; tauto || done.
  - rewrite list_lookup_insert_ne by (pose proof (Z.div_pos i 8 ltac:(lia)); pose proof (Z.div_pos j 8 ltac:(lia)); lia).
    rewrite bool_decide_eq_false_2 by congruence. done.
Qed.

Lemma bitmap_from_bytes_ok b bits rest :
  bitmap_wf b -> bits = bm_bits b -> Bitmap_from_bytes bits (bm_bytes b ++ rest) = Ok b.
Proof.
  intros [Hb Hl] ->. unfold Bitmap_from_bytes. rewrite zlen_app, Hl. pose proof (zlen_nonneg rest).
  pose proof (aligned_bound _ Hb) as [Ha _]. rewrite (proj2 (Z.ltb_ge _ _)) by lia.
  rewrite slice_ok by (rewrite ?zlen_app; lia). cbn [mbind res_bind]. rewrite Z.sub_0_r, zsub_app_l by lia.
  rewrite zsub_all by done. by destruct b.
Qed.

(** ** Descriptors *)

Section layout.
Context {Ty V : Type} `{TypeFnsOk Ty V}.

Notation TypedField := (Ty * bool * option Z)%type.
Implicit Types (fs : list TypedField) (fd : FieldDesc Ty).

Definition flen (ty : Ty) : option Z := match type_len ty with Ok len => len | _ => None end.

Lemma type_len_flen ty : type_len ty = Ok (flen ty).
Proof. unfold flen. destruct (type_len_ok ty) as (len & E & _). by rewrite E. Qed.

Lemma flen_bound ty n : flen ty = Some n -> 0 < n <= U32_MAX.
Proof. unfold flen. destruct (type_len_ok ty) as (len & E & Hl). rewrite E. by intros ->. Qed.

Definition fixed_total fs : Z := foldr (fun f n => default 0 (flen f.1.1) + n) 0 fs.
Definition var_n fs : Z := foldr (fun f n => match flen f.1.1 with Some _ => n | None => n + 1 end) 0 fs.

Lemma fixed_total_nonneg fs : 0 <= fixed_total fs.
Proof.
  induction fs as [| f fs IH]; [done |]. cbn [fixed_total foldr]. fold (fixed_total fs).
  destruct (flen f.1.1) as [n |] eqn:E; cbn; [apply flen_bound in E |]; lia.
Qed.

Lemma var_n_nonneg fs : 0 <= var_n fs.
Proof. induction fs as [| f fs IH]; [done |]. cbn [var_n foldr]. fold (var_n fs). destruct (flen f.1.1); lia. Qed.

Lemma fixed_total_cons ty nl ix fs : fixed_total ((ty, nl, ix) :: fs) = match flen ty with Some n => n | None => 0 end + fixed_total fs.
Proof. cbn. by destruct (flen ty). Qed.

Lemma var_n_cons ty nl ix fs : var_n ((ty, nl, ix) :: fs) = match flen ty with Some _ => 0 | None => 1 end + var_n fs.
Proof. cbn. fold (var_n fs). destruct (flen ty); lia. Qed.

Lemma ok_triple {E} (a b c a' b' c' : Z) : a = a' -> b = b' -> c = c' -> @Ok E _ (a, b, c) = Ok (a', b', c').
Proof. by intros -> -> ->. Qed.

Lemma field_sizes_ok fs : forall total fixed var,
  field_sizes fs total fixed var = Ok (total + fixed_total fs, fixed + (zlen fs - var_n fs), var + var_n fs).
Proof.
  induction fs as [| [[ty nl] ix] fs IH]; intros total fixed var; cbn [field_sizes].
  { apply ok_triple; unfold zlen; cbn; lia. }
  rewrite type_len_flen. cbn [map_err mbind res_bind fixed_total var_n foldr fst]. fold (fixed_total fs) (var_n fs).
  rewrite zlen_cons. destruct (flen ty); cbn; rewrite IH; apply ok_triple; lia.
Qed.

(** Where the fields are. *)
Fixpoint layout fs (vo fo : Z) : list (FieldDesc Ty) :=
  match fs with
  | [] => []
  | (ty, nullable, idx) :: fs =>
      match flen ty with
      | Some n => mkFieldDesc true (mkSlot fo n) ty nullable idx :: layout fs vo (fo + n)
      | None => mkFieldDesc false (mkSlot vo SLOT_SIZE) ty nullable idx :: layout fs (vo + SLOT_SIZE) fo
      end
  end.

Definition is_fixed fd : Prop := fd_is_fixed_len fd = true.
#[export] Instance is_fixed_dec fd : Decision (is_fixed fd) := decide (_ = _).

Lemma layout_fields_ok fs : forall vo fo,
  fo + fixed_total fs <= U32_MAX -> vo + SLOT_SIZE * var_n fs <= U32_MAX ->
  layout_fields fs vo fo =
    Ok (layout fs vo fo, filter is_fixed (layout fs vo fo), filter (fun fd => ~ is_fixed fd) (layout fs vo fo)).
Proof.
  induction fs as [| [[ty nl] ix] fs IH]; intros vo fo Hf Hv; [done |].
  cbn [layout_fields layout]. rewrite type_len_flen. cbn [map_err mbind res_bind].
  cbn [fixed_total var_n foldr fst] in Hf, Hv. fold (fixed_total fs) in Hf. fold (var_n fs) in Hv.
  pose proof (fixed_total_nonneg fs). pose proof (var_n_nonneg fs). unfold add_u32, SLOT_SIZE in *.
  destruct (flen ty) as [n |] eqn:E; cbn [from_option id] in Hf.
  - rewrite (proj2 (Z.leb_le _ _)) by lia. cbn [mbind res_bind]. rewrite IH by lia. cbn [mbind res_bind].
    rewrite !filter_cons. rewrite (decide_True (P := is_fixed _)) by done. rewrite decide_False; [done |]. by intros Hn; apply Hn.
  - rewrite (proj2 (Z.leb_le _ _)) by lia. cbn [mbind res_bind]. rewrite IH by lia. cbn [mbind res_bind].
    rewrite !filter_cons. rewrite (decide_False (P := is_fixed _)) by done. rewrite decide_True; [done |]. done.
Qed.

(** The place of a field, by its kind. *)
Record placed (vo fo : Z) fs fd : Prop := mk_placed {
  pl_len : flen (fd_type_obj fd) = if fd_is_fixed_len fd then Some (sl_len (fd_slot fd)) else None;
  pl_fixed : is_fixed fd -> fo <= sl_off (fd_slot fd) /\ sl_off (fd_slot fd) + sl_len (fd_slot fd) <= fo + fixed_total fs;
  pl_var : ~ is_fixed fd -> sl_len (fd_slot fd) = SLOT_SIZE /\
    vo <= sl_off (fd_slot fd) /\ sl_off (fd_slot fd) + SLOT_SIZE <= vo + SLOT_SIZE * var_n fs;
}.

Lemma layout_placed fs : forall vo fo, Forall (placed vo fo fs) (layout fs vo fo).
Proof.
  induction fs as [| [[ty nl] ix] fs IH]; intros vo fo; cbn [layout]; [constructor |].
  pose proof (fixed_total_nonneg fs). pose proof (var_n_nonneg fs).
  destruct (flen ty) as [n |] eqn:E; (constructor; [| eapply Forall_impl; [apply IH |]; intros fd [Hl Hf Hv]]);
    (split; rewrite ?fixed_total_cons, ?var_n_cons, ?E; unfold SLOT_SIZE in *; cbn [fd_is_fixed_len fd_slot sl_off sl_len fd_type_obj]).
  - done.
  - lia.
  - by intros Hn.
  - done.
  - intros Hfx. specialize (Hf Hfx). pose proof (flen_bound _ _ E). lia.
  - intros Hn. specialize (Hv Hn). lia.
  - done.
  - done.
  - lia.
  - done.
  - intros Hfx. specialize (Hf Hfx). lia.
  - intros Hn. specialize (Hv Hn). lia.
Qed.

(** Two slots do not overlap. *)
Definition apart (a b : Slot) : Prop := sl_off a + sl_len a <= sl_off b \/ sl_off b + sl_len b <= sl_off a.

Lemma layout_apart fs : forall vo fo, vo + SLOT_SIZE * var_n fs <= fo ->
  StronglySorted (fun a b => apart (fd_slot a) (fd_slot b)) (layout fs vo fo).
Proof.
  induction fs as [| [[ty nl] ix] fs IH]; intros vo fo Hb; cbn [layout]; [constructor |].
  cbn [var_n foldr fst] in Hb. fold (var_n fs) in Hb. pose proof (var_n_nonneg fs). unfold apart.
  destruct (flen ty) as [n |] eqn:E; (constructor; [apply IH |]).
  - pose proof (flen_bound _ _ E). lia.
  - eapply Forall_impl; [apply layout_placed |]. intros fd [_ Hf Hv]. cbn [fd_slot sl_off sl_len].
    destruct (decide (is_fixed fd)) as [Hx | Hx]; [specialize (Hf Hx); lia |]. destruct (Hv Hx) as (Hl & _ & He). rewrite Hl. lia.
  - unfold SLOT_SIZE in *. lia.
  - eapply Forall_impl; [apply layout_placed |]. intros fd [_ Hf Hv]. cbn [fd_slot sl_off sl_len]. unfold SLOT_SIZE in *.
    destruct (decide (is_fixed fd)) as [Hx | Hx]; [specialize (Hf Hx); lia |]. destruct (Hv Hx) as (Hl & Ho & _). lia.
Qed.

Lemma layout_types fs : forall vo fo, fd_type_obj <$> layout fs vo fo = (fun f : TypedField => f.1.1) <$> fs.
Proof.
  induction fs as [| [[ty nl] ix] fs IH]; intros vo fo; cbn [layout]; [done |].
  destruct (flen ty); rewrite !fmap_cons, IH; done.
Qed.

Lemma layout_bits fs : forall vo fo, fd_null_bit_idx <$> layout fs vo fo = snd <$> fs.
Proof.
  induction fs as [| [[ty nl] ix] fs IH]; intros vo fo; cbn [layout]; [done |].
  destruct (flen ty); rewrite !fmap_cons, IH; done.
Qed.

Lemma is_normalized_ok types : StronglySorted type_le types -> is_normalized types = Ok true.
Proof.
  induction 1 as [| a types Hs IH Ha]; [done |]. destruct types as [| b types]; [done |]. cbn [is_normalized].
  destruct (type_cmp_ok a b) as (ord & E & Ho). rewrite E. cbn [mbind res_bind].
  rewrite bool_decide_eq_false_2; [exact IH |]. apply Ho. by inversion Ha.
Qed.

Lemma count_nullable_bound fs : 0 <= count_nullable fs /\ forall f idx, f ∈ fs -> f.2 = Some idx -> idx < count_nullable fs.
Proof.
  unfold count_nullable. assert (forall n, n <= foldl (fun n f => match snd f with Some idx => Z.max n (idx + 1) | None => n end) n fs /\
    forall f idx, f ∈ fs -> f.2 = Some idx ->
      idx < foldl (fun n f => match snd f with Some idx => Z.max n (idx + 1) | None => n end) n fs) as Hg; [| apply Hg].
  induction fs as [| g fs IH]; intros n; cbn [foldl]; [by split; [| intros f idx ?%elem_of_nil] |].
  destruct (IH match snd g with Some idx => Z.max n (idx + 1) | None => n end) as [Hn Hf]. split; [destruct (snd g); lia |].
  intros f idx [-> | Hin]%elem_of_cons E; [rewrite E in *; lia | by eapply Hf].
Qed.

(** The fields of a tuple, and the descriptor they have. *)
Record fields_ok fs : Prop := mk_fields_ok {
  fo_sorted : StronglySorted type_le ((fun f : TypedField => f.1.1) <$> fs);
  fo_null : forallb nullability_ok fs = true;
  fo_bits : NoDup (omap snd fs);
  fo_bits_pos : Forall (fun idx => 0 <= idx) (omap snd fs);
  fo_size : aligned_byte_len (count_nullable fs) + SLOT_SIZE * var_n fs + fixed_total fs <= U32_MAX;
}.

Definition desc_of fs (version : Z) : TupleBinaryDesc Ty :=
  let begin := aligned_byte_len (count_nullable fs) in
  let all := layout fs begin (begin + SLOT_SIZE * var_n fs) in
  mkTupleBinaryDesc (filter is_fixed all) (filter (fun fd => ~ is_fixed fd) all) all (zlen fs - var_n fs) (var_n fs)
    (fixed_total fs) ((fun f : TypedField => f.1.1) <$> fs) (count_nullable fs) version.

Lemma from_typed_fields_ok fs version : fields_ok fs -> from_typed_fields fs version = Ok (desc_of fs version).
Proof.
  intros [Hs Hn _ _ Hz]. unfold from_typed_fields. rewrite is_normalized_ok by done. cbn [mbind res_bind negb]. rewrite Hn. cbn [negb].
  rewrite field_sizes_ok. cbn [mbind res_bind]. rewrite !Z.add_0_l. pose proof (fixed_total_nonneg fs). pose proof (var_n_nonneg fs).
  destruct (count_nullable_bound fs) as [Hc _]. pose proof (aligned_bound _ Hc) as [Ha _]. unfold SLOT_SIZE in *.
  rewrite !as_u32_small by mlia. rewrite layout_fields_ok by (unfold SLOT_SIZE; lia). cbn [mbind res_bind].
  unfold desc_of, SLOT_SIZE. by rewrite (Z.mul_comm (var_n fs)).
Qed.

(** The fields of a descriptor have places of their own, behind the bitmap and
    in front of the data of variable length. *)
Record field_place (desc : TupleBinaryDesc Ty) fd : Prop := mk_field_place {
  fp_len : flen (fd_type_obj fd) = if fd_is_fixed_len fd then Some (sl_len (fd_slot fd)) else None;
  fp_slot : ~ is_fixed fd -> sl_len (fd_slot fd) = SLOT_SIZE;
  fp_off : null_bitmap_size desc <= sl_off (fd_slot fd) /\ 0 < sl_len (fd_slot fd);
  fp_end : sl_off (fd_slot fd) + sl_len (fd_slot fd) <= min_tuple_size desc;
  fp_bit : forall idx, fd_null_bit_idx fd = Some idx -> 0 <= idx < td_nullable_count desc;
}.

Lemma desc_sizes fs version : fields_ok fs ->
  0 <= null_bitmap_size (desc_of fs version) <= min_tuple_size (desc_of fs version) /\ min_tuple_size (desc_of fs version) <= U32_MAX.
Proof.
  intros [_ _ _ _ Hz]. unfold min_tuple_size, meta_size, null_bitmap_size, total_slot_size, desc_of. cbn.
  pose proof (fixed_total_nonneg fs). pose proof (var_n_nonneg fs). destruct (count_nullable_bound fs) as [Hc _].
  pose proof (aligned_bound _ Hc). unfold SLOT_SIZE in *. lia.
Qed.

Lemma desc_places fs version : fields_ok fs -> Forall (field_place (desc_of fs version)) (td_all (desc_of fs version)).
Proof.
  intros Hok. pose proof (desc_sizes fs version Hok) as Hsz. pose proof Hok as [_ _ _ Hpos _]. apply Forall_forall. intros fd Hin.
  pose proof (layout_placed fs (aligned_byte_len (count_nullable fs)) (aligned_byte_len (count_nullable fs) + SLOT_SIZE * var_n fs)) as Hp.
  rewrite Forall_forall in Hp. destruct (Hp fd Hin) as [Hl Hf Hv]. pose proof (fixed_total_nonneg fs). pose proof (var_n_nonneg fs).
  assert (forall idx, fd_null_bit_idx fd = Some idx -> 0 <= idx < count_nullable fs) as Hbit.
  { intros idx E. assert (Some idx ∈ snd <$> fs) as Hi.
    { rewrite <- (layout_bits fs (aligned_byte_len (count_nullable fs)) (aligned_byte_len (count_nullable fs) + SLOT_SIZE * var_n fs)).
      rewrite <- E. by apply list_elem_of_fmap_2. }
    apply list_elem_of_fmap in Hi as (f & E1 & Hi). split; [| by eapply count_nullable_bound].
    rewrite Forall_forall in Hpos. apply Hpos. apply list_elem_of_omap. by exists f. }
  unfold min_tuple_size, meta_size, null_bitmap_size, total_slot_size in *. cbn in Hsz.
  split; unfold min_tuple_size, meta_size, null_bitmap_size, total_slot_size; cbn; unfold SLOT_SIZE in *.
  - done.
  - intros Hn. by apply Hv.
  - destruct (decide (is_fixed fd)) as [Hx | Hx]; [specialize (Hf Hx) | specialize (Hv Hx); lia].
    unfold is_fixed in Hx. rewrite Hx in Hl. apply flen_bound in Hl. lia.
  - destruct (decide (is_fixed fd)) as [Hx | Hx]; [specialize (Hf Hx); lia |]. destruct (Hv Hx) as (El & _ & He). rewrite El. lia.
  - done.
Qed.

Lemma desc_apart fs version :
  StronglySorted (fun a b => apart (fd_slot a) (fd_slot b)) (td_all (desc_of fs version)).
Proof. apply layout_apart. lia. Qed.

Lemma desc_length fs version : length (td_all (desc_of fs version)) = length fs.
Proof.
  cbn. pose proof (f_equal length (layout_types fs (aligned_byte_len (count_nullable fs))
    (aligned_byte_len (count_nullable fs) + SLOT_SIZE * var_n fs))) as E. by rewrite !length_fmap in E.
Qed.
End layout.
