(* ===== verification/TupleProperties.v ===== *)
(** * Tuples are read back as they were built

    A tuple is the concatenation of its bitmap, its slots, its fixed fields
    and its data ([encode]).  [TupleBuilder::build] builds exactly that, and
    the readers find every field in it. *)

From S2P Require Import Prelude Errors Compat Versions Tuples TupleLayout.

(** ** The canonical form *)

Section encode.
Context {Ty V : Type} `{TypeFnsOk Ty V} `{PackagesOk}.

Notation TypedField := (Ty * bool * option Z)%type.
Implicit Types (fs : list TypedField) (vs : list (NullableValue V)) (fd : FieldDesc Ty).

(** The bytes of a value. *)
Definition sent (ty : Ty) (v : V) : list byte := match type_send v ty with Ok bs => bs | _ => [] end.

Lemma sent_ok ty v : tv_ok ty v ->
  type_send v ty = Ok (sent ty v) /\ type_recv (sent ty v) ty = Ok (v, zlen (sent ty v)) /\
  match flen ty with Some n => zlen (sent ty v) = n | None => True end.
Proof.
  intros Hv. destruct (type_send_ok ty v Hv) as (bs & E & Er & El). unfold sent. rewrite E. split_and!; [done | done |].
  rewrite type_len_flen in El. done.
Qed.

Definition value_ok (f : TypedField) (v : NullableValue V) : Prop :=
  match v with Null => is_Some f.2 | Value v => tv_ok f.1.1 v end.

(** The slots, for data from [off] on; the fixed fields; the data. *)
Fixpoint enc_slots fs vs (off : Z) : list byte :=
  match fs, vs with
  | (ty, _, _) :: fs, v :: vs =>
      match flen ty, v with
      | Some _, _ => enc_slots fs vs off
      | None, Null => zeros SLOT_SIZE ++ enc_slots fs vs off
      | None, Value v => slot_bytes (mkSlot off (zlen (sent ty v))) ++ enc_slots fs vs (off + zlen (sent ty v))
      end
  | _, _ => []
  end.

Fixpoint enc_fixed fs vs : list byte :=
  match fs, vs with
  | (ty, _, _) :: fs, v :: vs =>
      match flen ty, v with
      | Some n, Null => zeros n ++ enc_fixed fs vs
      | Some _, Value v => sent ty v ++ enc_fixed fs vs
      | None, _ => enc_fixed fs vs
      end
  | _, _ => []
  end.

Fixpoint enc_data fs vs : list byte :=
  match fs, vs with
  | (ty, _, _) :: fs, v :: vs =>
      match flen ty, v with
      | None, Value v => sent ty v ++ enc_data fs vs
      | _, _ => enc_data fs vs
      end
  | _, _ => []
  end.

(** The bits of the NULL fields. *)
Fixpoint set_bits fs vs (bm : Bitmap) : RS Bitmap :=
  match fs, vs with
  | (_, _, idx) :: fs, v :: vs =>
      bm ← match idx with Some idx => Bitmap_set idx (match v with Null => true | Value _ => false end) bm | None => Ok bm end;
      set_bits fs vs bm
  | _, _ => Ok bm
  end.

Definition data_start fs : Z := aligned_byte_len (count_nullable fs) + SLOT_SIZE * var_n fs + fixed_total fs.

Definition encode fs vs (bm : Bitmap) : list byte :=
  bm_bytes bm ++ enc_slots fs vs (data_start fs) ++ enc_fixed fs vs ++ enc_data fs vs.

Lemma zlen_enc_slots fs : forall vs off, length fs = length vs -> zlen (enc_slots fs vs off) = SLOT_SIZE * var_n fs.
Proof.
  induction fs as [| [[ty nl] ix] fs IH]; intros [| v vs] off El; try done. cbn in El. cbn [enc_slots]. rewrite var_n_cons.
  destruct (flen ty) as [n |]; [rewrite IH by lia; lia |].
  destruct v; rewrite zlen_app, IH, ?zlen_slot_bytes, ?zlen_zeros by (done || lia); lia.
Qed.

Lemma zlen_enc_fixed fs : forall vs, Forall2 value_ok fs vs -> zlen (enc_fixed fs vs) = fixed_total fs.
Proof.
  induction fs as [| [[ty nl] ix] fs IH]; intros vs Hv; inversion Hv as [| f v fs' vs' Hf Hr]; subst; [done |]. cbn [enc_fixed].
  rewrite fixed_total_cons. destruct (flen ty) as [n |] eqn:E; [| by rewrite IH].
  destruct v as [| v]; rewrite zlen_app, IH by done.
  - apply flen_bound in E. by rewrite zlen_zeros by lia.
  - apply sent_ok in Hf as (_ & _ & El). cbn in El. rewrite E in El. lia.
Qed.

(** ** TupleBuilder::build *)

(** A field of fixed length is written in place, one of variable length at
    the end, with its slot in place. *)
Lemma put_fixed ty nl ix n v off bm bm' (A F Z D : list byte) :
  flen ty = Some n -> tv_ok ty v -> zlen Z = n ->
  (match ix with Some bit_idx => Bitmap_set bit_idx false bm | None => Ok bm end) = Ok bm' ->
  put_field (mkFieldDesc true (mkSlot (zlen A + zlen F) n) ty nl ix) (Value v) off bm (A ++ F ++ Z ++ D) =
    Ok (bm', A ++ F ++ sent ty v ++ D, off).
Proof.
  intros E Hv Hz Hb. apply sent_ok in Hv as (Es & _ & El). rewrite E in El. unfold put_field. cbn [fd_null_bit_idx].
  rewrite Hb. cbn [mbind res_bind fd_type_obj fd_is_fixed_len fd_slot sl_off sl_len]. rewrite Es. cbn [map_err mbind res_bind].
  pose proof (zlen_nonneg A). pose proof (zlen_nonneg F). pose proof (zlen_nonneg D). pose proof (zlen_nonneg Z).
  rewrite copy_from_slice_ok by (rewrite ?zlen_app; lia). rewrite !(app_assoc A F). rewrite zput_mid by (rewrite ?zlen_app; lia). done.
Qed.

Lemma put_var ty nl ix v off bm bm' (A Z B : list byte) :
  flen ty = None -> tv_ok ty v -> zlen Z = SLOT_SIZE -> off = zlen (A ++ Z ++ B) -> off + zlen (sent ty v) <= U32_MAX ->
  (match ix with Some bit_idx => Bitmap_set bit_idx false bm | None => Ok bm end) = Ok bm' ->
  put_field (mkFieldDesc false (mkSlot (zlen A) SLOT_SIZE) ty nl ix) (Value v) off bm (A ++ Z ++ B) =
    Ok (bm', A ++ slot_bytes (mkSlot off (zlen (sent ty v))) ++ B ++ sent ty v, off + zlen (sent ty v)).
Proof.
  intros E Hv Hz Ho Hm Hb. apply sent_ok in Hv as (Es & _ & _). unfold put_field. cbn [fd_null_bit_idx].
  rewrite Hb. cbn [mbind res_bind fd_type_obj fd_is_fixed_len fd_slot sl_off sl_len]. rewrite Es. cbn [map_err mbind res_bind].
  pose proof (zlen_nonneg A). pose proof (zlen_nonneg B). pose proof (zlen_nonneg (sent ty v)). unfold SLOT_SIZE in *.
  rewrite !zlen_app in Ho. unfold mbind, st_bind, st_modify. rewrite on_slice_ok by (rewrite ?zlen_app; lia).
  rewrite slot_write by (rewrite zlen_zsub; rewrite ?zlen_app; unfold SLOT_SIZE; lia). rewrite !as_u32_small by mlia.
  rewrite <- !app_assoc. rewrite zput_mid by (rewrite ?zlen_slot_bytes; done). done.
Qed.

Lemma put_fields_ok fs : forall vs (A F D : list byte) bm bm' off vo fo T T',
  Forall2 value_ok fs vs -> set_bits fs vs bm = Ok bm' ->
  vo = zlen A -> fo = vo + SLOT_SIZE * var_n fs + zlen F ->
  off = fo + fixed_total fs + zlen D -> off + zlen (enc_data fs vs) <= U32_MAX ->
  T = A ++ zeros (SLOT_SIZE * var_n fs) ++ F ++ zeros (fixed_total fs) ++ D ->
  T' = A ++ enc_slots fs vs off ++ F ++ enc_fixed fs vs ++ D ++ enc_data fs vs ->
  put_fields (layout fs vo fo) vs off bm T = Ok (bm', T').
Proof.
  induction fs as [| [[ty nl] ix] fs IH]; intros [| v vs'] A F D bm bm' off vo fo T T' Hv Hb Evo Efo Ho Hm ET ET';
    try (by inversion Hv).
  { cbn in Hb. injection Hb as <-. subst T T'. cbn. by rewrite app_nil_r. }
  apply Forall2_cons in Hv as [Hf Hr]. cbn [set_bits] in Hb. apply res_bind_inv in Hb as (bm1 & Hb1 & Hb). cbn [layout]. cbn [enc_slots enc_fixed enc_data] in *.
  rewrite fixed_total_cons, var_n_cons in *. pose proof (fixed_total_nonneg fs). pose proof (var_n_nonneg fs).
  pose proof (zlen_nonneg A). pose proof (zlen_nonneg F). pose proof (zlen_nonneg D). unfold SLOT_SIZE in *.
  destruct (flen ty) as [n |] eqn:E; [pose proof (flen_bound _ _ E) |]; destruct v as [| v]; cbn [put_fields].
  - destruct Hf as [idx Eidx]. cbn in Eidx. subst ix. unfold put_field. cbn [fd_null_bit_idx]. rewrite Hb1. cbn [mbind res_bind].
    eapply (IH vs' A (F ++ zeros n) D); try done; rewrite ?zlen_app, ?zlen_zeros by lia; try lia.
    + rewrite ET, zeros_add, <- !app_assoc by lia. by rewrite Z.add_0_l.
    + by rewrite ET', <- !app_assoc.
  - replace T with ((A ++ zeros (8 * var_n fs)) ++ F ++ zeros n ++ zeros (fixed_total fs) ++ D)
      by (rewrite ET, zeros_add, <- !app_assoc by lia; by rewrite Z.add_0_l).
    replace fo with (zlen (A ++ zeros (8 * var_n fs)) + zlen F) by (rewrite zlen_app, zlen_zeros by lia; lia).
    rewrite (put_fixed _ _ _ _ _ _ _ bm1) by (done || rewrite ?zlen_zeros; lia). cbn [mbind res_bind].
    apply sent_ok in Hf as (_ & _ & El). cbn in El. rewrite E in El.
    eapply (IH vs' A (F ++ sent ty v) D); try done; rewrite ?zlen_app, ?zlen_zeros by lia; try lia.
    + by rewrite <- !app_assoc.
    + by rewrite ET', <- !app_assoc.
  - destruct Hf as [idx Eidx]. cbn in Eidx. subst ix. unfold put_field. cbn [fd_null_bit_idx]. rewrite Hb1. cbn [mbind res_bind].
    eapply (IH vs' (A ++ zeros 8) F D); try done; rewrite ?zlen_app, ?zlen_zeros by lia; try lia.
    + rewrite ET, Z.mul_add_distr_l, zeros_add, <- !app_assoc by lia. done.
    + by rewrite ET', <- !app_assoc.
  - rewrite zlen_app in Hm. pose proof (zlen_nonneg (enc_data fs vs')).
    replace T with (A ++ zeros 8 ++ zeros (8 * var_n fs) ++ F ++ zeros (fixed_total fs) ++ D)
      by (rewrite ET, Z.mul_add_distr_l, zeros_add, <- !app_assoc by lia; done).
    subst vo. pose proof (put_var ty nl ix v off bm bm1 A (zeros 8) (zeros (8 * var_n fs) ++ F ++ zeros (fixed_total fs) ++ D) E Hf) as Ev.
    unfold SLOT_SIZE in Ev. rewrite Ev by (done || rewrite ?zlen_app, ?zlen_zeros; lia). cbn [mbind res_bind].
    eapply (IH vs' (A ++ slot_bytes (mkSlot off (zlen (sent ty v)))) F (D ++ sent ty v)); try done;
      rewrite ?zlen_app, ?zlen_slot_bytes; unfold SLOT_SIZE; try lia.
    + by rewrite <- !app_assoc.
    + by rewrite ET', <- !app_assoc.
Qed.

Lemma set_bits_ok fs : forall vs bm,
  length fs = length vs -> bitmap_wf bm -> Forall (fun idx => 0 <= idx < bm_bits bm) (omap snd fs) ->
  exists bm', set_bits fs vs bm = Ok bm' /\ bitmap_wf bm' /\ bm_bits bm' = bm_bits bm /\
    (forall j, 0 <= j -> j ∉ omap snd fs -> bit_at bm' j = bit_at bm j) /\
    (NoDup (omap snd fs) -> forall i f v idx, fs !! i = Some f -> vs !! i = Some v -> f.2 = Some idx ->
       bit_at bm' idx = match v with Null => true | Value _ => false end).
Proof.
  induction fs as [| [[ty nl] ix] fs IH]; intros [| v vs] bm El Hw Hi; try done.
  { exists bm. split_and!; try done. }
  cbn [set_bits]. cbn in El. change (omap snd ((ty, nl, ix) :: fs)) with
    (match ix with Some y => y :: omap snd fs | None => omap snd fs end) in *.
  destruct ix as [idx |]; cbn [mbind res_bind].
  - apply Forall_cons in Hi as [Hi0 Hi]. destruct (bitmap_set_ok bm idx match v with Null => true | Value _ => false end Hw Hi0)
      as (bm1 & E1 & Hw1 & Eb1 & Hat). rewrite E1. cbn [mbind res_bind].
    destruct (IH vs bm1) as (bm' & E & Hw' & Eb & Hframe & Hat'); [lia | done | by rewrite Eb1 |].
    exists bm'. split_and!; try done; [congruence | |].
    + intros j Hj [Hne Hn]%not_elem_of_cons. rewrite Hframe, Hat by done. by rewrite bool_decide_eq_false_2.
    + intros [Hni Hnd]%NoDup_cons [| i] f w idx' Ef Ev Ex; cbn in Ef, Ev; [| by eapply Hat'].
      injection Ef as <-. injection Ev as <-. injection Ex as <-. rewrite Hframe, Hat by (done || lia).
      by rewrite bool_decide_eq_true_2.
  - destruct (IH vs bm) as (bm' & E & Hw' & Eb & Hframe & Hat'); [lia | done | done |].
    exists bm'. split_and!; try done. intros Hnd [| i] f w idx' Ef Ev Ex; [| by eapply Hat'].
    injection Ef as <-. done.
Qed.

(** The bits of a tuple. *)
Definition null_bits fs vs : Bitmap := match set_bits fs vs (Bitmap_new (count_nullable fs)) with Ok bm => bm | _ => Bitmap_new 0 end.

Lemma null_bits_ok fs vs : fields_ok fs -> length fs = length vs ->
  set_bits fs vs (Bitmap_new (count_nullable fs)) = Ok (null_bits fs vs) /\ bitmap_wf (null_bits fs vs) /\
  bm_bits (null_bits fs vs) = count_nullable fs /\
  forall i f v idx, fs !! i = Some f -> vs !! i = Some v -> f.2 = Some idx ->
    bit_at (null_bits fs vs) idx = match v with Null => true | Value _ => false end.
Proof.
  intros [_ _ Hnd Hpos _] El. destruct (count_nullable_bound fs) as [Hc Hb].
  destruct (set_bits_ok fs vs (Bitmap_new (count_nullable fs))) as (bm & E & Hw & Eb & _ & Hat); [done | by apply bitmap_new_wf | |].
  - apply Forall_forall. intros idx Hin. rewrite Forall_forall in Hpos. split; [by apply Hpos |].
    apply list_elem_of_omap in Hin as (f & Hin & Ef). by eapply Hb.
  - unfold null_bits. rewrite E. split_and!; try done. by apply Hat.
Qed.

Definition tuple_fits fs vs : Prop := data_start fs + zlen (enc_data fs vs) <= U32_MAX.

Lemma build_nullable_ok fs vs version : fields_ok fs -> Forall2 value_ok fs vs -> tuple_fits fs vs ->
  build_nullable (desc_of fs version) vs = Ok (encode fs vs (null_bits fs vs)).
Proof.
  intros Hok Hv Hm. pose proof (Forall2_length _ _ _ Hv) as El. destruct (null_bits_ok fs vs Hok El) as (Eb & [_ Hw] & En & _).
  unfold tuple_fits, data_start in Hm. destruct (count_nullable_bound fs) as [Hc _]. pose proof (aligned_bound _ Hc) as [Ha _].
  pose proof (fixed_total_nonneg fs). pose proof (var_n_nonneg fs). rewrite En in Hw. unfold build_nullable.
  replace (field_count (desc_of fs version)) with (zlen vs) by (unfold field_count, zlen; cbn; rewrite length_fmap; lia).
  rewrite Z.eqb_refl. cbn [negb]. unfold min_tuple_size, meta_size, null_bitmap_size, total_slot_size. cbn [desc_of td_all td_nullable_count
    td_var_count td_total_fixed_size]. rewrite (Z.mul_comm (var_n fs)). unfold SLOT_SIZE in *.
  rewrite (put_fields_ok fs vs (zeros (aligned_byte_len (count_nullable fs))) [] [] _ (null_bits fs vs) _ _ _ _
    (zeros (aligned_byte_len (count_nullable fs)) ++ enc_slots fs vs (data_start fs) ++ enc_fixed fs vs ++ enc_data fs vs));
    rewrite ?zlen_nil, ?zlen_zeros; unfold SLOT_SIZE; try done; try lia.
  - cbn [mbind res_bind]. rewrite copy_from_slice_ok; [| lia | rewrite zlen_app, zlen_zeros by done | lia].
    + rewrite zput_full_app by (rewrite zlen_zeros; lia). done.
    + pose proof (zlen_nonneg (enc_slots fs vs (data_start fs) ++ enc_fixed fs vs ++ enc_data fs vs)). lia.
  - by rewrite !zeros_add, app_nil_r, <- !app_assoc by lia.
Qed.

(** ** Readers *)

(** A field of a tuple whose data, if it has any, is at [o]. *)
Definition holds fd (bs : list byte) (o : Z) (T : list byte) : Prop :=
  0 <= sl_off (fd_slot fd) /\ sl_off (fd_slot fd) + sl_len (fd_slot fd) <= zlen T /\
  if fd_is_fixed_len fd then sl_len (fd_slot fd) = zlen bs /\ T.[sl_off (fd_slot fd), zlen bs] = bs
  else sl_len (fd_slot fd) = SLOT_SIZE /\ T.[sl_off (fd_slot fd), SLOT_SIZE] = slot_bytes (mkSlot o (zlen bs)) /\
       T.[o, zlen bs] = bs /\ 0 <= o /\ o + zlen bs <= zlen T <= U32_MAX.

Lemma holds_slot fd bs o T : holds fd bs o T -> fd_is_fixed_len fd = false -> read_slot fd T = Ok (mkSlot o (zlen bs)).
Proof.
  intros (Hp & He & Hf) Ef. rewrite Ef in Hf. destruct Hf as (El & Es & _ & Ho & Hm). rewrite El in He. unfold SLOT_SIZE in *.
  pose proof (zlen_nonneg bs). unfold read_slot, SLOT_SIZE. rewrite (proj2 (Z.ltb_ge _ _)) by lia. rewrite slice_ok by lia. cbn [mbind res_bind].
  replace (_ + 8 - _) with 8 by lia. rewrite Es, slot_roundtrip by (split; cbn; mlia). cbn [mbind res_bind sl_off sl_len].
  by rewrite (proj2 (Z.ltb_ge _ _)) by lia.
Qed.

Lemma holds_read fd bs o T : holds fd bs o T -> field_bytes fd T = Ok bs /\ read_binary_data fd T = Ok bs.
Proof.
  intros (Hp & He & Hf). unfold field_bytes, read_binary_data. pose proof (zlen_nonneg bs). destruct (fd_is_fixed_len fd).
  - destruct Hf as [El Eb]. unfold read_fixed_len_value. rewrite (proj2 (Z.ltb_ge _ _)) by lia. rewrite slice_ok by lia.
    replace (_ + _ - _) with (zlen bs) by lia. by rewrite Eb.
  - destruct Hf as (El & Es & Eb & Ho & Hm). unfold read_var_len_value, SLOT_SIZE in *. rewrite El in He.
    rewrite (proj2 (Z.ltb_ge (zlen T) (sl_off (fd_slot fd) + 8))) by lia. rewrite slice_ok by lia. cbn [mbind res_bind].
    replace (_ + 8 - _) with 8 by lia. rewrite Es, slot_roundtrip by (split; cbn; mlia). cbn [mbind res_bind sl_off sl_len].
    rewrite (proj2 (Z.ltb_ge _ _)) by lia. rewrite slice_ok by lia. replace (o + _ - o) with (zlen bs) by lia. by rewrite Eb.
Qed.

Lemma enc_holds fs : forall vs (A F D E : list byte) off vo fo T i v,
  Forall2 value_ok fs vs -> vo = zlen A -> fo = vo + SLOT_SIZE * var_n fs + zlen F ->
  off = fo + fixed_total fs + zlen D -> zlen T <= U32_MAX ->
  T = A ++ enc_slots fs vs off ++ F ++ enc_fixed fs vs ++ D ++ enc_data fs vs ++ E ->
  vs !! i = Some (Value v) ->
  exists fd, layout fs vo fo !! i = Some fd /\
    holds fd (sent (fd_type_obj fd) v) (off + zlen (enc_data (take i fs) (take i vs))) T.
Proof.
  induction fs as [| [[ty nl] ix] fs IH]; intros [| w vs] A F D E off vo fo T i v Hv Evo Efo Eoff Hm ET Ei; try done; try (by inversion Hv).
  apply Forall2_cons in Hv as [Hf Hr]. cbn [layout]. cbn [enc_slots enc_fixed enc_data] in ET.
  rewrite fixed_total_cons, var_n_cons in *. pose proof (fixed_total_nonneg fs). pose proof (var_n_nonneg fs).
  pose proof (zlen_nonneg A). pose proof (zlen_nonneg F). pose proof (zlen_nonneg D). pose proof (zlen_nonneg E).
  pose proof (Forall2_length _ _ _ Hr) as El. pose proof (fun o => zlen_enc_slots fs vs o El) as Hs. pose proof (zlen_enc_fixed fs vs Hr) as Hx.
  pose proof (zlen_nonneg (enc_data fs vs)). unfold SLOT_SIZE in *.
  destruct (flen ty) as [n |] eqn:En; [pose proof (flen_bound _ _ En) |]; destruct i as [| i]; cbn [lookup list_lookup] in Ei |- *.
  - injection Ei as ->. eexists. split; [reflexivity |]. apply sent_ok in Hf as (_ & _ & Hl). cbn in Hl. rewrite En in Hl.
    assert (T = (A ++ enc_slots fs vs off ++ F) ++ sent ty v ++ enc_fixed fs vs ++ D ++ enc_data fs vs ++ E) as ET1
      by (by rewrite ET, <- !app_assoc).
    assert (zlen T = zlen A + 8 * var_n fs + zlen F + n + fixed_total fs + zlen D + zlen (enc_data fs vs) + zlen E) as EL
      by (rewrite ET, !zlen_app, Hs; lia).
    split; [cbn; lia |]. split; [cbn; lia |]. cbn. split; [done |]. rewrite ET1. apply zsub_mid; [| done]. rewrite !zlen_app, Hs. lia.
  - destruct w as [| w].
    + destruct (IH vs A (F ++ zeros n) D E off vo (fo + n) T i v) as (fd & Efd & Hh); try done;
        rewrite ?zlen_app, ?zlen_zeros by lia; try lia; [by rewrite ET, <- !app_assoc |].
      exists fd. split; [done |]. cbn [take enc_data]. by rewrite En.
    + apply sent_ok in Hf as (_ & _ & Hl). cbn in Hl. rewrite En in Hl.
      destruct (IH vs A (F ++ sent ty w) D E off vo (fo + n) T i v) as (fd & Efd & Hh); try done;
        rewrite ?zlen_app by lia; try lia; [by rewrite ET, <- !app_assoc |].
      exists fd. split; [done |]. cbn [take enc_data]. by rewrite En.
  - injection Ei as ->. eexists. split; [reflexivity |]. cbn [take enc_data]. rewrite zlen_nil, Z.add_0_r.
    set (rest := enc_slots fs vs (off + zlen (sent ty v)) ++ F ++ enc_fixed fs vs ++ D).
    assert (T = (A ++ slot_bytes (mkSlot off (zlen (sent ty v))) ++ rest) ++ sent ty v ++ enc_data fs vs ++ E) as ET1
      by (by rewrite ET; unfold rest; rewrite <- !app_assoc).
    assert (zlen rest = 8 * var_n fs + zlen F + fixed_total fs + zlen D) as Erest by (unfold rest; rewrite !zlen_app, Hs; lia).
    pose proof (zlen_slot_bytes (mkSlot off (zlen (sent ty v)))) as Esl. pose proof (zlen_nonneg (sent ty v)). unfold SLOT_SIZE in Esl.
    assert (zlen T = zlen A + 8 + zlen rest + zlen (sent ty v) + zlen (enc_data fs vs) + zlen E) as EL
      by (rewrite ET1, !zlen_app, Esl; lia).
    split; [cbn; lia |]. split; [cbn; lia |]. cbn. unfold SLOT_SIZE. split_and!; [done | | | lia | lia | done].
    + rewrite ET1, <- !app_assoc. by apply zsub_mid.
    + rewrite ET1. apply zsub_mid; [| done]. rewrite !zlen_app, Esl. lia.
  - destruct w as [| w].
    + destruct (IH vs (A ++ zeros 8) F D E off (vo + 8) fo T i v) as (fd & Efd & Hh); try done;
        rewrite ?zlen_app, ?zlen_zeros by lia; try lia; [by rewrite ET, <- !app_assoc |].
      exists fd. split; [done |]. cbn [take enc_data]. by rewrite En.
    + destruct (IH vs (A ++ slot_bytes (mkSlot off (zlen (sent ty w)))) F (D ++ sent ty w) E (off + zlen (sent ty w)) (vo + 8) fo T i v)
        as (fd & Efd & Hh); try done; rewrite ?zlen_app, ?zlen_slot_bytes; unfold SLOT_SIZE; try lia; [by rewrite ET, <- !app_assoc |].
      exists fd. split; [done |]. cbn [take enc_data]. rewrite En, zlen_app, Z.add_assoc. done.
Qed.

Lemma layout_lookup fs : forall i f vo fo, fs !! i = Some f ->
  exists fd, layout fs vo fo !! i = Some fd /\ fd_type_obj fd = f.1.1 /\ fd_null_bit_idx fd = f.2 /\
    fd_is_fixed_len fd = match flen f.1.1 with Some _ => true | None => false end.
Proof.
  induction fs as [| [[ty nl] ix] fs IH]; intros [| i] f vo fo Ef; try done; cbn [layout].
  - injection Ef as <-. cbn. destruct (flen ty) eqn:E; eexists; split; done.
  - destruct (flen ty); cbn; by apply IH.
Qed.

Lemma zlen_encode fs vs : fields_ok fs -> Forall2 value_ok fs vs ->
  zlen (encode fs vs (null_bits fs vs)) = data_start fs + zlen (enc_data fs vs).
Proof.
  intros Hok Hv. pose proof (Forall2_length _ _ _ Hv) as El. destruct (null_bits_ok fs vs Hok El) as (_ & [_ Hw] & En & _).
  unfold encode, data_start. rewrite !zlen_app, zlen_enc_slots, zlen_enc_fixed by done. rewrite Hw, En. lia.
Qed.

Lemma desc_min fs version : min_tuple_size (desc_of fs version) = data_start fs.
Proof. unfold min_tuple_size, meta_size, null_bitmap_size, total_slot_size, data_start. cbn. lia. Qed.

Lemma desc_count fs version : field_count (desc_of fs version) = zlen fs.
Proof. unfold field_count, zlen. cbn. by rewrite length_fmap. Qed.

Lemma get_field_desc_at fs version i fd : td_all (desc_of fs version) !! i = Some fd ->
  get_field_desc (Z.of_nat i) (desc_of fs version) = Ok fd.
Proof. intros E. unfold get_field_desc. by rewrite Nat2Z.id, E. Qed.

(** The field of a value that is not NULL. *)
Lemma encode_holds fs vs version i v : fields_ok fs -> Forall2 value_ok fs vs -> tuple_fits fs vs -> vs !! i = Some (Value v) ->
  exists fd, td_all (desc_of fs version) !! i = Some fd /\
    holds fd (sent (fd_type_obj fd) v) (data_start fs + zlen (enc_data (take i fs) (take i vs))) (encode fs vs (null_bits fs vs)).
Proof.
  intros Hok Hv Hm Ei. pose proof (Forall2_length _ _ _ Hv) as El. destruct (null_bits_ok fs vs Hok El) as (_ & [_ Hw] & En & _).
  rewrite En in Hw. unfold data_start. eapply (enc_holds fs vs (bm_bytes (null_bits fs vs)) [] [] []); try done.
  - rewrite zlen_nil. lia.
  - rewrite zlen_nil. lia.
  - by rewrite zlen_encode.
  - unfold encode, data_start. by rewrite app_nil_r.
Qed.

(** Whether a field is NULL depends on the bitmap only. *)
Lemma bitmap_null fs vs version i v rest : fields_ok fs -> Forall2 value_ok fs vs -> vs !! i = Some v ->
  data_start fs <= zlen (bm_bytes (null_bits fs vs) ++ rest) ->
  is_null (bm_bytes (null_bits fs vs) ++ rest) (desc_of fs version) (Z.of_nat i) = Ok match v with Null => true | Value _ => false end.
Proof.
  intros Hok Hv Ei Hz. pose proof (Forall2_length _ _ _ Hv) as El. destruct (null_bits_ok fs vs Hok El) as (_ & Hw & En & Hat).
  destruct (Forall2_lookup_r _ _ _ _ _ Hv Ei) as (f & Ef & Hf). pose proof (lookup_lt_Some _ _ _ Ef).
  destruct (layout_lookup fs i f (aligned_byte_len (count_nullable fs))
    (aligned_byte_len (count_nullable fs) + SLOT_SIZE * var_n fs) Ef) as (fd & Efd & _ & Eix & _).
  unfold is_null. rewrite desc_count. rewrite (proj2 (Z.leb_gt _ _)) by (unfold zlen; lia).
  rewrite (get_field_desc_at fs version i fd Efd). cbn [mbind res_bind]. rewrite desc_min.
  rewrite (proj2 (Z.ltb_ge _ _)) by lia. rewrite Eix.
  destruct (f.2) as [idx |] eqn:E2; [| destruct v as [| v]; [by destruct Hf; congruence | done]].
  pose proof Hw as [_ Hl]. destruct (count_nullable_bound fs) as [Hc Hb]. destruct Hok as [_ _ _ Hpos _].
  unfold null_bitmap_size. cbn [desc_of td_nullable_count].
  rewrite <- (app_nil_l (bm_bytes _ ++ _)). rewrite slice_mid by (rewrite ?Hl, ?En; done). cbn [mbind res_bind].
  rewrite <- (app_nil_r (bm_bytes _)), bitmap_from_bytes_ok by done. cbn [mbind res_bind]. rewrite bitmap_get_ok; [by erewrite Hat | done |].
  rewrite En. split; [| by eapply Hb, E2; eapply list_elem_of_lookup_2].
  rewrite Forall_forall in Hpos. apply Hpos, list_elem_of_omap. exists f. split; [by eapply list_elem_of_lookup_2 | done].
Qed.

Lemma encode_null fs vs version i v : fields_ok fs -> Forall2 value_ok fs vs -> vs !! i = Some v ->
  is_null (encode fs vs (null_bits fs vs)) (desc_of fs version) (Z.of_nat i) = Ok match v with Null => true | Value _ => false end.
Proof.
  intros Hok Hv Ei. apply bitmap_null; [done.. |]. fold (encode fs vs (null_bits fs vs)). rewrite zlen_encode by done.
  pose proof (zlen_nonneg (enc_data fs vs)). lia.
Qed.

Lemma encode_read fs vs version i v : fields_ok fs -> Forall2 value_ok fs vs -> tuple_fits fs vs -> vs !! i = Some v ->
  read_value (encode fs vs (null_bits fs vs)) (desc_of fs version) (Z.of_nat i) = Ok v.
Proof.
  intros Hok Hv Hm Ei. unfold read_value. rewrite (encode_null fs vs version i v) by done. cbn [mbind res_bind].
  destruct v as [| v]; [done |]. destruct (encode_holds fs vs version i v) as (fd & Efd & Hh); [done.. |].
  rewrite (get_field_desc_at fs version i fd Efd). cbn [mbind res_bind]. rewrite (proj1 (holds_read _ _ _ _ Hh)). cbn [mbind res_bind].
  destruct (Forall2_lookup_r _ _ _ _ _ Hv Ei) as (f & Ef & Hf). destruct (layout_lookup fs i f (aligned_byte_len (count_nullable fs))
    (aligned_byte_len (count_nullable fs) + SLOT_SIZE * var_n fs) Ef) as (fd' & Efd' & Ety & _). cbn in Efd. simplify_eq.
  rewrite Ety. apply sent_ok in Hf as (_ & Er & _). by rewrite Er.
Qed.
End encode.
