(* ===== verification/TupleBuild.v ===== *)
(** * Two ways to build a tuple

    [build_tuple] and [build_tuple_into] write fields that are never NULL into
    a buffer that may be too small; [TupleBuilder::build] is the reference. *)

From S2P Require Import Prelude Errors Compat Versions Tuples TupleLayout TupleProperties.

Section build.
Context {Ty V : Type} `{TypeFnsOk Ty V} `{PackagesOk}.

Notation TypedField := (Ty * bool * option Z)%type.
Implicit Types (fs : list TypedField) (vs : list V) (fd : FieldDesc Ty).

(** The bytes of values that are not NULL. *)
Fixpoint sent_all fs vs : list (list byte) :=
  match fs, vs with
  | (ty, _, _) :: fs, v :: vs => sent ty v :: sent_all fs vs
  | _, _ => []
  end.

(** ** One value *)

Lemma write_value_fits (X G v : list byte) : zlen v <= zlen G ->
  write_value_to_tuple (zlen X) v (X ++ G) = (Ok (inl (zlen v)), X ++ v ++ drop (length v) G).
Proof.
  intros Hf. pose proof (zlen_nonneg X). pose proof (zlen_nonneg v). unfold write_value_to_tuple. st_step by reflexivity.
  rewrite on_slice_ok by (rewrite ?zlen_app; lia). rewrite zlen_app. replace (zlen X + zlen G - zlen X) with (zlen G) by lia.
  rewrite zsub_app_r, Z.sub_diag, zsub_all by lia. unfold write_value_to_buf. erewrite st_bind_ok by reflexivity. cbv beta.
  rewrite (proj2 (Z.ltb_ge _ _)) by lia. erewrite st_bind_ok by (apply copy_from_slice_ok; lia). cbv beta. cbn [mret st_ret].
  assert (zput 0 v G = v ++ drop (length v) G) as Ep.
  { unfold zput. cbn. done. }
  rewrite Ep. f_equal. rewrite <- (app_nil_r G) at 2. rewrite zput_mid; [by rewrite app_nil_r | done |].
  unfold zlen in *. rewrite length_app, length_drop. lia.
Qed.

Lemma write_value_full (X G v : list byte) : zlen G < zlen v ->
  write_value_to_tuple (zlen X) v (X ++ G) = (Ok (inr (zlen v)), X ++ G).
Proof.
  intros Hf. pose proof (zlen_nonneg X). pose proof (zlen_nonneg G). unfold write_value_to_tuple. st_step by reflexivity.
  rewrite on_slice_ok by (rewrite ?zlen_app; lia). rewrite zlen_app. replace (zlen X + zlen G - zlen X) with (zlen G) by lia.
  rewrite zsub_app_r, Z.sub_diag, zsub_all by lia. unfold write_value_to_buf. erewrite st_bind_ok by reflexivity. cbv beta.
  rewrite (proj2 (Z.ltb_lt _ _)) by lia. cbn [mret st_ret]. f_equal. rewrite <- (app_nil_r G) at 2.
  rewrite zput_mid; [by rewrite app_nil_r | done | done].
Qed.

(** The loop that doubles the tuple ends, with the value written. *)
Lemma write_growing_ok v (X : list byte) : forall fuel G,
  0 < zlen (X ++ G) -> Z.max 0 (zlen X + zlen v - zlen (X ++ G)) < Z.of_nat fuel ->
  exists G', write_growing fuel (zlen X) v (X ++ G) = (Ok (zlen v), X ++ v ++ G') /\ zlen G - zlen v <= zlen G'.
Proof.
  induction fuel as [| fuel IH]; intros G Hp Hf; [lia |]. pose proof (zlen_nonneg v). pose proof (zlen_nonneg G). cbn [write_growing].
  destruct (Z.le_gt_cases (zlen v) (zlen G)) as [Hle | Hgt].
  - erewrite st_bind_ok by (by apply write_value_fits). cbn. eexists. split; [reflexivity |]. unfold zlen. rewrite length_drop. lia.
  - erewrite st_bind_ok by (by apply write_value_full). cbv beta iota. erewrite st_bind_ok by reflexivity. cbv beta.
    assert (resize (zlen (X ++ G) * 2) (X ++ G) = X ++ G ++ zeros (zlen (X ++ G))) as Er.
    { unfold resize. rewrite take_ge by (unfold zlen in *; lia). rewrite <- app_assoc. f_equal. f_equal. f_equal. lia. }
    rewrite Er. destruct (IH (G ++ zeros (zlen (X ++ G)))) as (G' & E & Hl).
    + pose proof (zlen_app X G). rewrite !zlen_app, zlen_zeros by lia. lia.
    + pose proof (zlen_app X G). rewrite !zlen_app in *. rewrite zlen_zeros by lia. lia.
    + exists G'. split; [exact E |]. rewrite zlen_app, zlen_zeros in Hl by lia. lia.
Qed.

Lemma growth_fuel_ok v (X G : list byte) : 0 < zlen (X ++ G) ->
  Z.max 0 (zlen X + zlen v - zlen (X ++ G)) < Z.of_nat (growth_fuel (zlen X) v).
Proof. intros Hp. pose proof (zlen_nonneg v). pose proof (zlen_nonneg X). unfold growth_fuel. lia. Qed.

Lemma write_slot_fixed fd off size T : fd_is_fixed_len fd = true -> write_slot_to_tuple fd off size T = (Ok tt, T).
Proof. intros E. unfold write_slot_to_tuple. by rewrite E. Qed.

Lemma write_slot_var (ty : Ty) nl ix off size (A Z B : list byte) : zlen Z = SLOT_SIZE -> in_u32 off -> in_u32 size ->
  write_slot_to_tuple (mkFieldDesc false (mkSlot (zlen A) SLOT_SIZE) ty nl ix) off size (A ++ Z ++ B) =
    (Ok tt, A ++ slot_bytes (mkSlot off size) ++ B).
Proof.
  intros Hz Ho Hs. unfold SLOT_SIZE in *. pose proof (zlen_nonneg A). pose proof (zlen_nonneg B). unfold write_slot_to_tuple, SLOT_SIZE.
  cbn [fd_is_fixed_len fd_slot sl_off]. st_step by reflexivity. rewrite (proj2 (Z.ltb_ge _ _)) by (rewrite !zlen_app; lia).
  rewrite on_slice_ok by (rewrite ?zlen_app; lia). replace (zlen A + 8 - zlen A) with 8 by lia. rewrite zsub_mid by done.
  unfold write_slot_to_buf. erewrite st_bind_ok by reflexivity. cbv beta. rewrite Hz.
  cbn [Z.ltb Z.compare SLOT_SIZE Pos.compare Pos.compare_cont].
  rewrite slot_write by done. rewrite !as_u32_small by done. by rewrite zput_mid by (rewrite ?zlen_slot_bytes; done).
Qed.

(** ** All values *)

(** No field of fixed length follows one of variable length. *)
Lemma var_behind fs ty nl ix : StronglySorted type_le ((fun f : TypedField => f.1.1) <$> ((ty, nl, ix) :: fs)) -> flen ty = None ->
  Forall (fun f : TypedField => flen f.1.1 = None) fs.
Proof.
  rewrite fmap_cons. intros [_ Hr]%StronglySorted_inv E. apply Forall_forall. intros f Hin. rewrite Forall_forall in Hr.
  pose proof (Hr f.1.1 (list_elem_of_fmap_2 (fun f : TypedField => f.1.1) _ _ Hin)) as Hf. pose proof (type_le_fixed _ _ Hf) as Hx.
  cbn in Hx. rewrite !type_len_flen in Hx. rewrite E in Hx. by injection (Hx eq_refl).
Qed.

Lemma var_rest fs ty nl ix : StronglySorted type_le ((fun f : TypedField => f.1.1) <$> ((ty, nl, ix) :: fs)) -> flen ty = None ->
  fixed_total fs = 0 /\ forall ws : list (NullableValue V), enc_fixed fs ws = [].
Proof.
  intros Hs E. pose proof (var_behind _ _ _ _ Hs E) as Hv. clear Hs.
  induction Hv as [| [[ty' nl'] ix'] fs Hf Hv IH]; [by split; [| intros []] |]. cbn in Hf. destruct IH as [IH1 IH2].
  rewrite fixed_total_cons, Hf. split; [lia |]. intros [| v vs]; [done |]. cbn [enc_fixed]. rewrite Hf. apply IH2.
Qed.

Definition all_ok fs vs : Prop := Forall2 (fun f v => tv_ok f.1.1 v) fs vs.

Lemma all_ok_value fs vs : all_ok fs vs -> Forall2 value_ok fs (Value <$> vs).
Proof. induction 1; constructor; done. Qed.

Lemma split_slots (Y : list byte) n : 0 <= n -> zlen Y = 8 * (1 + n) -> exists Y1 Y2, Y = Y1 ++ Y2 /\ zlen Y1 = 8 /\ zlen Y2 = 8 * n.
Proof.
  intros Hn Hy. exists (take 8 Y), (drop 8 Y). unfold zlen in *. rewrite length_take, length_drop. split; [by rewrite take_drop | lia].
Qed.

Lemma build_fields_ok fs : forall vs (A Y F G : list byte) vo fo off,
  StronglySorted type_le ((fun f : TypedField => f.1.1) <$> fs) -> all_ok fs vs ->
  vo = zlen A -> zlen Y = SLOT_SIZE * var_n fs -> off = zlen (A ++ Y ++ F) -> fixed_total fs <= zlen G ->
  off + fixed_total fs + zlen (enc_data fs (Value <$> vs)) <= U32_MAX ->
  exists G', build_fields (layout fs vo fo) (sent_all fs vs) off (A ++ Y ++ F ++ G) =
    (Ok (off + fixed_total fs + zlen (enc_data fs (Value <$> vs))),
     A ++ enc_slots fs (Value <$> vs) (off + fixed_total fs) ++ F ++ enc_fixed fs (Value <$> vs) ++ enc_data fs (Value <$> vs) ++ G').
Proof.
  induction fs as [| [[ty nl] ix] fs IH]; intros [| v vs] A Y F G vo fo off Hs Hv -> Ey Eoff Hg Hm; try (by inversion Hv).
  { exists G. cbn in Ey |- *. destruct Y; [| by cbn in Ey]. by rewrite !Z.add_0_r. }
  apply Forall2_cons in Hv as [Hf Hr]. pose proof (sent_ok _ _ Hf) as (_ & _ & Hl). cbn [fst] in Hl. pose proof (var_rest _ _ _ _ Hs) as Hrest.
  rewrite fmap_cons in Hs. apply StronglySorted_inv in Hs as [Hs _]. cbn [layout sent_all]. rewrite fmap_cons in Hm |- *.
  cbn [enc_slots enc_fixed enc_data] in *. rewrite fixed_total_cons, var_n_cons in *.
  pose proof (fixed_total_nonneg fs). pose proof (var_n_nonneg fs). pose proof (zlen_nonneg (enc_data fs (Value <$> vs))).
  pose proof (zlen_nonneg A). pose proof (zlen_nonneg Y). pose proof (zlen_nonneg F). pose proof (zlen_nonneg G).
  pose proof (zlen_nonneg (sent ty v)).
  destruct (flen ty) as [n |] eqn:E; cbn [build_fields].
  - pose proof (flen_bound _ _ E). assert (off = zlen A + zlen Y + zlen F) as Eo by (rewrite Eoff, !zlen_app; lia).
    replace (A ++ Y ++ F ++ G) with ((A ++ Y ++ F) ++ G) by (by rewrite <- !app_assoc).
    assert (0 < zlen ((A ++ Y ++ F) ++ G)) as Hp by (rewrite !zlen_app; lia).
    destruct (write_growing_ok (sent ty v) (A ++ Y ++ F) _ G Hp (growth_fuel_ok _ _ _ Hp)) as (G1 & E1 & HG1). rewrite <- Eoff in E1.
    erewrite st_bind_ok by exact E1. cbv beta. erewrite st_bind_ok by (by apply write_slot_fixed). cbv beta.
    destruct (IH vs A Y (F ++ sent ty v) G1 (zlen A) (fo + n) (off + zlen (sent ty v))) as (G2 & E2);
      [done | done | done | lia | rewrite !zlen_app; lia | lia | lia |].
    exists G2. rewrite <- !app_assoc in E2 |- *. by rewrite E2, Hl, !Z.add_assoc, <- ?app_assoc.
  - destruct (Hrest eq_refl) as [Eft Efx]. destruct (split_slots Y (var_n fs)) as (Y1 & Y2 & -> & Ey1 & Ey2); [lia | done |].
    rewrite zlen_app in Hm, Ey.
    assert (off = zlen A + 8 + zlen Y2 + zlen F) as Eo by (rewrite Eoff, !zlen_app; lia).
    replace (A ++ (Y1 ++ Y2) ++ F ++ G) with ((A ++ (Y1 ++ Y2) ++ F) ++ G) by (by rewrite <- !app_assoc).
    assert (0 < zlen ((A ++ (Y1 ++ Y2) ++ F) ++ G)) as Hp by (rewrite !zlen_app; lia).
    destruct (write_growing_ok (sent ty v) (A ++ (Y1 ++ Y2) ++ F) _ G Hp (growth_fuel_ok _ _ _ Hp)) as (G1 & E1 & HG1). rewrite <- Eoff in E1.
    pose proof (zlen_nonneg G1). erewrite st_bind_ok by exact E1. cbv beta. rewrite <- !app_assoc.
    erewrite st_bind_ok by (apply write_slot_var; [done | mlia | mlia]). cbv beta.
    destruct (IH vs (A ++ slot_bytes (mkSlot off (zlen (sent ty v)))) Y2 (F ++ sent ty v) G1 (zlen A + SLOT_SIZE) fo (off + zlen (sent ty v)))
      as (G2 & E2); [done | done | by rewrite zlen_app, zlen_slot_bytes | unfold SLOT_SIZE; lia |
        rewrite !zlen_app, zlen_slot_bytes; unfold SLOT_SIZE; lia | lia | lia |].
    exists G2. rewrite <- !app_assoc in E2. by rewrite E2, Eft, Efx, !Z.add_0_r, zlen_app, Z.add_assoc, <- !app_assoc.
Qed.

Lemma resize_app (X G : list byte) : resize (zlen X) (X ++ G) = X.
Proof.
  unfold resize. rewrite take_app_length' by (unfold zlen; lia). rewrite zlen_app. pose proof (zlen_nonneg G).
  unfold zeros. replace (Z.to_nat _) with 0%nat by lia. apply app_nil_r.
Qed.

(** Fields that are not nullable, as [TupleBinaryDesc::from] has them. *)
Definition plain (types : list Ty) : list TypedField := (fun ty => (ty, false, None)) <$> types.

Lemma plain_types types : (fun f : TypedField => f.1.1) <$> plain types = types.
Proof. unfold plain. rewrite <- list_fmap_compose. apply list_fmap_id. Qed.

Lemma plain_count types : count_nullable (plain types) = 0.
Proof. unfold count_nullable. induction types; done. Qed.

Lemma plain_bits types : omap snd (plain types) = [].
Proof. by induction types. Qed.

Lemma plain_set_bits types : forall (ws : list (NullableValue V)) bm, set_bits (plain types) ws bm = Ok bm.
Proof. induction types as [| ty types IH]; intros [| w ws] bm; try done. apply IH. Qed.

Lemma plain_ok types : StronglySorted type_le types -> SLOT_SIZE * var_n (plain types) + fixed_total (plain types) <= U32_MAX ->
  fields_ok (plain types).
Proof.
  intros Hs Hm. split; [by rewrite plain_types | clear; by induction types | rewrite plain_bits; constructor.. |].
  rewrite plain_count. exact Hm.
Qed.

Lemma plain_perm {T} (vec vec' : list (Ty * T)) : vec' ≡ₚ vec -> plain (vec'.*1) ≡ₚ plain (vec.*1).
Proof. intros Hp. unfold plain. by rewrite Hp. Qed.

Lemma var_n_perm fs fs' : fs' ≡ₚ fs -> var_n fs' = var_n fs.
Proof. induction 1 as [| [[ty nl] ix] l l' Hp IH | [[t1 n1] i1] [[t2 n2] i2] l | l l' l'' H1' IH1 H2' IH2]; rewrite ?var_n_cons; lia. Qed.

Lemma fixed_total_perm fs fs' : fs' ≡ₚ fs -> fixed_total fs' = fixed_total fs.
Proof. induction 1 as [| [[ty nl] ix] l l' Hp IH | [[t1 n1] i1] [[t2 n2] i2] l | l l' l'' H1' IH1 H2' IH2]; rewrite ?fixed_total_cons; lia. Qed.

Lemma plain_encode types vs : encode (plain types) (Value <$> vs) (null_bits (plain types) (Value <$> vs)) =
  enc_slots (plain types) (Value <$> vs) (data_start (plain types)) ++ enc_fixed (plain types) (Value <$> vs) ++
  enc_data (plain types) (Value <$> vs).
Proof. unfold encode, null_bits. by rewrite plain_set_bits, plain_count. Qed.

Lemma build_tuple_ok types vs version : fields_ok (plain types) -> all_ok (plain types) vs -> tuple_fits (plain types) (Value <$> vs) ->
  build_tuple (sent_all (plain types) vs) (desc_of (plain types) version) =
    Ok (encode (plain types) (Value <$> vs) (null_bits (plain types) (Value <$> vs))).
Proof.
  intros Hok Hv Hm. unfold build_tuple. rewrite desc_count, desc_min. set (fs := plain types) in *.
  assert (zlen (sent_all fs vs) = zlen fs) as El.
  { clear -Hv. induction Hv as [| [[ty nl] ix] v fs vs Hf Hv IH]; [done |]. cbn [sent_all]. by rewrite !zlen_cons, IH. }
  rewrite El, Z.eqb_refl. cbn [negb]. unfold meta_size, null_bitmap_size, total_slot_size. cbn [desc_of td_all td_nullable_count td_var_count].
  assert (data_start fs = SLOT_SIZE * var_n fs + fixed_total fs) as Ed by (unfold data_start, fs; by rewrite plain_count).
  assert (aligned_byte_len (count_nullable fs) = 0) as Ea by (unfold fs; by rewrite plain_count). rewrite Ea, Ed.
  unfold tuple_fits in Hm. rewrite Ed in Hm. pose proof (fixed_total_nonneg fs). pose proof (var_n_nonneg fs). unfold SLOT_SIZE in *.
  destruct (build_fields_ok fs vs [] (zeros (8 * var_n fs)) [] (zeros (fixed_total fs)) 0 (0 + 8 * var_n fs) (0 + var_n fs * 8))
    as (G' & E); [apply Hok | done | done | by rewrite zlen_zeros by lia | cbn; rewrite app_nil_r, zlen_zeros; lia |
      rewrite zlen_zeros; lia | lia |].
  rewrite zeros_add by lia. cbn [app] in E. rewrite E. unfold fs. rewrite plain_encode. fold fs. f_equal. unfold data_start.
  rewrite Ea. replace (0 + var_n fs * 8 + fixed_total fs) with (0 + SLOT_SIZE * var_n fs + fixed_total fs) by (unfold SLOT_SIZE; lia).
  set (W := Value <$> vs) in *. pose proof (Forall2_length _ _ _ Hv) as Hl. pose proof (all_ok_value _ _ Hv) as Hw. fold W in Hw.
  rewrite !app_assoc. rewrite <- (app_assoc _ _ (enc_data fs W)).
  rewrite <- (resize_app (enc_slots fs W (0 + SLOT_SIZE * var_n fs + fixed_total fs) ++ enc_fixed fs W ++ enc_data fs W) G') at 2.
  f_equal. rewrite !zlen_app, zlen_enc_slots, zlen_enc_fixed; [lia | done | by apply Forall2_length in Hw].
Qed.
End build.
