(* ===== verification/TupleOrder.v ===== *)
(** * The order of fields and of tuples

    [normalized_type_desc_vec] sorts the types of a tuple, so that a
    descriptor accepts them; [tuple_compare] orders tuples by their fields. *)

From S2P Require Import Prelude Errors Compat Versions Tuples TupleLayout TupleProperties TupleBuild.

(** ** Types *)

Section sort.
Context {Ty V T : Type} `{TypeFnsOk Ty V}.
Implicit Types vec : list (Ty * T).

(** Positions [p] and [q] hold types in this order. *)
Definition in_order vec (p q : nat) : Prop := forall a b, vec !! p = Some a -> vec !! q = Some b -> type_le a.1 b.1.

Lemma exchange_perm vec (i j : nat) a b : i <> j -> vec !! i = Some a -> vec !! j = Some b -> <[i := b]> (<[j := a]> vec) ≡ₚ vec.
Proof.
  intros Hne Ha Hb. pose proof (lookup_lt_Some _ _ _ Ha). pose proof (lookup_lt_Some _ _ _ Hb).
  apply Permutation_inj. split; [by rewrite !length_insert |].
  exists (fun k => if decide (k = i) then j else if decide (k = j) then i else k). split.
  - intros x y. repeat case_decide; lia.
  - intros k. destruct (decide (k = i)) as [-> |]; [by rewrite list_lookup_insert_eq by (by rewrite length_insert) |].
    rewrite list_lookup_insert_ne by done. destruct (decide (k = j)) as [-> |]; [by rewrite list_lookup_insert_eq |].
    by rewrite list_lookup_insert_ne.
Qed.

(** One exchange: the lower position has the lower type, and no higher one
    than before. *)
Lemma exchange_step_ok (i j : nat) vec : (i < j < length vec)%nat -> exists vec',
  exchange_step i j vec = Ok vec' /\ vec' ≡ₚ vec /\ in_order vec' i j /\
  (forall k, k <> i -> k <> j -> vec' !! k = vec !! k) /\
  (forall k, k <> i -> k <> j -> in_order vec i k -> in_order vec' i k) /\
  (forall k, (k < i)%nat -> in_order vec k i -> in_order vec k j -> in_order vec' k i /\ in_order vec' k j).
Proof.
  intros Hij. destruct (lookup_lt_is_Some_2 vec i ltac:(lia)) as [a Ha]. destruct (lookup_lt_is_Some_2 vec j ltac:(lia)) as [b Hb].
  unfold exchange_step. rewrite Ha, Hb. destruct (type_cmp_ok a.1 b.1) as (ord & E & Ho). rewrite E. cbn [map_err mbind res_bind].
  case_bool_decide as Eg.
  - eexists. split; [reflexivity |]. assert (type_le b.1 a.1) as Hle.
    { destruct (type_le_total a.1 b.1) as [Hl |]; [by apply Ho in Hl | done]. }
    assert (<[i:=b]> (<[j:=a]> vec) !! i = Some b) as Ei by (apply list_lookup_insert_eq; rewrite length_insert; lia).
    assert (<[i:=b]> (<[j:=a]> vec) !! j = Some a) as Ej by (rewrite list_lookup_insert_ne by lia; apply list_lookup_insert_eq; lia).
    assert (forall k, k <> i -> k <> j -> <[i:=b]> (<[j:=a]> vec) !! k = vec !! k) as Ek.
    { intros k Hi Hj. by rewrite !list_lookup_insert_ne by lia. }
    split_and!; [apply exchange_perm; (done || lia) | | done | |]; unfold in_order.
    + intros x y. rewrite Ei, Ej. by intros [= <-] [= <-].
    + intros k Hi Hj Hk x y. rewrite Ei, Ek by done. intros [= <-] Ey. eapply type_le_trans; [exact Hle |]. by eapply Hk.
    + intros k Hk H1 H2. split; intros x y; rewrite ?Ei, ?Ej, ?Ek by lia; intros Ex [= <-]; [by eapply H2 | by eapply H1].
  - exists vec. split_and!; try done. intros x y Ex Ey. simplify_eq. by apply Ho.
Qed.

(** Position [p] is not above any position behind it. *)
Definition settled vec (p : nat) : Prop := forall q, (p < q)%nat -> in_order vec p q.

Lemma exchange_row_ok (i n : nat) : forall j vec,
  (i < j)%nat -> (j + n)%nat = length vec -> (forall k, (i < k < j)%nat -> in_order vec i k) -> exists vec',
  exchange_row i j n vec = Ok vec' /\ vec' ≡ₚ vec /\ settled vec' i /\ (forall p, (p < i)%nat -> settled vec p -> settled vec' p).
Proof.
  induction n as [| n IH]; intros j vec Hij Hl Hk; cbn [exchange_row].
  - exists vec. split_and!; try done. intros k Hik. destruct (decide (k < j)%nat); [by apply Hk |].
    intros a b _ Hb. apply lookup_lt_Some in Hb. lia.
  - destruct (exchange_step_ok i j vec ltac:(lia)) as (v1 & E1 & Hp1 & Ho1 & Hs1 & Hi1 & Hb1). rewrite E1. cbn [mbind res_bind].
    destruct (IH (S j) v1) as (v2 & E2 & Hp2 & Hs2 & Hb2); [lia | rewrite Hp1; lia | |].
    + intros k Hik. destruct (decide (k = j)) as [-> |]; [done |]. apply Hi1; [lia.. |]. apply Hk. lia.
    + exists v2. split_and!; [done | by rewrite Hp2 | done |]. intros p Hp Hset. apply Hb2; [done |]. intros q Hq.
      destruct (Hb1 p Hp (Hset i Hp) (Hset j ltac:(lia))) as [Hpi Hpj].
      destruct (decide (q = i)) as [-> |]; [done |]. destruct (decide (q = j)) as [-> |]; [done |].
      intros a b. rewrite !Hs1 by lia. by apply Hset.
Qed.

Lemma exchange_rows_ok (n : nat) : forall i vec,
  (i + n)%nat = length vec -> (forall p, (p < i)%nat -> settled vec p) -> exists vec',
  exchange_rows i n vec = Ok vec' /\ vec' ≡ₚ vec /\ forall p, settled vec' p.
Proof.
  induction n as [| n IH]; intros i vec Hl Hs; cbn [exchange_rows].
  - exists vec. split_and!; try done. intros p. destruct (decide (p < i)%nat); [by apply Hs |].
    intros q Hq a b Ha. apply lookup_lt_Some in Ha. lia.
  - destruct (exchange_row_ok i n (S i) vec) as (v1 & E1 & Hp1 & Hi1 & Hb1); [lia.. |]. rewrite E1. cbn [mbind res_bind].
    destruct (IH (S i) v1) as (v2 & E2 & Hp2 & Hs2); [rewrite Hp1; lia | | exists v2; split_and!; [done | by rewrite Hp2 | done]].
    intros p Hp. destruct (decide (p = i)) as [-> |]; [done |]. apply Hb1; [lia | apply Hs; lia].
Qed.

Lemma settled_sorted vec : (forall p, settled vec p) -> StronglySorted type_le (vec.*1).
Proof.
  induction vec as [| a vec IH]; intros Hs; [constructor |]. rewrite fmap_cons. constructor.
  - apply IH. intros p q Hq x y Hx Hy. apply (Hs (S p) (S q)); [lia | done | done].
  - apply Forall_forall. intros ty Hin. apply list_elem_of_fmap in Hin as (b & -> & Hin). apply list_elem_of_lookup in Hin as [q Hq].
    by apply (Hs 0%nat (S q)); [lia | ..].
Qed.

Lemma normalized_ok vec : exists vec', normalized_type_desc_vec vec = Ok (vec'.*1, vec'.*2) /\ vec' ≡ₚ vec /\
  StronglySorted type_le (vec'.*1).
Proof.
  destruct (exchange_rows_ok (length vec) 0 vec eq_refl) as (vec' & E & Hp & Hs); [lia |].
  exists vec'. unfold normalized_type_desc_vec. rewrite E. cbn [mbind res_bind]. split_and!; [done | done | by apply settled_sorted].
Qed.
End sort.

(** ** Values *)

Section compare.
Context {Ty V : Type} `{TypeFnsOk Ty V} `{PackagesOk}.

Notation TypedField := (Ty * bool * option Z)%type.
Implicit Types (fs : list TypedField) (vs ws : list V).

(** Values of comparable types, and the lexicographic order. *)
Definition comparable (cmp : Ty -> V -> V -> comparison) (ty : Ty) : Prop :=
  exists f, type_order ty = Some f /\ forall v w, tv_ok ty v -> tv_ok ty w -> f v w = Ok (cmp ty v w).

Fixpoint lexicographic (cmp : Ty -> V -> V -> comparison) (types : list Ty) vs ws : comparison :=
  match types, vs, ws with
  | ty :: types, v :: vs, w :: ws => match cmp ty v w with Eq => lexicographic cmp types vs ws | ord => ord end
  | _, _, _ => Eq
  end.

(** A list of fields with the bytes of values of their types. *)
Definition reads (fields : list (FieldDesc Ty)) vs (T : list byte) : Prop :=
  Forall2 (fun fd v => tv_ok (fd_type_obj fd) v /\ read_binary_data fd T = Ok (sent (fd_type_obj fd) v)) fields vs.

Lemma iter_compare cmp fields : forall vs ws T U, reads fields vs T -> reads fields ws U -> Forall (comparable cmp) (fd_type_obj <$> fields) ->
  iter_fields compare_binary_ordering (fun ord => negb (bool_decide (ord = Eq))) fields T U =
    Ok (match lexicographic cmp (fd_type_obj <$> fields) vs ws with Eq => None | ord => Some ord end).
Proof.
  induction fields as [| fd fields IH]; intros vs ws T U Hv Hw Hc; [done |]. rewrite fmap_cons in *. apply Forall_cons in Hc as [(f & Ef & Hf) Hc].
  apply Forall2_cons_inv_l in Hv as (v & vs' & (Hv1 & Ev) & Hv & ->). apply Forall2_cons_inv_l in Hw as (w & ws' & (Hw1 & Ew) & Hw & ->).
  cbn [iter_fields lexicographic]. rewrite Ev, Ew. cbn [mbind res_bind]. unfold compare_binary.
  destruct (sent_ok _ _ Hv1) as (_ & -> & _). destruct (sent_ok _ _ Hw1) as (_ & -> & _). unfold compare_binary_ordering. rewrite Ef, Hf by done.
  cbn [map_err mbind res_bind]. rewrite (IH vs' ws') by done. by destruct (cmp (fd_type_obj fd) v w).
Qed.

Lemma iter_app {A} (compare : Ty -> V -> V -> RS A) need f1 f2 T U :
  iter_fields compare need (f1 ++ f2) T U =
    (r ← iter_fields compare need f1 T U; match r with Some r => Ok (Some r) | None => iter_fields compare need f2 T U end).
Proof.
  induction f1 as [| fd f1 IH]; [done |]. cbn [app iter_fields]. destruct (read_binary_data fd T) as [b1 | |]; [| done..].
  destruct (read_binary_data fd U) as [b2 | |]; [| done..]. cbn [mbind res_bind].
  destruct (compare_binary compare fd b1 b2) as [ord | |]; [| done..]. cbn [mbind res_bind]. by destruct (need ord).
Qed.

(** The fixed fields come first. *)
Lemma layout_partition fs vo fo : StronglySorted type_le ((fun f : TypedField => f.1.1) <$> fs) ->
  filter is_fixed (layout fs vo fo) ++ filter (fun fd => ~ is_fixed fd) (layout fs vo fo) = layout fs vo fo.
Proof.
  revert vo fo. induction fs as [| [[ty nl] ix] fs IH]; intros vo fo Hs; [done |]. pose proof (var_rest _ _ _ _ Hs) as Hr.
  rewrite fmap_cons in Hs. apply StronglySorted_inv in Hs as [Hs _]. cbn [layout]. destruct (flen ty) as [n |] eqn:E; rewrite !filter_cons.
  - rewrite (decide_True (P := is_fixed _)) by done. rewrite (decide_False (P := ~ is_fixed _)) by (by intros Hn; apply Hn).
    cbn [app]. by rewrite IH.
  - rewrite (decide_False (P := is_fixed _)) by done. rewrite (decide_True (P := ~ is_fixed _)) by done.
    specialize (IH (vo + SLOT_SIZE) fo Hs). destruct (Hr eq_refl) as [Hft _].
    assert (filter is_fixed (layout fs (vo + SLOT_SIZE) fo) = []) as Ef.
    { apply elem_of_nil_inv. intros fd [Hfx Hin]%list_elem_of_filter. pose proof (layout_placed fs (vo + SLOT_SIZE) fo) as Hp.
      rewrite Forall_forall in Hp. destruct (Hp fd Hin) as [Hl Hf _]. specialize (Hf Hfx). unfold is_fixed in Hfx.
      rewrite Hfx in Hl. apply flen_bound in Hl. lia. }
    rewrite Ef in *. cbn [app] in *. by rewrite IH.
Qed.

Lemma encode_reads fs vs version : fields_ok fs -> all_ok fs vs -> tuple_fits fs (Value <$> vs) ->
  reads (td_all (desc_of fs version)) vs (encode fs (Value <$> vs) (null_bits fs (Value <$> vs))).
Proof.
  intros Hok Hv Hm. apply Forall2_same_length_lookup_2; [rewrite desc_length; by eapply Forall2_length |].
  intros i fd v Efd Ev. destruct (Forall2_lookup_r _ _ _ _ _ Hv Ev) as (f & Ef & Hf).
  destruct (layout_lookup fs i f (aligned_byte_len (count_nullable fs))
    (aligned_byte_len (count_nullable fs) + SLOT_SIZE * var_n fs) Ef) as (fd' & Efd' & Ety & _). cbn in Efd. simplify_eq.
  split; [by rewrite Ety |]. destruct (encode_holds fs (Value <$> vs) version i v) as (fd2 & E2 & Hh);
    [done | by apply all_ok_value | done | by rewrite list_lookup_fmap, Ev |]. cbn in E2. simplify_eq. by apply holds_read in Hh as [_ ?].
Qed.

Lemma compare_encoded cmp fs vs ws version : fields_ok fs -> all_ok fs vs -> all_ok fs ws ->
  tuple_fits fs (Value <$> vs) -> tuple_fits fs (Value <$> ws) -> Forall (comparable cmp) ((fun f : TypedField => f.1.1) <$> fs) ->
  tuple_compare (desc_of fs version) (encode fs (Value <$> vs) (null_bits fs (Value <$> vs)))
    (encode fs (Value <$> ws) (null_bits fs (Value <$> ws))) = Ok (lexicographic cmp ((fun f : TypedField => f.1.1) <$> fs) vs ws).
Proof.
  intros Hok Hv Hw Hmv Hmw Hc. pose proof (encode_reads fs vs version Hok Hv Hmv) as Rv. pose proof (encode_reads fs ws version Hok Hw Hmw) as Rw.
  set (T := encode fs (Value <$> vs) _) in *. set (U := encode fs (Value <$> ws) _) in *.
  unfold tuple_compare, iter_value. cbn [desc_of td_all td_fixed td_var] in *. set (all := layout fs _ _) in *.
  assert (fd_type_obj <$> all = (fun f : TypedField => f.1.1) <$> fs) as Ety by apply layout_types.
  pose proof (iter_compare cmp all vs ws T U Rv Rw ltac:(by rewrite Ety)) as Hi. rewrite Ety in Hi.
  rewrite <- (layout_partition fs _ _ (fo_sorted _ Hok) : _ = all), iter_app in Hi. revert Hi. fold all.
  destruct (iter_fields compare_binary_ordering _ (filter is_fixed all) T U) as [[ord |] | |]; cbn [mbind res_bind]; try done.
  - intros Hi. injection Hi as Hi. destruct (lexicographic cmp _ vs ws); congruence.
  - intros ->. cbn [mbind res_bind]. by destruct (lexicographic cmp _ vs ws).
Qed.
End compare.
