(* ===== verification/TupleUpdate.v ===== *)
(** * Updates of tuples

    The deltas of [update_tuple] turn a tuple into the tuple of the updated
    values, for fields of fixed length, for the last field, and for values
    that do not get shorter. *)

From S2P Require Import Prelude Errors Compat Versions Tuples TupleLayout TupleProperties TupleBuild TupleOrder.

(** ** Deltas on concatenations *)

Lemma splice_ok (A X B data : list byte) off size ds : off = zlen A -> size = zlen X ->
  zlen (A ++ X ++ B) <= U32_MAX -> zlen data <= U32_MAX ->
  apply_deltas (mkUpdateDelta off size data :: ds) (A ++ X ++ B) = apply_deltas ds (A ++ data ++ B).
Proof.
  intros -> -> Hm Hd. rewrite !zlen_app in Hm. pose proof (zlen_nonneg A). pose proof (zlen_nonneg X). pose proof (zlen_nonneg B).
  cbn [apply_deltas]. rewrite apply_to_ok by (unfold delta_ok; cbn; rewrite !zlen_app; lia).
  cbn [ud_offset ud_size ud_data]. f_equal. unfold zlen. rewrite Nat2Z.id, take_app_length' by done. f_equal. f_equal.
  rewrite drop_app_ge by lia. rewrite drop_app_length' by lia. done.
Qed.

Lemma sorted_app_r {A} (R : A -> A -> Prop) l1 l2 : StronglySorted R (l1 ++ l2) -> StronglySorted R l2.
Proof. induction l1 as [| a l1 IH]; [done |]. cbn [app]. intros [Hs _]%StronglySorted_inv. by apply IH. Qed.

Section update.
Context {Ty V : Type} `{TypeFnsOk Ty V} `{PackagesOk}.

Notation TypedField := (Ty * bool * option Z)%type.
Implicit Types (fs : list TypedField) (vs : list V) (us : list (NullableValue V)).

(** ** The parts of a tuple around a field *)

Lemma fixed_total_app fs1 fs2 : fixed_total (fs1 ++ fs2) = fixed_total fs1 + fixed_total fs2.
Proof. induction fs1 as [| [[ty nl] ix] fs1 IH]; [done |]. cbn [app]. rewrite !fixed_total_cons, IH. lia. Qed.

Lemma var_n_app fs1 fs2 : var_n (fs1 ++ fs2) = var_n fs1 + var_n fs2.
Proof. induction fs1 as [| [[ty nl] ix] fs1 IH]; [done |]. cbn [app]. rewrite !var_n_cons, IH. lia. Qed.

Lemma layout_app fs1 fs2 : forall vo fo,
  layout (fs1 ++ fs2) vo fo = layout fs1 vo fo ++ layout fs2 (vo + SLOT_SIZE * var_n fs1) (fo + fixed_total fs1).
Proof.
  induction fs1 as [| [[ty nl] ix] fs1 IH]; intros vo fo; [cbn; f_equal; lia |]. cbn [app layout].
  rewrite fixed_total_cons, var_n_cons. destruct (flen ty) as [n |]; cbn [app]; f_equal; rewrite IH; f_equal; f_equal; unfold SLOT_SIZE; lia.
Qed.

Lemma enc_fixed_app fs1 fs2 us1 us2 : length fs1 = length us1 ->
  enc_fixed (fs1 ++ fs2) (us1 ++ us2) = enc_fixed fs1 us1 ++ enc_fixed fs2 us2.
Proof.
  revert us1. induction fs1 as [| [[ty nl] ix] fs1 IH]; intros [| u us1] El; try done. cbn in El. cbn [app enc_fixed].
  destruct (flen ty), u; rewrite IH, <- ?app_assoc by lia; done.
Qed.

Lemma enc_data_app fs1 fs2 us1 us2 : length fs1 = length us1 ->
  enc_data (fs1 ++ fs2) (us1 ++ us2) = enc_data fs1 us1 ++ enc_data fs2 us2.
Proof.
  revert us1. induction fs1 as [| [[ty nl] ix] fs1 IH]; intros [| u us1] El; try done. cbn in El. cbn [app enc_data].
  destruct (flen ty), u; rewrite IH, <- ?app_assoc by lia; done.
Qed.

Lemma enc_slots_app fs1 fs2 us1 us2 : length fs1 = length us1 -> forall off,
  enc_slots (fs1 ++ fs2) (us1 ++ us2) off = enc_slots fs1 us1 off ++ enc_slots fs2 us2 (off + zlen (enc_data fs1 us1)).
Proof.
  revert us1. induction fs1 as [| [[ty nl] ix] fs1 IH]; intros [| u us1] El off; try done; [by cbn; rewrite Z.add_0_r |].
  cbn in El. cbn [app enc_slots enc_data]. destruct (flen ty), u; rewrite IH, <- ?app_assoc, ?zlen_app, ?Z.add_assoc by lia; done.
Qed.

(** The bitmap does not depend on the values that are not NULL. *)
Lemma set_bits_update fs : forall us i v w bm, us !! i = Some (Value v) -> set_bits fs (<[i := Value w]> us) bm = set_bits fs us bm.
Proof.
  induction fs as [| [[ty nl] ix] fs IH]; intros [| u us] [| i] v w bm Ei; try done; cbn in Ei |- *.
  - by injection Ei as ->.
  - destruct (match ix with Some _ => _ | None => _ end); cbn; [by eapply IH | done | done].
Qed.

Lemma null_bits_update fs us i v w : us !! i = Some (Value v) -> null_bits fs (<[i := Value w]> us) = null_bits fs us.
Proof. intros Ei. unfold null_bits. by erewrite set_bits_update. Qed.

(** The slots and the data of fields that move. *)
Lemma shift_fields_ok fs : forall vs vo fo T off, Forall (fun f : TypedField => flen f.1.1 = None) fs ->
  reads (layout fs vo fo) vs T -> 0 <= off -> off + zlen (enc_data fs (Value <$> vs)) <= U32_MAX ->
  shift_fields (layout fs vo fo) T off = Ok (enc_slots fs (Value <$> vs) off, enc_data fs (Value <$> vs)).
Proof.
  induction fs as [| [[ty nl] ix] fs IH]; intros vs vo fo T off Hn Hr Ho Hm; [done |]. apply Forall_cons in Hn as [En Hn]. cbn in En.
  cbn [layout] in *. rewrite En in *. apply Forall2_cons_inv_l in Hr as (v & vs' & (Hv & Er) & Hr & ->). cbn [fd_type_obj] in *.
  rewrite fmap_cons in *. cbn [enc_slots enc_data] in *. rewrite En in *. rewrite zlen_app in Hm.
  pose proof (zlen_nonneg (sent ty v)). pose proof (zlen_nonneg (enc_data fs (Value <$> vs'))).
  cbn [shift_fields]. rewrite Er. cbn [mbind res_bind]. rewrite slot_buf, !as_u32_small by mlia. cbn [mbind res_bind].
  rewrite (IH vs') by (done || lia). done.
Qed.

(** ** A field in its place *)

Section field.
Variables (fs1 fs2 : list TypedField) (ty : Ty) (nl : bool) (ix : option Z) (us1 : list (NullableValue V)) (version : Z).
Notation f := (ty, nl, ix).
Notation fs := (fs1 ++ f :: fs2).
Notation desc := (desc_of fs version).
Notation bitmap_len := (aligned_byte_len (count_nullable fs)).
Hypothesis Hok : fields_ok fs.
Hypothesis Hl1 : length fs1 = length us1.

Definition tuple_with (u : NullableValue V) (us2 : list (NullableValue V)) : list byte :=
  encode fs (us1 ++ u :: us2) (null_bits fs (us1 ++ u :: us2)).

Lemma field_here vo fo : layout fs vo fo !! length fs1 = layout (f :: fs2) (vo + SLOT_SIZE * var_n fs1) (fo + fixed_total fs1) !! 0%nat.
Proof.
  rewrite layout_app. assert (length (layout fs1 vo fo) = length fs1) as El.
  { pose proof (f_equal length (layout_types fs1 vo fo)) as E. by rewrite !length_fmap in E. }
  by rewrite lookup_app_r, El, Nat.sub_diag by lia.
Qed.

Lemma field_desc_here : get_field_desc (zlen fs1) desc =
  Ok match flen ty with
     | Some n => mkFieldDesc true (mkSlot (bitmap_len + SLOT_SIZE * var_n fs + fixed_total fs1) n) ty nl ix
     | None => mkFieldDesc false (mkSlot (bitmap_len + SLOT_SIZE * var_n fs1) SLOT_SIZE) ty nl ix
     end.
Proof. apply get_field_desc_at. cbn [desc_of td_all]. rewrite field_here. cbn [layout]. by destruct (flen ty). Qed.

Lemma fields_behind vo fo fd : layout fs vo fo !! length fs1 = Some fd ->
  drop (Z.to_nat (zlen fs1) + 1) (layout fs vo fo) =
    layout fs2 (vo + SLOT_SIZE * var_n fs1 + if fd_is_fixed_len fd then 0 else SLOT_SIZE)
      (fo + fixed_total fs1 + if fd_is_fixed_len fd then sl_len (fd_slot fd) else 0).
Proof.
  rewrite field_here. rewrite layout_app. assert (length (layout fs1 vo fo) = length fs1) as El.
  { pose proof (f_equal length (layout_types fs1 vo fo)) as E. by rewrite !length_fmap in E. }
  unfold zlen. rewrite drop_app_ge by lia. replace (_ - _)%nat with 1%nat by lia. cbn [layout].
  destruct (flen ty) as [n |]; cbn; intros [= <-]; cbn; by rewrite ?Z.add_0_r.
Qed.

Lemma zlen_bits u us2 : length fs2 = length us2 -> zlen (bm_bytes (null_bits fs (us1 ++ u :: us2))) = bitmap_len.
Proof.
  intros El. destruct (null_bits_ok fs (us1 ++ u :: us2) Hok) as (_ & [_ Hw] & En & _); [rewrite !length_app; cbn; lia |]. by rewrite Hw, En.
Qed.

Lemma bits_same v w us2 : null_bits fs (us1 ++ Value w :: us2) = null_bits fs (us1 ++ Value v :: us2).
Proof.
  rewrite <- (null_bits_update fs (us1 ++ Value v :: us2) (length us1) v w) by (by rewrite list_lookup_middle).
  f_equal. by rewrite insert_app_r_alt, Nat.sub_diag by lia.
Qed.

(** The bytes of a field of fixed length are replaced in place. *)
Lemma update_fixed_bytes n u w us2 : flen ty = Some n -> Forall2 value_ok fs (us1 ++ u :: us2) -> tv_ok ty w ->
  tuple_fits fs (us1 ++ u :: us2) -> exists ds,
  update_tuple (zlen fs1) (sent ty w) desc (tuple_with u us2) = Ok ds /\
  apply_deltas ds (tuple_with u us2) = Ok (bm_bytes (null_bits fs (us1 ++ u :: us2)) ++
    enc_slots fs (us1 ++ u :: us2) (data_start fs) ++ enc_fixed fs1 us1 ++ sent ty w ++ enc_fixed fs2 us2 ++ enc_data fs (us1 ++ u :: us2)).
Proof.
  intros En Hv Hw Hm. pose proof (zlen_encode fs _ Hok Hv) as Hz. fold (tuple_with u us2) in Hz. unfold tuple_fits in Hm.
  pose proof Hv as Hv'. apply Forall2_app_inv in Hv' as [K1 K2]; [| done]. apply Forall2_cons in K2 as [Hf K2].
  apply sent_ok in Hw as (_ & _ & Lw). rewrite En in Lw. pose proof (flen_bound _ _ En).
  pose proof (zlen_bits u us2 (Forall2_length _ _ _ K2)) as Hb. unfold update_tuple. rewrite desc_count.
  rewrite (proj2 (Z.leb_gt _ _)) by (rewrite zlen_app, zlen_cons; mlia).
  rewrite field_desc_here, En. cbn [mbind res_bind fd_is_fixed_len fd_slot sl_off sl_len]. eexists. split; [reflexivity |].
  set (S := enc_slots fs (us1 ++ u :: us2) (data_start fs)). set (F1 := enc_fixed fs1 us1). set (F2 := enc_fixed fs2 us2).
  set (D := enc_data fs (us1 ++ u :: us2)) in *. set (B := bm_bytes (null_bits fs (us1 ++ u :: us2))) in *.
  set (X := match u with Null => zeros n | Value v => sent ty v end).
  assert (zlen X = n) as Ex by (destruct u; [by apply zlen_zeros; lia | apply sent_ok in Hf as (_ & _ & Lv); cbn in Lv; by rewrite En in Lv]).
  assert (tuple_with u us2 = (B ++ S ++ F1) ++ X ++ F2 ++ D) as ET.
  { unfold tuple_with, encode. rewrite enc_fixed_app by done. cbn [enc_fixed]. rewrite En. unfold X. destruct u; by rewrite <- !app_assoc. }
  assert (zlen (B ++ S ++ F1) = bitmap_len + SLOT_SIZE * var_n fs + fixed_total fs1) as Eoff.
  { rewrite !zlen_app. unfold S, F1. rewrite Hb, zlen_enc_slots, zlen_enc_fixed by (done || rewrite !length_app; cbn; apply Forall2_length in K2; lia). lia. }
  rewrite ET in Hz |- *. pose proof (zlen_nonneg (B ++ S ++ F1)). rewrite !zlen_app in Hz. rewrite !zlen_app in Eoff.
  rewrite !as_u32_small by mlia. rewrite splice_ok; [| rewrite !zlen_app; lia | done | rewrite !zlen_app; lia | lia].
  cbn [apply_deltas]. by rewrite <- !app_assoc.
Qed.

Lemma update_fixed n v w us2 : flen ty = Some n -> Forall2 value_ok fs (us1 ++ Value v :: us2) -> tv_ok ty w ->
  tuple_fits fs (us1 ++ Value v :: us2) -> exists ds,
  update_tuple (zlen fs1) (sent ty w) desc (tuple_with (Value v) us2) = Ok ds /\
  apply_deltas ds (tuple_with (Value v) us2) = Ok (tuple_with (Value w) us2).
Proof.
  intros En Hv Hw Hm. destruct (update_fixed_bytes n (Value v) w us2 En Hv Hw Hm) as (ds & E1 & E2). exists ds. split; [done |].
  rewrite E2. unfold tuple_with, encode. rewrite (bits_same v w), !enc_slots_app, !enc_fixed_app, !enc_data_app by done.
  cbn [enc_slots enc_fixed enc_data]. by rewrite En, <- !app_assoc.
Qed.

(** A NULL of fixed length gets its bytes, and stays NULL. *)
Lemma update_null_fixed n w us2 : flen ty = Some n -> Forall2 value_ok fs (us1 ++ Null :: us2) -> tv_ok ty w ->
  tuple_fits fs (us1 ++ Null :: us2) -> exists ds new,
  update_tuple (zlen fs1) (sent ty w) desc (tuple_with Null us2) = Ok ds /\ apply_deltas ds (tuple_with Null us2) = Ok new /\
  read_value new desc (zlen fs1) = Ok Null.
Proof.
  intros En Hv Hw Hm. destruct (update_fixed_bytes n Null w us2 En Hv Hw Hm) as (ds & E1 & E2). exists ds. eexists. split_and!; [done | done |].
  unfold read_value. unfold zlen at 1. pose proof (Forall2_length _ _ _ Hv) as El.
  rewrite (bitmap_null fs (us1 ++ Null :: us2) version (length fs1) Null); [done | done | done | by rewrite Hl1, list_lookup_middle |].
  pose proof Hv as Hv'. apply Forall2_app_inv in Hv' as [K1 K2]; [| done]. apply Forall2_cons in K2 as [_ K2].
  apply sent_ok in Hw as (_ & _ & Lw). rewrite En in Lw. pose proof (zlen_nonneg (enc_data fs (us1 ++ Null :: us2))).
  rewrite !zlen_app, zlen_bits, zlen_enc_slots, !zlen_enc_fixed by (done || by eapply Forall2_length).
  unfold data_start. rewrite fixed_total_app, fixed_total_cons, En. lia.
Qed.

(** A field of variable length: the tuple around its slot and its data. *)
Section var.
Variables (vs2 : list V).
Hypothesis En : flen ty = None.
Notation us2 := (Value <$> vs2).
Notation off := (data_start fs + zlen (enc_data fs1 us1)).
Notation slot_off := (bitmap_len + SLOT_SIZE * var_n fs1).
Notation front v := (bm_bytes (null_bits fs (us1 ++ Value v :: us2)) ++ enc_slots fs1 us1 (data_start fs)).
Notation middle := ((enc_fixed fs1 us1 ++ enc_fixed fs2 us2) ++ enc_data fs1 us1).

Lemma tuple_var v : tuple_with (Value v) us2 =
  front v ++ slot_bytes (mkSlot off (zlen (sent ty v))) ++ enc_slots fs2 us2 (off + zlen (sent ty v)) ++ middle ++ sent ty v ++ enc_data fs2 us2.
Proof.
  unfold tuple_with, encode. rewrite enc_slots_app, enc_fixed_app, enc_data_app by done. cbn [enc_slots enc_fixed enc_data]. rewrite En.
  by rewrite <- !app_assoc.
Qed.

Variables (v : V).
Hypothesis Hv : Forall2 value_ok fs (us1 ++ Value v :: us2).
Hypothesis Hm : tuple_fits fs (us1 ++ Value v :: us2).
Notation T := (tuple_with (Value v) us2).

Lemma zlen_front : zlen (front v) = slot_off.
Proof.
  rewrite zlen_app, zlen_bits, zlen_enc_slots; [done | done |]. pose proof (Forall2_length _ _ _ Hv) as El.
  rewrite !length_app in El. cbn in El. lia.
Qed.

Lemma behind_ok : Forall2 value_ok fs1 us1 /\ tv_ok ty v /\ Forall2 value_ok fs2 us2.
Proof.
  pose proof Hv as Hv'. apply Forall2_app_inv_l in Hv' as (us1' & us2' & K1 & K2 & Eus).
  apply app_inj_1 in Eus as [<- <-]; [| apply Forall2_length in K1; lia]. by apply Forall2_cons in K2 as [Hf K2].
Qed.

Lemma zlen_tuple : zlen T = data_start fs + zlen (enc_data fs1 us1) + zlen (sent ty v) + zlen (enc_data fs2 us2) /\ zlen T <= U32_MAX.
Proof.
  pose proof (zlen_encode fs _ Hok Hv) as Hz. unfold tuple_with, tuple_fits in *. rewrite Hz. split; [| done].
  rewrite enc_data_app by done. cbn [enc_data]. rewrite En, !zlen_app. lia.
Qed.

Lemma zlen_middle : slot_off + SLOT_SIZE + zlen (enc_slots fs2 us2 (off + zlen (sent ty v))) + zlen middle = off.
Proof.
  destruct behind_ok as (K1 & _ & K2). rewrite !zlen_app, zlen_enc_slots, !zlen_enc_fixed by (done || by eapply Forall2_length).
  unfold data_start. rewrite fixed_total_app, var_n_app, fixed_total_cons, var_n_cons, En. unfold SLOT_SIZE. lia.
Qed.

Lemma slot_here : exists fd, get_field_desc (zlen fs1) desc = Ok fd /\ fd_is_fixed_len fd = false /\ sl_off (fd_slot fd) = slot_off /\
  read_slot fd T = Ok (mkSlot off (zlen (sent ty v))).
Proof.
  destruct (encode_holds fs (us1 ++ Value v :: us2) version (length fs1) v) as (fd & Efd & Hh);
    [done | done | done | by rewrite Hl1, list_lookup_middle |].
  pose proof field_desc_here as Ef. rewrite En in Ef. pose proof (get_field_desc_at _ _ _ _ Efd) as Eg. fold (zlen fs1) in Eg.
  rewrite Ef in Eg. injection Eg as <-. eexists. split_and!; [exact Ef | done | done |].
  erewrite holds_slot by done. by rewrite take_app_length, take_app_length' by done.
Qed.

(** All fields behind it can be read. *)
Lemma behind_reads fd : td_all desc !! length fs1 = Some fd -> reads (drop (Z.to_nat (zlen fs1) + 1) (td_all desc)) vs2 T.
Proof.
  intros Efd. assert (length (drop (Z.to_nat (zlen fs1) + 1) (td_all desc)) = length vs2) as El.
  { pose proof (Forall2_length _ _ _ Hv) as El. rewrite length_drop, desc_length. unfold zlen.
    rewrite !length_app in *. cbn in *. rewrite length_fmap in El. lia. }
  apply Forall2_same_length_lookup_2; [done |]. intros j fd' w Ej Ew. rewrite lookup_drop in Ej. unfold zlen in Ej. rewrite Nat2Z.id in Ej.
  assert ((us1 ++ Value v :: us2) !! (length fs1 + 1 + j)%nat = Some (Value w)) as Eu.
  { rewrite lookup_app_r by lia. replace (length fs1 + 1 + j - length us1)%nat with (S j) by lia.
    change ((Value v :: us2) !! S j) with (us2 !! j). by rewrite list_lookup_fmap, Ew. }
  destruct (encode_holds fs _ version _ w Hok Hv Hm Eu) as (fd2 & E2 & Hh). rewrite E2 in Ej. injection Ej as ->.
  destruct (Forall2_lookup_r _ _ _ _ _ Hv Eu) as (g & Eg & Hg). split; [| by apply holds_read in Hh as [_ ?]].
  destruct (layout_lookup fs _ g bitmap_len (bitmap_len + SLOT_SIZE * var_n fs) Eg) as (fd3 & E3 & Ety & _).
  cbn [desc_of td_all] in E2. simplify_eq. by rewrite Ety.
Qed.

Lemma behind_sorted : StronglySorted type_le ((fun f : TypedField => f.1.1) <$> (f :: fs2)).
Proof.
  pose proof (fo_sorted _ Hok) as Hs. rewrite fmap_app in Hs. by eapply sorted_app_r.
Qed.

(** The slot and the data are inside of the tuple. *)
Lemma slot_bounds : 0 <= slot_off /\ slot_off + SLOT_SIZE <= off /\ off + zlen (sent ty v) <= zlen T.
Proof.
  destruct zlen_tuple as [Hz _]. pose proof zlen_middle. pose proof (zlen_nonneg middle). pose proof (zlen_nonneg (enc_data fs2 us2)).
  pose proof (zlen_nonneg (enc_slots fs2 us2 (off + zlen (sent ty v)))). pose proof zlen_front. pose proof (zlen_nonneg (front v)). lia.
Qed.

Lemma next_slot g w : fs2 !! 0%nat = Some g -> vs2 !! 0%nat = Some w -> exists fd, get_field_desc (zlen fs1 + 1) desc = Ok fd /\
  fd_is_fixed_len fd = false /\ read_slot fd T = Ok (mkSlot (off + zlen (sent ty v)) (zlen (sent (fd_type_obj fd) w))) /\
  off + zlen (sent ty v) + zlen (sent (fd_type_obj fd) w) <= zlen T.
Proof.
  intros Eg Ew. assert ((us1 ++ Value v :: us2) !! (length fs1 + 1)%nat = Some (Value w)) as Eu.
  { rewrite lookup_app_r by lia. replace (length fs1 + 1 - length us1)%nat with 1%nat by lia.
    change ((Value v :: us2) !! 1%nat) with (us2 !! 0%nat). by rewrite list_lookup_fmap, Ew. }
  assert (fs !! (length fs1 + 1)%nat = Some g) as Ef.
  { rewrite lookup_app_r by lia. by replace (length fs1 + 1 - length fs1)%nat with 1%nat by lia. }
  destruct (encode_holds fs _ version _ w Hok Hv Hm Eu) as (fd & Efd & Hh).
  destruct (layout_lookup fs _ g bitmap_len (bitmap_len + SLOT_SIZE * var_n fs) Ef) as (fd' & Efd' & Ety & _ & Efix).
  cbn [desc_of td_all] in Efd. rewrite Efd in Efd'. injection Efd' as <-. exists fd.
  assert (fd_is_fixed_len fd = false) as Hfix.
  { pose proof (var_behind _ _ _ _ behind_sorted En) as Hvar. rewrite Forall_lookup in Hvar. by rewrite Efix, (Hvar _ _ Eg). }
  assert (zlen (enc_data (take (length fs1 + 1) fs) (take (length fs1 + 1) (us1 ++ Value v :: us2))) =
    zlen (enc_data fs1 us1) + zlen (sent ty v)) as Eo.
  { rewrite !take_app_ge by lia. replace (length fs1 + 1 - length fs1)%nat with 1%nat by lia.
    replace (length fs1 + 1 - length us1)%nat with 1%nat by lia. cbn [take]. rewrite enc_data_app by done.
    cbn [enc_data]. by rewrite En, app_nil_r, zlen_app. }
  rewrite Eo, Z.add_assoc in Hh. pose proof (holds_slot _ _ _ _ Hh Hfix) as Er. split_and!; [| done | exact Er |].
  - rewrite <- (get_field_desc_at fs version _ fd Efd). f_equal. unfold zlen. lia.
  - destruct Hh as (_ & _ & Hh). rewrite Hfix in Hh. destruct Hh as (_ & _ & _ & _ & Hh & _); exact Hh.
Qed.

(** The room of the field ends where the next one begins. *)
Lemma capacity_here : exists c, read_data_capacity (zlen fs1) desc T = Ok c /\ (fs2 = [] \/ c = zlen (sent ty v)).
Proof.
  destruct slot_here as (fd & Efd & Efix & Eso & Er). pose proof slot_bounds as Hb. pose proof (zlen_nonneg (sent ty v)). unfold SLOT_SIZE in Hb.
  unfold read_data_capacity. rewrite desc_count. rewrite (proj2 (Z.leb_gt _ _)) by (rewrite zlen_app, zlen_cons; mlia).
  rewrite Efd. cbn [mbind res_bind]. rewrite Efix, Er. cbn [mbind res_bind sl_off sl_len]. rewrite zlen_app, zlen_cons.
  destruct (fs2 !! 0%nat) as [g |] eqn:Eg.
  - destruct behind_ok as (_ & _ & K2). destruct (Forall2_lookup_l _ _ _ _ _ K2 Eg) as (u & Eu & _).
    rewrite list_lookup_fmap in Eu. destruct (vs2 !! 0%nat) as [w |] eqn:Ew; [| done].
    destruct (next_slot g w Eg Ew) as (fd2 & E2 & Efix2 & Er2 & Hb2). apply lookup_lt_Some in Eg. pose proof (zlen_nonneg (sent (fd_type_obj fd2) w)).
    rewrite (proj2 (Z.eqb_neq _ _)) by (unfold zlen; lia). rewrite E2. cbn [mbind res_bind]. rewrite Efix2, Er2. cbn [mbind res_bind sl_off sl_len].
    rewrite !(proj2 (Z.ltb_ge _ _)) by lia. cbn [orb]. eexists. split; [reflexivity |]. right. lia.
  - apply lookup_ge_None in Eg. destruct fs2; [| cbn in Eg; lia]. rewrite (proj2 (Z.eqb_eq _ _)) by (rewrite zlen_nil; lia). rewrite Eso.
    unfold usub, SLOT_SIZE. rewrite (proj2 (Z.leb_le _ _)) by lia. eauto.
Qed.

(** The slot and the value are replaced; the rest of the tuple stays. *)
Lemma apply_in_place w : zlen (sent ty w) <= U32_MAX - off ->
  apply_deltas [mkUpdateDelta slot_off SLOT_SIZE (slot_bytes (mkSlot off (zlen (sent ty w))));
    mkUpdateDelta off (zlen (sent ty v)) (sent ty w)] T =
  Ok (front v ++ slot_bytes (mkSlot off (zlen (sent ty w))) ++ enc_slots fs2 us2 (off + zlen (sent ty v)) ++ middle ++
    sent ty w ++ enc_data fs2 us2).
Proof.
  intros Hw. destruct zlen_tuple as [_ Hmax]. pose proof slot_bounds as Hb. pose proof zlen_middle as Hmid. pose proof zlen_front as Hf.
  pose proof (zlen_nonneg (sent ty v)). pose proof (zlen_nonneg (sent ty w)). pose proof (fun s => zlen_slot_bytes s) as Hs. unfold SLOT_SIZE in *.
  rewrite tuple_var in *.
  rewrite splice_ok; [| by rewrite Hf | by rewrite Hs | done | rewrite Hs; mlia].
  assert (forall a b c d e g : list byte, a ++ b ++ c ++ d ++ e ++ g = (a ++ b ++ c ++ d) ++ e ++ g) as Hassoc
    by (intros; by rewrite <- !app_assoc).
  rewrite Hassoc. rewrite splice_ok; [by rewrite <- Hassoc | | done | | lia].
  - rewrite !zlen_app in *. rewrite Hs. lia.
  - rewrite !zlen_app in *. rewrite !Hs in *. lia.
Qed.

(** The slots and the data of all fields from this one on are replaced. *)
Lemma apply_moved w size rest : size = SLOT_SIZE + zlen (enc_slots fs2 us2 (off + zlen (sent ty v))) ->
  rest = zlen (sent ty v) + zlen (enc_data fs2 us2) -> length fs2 = length vs2 ->
  off + zlen (sent ty w) + zlen (enc_data fs2 us2) <= U32_MAX ->
  apply_deltas [mkUpdateDelta slot_off size
      (slot_bytes (mkSlot off (zlen (sent ty w))) ++ enc_slots fs2 us2 (off + zlen (sent ty w)));
    mkUpdateDelta off rest (sent ty w ++ enc_data fs2 us2)] T = Ok (tuple_with (Value w) us2).
Proof.
  intros -> -> El Hw. destruct zlen_tuple as [_ Hmax]. pose proof slot_bounds as Hb. pose proof zlen_middle as Hmid. pose proof zlen_front as Hf.
  pose proof (zlen_nonneg (sent ty v)). pose proof (zlen_nonneg (sent ty w)). pose proof (fun s => zlen_slot_bytes s) as Hs.
  pose proof (zlen_nonneg middle). pose proof (zlen_nonneg (enc_data fs2 us2)).
  assert (forall o, zlen (enc_slots fs2 us2 o) = SLOT_SIZE * var_n fs2) as Hsl by (intros o; apply zlen_enc_slots; by rewrite length_fmap).
  rewrite !Hsl in *. pose proof (var_n_nonneg fs2). unfold SLOT_SIZE in *.
  rewrite (tuple_var v), (tuple_var w), (bits_same v w) in *. rewrite !zlen_app, Hs, Hsl in Hmax. rewrite !zlen_app in *.
  set (S2v := enc_slots fs2 us2 (off + zlen (sent ty v))) in *. set (S2w := enc_slots fs2 us2 (off + zlen (sent ty w))) in *.
  rewrite (app_assoc (slot_bytes _) S2v). rewrite splice_ok; [| rewrite !zlen_app; lia | rewrite zlen_app, Hs; unfold S2v; rewrite Hsl; lia |
    rewrite !zlen_app, Hs; unfold S2v; rewrite Hsl; lia | rewrite zlen_app, Hs; unfold S2w; rewrite Hsl; lia].
  assert (forall a b c d e : list byte, a ++ (b ++ c) ++ d ++ e = (a ++ b ++ c ++ d) ++ e ++ []) as Hassoc
    by (intros; by rewrite app_nil_r, <- !app_assoc).
  rewrite Hassoc. rewrite splice_ok; [by rewrite app_nil_r, <- !app_assoc | | by rewrite zlen_app | | rewrite zlen_app; lia].
  - rewrite !zlen_app, Hs. unfold S2w. rewrite Hsl. lia.
  - rewrite !zlen_app, Hs, zlen_nil. unfold S2w. rewrite Hsl. lia.
Qed.

Lemma all_var fs' : Forall (fun f : TypedField => flen f.1.1 = None) fs' -> var_n fs' = zlen fs'.
Proof. induction 1 as [| [[ty' nl'] ix'] fs' E Hf IH]; [done |]. cbn in E. by rewrite var_n_cons, zlen_cons, E, IH, Z.add_comm. Qed.

(** A value that does not get shorter, or the last one. *)
Lemma update_var w : tuple_fits fs (us1 ++ Value w :: us2) -> fs2 = [] \/ zlen (sent ty v) <= zlen (sent ty w) -> exists ds,
  update_tuple (zlen fs1) (sent ty w) desc T = Ok ds /\ apply_deltas ds T = Ok (tuple_with (Value w) us2).
Proof.
  intros Hmw Hc. destruct slot_here as (fd & Efd & Efix & Eso & Er). destruct capacity_here as (c & Ec & Hcap). destruct behind_ok as (_ & _ & K2).
  assert (length fs2 = length vs2) as El by (apply Forall2_length in K2; by rewrite length_fmap in K2). destruct zlen_tuple as [Hz Hmax].
  pose proof slot_bounds as Hb. unfold tuple_fits in Hmw. rewrite enc_data_app in Hmw by done. cbn [enc_data] in Hmw. rewrite En, !zlen_app in Hmw.
  pose proof (zlen_nonneg (sent ty v)). pose proof (zlen_nonneg (sent ty w)). pose proof (zlen_nonneg (enc_data fs2 us2)).
  unfold update_tuple. rewrite desc_count. rewrite (proj2 (Z.leb_gt _ _)) by (rewrite zlen_app, zlen_cons; mlia).
  rewrite Efd. cbn [mbind res_bind]. rewrite Efix, Er. cbn [mbind res_bind]. rewrite Ec. cbn [mbind res_bind sl_off sl_len].
  rewrite slot_buf, Eso. cbn [mbind res_bind]. assert (SLOT_SIZE = 8) as Es8 by done.
  rewrite (as_u32_small off), (as_u32_small (zlen (sent ty w))) by mlia. destruct (Z.leb_spec (zlen (sent ty w)) c) as [Hle | Hgt].
  - eexists. split; [reflexivity |]. rewrite (as_u32_small slot_off), (as_u32_small (zlen (sent ty v))) by mlia. rewrite apply_in_place by lia. f_equal. rewrite tuple_var, (bits_same v w).
    destruct Hcap as [-> | ->]; [done |]. destruct Hc as [-> | Hc]; [done |].
    by replace (zlen (sent ty w)) with (zlen (sent ty v)) by lia.
  - assert (td_all desc !! length fs1 = Some fd) as Eall.
    { unfold get_field_desc in Efd. unfold zlen in Efd. rewrite Nat2Z.id in Efd. by destruct (td_all desc !! length fs1); simplify_eq. }
    pose proof (behind_reads fd Eall) as Hrd. pose proof (var_behind _ _ _ _ behind_sorted En) as Hvar.
    cbn [desc_of td_all] in Hrd, Eall |- *. rewrite (fields_behind _ _ _ Eall) in Hrd |- *. rewrite (shift_fields_ok fs2 vs2) by (done || lia).
    cbn [mbind res_bind]. unfold usub. rewrite (proj2 (Z.leb_le _ _)) by lia. cbn [mbind res_bind]. eexists. split; [reflexivity |].
    assert (SLOT_SIZE * (zlen fs - zlen fs1) = SLOT_SIZE + zlen (enc_slots fs2 us2 (off + zlen (sent ty v)))) as Esz.
    { rewrite zlen_enc_slots, (all_var _ Hvar), zlen_app, zlen_cons by (by rewrite length_fmap). unfold SLOT_SIZE. lia. }
    pose proof zlen_middle as Hmid. pose proof (zlen_nonneg middle). pose proof (zlen_nonneg (enc_slots fs2 us2 (off + zlen (sent ty v)))).
    rewrite !as_u32_small by mlia. apply apply_moved; [done | lia | done | lia].
Qed.

(** A shorter value in front of other fields: their slots stay as they were. *)
Lemma update_shorter w : fs2 <> [] -> zlen (sent ty w) < zlen (sent ty v) -> exists ds,
  update_tuple (zlen fs1) (sent ty w) desc T = Ok ds /\
  apply_deltas ds T = Ok (front v ++ slot_bytes (mkSlot off (zlen (sent ty w))) ++ enc_slots fs2 us2 (off + zlen (sent ty v)) ++ middle ++
    sent ty w ++ enc_data fs2 us2).
Proof.
  intros Hne Hlt. destruct slot_here as (fd & Efd & Efix & Eso & Er). destruct capacity_here as (c & Ec & [-> | ->]); [done |].
  destruct zlen_tuple as [Hz Hmax]. pose proof slot_bounds as Hb. pose proof (zlen_nonneg (sent ty w)). pose proof (zlen_nonneg (enc_data fs2 us2)).
  unfold update_tuple. rewrite desc_count. rewrite (proj2 (Z.leb_gt _ _)) by (rewrite zlen_app, zlen_cons; mlia).
  rewrite Efd. cbn [mbind res_bind]. rewrite Efix, Er. cbn [mbind res_bind]. rewrite Ec. cbn [mbind res_bind sl_off sl_len].
  rewrite slot_buf, Eso. cbn [mbind res_bind]. assert (SLOT_SIZE = 8) as Es8 by done. rewrite (proj2 (Z.leb_le _ _)) by lia.
  rewrite (as_u32_small off), (as_u32_small (zlen (sent ty w))), (as_u32_small slot_off), (as_u32_small (zlen (sent ty v))) by mlia.
  eexists. split; [reflexivity |]. apply apply_in_place. lia.
Qed.
End var.
End field.

(** ** The field behind a shorter value *)

(** A slot that was read is read as before from a tuple with the same bytes
    there, and refused when the data is not inside of the tuple. *)
Lemma field_bytes_short (fd : FieldDesc Ty) T T' slot : fd_is_fixed_len fd = false -> read_slot fd T = Ok slot ->
  T'.[sl_off (fd_slot fd), SLOT_SIZE] = T.[sl_off (fd_slot fd), SLOT_SIZE] -> 0 <= sl_off (fd_slot fd) -> sl_off (fd_slot fd) + SLOT_SIZE <= zlen T' ->
  zlen T' < sl_off slot + sl_len slot -> field_bytes fd T' = Err IndexOutOfRange.
Proof.
  intros Efix Er Esame Hlo Hhi Hlt. unfold read_slot in Er. unfold field_bytes. rewrite Efix. unfold SLOT_SIZE in *.
  destruct (Z.ltb_spec (zlen T) (sl_off (fd_slot fd) + 8)); [done |]. rewrite slice_ok in * by lia. cbn [mbind res_bind] in *.
  replace (_ + 8 - _) with 8 in * by lia. rewrite Esame. destruct (Slot_from_binary _) as [slot' | |]; try done. cbn [mbind res_bind] in *.
  case_match; [done |]. injection Er as ->. by rewrite (proj2 (Z.ltb_lt _ _)) by lia.
Qed.

Lemma zsub_between (A X X' B D D' : list byte) o n : zlen X = zlen X' -> zlen A + zlen X <= o -> 0 <= n -> o + n <= zlen A + zlen X + zlen B ->
  (A ++ X ++ B ++ D).[o, n] = (A ++ X' ++ B ++ D').[o, n].
Proof.
  intros Ex Ho Hn Hb. pose proof (zlen_nonneg A). pose proof (zlen_nonneg X).
  rewrite !(zsub_app_r _ _ A), (zsub_app_r _ _ X), (zsub_app_r _ _ X'), <- Ex, !zsub_app_l by (rewrite ?zlen_app; pose proof (zlen_nonneg D);
    pose proof (zlen_nonneg D'); lia). done.
Qed.

(** The data of the last field ends with the tuple. *)
Lemma last_slot fs1 ty nl ix us1 v version :
  let fs := fs1 ++ [(ty, nl, ix)] in
  let us := us1 ++ [Value v] in
  fields_ok fs -> length fs1 = length us1 -> Forall2 value_ok fs us -> tuple_fits fs us -> flen ty = None ->
  exists fd slot, get_field_desc (zlen fs1) (desc_of fs version) = Ok fd /\ fd_is_fixed_len fd = false /\
    sl_off (fd_slot fd) = aligned_byte_len (count_nullable fs) + SLOT_SIZE * var_n fs1 /\
    read_slot fd (encode fs us (null_bits fs us)) = Ok slot /\ sl_off slot + sl_len slot = zlen (encode fs us (null_bits fs us)).
Proof.
  intros fs us Hok Hl Hv Hm En. destruct (slot_here fs1 [] ty nl ix us1 version Hok Hl [] En v Hv Hm) as (fd & E1 & E2 & E3 & E4).
  destruct (zlen_tuple fs1 [] ty nl ix us1 Hok Hl [] En v Hv Hm) as [Hz _]. unfold tuple_with in *. exists fd. eexists.
  split_and!; [done | done | done | exact E4 |]. cbn [sl_off sl_len enc_data] in *. rewrite zlen_nil in Hz. fold fs us in Hz |- *. cbn in Hz. unfold us in *. lia.
Qed.

(** A field whose slot stayed and whose data is now behind the end. *)
Lemma read_behind_end fs us version i x fd slot A X X' B D D' : fields_ok fs -> Forall2 value_ok fs us -> us !! i = Some (Value x) ->
  let front := bm_bytes (null_bits fs us) ++ A in
  let new := front ++ X' ++ B ++ D' in
  get_field_desc (Z.of_nat i) (desc_of fs version) = Ok fd -> fd_is_fixed_len fd = false -> read_slot fd (front ++ X ++ B ++ D) = Ok slot ->
  zlen X = zlen X' -> zlen front + zlen X <= sl_off (fd_slot fd) -> sl_off (fd_slot fd) + SLOT_SIZE <= zlen front + zlen X + zlen B ->
  data_start fs <= zlen new -> zlen new < sl_off slot + sl_len slot -> read_value new (desc_of fs version) (Z.of_nat i) = Err IndexOutOfRange.
Proof.
  intros Hok Hv Ei front new Eg Efix Er Ex Hlo Hhi Hd Hlt. pose proof (zlen_nonneg front). pose proof (zlen_nonneg X). pose proof (zlen_nonneg D').
  assert (is_null new (desc_of fs version) (Z.of_nat i) = Ok false) as En.
  { unfold new, front in *. rewrite <- app_assoc in *. by apply (bitmap_null fs us version i (Value x)). }
  unfold read_value. rewrite En. cbn [mbind res_bind]. rewrite Eg. cbn [mbind res_bind]. unfold new in *.
  rewrite (field_bytes_short fd (front ++ X ++ B ++ D) (front ++ X' ++ B ++ D') slot); [done | done | done | | lia | | done].
  - apply zsub_between; unfold SLOT_SIZE in *; lia.
  - rewrite !zlen_app in *. lia.
Qed.

(** The last field cannot be read behind a value that got shorter. *)
Lemma read_last_short fs1 ty nl ix fs2 us1 v w vs2 version :
  let fs := fs1 ++ (ty, nl, ix) :: fs2 in
  let us := us1 ++ Value v :: (Value <$> vs2) in
  fields_ok fs -> length fs1 = length us1 -> Forall2 value_ok fs us -> tuple_fits fs us -> flen ty = None -> fs2 <> [] ->
  zlen (sent ty w) < zlen (sent ty v) -> exists ds new,
  update_tuple (zlen fs1) (sent ty w) (desc_of fs version) (encode fs us (null_bits fs us)) = Ok ds /\
  apply_deltas ds (encode fs us (null_bits fs us)) = Ok new /\ read_value new (desc_of fs version) (zlen fs - 1) = Err IndexOutOfRange.
Proof.
  intros fs us Hok Hl Hv Hm En Hne Hlt.
  destruct (update_shorter fs1 fs2 ty nl ix us1 version Hok Hl vs2 En v Hv Hm w Hne Hlt) as (ds & E1 & E2).
  pose proof (var_behind _ _ _ _ (behind_sorted fs1 fs2 ty nl ix Hok) En) as Hvar.
  pose proof (slot_bounds fs1 fs2 ty nl ix us1 Hok Hl vs2 En v Hv Hm) as Hb. pose proof (zlen_front fs1 fs2 ty nl ix us1 Hok Hl vs2 v Hv) as Hf.
  pose proof (zlen_middle fs1 fs2 ty nl ix us1 Hl vs2 En v Hv) as Hmid. pose proof (tuple_var fs1 fs2 ty nl ix us1 Hl vs2 En v) as ET.
  unfold tuple_with in *. destruct (exists_last Hne) as (fs2' & [[tyg nlg] ixg] & ->).
  destruct (exists_last (l := vs2)) as (vs2' & x & ->).
  { intros ->. apply Forall2_length in Hv. unfold fs, us in Hv. rewrite !length_app in Hv. cbn in Hv. rewrite length_app in Hv. cbn in Hv. lia. }
  apply Forall_app in Hvar as [_ [Hg _]%Forall_cons]. cbn in Hg.
  assert (fs = (fs1 ++ (ty, nl, ix) :: fs2') ++ [(tyg, nlg, ixg)]) as Efs by (unfold fs; by rewrite <- app_assoc).
  assert (us = (us1 ++ Value v :: (Value <$> vs2')) ++ [Value x]) as Eus by (unfold us; by rewrite fmap_app, <- app_assoc).
  pose proof (Forall2_length _ _ _ Hv) as Elen. rewrite Efs, Eus, !length_app in Elen. cbn [length] in Elen.
  destruct (last_slot (fs1 ++ (ty, nl, ix) :: fs2') tyg nlg ixg (us1 ++ Value v :: (Value <$> vs2')) x version) as (fd & slot & F1 & F2 & F3 & F4 & F5);
    [by rewrite <- Efs | rewrite !length_app; cbn [length]; lia | by rewrite <- Efs, <- Eus | by rewrite <- Efs, <- Eus | done |].
  rewrite <- Efs in F1, F3, F4, F5. rewrite <- Eus in F4, F5. exists ds. eexists. split_and!; [exact E1 | exact E2 |]. fold fs us in ET, Hf, Hmid, Hb |- *.
  assert (zlen fs - 1 = Z.of_nat (length (fs1 ++ (ty, nl, ix) :: fs2'))) as Ei by (rewrite Efs, zlen_app; unfold zlen; cbn; lia).
  rewrite ET in F4. rewrite ET in F5. fold (zlen (fs1 ++ (ty, nl, ix) :: fs2')) in Ei. rewrite Ei.
  assert (0 <= var_n fs2') as Hn by apply var_n_nonneg.
  assert (var_n (fs1 ++ (ty, nl, ix) :: fs2') = var_n fs1 + 1 + var_n fs2') as Evn by (rewrite var_n_app, var_n_cons, En; lia).
  assert (forall o, zlen (enc_slots (fs2' ++ [(tyg, nlg, ixg)]) (Value <$> vs2' ++ [x]) o) = SLOT_SIZE * (var_n fs2' + 1)) as Hsl.
  { intros o. rewrite zlen_enc_slots, var_n_app, var_n_cons, Hg by (rewrite length_fmap, !length_app; rewrite length_fmap in Elen; cbn; lia). done. }
  pose proof (zlen_nonneg (enc_data fs1 us1)) as Hd1. pose proof (zlen_nonneg (sent ty w)) as Hw0.
  pose proof (zlen_nonneg (enc_data (fs2' ++ [(tyg, nlg, ixg)]) (Value <$> vs2' ++ [x]))) as Hd2. rewrite Hsl in Hmid.
  rewrite (app_assoc (enc_slots _ _ _)) in F4. rewrite (app_assoc (enc_slots (fs2' ++ _) _ _)).
  eapply (read_behind_end fs us version _ x fd slot); [done | done | rewrite Eus; apply list_lookup_middle; rewrite !length_app; cbn [length]; lia | exact F1 | done | exact F4 | ..];
    rewrite !zlen_app, ?zlen_slot_bytes, ?Hsl in *; pose proof (zlen_nonneg (enc_fixed fs1 us1));
    pose proof (zlen_nonneg (enc_fixed (fs2' ++ [(tyg, nlg, ixg)]) (Value <$> vs2' ++ [x]))); unfold SLOT_SIZE in *; lia.
Qed.
End update.
