(* ===== verification/DataTypes.v ===== *)
(** * Data types

    The scalar and binary types of [mudu_type]: their order, their values and
    the functions of their families ([data_type_impl/fn_*.rs]) that tuples use.
    A float is given by its bits, a string by its bytes.  [Numeric] (a wrapper
    of [bigdecimal]), [Array] and [Record] are not modelled. *)

From S2P Require Import Prelude Errors Compat Versions Tuples.

(** ** type_family.rs *)

Inductive TypeFamily : Type :=
| TfI32 | TfI64 | TfF32 | TfF64 | TfString | TfU128 | TfI128 | TfDate | TfTime | TfTimestamp | TfTimestampTz | TfBinary.

#[export] Instance TypeFamily_eq_dec : EqDecision TypeFamily.
Proof. solve_decision. Defined.

Definition family_id (id : TypeFamily) : Z :=
  match id with
  | TfI32 => 0 | TfI64 => 1 | TfF32 => 2 | TfF64 => 3 | TfString => 4 | TfU128 => 5 | TfI128 => 6
  | TfDate => 8 | TfTime => 9 | TfTimestamp => 10 | TfTimestampTz => 11 | TfBinary => 1003
  end.

Definition has_param (id : TypeFamily) : bool :=
  match id with TfI32 | TfI64 | TfI128 | TfF32 | TfF64 | TfU128 | TfDate => false | _ => true end.

(** ** data_type_param_kind.rs and data_type.rs *)

Inductive DataTypeParamKind : Type :=
| PString (length : Z)
| PTime (precision : Z)
| PTimestamp (precision : Z)
| PTimestampTz (precision : Z).

Record DataType : Type := mkDataType {
  dt_id : TypeFamily;
  dt_param : option DataTypeParamKind;
}.

Definition param_family (k : DataTypeParamKind) : TypeFamily :=
  match k with PString _ => TfString | PTime _ => TfTime | PTimestamp _ => TfTimestamp | PTimestampTz _ => TfTimestampTz end.

Definition string_fixed_length (length : Z) : bool := false.

Definition string_param_compare (l r : Z) : comparison :=
  match string_fixed_length l, string_fixed_length r with true, true => Eq | true, false => Lt | false, true => Gt | false, false => Eq end.

Definition param_compare (k1 k2 : DataTypeParamKind) : RS comparison :=
  Ok match k1, k2 with
     | PString l, PString r => string_param_compare l r
     | PTime l, PTime r | PTimestamp l, PTimestamp r | PTimestampTz l, PTimestampTz r => l ?= r
     | _, _ => family_id (param_family k1) ?= family_id (param_family k2)
     end.

(** ** data_value.rs *)

Inductive DataValue : Type :=
| VNull
| VF32 (bits : Z) | VF64 (bits : Z)
| VI32 (i : Z) | VI64 (i : Z) | VI128 (i : Z) | VU128 (n : Z)
| VDate (days_since_epoch : Z) | VTime (micros_since_midnight : Z) | VTimestamp (epoch_micros : Z) | VTimestampTz (epoch_micros_utc : Z)
| VString (s : list byte) | VBinary (b : list byte).

(** [expect_*] panics on a value of another kind. *)
Definition expect_f32 (v : DataValue) : Res TyEC Z := match v with VF32 x => Ok x | _ => Panic end.
Definition expect_f64 (v : DataValue) : Res TyEC Z := match v with VF64 x => Ok x | _ => Panic end.
Definition expect_i32 (v : DataValue) : Res TyEC Z := match v with VI32 x => Ok x | _ => Panic end.
Definition expect_i64 (v : DataValue) : Res TyEC Z := match v with VI64 x => Ok x | _ => Panic end.
Definition expect_i128 (v : DataValue) : Res TyEC Z := match v with VI128 x => Ok x | _ => Panic end.
Definition expect_u128 (v : DataValue) : Res TyEC Z := match v with VU128 x => Ok x | _ => Panic end.
Definition expect_date (v : DataValue) : Res TyEC Z := match v with VDate x => Ok x | _ => Panic end.
Definition expect_time (v : DataValue) : Res TyEC Z := match v with VTime x => Ok x | _ => Panic end.
Definition expect_timestamp (v : DataValue) : Res TyEC Z := match v with VTimestamp x => Ok x | _ => Panic end.
Definition expect_timestamptz (v : DataValue) : Res TyEC Z := match v with VTimestampTz x => Ok x | _ => Panic end.
Definition expect_string (v : DataValue) : Res TyEC (list byte) := match v with VString x => Ok x | _ => Panic end.
Definition expect_binary (v : DataValue) : Res TyEC (list byte) := match v with VBinary x => Ok x | _ => Panic end.

(** ** Integers *)

(** [as] casts between signed and unsigned integers of [n] bytes. *)
Definition to_unsigned (n : nat) (z : Z) : Z := z mod 256 ^ Z.of_nat n.
Definition to_signed (n : nat) (z : Z) : Z :=
  let z := z mod 256 ^ Z.of_nat n in if z <? 256 ^ Z.of_nat n / 2 then z else z - 256 ^ Z.of_nat n.

(** The sign bit is flipped. *)
Definition encode_sortable_i32 (value : Z) : Z := Z.lxor (to_unsigned 4 value) (Z.shiftl 1 31).
Definition decode_sortable_i32 (value : Z) : Z := to_signed 4 (Z.lxor value (Z.shiftl 1 31)).
Definition encode_sortable_i64 (value : Z) : Z := Z.lxor (to_unsigned 8 value) (Z.shiftl 1 63).
Definition decode_sortable_i64 (value : Z) : Z := to_signed 8 (Z.lxor value (Z.shiftl 1 63)).

Definition MICROS_PER_DAY : Z := 24 * (60 * (60 * 1000000)).

(** [TimeValue::from_micros_since_midnight]. *)
Definition from_micros_since_midnight (micros : Z) : Res TyEC Z :=
  if (0 <=? micros) && (micros <? MICROS_PER_DAY) then Ok micros else Err TypeConvertFailed.

(** ** UTF-8: [String::from_utf8] *)

Definition in_range (lo hi : Z) (b : byte) : bool := (lo <=? Reference.byte_val b) && (Reference.byte_val b <=? hi).

(** The well-formed byte sequences of the Unicode standard. *)
Fixpoint utf8_valid (s : list byte) : bool :=
  match s with
  | [] => true
  | a :: s1 =>
      if in_range 0 127 a then utf8_valid s1 else
      match s1 with
      | [] => false
      | b :: s2 =>
          if in_range 194 223 a && in_range 128 191 b then utf8_valid s2 else
          match s2 with
          | [] => false
          | c :: s3 =>
              if (in_range 224 224 a && in_range 160 191 b || in_range 225 236 a && in_range 128 191 b ||
                  in_range 237 237 a && in_range 128 159 b || in_range 238 239 a && in_range 128 191 b) && in_range 128 191 c
              then utf8_valid s3 else
              match s3 with
              | [] => false
              | d :: s4 =>
                  if (in_range 240 240 a && in_range 144 191 b || in_range 241 243 a && in_range 128 191 b ||
                      in_range 244 244 a && in_range 128 143 b) && in_range 128 191 c && in_range 128 191 d
                  then utf8_valid s4 else false
              end
          end
      end
  end.

(** The order of strings is that of their bytes. *)
Fixpoint bytes_compare (a b : list byte) : comparison :=
  match a, b with
  | [], [] => Eq
  | [], _ => Lt
  | _, [] => Gt
  | x :: a, y :: b => match Reference.byte_val x ?= Reference.byte_val y with Eq => bytes_compare a b | ord => ord end
  end.

(** ** The functions of the families *)

Record FnBase : Type := mkFnBase {
  fb_type_len : DataType -> Res TyEC (option Z);
  fb_data_len : DataValue -> DataType -> Res TyEC Z;
  fb_receive : list byte -> DataType -> Res TyEC (DataValue * Z);
  fb_send : DataValue -> DataType -> Res TyEC (list byte);
  fb_send_to : DataValue -> DataType -> ST TyEC (list byte) Z;
  fb_default : DataType -> Res TyEC DataValue;
}.

Record FnCompare : Type := mkFnCompare {
  fc_order : DataValue -> DataValue -> Res TyEC comparison;
  fc_equal : DataValue -> DataValue -> Res TyEC bool;
}.

Section families.
Context `{Packages}.

(** A buffer of [n] zero bytes with an integer in network byte order. *)
Definition new_be (n : nat) (v : Z) : Res TyEC (list byte) :=
  match be_write n v (zeros (Z.of_nat n)) with (Ok _, buf) => Ok buf | (Err e, _) => Err e | (Panic, _) => Panic end.

(** The first bytes of the buffer are written, if there are enough. *)
Definition put_be (short : list byte -> bool) (n : nat) (v : Res TyEC Z) : ST TyEC (list byte) Z :=
  buf ← st_get;
  if short buf then st_lift (Err InsufficientSpace) else
  v ← st_lift v; be_write n v ;; mret (Z.of_nat n).

Definition shorter (n : Z) (buf : list byte) : bool := zlen buf <? n.

(** An integer from the first bytes of the buffer. *)
Definition get_be (n : nat) (make : Z -> Res TyEC DataValue) (buf : list byte) : Res TyEC (DataValue * Z) :=
  if shorter (Z.of_nat n) buf then Err InsufficientSpace else
  i ← be_read n buf; v ← make i; Ok (v, Z.of_nat n).

Definition order_by (expect : DataValue -> Res TyEC Z) (v1 v2 : DataValue) : Res TyEC comparison :=
  a ← expect v1; b ← expect v2; Ok (a ?= b).
Definition equal_by (expect : DataValue -> Res TyEC Z) (v1 v2 : DataValue) : Res TyEC bool :=
  a ← expect v1; b ← expect v2; Ok (a =? b).

Definition FN_I32_CONVERT : FnBase := {|
  fb_type_len _ := Ok (Some 4);
  fb_data_len _ _ := Ok 4;
  fb_receive buf _ := get_be 4 (fun i => Ok (VI32 (to_signed 4 i))) buf;
  fb_send v _ := i ← expect_i32 v; new_be 4 (to_unsigned 4 i);
  fb_send_to v _ := i ← st_lift (expect_i32 v); put_be (fun buf => as_u32 (zlen buf) <? 4) 4 (Ok (to_unsigned 4 i));
  fb_default _ := Ok (VI32 0) |}.
Definition FN_I32_COMPARE : FnCompare := mkFnCompare (order_by expect_i32) (equal_by expect_i32).

Definition FN_I64_CONVERT : FnBase := {|
  fb_type_len _ := Ok (Some 8);
  fb_data_len _ _ := Ok 8;
  fb_receive buf _ := get_be 8 (fun i => Ok (VI64 (to_signed 8 i))) buf;
  fb_send v _ := i ← expect_i64 v; new_be 8 (to_unsigned 8 i);
  fb_send_to v _ := i ← st_lift (expect_i64 v); put_be (shorter 8) 8 (Ok (to_unsigned 8 i));
  fb_default _ := Ok (VI64 0) |}.
Definition FN_I64_COMPARE : FnCompare := mkFnCompare (order_by expect_i64) (equal_by expect_i64).

Definition FN_F32_CONVERT : FnBase := {|
  fb_type_len _ := Ok (Some 4);
  fb_data_len _ _ := Ok 4;
  fb_receive buf _ := get_be 4 (fun i => Ok (VF32 i)) buf;
  fb_send v _ := i ← expect_f32 v; new_be 4 i;
  fb_send_to v _ := i ← st_lift (expect_f32 v); put_be (shorter 4) 4 (Ok i);
  fb_default _ := Ok (VF32 0) |}.

Definition FN_F64_CONVERT : FnBase := {|
  fb_type_len _ := Ok (Some 8);
  fb_data_len _ _ := Ok 8;
  fb_receive buf _ := get_be 8 (fun i => Ok (VF64 i)) buf;
  fb_send v _ := i ← expect_f64 v; new_be 8 i;
  fb_send_to v _ := i ← st_lift (expect_f64 v); put_be (shorter 8) 8 (Ok i);
  fb_default _ := Ok (VF64 0) |}.

Definition FN_OID_CONVERT : FnBase := {|
  fb_type_len _ := Ok (Some 16);
  fb_data_len _ _ := Ok 16;
  fb_receive buf _ := get_be 16 (fun i => Ok (VU128 i)) buf;
  fb_send v _ := oid ← expect_u128 v; new_be 16 oid;
  fb_send_to v _ := put_be (shorter 16) 16 (expect_u128 v);
  fb_default _ := Ok (VU128 0) |}.
Definition FN_OID_COMPARE : FnCompare := mkFnCompare (order_by expect_u128) (equal_by expect_u128).

Definition FN_I128_CONVERT : FnBase := {|
  fb_type_len _ := Ok (Some 16);
  fb_data_len _ _ := Ok 16;
  fb_receive buf _ := get_be 16 (fun i => Ok (VI128 (to_signed 16 i))) buf;
  fb_send v _ := i ← expect_i128 v; new_be 16 (to_unsigned 16 i);
  fb_send_to v _ := put_be (shorter 16) 16 (i ← expect_i128 v; Ok (to_unsigned 16 i));
  fb_default _ := Ok (VI128 0) |}.
Definition FN_I128_COMPARE : FnCompare := mkFnCompare (order_by expect_i128) (equal_by expect_i128).

Definition FN_DATE_CONVERT : FnBase := {|
  fb_type_len _ := Ok (Some 4);
  fb_data_len _ _ := Ok 4;
  fb_receive buf _ := get_be 4 (fun i => Ok (VDate (decode_sortable_i32 i))) buf;
  fb_send v _ := d ← expect_date v; new_be 4 (encode_sortable_i32 d);
  fb_send_to v _ := put_be (shorter 4) 4 (d ← expect_date v; Ok (encode_sortable_i32 d));
  fb_default _ := Ok (VDate 0) |}.
Definition FN_DATE_COMPARE : FnCompare := mkFnCompare (order_by expect_date) (equal_by expect_date).

Definition FN_TIME_CONVERT : FnBase := {|
  fb_type_len _ := Ok (Some 8);
  fb_data_len _ _ := Ok 8;
  fb_receive buf _ := get_be 8 (fun i => t ← from_micros_since_midnight (decode_sortable_i64 i); Ok (VTime t)) buf;
  fb_send v _ := t ← expect_time v; new_be 8 (encode_sortable_i64 t);
  fb_send_to v _ := put_be (shorter 8) 8 (t ← expect_time v; Ok (encode_sortable_i64 t));
  fb_default _ := t ← from_micros_since_midnight 0; Ok (VTime t) |}.
Definition FN_TIME_COMPARE : FnCompare := mkFnCompare (order_by expect_time) (equal_by expect_time).

Definition FN_TIMESTAMP_CONVERT : FnBase := {|
  fb_type_len _ := Ok (Some 8);
  fb_data_len _ _ := Ok 8;
  fb_receive buf _ := get_be 8 (fun i => Ok (VTimestamp (decode_sortable_i64 i))) buf;
  fb_send v _ := t ← expect_timestamp v; new_be 8 (encode_sortable_i64 t);
  fb_send_to v _ := put_be (shorter 8) 8 (t ← expect_timestamp v; Ok (encode_sortable_i64 t));
  fb_default _ := Ok (VTimestamp 0) |}.
Definition FN_TIMESTAMP_COMPARE : FnCompare := mkFnCompare (order_by expect_timestamp) (equal_by expect_timestamp).

Definition FN_TIMESTAMPTZ_CONVERT : FnBase := {|
  fb_type_len _ := Ok (Some 8);
  fb_data_len _ _ := Ok 8;
  fb_receive buf _ := get_be 8 (fun i => Ok (VTimestampTz (decode_sortable_i64 i))) buf;
  fb_send v _ := t ← expect_timestamptz v; new_be 8 (encode_sortable_i64 t);
  fb_send_to v _ := put_be (shorter 8) 8 (t ← expect_timestamptz v; Ok (encode_sortable_i64 t));
  fb_default _ := Ok (VTimestampTz 0) |}.
Definition FN_TIMESTAMPTZ_COMPARE : FnCompare := mkFnCompare (order_by expect_timestamptz) (equal_by expect_timestamptz).

(** [mudu/src/utils/buf.rs]: bytes behind their length. *)
Definition write_sized_buf (src : list byte) : ST TyEC (list byte) Z :=
  dest ← st_get;
  if zlen dest <? 4 + zlen src then mret 0 else
  be_write 4 (as_u32 (zlen src)) ;;
  copy_from_slice 4 (4 + zlen src) src ;;
  st_lift (add_u32 (as_u32 (zlen src)) 4).

Definition read_sized_buf (buf : list byte) : Res (option Z) (Z * list byte) :=
  if zlen buf <? 4 then Err None else
  n ← be_read 4 buf;
  if zlen buf <? n + 4 then Err (Some n) else
  total ← add_u32 n 4;
  payload ← slice 4 (4 + n) buf;
  Ok (total, payload).

Definition string_send_to (s : list byte) : ST TyEC (list byte) unit :=
  n ← write_sized_buf s;
  if n =? 0 then st_lift (Err TypeConvertFailed) else mret tt.

Definition FN_CHAR_FIXED_CONVERT : FnBase := {|
  fb_type_len _ := Ok None;
  fb_data_len v _ := s ← expect_string v; Ok (as_u32 (zlen s + 4));
  fb_receive buf _ :=
    '(read_n, b) ← map_err (fun _ => TypeConvertFailed) (read_sized_buf buf);
    if utf8_valid b then Ok (VString b, read_n) else Err TypeConvertFailed;
  fb_send v _ :=
    s ← expect_string v;
    match string_send_to s (zeros (zlen s + 4)) with (Ok _, vec) => Ok vec | (Err e, _) => Err e | (Panic, _) => Panic end;
  fb_send_to v _ := s ← st_lift (expect_string v); string_send_to s ;; mret (as_u32 (zlen s + 4));
  fb_default _ := Ok (VString []) |}.
Definition FN_CHAR_FIXED_COMPARE : FnCompare := {|
  fc_order v1 v2 := a ← expect_string v1; b ← expect_string v2; Ok (bytes_compare a b);
  fc_equal v1 v2 := a ← expect_string v1; b ← expect_string v2; Ok (bool_decide (a = b)) |}.

Definition binary_send_to (b : list byte) : ST TyEC (list byte) Z :=
  buf ← st_get;
  let total_len := 4 + zlen b in
  if zlen buf <? total_len then st_lift (Err InsufficientSpace) else
  copy_from_slice 4 (4 + zlen b) b ;;
  on_slice 0 4 (be_write 4 (as_u32 total_len)) ;;
  mret (as_u32 total_len).

Definition FN_BINARY_CONVERT : FnBase := {|
  fb_type_len _ := Ok None;
  fb_data_len v _ := b ← expect_binary v; add_u32 4 (as_u32 (zlen b));
  fb_receive buf _ :=
    if zlen buf <? 4 then Err InsufficientSpace else
    head ← slice 0 4 buf;
    binary_bytes ← be_read 4 head;
    if (zlen buf <? binary_bytes) || (binary_bytes <? 4) then Err InsufficientSpace else
    binary ← slice 4 binary_bytes buf;
    Ok (VBinary binary, binary_bytes);
  fb_send v _ :=
    b ← expect_binary v;
    len ← add_u32 4 (as_u32 (zlen b));
    match binary_send_to b (zeros len) with (Ok _, vec) => Ok vec | (Err e, _) => Err e | (Panic, _) => Panic end;
  fb_send_to v _ := b ← st_lift (expect_binary v); binary_send_to b;
  fb_default _ := Ok (VBinary []) |}.

(** ** data_type_table.rs *)

Definition fn_base (id : TypeFamily) : FnBase :=
  match id with
  | TfI32 => FN_I32_CONVERT | TfI64 => FN_I64_CONVERT | TfF32 => FN_F32_CONVERT | TfF64 => FN_F64_CONVERT
  | TfString => FN_CHAR_FIXED_CONVERT | TfU128 => FN_OID_CONVERT | TfI128 => FN_I128_CONVERT | TfDate => FN_DATE_CONVERT
  | TfTime => FN_TIME_CONVERT | TfTimestamp => FN_TIMESTAMP_CONVERT | TfTimestampTz => FN_TIMESTAMPTZ_CONVERT
  | TfBinary => FN_BINARY_CONVERT
  end.

Definition opt_fn_compare (id : TypeFamily) : option FnCompare :=
  match id with
  | TfI32 => Some FN_I32_COMPARE | TfI64 => Some FN_I64_COMPARE | TfF32 | TfF64 | TfBinary => None
  | TfString => Some FN_CHAR_FIXED_COMPARE | TfU128 => Some FN_OID_COMPARE | TfI128 => Some FN_I128_COMPARE
  | TfDate => Some FN_DATE_COMPARE | TfTime => Some FN_TIME_COMPARE | TfTimestamp => Some FN_TIMESTAMP_COMPARE
  | TfTimestampTz => Some FN_TIMESTAMPTZ_COMPARE
  end.

(** ** The order of types *)

Definition compare_inner (a b : DataType) : RS comparison :=
  match family_id (dt_id a) ?= family_id (dt_id b) with
  | Eq => match dt_param a, dt_param b with
          | None, Some _ => Ok Lt
          | Some _, None => Ok Gt
          | Some k1, Some k2 => param_compare k1 k2
          | None, None => Ok Eq
          end
  | ord => Ok ord
  end.

Definition DataType_compare (a b : DataType) : RS comparison :=
  if negb (has_param (dt_id a)) && negb (has_param (dt_id b)) then Ok (family_id (dt_id a) ?= family_id (dt_id b)) else
  opt_len1 ← map_err to_m_err (fb_type_len (fn_base (dt_id a)) a);
  opt_len2 ← map_err to_m_err (fb_type_len (fn_base (dt_id b)) b);
  match opt_len1, opt_len2 with
  | None, Some _ => Ok Gt
  | Some _, None => Ok Lt
  | _, _ => compare_inner a b
  end.

(** The class of [Tuples] at these types. *)
#[export] Instance data_type_fns : TypeFns DataType DataValue := {
  type_len ty := fb_type_len (fn_base (dt_id ty)) ty;
  type_cmp := DataType_compare;
  type_send v ty := fb_send (fn_base (dt_id ty)) v ty;
  type_recv buf ty := fb_receive (fn_base (dt_id ty)) buf ty;
  type_default ty := fb_default (fn_base (dt_id ty)) ty;
  type_order ty := fc_order <$> opt_fn_compare (dt_id ty);
  type_equal ty := fc_equal <$> opt_fn_compare (dt_id ty);
}.
End families.
