(* ===== verification/DataTypeLaws.v ===== *)
(** * The laws of the data types

    The instance of [TypeFnsOk] for [DataType]: every value of a type is read
    back from its binary form, and types are ordered by the kind of their
    length, their family and their parameter. *)

From S2P Require Import Prelude Errors Compat Versions Tuples TupleLayout DataTypes.

(** ** Integers *)

Definition in_signed (n : nat) (z : Z) : Prop := - (256 ^ Z.of_nat n / 2) <= z < 256 ^ Z.of_nat n / 2.
Definition in_unsigned (n : nat) (z : Z) : Prop := 0 <= z < 256 ^ Z.of_nat n.

Lemma half_width n : (0 < n)%nat -> 256 ^ Z.of_nat n = 2 * (256 ^ Z.of_nat n / 2) /\ 0 < 256 ^ Z.of_nat n / 2.
Proof.
  intros Hn. destruct n as [| n]; [lia |]. rewrite Nat2Z.inj_succ, Z.pow_succ_r by lia.
  replace (256 * 256 ^ Z.of_nat n) with (128 * 256 ^ Z.of_nat n * 2) by lia. rewrite Z.div_mul by lia.
  pose proof (Z.pow_pos_nonneg 256 (Z.of_nat n)). lia.
Qed.

Lemma unsigned_range n z : in_unsigned n (to_unsigned n z).
Proof. apply Z.mod_pos_bound. apply Z.pow_pos_nonneg; lia. Qed.

Lemma signed_unsigned n z : (0 < n)%nat -> in_signed n z -> to_signed n (to_unsigned n z) = z.
Proof.
  intros Hn Hz. destruct (half_width n Hn) as [E Hp]. unfold in_signed, to_signed, to_unsigned in *. set (m := 256 ^ Z.of_nat n) in *.
  rewrite Z.mod_mod by lia. destruct (Z.ltb_spec (z mod m) (m / 2)) as [Hl | Hl].
  - destruct (Z.le_gt_cases 0 z) as [H0 | H0]; [apply Z.mod_small; lia |].
    replace z with (z + m + (-1) * m) in Hl by lia. rewrite Z.mod_add, Z.mod_small in Hl by lia. lia.
  - destruct (Z.le_gt_cases 0 z) as [H0 | H0]; [rewrite Z.mod_small in Hl by lia; lia |].
    replace (z mod m) with (z + m); [lia |]. symmetry. rewrite <- (Z.mod_small (z + m) m) by lia.
    rewrite <- (Z.mod_add z 1 m) by lia. f_equal. lia.
Qed.

(** Flipping the highest bit is adding it. *)
Lemma lxor_high u k : 0 <= k -> 0 <= u < 2 ^ (k + 1) -> Z.lxor u (Z.shiftl 1 k) = (u + 2 ^ k) mod 2 ^ (k + 1).
Proof.
  intros Hk Hu. rewrite Z.shiftl_1_l. rewrite Z.pow_add_r in * by lia. change (2 ^ 1) with 2 in *. pose proof (Z.pow_pos_nonneg 2 k ltac:(lia) Hk).
  assert (forall w, 0 <= w < 2 ^ k -> Z.lxor w (2 ^ k) = w + 2 ^ k) as Hlow.
  { intros w Hw. symmetry. apply Z.add_nocarry_lxor. apply Z.bits_inj'. intros j Hj. rewrite Z.land_spec, Z.bits_0.
    destruct (decide (j = k)) as [-> | Hne]; [| rewrite (Z.pow2_bits_false k j) by lia; apply andb_false_r].
    apply andb_false_intro1. destruct (decide (w = 0)) as [-> | Hw0]; [apply Z.bits_0 |].
    apply Z.bits_above_log2; [lia |]. apply Z.log2_lt_pow2; lia. }
  destruct (Z.lt_ge_cases u (2 ^ k)) as [Hlt | Hge]; [rewrite Hlow, Z.mod_small; lia |].
  replace u with (u - 2 ^ k + 2 ^ k) at 1 by lia. rewrite <- Hlow by lia. rewrite Z.lxor_assoc, Z.lxor_nilpotent, Z.lxor_0_r.
  replace (u + 2 ^ k) with (u - 2 ^ k + 1 * (2 ^ k * 2)) by lia. rewrite Z.mod_add, Z.mod_small by lia. done.
Qed.

(** The sortable form of a signed integer is the distance from the lowest one. *)
Lemma sortable n k z : (0 < n)%nat -> 256 ^ Z.of_nat n = 2 ^ (k + 1) -> 0 <= k -> in_signed n z ->
  Z.lxor (to_unsigned n z) (Z.shiftl 1 k) = z + 2 ^ k /\ to_signed n (Z.lxor (z + 2 ^ k) (Z.shiftl 1 k)) = z /\ in_unsigned n (z + 2 ^ k).
Proof.
  intros Hn E Hk Hz. assert (256 ^ Z.of_nat n / 2 = 2 ^ k) as E2.
  { rewrite E, Z.pow_add_r by lia. change (2 ^ 1) with 2. by rewrite Z.div_mul. }
  assert (2 ^ (k + 1) = 2 * 2 ^ k) as E3 by (rewrite Z.pow_add_r by lia; change (2 ^ 1) with 2; lia).
  unfold in_signed, in_unsigned in *. rewrite E2 in Hz.
  assert (Z.lxor (to_unsigned n z) (Z.shiftl 1 k) = z + 2 ^ k) as Ex.
  { rewrite lxor_high by (try done; pose proof (unsigned_range n z) as Hu; unfold in_unsigned in Hu; rewrite E in Hu; lia).
    unfold to_unsigned. rewrite E, E3, Z.add_mod_idemp_l by lia. apply Z.mod_small. lia. }
  split_and!; [done | | lia | rewrite E, E3; lia]. rewrite <- Ex, Z.lxor_assoc, Z.lxor_nilpotent, Z.lxor_0_r.
  apply signed_unsigned; [done |]. unfold in_signed. rewrite E, E3, Z.mul_comm, Z.div_mul by done. lia.
Qed.

Lemma sortable_i32 z : in_signed 4 z ->
  encode_sortable_i32 z = z + 2 ^ 31 /\ decode_sortable_i32 (encode_sortable_i32 z) = z /\ in_unsigned 4 (encode_sortable_i32 z).
Proof. intros Hz. unfold encode_sortable_i32, decode_sortable_i32. destruct (sortable 4 31 z ltac:(lia) eq_refl ltac:(lia) Hz) as (E1 & E2 & E3).
  by rewrite E1. Qed.

Lemma sortable_i64 z : in_signed 8 z ->
  encode_sortable_i64 z = z + 2 ^ 63 /\ decode_sortable_i64 (encode_sortable_i64 z) = z /\ in_unsigned 8 (encode_sortable_i64 z).
Proof. intros Hz. unfold encode_sortable_i64, decode_sortable_i64. destruct (sortable 8 63 z ltac:(lia) eq_refl ltac:(lia) Hz) as (E1 & E2 & E3).
  by rewrite E1. Qed.

(** ** Values *)

Section values.
Context `{PackagesOk}.

Lemma new_be_ok n v : new_be n v = Ok (be_bytes n v).
Proof.
  unfold new_be. rewrite be_write_ok by (rewrite zlen_zeros; lia).
  f_equal. unfold zput. cbn [Z.to_nat take app]. rewrite drop_ge; [apply app_nil_r |].
  rewrite be_bytes_length. unfold zeros. rewrite length_replicate. lia.
Qed.

Lemma get_be_ok n v make x rest : in_unsigned n v -> make v = Ok x -> get_be n make (be_bytes n v ++ rest) = Ok (x, Z.of_nat n).
Proof.
  intros Hv Hx. unfold get_be, shorter. pose proof (zlen_nonneg rest). rewrite zlen_app, zlen_be_bytes, (proj2 (Z.ltb_ge _ _)) by lia.
  rewrite be_read_bytes by done. cbn [mbind res_bind]. by rewrite Hx.
Qed.

(** A family of values of [n] bytes: [wire] is what is written. *)
Lemma fixed_roundtrip n make wire x rest :
  in_unsigned n wire -> make wire = Ok x ->
  exists bs, new_be n wire = Ok bs /\ get_be n make (bs ++ rest) = Ok (x, Z.of_nat n) /\ zlen bs = Z.of_nat n.
Proof.
  intros Hw Hx. exists (be_bytes n wire). split; [apply new_be_ok |]. split; [by apply get_be_ok | apply zlen_be_bytes].
Qed.

Lemma write_sized_ok (s : list byte) : zlen s + 4 <= U32_MAX ->
  write_sized_buf s (zeros (zlen s + 4)) = (Ok (zlen s + 4), be_bytes 4 (zlen s) ++ s).
Proof.
  intros Hs. pose proof (zlen_nonneg s). unfold write_sized_buf. st_step by reflexivity. rewrite zlen_zeros, (proj2 (Z.ltb_ge _ _)) by lia.
  rewrite as_u32_small by mlia. st_step by (apply be_write_ok; rewrite zlen_zeros; lia).
  st_step by (apply copy_from_slice_ok; rewrite ?zlen_zput, ?zlen_zeros; rewrite ?zlen_be_bytes, ?zlen_zeros; lia).
  unfold st_lift, add_u32. rewrite (proj2 (Z.leb_le _ _)) by lia. f_equal.
  pose proof (zput_adjacent 0 (be_bytes 4 (zlen s)) s (zeros (zlen s + 4))) as Ha. rewrite zlen_be_bytes, zlen_zeros in Ha by lia.
  change (0 + Z.of_nat 4) with 4 in Ha. rewrite Ha by lia. unfold zput. cbn [Z.to_nat take app]. rewrite drop_ge; [apply app_nil_r |].
  rewrite length_app, be_bytes_length. unfold zeros, zlen. rewrite length_replicate. lia.
Qed.

Lemma read_sized_ok (s rest : list byte) : zlen s + 4 <= U32_MAX ->
  read_sized_buf ((be_bytes 4 (zlen s) ++ s) ++ rest) = Ok (zlen s + 4, s).
Proof.
  intros Hs. pose proof (zlen_nonneg s). pose proof (zlen_nonneg rest). unfold read_sized_buf. rewrite !zlen_app, zlen_be_bytes.
  rewrite (proj2 (Z.ltb_ge _ _)) by lia. rewrite <- app_assoc. rewrite be_read_bytes by mlia. cbn [mbind res_bind].
  rewrite (proj2 (Z.ltb_ge _ _)) by lia. unfold add_u32. rewrite (proj2 (Z.leb_le _ _)) by lia. cbn [mbind res_bind].
  rewrite slice_ok by (rewrite ?zlen_app, ?zlen_be_bytes; lia). cbn [mbind res_bind]. do 2 f_equal.
  rewrite zsub_app_r; rewrite ?zlen_be_bytes; [| lia | lia]. rewrite zsub_app_l by lia. apply zsub_all. lia.
Qed.

(** The values of a type. *)
Definition dv_ok (ty : DataType) (v : DataValue) : Prop :=
  match dt_id ty, v with
  | TfI32, VI32 i | TfDate, VDate i => in_signed 4 i
  | TfI64, VI64 i | TfTimestamp, VTimestamp i | TfTimestampTz, VTimestampTz i => in_signed 8 i
  | TfI128, VI128 i => in_signed 16 i
  | TfF32, VF32 b => in_unsigned 4 b
  | TfF64, VF64 b => in_unsigned 8 b
  | TfU128, VU128 n => in_unsigned 16 n
  | TfTime, VTime t => 0 <= t < MICROS_PER_DAY
  | TfString, VString s => utf8_valid s = true /\ zlen s + 4 <= U32_MAX
  | TfBinary, VBinary b => zlen b + 4 <= U32_MAX
  | _, _ => False
  end.

Lemma binary_send_ok b : zlen b + 4 <= U32_MAX ->
  binary_send_to b (zeros (zlen b + 4)) = (Ok (zlen b + 4), be_bytes 4 (zlen b + 4) ++ b).
Proof.
  intros Hb. pose proof (zlen_nonneg b). unfold binary_send_to. st_step by reflexivity. rewrite zlen_zeros, (proj2 (Z.ltb_ge _ _)) by lia.
  st_step by (apply copy_from_slice_ok; rewrite ?zlen_zeros; lia). rewrite (Z.add_comm 4), as_u32_small by mlia.
  assert (zput 4 b (zeros (zlen b + 4)) = zeros 4 ++ b) as Ep.
  { rewrite Z.add_comm, zeros_add, <- (app_nil_r (zeros (zlen b))) by lia. rewrite zput_mid by (rewrite ?zlen_zeros; done). by rewrite app_nil_r. }
  rewrite Ep. erewrite st_bind_ok; [reflexivity |]. rewrite on_slice_ok by (rewrite ?zlen_app, ?zlen_zeros; lia).
  rewrite zsub_app_l by (rewrite ?zlen_zeros; lia). rewrite (zsub_all (zeros 4)), be_write_ok by done.
  pose proof (zput_full_app (be_bytes 4 (zlen b + 4)) (zeros 4) []) as E0. rewrite !app_nil_r, zlen_be_bytes in E0. rewrite E0 by done.
  rewrite zput_full_app by (by rewrite zlen_be_bytes). done.
Qed.

Lemma time_wire t : 0 <= t < MICROS_PER_DAY -> in_signed 8 t /\ from_micros_since_midnight t = Ok t.
Proof.
  intros Ht. split.
  { unfold in_signed. change MICROS_PER_DAY with 86400000000 in Ht. change (256 ^ Z.of_nat 8 / 2) with 9223372036854775808. lia. }
  unfold from_micros_since_midnight.
  by rewrite (proj2 (Z.leb_le _ _)), (proj2 (Z.ltb_lt _ _)) by lia.
Qed.

(** A value is read back from its bytes, whatever follows them. *)
Lemma value_roundtrip ty v rest : dv_ok ty v -> exists bs, type_send v ty = Ok bs /\
  type_recv (bs ++ rest) ty = Ok (v, zlen bs) /\ match type_len ty with Ok (Some n) => zlen bs = n | _ => True end.
Proof.
  destruct ty as [id param]. unfold dv_ok. cbn [dt_id].
  assert (forall n make wire, in_unsigned n wire -> make wire = Ok v -> exists bs, new_be n wire = Ok bs /\
    get_be n make (bs ++ rest) = Ok (v, zlen bs) /\ zlen bs = Z.of_nat n) as Hfix.
  { intros n make wire Hw Hx. destruct (fixed_roundtrip n make wire v rest Hw Hx) as (bs & E1 & E2 & E3). exists bs. by rewrite E3. }
  destruct id, v as [| | | i | i | i | | d | t | t | t | s | b]; intros Hv; try done; cbn [type_send type_recv type_len data_type_fns dt_id fn_base fb_send fb_receive
    fb_type_len FN_I32_CONVERT FN_I64_CONVERT FN_F32_CONVERT FN_F64_CONVERT FN_OID_CONVERT FN_I128_CONVERT FN_DATE_CONVERT FN_TIME_CONVERT
    FN_TIMESTAMP_CONVERT FN_TIMESTAMPTZ_CONVERT expect_i32 expect_i64 expect_f32 expect_f64 expect_u128 expect_i128 expect_date expect_time
    expect_timestamp expect_timestamptz mbind res_bind].
  - apply (Hfix 4%nat); [apply unsigned_range | by rewrite signed_unsigned by (done || lia)].
  - apply (Hfix 8%nat); [apply unsigned_range | by rewrite signed_unsigned by (done || lia)].
  - by apply (Hfix 4%nat).
  - by apply (Hfix 8%nat).
  - destruct Hv as [Hu Hl]. exists (be_bytes 4 (zlen s) ++ s). unfold FN_CHAR_FIXED_CONVERT. cbn [fb_send fb_receive fb_type_len expect_string mbind res_bind].
    unfold string_send_to. erewrite st_bind_ok by (by apply write_sized_ok). cbv beta. pose proof (zlen_nonneg s).
    rewrite (proj2 (Z.eqb_neq _ _)) by lia. rewrite read_sized_ok by done. cbn [map_err mbind res_bind]. rewrite Hu.
    rewrite zlen_app, zlen_be_bytes. split_and!; [done | do 2 f_equal; lia | done].
  - by apply (Hfix 16%nat).
  - apply (Hfix 16%nat); [apply unsigned_range | by rewrite signed_unsigned by (done || lia)].
  - destruct (sortable_i32 _ Hv) as (_ & E & Hr). apply (Hfix 4%nat); [done | by rewrite E].
  - destruct (time_wire _ Hv) as [Hs Em]. destruct (sortable_i64 _ Hs) as (_ & E & Hr). apply (Hfix 8%nat); [done | by rewrite E, Em].
  - destruct (sortable_i64 _ Hv) as (_ & E & Hr). apply (Hfix 8%nat); [done | by rewrite E].
  - destruct (sortable_i64 _ Hv) as (_ & E & Hr). apply (Hfix 8%nat); [done | by rewrite E].
  - exists (be_bytes 4 (zlen b + 4) ++ b). unfold FN_BINARY_CONVERT. cbn [fb_send fb_receive fb_type_len expect_binary mbind res_bind].
    pose proof (zlen_nonneg b). pose proof (zlen_nonneg rest). unfold add_u32. rewrite as_u32_small, (proj2 (Z.leb_le _ _)) by mlia. cbn [mbind res_bind].
    rewrite (Z.add_comm 4), binary_send_ok by done. rewrite !zlen_app, zlen_be_bytes. rewrite (proj2 (Z.ltb_ge _ 4)) by lia.
    rewrite slice_ok by (rewrite ?zlen_app, ?zlen_be_bytes; lia). cbn [mbind res_bind]. rewrite <- !app_assoc.
    rewrite zsub_app_l by (rewrite ?zlen_be_bytes; lia). rewrite zsub_all by (by rewrite zlen_be_bytes).
    rewrite be_read_all by mlia. cbn [mbind res_bind].
    rewrite (proj2 (Z.ltb_ge _ _)), (proj2 (Z.ltb_ge _ _)) by lia. cbn [orb].
    rewrite slice_ok by (rewrite ?zlen_app, ?zlen_be_bytes; lia). cbn [mbind res_bind]. split_and!; [done | | done].
    rewrite zsub_app_r; rewrite ?zlen_be_bytes; [| lia | lia]. rewrite zsub_app_l by lia. rewrite zsub_all by lia. do 2 f_equal. lia.
Qed.
End values.

(** ** Types *)

(** The key of a type in the order: fixed length first, then the family, then
    the parameter. *)
Definition type_key (ty : DataType) : Z * Z * Z * Z :=
  let '(k, p) :=
    if has_param (dt_id ty) then
      match dt_param ty with
      | None => (-1, 0)
      | Some (PString _) => (family_id TfString, 0)
      | Some (PTime p) => (family_id TfTime, p)
      | Some (PTimestamp p) => (family_id TfTimestamp, p)
      | Some (PTimestampTz p) => (family_id TfTimestampTz, p)
      end
    else (0, 0) in
  ((match dt_id ty with TfString | TfBinary => 1 | _ => 0 end), family_id (dt_id ty), k, p).

Definition key_le (a b : Z * Z * Z * Z) : Prop :=
  let '(a1, a2, a3, a4) := a in let '(b1, b2, b3, b4) := b in
  a1 < b1 \/ a1 = b1 /\ (a2 < b2 \/ a2 = b2 /\ (a3 < b3 \/ a3 = b3 /\ a4 <= b4)).

Section types.
Context `{PackagesOk}.

Lemma family_len id ty : exists len, fb_type_len (fn_base id) ty = Ok len /\
  match len with Some n => 0 < n <= U32_MAX | None => id = TfString \/ id = TfBinary end /\
  (len = None <-> id = TfString \/ id = TfBinary).
Proof. destruct id; eexists; (split; [reflexivity |]); (split; [mlia || tauto |]); naive_solver. Qed.

Lemma type_compare_key a b : exists ord, DataType_compare a b = Ok ord /\ (ord <> Gt <-> key_le (type_key a) (type_key b)).
Proof.
  destruct a as [ia pa], b as [ib pb]. unfold DataType_compare, type_key, key_le. cbn [dt_id dt_param].
  destruct ia, ib; cbn; try (eexists; split; [reflexivity |]; (split; [intros _; lia | done]) || (split; [done | lia])).
  all: destruct pa as [[] |], pb as [[] |]; cbn; eexists; (split; [reflexivity |]).
  all: (split; [intros _; lia | done]) || (split; [done | lia]) || (rewrite Z.compare_ngt_iff; lia).
Qed.

#[export] Instance data_type_fns_ok : TypeFnsOk DataType DataValue.
Proof.
  refine {| tv_ok := dv_ok; type_le a b := key_le (type_key a) (type_key b) |}.
  - intros ty. destruct (family_len (dt_id ty) ty) as (len & E & Hl & _). exists len. split; [done |]. by destruct len.
  - intros ty v Hv. destruct (value_roundtrip ty v [] Hv) as (bs & E1 & E2 & E3). rewrite app_nil_r in E2. by exists bs.
  - apply type_compare_key.
  - intros a b c. unfold key_le. destruct (type_key a) as [[[]]], (type_key b) as [[[]]], (type_key c) as [[[]]]. lia.
  - intros a b. unfold key_le. destruct (type_key a) as [[[]]], (type_key b) as [[[]]]. lia.
  - intros [ia pa] [ib pb]. unfold key_le, type_key. cbn [dt_id dt_param]. destruct ia, ib; cbn; try done;
      destruct pa as [[] |], pb as [[] |]; cbn; lia.
Defined.
End types.
