(* ===== verification/TupleTheorems.v ===== *)
(** * What tuples promise

    The theorems of the tuple layer, for all data types with the laws of
    [TypeFnsOk], and runs with the types of [DataTypes]. *)

From S2P Require Import Prelude Errors Compat Versions Tuples TupleLayout TupleProperties TupleBuild TupleOrder TupleUpdate DataTypes DataTypeLaws.

Section theorems.
Context {Ty V : Type} `{TypeFnsOk Ty V} `{PackagesOk}.

Notation TypedField := (Ty * bool * option Z)%type.
Implicit Types (fs : list TypedField) (vs ws : list V) (us : list (NullableValue V)).

Definition not_null (u : NullableValue V) : Prop := u <> Null.

Lemma not_null_values us : Forall not_null us -> exists vs, us = Value <$> vs.
Proof. induction 1 as [| [| v] us Hu _ [vs ->]]; [by exists [] | done |]. by exists (v :: vs). Qed.

(** C16: A tuple is read back as it was built.  The descriptor of well-formed
    fields is made without an error; building a tuple of values of their
    types, some of them NULL, succeeds; and reading any field of it returns
    its value, and whether it is NULL. *)
Theorem tuple_roundtrip fs us version : fields_ok fs -> Forall2 value_ok fs us -> tuple_fits fs us ->
  exists desc tuple, from_typed_fields fs version = Ok desc /\ build_nullable desc us = Ok tuple /\
  forall i u, us !! i = Some u ->
    is_null tuple desc (Z.of_nat i) = Ok (match u with Null => true | Value _ => false end) /\
    read_value tuple desc (Z.of_nat i) = Ok u.
Proof.
  intros Hok Hv Hm. exists (desc_of fs version), (encode fs us (null_bits fs us)). split_and!.
  - by apply from_typed_fields_ok.
  - by apply build_nullable_ok.
  - intros i u Ei. split; [by apply encode_null | by apply encode_read].
Qed.

(** [build_tuple] builds the tuple that [TupleBuilder::build] builds of
    the same values, none of them NULL; its loop that doubles the buffer ends. *)
Theorem builders_agree types vs : StronglySorted type_le types -> all_ok (plain types) vs ->
  SLOT_SIZE * var_n (plain types) + fixed_total (plain types) <= U32_MAX -> tuple_fits (plain types) (Value <$> vs) ->
  exists desc tuple, desc_from types = Ok desc /\ build_tuple (sent_all (plain types) vs) desc = Ok tuple /\
  build_nullable desc (Value <$> vs) = Ok tuple.
Proof.
  intros Hs Hv Hz Hm. pose proof (plain_ok types Hs Hz) as Hok. eexists _, _. split_and!.
  - by apply from_typed_fields_ok.
  - by apply build_tuple_ok.
  - apply build_nullable_ok; [done | by apply all_ok_value | done].
Qed.

(** C31: The columns of a table are put in an order that a descriptor accepts.
    Sorting types with their payloads never fails and loses nothing; the
    descriptor of the sorted types gives every field a place of its own inside
    of the smallest tuple, and fields of variable length a slot. *)
Theorem columns_laid_out {T} (vec : list (Ty * T)) :
  SLOT_SIZE * var_n (plain (vec.*1)) + fixed_total (plain (vec.*1)) <= U32_MAX ->
  exists vec' desc, normalized_type_desc_vec vec = Ok (vec'.*1, vec'.*2) /\ vec' ≡ₚ vec /\ desc_from (vec'.*1) = Ok desc /\
  fd_type_obj <$> td_all desc = vec'.*1 /\ Forall (field_place desc) (td_all desc) /\
  StronglySorted (fun a b => apart (fd_slot a) (fd_slot b)) (td_all desc).
Proof.
  intros Hz. destruct (normalized_ok vec) as (vec' & E & Hp & Hs).
  assert (fields_ok (plain (vec'.*1))) as Hok.
  { apply plain_ok; [done |]. by rewrite (var_n_perm _ _ (plain_perm _ _ Hp)), (fixed_total_perm _ _ (plain_perm _ _ Hp)). }
  exists vec', (desc_of (plain (vec'.*1)) 0). split_and!; [done | done | by apply from_typed_fields_ok | | by apply desc_places | apply desc_apart].
  cbn [desc_of td_all]. rewrite layout_types. apply plain_types.
Qed.

(** C30: [tuple_compare] orders tuples without NULLs, all columns of which have
    comparable types, as the lexicographic order of their values, in the order
    of the descriptor: the fields of fixed length first.  A type is comparable
    when it has an ordering function; the floating-point and binary types have
    none. *)
Theorem compare_lexicographic cmp fs vs ws version : fields_ok fs -> all_ok fs vs -> all_ok fs ws ->
  tuple_fits fs (Value <$> vs) -> tuple_fits fs (Value <$> ws) -> Forall (comparable cmp) ((fun f : TypedField => f.1.1) <$> fs) ->
  exists desc tuple1 tuple2, from_typed_fields fs version = Ok desc /\
  build_nullable desc (Value <$> vs) = Ok tuple1 /\ build_nullable desc (Value <$> ws) = Ok tuple2 /\
  tuple_compare desc tuple1 tuple2 = Ok (lexicographic cmp ((fun f : TypedField => f.1.1) <$> fs) vs ws).
Proof.
  intros Hok Hv Hw Hmv Hmw Hc. eexists _, _, _. split_and!.
  - by apply from_typed_fields_ok.
  - apply build_nullable_ok; [done | by apply all_ok_value | done].
  - apply build_nullable_ok; [done | by apply all_ok_value | done].
  - by apply compare_encoded.
Qed.

(** C18: Updating a column in place of rebuilding the row.  The deltas of
    [update_tuple], applied in order, turn the tuple of some values into the
    tuple of the values with one of them replaced by another value of its type,
    if the replaced value is not NULL and either the column has a fixed
    length, or no column behind it is NULL and it is the last one or its new
    value is not shorter. *)
Theorem update_tuple_correct fs1 ty nl ix fs2 us1 v w us2 version :
  let fs := fs1 ++ (ty, nl, ix) :: fs2 in
  let before := us1 ++ Value v :: us2 in
  let after := us1 ++ Value w :: us2 in
  fields_ok fs -> length fs1 = length us1 -> Forall2 value_ok fs before -> tv_ok ty w -> tuple_fits fs before -> tuple_fits fs after ->
  flen ty <> None \/ Forall not_null us2 /\ (fs2 = [] \/ zlen (sent ty v) <= zlen (sent ty w)) ->
  exists desc old new ds, from_typed_fields fs version = Ok desc /\ build_nullable desc before = Ok old /\
  build_nullable desc after = Ok new /\ update_tuple (zlen fs1) (sent ty w) desc old = Ok ds /\ apply_deltas ds old = Ok new.
Proof.
  intros fs before after Hok Hl Hb Hw Hmb Hma Hc. assert (Forall2 value_ok fs after) as Ha.
  { apply Forall2_app_inv in Hb as [K1 K2]; [| done]. apply Forall2_cons in K2 as [_ K2]. by apply Forall2_app; [| constructor]. }
  exists (desc_of fs version), (encode fs before (null_bits fs before)), (encode fs after (null_bits fs after)).
  assert (exists ds, update_tuple (zlen fs1) (sent ty w) (desc_of fs version) (encode fs before (null_bits fs before)) = Ok ds /\
    apply_deltas ds (encode fs before (null_bits fs before)) = Ok (encode fs after (null_bits fs after))) as (ds & E1 & E2).
  { destruct (flen ty) as [n |] eqn:En; [by apply (update_fixed fs1 fs2 ty nl ix us1 version Hok Hl n) |].
    destruct Hc as [? | [[vs2 ->]%not_null_values Hc]]; [done |]. by apply (update_var fs1 fs2 ty nl ix us1 version Hok Hl vs2 En). }
  exists ds. split_and!; [by apply from_typed_fields_ok | by apply build_nullable_ok | by apply build_nullable_ok | done | done].
Qed.

(** C40: A shorter value corrupts the row.  Setting a column of variable length
    that is not the last one to a shorter value, where neither it nor a column
    behind it is NULL, moves the data behind it and leaves the slots of the
    columns behind it as they were: no error is returned, and reading the last
    column of the row fails. *)
Theorem shorter_value_corrupts fs1 ty nl ix fs2 us1 v w us2 version :
  let fs := fs1 ++ (ty, nl, ix) :: fs2 in
  let before := us1 ++ Value v :: us2 in
  fields_ok fs -> length fs1 = length us1 -> Forall2 value_ok fs before -> tuple_fits fs before ->
  flen ty = None -> fs2 <> [] -> Forall not_null us2 -> zlen (sent ty w) < zlen (sent ty v) ->
  exists desc old ds new, from_typed_fields fs version = Ok desc /\ build_nullable desc before = Ok old /\
  update_tuple (zlen fs1) (sent ty w) desc old = Ok ds /\ apply_deltas ds old = Ok new /\
  read_value new desc (zlen fs - 1) = Err IndexOutOfRange.
Proof.
  intros fs before Hok Hl Hb Hm En Hne [vs2 ->]%not_null_values Hlt.
  destruct (read_last_short fs1 ty nl ix fs2 us1 v w vs2 version Hok Hl Hb Hm En Hne Hlt) as (ds & new & E1 & E2 & E3).
  exists (desc_of fs version), (encode fs before (null_bits fs before)), ds, new.
  split_and!; [by apply from_typed_fields_ok | by apply build_nullable_ok | done..].
Qed.

(** C39: The update of a NULL is lost.  [update_tuple] writes the bytes of a
    column of fixed length and leaves the bitmap alone: whatever value a
    NULL column is set to, it is still read as NULL. *)
Theorem update_of_null_lost fs1 ty nl ix fs2 us1 w us2 version :
  let fs := fs1 ++ (ty, nl, ix) :: fs2 in
  let before := us1 ++ Null :: us2 in
  fields_ok fs -> length fs1 = length us1 -> Forall2 value_ok fs before -> flen ty <> None -> tv_ok ty w -> tuple_fits fs before ->
  exists desc old ds new, from_typed_fields fs version = Ok desc /\ build_nullable desc before = Ok old /\
  update_tuple (zlen fs1) (sent ty w) desc old = Ok ds /\ apply_deltas ds old = Ok new /\ read_value new desc (zlen fs1) = Ok Null.
Proof.
  intros fs before Hok Hl Hb Hf Hw Hm. destruct (flen ty) as [n |] eqn:En; [| done].
  destruct (update_null_fixed fs1 fs2 ty nl ix us1 version Hok Hl n w us2 En Hb Hw Hm) as (ds & new & E1 & E2 & E3).
  exists (desc_of fs version), (encode fs before (null_bits fs before)), ds, new.
  split_and!; [by apply from_typed_fields_ok | by apply build_nullable_ok | done..].
Qed.
End theorems.

(** ** The order of values *)

Section order.
Context `{PackagesOk}.

Definition dv_compare (ty : DataType) (v w : DataValue) : comparison :=
  match v, w with
  | VI32 a, VI32 b | VI64 a, VI64 b | VI128 a, VI128 b | VU128 a, VU128 b | VDate a, VDate b | VTime a, VTime b
  | VTimestamp a, VTimestamp b | VTimestampTz a, VTimestampTz b => a ?= b
  | VString a, VString b => bytes_compare a b
  | _, _ => Eq
  end.

Lemma dv_comparable ty : opt_fn_compare (dt_id ty) <> None -> comparable dv_compare ty.
Proof.
  destruct ty as [id p]. intros Hc. destruct id; try (by destruct Hc); (eexists; split; [reflexivity |]); intros v w Hv Hw;
    destruct v; try (exfalso; exact Hv); destruct w; try (exfalso; exact Hw); reflexivity.
Qed.
End order.

(** ** Runs *)

Module TupleRuns.
Import Reference.

Definition int : DataType := mkDataType TfI32 None.
Definition varchar : DataType := mkDataType TfString (Some (PString 10)).
Notation fields := (list (DataType * bool * option Z)).

(** [id INT, a VARCHAR NULL, b VARCHAR NULL] *)
Definition demo_fields : fields := [(int, false, None); (varchar, true, Some 0); (varchar, true, Some 1)].
Definition text (s : list byte) : NullableValue DataValue := Value (VString s).

Ltac demo_sorted := repeat (constructor; cbn); lia.
Ltac demo_values := repeat constructor; vm_compute; intuition (congruence || eauto).

Lemma demo_fields_ok : fields_ok demo_fields.
Proof. split; [demo_sorted | done | | | vm_compute; congruence]; repeat constructor; set_solver || done. Qed.

Lemma tuple_roundtrip_witness : exists desc tuple, from_typed_fields demo_fields 1 = Ok desc /\
  build_nullable desc [Value (VI32 (-7)); Null; text [x68; x69]] = Ok tuple /\
  is_null tuple desc 1 = Ok true /\ read_value tuple desc 2 = Ok (text [x68; x69]).
Proof.
  destruct (tuple_roundtrip demo_fields [Value (VI32 (-7)); Null; text [x68; x69]] 1 demo_fields_ok) as (desc & tuple & E1 & E2 & Hr).
  - demo_values.
  - vm_compute. congruence.
  - exists desc, tuple. split; [exact E1 |]. split; [exact E2 |]. split; [exact (proj1 (Hr 1%nat Null eq_refl)) |].
    exact (proj2 (Hr 2%nat (text [x68; x69]) eq_refl)).
Defined.

Lemma builders_agree_witness : exists desc tuple, desc_from [int; varchar] = Ok desc /\
  build_tuple (sent_all (plain [int; varchar]) [VI32 5; VString [x61]]) desc = Ok tuple /\
  build_nullable desc [Value (VI32 5); text [x61]] = Ok tuple.
Proof.
  apply (builders_agree [int; varchar] [VI32 5; VString [x61]]); [demo_sorted | | vm_compute; congruence | vm_compute; congruence].
  demo_values.
Defined.

Lemma columns_laid_out_witness : exists vec' desc,
  normalized_type_desc_vec [(varchar, 0); (int, 1)] = Ok (vec'.*1, vec'.*2) /\ vec' ≡ₚ [(varchar, 0); (int, 1)] /\
  desc_from (vec'.*1) = Ok desc /\ Forall (field_place desc) (td_all desc).
Proof.
  destruct (columns_laid_out [(varchar, 0); (int, 1)]) as (vec' & desc & E1 & E2 & E3 & _ & E4 & _); [vm_compute; congruence |].
  by exists vec', desc.
Defined.

Lemma compare_lexicographic_witness : exists desc tuple1 tuple2, from_typed_fields demo_fields 0 = Ok desc /\
  build_nullable desc [Value (VI32 5); text [x62]; text [x61]] = Ok tuple1 /\
  build_nullable desc [Value (VI32 5); text [x61; x61]; text [x63]] = Ok tuple2 /\ tuple_compare desc tuple1 tuple2 = Ok Gt.
Proof.
  apply (compare_lexicographic dv_compare demo_fields [VI32 5; VString [x62]; VString [x61]] [VI32 5; VString [x61; x61]; VString [x63]] 0
    demo_fields_ok); [| | vm_compute; congruence | vm_compute; congruence |].
  - demo_values.
  - demo_values.
  - repeat constructor; apply dv_comparable; discriminate.
Defined.

Lemma update_tuple_correct_witness : exists desc old new ds, from_typed_fields demo_fields 0 = Ok desc /\
  build_nullable desc [Value (VI32 5); text [x62]; text [x61]] = Ok old /\
  build_nullable desc [Value (VI32 5); text [x62; x63; x64]; text [x61]] = Ok new /\
  update_tuple 1 (sent varchar (VString [x62; x63; x64])) desc old = Ok ds /\ apply_deltas ds old = Ok new.
Proof.
  apply (update_tuple_correct [(int, false, None)] varchar true (Some 0) [(varchar, true, Some 1)] [Value (VI32 5)] (VString [x62])
    (VString [x62; x63; x64]) [text [x61]] 0 demo_fields_ok eq_refl).
  - demo_values.
  - vm_compute. split; congruence.
  - vm_compute. congruence.
  - vm_compute. congruence.
  - right. split; [repeat constructor; discriminate |]. right. vm_compute. congruence.
Defined.

(** The first string of [demo_fields] set from "abc" to "a". *)
Lemma shorter_value_corrupts_witness : exists desc old ds new, from_typed_fields demo_fields 0 = Ok desc /\
  build_nullable desc [Value (VI32 5); text [x61; x62; x63]; text [x78; x79; x7a]] = Ok old /\
  update_tuple 1 (sent varchar (VString [x61])) desc old = Ok ds /\ apply_deltas ds old = Ok new /\ read_value new desc 2 = Err IndexOutOfRange.
Proof.
  apply (shorter_value_corrupts [(int, false, None)] varchar true (Some 0) [(varchar, true, Some 1)] [Value (VI32 5)] (VString [x61; x62; x63])
    (VString [x61]) [text [x78; x79; x7a]] 0 demo_fields_ok eq_refl).
  - demo_values.
  - vm_compute. congruence.
  - reflexivity.
  - discriminate.
  - repeat constructor; discriminate.
  - vm_compute. reflexivity.
Defined.

(** [id INT NULL] *)
Lemma update_of_null_lost_witness : exists desc old ds new, from_typed_fields [(int, true, Some 0)] 0 = Ok desc /\
  build_nullable desc [Null] = Ok old /\ update_tuple 0 (sent int (VI32 42)) desc old = Ok ds /\
  apply_deltas ds old = Ok new /\ read_value new desc 0 = Ok Null.
Proof.
  apply (update_of_null_lost [] int true (Some 0) [] [] (VI32 42) [] 0).
  - split; [demo_sorted | done | | | vm_compute; congruence]; repeat constructor; set_solver || done.
  - reflexivity.
  - constructor; [exists 0; reflexivity | constructor].
  - vm_compute. congruence.
  - vm_compute. split; congruence.
  - vm_compute. congruence.
Defined.

(** An update run: a tuple of two strings, the first set to a new value. *)
Definition update_first (u1 u2 : NullableValue DataValue) (w : DataValue) (nullable : bool) (idx : option Z) : RS (RS (NullableValue DataValue)) :=
  desc ← from_typed_fields [(varchar, nullable, idx); (varchar, false, None)] 0;
  old ← build_nullable desc [u1; u2];
  bs ← map_err to_m_err (type_send w varchar);
  ds ← update_tuple 0 bs desc old;
  new ← apply_deltas ds old;
  Ok (read_value new desc 1).

(** A NULL string has an empty slot at offset 0, and its new value is
    inserted there, in front of the bitmap. *)
Lemma null_string_corrupts :
  update_first Null (text [x78; x79; x7a]) (VString [x61]) true (Some 0) = Ok (Err IndexOutOfRange).
Proof. vm_compute. reflexivity. Qed.

(** A string in front of a NULL string cannot be updated at all. *)
Lemma null_behind_refused :
  (desc ← from_typed_fields [(varchar, false, None); (varchar, true, Some 0)] 0;
   old ← build_nullable desc [text [x61]; Null];
   bs ← map_err to_m_err (type_send (VString [x62]) varchar);
   update_tuple 0 bs desc old) = Err InvalidTuple.
Proof. vm_compute. reflexivity. Qed.
End TupleRuns.
