(* ===== verification/Tables.v ===== *)
(** * Tables and rows

    [contract/schema_table.rs], [table_info.rs] and [table_desc.rs]: how the
    columns of a table become the fields of its key and value tuples; and the
    row functions of [server/x_contract/utils.rs] that build, project and
    update them.  A schema column carries the result of [to_data_type] on its
    type parameter; file bindings of columns are left out. *)

From S2P Require Import Prelude Errors Compat Versions Tuples.

(** [sort_by] and [sort_by_key] are stable. *)
Section sort_by.
Context {A : Type} (key : A -> Z).

Fixpoint insert_by (x : A) (l : list A) : list A :=
  match l with
  | [] => [x]
  | y :: l' => if key x <=? key y then x :: l else y :: insert_by x l'
  end.

Definition sort_by_key (l : list A) : list A := foldr insert_by [] l.
End sort_by.

(** ** schema_column.rs, field_info.rs *)

Record SchemaColumn (Ty : Type) : Type := mkSchemaColumn {
  sc_oid : Z;
  sc_name : list byte;
  sc_type : RS Ty;
  sc_index : Z;
  sc_primary : option Z;
  sc_nullable : bool;
}.

Arguments mkSchemaColumn {Ty} _ _ _ _ _ _.
Arguments sc_oid {Ty} _.
Arguments sc_name {Ty} _.
Arguments sc_type {Ty} _.
Arguments sc_index {Ty} _.
Arguments sc_primary {Ty} _.
Arguments sc_nullable {Ty} _.

Record FieldInfo (Ty : Type) : Type := mkFieldInfo {
  fi_name : list byte;
  fi_id : Z;
  fi_type_desc : Ty;
  fi_datum_index : Z;
  fi_column_index : Z;
  fi_primary_index : option Z;
  fi_nullable : bool;
}.

Arguments mkFieldInfo {Ty} _ _ _ _ _ _ _.
Arguments fi_name {Ty} _.
Arguments fi_id {Ty} _.
Arguments fi_type_desc {Ty} _.
Arguments fi_datum_index {Ty} _.
Arguments fi_column_index {Ty} _.
Arguments fi_primary_index {Ty} _.
Arguments fi_nullable {Ty} _.

Definition set_datum_index {Ty} (index : Z) (f : FieldInfo Ty) : FieldInfo Ty :=
  mkFieldInfo (fi_name f) (fi_id f) (fi_type_desc f) index (fi_column_index f) (fi_primary_index f) (fi_nullable f).

Definition set_index {Ty} (index : Z) (sc : SchemaColumn Ty) : SchemaColumn Ty :=
  mkSchemaColumn (sc_oid sc) (sc_name sc) (sc_type sc) index (sc_primary sc) (sc_nullable sc).

(** A primary column is not nullable. *)
Definition set_primary_index {Ty} (index : option Z) (sc : SchemaColumn Ty) : SchemaColumn Ty :=
  mkSchemaColumn (sc_oid sc) (sc_name sc) (sc_type sc) (sc_index sc) index
    (match index with Some _ => false | None => sc_nullable sc end).

(** ** schema_table.rs *)

Record SchemaTable (Ty : Type) : Type := mkSchemaTable {
  st_oid : Z;
  st_table_name : list byte;
  st_columns : list (SchemaColumn Ty);
  st_key_indices : list Z;
  st_value_indices : list Z;
}.

Arguments mkSchemaTable {Ty} _ _ _ _ _.
Arguments st_oid {Ty} _.
Arguments st_table_name {Ty} _.
Arguments st_columns {Ty} _.
Arguments st_key_indices {Ty} _.
Arguments st_value_indices {Ty} _.

Section schema.
Context {Ty V : Type} `{TypeFns Ty V}.

(** [columns[index]] and its update; an index out of range panics. *)
Definition column_at (columns : list (SchemaColumn Ty)) (index : Z) : RS (SchemaColumn Ty) :=
  match columns !! Z.to_nat index with Some sc => Ok sc | None => Panic end.

(** The loops of [new_with_oid], for the columns of the key or the value. *)
Fixpoint number_columns (primary : bool) (i : Z) (indices : list Z) (columns : list (SchemaColumn Ty)) : RS (list (SchemaColumn Ty)) :=
  match indices with
  | [] => Ok columns
  | index :: indices =>
      sc ← column_at columns index;
      let sc := set_index i (set_primary_index (if primary then Some i else None) sc) in
      number_columns primary (i + 1) indices (<[Z.to_nat index := sc]> columns)
  end.

Definition SchemaTable_new_with_oid (oid : Z) (table_name : list byte) (columns : list (SchemaColumn Ty))
    (key_indices value_indices : list Z) : RS (SchemaTable Ty) :=
  columns ← number_columns true 0 key_indices columns;
  columns ← number_columns false 0 value_indices columns;
  Ok (mkSchemaTable oid table_name columns key_indices value_indices).

(** The first loop of [schema_columns_to_tuple_desc], with the numbers of the
    NULL bits; a datum index is not known yet. *)
Fixpoint column_fields (nullable_count : Z) (fields : list (Z * SchemaColumn Ty)) : RS (list (Ty * (FieldInfo Ty * bool * option Z))) :=
  match fields with
  | [] => Ok []
  | (column_index, sc) :: fields =>
      ty ← sc_type sc;
      let info := mkFieldInfo (sc_name sc) (sc_oid sc) ty U64_MAX column_index (sc_primary sc) (sc_nullable sc) in
      rest ← column_fields (if sc_nullable sc then nullable_count + 1 else nullable_count) fields;
      Ok ((ty, (info, sc_nullable sc, if sc_nullable sc then Some (nullable_count mod 65536) else None)) :: rest)
  end.

Definition schema_columns_to_tuple_desc (fields : list (Z * SchemaColumn Ty)) : RS (TupleBinaryDesc Ty * list (FieldInfo Ty)) :=
  desc ← column_fields 0 fields;
  '(types, payload) ← normalized_type_desc_vec desc;
  let payload := imap (fun i f => (set_datum_index (Z.of_nat i) f.1.1, f.1.2, f.2)) payload in
  let typed_fields := zip_with (fun (ty : Ty) (f : FieldInfo Ty * bool * option Z) => (ty, f.1.2, f.2)) types payload in
  tuple_desc ← from_typed_fields typed_fields 1;
  Ok (tuple_desc, (fun f : FieldInfo Ty * bool * option Z => f.1.1) <$> payload).

(** [key_columns] and [value_columns], with their positions. *)
Fixpoint columns_of (columns : list (SchemaColumn Ty)) (indices : list Z) : RS (list (Z * SchemaColumn Ty)) :=
  match indices with
  | [] => Ok []
  | index :: indices => sc ← column_at columns index; rest ← columns_of columns indices; Ok ((index, sc) :: rest)
  end.

Definition key_tuple_desc (s : SchemaTable Ty) : RS (TupleBinaryDesc Ty * list (FieldInfo Ty)) :=
  fields ← columns_of (st_columns s) (st_key_indices s); schema_columns_to_tuple_desc fields.
Definition value_tuple_desc (s : SchemaTable Ty) : RS (TupleBinaryDesc Ty * list (FieldInfo Ty)) :=
  fields ← columns_of (st_columns s) (st_value_indices s); schema_columns_to_tuple_desc fields.
End schema.

(** ** table_desc.rs, table_info.rs *)

Record TableDesc (Ty : Type) : Type := mkTableDesc {
  tb_name : list byte;
  tb_oid : Z;
  tb_key_oid : list Z;
  tb_value_oid : list Z;
  tb_key_desc : TupleBinaryDesc Ty;
  tb_value_desc : TupleBinaryDesc Ty;
  tb_fields : list (FieldInfo Ty);
  tb_key_indices : list Z;
  tb_value_indices : list Z;
  tb_name2oid : gmap (list byte) Z;
  tb_oid2col : gmap Z (FieldInfo Ty);
  tb_column_oid : list Z;
}.

Arguments mkTableDesc {Ty} _ _ _ _ _ _ _ _ _ _ _ _.
Arguments tb_name {Ty} _.
Arguments tb_oid {Ty} _.
Arguments tb_key_oid {Ty} _.
Arguments tb_value_oid {Ty} _.
Arguments tb_key_desc {Ty} _.
Arguments tb_value_desc {Ty} _.
Arguments tb_fields {Ty} _.
Arguments tb_key_indices {Ty} _.
Arguments tb_value_indices {Ty} _.
Arguments tb_name2oid {Ty} _.
Arguments tb_oid2col {Ty} _.
Arguments tb_column_oid {Ty} _.

Section table.
Context {Ty V : Type} `{TypeFns Ty V}.

(** The maps and the columns that [TableInner::new] fills. *)
Notation columns := (gmap (list byte) Z * gmap Z (FieldInfo Ty) * list (FieldInfo Ty))%type.

(** One loop of [TableInner::new]. *)
Fixpoint register_fields (infos : list (FieldInfo Ty)) (c : columns) : RS columns :=
  match infos with
  | [] => Ok c
  | info :: infos =>
      let '(name2oid, oid2column, fields) := c in
      let index := Z.to_nat (fi_column_index info) in
      if bool_decide (index < length fields)%nat
      then register_fields infos (<[fi_name info := fi_id info]> name2oid, <[fi_id info := info]> oid2column, <[index := info]> fields)
      else Panic
  end.

(** [TableInfo::new] and [table_desc]; [default_type] is [DataType::default]. *)
Definition table_desc_of (default_type : Ty) (s : SchemaTable Ty) : RS (TableDesc Ty) :=
  '(key_desc, key_infos) ← key_tuple_desc s;
  '(value_desc, value_infos) ← value_tuple_desc s;
  if negb (field_count value_desc =? zlen value_infos) then Err Decode else
  let blank := mkFieldInfo [] 0 default_type 0 0 None false in
  c ← register_fields key_infos (∅, ∅, replicate (length (st_columns s)) blank);
  '(name2oid, oid2column, fields) ← register_fields value_infos c;
  Ok (mkTableDesc (st_table_name s) (st_oid s) (fi_id <$> key_infos) (fi_id <$> value_infos) key_desc value_desc fields
        (st_key_indices s) (st_value_indices s) name2oid oid2column (fi_id <$> fields)).

Implicit Types desc : TableDesc Ty.

Definition get_attr (index : Z) desc : RS (FieldInfo Ty) :=
  match tb_fields desc !! Z.to_nat index with Some f => Ok f | None => Panic end.
End table.

(** ** x_engine/api.rs *)

Inductive Predicate (F : Type) : Type :=
| CNF (items : list (list (Z * F)))
| DNF (items : list (list (Z * F)))
| KeyPrefixEq (prefix : list (Z * list byte)).
Arguments CNF {F} items.
Arguments DNF {F} items.
Arguments KeyPrefixEq {F} prefix.

(** ** x_contract/utils.rs: rows *)

Section rows.
Context {Ty V : Type} `{TypeFns Ty V} `{Packages}.
Implicit Types (desc : TableDesc Ty) (data : list (Z * list byte)).

(** The attributes of some data. *)
Fixpoint with_fields data desc : RS (list (FieldInfo Ty * list byte)) :=
  match data with
  | [] => Ok []
  | (attr, v) :: data => f ← get_attr attr desc; rest ← with_fields data desc; Ok ((f, v) :: rest)
  end.

(** The values in the order of the tuple.  The comparisons of [sort_by] look
    up the attributes and find out whether one is of the other kind; there are
    none for fewer than two values. *)
Definition sorted_values (is_key : bool) data desc : RS (list (list byte)) :=
  match data with
  | [] => Ok []
  | [(_, v)] => Ok [v]
  | _ =>
      fields ← with_fields data desc;
      if forallb (fun f : FieldInfo Ty * list byte => Bool.eqb (bool_decide (is_Some (fi_primary_index f.1))) is_key) fields
      then Ok (sort_by_key (fun f : FieldInfo Ty * list byte => fi_datum_index f.1) fields).*2
      else Err InvalidTuple
  end.

(** The values of the attributes, by their place in the value tuple. *)
Fixpoint complete_values data desc (completed : list (option (NullableValue V))) : RS (list (option (NullableValue V))) :=
  match data with
  | [] => Ok completed
  | (attr, value) :: data =>
      field ← get_attr attr desc;
      match fi_primary_index field with
      | Some _ => Err InvalidTuple
      | None =>
          match completed !! Z.to_nat (fi_datum_index field) with
          | Some None =>
              '(v, _) ← map_err to_m_err (type_recv value (fi_type_desc field));
              complete_values data desc (<[Z.to_nat (fi_datum_index field) := Some (Value v)]> completed)
          | _ => Err InvalidTuple
          end
      end
  end.

(** The attributes without a value are NULL or have their default. *)
Fixpoint complete_defaults (indices : list Z) desc (completed : list (option (NullableValue V)))
    : RS (list (option (NullableValue V))) :=
  match indices with
  | [] => Ok completed
  | attr :: indices =>
      field ← get_attr attr desc;
      let i := Z.to_nat (fi_datum_index field) in
      match completed !! i with
      | None => Panic
      | Some (Some _) => complete_defaults indices desc completed
      | Some None =>
          v ← (if fi_nullable field then Ok Null
               else v ← map_err to_m_err (type_default (fi_type_desc field)); Ok (Value v));
          complete_defaults indices desc (<[i := Some v]> completed)
      end
  end.

(** The message of a width mismatch names the fields, which are looked up. *)
Definition build_tuple_for (is_key : bool) data desc : RS (list byte) :=
  values ← sorted_values is_key data desc;
  let tuple_desc := if is_key then tb_key_desc desc else tb_value_desc desc in
  if is_key && negb (field_count tuple_desc =? zlen values)
  then _ ← with_fields ((fun index => (index, [])) <$> tb_key_indices desc) desc; _ ← with_fields data desc; Err InvalidTuple else
  if is_key then build_tuple values tuple_desc else
  completed ← complete_values data desc (replicate (Z.to_nat (field_count tuple_desc)) None);
  completed ← complete_defaults (tb_value_indices desc) desc completed;
  match mapM id completed with
  | Some values => build_nullable tuple_desc values
  | None => Err InvalidTuple
  end.

Definition build_key_tuple data desc : RS (list byte) := build_tuple_for true data desc.
Definition build_value_tuple data desc : RS (list byte) := build_tuple_for false data desc.

(** The columns of a row; [None] for NULL. *)
Fixpoint project_selected_fields desc (key value : list byte) (select : list Z) : RS (list (option (list byte))) :=
  match select with
  | [] => Ok []
  | attr :: select =>
      f ← get_attr attr desc;
      item ← (match fi_primary_index f with
              | Some _ => field ← get_field_desc (fi_datum_index f) (tb_key_desc desc); bs ← read_binary_data field key; Ok (Some bs)
              | None =>
                  null ← is_null value (tb_value_desc desc) (fi_datum_index f);
                  if (null : bool) then Ok None
                  else field ← get_field_desc (fi_datum_index f) (tb_value_desc desc);
                       bs ← read_binary_data field value; Ok (Some bs)
              end);
      rest ← project_selected_fields desc key value select;
      Ok (item :: rest)
  end.

(** The expected bytes of key columns. *)
Fixpoint matches_prefix desc (key : list byte) (prefix : list (Z * list byte)) : RS bool :=
  match prefix with
  | [] => Ok true
  | (attr, expected) :: prefix =>
      field ← get_attr attr desc;
      match fi_primary_index field with
      | None => Ok false
      | Some primary_index =>
          field_desc ← get_field_desc primary_index (tb_key_desc desc);
          actual ← read_binary_data field_desc key;
          if bool_decide (actual = expected) then matches_prefix desc key prefix else Ok false
      end
  end.

(** [matches_predicate]. *)
Definition matches_predicate {F} desc (key : list byte) (predicate : Predicate F) : RS bool :=
  match predicate with
  | CNF [] | DNF [] => Ok true
  | KeyPrefixEq prefix => matches_prefix desc key prefix
  | CNF _ | DNF _ => Err NotImplemented
  end.

(** The updates of the attributes, each against the row as it was. *)
Fixpoint update_fields desc (current : list byte) (fields : list (FieldInfo Ty * list byte)) (updated : list byte) : RS (list byte) :=
  match fields with
  | [] => Ok updated
  | (field, dat) :: fields =>
      delta ← update_tuple (fi_datum_index field) dat (tb_value_desc desc) current;
      updated ← apply_deltas delta updated;
      update_fields desc current fields updated
  end.

Definition apply_value_update (current : list byte) data desc : RS (list byte) :=
  fields ← with_fields data desc;
  update_fields desc current (sort_by_key (fun f : FieldInfo Ty * list byte => fi_datum_index f.1) fields) current.
End rows.
