(* ===== verification/Deltas.v ===== *)
(** * Expression updates

    [server/x_contract/utils.rs]: updates [SET col = col + n] that are
    evaluated on the stored row, and the predicates and bounds of key columns.
    The assignments and their operations are those of [TxState].  Columns of
    type [NUMERIC] are not among the modelled data types. *)

From S2P Require Import Prelude Errors Compat Versions LogFrame XLocks TxState Relation Storage Tuples DataTypes Tables.

(** ** Evaluation *)

(** [checked_add] and [checked_sub] of signed integers of [n] bytes, and
    [try_from] a wider one. *)
Definition checked_signed (n : nat) (z : Z) : option Z :=
  if (- (256 ^ Z.of_nat n / 2) <=? z) && (z <? 256 ^ Z.of_nat n / 2) then Some z else None.
Definition checked_unsigned (n : nat) (z : Z) : option Z :=
  if (0 <=? z) && (z <? 256 ^ Z.of_nat n) then Some z else None.

Definition read_i64 (literal : list byte) (offset : nat) : Z := to_signed 8 (from_be_bytes 8 (take 8 (drop offset literal))).

Definition decode_sub_wrap_literal (literal : list byte) : RS (Z * Z * Z) :=
  if negb (zlen literal =? 24) then Err Decode
  else Ok (read_i64 literal 0, read_i64 literal 8, read_i64 literal 16).

Section eval.
Context `{Packages}.

Definition recv_binary (value : list byte) (ty : DataType) : Res TyEC DataValue :=
  '(value, _) ← fb_receive (fn_base (dt_id ty)) value ty; Ok value.
Definition send_binary (value : DataValue) (ty : DataType) : Res TyEC (list byte) :=
  fb_send (fn_base (dt_id ty)) value ty.

Definition eval_sub_wrap (current_value : DataValue) (data_type : DataType) (literal : list byte) : RS (list byte) :=
  '(q, floor, wrap) ← decode_sub_wrap_literal literal;
  if wrap <=? floor then Err InvalidArgument else
  current_i64 ← (match dt_id data_type with
                 | TfI32 => map_err to_m_err (expect_i32 current_value)
                 | TfI64 => map_err to_m_err (expect_i64 current_value)
                 | _ => Err InvalidType
                 end);
  y ← (match checked_signed 8 (current_i64 - q) with Some y => Ok y | None => Err InvalidTuple end);
  result ← (if y <? floor
            then match checked_signed 8 (y + wrap) with Some r => Ok r | None => Err InvalidTuple end
            else Ok y);
  result_value ← (match dt_id data_type with
                  | TfI32 => match checked_signed 4 result with Some r => Ok (VI32 r) | None => Err InvalidTuple end
                  | TfI64 => Ok (VI64 result)
                  | _ => Panic
                  end);
  map_err to_m_err (send_binary result_value data_type).

(** [int_delta!], for an integer type. *)
Definition int_delta (op : DeltaOp) (expect : DataValue -> Res TyEC Z) (checked : Z -> option Z) (make : Z -> DataValue)
    (current_value literal_value : DataValue) : RS DataValue :=
  current ← map_err to_m_err (expect current_value);
  literal ← map_err to_m_err (expect literal_value);
  result ← (match op with
            | DAdd | DAddDeferred => Ok (checked (current + literal))
            | DSub | DSubDeferred => Ok (checked (current - literal))
            | DSubWrapDeferred => Panic
            end);
  match result with Some r => Ok (make r) | None => Err InvalidTuple end.

Definition eval_delta_assignment (current : list byte) (assign : DeltaAssign) (desc : TableDesc DataType) : RS (list byte) :=
  field ← get_attr (da_attr assign) desc;
  let index := fi_datum_index field in
  let data_type := fi_type_desc field in
  value ← read_value current (tb_value_desc desc) index;
  match value with
  | Null => Err InvalidTuple
  | Value _ =>
      field_desc ← get_field_desc index (tb_value_desc desc);
      current_binary ← read_binary_data field_desc current;
      current_value ← map_err to_m_err (recv_binary current_binary data_type);
      literal_value ← map_err to_m_err (recv_binary (da_literal assign) data_type);
      if match da_op assign with DSubWrapDeferred => true | _ => false end then eval_sub_wrap current_value data_type (da_literal assign) else
      result ← (match dt_id data_type with
                | TfI32 => int_delta (da_op assign) expect_i32 (checked_signed 4) VI32 current_value literal_value
                | TfI64 => int_delta (da_op assign) expect_i64 (checked_signed 8) VI64 current_value literal_value
                | TfI128 => int_delta (da_op assign) expect_i128 (checked_signed 16) VI128 current_value literal_value
                | TfU128 => int_delta (da_op assign) expect_u128 (checked_unsigned 16) VU128 current_value literal_value
                | _ => Err InvalidType
                end);
      map_err to_m_err (send_binary result data_type)
  end.

(** The values of the assignments, all of them on the row as it was. *)
Fixpoint resolve_deltas (current : list byte) (deltas : list DeltaAssign) (desc : TableDesc DataType) : RS (list (Z * list byte)) :=
  match deltas with
  | [] => Ok []
  | assign :: deltas =>
      value ← eval_delta_assignment current assign desc;
      rest ← resolve_deltas current deltas desc;
      Ok ((da_attr assign, value) :: rest)
  end.

Definition apply_value_update_with_deltas (current : list byte) (values : list (Z * list byte)) (deltas : list DeltaAssign)
    (desc : TableDesc DataType) : RS (list byte) :=
  match deltas with
  | [] => apply_value_update current values desc
  | _ => resolved ← resolve_deltas current deltas desc; apply_value_update current (values ++ resolved) desc
  end.
End eval.

(** ** Predicates and bounds *)

Section keys.
Context {Ty V : Type} `{TypeFns Ty V} `{Packages}.

Definition ensure_supported_predicate {F} (predicate : Predicate F) : RS unit :=
  match predicate with
  | CNF [] | DNF [] | KeyPrefixEq _ => Ok ()
  | CNF _ | DNF _ => Err NotImplemented
  end.

Definition build_bound_key (bound : Bound (list (Z * list byte))) (desc : TableDesc Ty) : RS (Bound (list byte)) :=
  match bound with
  | Included values => tuple ← build_key_tuple values desc; Ok (Included tuple)
  | Excluded values => tuple ← build_key_tuple values desc; Ok (Excluded tuple)
  | Unbounded => Ok Unbounded
  end.
End keys.

(** ** What the storage asks of tables *)

(** The catalog of the storage, with the evaluation of assignments on rows. *)
Definition table_catalog `{Packages} {R : Type} (tables : Z -> RS (TableDesc DataType)) (open : PhysicalRelationId -> TableDesc DataType -> RS R)
    : Catalog R (TableDesc DataType) := {|
  get_table_by_id := tables;
  open_relation := open;
  apply_deltas_to_value desc deltas value := apply_value_update_with_deltas value [] deltas desc;
|}.
