(* ===== verification/TableProperties.v ===== *)
(** * Rows are stored in the columns of their table

    The columns of a schema become the fields of the key and value tuples;
    every column finds its field, and a row that was built from the values of
    its columns is projected to them. *)

From S2P Require Import Prelude Errors Compat Versions Tuples TupleLayout TupleProperties TupleBuild TupleOrder Tables.

(** ** Sorting by a key *)

Section sort_by.
Context {A : Type} (key : A -> Z).

Lemma insert_by_perm x l : insert_by key x l ≡ₚ x :: l.
Proof. induction l as [| y l IH]; [done |]. cbn [insert_by]. destruct (key x <=? key y); [done |]. rewrite IH. apply Permutation_swap. Qed.

Lemma sort_by_perm l : sort_by_key key l ≡ₚ l.
Proof. induction l as [| x l IH]; [done |]. unfold sort_by_key in *. cbn [foldr]. by rewrite insert_by_perm, IH. Qed.

Lemma insert_by_sorted x l : StronglySorted (fun a b => key a <= key b) l -> StronglySorted (fun a b => key a <= key b) (insert_by key x l).
Proof.
  induction 1 as [| y l Hs IH Hy]; cbn [insert_by]; [by repeat constructor |]. destruct (Z.leb_spec (key x) (key y)).
  - constructor; [by constructor |]. constructor; [done |]. eapply Forall_impl; [exact Hy |]. cbn. lia.
  - constructor; [done |]. rewrite insert_by_perm. constructor; [lia | done].
Qed.

Lemma sort_by_sorted l : StronglySorted (fun a b => key a <= key b) (sort_by_key key l).
Proof. induction l as [| x l IH]; [constructor |]. by apply insert_by_sorted. Qed.

(** A list in strict order is the only sorted arrangement of its elements. *)
Lemma sorted_unique l1 : forall l2, StronglySorted (fun a b => key a < key b) l1 -> StronglySorted (fun a b => key a <= key b) l2 ->
  l2 ≡ₚ l1 -> l2 = l1.
Proof.
  induction l1 as [| x l1 IH]; intros l2 H1 H2 Hp; [by apply Permutation_nil_r in Hp |].
  destruct l2 as [| y l2]; [by apply Permutation_nil_l in Hp |]. apply StronglySorted_inv in H1 as [H1 Hx]. apply StronglySorted_inv in H2 as [H2 Hy].
  assert (y = x) as ->.
  { assert (y ∈ x :: l1) as Hin by (rewrite <- Hp; left). assert (x ∈ y :: l2) as Hin' by (rewrite Hp; left).
    apply elem_of_cons in Hin as [-> | Hin]; [done |]. apply elem_of_cons in Hin' as [-> | Hin']; [done |].
    rewrite Forall_forall in Hx, Hy. specialize (Hx _ Hin). specialize (Hy _ Hin'). lia. }
  f_equal. apply IH; [done | done |]. by apply Permutation_cons_inv in Hp.
Qed.

Lemma sort_by_ok l1 l2 : StronglySorted (fun a b => key a < key b) l1 -> l2 ≡ₚ l1 -> sort_by_key key l2 = l1.
Proof. intros Hs Hp. apply sorted_unique; [done | apply sort_by_sorted | by rewrite sort_by_perm]. Qed.
End sort_by.

(** ** Columns *)

Section columns.
Context {Ty V : Type} `{TypeFnsOk Ty V}.

Notation TypedField := (Ty * bool * option Z)%type.
Notation entry := (Ty * (FieldInfo Ty * bool * option Z))%type.
Implicit Types (f : Z * SchemaColumn Ty) (e : entry) (fi : FieldInfo Ty) (fs : list TypedField).

(** The field of a column: its type, whether it is nullable, and its bit. *)
Definition info_of f fi : Prop :=
  sc_type f.2 = Ok (fi_type_desc fi) /\ fi_column_index fi = f.1 /\ fi_primary_index fi = sc_primary f.2 /\ fi_nullable fi = sc_nullable f.2.

Definition entry_of f e : Prop :=
  info_of f e.2.1.1 /\ fi_type_desc e.2.1.1 = e.1 /\ e.2.1.2 = sc_nullable f.2 /\
  (if sc_nullable f.2 then is_Some e.2.2 else e.2.2 = None).

Lemma column_fields_ok (fields : list (Z * SchemaColumn Ty)) : forall n, 0 <= n -> n + zlen fields <= 65536 ->
  Forall (fun f => exists ty, sc_type f.2 = Ok ty) fields -> exists vec,
  column_fields n fields = Ok vec /\ Forall2 entry_of fields vec /\ NoDup (omap (fun e => e.2.2) vec) /\
  Forall (fun idx => n <= idx < n + zlen fields) (omap (fun e => e.2.2) vec).
Proof.
  induction fields as [| [c sc] fields IH]; intros n Hn Hm Ht; cbn [column_fields].
  { exists []. repeat split; constructor. }
  apply Forall_cons in Ht as [[ty Ety] Ht]. cbn in Ety. rewrite zlen_cons in *. pose proof (zlen_nonneg fields).
  destruct (IH (if sc_nullable sc then n + 1 else n)) as (vec & E & Hf & Hnd & Hb); [destruct (sc_nullable sc); lia.. | done |].
  rewrite Ety. cbn [mbind res_bind]. rewrite E. cbn [mbind res_bind]. eexists. split; [reflexivity |].
  split; [constructor; [unfold entry_of, info_of; cbn; destruct (sc_nullable sc); split_and!; try done; eauto | done] |].
  destruct (sc_nullable sc); cbn; rewrite ?Z.mod_small by lia.
  - split; [constructor; [| done] | constructor; [lia |]].
    + intros Hin. rewrite Forall_forall in Hb. specialize (Hb _ Hin). lia.
    + eapply Forall_impl; [exact Hb |]. cbn. lia.
  - split; [done |]. eapply Forall_impl; [exact Hb |]. cbn. lia.
Qed.

(** The typed field of an entry. *)
Definition typed e : TypedField := (e.1, e.2.1.2, e.2.2).

Lemma typed_bits (vec : list entry) : omap snd (typed <$> vec) = omap (fun e => e.2.2) vec.
Proof. induction vec as [| e vec IH]; [done |]. rewrite fmap_cons. cbn. destruct (e.2.2); cbn; by rewrite IH. Qed.

Lemma count_nullable_le fs n : 0 <= n -> Forall (fun idx => 0 <= idx < n) (omap snd fs) -> count_nullable fs <= n.
Proof.
  intros Hn Hb. unfold count_nullable. assert (forall m, m <= n ->
    foldl (fun n (f : TypedField) => match snd f with Some idx => Z.max n (idx + 1) | None => n end) m fs <= n) as Hg; [| by apply Hg].
  revert Hb. induction fs as [| [[ty nl] ix] fs IH]; intros Hb m Hm; [done |]. cbn [foldl snd].
  change (omap snd ((ty, nl, ix) :: fs)) with (match ix with Some y => y :: omap snd fs | None => omap snd fs end) in Hb.
  destruct ix; [apply Forall_cons in Hb as [Hi Hb] |]; apply IH; done || lia.
Qed.

Lemma aligned_mono a : 0 <= a <= 65536 -> 0 <= aligned_byte_len a <= 8192.
Proof.
  intros Ha. unfold aligned_byte_len, bitmap_align_up. pose proof (div_ceil_bound a 8 ltac:(lia)).
  destruct (Z.eqb_spec (div_ceil a 8) 0); [lia |]. pose proof (div_ceil_bound (div_ceil a 8) 8 ltac:(lia)). lia.
Qed.

(** The sizes of typed fields depend on their types only. *)
Lemma sizes_of_types fs : var_n fs = var_n (plain ((fun f : TypedField => f.1.1) <$> fs)) /\
  fixed_total fs = fixed_total (plain ((fun f : TypedField => f.1.1) <$> fs)).
Proof.
  induction fs as [| [[ty nl] ix] fs [IH1 IH2]]; [done |]. rewrite fmap_cons. unfold plain in *. rewrite fmap_cons, !var_n_cons, !fixed_total_cons.
  by rewrite IH1, IH2.
Qed.

Definition side_fits (tys : list Ty) : Prop := zlen tys <= 65536 /\ 8192 + SLOT_SIZE * var_n (plain tys) + fixed_total (plain tys) <= U32_MAX.

Lemma sorted_fields_ok (fields : list (Z * SchemaColumn Ty)) (vec : list entry) :
  Forall2 entry_of fields vec -> NoDup (omap (fun e => e.2.2) vec) ->
  Forall (fun idx => 0 <= idx < 65536) (omap (fun e => e.2.2) vec) -> StronglySorted type_le (vec.*1) -> side_fits (vec.*1) ->
  fields_ok (typed <$> vec).
Proof.
  intros Hf Hnd Hb Hs [Hz Hm]. assert ((fun f : TypedField => f.1.1) <$> (typed <$> vec) = vec.*1) as Et by (by rewrite <- list_fmap_compose).
  split; rewrite ?typed_bits, ?Et; try done.
  - clear -Hf. induction Hf as [| f e fields vec He Hf IH]; [done |]. rewrite fmap_cons. cbn [forallb]. rewrite IH, andb_true_r.
    destruct He as (_ & _ & En & Ei). unfold nullability_ok, typed. cbn [fst snd]. rewrite En.
    destruct (sc_nullable f.2); [destruct Ei as [idx ->]; done | by rewrite Ei].
  - eapply Forall_impl; [exact Hb |]. cbn. lia.
  - destruct (sizes_of_types (typed <$> vec)) as [-> ->]. rewrite Et. pose proof (aligned_mono (count_nullable (typed <$> vec))) as Ha.
    pose proof (count_nullable_le (typed <$> vec) 65536 ltac:(lia)) as Hc. rewrite typed_bits in Hc. specialize (Hc Hb).
    destruct (count_nullable_bound (typed <$> vec)) as [H0' _]. lia.
Qed.

Lemma Forall2_perm_r {A B} (R : A -> B -> Prop) l k k' : Forall2 R l k -> k' ≡ₚ k -> exists l', l' ≡ₚ l /\ Forall2 R l' k'.
Proof.
  intros Hr Hp. revert l Hr. induction Hp as [| x k1 k2 Hp IH | x y k1 | k1 k2 k3 Hp1 IH1 Hp2 IH2]; intros l Hr.
  - by exists l.
  - apply Forall2_cons_inv_r in Hr as (a & l' & Ha & Hr & ->). destruct (IH _ Hr) as (l2 & Hl & Hr2). exists (a :: l2). split; [by rewrite Hl | by constructor].
  - apply Forall2_cons_inv_r in Hr as (a & l' & Ha & Hr & ->). apply Forall2_cons_inv_r in Hr as (b & l2 & Hb & Hr & ->).
    exists (b :: a :: l2). split; [apply Permutation_swap | by repeat constructor].
  - destruct (IH2 _ Hr) as (l2 & Hl & Hr2). destruct (IH1 _ Hr2) as (l3 & Hl3 & Hr3). exists l3. split; [by rewrite Hl3 | done].
Qed.

Lemma typed_zip (vec : list entry) :
  zip_with (fun (ty : Ty) (f : FieldInfo Ty * bool * option Z) => (ty, f.1.2, f.2)) vec.*1
    (imap (fun i (f : FieldInfo Ty * bool * option Z) => (set_datum_index (Z.of_nat i) f.1.1, f.1.2, f.2)) vec.*2) = typed <$> vec.
Proof.
  apply list_eq. intros i. rewrite lookup_zip_with, list_lookup_imap, !list_lookup_fmap. by destruct (vec !! i).
Qed.

Definition column_type f ty : Prop := sc_type f.2 = Ok ty.

(** The columns of one side of a table, in the order of their tuple. *)
Record side_columns (cols : list (Z * SchemaColumn Ty)) fs (infos : list (FieldInfo Ty)) : Prop := mk_side_columns {
  sd_fields : fields_ok fs;
  sd_length : length infos = length cols /\ length fs = length cols;
  sd_info i f : cols !! i = Some f -> exists fi ix, infos !! i = Some fi /\ info_of f fi /\ fi_datum_index fi = Z.of_nat i /\
    fs !! i = Some (fi_type_desc fi, fi_nullable fi, ix);
}.

Lemma schema_tuple_ok fields tys : Forall2 column_type fields tys -> side_fits tys -> exists fs infos cols,
  schema_columns_to_tuple_desc fields = Ok (desc_of fs 1, infos) /\ cols ≡ₚ fields /\ side_columns cols fs infos.
Proof.
  intros Ht Hs. pose proof (Forall2_length _ _ _ Ht) as El. destruct Hs as [Hz Hm]. unfold zlen in Hz.
  destruct (column_fields_ok fields 0) as (vec & Ev & Hf & Hnd & Hb); [lia | unfold zlen; lia | |].
  { clear -Ht. induction Ht; constructor; [by eexists | done]. }
  destruct (normalized_ok vec) as (vec' & En & Hp & Hsort). destruct (Forall2_perm_r _ _ _ _ Hf Hp) as (cols & Hpc & Hf').
  assert (vec.*1 = tys) as Etys.
  { clear -Ht Hf. revert tys Ht. induction Hf as [| f e fields vec (Hi & Ee & _) Hf IH]; intros tys Ht; inversion Ht; subst; [done |].
    rewrite fmap_cons. f_equal; [| by apply IH]. destruct Hi as [Hi _]. unfold column_type in *. congruence. }
  assert (fields_ok (typed <$> vec')) as Hok.
  { apply (sorted_fields_ok cols); [done | by rewrite (omap_Permutation _ _ _ Hp) | rewrite (omap_Permutation _ _ _ Hp); eapply Forall_impl; [exact Hb |] | done |].
    - unfold zlen. cbn. lia.
    - unfold side_fits. rewrite (var_n_perm _ _ (plain_perm _ _ Hp)), (fixed_total_perm _ _ (plain_perm _ _ Hp)), Etys.
      split; [| done]. unfold zlen. rewrite length_fmap, Hp. rewrite <- (length_fmap fst), Etys. lia. }
  eexists _, _, cols. unfold schema_columns_to_tuple_desc. rewrite Ev. cbn [mbind res_bind]. rewrite En. cbn [mbind res_bind].
  rewrite typed_zip, from_typed_fields_ok by done. cbn [mbind res_bind]. split; [reflexivity |]. split; [done |].
  pose proof (Forall2_length _ _ _ Hf') as El'. split; [done | |].
  - rewrite !length_fmap, length_imap, length_fmap. lia.
  - intros i f Ei. destruct (Forall2_lookup_l _ _ _ _ _ Hf' Ei) as (e & Ee & (Hi & Ety & Enl & _)).
    exists (set_datum_index (Z.of_nat i) e.2.1.1), e.2.2. rewrite !list_lookup_fmap, list_lookup_imap, list_lookup_fmap, Ee. cbn.
    split_and!; [done | done | done |]. unfold typed. rewrite Ety, Enl. destruct Hi as (_ & _ & _ & ->). done.
Qed.

(** ** Schemas and descriptors *)

Implicit Types (columns : list (SchemaColumn Ty)) (infos : list (FieldInfo Ty)).

(** What the numbering of the key or value columns does to a column. *)
Definition numbered (primary : bool) (sc sc' : SchemaColumn Ty) : Prop :=
  sc_type sc' = sc_type sc /\
  if primary then is_Some (sc_primary sc') /\ sc_nullable sc' = false else sc_primary sc' = None /\ sc_nullable sc' = sc_nullable sc.

Lemma number_columns_ok primary indices : forall i columns,
  NoDup indices -> Forall (fun a => 0 <= a < zlen columns) indices -> exists columns',
  number_columns primary i indices columns = Ok columns' /\ length columns' = length columns /\
  (forall a sc, a ∈ indices -> columns !! Z.to_nat a = Some sc -> exists sc', columns' !! Z.to_nat a = Some sc' /\ numbered primary sc sc') /\
  (forall a, 0 <= a -> a ∉ indices -> columns' !! Z.to_nat a = columns !! Z.to_nat a).
Proof.
  induction indices as [| b indices IH]; intros i columns Hnd Hr; cbn [number_columns].
  { exists columns. split_and!; try done. intros a sc Hin. by apply elem_of_nil in Hin. }
  apply NoDup_cons in Hnd as [Hb Hnd]. apply Forall_cons in Hr as [Hrb Hr]. unfold column_at.
  destruct (lookup_lt_is_Some_2 columns (Z.to_nat b)) as [sb Esb]; [unfold zlen in Hrb; lia |]. rewrite Esb. cbn [mbind res_bind].
  set (sb' := set_index _ _). destruct (IH (i + 1) (<[Z.to_nat b := sb']> columns)) as (columns' & E & El & Hin & Hout); [done | |].
  { unfold zlen in *. by rewrite length_insert. }
  rewrite length_insert in El. exists columns'. split_and!; [done | done | |].
  - intros a sc [-> | Ha]%elem_of_cons Ea.
    + rewrite Esb in Ea. injection Ea as ->. exists sb'. rewrite Hout, list_lookup_insert_eq by (done || lia || unfold zlen in *; lia).
      split; [done |]. unfold numbered, sb', set_index, set_primary_index. cbn. destruct primary; cbn; eauto.
    + apply Hin; [done |]. rewrite list_lookup_insert_ne; [done |]. rewrite Forall_forall in Hr. specialize (Hr _ Ha).
      assert (a <> b) by (by intros ->). lia.
  - intros a Ha Hn. apply not_elem_of_cons in Hn as [Hab Hn]. rewrite Hout by done. apply list_lookup_insert_ne. lia.
Qed.

Lemma columns_of_ok columns indices : Forall (fun a => 0 <= a < zlen columns) indices -> exists fields,
  columns_of columns indices = Ok fields /\ fields.*1 = indices /\ Forall (fun f => columns !! Z.to_nat f.1 = Some f.2) fields.
Proof.
  induction 1 as [| a indices Ha Hr (fields & E & E1 & Hf)]; [by exists [] |]. cbn [columns_of]. unfold column_at.
  destruct (lookup_lt_is_Some_2 columns (Z.to_nat a)) as [sc Esc]; [unfold zlen in Ha; lia |]. rewrite Esc. cbn [mbind res_bind]. rewrite E.
  exists ((a, sc) :: fields). rewrite fmap_cons, E1. split_and!; [done | done | by constructor].
Qed.

Lemma register_fields_ok infos : forall (n2o : gmap (list byte) Z) (o2c : gmap Z (FieldInfo Ty)) fields,
  NoDup (fi_column_index <$> infos) -> Forall (fun a => 0 <= a < zlen fields) (fi_column_index <$> infos) -> exists n2o' o2c' fields',
  register_fields infos (n2o, o2c, fields) = Ok (n2o', o2c', fields') /\ length fields' = length fields /\
  Forall (fun fi => fields' !! Z.to_nat (fi_column_index fi) = Some fi) infos /\
  (forall a, 0 <= a -> a ∉ (fi_column_index <$> infos) -> fields' !! Z.to_nat a = fields !! Z.to_nat a).
Proof.
  induction infos as [| fi infos IH]; intros n2o o2c fields Hnd Hr; cbn [register_fields].
  { eexists _, _, _. split; [reflexivity |]. split_and!; [done | constructor | done]. }
  rewrite fmap_cons in *. apply NoDup_cons in Hnd as [Hb Hnd]. apply Forall_cons in Hr as [Hrb Hr].
  rewrite bool_decide_eq_true_2 by (unfold zlen in *; lia). set (k := Z.to_nat (fi_column_index fi)) in *.
  destruct (IH (<[fi_name fi := fi_id fi]> n2o) (<[fi_id fi := fi]> o2c) (<[k := fi]> fields)) as (n2o' & o2c' & fields' & E & El & Hin & Hout);
    [done | by unfold zlen in *; rewrite length_insert |]. rewrite length_insert in El.
  exists n2o', o2c', fields'. split_and!; [done | done | |].
  - constructor; [| done]. rewrite Hout by (done || lia). apply list_lookup_insert_eq. unfold zlen, k in *. lia.
  - intros a Ha Hn. apply not_elem_of_cons in Hn as [Hab Hn]. rewrite Hout by done. apply list_lookup_insert_ne. unfold k. lia.
Qed.

(** The schema of a table: columns with types, each in the key or the value. *)
Definition types_at (tys : list Ty) (indices : list Z) : list Ty := omap (fun a => tys !! Z.to_nat a) indices.

Record schema_ok columns (ki vi : list Z) (tys : list Ty) : Prop := mk_schema_ok {
  so_types : Forall2 (fun sc ty => sc_type sc = Ok ty) columns tys;
  so_nodup : NoDup (ki ++ vi);
  so_range : Forall (fun a => 0 <= a < zlen columns) (ki ++ vi);
  so_key_fits : side_fits (types_at tys ki);
  so_value_fits : side_fits (types_at tys vi);
}.

Definition col_nullable columns (a : Z) : bool := match columns !! Z.to_nat a with Some sc => sc_nullable sc | None => false end.

(** One side of a table descriptor: [order] are its columns, by their place in
    the tuple. *)
Record side (fields : list (FieldInfo Ty)) (is_key : bool) fs (order : list Z) (tys : list Ty) (nullable : Z -> bool) : Prop := mk_side {
  si_ok : fields_ok fs;
  si_len : length fs = length order;
  si_nodup : NoDup order;
  si_attr i a : order !! i = Some a -> exists fi ix, fields !! Z.to_nat a = Some fi /\ fi_datum_index fi = Z.of_nat i /\
    bool_decide (is_Some (fi_primary_index fi)) = is_key /\ tys !! Z.to_nat a = Some (fi_type_desc fi) /\
    fi_nullable fi = nullable a /\ fs !! i = Some (fi_type_desc fi, nullable a, ix);
}.

Lemma side_of_columns fields is_key cols fs infos tys nullable :
  side_columns cols fs infos -> NoDup cols.*1 -> Forall (fun fi => fields !! Z.to_nat (fi_column_index fi) = Some fi) infos ->
  Forall (fun f => bool_decide (is_Some (sc_primary f.2)) = is_key /\ sc_nullable f.2 = nullable f.1 /\
    exists ty, tys !! Z.to_nat f.1 = Some ty /\ sc_type f.2 = Ok ty) cols ->
  side fields is_key fs cols.*1 tys nullable.
Proof.
  intros [Hok [_ Hl] Hi] Hnd Hf Hc. split; [done | by rewrite length_fmap | done |]. intros i a Ea. rewrite list_lookup_fmap in Ea.
  destruct (cols !! i) as [f |] eqn:Ef; [| done]. injection Ea as <-. destruct (Hi i f Ef) as (fi & ix & Efi & (Ht & Ecol & Ep & En) & Ed & Efs).
  rewrite Forall_lookup in Hc. destruct (Hc i f Ef) as (Hp & Hnl & ty & Ety & Ht'). rewrite Forall_lookup in Hf. pose proof (Hf i fi Efi) as Hfi.
  rewrite Ecol in Hfi. exists fi, ix. rewrite Ep. split_and!; [done | done | done | congruence | congruence |]. rewrite Efs. congruence.
Qed.

(** The columns of one side, and how they are described. *)
Lemma side_columns_of columns0 columns primary indices tys :
  Forall2 (fun sc ty => sc_type sc = Ok ty) columns0 tys -> length columns = length columns0 -> NoDup indices ->
  Forall (fun a => 0 <= a < zlen columns) indices -> side_fits (types_at tys indices) ->
  (forall a sc, a ∈ indices -> columns0 !! Z.to_nat a = Some sc -> exists sc', columns !! Z.to_nat a = Some sc' /\ numbered primary sc sc') ->
  exists cols fs infos, (fields ← columns_of columns indices; schema_columns_to_tuple_desc fields) = Ok (desc_of fs 1, infos) /\
  cols.*1 ≡ₚ indices /\ side_columns cols fs infos /\
  Forall (fun f => bool_decide (is_Some (sc_primary f.2)) = primary /\
    sc_nullable f.2 = (if primary then false else col_nullable columns0 f.1) /\ exists ty, tys !! Z.to_nat f.1 = Some ty /\ sc_type f.2 = Ok ty) cols.
Proof.
  intros Ht El Hnd Hr Hs Hnum. destruct (columns_of_ok columns indices Hr) as (fields & Ef & E1 & Hf).
  assert (Forall (fun f => bool_decide (is_Some (sc_primary f.2)) = primary /\
    sc_nullable f.2 = (if primary then false else col_nullable columns0 f.1) /\ exists ty, tys !! Z.to_nat f.1 = Some ty /\ sc_type f.2 = Ok ty) fields) as Hall.
  { apply Forall_forall. intros f Hin. rewrite Forall_forall in Hf. specialize (Hf f Hin). assert (f.1 ∈ indices) as Ha by (rewrite <- E1; by apply list_elem_of_fmap_2).
    assert (is_Some (columns0 !! Z.to_nat f.1)) as [sc Esc] by (apply lookup_lt_is_Some; rewrite <- El; by eapply lookup_lt_Some).
    destruct (Hnum _ sc Ha Esc) as (sc' & Esc' & Hty & Hp). rewrite Hf in Esc'. injection Esc' as Esc'.
    destruct (Forall2_lookup_l _ _ _ _ _ Ht Esc) as (ty & Ety & Hsc). unfold col_nullable. rewrite Esc, Esc'. destruct primary.
    - destruct Hp as [Hp ->]. rewrite bool_decide_eq_true_2 by done. split_and!; [done | done |]. exists ty. split; [done | congruence].
    - destruct Hp as [Hp ->]. rewrite Hp. split_and!; [done | done |]. exists ty. split; [done | congruence]. }
  assert (Forall2 column_type fields (types_at tys indices)) as Hct.
  { clear -Hall E1. subst indices. induction Hall as [| f fields (_ & _ & ty & Ety & Hty) Hall IH]; [constructor |].
    rewrite fmap_cons. unfold types_at. cbn. rewrite Ety. by constructor. }
  destruct (schema_tuple_ok fields _ Hct Hs) as (fs & infos & cols & E & Hp & Hsc). exists cols, fs, infos. rewrite Ef. cbn [mbind res_bind].
  split_and!; [done | by rewrite Hp, E1 | done |]. by rewrite Hp.
Qed.

(** The columns after both numberings. *)
Lemma schema_columns_ok oid name columns ki vi tys : schema_ok columns ki vi tys -> exists s,
  SchemaTable_new_with_oid oid name columns ki vi = Ok s /\ st_key_indices s = ki /\ st_value_indices s = vi /\
  length (st_columns s) = length columns /\
  (forall a sc, a ∈ ki -> columns !! Z.to_nat a = Some sc -> exists sc', st_columns s !! Z.to_nat a = Some sc' /\ numbered true sc sc') /\
  (forall a sc, a ∈ vi -> columns !! Z.to_nat a = Some sc -> exists sc', st_columns s !! Z.to_nat a = Some sc' /\ numbered false sc sc').
Proof.
  intros [_ Hnd Hr _ _]. apply NoDup_app in Hnd as (Hk & Hkv & Hv). apply Forall_app in Hr as [Rk Rv]. unfold SchemaTable_new_with_oid.
  destruct (number_columns_ok true ki 0 columns Hk Rk) as (c1 & E1 & L1 & In1 & Out1). rewrite E1. cbn [mbind res_bind].
  destruct (number_columns_ok false vi 0 c1 Hv) as (c2 & E2 & L2 & In2 & Out2); [unfold zlen in *; by rewrite L1 |]. rewrite E2. cbn [mbind res_bind].
  eexists. split; [reflexivity |]. cbn. rewrite Forall_forall in Rk, Rv. split_and!; [done | done | by rewrite L2 | |].
  - intros a sc Ha Esc. rewrite Out2 by (naive_solver || by apply Rk in Ha as []). by apply In1.
  - intros a sc Ha Esc. apply In2; [done |]. rewrite Out1; [done | by apply Rv in Ha as [] |]. intros Hk'. by apply (Hkv a).
Qed.

Lemma info_columns cols fs infos : side_columns cols fs infos -> fi_column_index <$> infos = cols.*1.
Proof.
  intros [_ [El _] Hi]. apply list_eq. intros i. rewrite !list_lookup_fmap. destruct (cols !! i) as [f |] eqn:Ef.
  - destruct (Hi i f Ef) as (fi & ix & -> & (_ & Ec & _) & _). cbn. by rewrite Ec.
  - apply lookup_ge_None in Ef. by rewrite lookup_ge_None_2 by lia.
Qed.

(** The descriptor of a table. *)
Lemma table_sides default_type oid name columns ki vi tys : schema_ok columns ki vi tys -> exists s desc kfs korder vfs vorder,
  SchemaTable_new_with_oid oid name columns ki vi = Ok s /\ table_desc_of default_type s = Ok desc /\
  tb_key_desc desc = desc_of kfs 1 /\ tb_value_desc desc = desc_of vfs 1 /\ tb_key_indices desc = ki /\ tb_value_indices desc = vi /\
  korder ≡ₚ ki /\ vorder ≡ₚ vi /\ side (tb_fields desc) true kfs korder tys (fun _ => false) /\
  side (tb_fields desc) false vfs vorder tys (col_nullable columns).
Proof.
  intros Hsc. pose proof Hsc as [Ht Hnd Hr Hkf Hvf]. destruct (schema_columns_ok oid name columns ki vi tys Hsc) as (s & Es & Ek & Ev & El & Nk & Nv).
  apply NoDup_app in Hnd as (Hk & Hkv & Hv). apply Forall_app in Hr as [Rk Rv].
  assert (zlen (st_columns s) = zlen columns) as Ez by (unfold zlen; by rewrite El).
  destruct (side_columns_of columns (st_columns s) true ki tys Ht El Hk ltac:(by rewrite Ez) Hkf Nk) as (kc & kfs & ki' & Ekd & Pk & Sk & Fk).
  destruct (side_columns_of columns (st_columns s) false vi tys Ht El Hv ltac:(by rewrite Ez) Hvf Nv) as (vc & vfs & vi' & Evd & Pv & Sv & Fv).
  pose proof (info_columns _ _ _ Sk) as Ck. pose proof (info_columns _ _ _ Sv) as Cv.
  set (blank := mkFieldInfo [] 0 default_type 0 0 None false).
  destruct (register_fields_ok ki' ∅ ∅ (replicate (length (st_columns s)) blank)) as (n1 & o1 & f1 & E1 & L1 & In1 & Out1).
  { by rewrite Ck, Pk. }
  { rewrite Ck, Pk. unfold zlen. rewrite length_replicate, El. exact Rk. }
  rewrite length_replicate in L1. destruct (register_fields_ok vi' n1 o1 f1) as (n2 & o2 & f2 & E2 & L2 & In2 & Out2).
  { by rewrite Cv, Pv. }
  { rewrite Cv, Pv. unfold zlen. rewrite L1, El. exact Rv. }
  eexists s, _, kfs, kc.*1, vfs, vc.*1. split; [done |]. unfold table_desc_of, key_tuple_desc, value_tuple_desc. rewrite Ek, Ev, Ekd, Evd.
  cbn [mbind res_bind]. assert (field_count (desc_of vfs 1) = zlen vi') as Efc.
  { rewrite desc_count. destruct Sv as [_ [Lv1 Lv2] _]. unfold zlen. lia. }
  rewrite Efc, Z.eqb_refl. cbn [negb]. fold blank. rewrite E1. cbn [mbind res_bind]. rewrite E2. cbn [mbind res_bind]. split; [reflexivity |].
  cbn. split_and!; [done.. | |].
  - apply (side_of_columns _ _ _ _ ki'); [done | by rewrite Pk | | done]. apply Forall_forall. intros fi Hin. rewrite Forall_forall in In1.
    assert (fi_column_index fi ∈ ki) as Hfi by (rewrite <- Pk, <- Ck; by apply list_elem_of_fmap_2).
    rewrite Out2; [by apply In1 | |]; [rewrite Forall_forall in Rk; by apply Rk in Hfi as [] |]. rewrite Cv, Pv. by apply Hkv.
  - apply (side_of_columns _ _ _ _ vi'); [done | by rewrite Pv | done | done].
Qed.
End columns.
