(* ===== verification/RowProperties.v ===== *)
(** * Rows

    A row built from the values of its columns is projected to them, keys are
    matched by the bytes of their columns, and columns of fixed length are
    updated in place. *)

From S2P Require Import Prelude Errors Compat Versions Tuples TupleLayout TupleProperties TupleBuild TupleOrder TupleUpdate Tables TableProperties.

Section rows.
Context {Ty V : Type} `{TypeFnsOk Ty V} `{PackagesOk}.

Notation TypedField := (Ty * bool * option Z)%type.
Implicit Types (fs : list TypedField) (data : list (Z * list byte)) (fi : FieldInfo Ty).

(** The bytes of a column of the row. *)
Definition given (tys : list Ty) (row : Z -> NullableValue V) (x : Z * list byte) : Prop :=
  exists ty v, tys !! Z.to_nat x.1 = Some ty /\ row x.1 = Value v /\ tv_ok ty v /\ x.2 = sent ty v.

Lemma fst_perm_inv data order : data.*1 ≡ₚ order -> exists data', data' ≡ₚ data /\ data'.*1 = order.
Proof.
  intros Hp. symmetry in Hp. apply Permutation_map_inv in Hp as (data' & E & Hp). exists data'. split; [by symmetry | done].
Qed.

Section one_side.
Variables (desc : TableDesc Ty) (is_key : bool) (fs : list TypedField) (order : list Z) (tys : list Ty) (nullable : Z -> bool).
Hypothesis Hside : side (tb_fields desc) is_key fs order tys nullable.

(** Attributes and their fields, in the order of the tuple. *)
Lemma with_fields_ok data (i : nat) : data.*1 = drop i order -> exists l,
  with_fields data desc = Ok l /\ l.*2 = data.*2 /\ StronglySorted (fun a b : FieldInfo Ty * list byte => fi_datum_index a.1 < fi_datum_index b.1) l /\
  Forall (fun f : FieldInfo Ty * list byte => Z.of_nat i <= fi_datum_index f.1 /\ bool_decide (is_Some (fi_primary_index f.1)) = is_key) l.
Proof.
  revert i. induction data as [| [a bs] data IH]; intros i Ed; [by exists []; repeat constructor |]. rewrite fmap_cons in Ed. cbn [fst] in Ed.
  assert (order !! i = Some a) as Ea by (rewrite <- (Nat.add_0_r i), <- lookup_drop, <- Ed; done).
  destruct (IH (S i)) as (l & E & E2 & Hs & Hf).
  { rewrite <- Nat.add_1_r, <- drop_drop, <- Ed. done. }
  destruct (si_attr _ _ _ _ _ _ Hside i a Ea) as (fi & ix & Efi & Edi & Hp & _). cbn [with_fields]. unfold get_attr. rewrite Efi. cbn [mbind res_bind].
  rewrite E. cbn [mbind res_bind]. exists ((fi, bs) :: l). rewrite !fmap_cons, E2. split_and!; [done | done | |].
  - constructor; [done |]. eapply Forall_impl; [exact Hf |]. cbn. intros f [Hf1 _]. rewrite Edi. lia.
  - constructor; [cbn; split; [lia | done] |]. eapply Forall_impl; [exact Hf |]. cbn. intros f [Hf1 Hf2]. split; [lia | done].
Qed.

Lemma with_fields_perm data data' l' : data ≡ₚ data' -> with_fields data' desc = Ok l' -> exists l, with_fields data desc = Ok l /\ l ≡ₚ l'.
Proof.
  intros Hp. revert l'. induction Hp as [| [a bs] d1 d2 Hp IH | [a bs] [b cs] d | d1 d2 d3 Hp1 IH1 Hp2 IH2]; intros l' E.
  - by exists l'.
  - cbn [with_fields] in *. apply res_bind_inv in E as (fi & Ef & E). apply res_bind_inv in E as (rest & Er & [= <-]).
    destruct (IH _ Er) as (l & -> & Hl). rewrite Ef. cbn. eexists. split; [reflexivity |]. by rewrite Hl.
  - cbn [with_fields] in *. apply res_bind_inv in E as (fi & Ef & E). apply res_bind_inv in E as (rest & Er & [= <-]).
    apply res_bind_inv in Er as (fj & Ej & Er). apply res_bind_inv in Er as (rest' & Er & [= <-]). rewrite Ej. cbn. rewrite Ef. cbn. rewrite Er. cbn.
    eexists. split; [reflexivity |]. apply Permutation_swap.
  - destruct (IH2 _ E) as (l2 & E2 & P2). destruct (IH1 _ E2) as (l1 & E1 & P1). exists l1. split; [done | by rewrite P1].
Qed.

Lemma sorted_values_ok data data' : data ≡ₚ data' -> data'.*1 = order -> sorted_values is_key data desc = Ok data'.*2.
Proof.
  intros Hp E1. assert (data'.*1 = drop 0 order) as E0 by done. destruct (with_fields_ok data' 0 E0) as (l' & El & E2 & Hs & Hf).
  destruct (with_fields_perm data data' l' Hp El) as (l & Ew & Pl). unfold sorted_values.
  destruct data as [| [a bs] [| x data]].
  - apply Permutation_nil_l in Hp. by subst data'.
  - apply Permutation_singleton_l in Hp. by subst data'.
  - rewrite Ew. cbn [mbind res_bind]. rewrite (proj2 (forallb_forall _ _)).
    + by rewrite (sort_by_ok _ l' l Hs Pl), E2.
    + intros f Hin. apply list_elem_of_In in Hin. rewrite Pl in Hin. rewrite Forall_forall in Hf. destruct (Hf f Hin) as [_ ->]. by destruct is_key.
Qed.

(** The values of a list of columns in the order of the tuple. *)
Lemma given_values row data : data.*1 = order -> Forall (given tys row) data -> exists vs,
  Forall2 (fun a v => row a = Value v) order vs /\ all_ok fs vs /\ data.*2 = sent_all fs vs.
Proof.
  intros E Hg. assert (forall (i : nat) data, data.*1 = drop i order -> Forall (given tys row) data -> exists vs,
    Forall2 (fun a v => row a = Value v) (drop i order) vs /\ all_ok (drop i fs) vs /\ data.*2 = sent_all (drop i fs) vs) as Hgen.
  { clear E Hg data. intros i data. revert i. induction data as [| [a bs] data IH]; intros i Ed Hg.
    - exists []. assert (drop i fs = []) as -> by (apply drop_ge; rewrite (si_len _ _ _ _ _ _ Hside); apply (f_equal length) in Ed;
        rewrite length_drop in Ed; cbn in Ed; lia). rewrite <- Ed. repeat constructor.
    - rewrite fmap_cons in Ed. cbn [fst] in Ed. apply Forall_cons in Hg as [(ty & v & Ety & Erow & Hv & Ebs) Hg]. cbn in Ety, Erow, Ebs.
      assert (order !! i = Some a) as Ea by (rewrite <- (Nat.add_0_r i), <- lookup_drop, <- Ed; done).
      destruct (si_attr _ _ _ _ _ _ Hside i a Ea) as (fi & ix & _ & _ & _ & Etys & _ & Efs). rewrite Ety in Etys. injection Etys as ->.
      destruct (IH (S i)) as (vs & Hr & Ha & E2); [by rewrite <- Nat.add_1_r, <- drop_drop, <- Ed | done |].
      exists (v :: vs). rewrite (drop_S fs _ _ Efs), (drop_S order _ _ Ea), fmap_cons. cbn [sent_all snd]. rewrite E2, Ebs.
      split_and!; [by constructor | by constructor | done]. }
  by apply (Hgen 0%nat).
Qed.
End one_side.

(** No column of a key is nullable. *)
Lemma key_plain fields fs order tys : side fields true fs order tys (fun _ => false) -> fs = plain ((fun f : TypedField => f.1.1) <$> fs).
Proof.
  intros Hs. apply list_eq. intros i. unfold plain. rewrite !list_lookup_fmap. destruct (fs !! i) as [f |] eqn:Ef; [| done]. cbn. f_equal.
  assert (is_Some (order !! i)) as [a Ea] by (apply lookup_lt_is_Some; rewrite <- (si_len _ _ _ _ _ _ Hs); by eapply lookup_lt_Some).
  destruct (si_attr _ _ _ _ _ _ Hs i a Ea) as (fi & ix & _ & _ & _ & _ & _ & Efs). rewrite Ef in Efs. injection Efs as ->. cbn.
  pose proof (fo_null _ (si_ok _ _ _ _ _ _ Hs)) as Hn. rewrite forallb_forall in Hn.
  specialize (Hn _ (proj1 (list_elem_of_In _ _) (list_elem_of_lookup_2 _ _ _ Ef))). by destruct ix.
Qed.

Lemma build_key_ok desc fs order tys row data :
  side (tb_fields desc) true fs order tys (fun _ => false) -> tb_key_desc desc = desc_of fs 1 ->
  data.*1 ≡ₚ order -> Forall (given tys row) data ->
  exists vs, Forall2 (fun a v => row a = Value v) order vs /\ all_ok fs vs /\
  (tuple_fits fs (Value <$> vs) -> build_key_tuple data desc = Ok (encode fs (Value <$> vs) (null_bits fs (Value <$> vs)))).
Proof.
  intros Hs Ed Hp Hg. destruct (fst_perm_inv data order Hp) as (data' & Pd & E1).
  destruct (given_values desc true fs order tys _ Hs row data' E1 ltac:(by rewrite Pd)) as (vs & Hr & Ha & E2).
  exists vs. split_and!; [done | done |]. intros Hm. unfold build_key_tuple, build_tuple_for.
  rewrite (sorted_values_ok desc true fs order tys _ Hs data data' ltac:(by symmetry) E1). cbn [mbind res_bind]. rewrite Ed, desc_count, E2.
  assert (zlen fs = zlen (sent_all fs vs)) as El.
  { clear -Ha. induction Ha as [| [[ty nl] ix] v fs vs Hv Ha IH]; [done |]. cbn [sent_all]. by rewrite !zlen_cons, IH. }
  rewrite El, Z.eqb_refl. cbn [negb andb]. pose proof (si_ok _ _ _ _ _ _ Hs) as Hok. rewrite (key_plain _ _ _ _ Hs) in *.
  by apply build_tuple_ok.
Qed.

(** ** The value tuple *)

Section value_side.
Variables (desc : TableDesc Ty) (fs : list TypedField) (order : list Z) (tys : list Ty) (nullable : Z -> bool) (row : Z -> NullableValue V).
Hypothesis Hside : side (tb_fields desc) false fs order tys nullable.

(** The columns of [A] have their values. *)
Definition partial (A : list Z) : list (option (NullableValue V)) := (fun a => if bool_decide (a ∈ A) then Some (row a) else None) <$> order.

Lemma partial_insert i a A : order !! i = Some a -> <[i := Some (row a)]> (partial A) = partial (a :: A).
Proof.
  intros Ea. apply list_eq. intros j. unfold partial. rewrite list_lookup_fmap. destruct (decide (i = j)) as [<- | Hne].
  - rewrite list_lookup_insert_eq by (rewrite length_fmap; by eapply lookup_lt_Some). rewrite Ea. cbn.
    by rewrite bool_decide_eq_true_2 by left.
  - rewrite list_lookup_insert_ne, list_lookup_fmap by done. destruct (order !! j) as [b |] eqn:Eb; [| done]. cbn. f_equal.
    assert (b <> a) as Hba by (intros ->; apply Hne; by eapply NoDup_lookup; [apply (si_nodup _ _ _ _ _ _ Hside) | ..]).
    rewrite (bool_decide_ext (b ∈ a :: A) (b ∈ A)); [done |]. rewrite elem_of_cons. naive_solver.
Qed.

Lemma complete_values_ok data : forall A, NoDup data.*1 -> (forall a, a ∈ data.*1 -> a ∈ order /\ a ∉ A) -> Forall (given tys row) data ->
  exists B, complete_values data desc (partial A) = Ok (partial B) /\ forall a, a ∈ B <-> a ∈ data.*1 \/ a ∈ A.
Proof.
  induction data as [| [a bs] data IH]; intros A Hnd Hin Hg; cbn [complete_values].
  { exists A. split; [done |]. set_solver. }
  rewrite fmap_cons in *. cbn [fst] in *. apply NoDup_cons in Hnd as [Ha Hnd]. apply Forall_cons in Hg as [(ty & v & Ety & Erow & Hv & Ebs) Hg].
  destruct (Hin a ltac:(left)) as [Hao HaA]. apply list_elem_of_lookup in Hao as [i Ei].
  destruct (si_attr _ _ _ _ _ _ Hside i a Ei) as (fi & ix & Efi & Edi & Hp & Etys & _ & _). cbn in Ety, Erow, Ebs. rewrite Ety in Etys. injection Etys as ->.
  unfold get_attr. rewrite Efi. cbn [mbind res_bind]. destruct (fi_primary_index fi); [by rewrite bool_decide_eq_true_2 in Hp |].
  rewrite Edi, Nat2Z.id. assert (partial A !! i = Some None) as Ep.
  { unfold partial. rewrite list_lookup_fmap, Ei. cbn. by rewrite bool_decide_eq_false_2. }
  rewrite Ep, Ebs. destruct (sent_ok _ _ Hv) as (_ & -> & _). cbn [map_err mbind res_bind]. rewrite <- Erow, (partial_insert i a A Ei).
  destruct (IH (a :: A)) as (B & E & HB); [done | | done |].
  { intros b Hb. destruct (Hin b ltac:(by right)) as [Hbo HbA]. split; [done |]. set_solver. }
  exists B. split; [done |]. intros b. rewrite HB. set_solver.
Qed.

(** A column without a value is NULL or has its default. *)
Definition defaulted (a : Z) : Prop :=
  if nullable a then row a = Null
  else exists ty v, tys !! Z.to_nat a = Some ty /\ type_default ty = Ok v /\ tv_ok ty v /\ row a = Value v.

Lemma complete_defaults_ok indices : forall A, (forall a, a ∈ indices -> a ∈ order) -> (forall a, a ∈ indices -> a ∉ A -> defaulted a) ->
  exists B, complete_defaults indices desc (partial A) = Ok (partial B) /\ forall a, a ∈ B <-> a ∈ indices \/ a ∈ A.
Proof.
  induction indices as [| a indices IH]; intros A Hin Hd; cbn [complete_defaults].
  { exists A. split; [done |]. set_solver. }
  destruct (list_elem_of_lookup_1 order a (Hin a ltac:(left))) as [i Ei].
  destruct (si_attr _ _ _ _ _ _ Hside i a Ei) as (fi & ix & Efi & Edi & _ & Etys & Enl & _).
  unfold get_attr. rewrite Efi. cbn [mbind res_bind]. rewrite Edi, Nat2Z.id. unfold partial at 1 2. rewrite list_lookup_fmap, Ei. cbn [fmap option_fmap option_map].
  fold (partial A). destruct (bool_decide_reflect (a ∈ A)) as [HaA | HaA].
  - destruct (IH A) as (B & E & HB); [set_solver.. |]. exists B. split; [done |]. intros b. rewrite HB. set_solver.
  - pose proof (Hd a ltac:(left) HaA) as Hdef. unfold defaulted in Hdef. rewrite Enl.
    assert ((if nullable a then Ok Null else v ← map_err to_m_err (type_default (fi_type_desc fi)); Ok (Value v)) = Ok (row a)) as ->.
    { destruct (nullable a); [by rewrite Hdef |]. destruct Hdef as (ty & v & Ety & Edv & _ & ->). rewrite Ety in Etys. injection Etys as ->. by rewrite Edv. }
    cbn [mbind res_bind]. rewrite (partial_insert i a A Ei). destruct (IH (a :: A)) as (B & E & HB); [set_solver.. |].
    exists B. split; [done |]. intros b. rewrite HB. set_solver.
Qed.

Lemma sorted_values_some data : (forall a, a ∈ data.*1 -> a ∈ order) -> exists vals, sorted_values false data desc = Ok vals.
Proof.
  intros Hin. assert (exists l, with_fields data desc = Ok l /\
    Forall (fun f : FieldInfo Ty * list byte => bool_decide (is_Some (fi_primary_index f.1)) = false) l) as (l & El & Hl).
  { induction data as [| [a bs] data IH]; [by exists [] |]. rewrite fmap_cons in Hin. destruct IH as (l & El & Hl); [set_solver |].
    destruct (list_elem_of_lookup_1 order a (Hin a ltac:(left))) as [i Ei].
    destruct (si_attr _ _ _ _ _ _ Hside i a Ei) as (fi & ix & Efi & _ & Hp & _). cbn [with_fields]. unfold get_attr. rewrite Efi. cbn [mbind res_bind].
    rewrite El. eexists. split; [reflexivity |]. by constructor. }
  unfold sorted_values. destruct data as [| [a bs] [| x data]]; [by eexists.. |]. rewrite El. cbn [mbind res_bind].
  rewrite (proj2 (forallb_forall _ _)); [by eexists |]. intros f Hf. apply list_elem_of_In in Hf. rewrite Forall_forall in Hl. by rewrite (Hl f Hf).
Qed.

Lemma partial_all A : (forall a, a ∈ order -> a ∈ A) -> mapM id (partial A) = Some (row <$> order).
Proof.
  intros HA. apply mapM_Some. unfold partial. clear Hside. induction order as [| a l IH]; [constructor |]. rewrite !fmap_cons.
  constructor; [| apply IH; set_solver].
  unfold id. by rewrite bool_decide_eq_true_2 by (apply HA; left).
Qed.

Lemma build_value_ok data : tb_value_desc desc = desc_of fs 1 -> tb_value_indices desc ≡ₚ order ->
  NoDup data.*1 -> (forall a, a ∈ data.*1 -> a ∈ order) -> Forall (given tys row) data ->
  (forall a, a ∈ order -> a ∉ data.*1 -> defaulted a) ->
  Forall2 value_ok fs (row <$> order) /\
  (tuple_fits fs (row <$> order) -> build_value_tuple data desc = Ok (encode fs (row <$> order) (null_bits fs (row <$> order)))).
Proof.
  intros Ed Ei Hnd Hin Hg Hd. assert (Forall2 value_ok fs (row <$> order)) as Hv.
  { apply Forall2_same_length_lookup_2; [rewrite length_fmap; apply (si_len _ _ _ _ _ _ Hside) |]. intros i f u Ef Eu. rewrite list_lookup_fmap in Eu.
    destruct (order !! i) as [a |] eqn:Ea; [| done]. injection Eu as <-. destruct (si_attr _ _ _ _ _ _ Hside i a Ea) as (fi & ix & _ & _ & _ & Ety & _ & Efs).
    rewrite Ef in Efs. injection Efs as ->. unfold value_ok. cbn. destruct (decide (a ∈ data.*1)) as [Ha | Ha].
    - apply list_elem_of_fmap in Ha as (x & -> & Hx). rewrite Forall_forall in Hg. destruct (Hg x Hx) as (ty & v & Ety' & -> & Hv & _). congruence.
    - pose proof (Hd a ltac:(by eapply list_elem_of_lookup_2) Ha) as Hdef. unfold defaulted in Hdef. destruct (nullable a) eqn:En.
      + rewrite Hdef. pose proof (fo_null _ (si_ok _ _ _ _ _ _ Hside)) as Hn. rewrite forallb_forall in Hn.
        specialize (Hn _ (proj1 (list_elem_of_In _ _) (list_elem_of_lookup_2 _ _ _ Ef))). destruct ix; [by eexists | done].
      + destruct Hdef as (ty & v & Ety' & _ & Hv & ->). congruence. }
  split; [done |]. intros Hm. unfold build_value_tuple, build_tuple_for. destruct (sorted_values_some data Hin) as [vals ->]. cbn [mbind res_bind andb].
  rewrite Ed, desc_count. assert (replicate (Z.to_nat (zlen fs)) None = partial []) as ->.
  { apply list_eq. intros i. unfold partial, zlen. rewrite Nat2Z.id, (si_len _ _ _ _ _ _ Hside), list_lookup_fmap.
    destruct (order !! i) as [a |] eqn:Ea; [cbn; by rewrite lookup_replicate_2 by (by eapply lookup_lt_Some) |].
    apply lookup_replicate_None. by apply lookup_ge_None in Ea. }
  destruct (complete_values_ok data []) as (A & -> & HA); [done | intros a Ha; split; [by apply Hin | set_solver] | done |]. cbn [mbind res_bind].
  destruct (complete_defaults_ok (tb_value_indices desc) A) as (B & -> & HB).
  { intros a. by rewrite Ei. }
  { intros a Ha HaA. apply Hd; [by rewrite <- Ei |]. set_solver. }
  cbn [mbind res_bind]. rewrite (partial_all B) by (intros a Ha; apply HB; left; by rewrite Ei).
  apply build_nullable_ok; [apply (si_ok _ _ _ _ _ _ Hside) | done | done].
Qed.
End value_side.

(** ** Projection *)

(** The bytes of a column; [None] for NULL. *)
Definition column_bytes (tys : list Ty) (row : Z -> NullableValue V) (a : Z) : option (list byte) :=
  match row a, tys !! Z.to_nat a with Value v, Some ty => Some (sent ty v) | _, _ => None end.

Lemma encode_field fs us version i f v : fields_ok fs -> Forall2 value_ok fs us -> tuple_fits fs us -> fs !! i = Some f -> us !! i = Some (Value v) ->
  exists fd, get_field_desc (Z.of_nat i) (desc_of fs version) = Ok fd /\ read_binary_data fd (encode fs us (null_bits fs us)) = Ok (sent f.1.1 v).
Proof.
  intros Hok Hv Hm Ef Eu. destruct (encode_holds fs us version i v Hok Hv Hm Eu) as (fd & Efd & Hh). exists fd. split; [by apply get_field_desc_at |].
  destruct (layout_lookup fs i f (aligned_byte_len (count_nullable fs))
    (aligned_byte_len (count_nullable fs) + SLOT_SIZE * var_n fs) Ef) as (fd' & Efd' & Ety & _). cbn in Efd. simplify_eq.
  rewrite <- Ety. by apply holds_read in Hh as [_ ?].
Qed.

Section project.
Variables (desc : TableDesc Ty) (kfs vfs : list TypedField) (korder vorder : list Z) (tys : list Ty) (nullable : Z -> bool).
Variables (row : Z -> NullableValue V) (ks : list V).
Hypothesis Hkey : side (tb_fields desc) true kfs korder tys (fun _ => false).
Hypothesis Hval : side (tb_fields desc) false vfs vorder tys nullable.
Hypothesis Hkd : tb_key_desc desc = desc_of kfs 1.
Hypothesis Hvd : tb_value_desc desc = desc_of vfs 1.
Hypothesis Hks : Forall2 (fun a v => row a = Value v) korder ks.
Hypothesis Hkok : all_ok kfs ks.
Hypothesis Hvok : Forall2 value_ok vfs (row <$> vorder).
Hypothesis Hkm : tuple_fits kfs (Value <$> ks).
Hypothesis Hvm : tuple_fits vfs (row <$> vorder).

Lemma project_ok select : Forall (fun a => a ∈ korder ++ vorder) select ->
  project_selected_fields desc (encode kfs (Value <$> ks) (null_bits kfs (Value <$> ks)))
    (encode vfs (row <$> vorder) (null_bits vfs (row <$> vorder))) select = Ok (column_bytes tys row <$> select).
Proof.
  induction 1 as [| a select Ha Hs IH]; [done |]. cbn [project_selected_fields]. rewrite fmap_cons.
  apply elem_of_app in Ha as [Ha | Ha]; apply list_elem_of_lookup in Ha as [i Ea].
  - destruct (si_attr _ _ _ _ _ _ Hkey i a Ea) as (fi & ix & Efi & Edi & Hp & Ety & _ & Efs). unfold get_attr. rewrite Efi. cbn [mbind res_bind].
    destruct (fi_primary_index fi); [| by rewrite bool_decide_eq_false_2 in Hp by (by intros [])].
    destruct (Forall2_lookup_l _ _ _ _ _ Hks Ea) as (v & Ev & Erow). rewrite Edi, Hkd.
    destruct (encode_field kfs (Value <$> ks) 1 i _ v (si_ok _ _ _ _ _ _ Hkey) (all_ok_value _ _ Hkok) Hkm Efs) as (fd & -> & Er);
      [by rewrite list_lookup_fmap, Ev |]. cbn [mbind res_bind]. rewrite Er. cbn [mbind res_bind]. rewrite IH. cbn [mbind res_bind].
    unfold column_bytes. by rewrite Erow, Ety.
  - destruct (si_attr _ _ _ _ _ _ Hval i a Ea) as (fi & ix & Efi & Edi & Hp & Ety & _ & Efs). unfold get_attr. rewrite Efi. cbn [mbind res_bind].
    destruct (fi_primary_index fi); [by rewrite bool_decide_eq_true_2 in Hp |]. rewrite Edi, Hvd.
    assert ((row <$> vorder) !! i = Some (row a)) as Eu by (by rewrite list_lookup_fmap, Ea).
    rewrite (encode_null vfs (row <$> vorder) 1 i (row a) (si_ok _ _ _ _ _ _ Hval) Hvok Eu). cbn [mbind res_bind].
    unfold column_bytes at 1. destruct (row a) as [| v] eqn:Erow; [by rewrite IH |].
    destruct (encode_field vfs (row <$> vorder) 1 i _ v (si_ok _ _ _ _ _ _ Hval) Hvok Hvm Efs) as (fd & -> & Er); [done |].
    cbn [mbind res_bind]. rewrite Er. cbn [mbind res_bind]. rewrite IH. cbn [mbind res_bind]. by rewrite Ety.
Qed.
End project.

(** The bytes of some columns. *)
Definition row_bytes (tys : list Ty) (row : Z -> NullableValue V) (attrs : list Z) : Z :=
  foldr (fun a n => zlen (default [] (column_bytes tys row a)) + n) 0 attrs.

Lemma row_bytes_perm tys row l l' : l ≡ₚ l' -> row_bytes tys row l = row_bytes tys row l'.
Proof. unfold row_bytes. induction 1; cbn [foldr]; lia. Qed.

Lemma data_bytes fields is_key fs order tys nullable row us : side fields is_key fs order tys nullable -> Forall2 (fun a u => row a = u) order us ->
  zlen (enc_data fs us) <= row_bytes tys row order.
Proof.
  intros Hs Hu. assert (forall i, zlen (enc_data (drop i fs) (drop i us)) <= row_bytes tys row (drop i order)) as Hg; [| apply (Hg 0%nat)].
  intros i. remember (length order - i)%nat as m eqn:Em. revert i Em. induction m as [| m IH]; intros i Em.
  { rewrite (drop_ge fs) by (rewrite (si_len _ _ _ _ _ _ Hs); lia). rewrite (drop_ge order) by lia. done. }
  destruct (lookup_lt_is_Some_2 order i ltac:(lia)) as [a Ea]. destruct (si_attr _ _ _ _ _ _ Hs i a Ea) as (fi & ix & _ & _ & _ & Ety & _ & Efs).
  destruct (Forall2_lookup_l _ _ _ _ _ Hu Ea) as (u & Eu & Erow). rewrite (drop_S fs _ _ Efs), (drop_S us _ _ Eu), (drop_S order _ _ Ea).
  specialize (IH (S i) ltac:(lia)). cbn [enc_data row_bytes foldr]. fold (row_bytes tys row (drop (S i) order)).
  pose proof (zlen_nonneg (default [] (column_bytes tys row a))). unfold column_bytes in *. rewrite Erow, Ety in *. destruct (flen _), u; cbn in *; rewrite ?zlen_app; lia.
Qed.

(** ** Stored rows *)

(** The two tuples of a row. *)
Inductive stored_row (desc : TableDesc Ty) (columns : list (SchemaColumn Ty)) (ki vi : list Z) (tys : list Ty) (row : Z -> NullableValue V) :
    list byte -> list byte -> Prop :=
| stored_intro kfs korder ks vfs vorder :
    side (tb_fields desc) true kfs korder tys (fun _ => false) -> side (tb_fields desc) false vfs vorder tys (col_nullable columns) ->
    tb_key_desc desc = desc_of kfs 1 -> tb_value_desc desc = desc_of vfs 1 -> korder ≡ₚ ki -> vorder ≡ₚ vi ->
    Forall2 (fun a v => row a = Value v) korder ks -> all_ok kfs ks -> tuple_fits kfs (Value <$> ks) ->
    Forall2 value_ok vfs (row <$> vorder) -> tuple_fits vfs (row <$> vorder) ->
    stored_row desc columns ki vi tys row (encode kfs (Value <$> ks) (null_bits kfs (Value <$> ks)))
      (encode vfs (row <$> vorder) (null_bits vfs (row <$> vorder))).

(** The values given for the columns of a row. *)
Record inserts (columns : list (SchemaColumn Ty)) (ki vi : list Z) (tys : list Ty) (row : Z -> NullableValue V) (kdata vdata : list (Z * list byte)) : Prop := mk_inserts {
  in_key : kdata.*1 ≡ₚ ki;
  in_key_given : Forall (given tys row) kdata;
  in_nodup : NoDup vdata.*1;
  in_value a : a ∈ vdata.*1 -> a ∈ vi;
  in_value_given : Forall (given tys row) vdata;
  in_default a : a ∈ vi -> a ∉ vdata.*1 -> defaulted tys (col_nullable columns) row a;
}.

(** A row that fits into the two tuples. *)
Definition row_fits (desc : TableDesc Ty) (ki vi : list Z) (tys : list Ty) (row : Z -> NullableValue V) : Prop :=
  min_tuple_size (tb_key_desc desc) + row_bytes tys row ki <= U32_MAX /\ min_tuple_size (tb_value_desc desc) + row_bytes tys row vi <= U32_MAX.

Lemma row_stored default_type oid name columns ki vi tys : schema_ok columns ki vi tys -> exists s desc,
  SchemaTable_new_with_oid oid name columns ki vi = Ok s /\ table_desc_of default_type s = Ok desc /\
  forall row kdata vdata, inserts columns ki vi tys row kdata vdata -> row_fits desc ki vi tys row ->
  exists key value, build_key_tuple kdata desc = Ok key /\ build_value_tuple vdata desc = Ok value /\ stored_row desc columns ki vi tys row key value.
Proof.
  intros Hs. destruct (table_sides default_type oid name columns ki vi tys Hs)
    as (s & desc & kfs & korder & vfs & vorder & Es & Ed & Ekd & Evd & Eki & Evi & Pk & Pv & Sk & Sv).
  exists s, desc. split_and!; [done | done |]. intros row kdata vdata [Hk Hkg Hnd Hin Hvg Hd]. unfold row_fits. rewrite Ekd, Evd, !desc_min. intros [Hkm Hvm].
  destruct (build_key_ok desc kfs korder tys row kdata Sk Ekd ltac:(by rewrite Pk) Hkg) as (vs & Hvs & Hok & Bk).
  destruct (build_value_ok desc vfs vorder tys _ row Sv vdata Evd) as [Hvok Bv]; [by rewrite Evi, Pv | done | | done | |].
  { intros a Ha. rewrite Pv. by apply Hin. }
  { intros a Ha. rewrite Pv in Ha. by apply Hd. }
  assert (tuple_fits kfs (Value <$> vs)) as Fk.
  { unfold tuple_fits. pose proof (data_bytes _ _ _ _ _ _ row (Value <$> vs) Sk ltac:(by apply Forall2_fmap_r)) as Hb.
    rewrite (row_bytes_perm _ _ _ _ Pk) in Hb. lia. }
  assert (tuple_fits vfs (row <$> vorder)) as Fv.
  { unfold tuple_fits. pose proof (data_bytes _ _ _ _ _ _ row (row <$> vorder) Sv ltac:(by apply Forall2_fmap_r, Forall_Forall2_diag, Forall_forall)) as Hb.
    rewrite (row_bytes_perm _ _ _ _ Pv) in Hb. lia. }
  eexists _, _. split; [by apply Bk |]. split; [by apply Bv |]. by econstructor.
Qed.

Lemma stored_ext desc columns ki vi tys row row' key value : (forall a, row a = row' a) ->
  stored_row desc columns ki vi tys row key value -> stored_row desc columns ki vi tys row' key value.
Proof.
  intros E [kfs korder ks vfs vorder Sk Sv Ekd Evd Pk Pv Hks Hok Fk Hvok Fv].
  assert (row <$> vorder = row' <$> vorder) as Er by (apply list_fmap_ext; auto). rewrite Er in *. econstructor; try done.
  eapply Forall2_impl; [exact Hks |]. intros a v. cbn. by rewrite E.
Qed.

Lemma stored_project desc columns ki vi tys row key value select : stored_row desc columns ki vi tys row key value ->
  Forall (fun a => a ∈ ki ++ vi) select -> project_selected_fields desc key value select = Ok (column_bytes tys row <$> select).
Proof.
  intros [kfs korder ks vfs vorder Sk Sv Ekd Evd Pk Pv Hks Hok Fk Hvok Fv] Hsel.
  eapply project_ok; [done.. |]. eapply Forall_impl; [exact Hsel |]. intros a. cbn. by rewrite Pk, Pv.
Qed.

(** The expected bytes of a key column [a] are compared with the column [b] that
    has the place in the key tuple that [a] has in the primary key. *)
Lemma stored_prefix_at desc columns ki vi tys row key value a b fa fb bs prefix : stored_row desc columns ki vi tys row key value -> b ∈ ki ->
  get_attr a desc = Ok fa -> get_attr b desc = Ok fb -> fi_primary_index fa = Some (fi_datum_index fb) ->
  matches_prefix desc key ((a, bs) :: prefix) = if bool_decide (column_bytes tys row b = Some bs) then matches_prefix desc key prefix else Ok false.
Proof.
  intros [kfs korder ks vfs vorder Sk Sv Ekd Evd Pk Pv Hks Hok Fk Hvok Fv] Hb Efa Efb Hp. cbn [matches_prefix].
  rewrite Efa. cbn [mbind res_bind]. rewrite Hp, Ekd. rewrite <- Pk in Hb. apply list_elem_of_lookup in Hb as [i Eb].
  destruct (si_attr _ _ _ _ _ _ Sk i b Eb) as (fi' & ix & Efi' & Edi & _ & Ety & _ & Efs). unfold get_attr in Efb. rewrite Efi' in Efb. injection Efb as ->.
  destruct (Forall2_lookup_l _ _ _ _ _ Hks Eb) as (v & Ev & Erow). rewrite Edi.
  destruct (encode_field kfs (Value <$> ks) 1 i _ v (si_ok _ _ _ _ _ _ Sk) (all_ok_value _ _ Hok) Fk Efs) as (fd & -> & Er);
    [by rewrite list_lookup_fmap, Ev |]. cbn [mbind res_bind]. rewrite Er. cbn [mbind res_bind].
  rewrite (bool_decide_ext (column_bytes tys row b = Some bs) (sent (fi_type_desc fb) v = bs)) by (unfold column_bytes; rewrite Erow, Ety; naive_solver).
  done.
Qed.

(** The expected bytes of a prefix of the key, whose columns are in the order
    of the key tuple. *)
Lemma stored_prefix desc columns ki vi tys row key value prefix : stored_row desc columns ki vi tys row key value ->
  Forall (fun x : Z * list byte => x.1 ∈ ki /\ exists fi, get_attr x.1 desc = Ok fi /\ fi_primary_index fi = Some (fi_datum_index fi)) prefix ->
  matches_prefix desc key prefix = Ok (forallb (fun x => bool_decide (column_bytes tys row x.1 = Some x.2)) prefix).
Proof.
  intros Hst. induction 1 as [| [a bs] prefix (Ha & fi & Efi & Hp) Hpre IH]; [done |]. cbn [forallb fst snd] in *.
  rewrite (stored_prefix_at _ _ _ _ _ _ _ _ a a fi fi bs prefix Hst Ha Efi Efi Hp). by case_bool_decide.
Qed.
End rows.

(** ** Updates *)

Section updates.
Context {Ty V : Type} `{TypeFnsOk Ty V} `{PackagesOk}.

Notation TypedField := (Ty * bool * option Z)%type.
Implicit Types (fs : list TypedField) (us : list (NullableValue V)) (data : list (Z * list byte)) (fi : FieldInfo Ty).

Notation tuple_of fs us := (encode fs us (null_bits fs us)).

Lemma enc_data_fixed fs : forall us i ty nl ix n u, fs !! i = Some (ty, nl, ix) -> flen ty = Some n -> enc_data fs (<[i := u]> us) = enc_data fs us.
Proof.
  induction fs as [| [[ty' nl'] ix'] fs IH]; intros [| u' us] [| i] ty nl ix n u Ef En; try done.
  - cbn in Ef. injection Ef as -> -> ->. cbn. by rewrite En.
  - change (<[S i := u]> (u' :: us)) with (u' :: <[i := u]> us). cbn [enc_data]. by rewrite (IH us i ty nl ix n u).
Qed.

(** A column of fixed length is updated in place, whatever tuple its update
    was computed for. *)
Lemma update_fixed_at fs us version i ty nl ix n v w current : fields_ok fs -> Forall2 value_ok fs us -> tuple_fits fs us ->
  fs !! i = Some (ty, nl, ix) -> us !! i = Some (Value v) -> flen ty = Some n -> tv_ok ty w -> exists ds,
  update_tuple (Z.of_nat i) (sent ty w) (desc_of fs version) current = Ok ds /\
  apply_deltas ds (tuple_of fs us) = Ok (tuple_of fs (<[i := Value w]> us)) /\
  Forall2 value_ok fs (<[i := Value w]> us) /\ tuple_fits fs (<[i := Value w]> us).
Proof.
  intros Hok Hv Hm Ef Eu En Hw. assert (Forall2 value_ok fs (<[i := Value w]> us)) as Hv'.
  { rewrite <- (list_insert_id fs i _ Ef). by apply Forall2_insert. }
  assert (tuple_fits fs (<[i := Value w]> us)) as Hm' by (unfold tuple_fits in *; by erewrite enc_data_fixed).
  apply list_elem_of_split_length in Ef as (fs1 & fs2 & -> & ->). apply list_elem_of_split_length in Eu as (us1 & us2 & -> & El).
  destruct (update_fixed fs1 fs2 ty nl ix us1 version Hok El n v w us2 En Hv Hw Hm) as (ds & E1 & E2). exists ds.
  rewrite insert_app_r_alt, El, Nat.sub_diag in * by lia. split_and!; [| done | done | done].
  unfold zlen in E1. rewrite <- E1. unfold update_tuple. rewrite El. fold (zlen fs1).
  replace (Z.of_nat (length us1)) with (zlen fs1) by (unfold zlen; lia). by rewrite (field_desc_here fs1 fs2 ty nl ix us1 version), En.
Qed.

Section row.
Variables (desc : TableDesc Ty) (fs : list TypedField).
Hypothesis Hok : fields_ok fs.
Hypothesis Hdesc : tb_value_desc desc = desc_of fs 1.

(** The update of one column of [us], with the value it has in [us']. *)
Definition updates us us' (f : FieldInfo Ty * list byte) : Prop := exists i ty nl ix n v w,
  fi_datum_index f.1 = Z.of_nat i /\ fs !! i = Some (ty, nl, ix) /\ flen ty = Some n /\ us !! i = Some (Value v) /\
  us' !! i = Some (Value w) /\ tv_ok ty w /\ f.2 = sent ty w.

Lemma update_fields_ok current us' fields : forall us, length us = length us' -> Forall2 value_ok fs us -> tuple_fits fs us ->
  Forall (updates us us') fields -> (forall i : nat, Z.of_nat i ∉ fi_datum_index <$> fields.*1 -> us !! i = us' !! i) ->
  update_fields desc current fields (tuple_of fs us) = Ok (tuple_of fs us') /\ Forall2 value_ok fs us' /\ tuple_fits fs us'.
Proof.
  induction fields as [| [fi bs] fields IH]; intros us El Hv Hm Hu Hsame.
  { assert (us = us') as <- by (apply list_eq; intros i; apply Hsame; set_solver). done. }
  apply Forall_cons in Hu as [(i & ty & nl & ix & n & v & w & Ei & Ef & En & Eu & Eu' & Hw & Ebs) Hu]. cbn [fst snd] in Ei, Ebs.
  destruct (update_fixed_at fs us 1 i ty nl ix n v w current Hok Hv Hm Ef Eu En Hw) as (ds & E1 & E2 & Hv' & Hm').
  cbn [update_fields]. rewrite Hdesc, Ei, Ebs, E1. cbn [mbind res_bind]. rewrite E2. cbn [mbind res_bind]. apply IH; [by rewrite length_insert | done | done | |].
  - eapply Forall_impl; [exact Hu |]. intros f (j & ty' & nl' & ix' & n' & v' & w' & Ej & Ef' & En' & Euj & Euj' & ?).
    destruct (decide (i = j)) as [<- |].
    + exists i, ty', nl', ix', n', w, w'. rewrite list_lookup_insert_eq by (by eapply lookup_lt_Some). done.
    + exists j, ty', nl', ix', n', v', w'. rewrite list_lookup_insert_ne by done. done.
  - intros j Hj. destruct (decide (i = j)) as [<- |].
    + by rewrite list_lookup_insert_eq by (by eapply lookup_lt_Some).
    + rewrite list_lookup_insert_ne by done. apply Hsame. cbn. rewrite Ei. set_solver by lia.
Qed.

Variables (order : list Z) (tys : list Ty) (nullable : Z -> bool) (row row' : Z -> NullableValue V).
Hypothesis Hside : side (tb_fields desc) false fs order tys nullable.

(** A value of a column of fixed length that is not NULL. *)
Definition fixed_column (a : Z) : Prop := a ∈ order /\ row a <> Null /\ exists ty, tys !! Z.to_nat a = Some ty /\ flen ty <> None.

Lemma with_fields_updates data : Forall (given tys row') data -> Forall fixed_column data.*1 -> exists fields,
  with_fields data desc = Ok fields /\ Forall (updates (row <$> order) (row' <$> order)) fields /\
  (forall i a, order !! i = Some a -> Z.of_nat i ∉ fi_datum_index <$> fields.*1 -> a ∉ data.*1).
Proof.
  intros Hg. induction Hg as [| [a bs] data (ty & w & Ety & Erow' & Hw & Ebs) Hg IH]; intros Hf.
  { exists []. split_and!; [done | constructor |]. set_solver. }
  rewrite fmap_cons in Hf. apply Forall_cons in Hf as [(Ha & Hrow & ty' & Ety' & En) Hf]. cbn in *. rewrite Ety in Ety'. injection Ety' as <-.
  destruct (IH Hf) as (fields & E & Hu & Hsame). apply list_elem_of_lookup in Ha as [i Ei].
  destruct (si_attr _ _ _ _ _ _ Hside i a Ei) as (fi & ix & Efi & Edi & _ & Etys & _ & Efs). rewrite Ety in Etys. injection Etys as ->.
  unfold get_attr. rewrite Efi. cbn [mbind res_bind]. rewrite E. cbn [mbind res_bind]. exists ((fi, bs) :: fields). split_and!; [done | |].
  - constructor; [| done]. destruct (flen (fi_type_desc fi)) as [n |] eqn:Efl; [| done]. destruct (row a) as [| v] eqn:Er; [done |].
    exists i, (fi_type_desc fi), (nullable a), ix, n, v, w. rewrite !list_lookup_fmap, Ei. cbn. rewrite Er, Erow'. done.
  - intros j b Ej. rewrite !fmap_cons, not_elem_of_cons. cbn [fst]. intros [Hj1 Hj2]. rewrite not_elem_of_cons. split; [| by apply (Hsame j)].
    intros ->. apply Hj1. rewrite Edi. f_equal. by eapply NoDup_lookup; [apply (si_nodup _ _ _ _ _ _ Hside) | ..].
Qed.

Lemma apply_value_update_ok data : Forall2 value_ok fs (row <$> order) -> tuple_fits fs (row <$> order) ->
  Forall (given tys row') data -> Forall fixed_column data.*1 -> (forall a, a ∈ order -> a ∉ data.*1 -> row' a = row a) ->
  apply_value_update (tuple_of fs (row <$> order)) data desc = Ok (tuple_of fs (row' <$> order)) /\
  Forall2 value_ok fs (row' <$> order) /\ tuple_fits fs (row' <$> order).
Proof.
  intros Hv Hm Hg Hf Hsame. destruct (with_fields_updates data Hg Hf) as (fields & E & Hu & Hout). unfold apply_value_update. rewrite E. cbn [mbind res_bind].
  set (key := fun f : FieldInfo Ty * list byte => fi_datum_index f.1). pose proof (sort_by_perm key fields) as Hp.
  apply update_fields_ok; [by rewrite !length_fmap | done | done | by rewrite Hp |].
  intros i Hi. rewrite !list_lookup_fmap. destruct (order !! i) as [a |] eqn:Ea; [| done]. cbn. f_equal. symmetry.
  apply Hsame; [by eapply list_elem_of_lookup_2 |]. apply (Hout i a Ea). by rewrite <- Hp.
Qed.
End row.

(** A stored row with some of its columns updated. *)
Lemma stored_update desc columns ki vi tys row row' key value data : stored_row desc columns ki vi tys row key value ->
  Forall (given tys row') data -> Forall (fixed_column vi tys row) data.*1 -> (forall a, a ∉ data.*1 -> row' a = row a) -> (forall a, a ∈ ki -> a ∉ vi) ->
  exists value', apply_value_update value data desc = Ok value' /\ stored_row desc columns ki vi tys row' key value'.
Proof.
  intros [kfs korder ks vfs vorder Sk Sv Ekd Evd Pk Pv Hks Hok Fk Hvok Fv] Hg Hf Hsame Hkv.
  assert (Forall (fixed_column vorder tys row) data.*1) as Hf'.
  { eapply Forall_impl; [exact Hf |]. intros a. unfold fixed_column. by rewrite Pv. }
  destruct (apply_value_update_ok desc vfs (si_ok _ _ _ _ _ _ Sv) Evd vorder tys _ row row' Sv data Hvok Fv Hg Hf') as (E & Hvok' & Fv'); [by auto |].
  eexists. split; [exact E |]. econstructor; [done.. | | done | done | done | done]. apply Forall2_same_length_lookup_2; [by eapply Forall2_length |].
  intros i a v Ea Ev. rewrite <- (Forall2_lookup_lr _ _ _ _ _ _ Hks Ea Ev). apply Hsame. apply list_elem_of_lookup_2 in Ea as Ha. rewrite Pk in Ha. intros Hin. rewrite Forall_forall in Hf. by apply (Hkv a Ha), (Hf a).
Qed.
End updates.
