(* ===== verification/DeltaProperties.v ===== *)
(** * Expression updates on stored rows

    The value of an expression update is computed on the stored row, checked
    against the range of the column's type and written in place. *)

From S2P Require Import Prelude Errors Compat Snapshots Versions Histories LogFrame TxState Tuples TupleLayout TupleProperties DataTypes DataTypeLaws Tables Deltas TableProperties RowProperties.

(** What an operation does to integers, without a bound. *)
Definition delta_int (op : DeltaOp) (current literal : Z) : Z :=
  match op with DAdd | DAddDeferred => current + literal | _ => current - literal end.

(** The new value, unless it is out of the range of the type. *)
Definition delta_value (ty : DataType) (op : DeltaOp) (current literal : DataValue) : option DataValue :=
  match dt_id ty, current, literal with
  | TfI32, VI32 c, VI32 n => VI32 <$> checked_signed 4 (delta_int op c n)
  | TfI64, VI64 c, VI64 n => VI64 <$> checked_signed 8 (delta_int op c n)
  | TfI128, VI128 c, VI128 n => VI128 <$> checked_signed 16 (delta_int op c n)
  | TfU128, VU128 c, VU128 n => VU128 <$> checked_unsigned 16 (delta_int op c n)
  | _, _, _ => None
  end.

Definition is_integer (ty : DataType) : bool :=
  match dt_id ty with TfI32 | TfI64 | TfI128 | TfU128 => true | _ => false end.

(** The integer of a value and the value of an integer, for [INT] and [BIGINT]. *)
Definition int_value (ty : DataType) (z : Z) : DataValue := match dt_id ty with TfI32 => VI32 z | _ => VI64 z end.

(** The restock of a quantity: it is lowered by [q], modulo [wrap]. *)
Definition restock (floor wrap q c : Z) : Z := (c - floor - q) mod wrap + floor.

Lemma restock_range floor wrap q c : 0 < wrap -> floor <= restock floor wrap q c < floor + wrap.
Proof. intros Hw. unfold restock. pose proof (Z.mod_pos_bound (c - floor - q) wrap Hw). lia. Qed.

Lemma restock_restock floor wrap q1 q2 c : restock floor wrap q2 (restock floor wrap q1 c) = restock floor wrap (q1 + q2) c.
Proof.
  unfold restock. f_equal. replace (c - floor - (q1 + q2)) with ((c - floor - q1) - q2) by lia.
  replace ((c - floor - q1) mod wrap + floor - floor - q2) with ((c - floor - q1) mod wrap - q2) by lia. apply Zminus_mod_idemp_l.
Qed.

Lemma checked_signed_ok n z r : checked_signed n z = Some r <-> r = z /\ in_signed n z.
Proof.
  unfold checked_signed, in_signed. destruct (Z.leb_spec (- (256 ^ Z.of_nat n / 2)) z), (Z.ltb_spec z (256 ^ Z.of_nat n / 2)); cbn [andb]; naive_solver lia.
Qed.

Lemma checked_unsigned_ok n z r : checked_unsigned n z = Some r <-> r = z /\ in_unsigned n z.
Proof.
  unfold checked_unsigned, in_unsigned. destruct (Z.leb_spec 0 z), (Z.ltb_spec z (256 ^ Z.of_nat n)); cbn [andb]; naive_solver lia.
Qed.

Section deltas.
Context `{PackagesOk}.

Lemma delta_value_ok ty op v n r : delta_value ty op v n = Some r -> dv_ok ty r /\ flen ty <> None.
Proof.
  destruct ty as [id p]. unfold delta_value, dv_ok. cbn [dt_id].
  destruct id, v; try done; destruct n; try done; intros (z & [-> Hz]%checked_signed_ok & ->)%fmap_Some || intros (z & [-> Hz]%checked_unsigned_ok & ->)%fmap_Some;
    by split.
Qed.

Lemma recv_sent ty v : dv_ok ty v -> recv_binary (sent ty v) ty = Ok v.
Proof. intros Hv. pose proof (sent_ok ty v) as Hs. destruct (Hs Hv) as (_ & E & _). unfold recv_binary. cbn in E. by rewrite E. Qed.

Lemma send_sent ty v : dv_ok ty v -> send_binary v ty = Ok (sent ty v).
Proof. intros Hv. pose proof (sent_ok ty v) as Hs. destruct (Hs Hv) as (E & _). exact E. Qed.

(** A stored column is read with its type. *)
Lemma stored_column desc columns ki vi tys row key value a v : stored_row desc columns ki vi tys row key value -> a ∈ vi -> row a = Value v ->
  exists fi fd, get_attr a desc = Ok fi /\ tys !! Z.to_nat a = Some (fi_type_desc fi) /\ dv_ok (fi_type_desc fi) v /\
  read_value value (tb_value_desc desc) (fi_datum_index fi) = Ok (Value v) /\ get_field_desc (fi_datum_index fi) (tb_value_desc desc) = Ok fd /\
  read_binary_data fd value = Ok (sent (fi_type_desc fi) v).
Proof.
  intros [kfs korder ks vfs vorder Sk Sv Ekd Evd Pk Pv Hks Hok Fk Hvok Fv] Ha Erow. rewrite <- Pv in Ha. apply list_elem_of_lookup in Ha as [i Ea].
  destruct (si_attr _ _ _ _ _ _ Sv i a Ea) as (fi & ix & Efi & Edi & _ & Ety & _ & Efs).
  assert ((row <$> vorder) !! i = Some (Value v)) as Eu by (by rewrite list_lookup_fmap, Ea; cbn; rewrite Erow).
  destruct (encode_field vfs (row <$> vorder) 1 i _ v (si_ok _ _ _ _ _ _ Sv) Hvok Fv Efs Eu) as (fd & Efd & Er).
  pose proof (Forall2_lookup_lr _ _ _ _ _ _ Hvok Efs Eu) as Hv. exists fi, fd. unfold get_attr. rewrite Efi, Edi, Evd.
  split_and!; [done | done | exact Hv | | done | done]. by apply (encode_read vfs (row <$> vorder) 1 i (Value v) (si_ok _ _ _ _ _ _ Sv)).
Qed.

Lemma int_delta_ok ty op v n : is_integer ty = true -> dv_ok ty v -> dv_ok ty n -> op <> DSubWrapDeferred ->
  match dt_id ty with
  | TfI32 => int_delta op expect_i32 (checked_signed 4) VI32 v n
  | TfI64 => int_delta op expect_i64 (checked_signed 8) VI64 v n
  | TfI128 => int_delta op expect_i128 (checked_signed 16) VI128 v n
  | TfU128 => int_delta op expect_u128 (checked_unsigned 16) VU128 v n
  | _ => Err InvalidType
  end = match delta_value ty op v n with Some r => Ok r | None => Err InvalidTuple end.
Proof.
  destruct ty as [id p]. unfold is_integer, dv_ok, delta_value. cbn [dt_id]. intros Hi Hv Hn Hop.
  destruct id; try done; destruct v; try done; destruct n; try done; unfold int_delta; cbn [expect_i32 expect_i64 expect_i128 expect_u128 map_err mbind res_bind];
    destruct op; try done; cbn [delta_int mbind res_bind]; by case_match.
Qed.

Lemma eval_delta_ok desc columns ki vi tys row key value a ty op v n : stored_row desc columns ki vi tys row key value -> a ∈ vi -> row a = Value v ->
  tys !! Z.to_nat a = Some ty -> is_integer ty = true -> dv_ok ty n -> op <> DSubWrapDeferred ->
  eval_delta_assignment value (mkDeltaAssign a op (sent ty n)) desc =
    match delta_value ty op v n with Some r => Ok (sent ty r) | None => Err InvalidTuple end.
Proof.
  intros Hst Ha Erow Ety Hi Hn Hop. destruct (stored_column _ _ _ _ _ _ _ _ a v Hst Ha Erow) as (fi & fd & Efi & Ety' & Hv & Erv & Efd & Er).
  rewrite Ety in Ety'. injection Ety' as ->. unfold eval_delta_assignment. cbn [da_attr da_op da_literal]. rewrite Efi. cbn [mbind res_bind].
  rewrite Erv. cbn [mbind res_bind]. rewrite Efd. cbn [mbind res_bind]. rewrite Er. cbn [mbind res_bind].
  rewrite !recv_sent by done. cbn [map_err mbind res_bind]. assert (match op with DSubWrapDeferred => true | _ => false end = false) as -> by (by destruct op).
  rewrite int_delta_ok by done. destruct (delta_value (fi_type_desc fi) op v n) as [r |] eqn:Ed; [| done]. cbn [mbind res_bind].
  apply delta_value_ok in Ed as [Hr _]. by rewrite send_sent.
Qed.

(** A restock keeps the quantity in its range. *)
Lemma eval_sub_wrap_ok ty literal q floor wrap c : dt_id ty = TfI32 \/ dt_id ty = TfI64 -> decode_sub_wrap_literal literal = Ok (q, floor, wrap) ->
  floor < wrap -> floor <= c < floor + wrap -> 0 <= q <= wrap ->
  dv_ok ty (int_value ty (floor - wrap)) -> dv_ok ty (int_value ty (floor + wrap)) ->
  eval_sub_wrap (int_value ty c) ty literal = Ok (sent ty (int_value ty (restock floor wrap q c))) /\ dv_ok ty (int_value ty (restock floor wrap q c)).
Proof.
  intros Hid El Hw Hc Hq Hlo Hhi. assert (floor <= restock floor wrap q c < floor + wrap) as Hr.
  { apply restock_range. lia. }
  assert ((if c - q <? floor then c - q + wrap else c - q) = restock floor wrap q c) as Er.
  { unfold restock. destruct (Z.ltb_spec (c - q) floor).
    - replace (c - floor - q) with (c - floor - q + wrap + (-1) * wrap) by lia. rewrite Z.mod_add, Z.mod_small by lia. lia.
    - rewrite Z.mod_small by lia. lia. }
  assert (forall z, floor - wrap <= z <= floor + wrap -> dv_ok ty (int_value ty z) /\ in_signed 8 z) as Hin.
  { intros z Hz. unfold dv_ok, int_value, in_signed in *. destruct Hid as [Hid | Hid]; rewrite Hid in *; change (256 ^ Z.of_nat 8 / 2) with (2 ^ 63); change (256 ^ Z.of_nat 8 / 2) with (2 ^ 63) in *; change (256 ^ Z.of_nat 4 / 2) with (2 ^ 31) in *; lia. }
  assert (dv_ok ty (int_value ty (restock floor wrap q c))) as Hok by (apply Hin; lia). split; [| done].
  unfold eval_sub_wrap. rewrite El. cbn [mbind res_bind]. rewrite (proj2 (Z.leb_gt _ _)) by done.
  assert (checked_signed 8 (c - q) = Some (c - q)) as E1 by (apply checked_signed_ok; split; [done | apply Hin; lia]).
  destruct Hid as [Hid | Hid]; rewrite Hid; unfold int_value in *; rewrite Hid in *; cbn [expect_i32 expect_i64 map_err mbind res_bind]; rewrite E1; cbn [mbind res_bind].
  - assert (checked_signed 4 (restock floor wrap q c) = Some (restock floor wrap q c)) as E4.
    { apply checked_signed_ok. split; [done |]. unfold dv_ok in Hok. by rewrite Hid in Hok. }
    destruct (c - q <? floor); [rewrite (proj2 (checked_signed_ok 8 (c - q + wrap) (c - q + wrap))) by (split; [done | apply Hin; lia]) |];
      rewrite Er; cbn [mbind res_bind]; rewrite E4; cbn [mbind res_bind]; by rewrite send_sent.
  - destruct (c - q <? floor); [rewrite (proj2 (checked_signed_ok 8 (c - q + wrap) (c - q + wrap))) by (split; [done | apply Hin; lia]) |];
      rewrite Er; cbn [mbind res_bind]; by rewrite send_sent.
Qed.

(** An assignment that takes the column of [row] to its value in [row']. *)
Inductive delta_takes (tys : list DataType) (row row' : Z -> NullableValue DataValue) (d : DeltaAssign) : Prop :=
| delta_arith ty v n r : tys !! Z.to_nat (da_attr d) = Some ty -> row (da_attr d) = Value v -> is_integer ty = true -> dv_ok ty n ->
    da_op d <> DSubWrapDeferred -> da_literal d = sent ty n -> delta_value ty (da_op d) v n = Some r -> row' (da_attr d) = Value r ->
    delta_takes tys row row' d
| delta_restock ty q floor wrap c : tys !! Z.to_nat (da_attr d) = Some ty -> row (da_attr d) = Value (int_value ty c) ->
    dt_id ty = TfI32 \/ dt_id ty = TfI64 -> da_op d = DSubWrapDeferred -> decode_sub_wrap_literal (da_literal d) = Ok (q, floor, wrap) ->
    floor < wrap -> floor <= c < floor + wrap -> 0 <= q <= wrap ->
    dv_ok ty (int_value ty (floor - wrap)) -> dv_ok ty (int_value ty (floor + wrap)) ->
    row' (da_attr d) = Value (int_value ty (restock floor wrap q c)) -> delta_takes tys row row' d.

Lemma eval_restock_ok desc columns ki vi tys row key value a ty literal q floor wrap c : stored_row desc columns ki vi tys row key value -> a ∈ vi ->
  tys !! Z.to_nat a = Some ty -> row a = Value (int_value ty c) ->
  dt_id ty = TfI32 \/ dt_id ty = TfI64 -> decode_sub_wrap_literal literal = Ok (q, floor, wrap) ->
  floor < wrap -> floor <= c < floor + wrap -> 0 <= q <= wrap ->
  dv_ok ty (int_value ty (floor - wrap)) -> dv_ok ty (int_value ty (floor + wrap)) ->
  eval_delta_assignment value (mkDeltaAssign a DSubWrapDeferred literal) desc = Ok (sent ty (int_value ty (restock floor wrap q c))).
Proof.
  intros Hst Ha Ety Erow Hid El Hw Hc Hq Hlo Hhi. destruct (stored_column _ _ _ _ _ _ _ _ a _ Hst Ha Erow) as (fi & fd & Efi & Ety' & Hv & Erv & Efd & Er).
  rewrite Ety in Ety'. injection Ety' as ->. unfold eval_delta_assignment. cbn [da_attr da_op da_literal]. rewrite Efi. cbn [mbind res_bind].
  rewrite Erv. cbn [mbind res_bind]. rewrite Efd. cbn [mbind res_bind]. rewrite Er. cbn [mbind res_bind].
  rewrite recv_sent by done. cbn [map_err mbind res_bind]. assert (exists w, recv_binary literal (fi_type_desc fi) = Ok w) as [w ->].
  { unfold decode_sub_wrap_literal in El. destruct (Z.eqb_spec (zlen literal) 24) as [E24 |]; [| done]. unfold recv_binary.
    destruct Hid as [-> | ->]; cbn [fn_base fb_receive FN_I32_CONVERT FN_I64_CONVERT]; unfold get_be, shorter, be_read; rewrite E24;
      cbn [Z.of_nat]; eexists; reflexivity. }
  cbn [map_err mbind res_bind]. by eapply eval_sub_wrap_ok.
Qed.

Lemma eval_ok desc columns ki vi tys row row' key value d : stored_row desc columns ki vi tys row key value -> da_attr d ∈ vi -> delta_takes tys row row' d ->
  fixed_column vi tys row (da_attr d) /\ exists bs, eval_delta_assignment value d desc = Ok bs /\ given tys row' (da_attr d, bs).
Proof.
  intros Hst Ha Hd. destruct d as [a op literal]. cbn [da_attr] in *.
  destruct Hd as [ty v n r Ety Erow Hi Hn Hop El Er Erow' | ty q floor wrap c Ety Erow Hid Hop El Hw Hc Hq Hlo Hhi Erow']; cbn [da_attr da_op da_literal] in *; subst.
  - pose proof (eval_delta_ok desc columns ki vi tys row key value a ty op v n Hst Ha Erow Ety Hi Hn Hop) as Ev. rewrite Er in Ev.
    apply delta_value_ok in Er as [Hr Hf]. split; [split_and!; [done | by rewrite Erow | by exists ty] |]. eexists. split; [exact Ev |]. by exists ty, r.
  - split; [split_and!; [done | by rewrite Erow | exists ty; split; [done |]] |].
    { unfold flen. destruct ty as [id p]. cbn in Hid. by destruct Hid as [-> | ->]. }
    eexists. split; [by eapply (eval_restock_ok desc columns ki vi tys row key value) |]. exists ty, (int_value ty (restock floor wrap q c)).
    split_and!; [done | done | | done]. by eapply eval_sub_wrap_ok.
Qed.

Lemma resolve_deltas_ok desc columns ki vi tys row row' key value deltas : stored_row desc columns ki vi tys row key value ->
  Forall (fun d => da_attr d ∈ vi /\ delta_takes tys row row' d) deltas ->
  exists resolved, resolve_deltas value deltas desc = Ok resolved /\ resolved.*1 = da_attr <$> deltas /\
  Forall (given tys row') resolved /\ Forall (fixed_column vi tys row) resolved.*1.
Proof.
  intros Hst. induction 1 as [| d deltas [Ha Hd] Hds (resolved & E & E1 & Hg & Hf)]; [by exists [] |]. cbn [resolve_deltas].
  destruct (eval_ok desc columns ki vi tys row row' key value d Hst Ha Hd) as (Hfd & bs & -> & Hgd). cbn [mbind res_bind]. rewrite E. cbn [mbind res_bind].
  exists ((da_attr d, bs) :: resolved). rewrite !fmap_cons, E1. split_and!; [done | done | by constructor |]. rewrite <- E1. by constructor.
Qed.

Lemma stored_deltas desc columns ki vi tys row row' key value values deltas : stored_row desc columns ki vi tys row key value ->
  Forall (given tys row') values -> Forall (fixed_column vi tys row) values.*1 ->
  Forall (fun d => da_attr d ∈ vi /\ delta_takes tys row row' d) deltas ->
  (forall a, a ∉ values.*1 -> a ∉ da_attr <$> deltas -> row' a = row a) -> (forall a, a ∈ ki -> a ∉ vi) ->
  exists value', apply_value_update_with_deltas value values deltas desc = Ok value' /\ stored_row desc columns ki vi tys row' key value'.
Proof.
  intros Hst Hg Hf Hd Hsame Hkv. destruct (resolve_deltas_ok desc columns ki vi tys row row' key value deltas Hst Hd) as (resolved & E & E1 & Hg' & Hf').
  destruct (stored_update desc columns ki vi tys row row' key value (values ++ resolved) Hst) as (value' & Eu & Hst').
  - by apply Forall_app.
  - rewrite fmap_app. by apply Forall_app.
  - intros a. rewrite fmap_app, E1, not_elem_of_app. intros [Ha1 Ha2]. by apply Hsame.
  - done.
  - exists value'. split; [| done]. unfold apply_value_update_with_deltas. rewrite E. destruct deltas; [| done].
    destruct resolved; [| done]. by rewrite app_nil_r in Eu.
Qed.

(** ** Deferred restocks of one row *)

(** The restocks of transactions: what each computes from the row. *)
Definition restock_updates (desc : TableDesc DataType) (a : Z) (txs : list (Timestamp * list byte)) : list (Timestamp * (list byte -> RS (list byte))) :=
  (fun tx => (tx.1, fun value => apply_value_update_with_deltas value [] [mkDeltaAssign a DSubWrapDeferred tx.2] desc)) <$> txs.

(** What the literal of a restock takes away. *)
Definition quantity (literal : list byte) : Z := match decode_sub_wrap_literal literal with Ok (q, _, _) => q | _ => 0 end.

Definition total (txs : list (Timestamp * list byte)) : Z := foldr (fun tx n => quantity tx.2 + n) 0 txs.

Lemma total_perm txs txs' : txs ≡ₚ txs' -> total txs = total txs'.
Proof. unfold total. induction 1; cbn [foldr]; lia. Qed.

(** A restock of at most [wrap]. *)
Definition restock_of (floor wrap : Z) (tx : Timestamp * list byte) : Prop :=
  exists q, decode_sub_wrap_literal tx.2 = Ok (q, floor, wrap) /\ 0 <= q <= wrap.

Definition set_column {V} (a : Z) (u : NullableValue V) (row : Z -> NullableValue V) (b : Z) : NullableValue V := if decide (b = a) then u else row b.

Lemma restocks_payload desc columns ki vi tys key a ty floor wrap txs : a ∈ vi -> (forall a, a ∈ ki -> a ∉ vi) ->
  tys !! Z.to_nat a = Some ty -> dt_id ty = TfI32 \/ dt_id ty = TfI64 -> floor < wrap ->
  dv_ok ty (int_value ty (floor - wrap)) -> dv_ok ty (int_value ty (floor + wrap)) -> Forall (restock_of floor wrap) txs ->
  forall row value c, stored_row desc columns ki vi tys row key value -> row a = Value (int_value ty c) -> floor <= c < floor + wrap ->
  exists value' c', updates_payload (restock_updates desc a txs) value = Ok value' /\ c' = restock floor wrap (total txs) c /\
  stored_row desc columns ki vi tys (set_column a (Value (int_value ty c')) row) key value'.
Proof.
  intros Ha Hkv Ety Hid Hw Hlo Hhi. induction 1 as [| [ts lit] txs (q & El & Hq) Htxs IH]; intros row value c Hst Erow Hc.
  { exists value, c. split_and!; [done | unfold restock; cbn; rewrite Z.mod_small; lia |]. eapply stored_ext; [| exact Hst].
    intros b. unfold set_column. case_decide; by subst. }
  set (c1 := restock floor wrap q c). pose proof (restock_range floor wrap q c ltac:(lia)) as Hc1. fold c1 in Hc1.
  set (row1 := set_column a (Value (int_value ty c1)) row). assert (row1 a = Value (int_value ty c1)) as E1 by (unfold row1, set_column; by rewrite decide_True).
  destruct (stored_deltas desc columns ki vi tys row row1 key value [] [mkDeltaAssign a DSubWrapDeferred lit]) as (value1 & Eu & Hst1); [done | done | done | | | done |].
  { constructor; [| done]. split; [done |]. by apply (delta_restock _ _ _ _ ty q floor wrap c). }
  { intros b _ Hb. unfold row1, set_column. rewrite decide_False; [done |]. intros ->. apply Hb. by left. }
  destruct (IH row1 value1 c1 Hst1 E1 Hc1) as (value' & c' & Ep & -> & Hst'). exists value', (restock floor wrap (total ((ts, lit) :: txs)) c).
  cbn [restock_updates fmap list_fmap updates_payload fst snd]. rewrite Eu. cbn [mbind res_bind]. fold (restock_updates desc a txs).
  split_and!; [exact Ep | done |]. eapply stored_ext; [| exact Hst']. intros b. unfold row1, set_column. case_decide; [| done]. do 2 f_equal.
  unfold c1. rewrite restock_restock. cbn [total foldr fst snd]. unfold quantity. cbn [snd] in El. by rewrite El.
Qed.
End deltas.
