(* ===== verification/RowTheorems.v ===== *)
(** * What rows promise

    The theorems of the row functions, for all data types with the laws of
    [TypeFnsOk], and runs with the types of [DataTypes]. *)

From S2P Require Import Prelude Errors Compat Snapshots Versions RelationProperties LogFrame XLocks TxState Storage Tuples TupleLayout TupleProperties TupleBuild TupleOrder DataTypes DataTypeLaws Tables Deltas TableProperties RowProperties DeltaProperties.

Section theorems.
Context {Ty V : Type} `{TypeFnsOk Ty V} `{PackagesOk}.
Implicit Types (columns : list (SchemaColumn Ty)) (row : Z -> NullableValue V) (data : list (Z * list byte)).

(** C10: An inserted row is selected as it was given.  A schema of columns
    with known types, each in the key or the value, has a table descriptor;
    the key and value tuples are built from the bytes of the columns, in any
    order, the omitted value columns being NULL where they are nullable and
    else the default of their type; and every projection of the two tuples
    returns the bytes of the selected columns, in the order selected. *)
Theorem insert_select default_type oid name columns ki vi tys row kdata vdata :
  schema_ok columns ki vi tys -> inserts columns ki vi tys row kdata vdata ->
  exists s desc, SchemaTable_new_with_oid oid name columns ki vi = Ok s /\ table_desc_of default_type s = Ok desc /\
  (row_fits desc ki vi tys row ->
   exists key value, build_key_tuple kdata desc = Ok key /\ build_value_tuple vdata desc = Ok value /\ stored_row desc columns ki vi tys row key value /\
   forall select, Forall (fun a => a ∈ ki ++ vi) select ->
     project_selected_fields desc key value select = Ok (column_bytes tys row <$> select)).
Proof.
  intros Hs Hi. destruct (row_stored default_type oid name columns ki vi tys Hs) as (s & desc & Es & Ed & Hb). exists s, desc. split_and!; [done | done |].
  intros Hfit. destruct (Hb row kdata vdata Hi Hfit) as (key & value & Ek & Ev & Hst). exists key, value. split_and!; [done | done | done |].
  intros select. by eapply stored_project.
Qed.

(** C32: A predicate on key columns selects the rows that have these bytes.
    Where the columns of the predicate have the same place in the primary key
    as in the key tuple, [matches_predicate] compares each of them with the
    bytes of the row. *)
Theorem predicate_selects {F} desc columns ki vi tys row key value prefix :
  stored_row desc columns ki vi tys row key value ->
  Forall (fun x : Z * list byte => x.1 ∈ ki /\ exists fi, get_attr x.1 desc = Ok fi /\ fi_primary_index fi = Some (fi_datum_index fi)) prefix ->
  matches_predicate desc key (KeyPrefixEq prefix : Predicate F) = Ok (forallb (fun x => bool_decide (column_bytes tys row x.1 = Some x.2)) prefix).
Proof. intros Hst Hp. by eapply stored_prefix. Qed.

(** C38: A row is missed by its own key.  [matches_predicate] reads the field of
    the key tuple at the place that the column of the predicate has in the
    primary key.  Where another column has this place in the key tuple, because
    the columns of the key are not in the order of their types, the expected
    bytes are compared with that column: a row is not selected by its own
    bytes unless the two columns have the same bytes, and is selected by the
    bytes of the other column. *)
Theorem reordered_key_missed {F} desc columns ki vi tys row key value a b fa fb :
  stored_row desc columns ki vi tys row key value -> b ∈ ki -> get_attr a desc = Ok fa -> get_attr b desc = Ok fb ->
  fi_primary_index fa = Some (fi_datum_index fb) -> column_bytes tys row a <> column_bytes tys row b ->
  forall bs, (column_bytes tys row a = Some bs -> matches_predicate desc key (KeyPrefixEq [(a, bs)] : Predicate F) = Ok false) /\
    (column_bytes tys row b = Some bs -> matches_predicate desc key (KeyPrefixEq [(a, bs)] : Predicate F) = Ok true).
Proof.
  intros Hst Hb Efa Efb Hp Hne bs. cbn [matches_predicate].
  rewrite (stored_prefix_at _ _ _ _ _ _ _ _ a b fa fb bs [] Hst Hb Efa Efb Hp). split; intros E; case_bool_decide; congruence || done.
Qed.
End theorems.

Section updates.
Context `{PackagesOk}.
Implicit Types (row : Z -> NullableValue DataValue).

(** C17: An update changes the columns it sets and no others.  On a stored row, an
    update may set value columns of fixed length that are not NULL in the row
    to values of their types, and apply expressions to integer value columns
    that are not NULL, each evaluated on the row as it was; every expression
    has a result in the range of its column, and a deferred restock takes at
    most [wrap] from a quantity between [floor] and [floor + wrap].  The
    result is a stored row with the new values, and every projection of it
    returns them. *)
Theorem update_select desc columns ki vi tys row row' key value values deltas select :
  stored_row desc columns ki vi tys row key value -> (forall a, a ∈ ki -> a ∉ vi) ->
  Forall (given tys row') values -> Forall (fixed_column vi tys row) values.*1 ->
  Forall (fun d => da_attr d ∈ vi /\ delta_takes tys row row' d) deltas ->
  (forall a, a ∉ values.*1 -> a ∉ da_attr <$> deltas -> row' a = row a) ->
  Forall (fun a => a ∈ ki ++ vi) select ->
  exists value', apply_value_update_with_deltas value values deltas desc = Ok value' /\ stored_row desc columns ki vi tys row' key value' /\
  project_selected_fields desc key value' select = Ok (column_bytes tys row' <$> select).
Proof.
  intros Hst Hkv Hg Hf Hd Hsame Hsel. destruct (stored_deltas desc columns ki vi tys row row' key value values deltas) as (value' & E & Hst'); [done.. |].
  exists value'. split_and!; [done | done | by eapply stored_project].
Qed.

(** An expression out of range is refused.  Adding to or subtracting from
    an integer column is an error where the result is not a value of its type,
    and does not wrap around. *)
Theorem overflow_refused desc columns ki vi tys row key value a ty op n :
  stored_row desc columns ki vi tys row key value -> a ∈ vi -> tys !! Z.to_nat a = Some ty -> is_integer ty = true -> dv_ok ty n -> op <> DSubWrapDeferred ->
  forall v, row a = Value v -> delta_value ty op v n = None ->
  apply_value_update_with_deltas value [] [mkDeltaAssign a op (sent ty n)] desc = Err InvalidTuple.
Proof.
  intros Hst Ha Ety Hi Hn Hop v Erow Ed. unfold apply_value_update_with_deltas. cbn [resolve_deltas].
  by rewrite (eval_delta_ok desc columns ki vi tys row key value a ty op v n Hst Ha Erow Ety Hi Hn Hop), Ed.
Qed.

(** C11: Deferred restocks commute and none is lost.  However the transactions
    that restock one column of a row, each by at most [wrap] and with the
    quantity between [floor] and [floor + wrap], come to apply their restocks
    to the newest version of the row, the row ends with the quantity lowered
    by the sum of all of them, modulo [wrap]. *)
Theorem restocks_commute desc columns ki vi tys row key a ty c floor wrap txs r h v :
  row_rep false r h -> last h = Some v -> stored_row desc columns ki vi tys row key (vt_buf v) ->
  (forall a, a ∈ ki -> a ∉ vi) -> a ∈ vi -> tys !! Z.to_nat a = Some ty -> dt_id ty = TfI32 \/ dt_id ty = TfI64 ->
  row a = Value (int_value ty c) -> floor < wrap -> floor <= c < floor + wrap -> Forall (restock_of floor wrap) txs ->
  dv_ok ty (int_value ty (floor - wrap)) -> dv_ok ty (int_value ty (floor + wrap)) ->
  forall txs', txs' ≡ₚ txs -> exists r' value,
  apply_updates (restock_updates desc a txs') r = (Ok tt, r') /\ option_map vt_buf (row_read_latest r') = Some value /\
  stored_row desc columns ki vi tys (set_column a (Value (int_value ty (restock floor wrap (total txs) c))) row) key value.
Proof.
  intros Hr Hv Hst Hkv Ha Ety Hid Erow Hw Hc Htxs Hlo Hhi txs' Hp. rewrite <- Hp in Htxs. rewrite <- (total_perm _ _ Hp).
  destruct (restocks_payload desc columns ki vi tys key a ty floor wrap txs' Ha Hkv Ety Hid Hw Hlo Hhi Htxs row (vt_buf v) c Hst Erow Hc)
    as (value & c' & Ep & -> & Hst').
  destruct (deferred_updates_compose r h v (restock_updates desc a txs') Hr Hv) as (r' & vs & E & _ & _ & Hok).
  rewrite Ep in E. destruct (Hok value Ep) as [_ El]. by exists r', value.
Qed.
(** A transaction reads its own deferred assignments: the newest committed
    row with the assignments applied. *)
Theorem pending_read {R : Type} `{RelationOps R} (tables : Z -> RS (TableDesc DataType)) (open : PhysicalRelationId -> TableDesc DataType -> RS R)
    desc columns ki vi tys row row' key value deltas oid part k txm (s s' : WorkerStorage R) :
  let _ := table_catalog tables open in
  let relation_id := physical_id oid part s in
  get_relation relation_id k (tm_state txm) = None -> get_relation_deltas relation_id k (tm_state txm) = Some deltas ->
  tables oid = Ok desc -> read_visible_relation_value relation_id k latest_committed s = (Ok (Some value), s') ->
  stored_row desc columns ki vi tys row key value -> (forall a, a ∈ ki -> a ∉ vi) ->
  Forall (fun d => da_attr d ∈ vi /\ delta_takes tys row row' d) deltas -> (forall a, a ∉ da_attr <$> deltas -> row' a = row a) ->
  exists value', get_on_partition oid part k txm s = (Ok (Some value'), s') /\ stored_row desc columns ki vi tys row' key value'.
Proof.
  intros cat relation_id Eg Ed Et Er Hst Hkv Hd Hsame.
  destruct (stored_deltas desc columns ki vi tys row row' key value [] deltas Hst) as (value' & E & Hst'); [constructor | constructor | done | auto | done |].
  exists value'. split; [| done]. unfold get_on_partition. st_step by reflexivity. fold relation_id. rewrite Eg, Ed.
  st_step by (unfold st_lift; cbn; rewrite Et; reflexivity). st_step by exact Er. cbn [apply_deltas_to_value]. st_step by (unfold st_lift; cbn; rewrite E; reflexivity). done.
Qed.
End updates.

(** ** Runs *)

Module RowRuns.
Import Reference.

Definition int : DataType := mkDataType TfI32 None.
Definition varchar : DataType := mkDataType TfString (Some (PString 10)).
Definition column (oid : Z) (ty : DataType) (nullable : bool) : SchemaColumn DataType := mkSchemaColumn oid [byte_of oid] (Ok ty) 0 None nullable.
Definition text (s : list byte) : NullableValue DataValue := Value (VString s).

(** [id INT PRIMARY KEY, name VARCHAR, quantity INT, note VARCHAR NULL] *)
Definition columns : list (SchemaColumn DataType) := [column 10 int false; column 11 varchar false; column 12 int false; column 13 varchar true].
Definition tys : list DataType := [int; varchar; int; varchar].
Definition row (a : Z) : NullableValue DataValue :=
  match a with 0 => Value (VI32 7) | 1 => text [x61; x62] | 2 => Value (VI32 20) | _ => Null end.
Definition kdata : list (Z * list byte) := [(0, sent int (VI32 7))].
Definition vdata : list (Z * list byte) := [(2, sent int (VI32 20)); (1, sent varchar (VString [x61; x62]))].

Lemma columns_ok : schema_ok columns [0] [1; 2; 3] tys.
Proof.
  split.
  - repeat constructor.
  - repeat constructor; set_solver.
  - repeat constructor; vm_compute; congruence.
  - vm_compute. split; congruence.
  - vm_compute. split; congruence.
Qed.

Ltac demo_given ty v := exists ty, v; split_and!; [reflexivity | reflexivity | vm_compute; intuition congruence | reflexivity].

Lemma data_ok : inserts columns [0] [1; 2; 3] tys row kdata vdata.
Proof.
  split.
  - done.
  - constructor; [demo_given int (VI32 7) | constructor].
  - repeat constructor; set_solver.
  - set_solver.
  - constructor; [demo_given int (VI32 20) | constructor; [demo_given varchar (VString [x61; x62]) | constructor]].
  - intros a Ha Hn. assert (a = 3) as -> by set_solver. reflexivity.
Qed.

Definition table_of (columns : list (SchemaColumn DataType)) (ki vi : list Z) : RS (TableDesc DataType) :=
  s ← SchemaTable_new_with_oid 1 [] columns ki vi; table_desc_of int s.

Lemma row_fits_demo s desc : SchemaTable_new_with_oid 1 [] columns [0] [1; 2; 3] = Ok s -> table_desc_of int s = Ok desc -> row_fits desc [0] [1; 2; 3] tys row.
Proof.
  intros Es Ed. assert ((s ← SchemaTable_new_with_oid 1 [] columns [0] [1; 2; 3]; d ← table_desc_of int s; Ok (tb_key_desc d, tb_value_desc d)) =
    Ok (tb_key_desc desc, tb_value_desc desc)) as E by (by rewrite Es; cbn [mbind res_bind]; rewrite Ed).
  unfold row_fits. revert E. generalize (tb_key_desc desc), (tb_value_desc desc). intros kd vd E. vm_compute in E. injection E as <- <-.
  vm_compute. split; congruence.
Qed.

Lemma insert_select_witness : exists s desc key value, SchemaTable_new_with_oid 1 [] columns [0] [1; 2; 3] = Ok s /\
  table_desc_of int s = Ok desc /\ build_key_tuple kdata desc = Ok key /\ build_value_tuple vdata desc = Ok value /\
  project_selected_fields desc key value [3; 2; 0] = Ok [None; Some (sent int (VI32 20)); Some (sent int (VI32 7))].
Proof.
  destruct (insert_select int 1 [] columns [0] [1; 2; 3] tys row kdata vdata columns_ok data_ok) as (s & desc & Es & Ed & Hb).
  destruct (Hb (row_fits_demo s desc Es Ed)) as (key & value & Ek & Ev & _ & Hsel). exists s, desc, key, value.
  split; [exact Es |]. split; [exact Ed |]. split; [exact Ek |]. split; [exact Ev |]. apply (Hsel [3; 2; 0]). repeat constructor; set_solver.
Defined.

(** The row of the runs, stored. *)
Lemma demo_stored : exists desc key value, table_of columns [0] [1; 2; 3] = Ok desc /\ stored_row desc columns [0] [1; 2; 3] tys row key value.
Proof.
  destruct (row_stored int 1 [] columns [0] [1; 2; 3] tys columns_ok) as (s & desc & Es & Ed & Hb).
  destruct (Hb row kdata vdata data_ok (row_fits_demo s desc Es Ed)) as (key & value & Ek & Ev & Hst). exists desc, key, value.
  split; [unfold table_of; by rewrite Es; cbn [mbind res_bind] | done].
Qed.

Lemma predicate_selects_witness : exists desc key, table_of columns [0] [1; 2; 3] = Ok desc /\
  matches_predicate desc key (KeyPrefixEq [(0, sent int (VI32 7))] : Predicate unit) = Ok true.
Proof.
  destruct demo_stored as (desc & key & value & Ed & Hst). exists desc, key. split; [exact Ed |].
  rewrite (predicate_selects desc columns [0] [1; 2; 3] tys row key value [(0, sent int (VI32 7))] Hst).
  - vm_compute. reflexivity.
  - constructor; [| constructor]. split; [set_solver |]. assert ((d ← table_of columns [0] [1; 2; 3]; get_attr 0 d) = get_attr 0 desc) as E by (by rewrite Ed).
    cbn [fst]. rewrite <- E. clear E. vm_compute. eexists. split; reflexivity.
Defined.

(** [SET quantity = quantity - 5] *)
Definition row_less (a : Z) : NullableValue DataValue := match a with 2 => Value (VI32 15) | _ => row a end.
Definition less_five : DeltaAssign := mkDeltaAssign 2 DSub (sent int (VI32 5)).

Lemma update_select_witness : exists desc key value value', table_of columns [0] [1; 2; 3] = Ok desc /\ stored_row desc columns [0] [1; 2; 3] tys row key value /\
  apply_value_update_with_deltas value [] [less_five] desc = Ok value' /\
  project_selected_fields desc key value' [1; 2] = Ok [Some (sent varchar (VString [x61; x62])); Some (sent int (VI32 15))].
Proof.
  destruct demo_stored as (desc & key & value & Ed & Hst). exists desc, key, value.
  destruct (update_select desc columns [0] [1; 2; 3] tys row row_less key value [] [less_five] [1; 2] Hst) as (value' & E & _ & Hsel).
  - set_solver.
  - constructor.
  - constructor.
  - constructor; [| constructor]. split; [set_solver |]. apply (delta_arith _ _ _ _ int (VI32 20) (VI32 5) (VI32 15)); try reflexivity; [| discriminate].
    vm_compute. split; congruence.
  - intros a _ Ha. unfold row_less. destruct (decide (a = 2)) as [-> | Hne]; [set_solver |]. repeat case_match; reflexivity || congruence.
  - repeat constructor; set_solver.
  - exists value'. split; [exact Ed |]. split; [exact Hst |]. split; [exact E | exact Hsel].
Defined.

Lemma overflow_refused_witness : exists desc key value, table_of columns [0] [1; 2; 3] = Ok desc /\ stored_row desc columns [0] [1; 2; 3] tys row key value /\
  apply_value_update_with_deltas value [] [mkDeltaAssign 2 DAdd (sent int (VI32 2147483628))] desc = Err InvalidTuple.
Proof.
  destruct demo_stored as (desc & key & value & Ed & Hst). exists desc, key, value. split; [exact Ed |]. split; [exact Hst |].
  apply (overflow_refused desc columns [0] [1; 2; 3] tys row key value 2 int DAdd (VI32 2147483628) Hst) with (v := VI32 20).
  - set_solver.
  - reflexivity.
  - reflexivity.
  - vm_compute. split; congruence.
  - discriminate.
  - reflexivity.
  - vm_compute. reflexivity.
Defined.

Definition restock_literal (q floor wrap : Z) : list byte := to_be_bytes 8 q ++ to_be_bytes 8 floor ++ to_be_bytes 8 wrap.

Lemma restocks_commute_witness : exists desc key value r' value',
  table_of columns [0] [1; 2; 3] = Ok desc /\
  apply_updates (restock_updates desc 2 [(mkTimestamp 6 U64_MAX, restock_literal 7 10 91); (mkTimestamp 5 U64_MAX, restock_literal 5 10 91)])
    (snd (write_row false (VersionTuple_new (mkTimestamp 4 U64_MAX) value) (DataRow_new 1))) = (Ok tt, r') /\
  option_map vt_buf (row_read_latest r') = Some value' /\
  exists row', row' 2 = Value (VI32 99) /\ stored_row desc columns [0] [1; 2; 3] tys row' key value'.
Proof.
  destruct demo_stored as (desc & key & value & Ed & Hst). exists desc, key, value.
  destruct (write_row_rep false (VersionTuple_new (mkTimestamp 4 U64_MAX) value) (DataRow_new 1) [] (row_rep_new 1)) as (r & E & Hr). rewrite E. cbn [snd].
  assert (Forall (restock_of 10 91) [(mkTimestamp 5 U64_MAX, restock_literal 5 10 91); (mkTimestamp 6 U64_MAX, restock_literal 7 10 91)]) as Hq.
  { apply Forall_cons. split; [exists 5; split; [reflexivity | lia] |]. apply Forall_singleton. exists 7. split; [reflexivity | lia]. }
  destruct (restocks_commute desc columns [0] [1; 2; 3] tys row key 2 int 20 10 91
    [(mkTimestamp 5 U64_MAX, restock_literal 5 10 91); (mkTimestamp 6 U64_MAX, restock_literal 7 10 91)]
    r [VersionTuple_new (mkTimestamp 4 U64_MAX) value] (VersionTuple_new (mkTimestamp 4 U64_MAX) value) Hr eq_refl Hst
    ltac:(set_solver) ltac:(set_solver) eq_refl (or_introl eq_refl) eq_refl ltac:(lia) ltac:(lia)
    Hq ltac:(vm_compute; split; congruence) ltac:(vm_compute; split; congruence)
    _ (Permutation_swap _ _ [])) as (r' & value' & E1 & E2 & Hst2).
  exists r', value'. split; [exact Ed |]. split; [exact E1 |]. split; [exact E2 |]. eexists. split; [| exact Hst2]. reflexivity.
Defined.

(** [PRIMARY KEY (name VARCHAR, id INT)]: the key tuple has the integer first. *)
Definition reordered : list (SchemaColumn DataType) := [column 20 varchar false; column 21 int false].

Definition reordered_row (a : Z) : NullableValue DataValue := match a with 0 => text [x61] | _ => Value (VI32 7) end.
Definition reordered_key : list (Z * list byte) := [(0, sent varchar (VString [x61])); (1, sent int (VI32 7))].

Lemma reordered_stored : exists desc key value, table_of reordered [0; 1] [] = Ok desc /\
  build_key_tuple reordered_key desc = Ok key /\ stored_row desc reordered [0; 1] [] [varchar; int] reordered_row key value.
Proof.
  assert (schema_ok reordered [0; 1] [] [varchar; int]) as Hs.
  { split; [repeat constructor | repeat constructor; set_solver | repeat constructor; vm_compute; congruence | vm_compute; split; congruence.. ]. }
  assert (inserts reordered [0; 1] [] [varchar; int] reordered_row reordered_key []) as Hi.
  { split; [done | | constructor | set_solver | constructor | set_solver].
    constructor; [demo_given varchar (VString [x61]) | constructor; [demo_given int (VI32 7) | constructor]]. }
  destruct (row_stored int 1 [] reordered [0; 1] [] [varchar; int] Hs) as (s & desc & Es & Ed & Hb).
  destruct (Hb reordered_row reordered_key [] Hi) as (key & value & Ek & Ev & Hst).
  - assert ((s ← SchemaTable_new_with_oid 1 [] reordered [0; 1] []; d ← table_desc_of int s; Ok (tb_key_desc d, tb_value_desc d)) =
      Ok (tb_key_desc desc, tb_value_desc desc)) as E by (by rewrite Es; cbn [mbind res_bind]; rewrite Ed).
    unfold row_fits. revert E. generalize (tb_key_desc desc), (tb_value_desc desc). intros kd vd E. vm_compute in E. injection E as <- <-.
    vm_compute. split; congruence.
  - exists desc, key, value. split; [unfold table_of; by rewrite Es; cbn [mbind res_bind] | done].
Qed.

(** The predicate [name = 'a'] is false of the row with the name 'a'. *)
Lemma reordered_key_missed_witness : exists desc key, table_of reordered [0; 1] [] = Ok desc /\ build_key_tuple reordered_key desc = Ok key /\
  matches_predicate desc key (KeyPrefixEq [(0, sent varchar (VString [x61]))] : Predicate unit) = Ok false.
Proof.
  destruct reordered_stored as (desc & key & value & Ed & Ek & Hst). exists desc, key. split; [exact Ed |]. split; [exact Ek |].
  assert ((d ← table_of reordered [0; 1] []; get_attr 0 d) = get_attr 0 desc) as E0 by (by rewrite Ed).
  assert ((d ← table_of reordered [0; 1] []; get_attr 1 d) = get_attr 1 desc) as E1 by (by rewrite Ed).
  vm_compute in E0, E1.
  refine (proj1 (reordered_key_missed desc reordered [0; 1] [] [varchar; int] reordered_row key value 0 1 _ _ Hst _ (eq_sym E0) (eq_sym E1) eq_refl _ _) _).
  - set_solver.
  - vm_compute. congruence.
  - vm_compute. reflexivity.
Defined.

(** [id INT PRIMARY KEY, a VARCHAR, b VARCHAR] *)
Definition two_strings : list (SchemaColumn DataType) := [column 30 int false; column 31 varchar false; column 32 varchar false].

(** An update of two strings corrupts the row.  [apply_value_update]
    computes every update on the row as it was and applies it to the row as
    changed by the ones before: setting two strings to longer values, here
    "aaa" and "bbbb", writes the second one over the first, which is then read
    as "a" and two zero bytes. *)
Theorem two_strings_corrupt :
  (desc ← table_of two_strings [0] [1; 2];
   key ← build_key_tuple [(0, sent int (VI32 7))] desc;
   value ← build_value_tuple [(1, sent varchar (VString [x61])); (2, sent varchar (VString [x62]))] desc;
   value' ← apply_value_update value [(1, sent varchar (VString [x61; x61; x61])); (2, sent varchar (VString [x62; x62; x62; x62]))] desc;
   project_selected_fields desc key value' [1; 2]) =
  Ok [Some (sent varchar (VString [x61; x00; x00])); Some (sent varchar (VString [x62; x62; x62; x62]))].
Proof. vm_compute. reflexivity. Qed.

(** A restock by more than [wrap] does not commute with others: from 10, first
    30 and then 0 gives 2, first 0 and then 30 gives -9. *)
Lemma restocks_differ : let eval c q := eval_sub_wrap (VI32 c) int (restock_literal q 10 11) in
  eval 10 30 = Ok (sent int (VI32 (-9))) /\ eval (-9) 0 = Ok (sent int (VI32 2)) /\
  eval 10 0 = Ok (sent int (VI32 10)).
Proof. vm_compute. repeat split. Qed.
End RowRuns.
