(* ===== verification/PartitionRouter.v ===== *)
(** * Partition routing

    [server/partition_router.rs], [contract/partition_rule.rs] and
    [partition_rule_binding.rs]: which partition of a table holds a key, and
    which ones a range of keys reaches.  The bindings and rules are found by
    the catalog ([MetaMgr]); the textual form of data types, which is JSON, is
    the parameter [fn_input]. *)

From S2P Require Import Prelude Errors Compat Versions Relation Storage Tuples DataTypes Tables.

(** ** Rules *)

Inductive PartitionBound : Type := PbUnbounded | PbValue (values : list (list byte)).

Record RangePartitionDef : Type := mkRangePartitionDef {
  rp_partition_id : Z;
  rp_name : list byte;
  rp_start : PartitionBound;
  rp_end : PartitionBound;
}.

Record PartitionRuleDesc : Type := mkPartitionRuleDesc {
  pr_oid : Z;
  pr_name : list byte;
  pr_key_types : list TypeFamily;
  pr_partitions : list RangePartitionDef;
  pr_version : Z;
}.

Record TablePartitionBinding : Type := mkTablePartitionBinding {
  pb_table_id : Z;
  pb_rule_id : Z;
  pb_ref_attr_indices : list Z;
}.

(** What the router asks the catalog. *)
Class MetaMgr := {
  get_table_partition_binding : Z -> RS (option TablePartitionBinding);
  get_partition_rule_by_id : Z -> RS PartitionRuleDesc;
}.

(** [fn_input] of a family, with the default type of the family. *)
Class TextInput := { fn_input : TypeFamily -> list byte -> Res TyEC DataValue }.

(** ** Text *)

(** [str::trim]: the white space of Unicode, in UTF-8, in front of a text and,
    in reverse, behind it. *)
Fixpoint trim_start (s : list byte) : list byte :=
  match s with
  | (x09 | x0a | x0b | x0c | x0d | x20) :: s' => trim_start s'
  | xc2 :: (x85 | xa0) :: s' => trim_start s'
  | xe1 :: x9a :: x80 :: s' => trim_start s'
  | xe2 :: x80 :: (x80 | x81 | x82 | x83 | x84 | x85 | x86 | x87 | x88 | x89 | x8a | xa8 | xa9 | xaf) :: s' => trim_start s'
  | xe2 :: x81 :: x9f :: s' => trim_start s'
  | xe3 :: x80 :: x80 :: s' => trim_start s'
  | _ => s
  end.

Fixpoint trim_back (s : list byte) : list byte :=
  match s with
  | (x09 | x0a | x0b | x0c | x0d | x20) :: s' => trim_back s'
  | (x85 | xa0) :: xc2 :: s' => trim_back s'
  | x80 :: x9a :: xe1 :: s' => trim_back s'
  | (x80 | x81 | x82 | x83 | x84 | x85 | x86 | x87 | x88 | x89 | x8a | xa8 | xa9 | xaf) :: x80 :: xe2 :: s' => trim_back s'
  | x9f :: x81 :: xe2 :: s' => trim_back s'
  | x80 :: x80 :: xe3 :: s' => trim_back s'
  | _ => s
  end.

Definition trim (s : list byte) : list byte := reverse (trim_back (reverse (trim_start s))).

Definition strip_text_literal_quotes (input : list byte) : list byte :=
  if (2 <=? zlen input) && bool_decide (head input = Some x27) && bool_decide (last input = Some x27)
  then take (length input - 2) (drop 1 input)
  else input.

Definition DT_CHAR_FIXED_LEN_DEFAULT : Z := 65536.

(** [DataType::default_for], for the modelled families; [BINARY] is not a
    scalar type, and panics. *)
Definition default_for (id : TypeFamily) : RS DataType :=
  match id with
  | TfBinary => Panic
  | TfString => Ok (mkDataType TfString (Some (PString DT_CHAR_FIXED_LEN_DEFAULT)))
  | TfTime => Ok (mkDataType TfTime (Some (PTime 6)))
  | TfTimestamp => Ok (mkDataType TfTimestamp (Some (PTimestamp 6)))
  | TfTimestampTz => Ok (mkDataType TfTimestampTz (Some (PTimestampTz 6)))
  | _ => Ok (mkDataType id None)
  end.

Section router.
Context `{Packages} `{MetaMgr} `{TextInput}.

(** [from_textual] and [to_binary]: a value of another family panics. *)
Definition textual_to_binary (data_type_id : TypeFamily) (data_type : DataType) (raw : list byte) : RS (list byte) :=
  if negb (utf8_valid raw) then Err Decode else
  let normalized := strip_text_literal_quotes (trim raw) in
  match data_type_id with
  | TfI32 | TfI64 | TfI128 | TfU128 | TfF32 | TfF64 | TfString =>
      datum ← map_err (fun _ => TypeConversionFailed) (fn_input data_type_id normalized);
      match data_type_id, datum with
      | TfI32, VI32 _ | TfI64, VI64 _ | TfI128, VI128 _ | TfU128, VU128 _ | TfF32, VF32 _ | TfF64, VF64 _ | TfString, VString _ =>
          map_err to_m_err (type_send datum data_type)
      | _, _ => Panic
      end
  | _ => Err NotImplemented
  end.

(** The loop over the values of a bound. *)
Fixpoint bound_binaries (route_desc : TupleBinaryDesc DataType) (index : Z) (values : list (list byte)) : RS (list (list byte)) :=
  match values with
  | [] => Ok []
  | textual :: values =>
      field_desc ← get_field_desc index route_desc;
      let data_type := fd_type_obj field_desc in
      binary ← textual_to_binary (dt_id data_type) data_type textual;
      rest ← bound_binaries route_desc (index + 1) values;
      Ok (binary :: rest)
  end.

Definition build_partition_bound_tuple (route_desc : TupleBinaryDesc DataType) (values : list (list byte)) : RS (list byte) :=
  if negb (field_count route_desc =? zlen values) then Err InvalidTuple else
  binaries ← bound_binaries route_desc 0 values;
  build_tuple binaries route_desc.

(** Whether a key is not before the start of a partition, and before its end. *)
Definition after_start (route_desc : TupleBinaryDesc DataType) (route_tuple : list byte) (start : PartitionBound) : RS bool :=
  match start with
  | PbUnbounded => Ok true
  | PbValue values =>
      bound ← build_partition_bound_tuple route_desc values;
      ord ← tuple_compare route_desc route_tuple bound;
      Ok (negb (match ord with Lt => true | _ => false end))
  end.

Definition before_end (route_desc : TupleBinaryDesc DataType) (route_tuple : list byte) (end_ : PartitionBound) : RS bool :=
  match end_ with
  | PbUnbounded => Ok true
  | PbValue values =>
      bound ← build_partition_bound_tuple route_desc values;
      ord ← tuple_compare route_desc route_tuple bound;
      Ok (match ord with Lt => true | _ => false end)
  end.

(** The loop over the partitions of a rule. *)
Fixpoint matching_partition (route_desc : TupleBinaryDesc DataType) (route_tuple : list byte) (partitions : list RangePartitionDef) : RS Z :=
  match partitions with
  | [] => Err EntityNotFound
  | partition :: partitions =>
      after ← after_start route_desc route_tuple (rp_start partition);
      before ← before_end route_desc route_tuple (rp_end partition);
      if (after && before : bool) then Ok (rp_partition_id partition) else matching_partition route_desc route_tuple partitions
  end.

(** The attributes of a route with the data of a key. *)
Fixpoint route_fields (table_desc : TableDesc DataType) (ref_attrs : list Z) : RS (list (DataType * Z)) :=
  match ref_attrs with
  | [] => Ok []
  | attr :: ref_attrs =>
      field ← get_attr attr table_desc;
      rest ← route_fields table_desc ref_attrs;
      Ok ((fi_type_desc field, fi_datum_index field) :: rest)
  end.

Definition build_route_tuple_desc (table_desc : TableDesc DataType) (ref_attrs : list Z) : RS (TupleBinaryDesc DataType) :=
  fields ← route_fields table_desc ref_attrs;
  desc_from (sort_by_key snd fields).*1.

Fixpoint route_values (ref_attrs : list Z) (key : list (Z * list byte)) : RS (list (list byte)) :=
  match ref_attrs with
  | [] => Ok []
  | attr :: ref_attrs =>
      binary ← (match list_find (fun x : Z * list byte => x.1 = attr) key with
                | Some (_, (_, binary)) => Ok binary
                | None => Err EntityNotFound
                end);
      rest ← route_values ref_attrs key;
      Ok (binary :: rest)
  end.

Definition build_route_tuple (table_desc : TableDesc DataType) (ref_attrs : list Z) (key : list (Z * list byte)) : RS (list byte) :=
  values ← route_values ref_attrs key;
  desc ← build_route_tuple_desc table_desc ref_attrs;
  build_tuple values desc.

Definition route_exact_partition (table_id : Z) (table_desc : TableDesc DataType) (key : list (Z * list byte)) : RS (option Z) :=
  binding ← get_table_partition_binding table_id;
  match binding with
  | None => Ok (Some DEFAULT_UNPARTITIONED_TABLE_PARTITION_ID)
  | Some binding =>
      rule ← get_partition_rule_by_id (pb_rule_id binding);
      route_tuple ← build_route_tuple table_desc (pb_ref_attr_indices binding) key;
      route_desc ← build_route_tuple_desc table_desc (pb_ref_attr_indices binding);
      partition_id ← matching_partition route_desc route_tuple (pr_partitions rule);
      Ok (Some partition_id)
  end.

Definition build_route_bound_tuple (table_desc : TableDesc DataType) (ref_attrs : list Z) (bound : Bound (list (Z * list byte)))
    : RS (Bound (list byte)) :=
  match bound with
  | Included values => tuple ← build_route_tuple table_desc ref_attrs values; Ok (Included tuple)
  | Excluded values => tuple ← build_route_tuple table_desc ref_attrs values; Ok (Excluded tuple)
  | Unbounded => Ok Unbounded
  end.

Definition partition_overlaps (rule : PartitionRuleDesc) (route_desc : TupleBinaryDesc DataType) (partition_id : Z)
    (start end_ : Bound (list byte)) : RS bool :=
  match list_find (fun p => rp_partition_id p = partition_id) (pr_partitions rule) with
  | None => Err EntityNotFound
  | Some (_, partition) =>
      start_ok ← (match end_, rp_start partition with
                  | Unbounded, _ | _, PbUnbounded => Ok true
                  | Included e, PbValue bound_start | Excluded e, PbValue bound_start =>
                      start_tuple ← build_partition_bound_tuple route_desc bound_start;
                      ord ← tuple_compare route_desc e start_tuple;
                      Ok (negb (match ord with Gt => false | _ => true end))
                  end);
      end_ok ← (match start, rp_end partition with
                | Unbounded, _ | _, PbUnbounded => Ok true
                | Included s, PbValue bound_end | Excluded s, PbValue bound_end =>
                    end_tuple ← build_partition_bound_tuple route_desc bound_end;
                    ord ← tuple_compare route_desc s end_tuple;
                    Ok (match ord with Lt => true | _ => false end)
                end);
      Ok (start_ok && end_ok)
  end.

(** The loop that collects the partitions a range reaches. *)
Fixpoint overlapping (rule : PartitionRuleDesc) (route_desc : TupleBinaryDesc DataType) (start end_ : Bound (list byte))
    (partitions : list RangePartitionDef) : RS (list Z) :=
  match partitions with
  | [] => Ok []
  | partition :: partitions =>
      overlaps ← partition_overlaps rule route_desc (rp_partition_id partition) start end_;
      rest ← overlapping rule route_desc start end_ partitions;
      Ok (if (overlaps : bool) then rp_partition_id partition :: rest else rest)
  end.

Definition route_range_partitions (table_id : Z) (table_desc : TableDesc DataType) (start end_ : Bound (list (Z * list byte)))
    : RS (option (list Z)) :=
  binding ← get_table_partition_binding table_id;
  match binding with
  | None => Ok (Some [DEFAULT_UNPARTITIONED_TABLE_PARTITION_ID])
  | Some binding =>
      rule ← get_partition_rule_by_id (pb_rule_id binding);
      route_desc ← build_route_tuple_desc table_desc (pb_ref_attr_indices binding);
      start_tuple ← build_route_bound_tuple table_desc (pb_ref_attr_indices binding) start;
      end_tuple ← build_route_bound_tuple table_desc (pb_ref_attr_indices binding) end_;
      partitions ← overlapping rule route_desc start_tuple end_tuple (pr_partitions rule);
      Ok (Some partitions)
  end.

(** ** Routes of a rule *)

Definition build_rule_tuple_desc (key_types : list TypeFamily) : RS (TupleBinaryDesc DataType) :=
  types ← mapM default_for key_types; desc_from types.

Definition build_rule_bound_tuple (route_desc : TupleBinaryDesc DataType) (bound : Bound (list (list byte))) : RS (Bound (list byte)) :=
  match bound with
  | Included values => tuple ← build_partition_bound_tuple route_desc values; Ok (Included tuple)
  | Excluded values => tuple ← build_partition_bound_tuple route_desc values; Ok (Excluded tuple)
  | Unbounded => Ok Unbounded
  end.

Definition route_rule_exact_partition (rule : PartitionRuleDesc) (key_values : list (list byte)) : RS Z :=
  route_desc ← build_rule_tuple_desc (pr_key_types rule);
  route_tuple ← build_partition_bound_tuple route_desc key_values;
  matching_partition route_desc route_tuple (pr_partitions rule).

Definition route_rule_range_partitions (rule : PartitionRuleDesc) (start end_ : Bound (list (list byte))) : RS (list Z) :=
  route_desc ← build_rule_tuple_desc (pr_key_types rule);
  start_tuple ← build_rule_bound_tuple route_desc start;
  end_tuple ← build_rule_bound_tuple route_desc end_;
  overlapping rule route_desc start_tuple end_tuple (pr_partitions rule).
End router.

Definition prefix_covers_partition_key (ref_attr_indices : list Z) (prefix : list (Z * list byte)) : bool :=
  forallb (fun ref_attr => existsb (fun x => x.1 =? ref_attr) prefix) ref_attr_indices.
