(* ===== verification/RouterProperties.v ===== *)
(** * What partition routing promises

    Keys are compared by the values of their columns, so that the partition of
    a key is the one whose bounds enclose its values; and the partitions a
    range reaches hold every key of the range, but for the last key of an
    inclusive range that is the first key of a partition. *)

From S2P Require Import Prelude Errors Compat Versions Relation Tuples TupleLayout TupleProperties TupleBuild TupleOrder DataTypes DataTypeLaws.
From S2P Require Import TupleTheorems Tables TableProperties RowProperties PartitionRouter.

(** ** Comparisons *)

(** A comparison that is a total order of the values that satisfy [Q]. *)
Record total_order {A} (Q : A -> Prop) (cmp : A -> A -> comparison) : Prop := mk_total_order {
  to_eq a b : Q a -> Q b -> cmp a b = Eq -> a = b;
  to_opp a b : Q a -> Q b -> cmp b a = CompOpp (cmp a b);
  to_trans a b c : Q a -> Q b -> Q c -> cmp a b = Lt -> cmp b c = Lt -> cmp a c = Lt;
}.

Lemma to_le_lt {A} (Q : A -> Prop) cmp a b c : total_order Q cmp -> Q a -> Q b -> Q c -> cmp a b <> Gt -> cmp b c = Lt -> cmp a c = Lt.
Proof.
  intros Ho Ha Hb Hc H1 H2. destruct (cmp a b) eqn:E; [| | done]; [| by eapply (to_trans _ _ Ho a b c)].
  by rewrite (to_eq _ _ Ho a b Ha Hb E).
Qed.

Lemma to_le_eq {A} (Q : A -> Prop) cmp a b : total_order Q cmp -> Q a -> Q b -> cmp b a <> Lt -> cmp a b <> Gt.
Proof. intros Ho Ha Hb H1 H2. rewrite (to_opp _ _ Ho a b Ha Hb), H2 in H1. by apply H1. Qed.

Lemma Z_order : total_order (fun _ => True) Z.compare.
Proof.
  split; intros *; intros.
  - by apply Z.compare_eq.
  - apply Z.compare_antisym.
  - rewrite Z.compare_lt_iff in *. lia.
Qed.

Lemma bytes_order : total_order (fun _ => True) bytes_compare.
Proof.
  split.
  - induction a as [| x a IH]; intros [| y b] _ _; cbn; try done. destruct (Z.compare_spec (Reference.byte_val x) (Reference.byte_val y)) as [E | |]; [| done..].
    intros Eab. f_equal; [| by apply IH]. rewrite <- (Reference.byte_of_val x (Reference.byte_val x)), E; [| by rewrite Z.mod_small by apply Reference.byte_val_range].
    apply Reference.byte_of_val. by rewrite Z.mod_small by apply Reference.byte_val_range.
  - induction a as [| x a IH]; intros [| y b] _ _; cbn; try done. rewrite (Z.compare_antisym (Reference.byte_val x)).
    destruct (Reference.byte_val x ?= Reference.byte_val y); [by apply IH | done..].
  - induction a as [| x a IH]; intros [| y b] [| z c] _ _ _; cbn; try done.
    destruct (Z.compare_spec (Reference.byte_val x) (Reference.byte_val y)); [| | done];
    destruct (Z.compare_spec (Reference.byte_val y) (Reference.byte_val z)); try done;
    destruct (Z.compare_spec (Reference.byte_val x) (Reference.byte_val z)); try done; try lia; by apply IH.
Qed.

Section values.
Context `{PackagesOk}.

Lemma dv_order ty : opt_fn_compare (dt_id ty) <> None -> total_order (dv_ok ty) (dv_compare ty).
Proof.
  destruct ty as [id p]. unfold dv_ok. cbn [dt_id]. intros Hc. destruct id; try (by destruct Hc).
  all: split; [intros v w Hv Hw | intros v w Hv Hw | intros v w x Hv Hw Hx]; destruct v; try (exfalso; exact Hv); destruct w; try (exfalso; exact Hw);
    try (destruct x; try (exfalso; exact Hx)); cbn [dv_compare].
  all: (intros E; f_equal; by apply Z_order || by apply bytes_order) || by apply Z_order || by apply bytes_order || (by eapply (to_trans _ _ Z_order)) ||
    (by eapply (to_trans _ _ bytes_order)).
Qed.

(** Lists of values of comparable types, compared column by column. *)
Definition row_cmp (tys : list DataType) : list DataValue -> list DataValue -> comparison := lexicographic dv_compare tys.

Lemma row_order tys : Forall (fun ty => opt_fn_compare (dt_id ty) <> None) tys -> total_order (fun vs => Forall2 dv_ok tys vs) (row_cmp tys).
Proof.
  intros Hc. unfold row_cmp. induction Hc as [| ty tys Hty Hc IH].
  { split; intros *; intros; repeat match goal with Hf : Forall2 _ [] _ |- _ => apply Forall2_nil_inv_l in Hf; subst end; done. }
  pose proof (dv_order ty Hty) as Ho. split.
  - intros vs ws Hv Hw. apply Forall2_cons_inv_l in Hv as (v & vs' & Hv & Hvs & ->). apply Forall2_cons_inv_l in Hw as (w & ws' & Hw & Hws & ->).
    cbn [lexicographic]. destruct (dv_compare ty v w) eqn:E; [| done..]. intros Er. f_equal; [by apply (to_eq _ _ Ho) | by apply (to_eq _ _ IH)].
  - intros vs ws Hv Hw. apply Forall2_cons_inv_l in Hv as (v & vs' & Hv & Hvs & ->). apply Forall2_cons_inv_l in Hw as (w & ws' & Hw & Hws & ->).
    cbn [lexicographic]. rewrite (to_opp _ _ Ho v w Hv Hw). destruct (dv_compare ty v w); [by apply (to_opp _ _ IH) | done..].
  - intros vs ws xs Hv Hw Hx. apply Forall2_cons_inv_l in Hv as (v & vs' & Hv & Hvs & ->). apply Forall2_cons_inv_l in Hw as (w & ws' & Hw & Hws & ->).
    apply Forall2_cons_inv_l in Hx as (x & xs' & Hx & Hxs & ->). cbn [lexicographic].
    destruct (dv_compare ty v w) eqn:E1; [apply (to_eq _ _ Ho) in E1 as <-; [| done..] | | done].
    + destruct (dv_compare ty v x); [by apply (to_trans _ _ IH) | done..].
    + intros _. destruct (dv_compare ty w x) eqn:E2; [apply (to_eq _ _ Ho) in E2 as <-; [| done..] | | done]; [by rewrite E1 |].
      by rewrite (to_trans _ _ Ho v w x Hv Hw Hx E1 E2).
Qed.
End values.

(** ** Keys and bounds of a route *)

Section route.
Context `{PackagesOk} `{TextInput}.
Variables (tys : list DataType).
Hypothesis Hok : fields_ok (plain tys).
Hypothesis Hcmp : Forall (fun ty => opt_fn_compare (dt_id ty) <> None) tys.

Notation route_desc := (desc_of (plain tys) 0).

(** The values of a key, and its tuple. *)
Definition key_ok (vs : list DataValue) : Prop := all_ok (plain tys) vs /\ tuple_fits (plain tys) (Value <$> vs).
Definition key_tuple (vs : list DataValue) : list byte := encode (plain tys) (Value <$> vs) (null_bits (plain tys) (Value <$> vs)).

Lemma key_ok_values vs : key_ok vs -> Forall2 dv_ok tys vs.
Proof. intros [Hv _]. unfold all_ok, plain in Hv. rewrite Forall2_fmap_l in Hv. exact Hv. Qed.

Lemma compare_keys vs ws : key_ok vs -> key_ok ws -> tuple_compare route_desc (key_tuple vs) (key_tuple ws) = Ok (row_cmp tys vs ws).
Proof.
  intros [Hv Fv] [Hw Fw]. unfold row_cmp.
  pose proof (compare_encoded dv_compare (plain tys) vs ws 0 Hok Hv Hw Fv Fw) as E. rewrite plain_types in E. apply E. eapply Forall_impl; [exact Hcmp |]. apply dv_comparable.
Qed.

Lemma build_key vs : key_ok vs -> build_tuple (sent_all (plain tys) vs) route_desc = Ok (key_tuple vs).
Proof. intros [Hv Fv]. by apply build_tuple_ok. Qed.

(** The textual values of a bound. *)
Definition bound_values (values : list (list byte)) (ws : list DataValue) : Prop :=
  key_ok ws /\ Forall3 (fun ty text w => textual_to_binary (dt_id ty) ty text = Ok (sent ty w)) tys values ws.

Lemma field_at (i : nat) ty : tys !! i = Some ty -> exists fd, get_field_desc (Z.of_nat i) route_desc = Ok fd /\ fd_type_obj fd = ty.
Proof.
  intros E. assert (plain tys !! i = Some (ty, false, None)) as Ef by (unfold plain; by rewrite list_lookup_fmap, E).
  destruct (layout_lookup (plain tys) i _ (aligned_byte_len (count_nullable (plain tys)))
    (aligned_byte_len (count_nullable (plain tys)) + SLOT_SIZE * var_n (plain tys)) Ef) as (fd & Efd & Ety & _).
  exists fd. split; [by apply get_field_desc_at | done].
Qed.

Lemma bound_binaries_ok tys' values ws : Forall3 (fun ty text w => textual_to_binary (dt_id ty) ty text = Ok (sent ty w)) tys' values ws ->
  forall i, drop i tys = tys' -> bound_binaries route_desc (Z.of_nat i) values = Ok (sent_all (plain tys') ws).
Proof.
  induction 1 as [| ty text w tys' values ws Ht Hrest IH]; intros i Ed; [done |]. cbn [bound_binaries].
  assert (tys !! i = Some ty) as Ety by (rewrite <- (Nat.add_0_r i), <- lookup_drop, Ed; done).
  destruct (field_at i ty Ety) as (fd & -> & Efd). cbn [mbind res_bind]. rewrite Efd, Ht. cbn [mbind res_bind].
  replace (Z.of_nat i + 1) with (Z.of_nat (S i)) by lia. rewrite (IH (S i)); [done |]. by rewrite (drop_S _ _ _ Ety) in Ed; injection Ed.
Qed.

Lemma build_bound values ws : bound_values values ws -> build_partition_bound_tuple route_desc values = Ok (key_tuple ws).
Proof.
  intros [Hk Hb]. unfold build_partition_bound_tuple. rewrite desc_count. assert (zlen (plain tys) = zlen values) as ->.
  { unfold zlen, plain. rewrite length_fmap. by apply Forall3_length_lm in Hb as ->. }
  rewrite Z.eqb_refl. cbn [negb]. pose proof (bound_binaries_ok tys values ws Hb 0 eq_refl) as Eb. change (Z.of_nat 0) with 0 in Eb. rewrite Eb. cbn [mbind res_bind]. by apply build_key.
Qed.

(** ** Partitions *)

(** The values a bound of a partition stands for. *)
Inductive bound_is : PartitionBound -> option (list DataValue) -> Prop :=
| bound_is_open : bound_is PbUnbounded None
| bound_is_values values ws : bound_values values ws -> bound_is (PbValue values) (Some ws).

(** The identifier of a partition, its first key and the key behind it. *)
Record area : Type := mk_area { ar_id : Z; ar_start : option (list DataValue); ar_end : option (list DataValue) }.

Definition area_of (p : RangePartitionDef) (a : area) : Prop :=
  rp_partition_id p = ar_id a /\ bound_is (rp_start p) (ar_start a) /\ bound_is (rp_end p) (ar_end a).

Definition contains_key (a : area) (vs : list DataValue) : bool :=
  match ar_start a with Some s => match row_cmp tys vs s with Lt => false | _ => true end | None => true end &&
  match ar_end a with Some e => match row_cmp tys vs e with Lt => true | _ => false end | None => true end.

Lemma matching_ok vs : key_ok vs -> forall partitions areas, Forall2 area_of partitions areas ->
  matching_partition route_desc (key_tuple vs) partitions =
    match list_find (fun a => contains_key a vs = true) areas with Some (_, a) => Ok (ar_id a) | None => Err EntityNotFound end.
Proof.
  intros Hk partitions areas. induction 1 as [| p a partitions areas (Eid & Hs & He) Hrest IH]; [done |]. cbn [matching_partition].
  assert (after_start route_desc (key_tuple vs) (rp_start p) =
    Ok match ar_start a with Some s => match row_cmp tys vs s with Lt => false | _ => true end | None => true end) as ->.
  { destruct Hs as [| values ws Hb]; [done |]. cbn [after_start]. rewrite (build_bound _ _ Hb). cbn [mbind res_bind].
    destruct Hb as [Hw _]. rewrite compare_keys by done. cbn [mbind res_bind]. by destruct (row_cmp tys vs ws). }
  assert (before_end route_desc (key_tuple vs) (rp_end p) =
    Ok match ar_end a with Some e => match row_cmp tys vs e with Lt => true | _ => false end | None => true end) as ->.
  { destruct He as [| values ws Hb]; [done |]. cbn [before_end]. rewrite (build_bound _ _ Hb). cbn [mbind res_bind].
    destruct Hb as [Hw _]. by rewrite compare_keys. }
  cbn [mbind res_bind list_find]. fold (contains_key a vs). rewrite IH.
  destruct (contains_key a vs) eqn:Ec; [rewrite decide_True by done; by rewrite Eid | rewrite decide_False by congruence].
  by destruct (list_find _ areas) as [[i b] |].
Qed.

(** A bound of a range. *)
Inductive range_bound : Bound (list byte) -> Bound (list DataValue) -> Prop :=
| rb_included vs : key_ok vs -> range_bound (Included (key_tuple vs)) (Included vs)
| rb_excluded vs : key_ok vs -> range_bound (Excluded (key_tuple vs)) (Excluded vs)
| rb_unbounded : range_bound Unbounded Unbounded.

(** What [partition_overlaps] computes. *)
Definition reaches (start end_ : Bound (list DataValue)) (a : area) : bool :=
  match end_, ar_start a with
  | Included e, Some s | Excluded e, Some s => match row_cmp tys e s with Gt => true | _ => false end
  | _, _ => true
  end &&
  match start, ar_end a with
  | Included s, Some e | Excluded s, Some e => match row_cmp tys s e with Lt => true | _ => false end
  | _, _ => true
  end.

Lemma overlaps_ok rule areas i p a start end_ s e : Forall2 area_of (pr_partitions rule) areas -> NoDup (ar_id <$> areas) ->
  pr_partitions rule !! i = Some p -> areas !! i = Some a -> range_bound start s -> range_bound end_ e ->
  partition_overlaps rule route_desc (rp_partition_id p) start end_ = Ok (reaches s e a).
Proof.
  intros Hf Hnd Ep Ea Hs He. unfold partition_overlaps.
  assert (list_find (fun q => rp_partition_id q = rp_partition_id p) (pr_partitions rule) = Some (i, p)) as ->.
  { apply list_find_Some. split_and!; [done | done |]. intros j q Eq Hlt E. destruct (Forall2_lookup_l _ _ _ _ _ Hf Eq) as (b & Eb & Eid & _).
    destruct (Forall2_lookup_l _ _ _ _ _ Hf Ep) as (a' & Ea' & Eid' & _). rewrite Ea in Ea'. injection Ea' as <-.
    assert (j = i); [| lia]. eapply (NoDup_lookup (ar_id <$> areas)); [done | rewrite list_lookup_fmap, Eb; done |].
    rewrite list_lookup_fmap, Ea. cbn. congruence. }
  destruct (Forall2_lookup_lr _ _ _ _ _ _ Hf Ep Ea) as (_ & Hst & Hen). unfold reaches.
  assert (forall v b ws, key_ok v -> bound_values b ws -> forall k : comparison -> RS bool,
    (t ← build_partition_bound_tuple route_desc b; ord ← tuple_compare route_desc (key_tuple v) t; k ord) = k (row_cmp tys v ws)) as Hk.
  { intros v b ws Hv Hb k. rewrite (build_bound _ _ Hb). cbn [mbind res_bind]. destruct Hb as [Hw _]. by rewrite compare_keys. }
  assert (forall v b ws (f : comparison -> bool), key_ok v -> bound_values b ws ->
    (t ← build_partition_bound_tuple route_desc b; ord ← tuple_compare route_desc (key_tuple v) t; Ok (f ord)) = Ok (f (row_cmp tys v ws))) as Hc
    by (intros v b ws f Hv Hb; by rewrite (Hk v b ws Hv Hb (fun ord => Ok (f ord)))).
  destruct He as [e He | e He |], Hst as [| bs ws Hb]; rewrite ?(Hc _ _ _ (fun ord => negb (match ord with Gt => false | _ => true end)) He Hb);
    cbn [mbind res_bind]; destruct Hs as [s Hs | s Hs |], Hen as [| bs' ws' Hb'];
    rewrite ?(Hc _ _ _ (fun ord => match ord with Lt => true | _ => false end) Hs Hb'); cbn [mbind res_bind]; try done; by destruct (row_cmp tys e ws).
Qed.

Lemma overlapping_ok rule areas start end_ s e : Forall2 area_of (pr_partitions rule) areas -> NoDup (ar_id <$> areas) ->
  range_bound start s -> range_bound end_ e ->
  overlapping rule route_desc start end_ (pr_partitions rule) = Ok (ar_id <$> filter (fun a => reaches s e a = true) areas).
Proof.
  intros Hf Hnd Hs He. assert (forall i, overlapping rule route_desc start end_ (drop i (pr_partitions rule)) =
    Ok (ar_id <$> filter (fun a => reaches s e a = true) (drop i areas))) as Hg; [| apply (Hg 0%nat)].
  intros i. remember (length areas - i)%nat as m eqn:Em. revert i Em. pose proof (Forall2_length _ _ _ Hf) as El. induction m as [| m IH]; intros i Em.
  { by rewrite !drop_ge by lia. }
  destruct (lookup_lt_is_Some_2 areas i ltac:(lia)) as [a Ea]. destruct (Forall2_lookup_r _ _ _ _ _ Hf Ea) as (p & Ep & Hp).
  rewrite (drop_S _ _ _ Ep), (drop_S _ _ _ Ea). cbn [overlapping]. rewrite (overlaps_ok rule areas i p a start end_ s e Hf Hnd Ep Ea Hs He).
  cbn [mbind res_bind]. rewrite (IH (S i)) by lia. cbn [mbind res_bind]. rewrite filter_cons. destruct Hp as (-> & _).
  destruct (reaches s e a); [by rewrite decide_True | by rewrite decide_False].
Qed.

(** The keys of a range. *)
Definition in_bounds (start end_ : Bound (list DataValue)) (vs : list DataValue) : Prop :=
  match start with Included s => row_cmp tys s vs <> Gt | Excluded s => row_cmp tys s vs = Lt | Unbounded => True end /\
  match end_ with Included e => row_cmp tys vs e <> Gt | Excluded e => row_cmp tys vs e = Lt | Unbounded => True end.

Definition bound_ok (b : Bound (list DataValue)) : Prop := match b with Included vs | Excluded vs => key_ok vs | Unbounded => True end.

Definition area_ok (a : area) : Prop :=
  match ar_start a with Some s => key_ok s | None => True end /\ match ar_end a with Some e => key_ok e | None => True end.

(** An inclusive range does not end with the first key of a partition. *)
Definition ends_inside (end_ : Bound (list DataValue)) (a : area) : Prop :=
  match end_, ar_start a with Included e, Some s => e <> s | _, _ => True end.

Lemma reaches_key a start end_ vs : key_ok vs -> area_ok a -> bound_ok start -> bound_ok end_ -> contains_key a vs = true ->
  in_bounds start end_ vs -> ends_inside end_ a -> reaches start end_ a = true.
Proof.
  intros Hvs [Has Hae] Hs He Hin [Hlo Hhi] Hends. apply key_ok_values in Hvs as Qv. pose proof (row_order tys Hcmp) as Ho.
  unfold contains_key in Hin. apply andb_prop in Hin as [H1 H2]. unfold reaches, ends_inside in *. apply andb_true_intro. split.
  - destruct (ar_start a) as [s |]; [| by destruct end_]. apply key_ok_values in Has as Qs.
    assert (row_cmp tys s vs <> Gt) as Hle by (apply (to_le_eq _ _ _ _ Ho Qs Qv); by destruct (row_cmp tys vs s)).
    destruct end_ as [e | e |]; [| | done]; apply key_ok_values in He as Qe; rewrite (to_opp _ _ Ho s e Qs Qe).
    + destruct (row_cmp tys vs e) eqn:E; [apply (to_eq _ _ Ho) in E as ->; [| done..] | | done].
      * destruct (row_cmp tys s e) eqn:E2; [| done | done]. apply (to_eq _ _ Ho) in E2 as ->; done.
      * by rewrite (to_le_lt _ _ s vs e Ho Qs Qv Qe Hle E).
    + by rewrite (to_le_lt _ _ s vs e Ho Qs Qv Qe Hle Hhi).
  - destruct (ar_end a) as [e |]; [| by destruct start]. apply key_ok_values in Hae as Qe.
    assert (row_cmp tys vs e = Lt) as Hlt by (by destruct (row_cmp tys vs e)).
    destruct start as [s | s |]; [| | done]; apply key_ok_values in Hs as Qs.
    + by rewrite (to_le_lt _ _ s vs e Ho Qs Qv Qe Hlo Hlt).
    + by rewrite (to_trans _ _ Ho s vs e Qs Qv Qe Hlo Hlt).
Qed.

(** ** The columns of a route *)

(** The columns that a table is partitioned by, in the order of its tuples. *)
Definition route_attrs (desc : TableDesc DataType) (attrs : list Z) : Prop := exists fis,
  Forall2 (fun a fi => get_attr a desc = Ok fi) attrs fis /\ fi_type_desc <$> fis = tys /\
  StronglySorted (fun x y : FieldInfo DataType => fi_datum_index x < fi_datum_index y) fis.

(** The data of a key has the bytes of its values. *)
Definition key_data (attrs : list Z) (data : list (Z * list byte)) (vs : list DataValue) : Prop :=
  key_ok vs /\ Forall3 (fun a ty v => exists i, list_find (fun x : Z * list byte => x.1 = a) data = Some (i, (a, sent ty v))) attrs tys vs.

Lemma route_desc_ok desc attrs : route_attrs desc attrs -> build_route_tuple_desc desc attrs = Ok route_desc.
Proof.
  intros (fis & Hf & Et & Hs). unfold build_route_tuple_desc. set (fields := (fun fi : FieldInfo DataType => (fi_type_desc fi, fi_datum_index fi)) <$> fis).
  assert (route_fields desc attrs = Ok fields) as ->.
  { unfold fields. clear -Hf. induction Hf as [| a fi attrs fis Ea Hf IH]; [done |]. cbn [route_fields]. rewrite Ea. cbn [mbind res_bind]. by rewrite IH. }
  cbn [mbind res_bind]. rewrite (sort_by_ok snd fields fields); [| | done].
  - assert (fields.*1 = tys) as -> by (unfold fields; rewrite <- list_fmap_compose; exact Et). by apply from_typed_fields_ok.
  - unfold fields. clear -Hs. induction Hs as [| fi fis Hs IH Hall]; [constructor |]. rewrite fmap_cons. constructor; [done |].
    rewrite Forall_fmap. exact Hall.
Qed.

Lemma route_tuple_ok desc attrs data vs : route_attrs desc attrs -> key_data attrs data vs -> build_route_tuple desc attrs data = Ok (key_tuple vs).
Proof.
  intros Ha [Hk Hd]. unfold build_route_tuple. rewrite (route_desc_ok desc attrs Ha).
  assert (forall tys', Forall3 (fun a ty v => exists i, list_find (fun x : Z * list byte => x.1 = a) data = Some (i, (a, sent ty v))) attrs tys' vs ->
    route_values attrs data = Ok (sent_all (plain tys') vs)) as Hv.
  { clear. intros tys'. induction 1 as [| a ty v attrs tys' vs (i & E) Hd IH]; [done |]. cbn [route_values]. rewrite E. cbn [mbind res_bind]. by rewrite IH. }
  rewrite (Hv tys Hd). cbn [mbind res_bind]. by apply build_key.
Qed.

(** The data of a bound of a range. *)
Inductive bound_data (attrs : list Z) : Bound (list (Z * list byte)) -> Bound (list DataValue) -> Prop :=
| bd_included data vs : key_data attrs data vs -> bound_data attrs (Included data) (Included vs)
| bd_excluded data vs : key_data attrs data vs -> bound_data attrs (Excluded data) (Excluded vs)
| bd_unbounded : bound_data attrs Unbounded Unbounded.

Lemma route_bound_ok desc attrs b vb : route_attrs desc attrs -> bound_data attrs b vb ->
  (exists t, build_route_bound_tuple desc attrs b = Ok t /\ range_bound t vb) /\ bound_ok vb.
Proof.
  intros Ha [data vs Hd | data vs Hd |]; [| | by split; [eexists; split; [done | constructor] |]]; (split; [| by destruct Hd]); cbn [build_route_bound_tuple];
    rewrite (route_tuple_ok desc attrs data vs Ha Hd); cbn [mbind res_bind]; (eexists; split; [reflexivity |]); destruct Hd as [Hk _]; by constructor.
Qed.

Lemma areas_ok partitions areas : Forall2 area_of partitions areas -> Forall area_ok areas.
Proof.
  induction 1 as [| p a partitions areas (_ & Hs & He) Hrest IH]; constructor; [| done]. unfold area_ok.
  split; [destruct Hs as [| ? ? [? _]] | destruct He as [| ? ? [? _]]]; done.
Qed.
End route.
