(* ===== verification/RouterTheorems.v ===== *)
(** * Routes of keys and ranges

    The theorems of partition routing, for every catalog and every textual
    form of the data types, and runs with decimal numbers. *)

From S2P Require Import Prelude Errors Compat Versions Relation Tuples TupleLayout TupleProperties TupleBuild DataTypes DataTypeLaws Tables TableProperties.
From S2P Require Import PartitionRouter RouterProperties RowTheorems.

Section theorems.
Context `{PackagesOk} `{MetaMgr} `{TextInput}.

(** A table that is partitioned by some of its columns: the rule it is bound
    to is found, its bounds are values of the columns' types, and its
    partitions have different identifiers. *)
Record routed (table_id : Z) (desc : TableDesc DataType) (attrs : list Z) (tys : list DataType) (areas : list area) : Prop := mk_routed {
  ro_binding : exists b rule, get_table_partition_binding table_id = Ok (Some b) /\ pb_ref_attr_indices b = attrs /\
    get_partition_rule_by_id (pb_rule_id b) = Ok rule /\ Forall2 (area_of tys) (pr_partitions rule) areas;
  ro_fields : fields_ok (plain tys);
  ro_comparable : Forall (fun ty => opt_fn_compare (dt_id ty) <> None) tys;
  ro_attrs : route_attrs tys desc attrs;
  ro_ids : NoDup (ar_id <$> areas);
}.

(** C19: A key is routed to the partition that encloses it.  For a table that is
    bound to a rule by columns of comparable types, listed in the order of the
    table's tuples, and a key that gives a value for each of these columns:
    routing returns the first partition whose start is not behind the key's
    values and whose end is, comparing them column by column, and fails with
    [EntityNotFound] when there is none. *)
Theorem route_exact_correct table_id desc attrs tys areas data vs : routed table_id desc attrs tys areas -> key_data tys attrs data vs ->
  route_exact_partition table_id desc data =
    match list_find (fun a => contains_key tys a vs = true) areas with Some (_, a) => Ok (Some (ar_id a)) | None => Err EntityNotFound end.
Proof.
  intros [(b & rule & Eb & Ea & Er & Hf) Hok Hc Ha _] Hd. unfold route_exact_partition. rewrite Eb. cbn [mbind res_bind]. rewrite Er. cbn [mbind res_bind].
  rewrite Ea, (route_tuple_ok tys Hok desc attrs data vs Ha Hd). cbn [mbind res_bind]. rewrite (route_desc_ok tys Hok desc attrs Ha). cbn [mbind res_bind].
  destruct Hd as [Hk _]. rewrite (matching_ok tys Hok Hc vs Hk _ areas Hf). by destruct (list_find _ areas) as [[i a] |].
Qed.

(** C12: A range reaches the partitions of its keys.  For a table that is bound
    to a rule by columns of comparable types, listed in the order of the
    table's tuples, and a range each bound of which is open or gives a value
    for each of these columns: routing does not fail, and the partition that a
    key is routed to is among the ones returned whenever the key's values of
    the partition columns lie within the range's values of these columns,
    unless the range includes its end and ends with the first values of some
    partition. *)
Theorem range_reaches_keys table_id desc attrs tys areas start end_ s e : routed table_id desc attrs tys areas ->
  bound_data tys attrs start s -> bound_data tys attrs end_ e -> Forall (ends_inside e) areas ->
  exists ids, route_range_partitions table_id desc start end_ = Ok (Some ids) /\
  forall data vs id, key_data tys attrs data vs -> in_bounds tys s e vs -> route_exact_partition table_id desc data = Ok (Some id) -> id ∈ ids.
Proof.
  intros [(b & rule & Eb & Ea & Er & Hf) Hok Hc Ha Hnd] Hs He Hends.
  destruct (route_bound_ok tys Hok desc attrs start s Ha Hs) as ((ts & Ets & Rs) & Os).
  destruct (route_bound_ok tys Hok desc attrs end_ e Ha He) as ((te & Ete & Re) & Oe).
  exists (ar_id <$> filter (fun a => reaches tys s e a = true) areas). split.
  - unfold route_range_partitions. rewrite Eb. cbn [mbind res_bind]. rewrite Er. cbn [mbind res_bind]. rewrite Ea, (route_desc_ok tys Hok desc attrs Ha).
    cbn [mbind res_bind]. rewrite Ets. cbn [mbind res_bind]. rewrite Ete. cbn [mbind res_bind]. by rewrite (overlapping_ok tys Hok Hc rule areas ts te s e).
  - intros data vs id Hd Hin. destruct Hd as [Hk Hd]. unfold route_exact_partition. rewrite Eb. cbn [mbind res_bind]. rewrite Er. cbn [mbind res_bind].
    rewrite Ea, (route_tuple_ok tys Hok desc attrs data vs Ha (conj Hk Hd)). cbn [mbind res_bind]. rewrite (route_desc_ok tys Hok desc attrs Ha). cbn [mbind res_bind].
    rewrite (matching_ok tys Hok Hc vs Hk _ areas Hf). destruct (list_find _ areas) as [[i a] |] eqn:Efind; [| done]. cbn. intros [= <-].
    apply list_find_Some in Efind as (Ei & Hcont & _). apply list_elem_of_lookup_2 in Ei. apply list_elem_of_fmap_2, list_elem_of_filter. split; [| done].
    pose proof (areas_ok tys _ _ Hf) as Hao. rewrite Forall_forall in Hao, Hends. by apply (reaches_key tys Hc a s e vs Hk); auto.
Qed.

(** C37: The last key of a range is missed.  Take a table as above and a range
    that includes its end.  If the last key of the range has the first values
    of the partition that it is routed to, this partition is not among the
    ones that the range is sent to, whatever the start of the range is. *)
Theorem range_end_missed table_id desc attrs tys areas start s data vs i a : routed table_id desc attrs tys areas ->
  bound_data tys attrs start s -> key_data tys attrs data vs ->
  list_find (fun a => contains_key tys a vs = true) areas = Some (i, a) -> ar_start a = Some vs ->
  route_exact_partition table_id desc data = Ok (Some (ar_id a)) /\
  exists ids, route_range_partitions table_id desc start (Included data) = Ok (Some ids) /\ ar_id a ∉ ids.
Proof.
  intros [(b & rule & Eb & Ea & Er & Hf) Hok Hc Ha Hnd] Hs Hd Hfind Hst. split.
  - unfold route_exact_partition. rewrite Eb. cbn [mbind res_bind]. rewrite Er. cbn [mbind res_bind].
    rewrite Ea, (route_tuple_ok tys Hok desc attrs data vs Ha Hd). cbn [mbind res_bind]. rewrite (route_desc_ok tys Hok desc attrs Ha). cbn [mbind res_bind].
    destruct Hd as [Hk _]. by rewrite (matching_ok tys Hok Hc vs Hk _ areas Hf), Hfind.
  - destruct (route_bound_ok tys Hok desc attrs start s Ha Hs) as ((ts & Ets & Rs) & Os).
    destruct (route_bound_ok tys Hok desc attrs (Included data) (Included vs) Ha ltac:(by constructor)) as ((te & Ete & Re) & Oe).
    exists (ar_id <$> filter (fun a => reaches tys s (Included vs) a = true) areas). split.
    + unfold route_range_partitions. rewrite Eb. cbn [mbind res_bind]. rewrite Er. cbn [mbind res_bind]. rewrite Ea, (route_desc_ok tys Hok desc attrs Ha).
      cbn [mbind res_bind]. rewrite Ets. cbn [mbind res_bind]. rewrite Ete. cbn [mbind res_bind]. by rewrite (overlapping_ok tys Hok Hc rule areas ts te s (Included vs)).
    + intros (a' & Eid & [Hr Hin]%list_elem_of_filter)%list_elem_of_fmap. apply list_find_Some in Hfind as (Ei & _ & _).
      apply list_elem_of_lookup in Hin as [j Ej]. assert (i = j) as ->.
      { eapply (NoDup_lookup (ar_id <$> areas)); [done | rewrite list_lookup_fmap, Ei; done |]. rewrite list_lookup_fmap, Ej. cbn. congruence. }
      rewrite Ei in Ej. injection Ej as <-. unfold reaches in Hr. rewrite Hst in Hr. destruct Hd as [Hk _].
      pose proof (to_opp _ _ (row_order tys Hc) vs vs (key_ok_values _ _ Hk) (key_ok_values _ _ Hk)) as Ho.
      by destruct (row_cmp tys vs vs).
Qed.
End theorems.

(** ** Runs *)

Module RouterRuns.
Import Reference RowRuns.

(** Decimal numbers. *)
Definition decimal (s : list byte) : Z := foldl (fun n b => 10 * n + (byte_val b - 48)) 0 s.

Instance demo_text : TextInput := {
  fn_input id s := match id with TfI32 => Ok (VI32 (decimal s)) | _ => Err TypeConvertFailed end
}.

Definition hundred : list byte := [x31; x30; x30].
Definition two_hundred : list byte := [x20; x27; x32; x30; x30; x27].

(** Two partitions, up to 100 and from 100 up to 200. *)
Instance demo_meta : MetaMgr := {
  get_table_partition_binding id := if id =? 5 then Ok (Some (mkTablePartitionBinding 5 9 [0])) else Ok None;
  get_partition_rule_by_id _ := Ok (mkPartitionRuleDesc 9 [] [TfI32]
    [mkRangePartitionDef 1 [] PbUnbounded (PbValue [hundred]); mkRangePartitionDef 2 [] (PbValue [hundred]) (PbValue [two_hundred])] 1);
}.

Definition areas : list area := [mk_area 1 None (Some [VI32 100]); mk_area 2 (Some [VI32 100]) (Some [VI32 200])].

(** [id INT PRIMARY KEY, quantity INT] *)
Definition table : RS (TableDesc DataType) := table_of [column 40 int false; column 41 int false] [0] [1].

Lemma table_ok : exists desc, table = Ok desc.
Proof.
  assert (match table with Ok _ => true | _ => false end = true) as E by (vm_compute; reflexivity).
  destruct table as [desc | |]; [by exists desc | discriminate ..].
Qed.

Definition key (n : Z) : list (Z * list byte) := [(0, sent int (VI32 n))].

Lemma key_data_demo n : in_signed 4 n -> key_data [int] [0] (key n) [VI32 n].
Proof.
  intros Hn. split; [split; [constructor; [exact Hn | constructor] | vm_compute; congruence] |]. constructor; [| constructor]. exists 0%nat. reflexivity.
Qed.

Lemma demo_bound n text : textual_to_binary TfI32 int text = Ok (sent int (VI32 n)) -> in_signed 4 n -> bound_is [int] (PbValue [text]) (Some [VI32 n]).
Proof.
  intros E Hn. constructor. split; [split; [constructor; [exact Hn | constructor] | vm_compute; congruence] |]. constructor; [exact E | constructor].
Qed.

Lemma demo_routed desc : table = Ok desc -> routed 5 desc [0] [int] areas.
Proof.
  intros Ed. split.
  - eexists _, _. split; [reflexivity |]. split; [reflexivity |]. split; [reflexivity |].
    assert (bound_is [int] (PbValue [hundred]) (Some [VI32 100])) by (apply demo_bound; [vm_compute; reflexivity | vm_compute; split; congruence]).
    assert (bound_is [int] (PbValue [two_hundred]) (Some [VI32 200])) by (apply demo_bound; [vm_compute; reflexivity | vm_compute; split; congruence]).
    constructor; [| constructor; [| constructor]]; (split; [reflexivity | split; [assumption || apply bound_is_open | assumption]]).
  - apply plain_ok; [repeat constructor | vm_compute; congruence].
  - repeat constructor. discriminate.
  - assert ((d ← table; get_attr 0 d) = get_attr 0 desc) as E by (by rewrite Ed).
    assert (exists fi, get_attr 0 desc = Ok fi /\ fi_type_desc fi = int) as (fi & Efi & Et) by (rewrite <- E; vm_compute; eexists; split; reflexivity).
    exists [fi]. split; [by constructor |]. split; [by rewrite <- Et | repeat constructor].
  - repeat constructor; set_solver.
Qed.

Lemma route_exact_correct_witness : exists desc, table = Ok desc /\ route_exact_partition 5 desc (key 150) = Ok (Some 2).
Proof.
  destruct table_ok as [desc Ed]. exists desc. split; [exact Ed |].
  rewrite (route_exact_correct 5 desc [0] [int] areas (key 150) [VI32 150] (demo_routed desc Ed)); [vm_compute; reflexivity |].
  apply key_data_demo. vm_compute. split; congruence.
Defined.

Lemma range_reaches_keys_witness : exists desc ids, table = Ok desc /\
  route_range_partitions 5 desc (Included (key 50)) (Included (key 150)) = Ok (Some ids) /\ 1 ∈ ids.
Proof.
  destruct table_ok as [desc Ed]. exists desc.
  destruct (range_reaches_keys 5 desc [0] [int] areas (Included (key 50)) (Included (key 150)) (Included [VI32 50]) (Included [VI32 150]) (demo_routed desc Ed))
    as (ids & E & Hids).
  - constructor. apply key_data_demo. vm_compute. split; congruence.
  - constructor. apply key_data_demo. vm_compute. split; congruence.
  - constructor; [exact I |]. constructor; [| constructor]. vm_compute. congruence.
  - exists ids. split; [exact Ed |]. split; [exact E |]. apply (Hids (key 70) [VI32 70] 1).
    + apply key_data_demo. vm_compute. split; congruence.
    + vm_compute. split; congruence.
    + clear Hids E. assert ((d ← table; route_exact_partition 5 d (key 70)) = Ok (Some 1)) as E by (vm_compute; reflexivity). rewrite Ed in E. exact E.
Defined.

(** The row 100 is not found between 50 and 100. *)
Lemma range_end_missed_witness : exists desc, table = Ok desc /\ route_exact_partition 5 desc (key 100) = Ok (Some 2) /\
  exists ids, route_range_partitions 5 desc (Included (key 50)) (Included (key 100)) = Ok (Some ids) /\ 2 ∉ ids.
Proof.
  destruct table_ok as [desc Ed]. exists desc. split; [exact Ed |].
  apply (range_end_missed 5 desc [0] [int] areas (Included (key 50)) (Included [VI32 50]) (key 100) [VI32 100] 1
    (mk_area 2 (Some [VI32 100]) (Some [VI32 200])) (demo_routed desc Ed)).
  - constructor. apply key_data_demo. vm_compute. split; congruence.
  - apply key_data_demo. vm_compute. split; congruence.
  - vm_compute. reflexivity.
  - reflexivity.
Defined.
End RouterRuns.
